(* ===== verification/_CoqProject ===== *)
-Q . S2P
Prelude.v
GoText.v
NetIP.v
NetUrl.v
GoHttp.v
Regex.v
TimedCache.v
PoolInterface.v
DhcpPool.v
MysqlPool.v
DhcpWire.v
PfDhcpUtils.v
PfDhcp.v
DhcpServer.v
Sync.v
RequestHistory.v
Interval.v
Aaa.v
Acct.v
AcctFlow.v
Dispatcher.v
Galera.v
Cron.v
DetectParser.v
FirewallSso.v
PfIpset.v
HttpDispatcher.v
PfDns.v
DnsName.v
DnsTree.v
DnsZone.v
PkiSql.v
Ocsp.v
Pki.v
PkiService.v
Caddyfile.v
ForwardProxy.v
ApiClient.v
Mitm.v
HttpServer.v
HttpSites.v
Replacer.v
Proxy.v
ProxyServe.v
ConfigDriver.v
WebApi.v
