(* ===== verification/Prelude.v ===== *)
(** * Verification of the Go services of PacketFence

    PacketFence is a network access control system.  Its Go code (src/go) is a
    set of services around a database: a DHCP server that hands out addresses
    to registered and unregistered devices, a DNS server and an HTTP dispatcher
    that lead unregistered devices to the captive portal, a service that keeps
    the sets of the firewall, single sign-on to other firewalls, an accounting
    service that charges the traffic and the time of a device to its balance, a
    parser of the logs of other systems, an API server with a token based login,
    a certificate authority, periodic jobs, the repair of the database cluster,
    and shared packages.  It has copies of two servers these services run in: the
    web server Caddy (go/caddy/caddy), whose plugins the API and the dispatcher
    are, and the DNS server CoreDNS (go/coredns).  This library models the parts
    of that code that decide something and proves what they promise.

    ** Parts and files

    Shared:

    - [Prelude]: errors, panics and state ([go], [gst]), machine integers with
      their wrap-around ([wrapU], [wrapS]), JSON values, the string functions of
      Go's strings and strconv, and the tactics and hints the other files share.
    - [GoText], [NetIP], [NetUrl], [GoHttp], [Regex]: what the sources use of
      strings, unicode/utf8, path, net, encoding/binary, net/url, the headers of
      net/http and regexp, with the laws of matching.
    - [TimedCache]: the interfaces of the third-party cache with expiry.

    DHCP (go/dhcp/pool, go/cmd/pfdhcp):

    - [PoolInterface]: the interface Backend of go/dhcp/pool/pool.go as the class
      [PoolOps], and its contract as the class [PoolLaws]: an abstract table of
      leases which every operation changes in one allowed way.
    - [DhcpPool], [MysqlPool]: the two backends (memory.go, mysql.go) and the
      theorems that they keep the contract.  Each operation is one atomic
      function, since it holds the mutex, respectively issues single statements.
    - [DhcpWire]: frames, checksums and option texts (rawClient.go, server.go,
      workers_pool.go, dictionary.go).
    - [PfDhcpUtils]: the helpers of the server (utils.go, keysoption.go, api.go).
    - [PfDhcp]: ServeDHCP of main.go: the choice of the scope, then Discover,
      Request, Release and Decline on the caches and the pool of that scope.  It
      is generic in the pool backend and in the cache.  Its relation [step] lets
      handlers, the goroutines they start and expiries of cache entries follow
      each other.
    - [DhcpServer]: the theorems about [PfDhcp].

    DNS zones (go/coredns/plugin/file, go/coredns/plugin/transfer):

    - [DnsName], [DnsTree]: names and their order, and the left-leaning red-black
      tree of a zone.
    - [DnsZone]: loading, lookup, reloading and transfers of a zone.

    Web server (go/caddy/caddy, go/caddy/forwardproxy):

    - [Caddyfile]: the lexer, the dispenser of tokens, the parser and the
      conversion to JSON (caddyfile).
    - [HttpServer], [HttpSites]: addresses, virtual hosts, TLS configurations and
      the way of a request to its site (caddyhttp/httpserver, caddytls), and the
      theorems about them.
    - [Mitm]: the parsing of a ClientHello and the comparison with the browser
      (caddyhttp/httpserver/mitm.go).
    - [Replacer]: the placeholders of texts (caddyhttp/httpserver/replacer.go).
    - [Proxy]: the hosts of the reverse proxy, the policies that choose one, the
      directive and the health checks (caddyhttp/proxy/policy.go, upstream.go).
    - [ProxyServe]: headers, URLs, attempts and retries of the reverse proxy
      (caddyhttp/proxy/proxy.go, reverseproxy.go, body.go).  A request that is
      sent again is one object with a shared map of headers, and is modelled so.
      Its module [Requests] is the transition system of many requests.
    - [ForwardProxy]: the forward proxy.

    Certificates (go/caddy/pfpki):

    - [PkiSql], [Pki]: the statements of a request, and the tables of authorities,
      profiles and certificates (sql/sql.go, models/models.go).
    - [Ocsp], [PkiService]: OCSP messages, the responder and the handlers of the
      API (ocsp, ocspresponder, handlers).

    Enforcement:

    - [PfDns]: the DNS server (go/coredns/plugin/pfdns): ServeDNS with its two
      caches, and the tables it builds from the configuration.
    - [HttpDispatcher]: the dispatcher of the portal (go/httpdispatcher).
    - [PfIpset]: the sets of the firewall (go/caddy/pfipset): the handlers queue
      jobs that one worker applies to the kernel, which is the class [Kernel].
    - [FirewallSso]: single sign-on (go/firewallsso, go/caddy/pfsso).

    Other services:

    - [Acct], [AcctFlow]: RADIUS accounting (go/cmd/pfacct/radius.go,
      nodeSession.go), NetFlow accounting (net_flow.go) and the in-memory buckets
      (nodes.go).
    - [Dispatcher]: the goroutines of the dispatcher of jobs and of its workers
      (go/cmd/pfacct/dispatcher.go) as a transition system.
    - [DetectParser]: the parsers of logs and their templates (go/detectparser).
    - [Cron]: the periodic jobs (go/cron, go/cmd/pfcron) on tables as multisets.
    - [Galera]: the repair of the database cluster (go/galeraautofix).
    - [Aaa]: go/api-frontend/aaa.
    - [ApiClient]: the gate of go/caddy/api-aaa and the client that talks to it
      (go/unifiedapiclient), composed.
    - [WebApi]: the search for RADIUS attributes, the log tailer, the status of
      jobs and the limit of requests (go/caddy/api, log-tailer, job-status,
      requestlimit), and go/db/csv_array.go, a module each.

    Shared packages of the program:

    - [ConfigDriver]: the configuration driver (go/pfconfigdriver): queries,
      replies, cached objects and the pool that refreshes them.
    - [Sync]: go/timedlock and go/tryableonce as transition systems of any number
      of goroutines.
    - [RequestHistory]: the ring buffer of go/requesthistory.
    - [Interval]: go/util/normalize_time.go and go/interval.

    A name of the source is kept where it can be; operations of the backends
    carry the prefixes mem_ and my_, the effect of a statement the prefix sql_.

    ** What the theorems show

    - Pools: both backends implement the abstract lease table, whatever the
      iteration order, the random numbers and the failures of the database are;
      in every reachable memory pool an address is free or leased and the counts
      add up.  Two theorems show where the code leaves the contract: the
      algorithm OldestReleased hands an address out again, and the MySQL backend
      never hands out index 0.
    - DHCP server, for every backend with [PoolLaws]: over any run of packets,
      delayed goroutines and expiries of cache entries, a client loses a lease
      only to a packet of its own or to a goroutine that was started to free its
      index; an offer is a lease of the client; an
      acknowledgement is only sent for its cached or static address; release and
      decline only give back its own address; the allocation loop ends within
      three rounds when the first address is not in use.  The other theorems of
      the group describe what happens after an address conflict, up to the loop
      that does not end.
    - Wire formats: checksums verify, addresses and ranges round trip, shuffling
      permutes.
    - DNS: a query is handed to the resolver only for a registered client in an
      enforcement network; the address of the portal is the right one in every
      order of the maps.  Other theorems show where that order decides, and which
      replies of the filter make the server panic.
    - HTTP dispatcher: what is proxied is allowed and not denied, what is not let
      through is redirected to the portal of the network of the client.
    - IP sets: marking a device leaves its address in exactly the sets of its
      status and its role; requests that overtake the worker leave it in two.
    - Single sign-on: nothing is sent for a device the firewall is not for; how
      long an update is cached; the formats of user names.
    - Accounting: the time buckets of a session, whose counters do not go back,
      sum up to the last counters that were stored; a Stop packet charges the session time exactly; NetFlow records
      are the sums per address.  Malformed vendor attributes make the worker
      panic, and time before registration is charged.
    - Detection: requests of a rule are spaced by its rate limit; templates
      expand to the concatenation of their parts; what the two forms of a DHCPACK
      line, and a line without a DHCP message, cause.
    - Periodic jobs: rotation conserves rows, cleanup removes the old rows and
      keeps the recent ones, the statements are well typed, a job never overlaps itself.
    - Cluster repair: at most one server starts the cluster, and data are only
      removed behind a live peer.
    - API: what passes the gate has a live token with the right to do it; reading
      tokens cannot write; the lifetime of a token; a login stores its token; a
      search returns what its query means; a log session that failed to start
      blocks the handler.
    - Configuration: a valid object is the content of its namespace unless that
      changed while it was fetched; a refresh brings the pool and the cached hashes up to date.
    - DNS zones: the tree keeps the records it is given and stays balanced; a
      lookup returns, with no slice of a name out of range; its answer comes from
      the zone; a name error means that its tree has no record
      at the name or below it, a delegated name is referred; a transfer copies the
      zone.
    - Web server: a configuration that is written is read back as it is; a
      request reaches the site with the most specific name and the longest path,
      and one with client authentication only over a connection that asked for
      the certificates; a path that is made safe stays below its root; no index of
      the parser of a ClientHello is out of range, and one that is encoded is
      read back; a template is filled in.
    - Reverse proxy: a policy chooses a host that is up, and finds one when there
      is one, if it looks at every host; the headers of the
      request that is sent are the right ones where no rule of the hosts is about
      them; every attempt sends the same request; the loop of attempts ends; the counters of a host are the requests at it and the timers that run
      for it, over all interleavings; a request only goes to a host that answers
      its check.  Examples beside these theorems show where their hypotheses are
      needed: pools of three, hosts with a base path, one host alone.
    - Forward proxy: nothing is dialed or sent without the credentials that are
      required, and CONNECT only reaches ports that are allowed.
    - Certificates: with a single authority, whose requests follow each other,
      the serial numbers of live certificates are distinct (examples show that
      two authorities, and requests at once, share them); a revoked certificate is
      reported as such; statements name columns of their table; the responder
      answers with the state of the tables, and panics for a serial number that
      is in none.
    - Jobs: under every interleaving jobs are conserved, and each of them is run if
      the workers go on.
    - Client of the API: with a token that has expired it logs in once and gets
      the answer of the handler behind the gate.
    - Synchronisation: mutual exclusion of the timed lock, one success of the
      retryable once, over all interleavings by rule induction.
    - History: the ring buffer refines the list of the most recent requests; an
      example shows what a recycled request holds.

    ** Conventions, bounds and fuel

    Errors are values, a panic is the value [Panic], and a state computation
    keeps the state it had when it panicked.  Integers are [Z] with the
    wrap-around of their Go type where it can matter.  What Go or the
    environment leaves open (map order, random numbers, clocks, failing
    statements, answers of other programs) is an oracle argument over which the
    theorems quantify; third-party packages are arguments, with the laws of
    their documentation as classes that have a concrete instance.

    Loops that are not structural have fuel.  [PfDhcp.retry] is the allocation
    loop of DHCPDISCOVER, which need not end: it answers [OutOfFuel], three
    rounds are enough when the first address is not in use
    ([discover_terminates]), and no fuel is enough otherwise
    ([discover_loops_on_index_zero]).  The loop over an address range,
    [PfDhcpUtils.range_loop], needs as much fuel as the range has addresses
    ([IPsFromRange_exact]) and need not end when the range is reversed; the
    iteration over the history, [RequestHistory.all_loop], has a result for any
    fuel above the size of the buffer
    ([history_is_recent_requests]).  The folding of a checksum,
    [DhcpWire.fold_sum], needs two rounds for every uint32 ([fold_sum_total]).
    [Acct.vsa_loop] takes at least two bytes a round, so the length of its data
    is enough ([vsa_loop_fuel]).  A repetition in [Regex] makes at most as many
    rounds as the subject has characters, and so do the loops that split, expand
    or replace a text, which take at least one character a round.  The waiting of
    a database server for the others ends at the latest when its deadline has
    passed, and enough fuel reaches that point ([rejoin_loop_returns]).  The
    loops of the periodic jobs repeat a statement until it changes nothing, fails
    or the time limit has passed; they answer [None] out of fuel, which a fuel
    above the size of the table rules out ([DoRotate_spec], [BatchStmt_delete]).
    The lexer of [Caddyfile] follows its text; the loops of its parser answer
    [Looping] out of fuel, since an import of itself or a variable that refers to
    itself does not end ([self_reference_loops]); a text that is written from
    server blocks is read with the fuel that [parse_reads_what_is_written] states.  [Mitm.read_extensions] takes at
    least four bytes a round.  The calls of [ApiClient] repeat themselves after a
    login: two are enough when the request is then answered; no number is when
    every login is granted and every other request refused ([refused_for_ever]).  The search of [Replacer.find_brace] and the
    replacement take at least one character a round ([find_brace_scan],
    [placeholders_fuel]).  The loop of attempts of the reverse proxy,
    [ProxyServe.attempts], answers [Running] out of fuel, which
    try_duration / try_interval + 2 turns rule out ([retries_end]); the loops over
    the block of its directive answer [Looping], as the dispenser gives the last
    token of a block that is not closed again and again.

    ** What is not modelled

    Sockets, HTTP plumbing, JSON encoding, statsd timings and logging of the
    modelled services, and the loading of their configuration apart from the
    tables that decide something; the overlapping of two handlers of one DHCP
    scope; the case of letters outside of ASCII ([ToLower]); the transports of single sign-on (RADIUS, SSH, syslog); the clients
    of other services (JSON-RPC, queues, Redis), the portal preview and the
    statistics collector, which only pass data on; the cryptography of the PKI
    and its ASN.1, which libraries do; of the copies of Caddy and CoreDNS the
    starting of servers, listeners, QUIC, the management of certificates, metrics
    and the plugins that are not named above; and
    everything that is not Go. *)
From Stdlib Require Import ZArith Lia Ascii.
From stdpp Require Import base gmap strings list pretty sorting fin_maps.

Open Scope Z_scope.

Declare Scope go_scope.
Delimit Scope go_scope with go.

(** ** Errors and panics

    A Go function that returns [(T, error)] is a function into a product whose
    last component is an [error]: [nil] is [None].  Code that can panic returns
    a [go] value. *)

Abbreviation error := (option string).
Abbreviation nil_error := (@None string).

Inductive go (A : Type) : Type :=
  | Ret (a : A)
  | Panic (msg : string).

Arguments Ret {A} _.
Arguments Panic {A} _.

Definition go_bind {A B : Type} (m : go A) (k : A -> go B) : go B :=
  match m with
  | Ret a => k a
  | Panic msg => Panic msg
  end.

Notation "x <-! m ;; k" := (go_bind m (fun x => k))
  (at level 100, m at next level, right associativity) : go_scope.

(** Stateful code that can panic: the state reached before a panic is kept,
    since a deferred [recover] lets the program continue from it. *)
Definition gst (St A : Type) : Type := St -> St * go A.

Definition gst_ret {St A : Type} (a : A) : gst St A := fun st => (st, Ret a).

Definition gst_bind {St A B : Type} (m : gst St A) (k : A -> gst St B) : gst St B :=
  fun st =>
    match m st with
    | (st', Ret a) => k a st'
    | (st', Panic msg) => (st', Panic msg)
    end.

Definition gst_lift {St A : Type} (m : go A) : gst St A := fun st => (st, m).
Definition gst_get {St A : Type} (f : St -> A) : gst St A := fun st => (st, Ret (f st)).
Definition gst_do {St : Type} (f : St -> St) : gst St unit := fun st => (f st, Ret tt).

Notation "x <-- m ;; k" := (gst_bind m (fun x => k))
  (at level 100, m at next level, right associativity) : go_scope.
Notation "m ;;; k" := (gst_bind m (fun _ => k))
  (at level 100, right associativity) : go_scope.

(** A value of Go's [interface{}] as encoding/json builds it; the list order of
    an object is the iteration order of the map. *)
Inductive jv : Type :=
  | JNil
  | JBool (b : bool)
  | JNum (z : Z)
  | JStr (s : string)
  | JArr (l : list jv)
  | JMap (m : list (string * jv)).

Definition type_panic : string := "interface conversion".

(** ** Machine integers

    A [w]-bit integer is a [Z]; the arithmetic of the source wraps around and
    the wrap-around is written out with these two functions. *)

Definition wrapU (w z : Z) : Z := z `mod` 2 ^ w.
Definition wrapS (w z : Z) : Z := (z + 2 ^ (w - 1)) `mod` 2 ^ w - 2 ^ (w - 1).

Abbreviation u64 := (wrapU 64).
Abbreviation u32 := (wrapU 32).
Abbreviation u16 := (wrapU 16).
Abbreviation u8 := (wrapU 8).
Abbreviation i64 := (wrapS 64).

Definition is_u (w z : Z) : Prop := 0 <= z < 2 ^ w.
Definition is_s (w z : Z) : Prop := - 2 ^ (w - 1) <= z < 2 ^ (w - 1).

(** ** Strings of the Go standard library *)

Fixpoint HasPrefix (s p : string) : bool :=
  match p, s with
  | EmptyString, _ => true
  | String c p', String d s' => bool_decide (c = d) && HasPrefix s' p'
  | String _ _, EmptyString => false
  end.

Fixpoint drop_str (n : nat) (s : string) : string :=
  match n, s with
  | O, _ => s
  | S n', String _ s' => drop_str n' s'
  | S _, EmptyString => EmptyString
  end.

Fixpoint take_str (n : nat) (s : string) : string :=
  match n, s with
  | O, _ => EmptyString
  | S n', String c s' => String c (take_str n' s')
  | S _, EmptyString => EmptyString
  end.

Definition HasSuffix (s p : string) : bool :=
  bool_decide (String.length p <= String.length s)%nat &&
  bool_decide (drop_str (String.length s - String.length p) s = p).

Definition TrimPrefix (s p : string) : string :=
  if HasPrefix s p then drop_str (String.length p) s else s.

(** [strings.Split(s, sep)] for a one-character separator: never empty. *)
Fixpoint Split (s : string) (sep : Ascii.ascii) : list string :=
  match s with
  | EmptyString => [EmptyString]
  | String c s' =>
      if decide (c = sep) then EmptyString :: Split s' sep
      else match Split s' sep with
           | [] => [String c EmptyString]
           | w :: ws => String c w :: ws
           end
  end.

(** The parts before and after the first [c], as strings.SplitN(s, c, 2) gives. *)
Fixpoint cut_at (c : Ascii.ascii) (s : string) : option (string * string) :=
  match s with
  | EmptyString => None
  | String d s' =>
      if decide (d = c) then Some (EmptyString, s')
      else match cut_at c s' with Some (a, b) => Some (String d a, b) | None => None end
  end.

(** The part before the first [sep], as strings.Split(s, sep) gives it. *)
Fixpoint before_str (sep s : string) : option string :=
  if HasPrefix s sep then Some EmptyString
  else match s with
       | EmptyString => None
       | String c s' => String c <$> before_str sep s'
       end.

(** The lower case of an ASCII letter. *)
Definition ascii_lower (c : Ascii.ascii) : Ascii.ascii :=
  let n := Ascii.nat_of_ascii c in
  if Nat.leb 65 n && Nat.leb n 90 then Ascii.ascii_of_nat (n + 32) else c.

(** [strings.ToLower] on ASCII text.  Letters outside of ASCII, which the function
    of the library changes too, are left as they are: names, schemes, headers and
    operators that are compared through it are ASCII. *)
Fixpoint ToLower (s : string) : string :=
  match s with
  | EmptyString => EmptyString
  | String c s' => String (ascii_lower c) (ToLower s')
  end.

(** [strings.Contains]. *)
Fixpoint StrContains (s sub : string) : bool :=
  HasPrefix s sub || match s with EmptyString => false | String _ s' => StrContains s' sub end.

(** [strings.Join(l, sep)]. *)
Fixpoint StrJoin (l : list string) (sep : string) : string :=
  match l with
  | [] => EmptyString
  | [w] => w
  | w :: ws => (w +:+ sep +:+ StrJoin ws sep)%string
  end.

(** [path.Clean], and [filepath.Clean] on Unix: the elements that stay, the last
    one first. *)
Definition clean_element (rooted : bool) (out : list string) (e : string) : list string :=
  if bool_decide (e = EmptyString) || bool_decide (e = "."%string) then out
  else if bool_decide (e = ".."%string) then
    match out with
    | [] => if rooted then [] else [e]
    | x :: rest => if bool_decide (x = ".."%string) then e :: out else rest
    end
  else e :: out.

Definition PathClean (p : string) : string :=
  let rooted := HasPrefix p "/" in
  let out := reverse (fold_left (clean_element rooted) (Split p "/") []) in
  if rooted then ("/" ++ StrJoin out "/")%string
  else match out with [] => "."%string | _ => StrJoin out "/" end.

(** [strings.Trim(s, " ")]: leading and trailing spaces removed. *)
Fixpoint TrimLeft (s : string) (c : Ascii.ascii) : string :=
  match s with
  | String d s' => if decide (d = c) then TrimLeft s' c else s
  | EmptyString => EmptyString
  end.

Definition Trim (s : string) (c : Ascii.ascii) : string :=
  String.rev (TrimLeft (String.rev (TrimLeft s c)) c).

(** [strconv.Itoa]. *)
Definition Itoa (z : Z) : string := pretty z.

(** The value of a decimal digit. *)
Definition digit (c : Ascii.ascii) : option Z :=
  let n := Z.of_nat (Ascii.nat_of_ascii c) in
  if decide (48 <= n <= 57) then Some (n - 48) else None.

(** The value of a string of digits. *)
Fixpoint digits (acc : Z) (s : string) : option Z :=
  match s with
  | EmptyString => Some acc
  | String c s' => match digit c with Some d => digits (acc * 10 + d) s' | None => None end
  end.

Definition max_int : Z := 2 ^ 63 - 1.
Definition min_int : Z := - 2 ^ 63.

(** [strconv.Atoi]: the value and whether there was an error.  A malformed
    number gives 0, one out of range the nearest int. *)
Definition Atoi (s : string) : Z * bool :=
  let '(neg, d) :=
    match s with
    | String "-" s' => (true, s')
    | String "+" s' => (false, s')
    | _ => (false, s)
    end in
  match d with
  | EmptyString => (0, true)
  | _ =>
      match digits 0 d with
      | None => (0, true)
      | Some v =>
          if neg then if decide (v > 2 ^ 63) then (min_int, true) else (- v, false)
          else if decide (v > max_int) then (max_int, true) else (v, false)
      end
  end.

(** [[]byte(s)] and [string(b)]. *)
Fixpoint bytes_of_string (s : string) : list Z :=
  match s with
  | EmptyString => []
  | String c s' => Z.of_nat (Ascii.nat_of_ascii c) :: bytes_of_string s'
  end.

Fixpoint string_of_bytes (b : list Z) : string :=
  match b with
  | [] => EmptyString
  | x :: b' => String (Ascii.ascii_of_nat (Z.to_nat x)) (string_of_bytes b')
  end.

(** The longest prefix whose elements satisfy [p]. *)
Fixpoint take_while {A : Type} (p : A -> bool) (l : list A) : list A :=
  match l with
  | [] => []
  | x :: l' => if p x then x :: take_while p l' else []
  end.

(** ** Lemmas *)

(** A computation that returned ran each of its parts to its value. *)
Lemma go_bind_Ret {A B} (m : go A) (k : A -> go B) b : go_bind m k = Ret b -> exists a, m = Ret a /\ k a = Ret b.
Proof. destruct m; [eauto|done]. Qed.

Lemma wrapU_range w z : 0 <= w -> is_u w (wrapU w z).
Proof. intros Hw. unfold is_u, wrapU. apply Z.mod_pos_bound. lia. Qed.

Lemma wrapU_small w z : is_u w z -> wrapU w z = z.
Proof. unfold is_u, wrapU. intros. by apply Z.mod_small. Qed.

Lemma wrapU_idem w z : 0 <= w -> wrapU w (wrapU w z) = wrapU w z.
Proof. intros Hw. by apply wrapU_small, wrapU_range. Qed.

Lemma wrapS_period w z q : 0 < w -> wrapS w (z + q * 2 ^ w) = wrapS w z.
Proof.
  intros Hw. unfold wrapS. f_equal.
  replace (z + q * 2 ^ w + 2 ^ (w - 1)) with (z + 2 ^ (w - 1) + q * 2 ^ w) by lia.
  apply Z.mod_add. apply Z.pow_nonzero; lia.
Qed.

Lemma wrapS_cong w z : 0 < w -> exists q, wrapS w z = z + q * 2 ^ w.
Proof.
  intros Hw. exists (- ((z + 2 ^ (w - 1)) / 2 ^ w)). unfold wrapS.
  pose proof (Z.div_mod (z + 2 ^ (w - 1)) (2 ^ w) ltac:(apply Z.pow_nonzero; lia)). lia.
Qed.

Lemma wrapS_mul_l w a b : 0 < w -> wrapS w (wrapS w a * b) = wrapS w (a * b).
Proof.
  intros Hw. destruct (wrapS_cong w a Hw) as [q ->].
  replace ((a + q * 2 ^ w) * b) with (a * b + (q * b) * 2 ^ w) by lia. by apply wrapS_period.
Qed.

Lemma wrapS_sub_l w a b : 0 < w -> wrapS w (wrapS w a - b) = wrapS w (a - b).
Proof.
  intros Hw. destruct (wrapS_cong w a Hw) as [q ->].
  replace (a + q * 2 ^ w - b) with (a - b + q * 2 ^ w) by lia. by apply wrapS_period.
Qed.

Lemma wrapS_add_l w a b : 0 < w -> wrapS w (wrapS w a + b) = wrapS w (a + b).
Proof. intros Hw. rewrite <- !(Z.sub_opp_r _ b). by apply wrapS_sub_l. Qed.

Lemma wrapS_small w z : 0 < w -> is_s w z -> wrapS w z = z.
Proof.
  unfold is_s, wrapS. intros Hw Hz. rewrite Z.mod_small; [lia|].
  replace (2 ^ w) with (2 * 2 ^ (w - 1)); [lia|]. rewrite <- Z.pow_succ_r by lia. f_equal; lia.
Qed.

Lemma length_omap_total {A B : Type} (f : A -> option B) (l : list A) :
  (forall x, x ∈ l -> is_Some (f x)) -> length (omap f l) = length l.
Proof.
  induction l as [|x l IH]; intros H; [done|].
  destruct (H x) as [y Hy]; [left|]. cbn. rewrite Hy. cbn. f_equal. apply IH.
  intros z ?. apply H. by right.
Qed.

Lemma size_map_to_list {A : Type} (m : gmap Z A) : size m = length (map_to_list m).
Proof. symmetry. apply length_map_to_list. Qed.

(** A map whose keys are [0 .. n-1] has [n] entries. *)
Lemma map_size_seqZ {A : Type} (m : gmap Z A) (n : Z) :
  (forall i, is_Some (m !! i) <-> 0 <= i < n) -> size m = Z.to_nat n.
Proof.
  intros H. rewrite <-size_dom.
  assert (dom m = list_to_set (seqZ 0 n)) as ->.
  { apply set_eq. intros i. rewrite elem_of_dom, elem_of_list_to_set, elem_of_seqZ, H. lia. }
  rewrite size_list_to_set by apply NoDup_seqZ. by rewrite length_seqZ.
Qed.

Lemma str_app_nil_r s : (s +:+ EmptyString)%string = s.
Proof. induction s as [|c s IH]; [done|].
  change (String c (s +:+ EmptyString) = String c s). by rewrite IH. Qed.

(** *** Strings *)

Fixpoint no_char (c : Ascii.ascii) (s : string) : bool :=
  match s with
  | EmptyString => true
  | String d s' => bool_decide (d <> c) && no_char c s'
  end.

Lemma no_char_app c s t : no_char c (s +:+ t) = no_char c s && no_char c t.
Proof.
  induction s as [|d s IH]; [done|].
  change (bool_decide (d <> c) && no_char c (s +:+ t) =
          bool_decide (d <> c) && no_char c s && no_char c t).
  by rewrite IH, andb_assoc.
Qed.

Lemma no_char_cons c d s : no_char c (String d s) = true -> d <> c /\ no_char c s = true.
Proof. cbn [no_char]. by intros [H%bool_decide_eq_true ?]%andb_true_iff. Qed.

Lemma cut_at_app c s t : no_char c s = true -> cut_at c (s +:+ String c t) = Some (s, t).
Proof.
  induction s as [|d s IH]; intros H.
  - change (cut_at c (String c t) = Some (EmptyString, t)). cbn [cut_at]. by rewrite decide_True.
  - cbn [no_char] in H. apply andb_true_iff in H as [H1%bool_decide_eq_true_1 H2].
    change (cut_at c (String d (s +:+ String c t)) = Some (String d s, t)). cbn [cut_at].
    by rewrite decide_False, IH.
Qed.

Lemma cut_at_none c s : no_char c s = true -> cut_at c s = None.
Proof.
  induction s as [|d s IH]; intros H; [done|]. cbn [no_char cut_at] in *.
  apply andb_true_iff in H as [H1%bool_decide_eq_true_1 H2]. by rewrite decide_False, IH.
Qed.

Lemma Split_plain c s : no_char c s = true -> Split s c = [s].
Proof.
  induction s as [|d s IH]; [done|]. cbn [no_char Split]. rewrite andb_true_iff.
  intros [Hd%bool_decide_eq_true_1 Hs]. rewrite decide_False by done. by rewrite (IH Hs).
Qed.

Lemma Split_app c s t : no_char c s = true -> Split (s +:+ String c t) c = s :: Split t c.
Proof.
  induction s as [|d s IH]; intros Hn.
  - change (EmptyString +:+ String c t)%string with (String c t). cbn [Split].
    by rewrite decide_True.
  - cbn [no_char] in Hn. apply andb_true_iff in Hn as [Hd%bool_decide_eq_true_1 Hs].
    change (String d s +:+ String c t)%string with (String d (s +:+ String c t)). cbn [Split].
    by rewrite decide_False, (IH Hs) by done.
Qed.

Lemma Split_StrJoin c l :
  l <> [] -> Forall (fun s => no_char c s = true) l -> Split (StrJoin l (String c EmptyString)) c = l.
Proof.
  intros Hne Hall. induction Hall as [|s l Hs Hall IH]; [done|].
  destruct l as [|s' l]; [by apply Split_plain|].
  change (StrJoin (s :: s' :: l) (String c EmptyString)) with
    (s +:+ String c (StrJoin (s' :: l) (String c EmptyString)))%string.
  rewrite Split_app by done. f_equal. by apply IH.
Qed.

Lemma str_app_assoc s t u : ((s +:+ t) +:+ u = s +:+ (t +:+ u))%string.
Proof.
  induction s as [|c s IH]; [done|].
  change (String c ((s +:+ t) +:+ u) = String c (s +:+ (t +:+ u)))%string. by rewrite IH.
Qed.

Lemma str_length_app s t : String.length (s +:+ t) = (String.length s + String.length t)%nat.
Proof.
  induction s as [|c s IH]; [done|].
  change (S (String.length (s +:+ t)) = S (String.length s + String.length t)). by rewrite IH.
Qed.

Lemma HasPrefix_app p s : HasPrefix (p +:+ s) p = true.
Proof.
  induction p as [|c p IH]; [by destruct s|].
  change (bool_decide (c = c) && HasPrefix (p +:+ s) p = true). by rewrite bool_decide_true.
Qed.

Lemma HasPrefix_inv s p : HasPrefix s p = true -> exists t, s = (p +:+ t)%string.
Proof.
  revert s. induction p as [|c p IH]; intros s H; [by exists s|].
  destruct s as [|d s]; [done|]. cbn [HasPrefix] in H.
  apply andb_true_iff in H as [<-%bool_decide_eq_true_1 H].
  destruct (IH _ H) as [t ->]. by exists t.
Qed.

Lemma drop_str_app p s : drop_str (String.length p) (p +:+ s) = s.
Proof.
  induction p as [|c p IH]; [by destruct s|].
  change (drop_str (String.length p) (p +:+ s) = s). done.
Qed.

Lemma TrimPrefix_app p s : TrimPrefix (p +:+ s) p = s.
Proof. unfold TrimPrefix. by rewrite HasPrefix_app, drop_str_app. Qed.

(** A stateful computation that relates its first to its last state by [R],
    also when it panics. *)
Definition pres {St A : Type} (R : St -> St -> Prop) (c : gst St A) : Prop :=
  forall s, R s (c s).1.

Section Pres.
Context {St : Type} (R : St -> St -> Prop) `{!PreOrder R}.

Lemma pres_bind {A B} (c : gst St A) (k : A -> gst St B) :
  pres R c -> (forall a, pres R (k a)) -> pres R (gst_bind c k).
Proof.
  intros Hc Hk s. specialize (Hc s). unfold gst_bind. destruct (c s) as [s' [a|msg]]; simpl in *.
  - etrans; [exact Hc|apply Hk].
  - exact Hc.
Qed.

Lemma pres_ret {A} (a : A) : pres R (gst_ret a).
Proof. intros s. simpl. reflexivity. Qed.

Lemma pres_lift {A} (c : go A) : pres R (gst_lift c).
Proof. intros s. simpl. reflexivity. Qed.

Lemma pres_get {A} (f : St -> A) : pres R (gst_get f).
Proof. intros s. simpl. reflexivity. Qed.

Lemma pres_do (f : St -> St) : (forall s, R s (f s)) -> pres R (gst_do f).
Proof. intros H s. apply H. Qed.

End Pres.

Create HintDb pres discriminated.
#[export] Hint Resolve pres_ret pres_lift pres_get : pres.
#[export] Hint Extern 1 (PreOrder _) => typeclasses eauto : pres.

(** Walks through a computation: binds, case distinctions, and the hints for
    the single operations. *)
Ltac pres_walk :=
  repeat first
    [ solve [auto with pres]
    | progress intros
    | apply pres_bind; [typeclasses eauto|..]
    | match goal with |- pres _ (match ?x with _ => _ end) => destruct x end ].

Lemma gst_bind_Ret {St A B} (c : gst St A) (k : A -> gst St B) s s' b :
  gst_bind c k s = (s', Ret b) -> exists s1 a, c s = (s1, Ret a) /\ k a s1 = (s', Ret b).
Proof. unfold gst_bind. destruct (c s) as [s1 [a|]]; [eauto|done]. Qed.

(** Takes a run that returned apart, one bind at a time. *)
Ltac inv_bind H s1 a Ha :=
  apply gst_bind_Ret in H as (s1 & a & Ha & H).

(** Induction on a list two elements at a time. *)
Lemma list_pair_ind {A : Type} (P : list A -> Prop) :
  P [] -> (forall a, P [a]) -> (forall a b l, P l -> P (a :: b :: l)) -> forall l, P l.
Proof.
  intros H0 H1 H2. fix IH 1. intros [|a [|b l]]; [done|apply H1|apply H2, IH].
Qed.

Lemma filter_none {A : Type} (P : A -> Prop) `{forall x, Decision (P x)} (l : list A) :
  (forall x, x ∈ l -> ~ P x) -> filter P l = [].
Proof.
  induction l as [|x l IH]; intros Hl; [done|]. rewrite filter_cons_False by (apply Hl; left).
  apply IH. intros y Hy. apply Hl. by right.
Qed.

Lemma filter_all {A : Type} (P : A -> Prop) `{forall x, Decision (P x)} (l : list A) :
  (forall x, x ∈ l -> P x) -> filter P l = l.
Proof.
  induction l as [|x l IH]; intros Hl; [done|]. rewrite filter_cons_True by (apply Hl; left). f_equal.
  apply IH. intros y Hy. apply Hl. by right.
Qed.

Lemma Forall_filtered {A} (P Q : A -> Prop) `{forall x, Decision (Q x)} l : Forall P l -> Forall P (filter Q l).
Proof. rewrite !Forall_forall. intros Hl x Hx. apply list_elem_of_filter in Hx as [_ Hx]. by apply Hl. Qed.

Lemma StronglySorted_filtered {A} (R : A -> A -> Prop) (P : A -> Prop) `{forall x, Decision (P x)} l :
  StronglySorted R l -> StronglySorted R (filter P l).
Proof.
  induction 1 as [|x l Hs IH Hx]; [constructor|]. rewrite filter_cons. case_decide; [|done].
  constructor; [done|by apply Forall_filtered].
Qed.
