(* ===== verification/GoText.v ===== *)
(** Runes, UTF-8 and the functions of the packages strings, unicode and path/filepath
    that several components share. *)
From S2P Require Import Prelude.
From Stdlib Require Import ZArith Lia Ascii.
From stdpp Require Import base strings list.

Open Scope Z_scope.

(** ** UTF-8 *)

(** utf8.DecodeRuneInString of a text that is not empty: the rune and its size. *)
Definition RuneError : Z := 65533.
Definition code (c : Ascii.ascii) : Z := Z.of_nat (Ascii.nat_of_ascii c).
Definition in_range (lo hi z : Z) : bool := (lo <=? z) && (z <=? hi).

Definition DecodeRune (s : string) : Z * nat :=
  match s with
  | EmptyString => (RuneError, 0%nat)
  | String c0 s0 =>
      let b0 := code c0 in
      if b0 <? 128 then (b0, 1%nat)
      else match s0 with
           | String c1 s1 =>
               let b1 := code c1 in
               if in_range 194 223 b0 && in_range 128 191 b1 then
                 (Z.lor (Z.shiftl (Z.land b0 31) 6) (Z.land b1 63), 2%nat)
               else match s1 with
                    | String c2 s2 =>
                        let b2 := code c2 in
                        if in_range 224 239 b0 && in_range (if b0 =? 224 then 160 else 128) (if b0 =? 237 then 159 else 191) b1 &&
                           in_range 128 191 b2 then
                          (Z.lor (Z.shiftl (Z.land b0 15) 12) (Z.lor (Z.shiftl (Z.land b1 63) 6) (Z.land b2 63)), 3%nat)
                        else match s2 with
                             | String c3 _ =>
                                 let b3 := code c3 in
                                 if in_range 240 244 b0 && in_range (if b0 =? 240 then 144 else 128) (if b0 =? 244 then 143 else 191) b1 &&
                                    in_range 128 191 b2 && in_range 128 191 b3 then
                                   (Z.lor (Z.shiftl (Z.land b0 7) 18) (Z.lor (Z.shiftl (Z.land b1 63) 12)
                                      (Z.lor (Z.shiftl (Z.land b2 63) 6) (Z.land b3 63))), 4%nat)
                                 else (RuneError, 1%nat)
                             | EmptyString => (RuneError, 1%nat)
                             end
                    | EmptyString => (RuneError, 1%nat)
                    end
           | EmptyString => (RuneError, 1%nat)
           end
  end.

(** The runes that a reader finds in a text: bytes that are not UTF-8 give the
    replacement character.  [skip] bytes belong to the rune before. *)
Fixpoint runes_skip (skip : nat) (s : string) : list Z :=
  match s with
  | EmptyString => []
  | String _ s' =>
      match skip with
      | S k => runes_skip k s'
      | O => let '(r, size) := DecodeRune s in r :: runes_skip (pred size) s'
      end
  end.

Definition runes : string -> list Z := runes_skip 0.

Definition char (b : Z) : Ascii.ascii := Ascii.ascii_of_nat (Z.to_nat b).

Definition valid_rune (r : Z) : bool := in_range 0 55295 r || in_range 57344 1114111 r.

(** utf8.EncodeRune *)
Definition EncodeValid (r : Z) : list Z :=
  if r <? 128 then [r]
  else if r <? 2048 then [192 + r / 64; 128 + r `mod` 64]
  else if r <? 65536 then [224 + r / 4096; 128 + (r / 64) `mod` 64; 128 + r `mod` 64]
  else [240 + r / 262144; 128 + (r / 4096) `mod` 64; 128 + (r / 64) `mod` 64; 128 + r `mod` 64].

Definition EncodeRune (r : Z) : list Z := EncodeValid (if valid_rune r then r else RuneError).

(** string(val) of a slice of runes *)
Fixpoint string_of_runes (rs : list Z) : string :=
  match rs with
  | [] => EmptyString
  | r :: rs' => (string_of_bytes (EncodeRune r) ++ string_of_runes rs')%string
  end.

(** unicode.IsSpace *)
Definition IsSpace (r : Z) : bool :=
  in_range 9 13 r || (r =? 32) || (r =? 133) || (r =? 160) || (r =? 5760) || in_range 8192 8202 r ||
  in_range 8232 8233 r || (r =? 8239) || (r =? 8287) || (r =? 12288).

(** ** Texts *)

(** [strings.Index]; None for -1. *)
Fixpoint StrIndex (s sub : string) : option nat :=
  if HasPrefix s sub then Some O
  else match s with EmptyString => None | String _ s' => S <$> StrIndex s' sub end.

(** [strings.Replace(s, old, new, -1)] with an [old] that is not empty. *)
Fixpoint replace_skip (skip : nat) (old new s : string) : string :=
  match s with
  | EmptyString => EmptyString
  | String c s' =>
      match skip with
      | S k => replace_skip k old new s'
      | O => if HasPrefix s old then (new ++ replace_skip (pred (String.length old)) old new s')%string
             else String c (replace_skip O old new s')
      end
  end.

Definition StrReplace (s old new : string) : string := replace_skip O old new s.

(** [strings.Count] of a character. *)
Fixpoint count_char (c : Ascii.ascii) (s : string) : nat :=
  match s with
  | EmptyString => O
  | String d s' => if decide (d = c) then S (count_char c s') else count_char c s'
  end.

(** [strings.ContainsAny] *)
Fixpoint ContainsAny (s chars : string) : bool :=
  match s with
  | EmptyString => false
  | String c s' => negb (no_char c chars) || ContainsAny s' chars
  end.

Open Scope string_scope.
Open Scope Z_scope.

Definition TrimSuffix (s p : string) : string :=
  if HasSuffix s p then take_str (String.length s - String.length p) s else s.

Fixpoint StrRepeat (s : string) (n : nat) : string :=
  match n with O => EmptyString | S n' => (s ++ StrRepeat s n')%string end.

(** The encodings of the white space, and [strings.TrimSpace] *)
Definition spaces : list string :=
  map (fun r => string_of_bytes (EncodeRune r))
    [9; 10; 11; 12; 13; 32; 133; 160; 5760; 8192; 8193; 8194; 8195; 8196; 8197; 8198; 8199; 8200; 8201; 8202;
     8232; 8233; 8239; 8287; 12288].

Fixpoint trim_spaces (has : string -> string -> bool) (cut : string -> string -> string) (n : nat) (s : string) : string :=
  match n with
  | O => s
  | S n' => match List.find (has s) spaces with Some sp => trim_spaces has cut n' (cut s sp) | None => s end
  end.

Definition TrimSpace (s : string) : string :=
  let left := trim_spaces HasPrefix TrimPrefix (String.length s) s in
  trim_spaces HasSuffix TrimSuffix (String.length left) left.

(** [strings.LastIndex] of a character *)
Fixpoint last_index_from (i : Z) (c : Ascii.ascii) (s : string) : Z :=
  match s with
  | EmptyString => -1
  | String d s' =>
      let later := last_index_from (i + 1) c s' in
      if 0 <=? later then later else if decide (d = c) then i else -1
  end.

Definition LastIndex (s : string) (c : Ascii.ascii) : Z := last_index_from 0 c s.

(** [filepath.IsAbs], [filepath.Join] and [filepath.Dir] on Unix *)
Definition IsAbs (p : string) : bool := HasPrefix p "/".

Definition PathJoin (elems : list string) : string :=
  match filter (fun e => bool_decide (e <> EmptyString)) elems with
  | [] => EmptyString
  | l => PathClean (StrJoin l "/")
  end.

(** What follows the last slash is dropped. *)
Definition PathDir (p : string) : string :=
  match reverse (Split p "/") with
  | [] => PathClean EmptyString
  | _ :: [] => PathClean EmptyString
  | _ :: rest => PathClean (StrJoin (reverse rest) "/" ++ "/")
  end.

(** [base64.StdEncoding.EncodeToString] *)
Definition base64_char (n : Z) : Ascii.ascii :=
  char (if n <? 26 then 65 + n else if n <? 52 then 71 + n else if n <? 62 then n - 4 else if n =? 62 then 43 else 47).

Definition pad : string := "=".
Fixpoint base64 (b : list Z) : string :=
  match b with
  | [] => EmptyString
  | [x] => String (base64_char (x / 4)) (String (base64_char (x `mod` 4 * 16)) (pad ++ pad))
  | [x; y] => String (base64_char (x / 4)) (String (base64_char (x `mod` 4 * 16 + y / 16))
                (String (base64_char (y `mod` 16 * 4)) pad))
  | x :: y :: z :: b' =>
      String (base64_char (x / 4)) (String (base64_char (x `mod` 4 * 16 + y / 16))
        (String (base64_char (y `mod` 16 * 4 + z / 64)) (String (base64_char (z `mod` 64)) (base64 b'))))
  end.

(** ** Lemmas *)

Lemma lor_shift_add a b n : 0 <= n -> 0 <= b < 2 ^ n -> Z.lor (Z.shiftl a n) b = a * 2 ^ n + b.
Proof.
  intros Hn Hb. rewrite Z.shiftl_mul_pow2 by done.
  assert (H0 : Z.land (a * 2 ^ n) b = 0).
  { apply Z.bits_inj'. intros i Hi. rewrite Z.land_spec, Z.bits_0. destruct (Z.lt_ge_cases i n) as [Hl|Hl].
    - by rewrite Z.mul_pow2_bits_low by lia.
    - rewrite <- (Z.mod_small b (2 ^ n)) by done. by rewrite Z.mod_pow2_bits_high, andb_false_r by lia. }
  by rewrite <- Z.lxor_lor, <- Z.add_nocarry_lxor.
Qed.

Lemma land_add_pow k q n : 0 <= n -> 0 <= q < 2 ^ n -> Z.land (k * 2 ^ n + q) (Z.ones n) = q.
Proof.
  intros Hn Hq. rewrite Z.land_ones by done. rewrite Z.add_comm, Z.mod_add by lia. by apply Z.mod_small.
Qed.

Lemma code_char b : 0 <= b < 256 -> code (char b) = b.
Proof. intros Hb. unfold code, char. rewrite Ascii.nat_ascii_embedding by lia. lia. Qed.

Lemma length_string_of_bytes l : String.length (string_of_bytes l) = length l.
Proof. induction l as [|x l IH]; cbn; [done|]. by rewrite IH. Qed.

Lemma in_range_iff lo hi z : in_range lo hi z = true <-> lo <= z <= hi.
Proof. unfold in_range. rewrite andb_true_iff, !Z.leb_le. done. Qed.

Lemma in_range_true lo hi z : lo <= z <= hi -> in_range lo hi z = true.
Proof. apply in_range_iff. Qed.

Lemma in_range_false lo hi z : z < lo \/ hi < z -> in_range lo hi z = false.
Proof. intros H. apply not_true_is_false. rewrite in_range_iff. lia. Qed.

(** Tests and masks of the bytes of an encoded rune *)
Ltac byte_tests :=
  rewrite ?code_char by lia;
  repeat match goal with
    | |- (if ?b then _ else _) = _ =>
        first [replace b with true by (unfold in_range; repeat case_match; lia)
              |replace b with false by (unfold in_range; repeat case_match; lia)]; cbv iota
    end.

Lemma decode_two q m s :
  2 <= q < 32 -> 0 <= m < 64 ->
  DecodeRune (String (char (192 + q)) (String (char (128 + m)) s)) = (q * 64 + m, 2%nat).
Proof.
  intros Hq Hm. unfold DecodeRune; cbv beta iota zeta.
  byte_tests. f_equal.
  replace (192 + q) with (6 * 2 ^ 5 + q) by lia. replace (128 + m) with (2 * 2 ^ 6 + m) by lia.
  change 31 with (Z.ones 5). change 63 with (Z.ones 6).
  rewrite !land_add_pow by lia. by rewrite lor_shift_add by lia.
Qed.

Lemma decode_three q m1 m2 s :
  0 <= q < 16 -> 0 <= m1 < 64 -> 0 <= m2 < 64 -> (q = 0 -> 32 <= m1) -> (q = 13 -> m1 < 32) ->
  DecodeRune (String (char (224 + q)) (String (char (128 + m1)) (String (char (128 + m2)) s))) = (q * 4096 + m1 * 64 + m2, 3%nat).
Proof.
  intros Hq Hm1 Hm2 H0 H13. unfold DecodeRune; cbv beta iota zeta.
  byte_tests. f_equal.
  replace (224 + q) with (14 * 2 ^ 4 + q) by lia; replace (128 + m1) with (2 * 2 ^ 6 + m1) by lia;
    replace (128 + m2) with (2 * 2 ^ 6 + m2) by lia.
  change 15 with (Z.ones 4); change 63 with (Z.ones 6); rewrite !land_add_pow by lia.
  rewrite (lor_shift_add m1) by lia; rewrite lor_shift_add by lia; lia.
Qed.

Lemma decode_four q m1 m2 m3 s :
  0 <= q < 5 -> 0 <= m1 < 64 -> 0 <= m2 < 64 -> 0 <= m3 < 64 -> (q = 0 -> 16 <= m1) -> (q = 4 -> m1 < 16) ->
  DecodeRune (String (char (240 + q)) (String (char (128 + m1)) (String (char (128 + m2)) (String (char (128 + m3)) s)))) =
    (q * 262144 + m1 * 4096 + m2 * 64 + m3, 4%nat).
Proof.
  intros Hq Hm1 Hm2 Hm3 H0 H4. unfold DecodeRune; cbv beta iota zeta.
  byte_tests. f_equal.
  replace (240 + q) with (30 * 2 ^ 3 + q) by lia; replace (128 + m1) with (2 * 2 ^ 6 + m1) by lia;
    replace (128 + m2) with (2 * 2 ^ 6 + m2) by lia; replace (128 + m3) with (2 * 2 ^ 6 + m3) by lia.
  change 7 with (Z.ones 3); change 63 with (Z.ones 6); rewrite !land_add_pow by lia.
  rewrite (lor_shift_add m2) by lia; rewrite (lor_shift_add m1) by lia; rewrite lor_shift_add by lia; lia.
Qed.

(** A number as its last six bits and the rest *)
Lemma split_six z : exists a m, z = a * 64 + m /\ 0 <= m < 64 /\ z / 64 = a /\ z `mod` 64 = m.
Proof.
  exists (z / 64), (z `mod` 64). pose proof (Z.div_mod z 64 ltac:(lia)). pose proof (Z.mod_pos_bound z 64 ltac:(lia)). lia.
Qed.

(** The bytes of a rune are decoded to the rune. *)
Lemma decode_encode r s :
  valid_rune r = true ->
  DecodeRune (string_of_bytes (EncodeRune r) +:+ s) = (r, length (EncodeRune r)).
Proof.
  intros Hv. unfold EncodeRune. rewrite Hv. unfold EncodeValid.
  assert (Hr : 0 <= r <= 55295 \/ 57344 <= r <= 1114111).
  { unfold valid_rune in Hv. apply orb_true_iff in Hv as [Hv|Hv]; apply in_range_iff in Hv; lia. }
  replace (r / 4096) with (r / 64 / 64) by (rewrite Z.div_div; [done|lia|lia]).
  replace (r / 262144) with (r / 64 / 64 / 64) by (rewrite !Z.div_div; [done|lia..]).
  destruct (split_six r) as (a & m & Er & Hm & -> & ->). destruct (split_six a) as (b & m1 & Ea & Hm1 & -> & ->).
  destruct (split_six b) as (c & m2 & Eb & Hm2 & -> & ->).
  destruct (Z.ltb_spec r 128); [|destruct (Z.ltb_spec r 2048); [|destruct (Z.ltb_spec r 65536)]].
  - change (string_of_bytes [r] +:+ s) with (String (char r) s). unfold DecodeRune; cbv beta iota zeta. by byte_tests.
  - change (string_of_bytes [192 + a; 128 + m] +:+ s) with (String (char (192 + a)) (String (char (128 + m)) s)).
    rewrite decode_two by lia. cbn [length]. f_equal. lia.
  - change (string_of_bytes [224 + b; 128 + m1; 128 + m] +:+ s)
      with (String (char (224 + b)) (String (char (128 + m1)) (String (char (128 + m)) s))).
    rewrite decode_three by lia. cbn [length]. f_equal. lia.
  - change (string_of_bytes [240 + c; 128 + m2; 128 + m1; 128 + m] +:+ s)
      with (String (char (240 + c)) (String (char (128 + m2)) (String (char (128 + m1)) (String (char (128 + m)) s)))).
    rewrite decode_four by lia. cbn [length]. f_equal. lia.
Qed.

Lemma runes_skip_bytes l s : runes_skip (length l) (string_of_bytes l +:+ s) = runes s.
Proof. induction l as [|x l IH]; [done|]. exact IH. Qed.

Lemma encode_cons r : exists b l, EncodeRune r = b :: l.
Proof. unfold EncodeRune, EncodeValid. generalize (if valid_rune r then r else RuneError). intros z. repeat case_match; eauto. Qed.

Lemma runes_cons r s : valid_rune r = true -> runes (string_of_bytes (EncodeRune r) +:+ s) = r :: runes s.
Proof.
  intros Hv. pose proof (decode_encode r s Hv) as Hd. destruct (encode_cons r) as (b & l & He). rewrite He in *.
  cbn [string_of_bytes] in *. unfold runes at 1.
  change (String (Ascii.ascii_of_nat (Z.to_nat b)) (string_of_bytes l) +:+ s)
    with (String (Ascii.ascii_of_nat (Z.to_nat b)) (string_of_bytes l +:+ s)) in *.
  cbn [runes_skip]. rewrite Hd. cbn [length pred]. f_equal. apply runes_skip_bytes.
Qed.

(** Reading the runes of a text gives back the runes it was made of. *)
Lemma runes_string rs : forallb valid_rune rs = true -> runes (string_of_runes rs) = rs.
Proof.
  induction rs as [|r rs IH]; [done|]. cbn [forallb string_of_runes]. intros [Hv H]%andb_true_iff.
  rewrite runes_cons by done. by rewrite IH.
Qed.

Lemma string_of_bytes_app l l' : string_of_bytes (l ++ l') = string_of_bytes l +:+ string_of_bytes l'.
Proof. induction l as [|x l IH]; cbn; [done|]. by rewrite IH. Qed.

Lemma string_of_runes_app rs rs' : string_of_runes (rs ++ rs') = string_of_runes rs +:+ string_of_runes rs'.
Proof. induction rs as [|r rs IH]; cbn [string_of_runes app]; [done|]. by rewrite IH, str_app_assoc. Qed.

(** *** Searching for a character *)

Lemma StrIndex_char c d s :
  StrIndex (String d s) (String c EmptyString) = if decide (d = c) then Some O else S <$> StrIndex s (String c EmptyString).
Proof.
  cbn [StrIndex HasPrefix]. assert (HasPrefix s EmptyString = true) as -> by by destruct s.
  rewrite andb_true_r. case_decide as Hd; [by rewrite bool_decide_true | by rewrite bool_decide_false by congruence].
Qed.

Lemma StrIndex_none c s : no_char c s = true -> StrIndex s (String c EmptyString) = None.
Proof.
  induction s as [|d s IH]; intros H; [done|]. apply no_char_cons in H as [Hd Hs]. rewrite StrIndex_char, decide_False by done.
  by rewrite IH.
Qed.

Lemma StrIndex_app c s t : no_char c s = true -> StrIndex (s +:+ String c t) (String c EmptyString) = Some (String.length s).
Proof.
  induction s as [|d s IH]; intros H.
  - change (EmptyString +:+ String c t) with (String c t). by rewrite StrIndex_char, decide_True.
  - apply no_char_cons in H as [Hd Hs]. change (String d s +:+ String c t) with (String d (s +:+ String c t)).
    rewrite StrIndex_char, decide_False by done. by rewrite IH.
Qed.

Lemma count_none c s : no_char c s = true -> count_char c s = O.
Proof. induction s as [|d s IH]; intros H; [done|]. apply no_char_cons in H as [Hd Hs]. cbn. rewrite decide_False by done. auto. Qed.

Lemma take_str_app p s : take_str (String.length p) (p +:+ s) = p.
Proof. induction p as [|c p IH]; [by destruct s|]. change (String c p +:+ s) with (String c (p +:+ s)). cbn. by rewrite IH. Qed.
