(* ===== verification/NetIP.v ===== *)
(** What the sources use of Go's net.IP and encoding/binary (Go 1.16).

    An address is the slice of its bytes: 4 of them, 16 of them, or none for
    nil.  Textual IPv6 addresses are a parameter ([ip6]) of the functions that
    print and parse addresses; dotted quads are modelled. *)
From S2P Require Import Prelude.
From Stdlib Require Import ZArith Lia Ascii.
From stdpp Require Import base strings list pretty.

Open Scope Z_scope.

Abbreviation bytes := (list Z).
Abbreviation ip := (list Z).

Definition is_byte (z : Z) : Prop := 0 <= z < 256.

Definition index_panic : string := "runtime error: index out of range".

(** ** encoding/binary, big endian *)

Definition Uint32 (b : bytes) : go Z :=
  match b with
  | a :: b :: c :: d :: _ => Ret (a * 2 ^ 24 + b * 2 ^ 16 + c * 2 ^ 8 + d)
  | _ => Panic index_panic
  end.

Definition Uint16 (b : bytes) : go Z :=
  match b with
  | a :: b :: _ => Ret (a * 2 ^ 8 + b)
  | _ => Panic index_panic
  end.

Definition PutUint32 (v : Z) : bytes :=
  [(v / 2 ^ 24) `mod` 256; (v / 2 ^ 16) `mod` 256; (v / 2 ^ 8) `mod` 256; v `mod` 256].

(** ** net.IP *)

Definition v4InV6Prefix : bytes := [0; 0; 0; 0; 0; 0; 0; 0; 0; 0; 255; 255].

Definition IPv4 (a b c d : Z) : ip := v4InV6Prefix ++ [a; b; c; d].

Definition IPv4zero : ip := IPv4 0 0 0 0.
Definition IPv4bcast : ip := IPv4 255 255 255 255.

Definition To4 (x : ip) : ip :=
  if decide (length x = 4%nat) then x
  else if decide (length x = 16%nat /\ take 12 x = v4InV6Prefix) then drop 12 x
  else [].

Definition IPEqual (x y : ip) : bool :=
  if decide (length x = length y) then bool_decide (x = y)
  else if decide (length x = 4%nat /\ length y = 16%nat) then
    bool_decide (take 12 y = v4InV6Prefix) && bool_decide (x = drop 12 y)
  else if decide (length x = 16%nat /\ length y = 4%nat) then
    bool_decide (take 12 x = v4InV6Prefix) && bool_decide (drop 12 x = y)
  else false.

Record IPNet := mkIPNet { net_IP : ip; net_Mask : bytes }.

Global Instance IPNet_eq_dec : EqDecision IPNet.
Proof. solve_decision. Defined.

(** networkNumberAndMask of net.go. *)
Definition networkNumberAndMask (n : IPNet) : option (ip * bytes) :=
  let i4 := To4 (net_IP n) in
  let i := if decide (i4 = []) then net_IP n else i4 in
  if decide (i4 = [] /\ length (net_IP n) <> 16%nat) then None
  else
    let m := net_Mask n in
    if decide (length m = 4%nat) then
      if decide (length i = 4%nat) then Some (i, m) else None
    else if decide (length m = 16%nat) then
      if decide (length i = 4%nat) then Some (i, drop 12 m) else Some (i, m)
    else None.

Fixpoint mask_eq (nn m x : bytes) : bool :=
  match nn, m, x with
  | a :: nn', b :: m', c :: x' => bool_decide (Z.land a b = Z.land c b) && mask_eq nn' m' x'
  | _, _, _ => true
  end.

Definition Contains (n : IPNet) (x : ip) : bool :=
  match networkNumberAndMask n with
  | None => false
  | Some (nn, m) =>
      let x4 := To4 x in
      let x := if decide (x4 = []) then x else x4 in
      if decide (length x = length nn) then mask_eq nn m x else false
  end.

(** *** Text *)

(** dtoi of net/parse.go: the value of the leading digits and the rest. *)
Fixpoint dtoi (acc : Z) (seen : bool) (s : string) : option (Z * string) :=
  match s with
  | EmptyString => if seen then Some (acc, EmptyString) else None
  | String c s' =>
      match digit c with
      | Some d => if decide (acc * 10 + d >= 16777215) then None else dtoi (acc * 10 + d) true s'
      | None => if seen then Some (acc, s) else None
      end
  end.

Definition dot : Ascii.ascii := "."%char.

Fixpoint parse_fields (n : nat) (first : bool) (s : string) : option (bytes * string) :=
  match n with
  | O => Some ([], s)
  | S n' =>
      match (if first then match s with EmptyString => None | _ => Some s end
             else match s with
                  | String c s' => if decide (c = dot) then Some s' else None
                  | EmptyString => None
                  end) with
      | None => None
      | Some s1 =>
          match dtoi 0 false s1 with
          | None => None
          | Some (v, s2) =>
              if decide (v > 255) then None
              else match parse_fields n' false s2 with
                   | Some (l, r) => Some (v :: l, r)
                   | None => None
                   end
          end
      end
  end.

Definition parseIPv4 (s : string) : ip :=
  match parse_fields 4 true s with
  | Some ([a; b; c; d], EmptyString) => IPv4 a b c d
  | _ => []
  end.

(** The first of '.' and ':' decides between the two parsers. *)
Fixpoint parse_kind (s : string) : option bool :=
  match s with
  | EmptyString => None
  | String c s' =>
      if decide (c = dot) then Some true
      else if decide (c = ":"%char) then Some false else parse_kind s'
  end.

Definition ParseIP (ip6 : string -> ip) (s : string) : ip :=
  match parse_kind s with
  | Some true => parseIPv4 s
  | Some false => ip6 s
  | None => []
  end.

Definition dotted (l : bytes) : string := StrJoin (Itoa <$> l) ".".

(** [ip6s] prints the addresses that are not IPv4. *)
Definition IPString (ip6s : ip -> string) (x : ip) : string :=
  match x with
  | [] => "<nil>"
  | _ => if decide (length (To4 x) = 4%nat) then dotted (To4 x) else ip6s x
  end.

Definition To16 (x : ip) : ip :=
  match x with
  | [a; b; c; d] => IPv4 a b c d
  | _ => if decide (length x = 16%nat) then x else []
  end.

Definition IPv6loopback : ip := repeat 0 15 ++ [1].

(** *** Networks as text *)

(** CIDRMask: [n] ones in [bytes] bytes. *)
Fixpoint CIDRMask (bytes : nat) (n : Z) : list Z :=
  match bytes with
  | O => []
  | S b => if decide (n >= 8) then 255 :: CIDRMask b (n - 8) else 255 - Z.shiftr 255 n :: CIDRMask b 0
  end.

(** The ones of a mask; [None]: the ones are not in front. *)
Fixpoint leading_ones (fuel : nat) (v : Z) : option Z :=
  match fuel with
  | O => if decide (v = 0) then Some 0 else None
  | S f =>
      if Z.testbit v 7 then Z.succ <$> leading_ones f (u8 (2 * v))
      else if decide (v = 0) then Some 0 else None
  end.

Fixpoint simpleMaskLength (mask : list Z) : option Z :=
  match mask with
  | [] => Some 0
  | v :: mask' =>
      if decide (v = 255) then Z.add 8 <$> simpleMaskLength mask'
      else match leading_ones 8 v with
           | Some n => if forallb (fun b => b =? 0) mask' then Some n else None
           | None => None
           end
  end.

Definition hexdigit (n : Z) : Ascii.ascii :=
  Ascii.ascii_of_nat (Z.to_nat (if decide (n < 10) then 48 + n else 87 + n)).

(** [hex.EncodeToString]. *)
Fixpoint hex (a : bytes) : string :=
  match a with
  | [] => EmptyString
  | x :: a' => String (hexdigit (x / 16)) (String (hexdigit (x `mod` 16)) (hex a'))
  end.

Definition MaskString (m : list Z) : string :=
  match m with
  | [] => "<nil>"
  | _ => hex m
  end.

Definition IPNetString (ip6s : ip -> string) (n : IPNet) : string :=
  match networkNumberAndMask n with
  | None => "<nil>"
  | Some (nn, m) =>
      IPString ip6s nn +:+ "/" +:+ match simpleMaskLength m with Some l => Itoa l | None => MaskString m end
  end.

(** IP.Mask for a mask as long as the address in its shorter form. *)
Definition mask_with (x m : list Z) : list Z := zip_with Z.land x m.

(** ParseCIDR: the address and its network; [None]: an error.  [ip6] parses the
    addresses that are not dotted quads. *)
Definition ParseCIDR (ip6 : string -> ip) (s : string) : option (ip * IPNet) :=
  match cut_at "/" s with
  | None => None
  | Some (addr, mask) =>
      let x4 := parseIPv4 addr in
      let x := if decide (x4 = []) then ip6 addr else x4 in
      let iplen := if decide (x4 = []) then 16 else 4 in
      match dtoi 0 false mask with
      | Some (n, EmptyString) =>
          if decide (x = [] \/ n > 8 * iplen) then None
          else
            let m := CIDRMask (Z.to_nat iplen) n in
            Some (x, mkIPNet (mask_with (if decide (iplen = 4) then To4 x else x) m) m)
      | _ => None
      end
  end.

(** ** Lemmas *)

Lemma Uint32_PutUint32 v : 0 <= v < 2 ^ 32 -> Uint32 (PutUint32 v) = Ret v.
Proof.
  intros Hv. unfold PutUint32, Uint32. f_equal.
  change (2 ^ 32) with 4294967296 in Hv. change (2 ^ 24) with 16777216.
  change (2 ^ 16) with 65536. change (2 ^ 8) with 256.
  pose proof (Z.div_mod v 256 ltac:(lia)).
  pose proof (Z.div_mod (v / 256) 256 ltac:(lia)).
  pose proof (Z.div_mod (v / 65536) 256 ltac:(lia)).
  assert (v / 256 / 256 = v / 65536) by (rewrite Z.div_div by lia; done).
  assert (v / 65536 / 256 = v / 16777216) by (rewrite Z.div_div by lia; done).
  assert (0 <= v / 16777216 < 256).
  { split; [apply Z.div_pos; lia|apply Z.div_lt_upper_bound; lia]. }
  rewrite (Z.mod_small (v / 16777216)) by lia. lia.
Qed.

Lemma Uint32_range a b c d :
  is_byte a -> is_byte b -> is_byte c -> is_byte d ->
  exists v, Uint32 [a; b; c; d] = Ret v /\ 0 <= v < 2 ^ 32.
Proof. unfold is_byte. intros. eexists. split; [done|]. lia. Qed.

Lemma To4_IPv4 a b c d : To4 (IPv4 a b c d) = [a; b; c; d].
Proof. done. Qed.

Definition field_ok (a : Z) : bool :=
  bool_decide (dtoi 0 false (Itoa a) = Some (a, EmptyString)).

Lemma fields_ok : forallb field_ok (seqZ 0 256) = true.
Proof. vm_compute. reflexivity. Qed.

(** A parsed digit string can be followed by anything that is not a digit. *)
Lemma dtoi_app acc seen s v r :
  match r with String c _ => digit c = None | EmptyString => True end ->
  dtoi acc seen s = Some (v, EmptyString) -> dtoi acc seen (s +:+ r) = Some (v, r).
Proof.
  intros Hr. revert acc seen. induction s as [|c s IH]; intros acc seen; simpl.
  - destruct seen; intros; simplify_eq. destruct r as [|c r]; simpl; [done|]. by rewrite Hr.
  - destruct (digit c) as [d|]; [|destruct seen; intros; simplify_eq].
    case_decide; [done|]. apply IH.
Qed.

Lemma dtoi_Itoa a r :
  is_byte a -> match r with String c _ => digit c = None | EmptyString => True end ->
  dtoi 0 false (Itoa a +:+ r) = Some (a, r).
Proof.
  intros Ha Hr. apply dtoi_app; [done|]. pose proof fields_ok as H.
  rewrite forallb_forall in H. specialize (H a).
  apply (bool_decide_eq_true_1 _). apply H. apply list_elem_of_In, elem_of_seqZ. unfold is_byte in Ha. lia.
Qed.

Lemma Itoa_nonempty a : is_byte a -> exists c s, Itoa a = String c s /\ c <> ":"%char /\ c <> dot.
Proof.
  intros Ha. destruct (Itoa a) as [|c s] eqn:E.
  - pose proof (dtoi_Itoa a EmptyString Ha I) as H. rewrite E in H. done.
  - exists c, s. split; [done|].
    pose proof (dtoi_Itoa a EmptyString Ha I) as H. rewrite E in H. simpl in H.
    split; intros ->; simpl in H; done.
Qed.

Lemma parse_fields_first n a r :
  is_byte a -> match r with String c _ => digit c = None | EmptyString => True end ->
  parse_fields (S n) true (Itoa a +:+ r) =
  match parse_fields n false r with Some (l, x) => Some (a :: l, x) | None => None end.
Proof.
  intros Ha Hr. destruct (Itoa_nonempty a Ha) as (c & s & E & _).
  pose proof (dtoi_Itoa a r Ha Hr) as H. rewrite E in *.
  change (String c s +:+ r) with (String c (s +:+ r)) in *. cbn [parse_fields]. rewrite H.
  rewrite decide_False; [done|]. unfold is_byte in Ha. lia.
Qed.

Lemma parse_fields_next n a r :
  is_byte a -> match r with String c _ => digit c = None | EmptyString => True end ->
  parse_fields (S n) false (String dot (Itoa a +:+ r)) =
  match parse_fields n false r with Some (l, x) => Some (a :: l, x) | None => None end.
Proof.
  intros Ha Hr. cbn [parse_fields]. rewrite decide_True by done.
  rewrite (dtoi_Itoa a r Ha Hr), decide_False; [done|]. unfold is_byte in Ha. lia.
Qed.

Lemma fields_kind : forallb (fun a => bool_decide (parse_kind (Itoa a) = None)) (seqZ 0 256) = true.
Proof. vm_compute. reflexivity. Qed.

Lemma parse_kind_dotted a r : is_byte a -> parse_kind (Itoa a +:+ String dot r) = Some true.
Proof.
  intros Ha. pose proof fields_kind as H. rewrite forallb_forall in H. specialize (H a).
  assert (Hin : In a (seqZ 0 256)) by (apply list_elem_of_In, elem_of_seqZ; unfold is_byte in *; lia).
  specialize (H Hin). apply bool_decide_eq_true_1 in H. revert H.
  generalize (Itoa a). induction s as [|x s IH]; [done|]. cbn [parse_kind].
  change (String x s +:+ String dot r) with (String x (s +:+ String dot r)). cbn [parse_kind].
  case_decide; [done|]. case_decide; [done|]. done.
Qed.

(** Printing a 4-byte address and parsing it again gives its 16-byte form. *)
Lemma ParseIP_dotted ip6 a b c d :
  is_byte a -> is_byte b -> is_byte c -> is_byte d ->
  ParseIP ip6 (dotted [a; b; c; d]) = IPv4 a b c d.
Proof.
  intros Ha Hb Hc Hd.
  assert (E : dotted [a; b; c; d] =
    Itoa a +:+ String dot (Itoa b +:+ String dot (Itoa c +:+ String dot (Itoa d +:+ EmptyString)))).
  { unfold dotted. cbn [fmap list_fmap StrJoin]. by rewrite str_app_nil_r. }
  unfold ParseIP. rewrite E, parse_kind_dotted by done. unfold parseIPv4.
  rewrite parse_fields_first by done. rewrite !parse_fields_next by done. done.
Qed.

(** *** Networks *)

Lemma fields_digits : forallb (fun a => forallb (fun d => bool_decide (digit d <> None)) (String.list_ascii_of_string (Itoa a))) (seqZ 0 256) = true.
Proof. vm_compute. reflexivity. Qed.

(** A printed byte has only digits. *)
Lemma Itoa_no_char c a : digit c = None -> is_byte a -> no_char c (Itoa a) = true.
Proof.
  intros Hc Ha. pose proof fields_digits as H. rewrite forallb_forall in H.
  specialize (H a ltac:(apply list_elem_of_In, elem_of_seqZ; unfold is_byte in Ha; lia)).
  induction (Itoa a) as [|d s IH]; [done|]. cbn [String.list_ascii_of_string forallb] in H. apply andb_true_iff in H as [Hd%bool_decide_eq_true Hs].
  cbn [no_char]. rewrite (IH Hs), andb_true_r. apply bool_decide_eq_true_2. congruence.
Qed.

Lemma parseIPv4_dotted a b c d : is_byte a -> is_byte b -> is_byte c -> is_byte d -> parseIPv4 (dotted [a; b; c; d]) = IPv4 a b c d.
Proof.
  intros Ha Hb Hc Hd. rewrite <- (ParseIP_dotted (fun _ => []) a b c d) by done. unfold ParseIP.
  replace (parse_kind (dotted [a; b; c; d])) with (Some true); [done|]. unfold dotted. cbn [fmap list_fmap StrJoin].
  symmetry. by apply (parse_kind_dotted a).
Qed.

Lemma mask_lengths : forallb (fun l => bool_decide (simpleMaskLength (CIDRMask 4 l) = Some l /\ length (CIDRMask 4 l) = 4%nat)) (seqZ 0 33) = true.
Proof. vm_compute. reflexivity. Qed.

Lemma mask_length l : 0 <= l <= 32 -> simpleMaskLength (CIDRMask 4 l) = Some l /\ length (CIDRMask 4 l) = 4%nat.
Proof.
  intros Hl. pose proof mask_lengths as H. rewrite forallb_forall in H.
  apply (bool_decide_eq_true_1 _), H, list_elem_of_In, elem_of_seqZ. lia.
Qed.

(** An IPv4 network with [l] ones in its mask, its address and mask in 16 bytes
    as net.ParseIP gives them. *)
Definition network16 (a b c d l : Z) : IPNet := mkIPNet (IPv4 a b c d) (v4InV6Prefix ++ CIDRMask 4 l).

Lemma network16_number a b c d l : 0 <= l <= 32 -> networkNumberAndMask (network16 a b c d l) = Some ([a; b; c; d], CIDRMask 4 l).
Proof.
  intros Hl. destruct (mask_length l Hl) as [_ Hn]. unfold networkNumberAndMask, network16. cbn [net_IP net_Mask]. rewrite To4_IPv4.
  rewrite decide_False by (intros [? _]; done). rewrite decide_False by (rewrite length_app, Hn; done).
  rewrite decide_True by (rewrite length_app, Hn; done). rewrite (decide_False (P := [a; b; c; d] = [])), decide_True by done. done.
Qed.

(** The text of such a network is parsed back into the network. *)
Lemma ParseCIDR_String ip6 ip6s a b c d l :
  is_byte a -> is_byte b -> is_byte c -> is_byte d -> 0 <= l <= 32 ->
  ParseCIDR ip6 (IPNetString ip6s (network16 a b c d l)) =
  Some (IPv4 a b c d, mkIPNet (mask_with [a; b; c; d] (CIDRMask 4 l)) (CIDRMask 4 l)).
Proof.
  intros Ha Hb Hc Hd Hl. unfold IPNetString. rewrite network16_number by done. destruct (mask_length l Hl) as [-> Hn].
  change (IPString ip6s [a; b; c; d]) with (dotted [a; b; c; d]). change ("/" +:+ Itoa l) with (String "/" (Itoa l)). unfold ParseCIDR.
  rewrite cut_at_app by (unfold dotted; cbn [fmap list_fmap StrJoin]; rewrite !no_char_app, !Itoa_no_char by done; done).
  rewrite parseIPv4_dotted by done. rewrite <- (str_app_nil_r (Itoa l)), (dtoi_Itoa l EmptyString) by (try done; unfold is_byte; lia).
  rewrite !(decide_False (P := IPv4 a b c d = [])) by done. rewrite decide_False by (intros [?|?]; [done|lia]). done.
Qed.

(** And it has the same addresses. *)
Lemma ParseCIDR_Contains a b c d l x : 0 <= l <= 32 ->
  Contains (mkIPNet (mask_with [a; b; c; d] (CIDRMask 4 l)) (CIDRMask 4 l)) x = Contains (network16 a b c d l) x.
Proof.
  intros Hl. unfold Contains. rewrite network16_number by done. destruct (mask_length l Hl) as [_ Hn].
  destruct (CIDRMask 4 l) as [|m1 [|m2 [|m3 [|m4 [|]]]]]; try done.
  change (networkNumberAndMask _) with (Some (mask_with [a; b; c; d] [m1; m2; m3; m4], [m1; m2; m3; m4])).
  cbn [mask_with zip_with length]. case_decide; [|done].
  destruct (if decide (To4 x = []) then x else To4 x) as [|x1 [|x2 [|x3 [|x4 [|]]]]]; try done.
  cbn [mask_eq]. by rewrite <- !Z.land_assoc, !Z.land_diag.
Qed.
