(* ===== verification/NetUrl.v ===== *)
(** What the sources use of Go's net/url: the printing of a URL with its
    escapes, its queries, and the name of a host without its port; and the
    pairs of a host and a port of package net. *)
From S2P Require Import Prelude.
From Stdlib Require Import ZArith Lia Ascii.
From stdpp Require Import base strings list.

Open Scope Z_scope.
Open Scope string_scope.

(** url.URL; the user information and the fragment as they are printed. *)
Record URL := mkURL {
  Scheme : string; Opaque : string; User : option string; Host : string;
  Path : string; RawPath : string; ForceQuery : bool; RawQuery : string; Fragment : string
}.

Definition zeroURL : URL := mkURL EmptyString EmptyString None EmptyString EmptyString EmptyString false EmptyString EmptyString.

Definition set_Scheme (x : string) (u : URL) : URL :=
  mkURL x (Opaque u) (User u) (Host u) (Path u) (RawPath u) (ForceQuery u) (RawQuery u) (Fragment u).
Definition set_Host (x : string) (u : URL) : URL :=
  mkURL (Scheme u) (Opaque u) (User u) x (Path u) (RawPath u) (ForceQuery u) (RawQuery u) (Fragment u).
Definition set_Path (x : string) (u : URL) : URL :=
  mkURL (Scheme u) (Opaque u) (User u) (Host u) x (RawPath u) (ForceQuery u) (RawQuery u) (Fragment u).
Definition set_Opaque (x : string) (u : URL) : URL :=
  mkURL (Scheme u) x (User u) (Host u) (Path u) (RawPath u) (ForceQuery u) (RawQuery u) (Fragment u).
Definition set_RawPath (x : string) (u : URL) : URL :=
  mkURL (Scheme u) (Opaque u) (User u) (Host u) (Path u) x (ForceQuery u) (RawQuery u) (Fragment u).
Definition set_RawQuery (x : string) (u : URL) : URL :=
  mkURL (Scheme u) (Opaque u) (User u) (Host u) (Path u) (RawPath u) (ForceQuery u) x (Fragment u).

(** ** Escapes *)

Inductive encoding := encodeHost | encodePath.

Definition one_of (s : string) (c : Ascii.ascii) : bool := existsb (fun d => bool_decide (c = d)) (String.list_ascii_of_string s).

Definition between (lo hi c : Ascii.ascii) : bool :=
  Nat.leb (Ascii.nat_of_ascii lo) (Ascii.nat_of_ascii c) && Nat.leb (Ascii.nat_of_ascii c) (Ascii.nat_of_ascii hi).

Definition alphanumeric (c : Ascii.ascii) : bool := between "a" "z" c || between "A" "Z" c || between "0" "9" c.

(** The quotation mark is the character 34. *)
Definition shouldEscape (mode : encoding) (c : Ascii.ascii) : bool :=
  if alphanumeric c then false
  else
    match mode with
    | encodeHost =>
        if one_of "!$&'()*+,;=:[]<>" c || bool_decide (c = "034"%char) then false
        else negb (one_of "-_.~" c)
    | encodePath =>
        if one_of "-_.~" c then false
        else if one_of "$&+,/:;=?@" c then bool_decide (c = "?"%char)
        else true
    end.

Definition hex_digit (n : nat) : Ascii.ascii := Ascii.ascii_of_nat (if Nat.ltb n 10 then 48 + n else 55 + n).

Fixpoint escape (mode : encoding) (s : string) : string :=
  match s with
  | EmptyString => EmptyString
  | String c s' =>
      if shouldEscape mode c then
        let n := Ascii.nat_of_ascii c in
        String "%" (String (hex_digit (n / 16)) (String (hex_digit (n mod 16)) (escape mode s')))
      else String c (escape mode s')
  end.

Definition unhex (c : Ascii.ascii) : option nat :=
  let n := Ascii.nat_of_ascii c in
  if between "0" "9" c then Some (n - 48)%nat
  else if between "a" "f" c then Some (n - 87)%nat
  else if between "A" "F" c then Some (n - 55)%nat
  else None.

(** unescape of a path; [None]: an escape that is not one. *)
Fixpoint unescape (s : string) : option string :=
  match s with
  | EmptyString => Some EmptyString
  | String "%" s' =>
      match s' with
      | String a (String b s'') =>
          match unhex a, unhex b with
          | Some x, Some y => String (Ascii.ascii_of_nat (16 * x + y)) <$> unescape s''
          | _, _ => None
          end
      | _ => None
      end
  | String c s' => String c <$> unescape s'
  end.

Definition validEncoded (s : string) : bool :=
  forallb (fun c => one_of "!$&'()*+,;=:@[]%" c || negb (shouldEscape encodePath c)) (String.list_ascii_of_string s).

Definition EscapedPath (u : URL) : string :=
  if bool_decide (RawPath u <> EmptyString) && validEncoded (RawPath u) && bool_decide (unescape (RawPath u) = Some (Path u))
  then RawPath u
  else if decide (Path u = "*") then "*" else escape encodePath (Path u).

(** ** Printing *)

(** A colon before the first slash. *)
Fixpoint colon_first (s : string) : bool :=
  match s with
  | EmptyString => false
  | String c s' => if decide (c = ":"%char) then true else if decide (c = "/"%char) then false else colon_first s'
  end.

Definition starts_with_slash (s : string) : bool := HasPrefix s "/".

Definition URLString (u : URL) : string :=
  let scheme := if decide (Scheme u = EmptyString) then EmptyString else Scheme u +:+ ":" in
  (if decide (Opaque u <> EmptyString) then scheme +:+ Opaque u
   else
     let authority :=
       if decide (Scheme u <> EmptyString \/ Host u <> EmptyString \/ User u <> None) then
         (if decide (Host u <> EmptyString \/ Path u <> EmptyString \/ User u <> None) then "//" else EmptyString) +:+
         (match User u with Some ui => ui +:+ "@" | None => EmptyString end) +:+ escape encodeHost (Host u)
       else EmptyString in
     let path := EscapedPath u in
     let slash :=
       if bool_decide (path <> EmptyString) && negb (starts_with_slash path) && bool_decide (Host u <> EmptyString)
       then "/" else EmptyString in
     let buf := scheme +:+ authority +:+ slash in
     buf +:+ (if bool_decide (buf = EmptyString) && colon_first path then "./" else EmptyString) +:+ path) +:+
  (if ForceQuery u || bool_decide (RawQuery u <> EmptyString) then "?" +:+ RawQuery u else EmptyString) +:+
  (if decide (Fragment u <> EmptyString) then "#" +:+ Fragment u else EmptyString).

(** ** Hostname *)

(** The parts before and after the last [c]. *)
Fixpoint rcut_at (c : Ascii.ascii) (s : string) : option (string * string) :=
  match s with
  | EmptyString => None
  | String d s' =>
      match rcut_at c s' with
      | Some (a, b) => Some (String d a, b)
      | None => if decide (d = c) then Some (EmptyString, s') else None
      end
  end.

Definition Hostname (u : URL) : string :=
  let host :=
    match rcut_at ":" (Host u) with
    | Some (h, port) => if forallb (between "0" "9") (String.list_ascii_of_string port) then h else Host u
    | None => Host u
    end in
  if HasPrefix host "[" && HasSuffix host "]" then String.substring 1 (String.length host - 2) host else host.

Definition Port (u : URL) : string :=
  match rcut_at ":" (Host u) with
  | Some (_, port) => if forallb (between "0" "9") (String.list_ascii_of_string port) then port else EmptyString
  | None => EmptyString
  end.

(** [net.SplitHostPort] and [net.JoinHostPort]; which error it is does not
    matter to the sources. *)
Definition SplitHostPort (hostport : string) : option (string * string) :=
  match rcut_at ":" hostport with
  | None => None
  | Some (before, port) =>
      if HasPrefix hostport "[" then
        match cut_at "]" hostport with
        | None => None
        | Some (inside, _) =>
            if decide (S (String.length inside) = String.length before) then
              if no_char "[" (drop_str 1 hostport) && no_char "]" (drop_str (S (String.length inside)) hostport)
              then Some (drop_str 1 inside, port) else None
            else None
        end
      else if no_char ":" before && no_char "[" hostport && no_char "]" hostport then Some (before, port)
      else None
  end.

Definition JoinHostPort (host port : string) : string :=
  if no_char ":" host then host +:+ ":" +:+ port else "[" +:+ host +:+ "]:" +:+ port.

(** ** Queries *)

Definition queryUnreserved (c : Ascii.ascii) : bool := alphanumeric c || one_of "-_.~" c.

Fixpoint QueryEscape (s : string) : string :=
  match s with
  | EmptyString => EmptyString
  | String c s' =>
      if queryUnreserved c then String c (QueryEscape s')
      else if decide (c = " "%char) then String "+" (QueryEscape s')
      else let n := Ascii.nat_of_ascii c in
           String "%" (String (hex_digit (n / 16)) (String (hex_digit (n mod 16)) (QueryEscape s')))
  end.

Fixpoint plus_to_space (s : string) : string :=
  match s with
  | EmptyString => EmptyString
  | String c s' => String (if decide (c = "+"%char) then " "%char else c) (plus_to_space s')
  end.

Definition QueryUnescape (s : string) : option string := unescape (plus_to_space s).

(** [u.Query().Get(name)]: a pair that cannot be unescaped is left out. *)
Definition query_pair (p : string) : option (string * string) :=
  let '(k, v) := match cut_at "=" p with Some kv => kv | None => (p, EmptyString) end in
  match QueryUnescape k, QueryUnescape v with Some k', Some v' => Some (k', v') | _, _ => None end.

Definition query_pairs (q : string) : list (string * string) :=
  omap (fun p => if decide (p = EmptyString) then None else query_pair p) (concat (map (fun x => Split x ";") (Split q "&"))).

Definition Query_Get (q name : string) : string :=
  match List.find (fun kv => bool_decide (kv.1 = name)) (query_pairs q) with Some kv => kv.2 | None => EmptyString end.

Definition RequestURI (u : URL) : string :=
  (if decide (Opaque u = EmptyString) then
     let p := EscapedPath u in if decide (p = EmptyString) then "/" else p
   else if HasPrefix (Opaque u) "//" then Scheme u +:+ ":" +:+ Opaque u else Opaque u) +:+
  (if ForceQuery u || bool_decide (RawQuery u <> EmptyString) then "?" +:+ RawQuery u else EmptyString).

(** ** Lemmas *)

Lemma unhex_hex_digit n : (n < 16)%nat -> unhex (hex_digit n) = Some n.
Proof. intros H. do 16 (destruct n as [|n]; [reflexivity|]). lia. Qed.

Lemma hex_digit_not_percent n : (n < 16)%nat -> hex_digit n <> "%"%char.
Proof. intros H. do 16 (destruct n as [|n]; [discriminate|]). lia. Qed.

Lemma percent_is_escaped mode : shouldEscape mode "%" = true.
Proof. by destruct mode. Qed.

(** Escaping loses nothing. *)
Lemma unescape_escape mode s : unescape (escape mode s) = Some s.
Proof.
  induction s as [|c s IH]; [done|]. cbn [escape]. destruct (shouldEscape mode c) eqn:E.
  - assert (Hn := Ascii.nat_ascii_bounded c). cbn [unescape]. cbn [Ascii.eqb]. cbv iota.
    rewrite !unhex_hex_digit by (try apply Nat.mod_upper_bound; try apply Nat.Div0.div_lt_upper_bound; lia). rewrite IH. cbn [fmap option_fmap option_map]. do 2 f_equal.
    rewrite <- Nat.div_mod_eq. apply Ascii.ascii_nat_embedding.
  - assert (Hc : c <> "%"%char) by (intros ->; by rewrite percent_is_escaped in E).
    transitivity (String c <$> unescape (escape mode s)); [|by rewrite IH].
    destruct c as [[] [] [] [] [] [] [] []]; try reflexivity. by destruct Hc.
Qed.
