(* ===== verification/GoHttp.v ===== *)
(** What the sources use of Go's net/http: the headers of a request or of an
    answer, their canonical keys and the operations on them. *)
From S2P Require Import Prelude GoText NetUrl.
From Stdlib Require Import ZArith Lia Ascii.
From stdpp Require Import base gmap strings list.

Open Scope string_scope.
Open Scope Z_scope.

Abbreviation header := (gmap string (list string)).

(** textproto.CanonicalMIMEHeaderKey *)
Definition token_byte (c : Ascii.ascii) : bool :=
  alphanumeric c || negb (no_char c "!#$%&'*+-.^_`|~").

Definition ascii_upper (c : Ascii.ascii) : Ascii.ascii :=
  if NetUrl.between "a" "z" c then char (code c - 32) else c.

Fixpoint canonical (upper : bool) (s : string) : string :=
  match s with
  | EmptyString => EmptyString
  | String c s' => String (if upper then ascii_upper c else ascii_lower c) (canonical (bool_decide (c = "-"%char)) s')
  end.

Definition CanonicalHeaderKey (s : string) : string :=
  if forallb token_byte (String.list_ascii_of_string s) then canonical true s else s.

Definition Header_Get (k : string) (h : header) : string :=
  match h !! CanonicalHeaderKey k with Some (v :: _) => v | _ => EmptyString end.
Definition Header_Del (k : string) (h : header) : header := delete (CanonicalHeaderKey k) h.
Definition Header_Add (k v : string) (h : header) : header :=
  <[CanonicalHeaderKey k := (default [] (h !! CanonicalHeaderKey k) ++ [v])%list]> h.

Definition Header_Set (k v : string) (h : header) : header := <[CanonicalHeaderKey k := [v]]> h.

(** for key, values := range h { for value := range values { to.Add } } *)
Definition add_all (from : list (string * list string)) (to : header) : header :=
  fold_left (fun acc kv => fold_left (fun acc v => Header_Add kv.1 v acc) kv.2 acc) from to.

(** ** Lemmas *)

Lemma delete_all_lookup ks (h : header) k :
  k ∈ map CanonicalHeaderKey ks \/ h !! k = None -> fold_left (fun acc k => Header_Del k acc) ks h !! k = None.
Proof.
  revert h. induction ks as [|x ks IH]; intros h H; cbn [fold_left map] in *.
  - destruct H as [H|H]; [by apply elem_of_nil in H | done].
  - apply IH. unfold Header_Del. destruct H as [[-> | H]%elem_of_cons | H].
    + right. apply lookup_delete_eq.
    + by left.
    + right. apply lookup_delete_None. by right.
Qed.

Lemma header_add_other k v h k' : CanonicalHeaderKey k <> k' -> Header_Add k v h !! k' = h !! k'.
Proof. intros Hne. unfold Header_Add. by rewrite lookup_insert_ne. Qed.

