(* ===== verification/Regex.v ===== *)
(** The fragment of Go's regexp package that the sources use: character
    classes, sequence, alternation, bounded and unbounded repetition, greedy or
    lazy, and capturing groups, matched leftmost-first with backtracking, as
    [FindStringSubmatch] does, and [Split].  A match position is the rest of the
    subject. *)
From S2P Require Import Prelude.
From Stdlib Require Import ZArith Lia Ascii.
From stdpp Require Import base gmap strings list.

Create HintDb takes discriminated.

Inductive re :=
  | Chr (p : Ascii.ascii -> bool)
  | Eps
  | Seq (r1 r2 : re)
  | Alt (r1 r2 : re)
  | Rep (r : re) (min max : nat)
  | Plus (r : re)
  | Star (r : re)
  | LazyPlus (r : re)
  | LazyStar (r : re)
  | Grp (n : nat) (r : re).

Abbreviation captures := (gmap nat string).

(** The part of [s] before its suffix [t]. *)
Definition consumed (s t : string) : string := take_str (String.length s - String.length t) s.

Section Matcher.
Context {X : Type}.

Abbreviation cont := (string -> captures -> option X).

(** Greedy repetition of a matcher: [n] more mandatory copies, then up to
    [extra] optional ones. *)
Fixpoint rep_opt (m : string -> captures -> cont -> option X) (extra : nat)
  (s : string) (caps : captures) (k : cont) : option X :=
  match extra with
  | O => k s caps
  | S extra' =>
      match m s caps (fun s' c' =>
              if Nat.ltb (String.length s') (String.length s)
              then rep_opt m extra' s' c' k else None) with
      | Some x => Some x
      | None => k s caps
      end
  end.

(** Lazy repetition: stop as soon as the rest matches. *)
Fixpoint rep_lazy (m : string -> captures -> cont -> option X) (extra : nat)
  (s : string) (caps : captures) (k : cont) : option X :=
  match k s caps with
  | Some x => Some x
  | None =>
      match extra with
      | O => None
      | S extra' =>
          m s caps (fun s' c' =>
            if Nat.ltb (String.length s') (String.length s)
            then rep_lazy m extra' s' c' k else None)
      end
  end.

Fixpoint rep_min (m : string -> captures -> cont -> option X) (n extra : nat)
  (s : string) (caps : captures) (k : cont) : option X :=
  match n with
  | O => rep_opt m extra s caps k
  | S n' => m s caps (fun s' c' => rep_min m n' extra s' c' k)
  end.

Fixpoint re_match (r : re) (s : string) (caps : captures) (k : cont) : option X :=
  match r with
  | Chr p => match s with
             | String c s' => if p c then k s' caps else None
             | EmptyString => None
             end
  | Eps => k s caps
  | Seq r1 r2 => re_match r1 s caps (fun s' c' => re_match r2 s' c' k)
  | Alt r1 r2 => match re_match r1 s caps k with Some x => Some x | None => re_match r2 s caps k end
  | Rep r min max => rep_min (re_match r) min (max - min) s caps k
  | Plus r => rep_min (re_match r) 1 (String.length s) s caps k
  | Star r => rep_min (re_match r) 0 (String.length s) s caps k
  | LazyPlus r => re_match r s caps (fun s' c' => rep_lazy (re_match r) (String.length s') s' c' k)
  | LazyStar r => rep_lazy (re_match r) (String.length s) s caps k
  | Grp n r => re_match r s caps (fun s' c' => k s' (<[n := consumed s s']> c'))
  end.

End Matcher.

(** The leftmost match anywhere in the subject, with its groups. *)
Fixpoint re_find (r : re) (s : string) : option captures :=
  match re_match r s ∅ (fun _ caps => Some caps) with
  | Some caps => Some caps
  | None => match s with EmptyString => None | String _ s' => re_find r s' end
  end.

(** The match of an expression that starts with [^]. *)
Definition re_find_start (r : re) (s : string) : option captures :=
  re_match r s ∅ (fun _ caps => Some caps).

(** The group of a submatch, empty when it took no part in the match. *)
Definition group (n : nat) (caps : captures) : string := default EmptyString (caps !! n).

(** The leftmost match: what is before and what is after it. *)
Fixpoint re_locate (r : re) (s : string) : option (string * string) :=
  match re_match r s ∅ (fun t _ => Some t) with
  | Some t => Some (EmptyString, t)
  | None =>
      match s with
      | EmptyString => None
      | String c s' => match re_locate r s' with Some (pre, t) => Some (String c pre, t) | None => None end
      end
  end.

(** Split at the matches of an expression that does not match the empty string,
    into at most [n] parts if [n] is given. *)
Fixpoint split_fuel (fuel : nat) (r : re) (n : option nat) (s : string) : list string :=
  match fuel, n with
  | S fuel', (None | Some (S (S _))) =>
      match re_locate r s with
      | Some (pre, t) => pre :: split_fuel fuel' r (Nat.pred <$> n) t
      | None => [s]
      end
  | _, _ => [s]
  end.

Definition re_split (r : re) (n : option nat) (s : string) : list string :=
  split_fuel (String.length s) r n s.

(** An expression for a fixed text. *)
Fixpoint lit (s : string) : re :=
  match s with
  | EmptyString => Eps
  | String c s' => Seq (Chr (fun d => bool_decide (d = c))) (lit s')
  end.

(** (?i) for a text: s and k have a third form in Unicode. *)
Definition fold_char (c : Ascii.ascii) : re :=
  let plain := Chr (fun d => bool_decide (ascii_lower d = ascii_lower c)) in
  if decide (ascii_lower c = "s"%char) then Alt plain (lit (String "197" (String "191" EmptyString)))
  else if decide (ascii_lower c = "k"%char) then Alt plain (lit (String "226" (String "132" (String "170" EmptyString))))
  else plain.

Fixpoint fold_lit (s : string) : re :=
  match s with EmptyString => Eps | String c s' => Seq (fold_char c) (fold_lit s') end.

(** The expression of a text in which only the dot is special. *)
Fixpoint dotted_lit (s : string) : re :=
  match s with
  | EmptyString => Eps
  | String c s' => Seq (Chr (fun d => if decide (c = "."%char) then bool_decide (d <> "010"%char) else bool_decide (d = c))) (dotted_lit s')
  end.

(** MatchString *)
Definition MatchString (r : re) (s : string) : bool := match re_find r s with Some _ => true | None => false end.

(** Expressions in a row. *)
Definition seqs (l : list re) : re := foldr Seq Eps l.

(** Character classes. *)
Definition in_class (lo hi c : Ascii.ascii) : bool :=
  Nat.leb (Ascii.nat_of_ascii lo) (Ascii.nat_of_ascii c) &&
  Nat.leb (Ascii.nat_of_ascii c) (Ascii.nat_of_ascii hi).

Definition is_digit : Ascii.ascii -> bool := in_class "0" "9".
Definition is_hex (c : Ascii.ascii) : bool :=
  is_digit c || in_class "A" "F" c || in_class "a" "f" c.
Definition is_char (d c : Ascii.ascii) : bool := bool_decide (c = d).
(** [.] matches any character but a newline. *)
Definition any_char (c : Ascii.ascii) : bool := negb (is_char "010" c).
(** [\s] and [\w]. *)
Definition is_space (c : Ascii.ascii) : bool :=
  is_char "009" c || is_char "010" c || is_char "012" c || is_char "013" c || is_char " " c.
Definition is_word (c : Ascii.ascii) : bool :=
  is_digit c || in_class "A" "Z" c || in_class "a" "z" c || is_char "_" c.
Definition spaces : re := Star (Chr is_space).
Definition opt (r : re) : re := Rep r 0 1.
Definition digits_re : re := Plus (Chr is_digit).

(** ** Laws *)

Fixpoint all_chars (p : Ascii.ascii -> bool) (s : string) : bool :=
  match s with EmptyString => true | String c s' => p c && all_chars p s' end.

Definition no_head (p : Ascii.ascii -> bool) (s : string) : Prop :=
  match s with EmptyString => True | String c _ => p c = false end.

(** Greedy repetition of a class takes the longest run when the rest matches. *)
Lemma rep_opt_run {X} (p : Ascii.ascii -> bool) extra d rest caps (k : string -> captures -> option X) x :
  all_chars p d = true -> no_head p rest -> (String.length d <= extra)%nat ->
  k rest caps = Some x ->
  rep_opt (re_match (Chr p)) extra (d +:+ rest) caps k = Some x.
Proof.
  intros Hd Hr. revert extra. induction d as [|c d IH]; intros extra Hl Hk.
  - change (EmptyString +:+ rest)%string with rest. destruct extra as [|extra]; [done|]. cbn.
    destruct rest as [|c rest]; [done|]. cbn in Hr. by rewrite Hr.
  - change (String c d +:+ rest)%string with (String c (d +:+ rest)) in *.
    cbn in Hd. apply andb_true_iff in Hd as [Hc Hd]. destruct extra as [|extra]; [simpl in Hl; lia|].
    cbn [rep_opt re_match]. rewrite Hc. cbn [String.length].
    rewrite (proj2 (Nat.ltb_lt (String.length (d +:+ rest)) (S (String.length (d +:+ rest))))) by lia.
    rewrite IH; [done|done|simpl in Hl; lia|done].
Qed.

Lemma consumed_app d rest : consumed (d +:+ rest) rest = d.
Proof.
  unfold consumed. rewrite str_length_app, Nat.add_sub.
  induction d as [|c d IH]; [by destruct rest|].
  change (String c d +:+ rest)%string with (String c (d +:+ rest)). cbn. by rewrite IH.
Qed.

(** An expression takes [s] off a subject with the rest [rest], whatever follows. *)
Definition takes (r : re) (s rest : string) (c c' : captures) : Prop :=
  forall (X : Type) (k : string -> captures -> option X) x,
    k rest c' = Some x -> re_match r (s +:+ rest) c k = Some x.

(** An expression does not match at the start of a subject. *)
Definition fails (r : re) (s : string) : Prop :=
  forall (X : Type) (k : string -> captures -> option X) c, re_match r s c k = None.

Lemma takes_nil rest c : takes Eps EmptyString rest c c.
Proof. by intros X k x. Qed.

Lemma takes_seq r1 r2 s1 s2 rest c c1 c2 :
  takes r1 s1 (s2 +:+ rest) c c1 -> takes r2 s2 rest c1 c2 -> takes (Seq r1 r2) (s1 +:+ s2) rest c c2.
Proof. intros H1 H2 X k x Hk. rewrite str_app_assoc. cbn [re_match]. apply H1, H2, Hk. Qed.

Lemma takes_grp n r s rest c c' : takes r s rest c c' -> takes (Grp n r) s rest c (<[n := s]> c').
Proof. intros H X k x Hk. cbn [re_match]. apply H. by rewrite consumed_app. Qed.

Lemma takes_lit s rest c : takes (lit s) s rest c c.
Proof.
  induction s as [|d s IH]; [apply takes_nil|]. intros X k x Hk. cbn [lit re_match].
  change (String d s +:+ rest) with (String d (s +:+ rest)). cbn [re_match]. rewrite bool_decide_eq_true_2 by done.
  by apply IH.
Qed.

Lemma takes_chr (p : Ascii.ascii -> bool) d rest c : p d = true -> takes (Chr p) (String d EmptyString) rest c c.
Proof. intros Hp X k x Hk. change (String d EmptyString +:+ rest) with (String d rest). cbn [re_match]. by rewrite Hp. Qed.

Lemma takes_plus p d rest c : d <> EmptyString -> all_chars p d = true -> no_head p rest -> takes (Plus (Chr p)) d rest c c.
Proof.
  intros Hne Hd Hr X k x Hk. destruct d as [|e d]; [done|]. cbn in Hd. apply andb_true_iff in Hd as [He Hd].
  change (String e d +:+ rest) with (String e (d +:+ rest)). cbn [re_match rep_min]. rewrite He.
  apply rep_opt_run; [done|done| |done]. cbn [String.length]. rewrite str_length_app. lia.
Qed.

(** Exactly [n] characters of a class. *)
Lemma takes_exactly p n d rest c : String.length d = n -> all_chars p d = true -> takes (Rep (Chr p) n n) d rest c c.
Proof.
  intros Hn Hd X k x Hk. cbn [re_match]. rewrite Nat.sub_diag. revert n Hn.
  induction d as [|e d IH]; intros n <-; [done|]. cbn in Hd. apply andb_true_iff in Hd as [He Hd].
  change (String e d +:+ rest) with (String e (d +:+ rest)). cbn [String.length rep_min re_match]. rewrite He. by apply IH.
Qed.

Lemma takes_alt_l r1 r2 s rest c c' : takes r1 s rest c c' -> takes (Alt r1 r2) s rest c c'.
Proof. intros H X k x Hk. cbn [re_match]. by rewrite (H X k x). Qed.

Lemma takes_alt_r r1 r2 s rest c c' : fails r1 (s +:+ rest) -> takes r2 s rest c c' -> takes (Alt r1 r2) s rest c c'.
Proof. intros Hf H X k x Hk. cbn [re_match]. rewrite Hf. by apply H. Qed.

Lemma fails_lit p s : HasPrefix s p = false -> fails (lit p) s.
Proof.
  revert s. induction p as [|d p IH]; intros s H X k c; [by destruct s|].
  destruct s as [|e s]; [done|]. cbn [lit re_match HasPrefix] in *. destruct (decide (e = d)) as [->|Hne]; [|by rewrite bool_decide_eq_false_2].
  rewrite bool_decide_eq_true_2 in * by done. by apply IH.
Qed.

Lemma fails_seq r1 r2 s : fails r1 s -> fails (Seq r1 r2) s.
Proof. intros H X k c. cbn [re_match]. apply H. Qed.

Lemma fails_grp n r s : fails r s -> fails (Grp n r) s.
Proof. intros H X k c. cbn [re_match]. apply H. Qed.

Lemma fails_alt r1 r2 s : fails r1 s -> fails r2 s -> fails (Alt r1 r2) s.
Proof. intros H1 H2 X k c. cbn [re_match]. by rewrite H1. Qed.

(** The expression fails at every start inside [pre]. *)
Fixpoint quiet (bad : string -> bool) (pre s : string) : bool :=
  match pre with
  | EmptyString => true
  | String c pre' => negb (bad (pre +:+ s)) && quiet bad pre' s
  end.

Lemma re_find_skip r bad pre s c' : (forall t, bad t = false -> fails r t) -> quiet bad pre s = true ->
  re_find r s = Some c' -> re_find r (pre +:+ s) = Some c'.
Proof.
  intros Hbad. induction pre as [|d pre IH]; intros Hq Hf; [done|]. cbn [quiet] in Hq.
  apply andb_true_iff in Hq as [Hd%negb_true_iff Hq].
  change (String d pre +:+ s) with (String d (pre +:+ s)) in *. cbn [re_find]. rewrite (Hbad _ Hd). by apply IH.
Qed.

Lemma re_find_none_skip r bad pre s : (forall t, bad t = false -> fails r t) -> quiet bad pre s = true ->
  re_find r s = None -> re_find r (pre +:+ s) = None.
Proof.
  intros Hbad. induction pre as [|d pre IH]; intros Hq Hf; [done|]. cbn [quiet] in Hq.
  apply andb_true_iff in Hq as [Hd%negb_true_iff Hq].
  change (String d pre +:+ s) with (String d (pre +:+ s)) in *. cbn [re_find]. rewrite (Hbad _ Hd). by apply IH.
Qed.

Lemma re_find_takes r s rest c' : takes r s rest ∅ c' -> re_find r (s +:+ rest) = Some c'.
Proof.
  intros H. assert (E := H captures (fun _ caps => Some caps) c' eq_refl).
  destruct (s +:+ rest); cbn [re_find]; by rewrite E.
Qed.

(** What matches inside a text matches the text. *)
Lemma MatchString_inside r pre s : MatchString r s = true -> MatchString r (pre +:+ s) = true.
Proof.
  unfold MatchString. intros H. induction pre as [|c pre IH]; [done|].
  change (String c pre +:+ s) with (String c (pre +:+ s)). cbn [re_find]. by destruct (re_match r _ ∅ _).
Qed.

Lemma MatchString_takes r s rest c : takes r s rest ∅ c -> MatchString r (s +:+ rest) = true.
Proof. intros H. unfold MatchString. by rewrite (re_find_takes r s rest c). Qed.

Lemma takes_dotted_lit s rest c : all_chars any_char s = true -> takes (dotted_lit s) s rest c c.
Proof.
  induction s as [|d s IH]; [intros; apply takes_nil|]. cbn [all_chars]. intros [Hd Hs]%andb_true_iff X k x Hk.
  cbn [dotted_lit re_match]. change (String d s +:+ rest) with (String d (s +:+ rest)). cbn [re_match].
  assert (E : (if decide (d = "."%char) then bool_decide (d <> "010"%char) else bool_decide (d = d)) = true).
  { unfold any_char, is_char in Hd. apply negb_true_iff, bool_decide_eq_false in Hd. case_decide; by apply bool_decide_eq_true_2. }
  rewrite E. by apply (IH Hs).
Qed.

#[export] Hint Resolve takes_nil takes_lit takes_grp takes_seq : takes.
