(* ===== verification/TimedCache.v ===== *)
(** The third-party go-cache with expiry, as interfaces: the operations
    the token store, the rate limits and the DNS server use, and those of the single sign-on,
    with the laws of its documentation and maps with expirations as instances.
    Clock readings are numbers; every operation reads the clock once. *)
From S2P Require Import Prelude.
From Stdlib Require Import ZArith Lia.
From stdpp Require Import base gmap strings list.

Open Scope Z_scope.

Class TimedCache (C : Type -> Type) := {
  (** a cache without entries, as Flush leaves it *)
  tc_empty : forall {V : Type}, C V;
  (** the value and its expiration, if it has not expired at the reading *)
  tc_get : forall {V : Type}, Z -> string -> C V -> option (V * Z);
  (** SetDefault: expires the default duration after the reading *)
  tc_set : forall {V : Type}, Z -> Z -> string -> V -> C V -> C V
}.

(** Laws for a positive default duration [d]. *)
Class TimedCacheLaws (C : Type -> Type) {T : TimedCache C} := {
  tc_get_empty : forall V now k, tc_get now k (tc_empty (V := V)) = None;
  tc_get_set : forall V d now now' k k' (v : V) c,
    0 < d ->
    tc_get now' k' (tc_set d now k v c) =
      if decide (k' = k) then (if decide (now' <= now + d) then Some (v, now + d) else None)
      else tc_get now' k' c;
  tc_get_mono : forall V now now' k (v : V) e c,
    now <= now' -> tc_get now' k c = Some (v, e) -> tc_get now k c = Some (v, e)
}.

Global Instance gmap_timed : TimedCache (fun V => gmap string (V * Z)) := {
  tc_empty V := ∅;
  tc_get V now k c := match c !! k with
                      | Some (v, e) => if decide (now <= e) then Some (v, e) else None
                      | None => None
                      end;
  tc_set V d now k v c := <[k := (v, now + d)]> c
}.

Global Instance gmap_timed_laws : TimedCacheLaws (fun V => gmap string (V * Z)).
Proof.
  split; cbn; intros.
  - by rewrite lookup_empty.
  - rewrite lookup_insert. repeat case_decide; congruence.
  - destruct (c !! k) as [[v' e']|]; [|done]. case_decide; simplify_eq.
    rewrite decide_True by lia. done.
Qed.

(** The cache with a duration per entry, its keys and deletion: only the
    presence of entries matters to its user. *)
Class ExpiringCache (C : Type) := {
  ec_empty : C;
  ec_get : Z -> string -> C -> bool;
  (** Set for a duration other than 0 *)
  ec_set : Z -> Z -> string -> C -> C;
  ec_delete : string -> C -> C;
  (** the keys of Items *)
  ec_items : Z -> C -> list string
}.

(** A positive duration ends; with a negative one the entry stays. *)
Class ExpiringCacheLaws (C : Type) {E : ExpiringCache C} := {
  ec_get_empty : forall now k, ec_get now k ec_empty = false;
  ec_get_set : forall now now' d k k' c,
    ec_get now' k' (ec_set d now k c) =
      if decide (k' = k) then bool_decide (d < 0 \/ now' <= now + d) else ec_get now' k' c;
  ec_get_delete : forall now k k' c,
    ec_get now k' (ec_delete k c) = if decide (k' = k) then false else ec_get now k' c;
  ec_items_spec : forall now k c, k ∈ ec_items now c <-> ec_get now k c = true;
  ec_get_mono : forall now now' k c, now <= now' -> ec_get now' k c = true -> ec_get now k c = true
}.

(** Whether an entry with this expiration is there at a reading. *)
Definition fresh (now : Z) (e : option Z) : bool :=
  match e with None => true | Some e => bool_decide (now <= e) end.

Global Instance gmap_expiring : ExpiringCache (gmap string (option Z)) := {
  ec_empty := ∅;
  ec_get now k c := match c !! k with Some e => fresh now e | None => false end;
  ec_set d now k c := <[k := if decide (d < 0) then None else Some (now + d)]> c;
  ec_delete k c := delete k c;
  ec_items now c := (map_to_list (filter (fun kv => fresh now kv.2 = true) c)).*1
}.

Global Instance gmap_expiring_laws : ExpiringCacheLaws (gmap string (option Z)).
Proof.
  split; cbn; intros.
  - by rewrite lookup_empty.
  - rewrite lookup_insert. destruct (decide (k = k')) as [->|Hne].
    + rewrite (decide_True (P := k' = k')) by done.
      destruct (decide (d < 0)); cbn; [by rewrite bool_decide_eq_true_2 by auto|].
      apply bool_decide_ext. naive_solver lia.
    + by rewrite decide_False.
  - destruct (decide (k' = k)) as [->|Hne]; [by rewrite lookup_delete_eq|by rewrite lookup_delete_ne].
  - rewrite list_elem_of_fmap. split.
    + intros ([k' v] & -> & Hin%elem_of_map_to_list). apply map_lookup_filter_Some in Hin as [Hc Hv]. cbn. by rewrite Hc.
    + destruct (c !! k) as [v|] eqn:E; [|done]. intros Hv. exists (k, v). split; [done|].
      by apply elem_of_map_to_list, map_lookup_filter_Some.
  - destruct (c !! k) as [[e|]|]; cbn in *; try done. rewrite bool_decide_eq_true in *. lia.
Qed.
