(* ===== verification/PoolInterface.v ===== *)
(** The contract of a DHCP pool backend (src/go/dhcp/pool/pool.go).

    A pool maps the indexes [0 .. capacity-1] of an address range to the MAC
    address that holds them.  [PoolOps] has the operations of the Go interface
    [Backend] that the DHCP server calls, as state transformers: the oracle
    argument stands for what the operation does not determine itself (the
    iteration order of a Go map, [rand.Intn], the clock, the answers of the
    database).  [PoolLaws] is what a backend promises to the DHCP server; the
    theorems about the server are proved against it, and the implementations
    discharge it. *)
From S2P Require Import Prelude.
From stdpp Require Import base gmap strings.

Open Scope Z_scope.

(** Constants of pool.go. *)
Definition FreeMac : string := "00:00:00:00:00:00".
Definition FakeMac : string := "ff:ff:ff:ff:ff:ff".
Definition Random : Z := 1.
Definition OldestReleased : Z := 2.

Class PoolOps (S O : Type) := {
  ReserveIPIndex : O -> Z -> string -> S -> S * go (string * error);
  FreeIPIndex : O -> Z -> S -> S * go error;
  GetMACIndex : O -> Z -> S -> go (Z * string * error);
  GetFreeIPIndex : O -> string -> S -> S * go (Z * string * error);
  FreeIPsRemaining : O -> S -> go Z;
  Capacity : S -> Z;
  Listen : S -> bool;
  (** the abstraction function and the representation invariant *)
  leases : S -> gmap Z string;
  pool_ok : S -> Prop;
  (** the oracles the implementation can be run with in a state *)
  oracle_ok : O -> S -> Prop;
  (** the oracles in which nothing outside of the program fails, and those in
      which a transaction that is to be committed is committed *)
  faultless : O -> Prop;
  commits : O -> Prop
}.

(** What the abstract pool does: a lease table over [0 .. cap-1]. *)
Definition in_range (cap i : Z) : Prop := 0 <= i < cap.

Global Instance in_range_dec cap i : Decision (in_range cap i).
Proof. unfold in_range. apply _. Defined.

(** [spec_alloc cap L i m L']: index [i], free in [L], is given to [m]. *)
Definition spec_alloc (cap : Z) (L : gmap Z string) (i : Z) (m : string)
  (L' : gmap Z string) : Prop :=
  in_range cap i /\ L !! i = None /\ L' = <[i := m]> L.

(** The contract.  A call that reports success does exactly the abstract
    step, GetFreeIPIndex if its transaction is committed.  A call that does not
    succeed leaves every lease as it is if nothing outside of the program
    failed; otherwise the abstract step may have been done before the failure, or
    not.  If nothing fails, an index is reserved exactly when it is free, freed
    exactly when it is leased, and the MAC of a lease is found. *)
Class PoolLaws (S O : Type) {P : PoolOps S O} := {
  leases_in_range : forall s i m,
    pool_ok s -> leases s !! i = Some m -> in_range (Capacity s) i;
  reserve_law : forall o i m s s' r,
    pool_ok s -> oracle_ok o s -> 0 <= i ->
    ReserveIPIndex o i m s = (s', r) ->
    pool_ok s' /\ Capacity s' = Capacity s /\
    (leases s' = leases s \/ spec_alloc (Capacity s) (leases s) i m (leases s')) /\
    (forall m', r = Ret (m', None) ->
       m' = m /\ spec_alloc (Capacity s) (leases s) i m (leases s')) /\
    (faultless o ->
       ((exists m', r = Ret (m', None)) <-> in_range (Capacity s) i /\ leases s !! i = None) /\
       ((exists m', r = Ret (m', None)) \/ leases s' = leases s));
  alloc_law : forall o m s s' r,
    pool_ok s -> oracle_ok o s ->
    GetFreeIPIndex o m s = (s', r) ->
    pool_ok s' /\ Capacity s' = Capacity s /\
    (leases s' = leases s \/ exists i, spec_alloc (Capacity s) (leases s) i m (leases s')) /\
    (forall i m', r = Ret (i, m', None) ->
       m' = m /\ in_range (Capacity s) i /\ leases s !! i = None /\
       (commits o -> spec_alloc (Capacity s) (leases s) i m (leases s'))) /\
    (faultless o -> (exists i m', r = Ret (i, m', None)) \/ leases s' = leases s);
  free_law : forall o i s s' r,
    pool_ok s -> oracle_ok o s -> 0 <= i ->
    FreeIPIndex o i s = (s', r) ->
    pool_ok s' /\ Capacity s' = Capacity s /\
    (leases s' = leases s \/ leases s' = delete i (leases s)) /\
    (r = Ret None ->
       in_range (Capacity s) i /\ is_Some (leases s !! i) /\
       leases s' = delete i (leases s)) /\
    (faultless o ->
       (r = Ret None <-> is_Some (leases s !! i)) /\ (r = Ret None \/ leases s' = leases s));
  get_mac_law : forall o i s j m e,
    pool_ok s -> oracle_ok o s -> 0 <= i ->
    GetMACIndex o i s = Ret (j, m, e) ->
    m <> FreeMac -> m <> EmptyString -> leases s !! i = Some m;
  lease_is_found : forall o i s m,
    pool_ok s -> oracle_ok o s -> faultless o ->
    leases s !! i = Some m -> GetMACIndex o i s = Ret (i, m, None);
  faultless_commits : forall o, faultless o -> commits o
}.

(** An allocation keeps the existing leases. *)
Lemma alloc_keeps cap L i m L' j x : spec_alloc cap L i m L' -> L !! j = Some x -> L' !! j = Some x.
Proof. intros (_ & HN & ->) Hj. rewrite lookup_insert_ne; [done|]. intros ->. congruence. Qed.
