(* ===== verification/DhcpPool.v ===== *)
(** The in-memory DHCP pool (src/go/dhcp/pool/memory.go and the DHCPPool
    structure of pool.go).

    Every operation takes the pool's mutex for its whole body, so an operation
    is one atomic transformer of the structure.  The statsd timings have no
    effect on the pool and are left out.  What Go leaves open (the order of a
    [range] over a map, [rand.Intn], [time.Now]) is an oracle. *)
From S2P Require Import Prelude PoolInterface.
From Stdlib Require Import ZArith Lia.
From stdpp Require Import base gmap strings list sorting pretty fin_maps.

Open Scope Z_scope.

(** ** Data *)

Record DHCPPool := mkDHCPPool {
  free : gmap Z bool;
  mac : gmap Z string;
  capacity : Z;
  released : gmap Z Z;
  algorithm : Z
}.

Record Memory := mkMemory {
  PoolName : string;
  Pool : DHCPPool
}.

Record mem_oracle := mkMemOracle {
  o_now : Z;                     (* time.Now().UnixNano() *)
  o_free_order : list Z;         (* for available = range free *)
  o_rand : nat;                  (* rand.Intn(len(free)) *)
  o_released_order : list (Z * Z)  (* for k, v := range released *)
}.

(** [m[i]] of a Go map with the zero value for an absent key. *)
Definition free_at (d : DHCPPool) (i : Z) : bool := default false (free d !! i).
Definition mac_at (d : DHCPPool) (i : Z) : string := default EmptyString (mac d !! i).

(** ** Operations *)

Fixpoint newpool_loop (clock : Z -> Z) (n : nat) (i : Z) (d : DHCPPool) : DHCPPool :=
  match n with
  | O => d
  | S n' =>
      newpool_loop clock n' (i + 1)
        {| free := <[i := true]> (free d); mac := mac d; capacity := capacity d;
           released := <[i := clock i]> (released d); algorithm := algorithm d |}
  end.

(** [clock i] is the reading of the clock in iteration [i]. *)
Definition NewDHCPPool (clock : Z -> Z) (cap alg : Z) : DHCPPool :=
  newpool_loop clock (Z.to_nat cap) 0
    {| free := ∅; mac := ∅; capacity := cap; released := ∅; algorithm := alg |}.

Definition NewMemoryPool (clock : Z -> Z) (cap : Z) (name : string) (alg : Z) :
  Memory * error :=
  ({| PoolName := name; Pool := NewDHCPPool clock cap alg |}, None).

Definition issues_step (d : DHCPPool) (macs : list string)
  (st : bool * list string) (i : Z) : bool * list string :=
  let '(found, notInCache) := st in
  if free_at d i then st
  else
    let found' := foldl (fun f m => if decide (mac_at d i = m) then true else f) found macs in
    if found' then (found', notInCache)
    else (found', notInCache ++ [(mac_at d i +:+ ", " +:+ Itoa (i64 i))%string]).

Definition dup_step (d : DHCPPool) (m : string)
  (st : Z * Z * gmap Z string) (i : Z) : Z * Z * gmap Z string :=
  let '(count, saveindex, dup) := st in
  if free_at d i then st
  else if decide (mac_at d i = m) then
    let saveindex' := if decide (count = 0) then i else saveindex in
    let dup' :=
      if decide (count = 1) then <[i := m]> (<[saveindex' := m]> dup)
      else if decide (count > 1) then <[i := m]> dup
      else dup in
    (count + 1, saveindex', dup')
  else st.

Definition dup_mac (d : DHCPPool) (dup : gmap Z string) (m : string) : gmap Z string :=
  (foldl (dup_step d m) (0, 0, dup) (seqZ 0 (capacity d))).2.

Definition GetIssues (d : DHCPPool) (macs : list string) : list string * gmap Z string :=
  ((foldl (issues_step d macs) (false, []) (seqZ 0 (capacity d))).2,
   foldl (dup_mac d) ∅ macs).

Definition IndexInPool (d : DHCPPool) (index : Z) : bool := bool_decide (index < capacity d).

Definition mem_reserve (index : Z) (m : string) (d : DHCPPool) :
  DHCPPool * (string * error) :=
  if decide (index >= capacity d) then
    (d, (FreeMac, Some "Trying to reserve an IP that is outside the capacity of this pool"%string))
  else match free d !! index with
  | Some _ =>
      ({| free := delete index (free d); mac := <[index := m]> (mac d);
          capacity := capacity d; released := released d; algorithm := algorithm d |},
       (m, None))
  | None => (d, (FreeMac, Some "IP is already reserved"%string))
  end.

Definition mem_free (now : Z) (index : Z) (d : DHCPPool) : DHCPPool * error :=
  if negb (IndexInPool d index) then
    (d, Some "Trying to free an IP that is outside the capacity of this pool"%string)
  else match free d !! index with
  | Some _ => (d, Some "IP is already free"%string)
  | None =>
      ({| free := <[index := true]> (free d); mac := delete index (mac d);
          capacity := capacity d; released := <[index := now]> (released d);
          algorithm := algorithm d |}, None)
  end.

Definition IsFreeIPAtIndex (d : DHCPPool) (index : Z) : bool :=
  if negb (IndexInPool d index) then false
  else match free d !! index with Some _ => true | None => false end.

Definition mem_get_mac (d : DHCPPool) (index : Z) : Z * string * error :=
  if negb (IndexInPool d index) then
    (index, FreeMac, Some "The index is not part of the pool"%string)
  else match free d !! index with
  | Some _ => (index, FreeMac, None)
  | None => (index, mac_at d index, None)
  end.

(** The order [sort.Slice] sorts the [kv] pairs in.  [sort.Slice] is not
    stable and the slice is filled in the order of a map iteration: the
    iteration order is an arbitrary permutation, so a stable sort of it has
    every outcome the code has. *)
Definition kv_le (a b : Z * Z) : Prop := a.2 <= b.2.

Global Instance kv_le_dec a b : Decision (kv_le a b).
Proof. unfold kv_le. apply _. Defined.

Definition choose_oldest (ss : list (Z * Z)) : Z :=
  match merge_sort kv_le ss with
  | [] => 0
  | kv :: _ => kv.1
  end.

(** [for available = range free { if index == 0 { break }; index-- }]. *)
Fixpoint choose_random (order : list Z) (index : nat) (available : Z) : Z :=
  match order with
  | [] => available
  | k :: order' =>
      match index with
      | O => k
      | S index' => choose_random order' index' k
      end
  end.

Definition mem_get_free (o : mem_oracle) (m : string) (d : DHCPPool) :
  DHCPPool * (Z * string * error) :=
  if decide (size (free d) = 0%nat) then
    (d, (0, FreeMac, Some "DHCP pool is full"%string))
  else
    let available :=
      if decide (algorithm d = OldestReleased) then choose_oldest (o_released_order o)
      else choose_random (o_free_order o) (o_rand o) 0 in
    ({| free := delete available (free d); mac := <[available := m]> (mac d);
        capacity := capacity d; released := released d; algorithm := algorithm d |},
     (available, m, None)).

Definition mem_remaining (d : DHCPPool) : Z := u64 (Z.of_nat (size (free d))).

(** ** The backend interface *)

(** The oracles of a state: the two iteration orders enumerate their maps and
    [rand.Intn] answers below the number of free addresses. *)
Definition mem_oracle_ok (o : mem_oracle) (d : DHCPPool) : Prop :=
  o_free_order o ≡ₚ elements (dom (free d)) /\
  (o_rand o < size (free d) \/ size (free d) = 0)%nat /\
  o_released_order o ≡ₚ map_to_list (released d).

(** The representation invariant: an index is in exactly one of [free] and
    [mac], and both stay within the capacity. *)
Record pool_wf (d : DHCPPool) : Prop := mkPoolWf {
  wf_free : forall i b, free d !! i = Some b ->
    b = true /\ in_range (capacity d) i /\ mac d !! i = None;
  wf_mac : forall i m, mac d !! i = Some m ->
    in_range (capacity d) i /\ free d !! i = None;
  wf_total : forall i, in_range (capacity d) i ->
    is_Some (free d !! i) \/ is_Some (mac d !! i);
  wf_released : forall i, in_range (capacity d) i <-> is_Some (released d !! i)
}.

Global Instance MemoryOps : PoolOps DHCPPool mem_oracle := {
  ReserveIPIndex _ i m d := let '(d', r) := mem_reserve i m d in (d', Ret r);
  FreeIPIndex o i d := let '(d', r) := mem_free (o_now o) i d in (d', Ret r);
  GetMACIndex _ i d := Ret (mem_get_mac d i);
  GetFreeIPIndex o m d := let '(d', r) := mem_get_free o m d in (d', Ret r);
  FreeIPsRemaining _ d := Ret (mem_remaining d);
  Capacity d := capacity d;
  Listen _ := false;
  leases d := mac d;
  pool_ok d := pool_wf d /\ algorithm d <> OldestReleased;
  oracle_ok := mem_oracle_ok;
  faultless _ := True;
  commits _ := True
}.

(** ** Lemmas *)

Create HintDb pool discriminated.

Ltac pool_step := repeat first
  [ case_decide | case_match | progress simplify_eq/= ].

Lemma newpool_loop_spec clock n i d j :
  free (newpool_loop clock n i d) !! j =
    (if decide (i <= j < i + Z.of_nat n) then Some true else free d !! j) /\
  released (newpool_loop clock n i d) !! j =
    (if decide (i <= j < i + Z.of_nat n) then Some (clock j) else released d !! j) /\
  mac (newpool_loop clock n i d) = mac d /\
  capacity (newpool_loop clock n i d) = capacity d /\
  algorithm (newpool_loop clock n i d) = algorithm d.
Proof.
  revert i d. induction n as [|n IH]; intros i d; simpl.
  - rewrite !decide_False by lia. done.
  - destruct (IH (i + 1) {| free := <[i := true]> (free d); mac := mac d;
      capacity := capacity d; released := <[i := clock i]> (released d);
      algorithm := algorithm d |}) as (-> & -> & -> & -> & ->). simpl.
    repeat split; repeat case_decide; try lia; try done;
      rewrite lookup_insert; case_decide; subst; done || lia.
Qed.

Lemma NewDHCPPool_free clock cap alg j :
  free (NewDHCPPool clock cap alg) !! j = if decide (in_range cap j) then Some true else None.
Proof.
  unfold NewDHCPPool. destruct (newpool_loop_spec clock (Z.to_nat cap) 0
    {| free := ∅; mac := ∅; capacity := cap; released := ∅; algorithm := alg |} j)
    as (-> & _). unfold in_range. repeat case_decide; try done; lia.
Qed.

Lemma NewDHCPPool_released clock cap alg j :
  released (NewDHCPPool clock cap alg) !! j =
  if decide (in_range cap j) then Some (clock j) else None.
Proof.
  unfold NewDHCPPool. destruct (newpool_loop_spec clock (Z.to_nat cap) 0
    {| free := ∅; mac := ∅; capacity := cap; released := ∅; algorithm := alg |} j)
    as (_ & -> & _). unfold in_range. repeat case_decide; try done; lia.
Qed.

Lemma NewDHCPPool_rest clock cap alg :
  mac (NewDHCPPool clock cap alg) = ∅ /\
  capacity (NewDHCPPool clock cap alg) = cap /\
  algorithm (NewDHCPPool clock cap alg) = alg.
Proof.
  unfold NewDHCPPool. by destruct (newpool_loop_spec clock (Z.to_nat cap) 0
    {| free := ∅; mac := ∅; capacity := cap; released := ∅; algorithm := alg |} 0)
    as (_ & _ & -> & -> & ->).
Qed.

Lemma NewDHCPPool_wf clock cap alg : pool_wf (NewDHCPPool clock cap alg).
Proof.
  destruct (NewDHCPPool_rest clock cap alg) as (Hm & Hc & _).
  constructor; rewrite ?Hc.
  - intros i b. rewrite NewDHCPPool_free, Hm. intros. by case_decide; simplify_eq.
  - intros i m. by rewrite Hm.
  - intros i Hi. rewrite NewDHCPPool_free, decide_True by done. eauto.
  - intros i. rewrite NewDHCPPool_released. case_decide; split; eauto; done.
Qed.

(** Taking [i] out of the free map and giving it to [m]. *)
Definition assign (i : Z) (m : string) (d : DHCPPool) : DHCPPool :=
  {| free := delete i (free d); mac := <[i := m]> (mac d); capacity := capacity d;
     released := released d; algorithm := algorithm d |}.

Lemma assign_wf i m d : pool_wf d -> in_range (capacity d) i -> pool_wf (assign i m d).
Proof.
  intros [Hf Hm Ht Hr] Hi. constructor; simpl; [..|done].
  - intros j b. rewrite lookup_delete_Some. intros [Hij Hj].
    rewrite lookup_insert_ne by done. eauto.
  - intros j m'. rewrite lookup_insert_Some, lookup_delete_None.
    intros [[-> _]|[Hij Hj]]; [auto|]. destruct (Hm _ _ Hj); auto.
  - intros j Hj. destruct (decide (i = j)) as [<-|].
    + right. rewrite lookup_insert_eq. eauto.
    + rewrite lookup_delete_ne, lookup_insert_ne by done. auto.
Qed.

Lemma release_wf i now d :
  pool_wf d -> in_range (capacity d) i ->
  pool_wf {| free := <[i := true]> (free d); mac := delete i (mac d);
             capacity := capacity d; released := <[i := now]> (released d);
             algorithm := algorithm d |}.
Proof.
  intros [Hf Hm Ht Hr] Hi. constructor; simpl.
  - intros j b. rewrite lookup_insert_Some, lookup_delete_None.
    intros [[<- <-]|[Hij Hj]]; [auto|]. destruct (Hf _ _ Hj) as (?&?&?); auto.
  - intros j m'. rewrite lookup_delete_Some. intros [Hij Hj].
    rewrite lookup_insert_ne by done. eauto.
  - intros j Hj. destruct (decide (i = j)) as [<-|].
    + left. rewrite lookup_insert_eq. eauto.
    + rewrite lookup_delete_ne, lookup_insert_ne by done. auto.
  - intros j. destruct (decide (i = j)) as [<-|].
    + rewrite lookup_insert_eq. split; eauto.
    + by rewrite lookup_insert_ne.
Qed.

#[export] Hint Resolve NewDHCPPool_wf assign_wf release_wf : pool.

Lemma choose_random_elem order index available :
  (index < length order)%nat -> choose_random order index available ∈ order.
Proof.
  revert index available. induction order as [|k order IH]; intros index av Hi; [simpl in *; lia|].
  destruct index as [|index]; simpl in *; [left|right; apply IH; lia].
Qed.

Lemma choose_random_free o d :
  mem_oracle_ok o d -> size (free d) <> 0%nat ->
  is_Some (free d !! choose_random (o_free_order o) (o_rand o) 0).
Proof.
  intros (Hp & Hr & _) Hs. apply elem_of_dom.
  rewrite <-elem_of_elements, <-Hp. apply choose_random_elem.
  rewrite Hp. change (length (elements (dom (free d)))) with (size (dom (free d))).
  rewrite size_dom. lia.
Qed.

Lemma choose_oldest_min (m : gmap Z Z) ss :
  ss ≡ₚ map_to_list m -> m <> ∅ ->
  exists v, m !! choose_oldest ss = Some v /\
    forall k w, m !! k = Some w -> v <= w.
Proof.
  intros Hp Hm. unfold choose_oldest.
  pose proof (merge_sort_Permutation kv_le ss) as Hms.
  assert (Htot : Total kv_le) by (intros a b; unfold kv_le; lia).
  assert (Htr : Transitive kv_le) by (intros a b c; unfold kv_le; lia).
  pose proof (StronglySorted_merge_sort kv_le ss) as Hss.
  destruct (merge_sort kv_le ss) as [|[k v] l]; simpl.
  - rewrite <-Hms in Hp. symmetry in Hp. apply Permutation_nil_r in Hp.
    apply map_to_list_empty_iff in Hp. done.
  - exists v. rewrite <-Hms in Hp. split.
    + apply elem_of_map_to_list. rewrite <-Hp. left.
    + intros k' w Hk. apply elem_of_map_to_list in Hk. rewrite <-Hp in Hk.
      inversion Hss as [|?? _ Hall]; subst. rewrite Forall_forall in Hall.
      apply elem_of_cons in Hk as [[= -> ->]|Hk]; [lia|]. apply (Hall _ Hk).
Qed.

Lemma free_nonempty_released d :
  pool_wf d -> size (free d) <> 0%nat -> released d <> ∅.
Proof.
  intros Hwf Hs He. apply Hs. apply map_size_empty_iff, map_empty. intros i.
  destruct (free d !! i) as [b|] eqn:Hi; [|done].
  apply (wf_free _ Hwf) in Hi as (_ & Hr & _). apply (wf_released _ Hwf) in Hr.
  rewrite He, lookup_empty in Hr. by destruct Hr.
Qed.

(** *** The backend contract *)

Lemma mem_reserve_spec i m d d' m' e :
  pool_wf d -> 0 <= i -> mem_reserve i m d = (d', (m', e)) ->
  (e = None /\ m' = m /\ spec_alloc (capacity d) (mac d) i m (mac d') /\ d' = assign i m d) \/
  (e <> None /\ m' = FreeMac /\ d' = d /\ ~ (in_range (capacity d) i /\ mac d !! i = None)).
Proof.
  intros Hwf Hi. unfold mem_reserve. case_decide; [intros; simplify_eq; right; unfold in_range; naive_solver lia|].
  destruct (free d !! i) as [b|] eqn:Hf; intros; simplify_eq; [left|right].
  - apply (wf_free _ Hwf) in Hf as (_ & Hr & Hm). done.
  - split_and!; [done..|]. intros [Hr Hm]. destruct (wf_total _ Hwf _ Hr) as [[? ?]|[? ?]]; congruence.
Qed.

Lemma mem_free_spec now i d d' e :
  pool_wf d -> 0 <= i -> mem_free now i d = (d', e) ->
  (e = None /\ in_range (capacity d) i /\ is_Some (mac d !! i) /\
   mac d' = delete i (mac d) /\ capacity d' = capacity d /\
   algorithm d' = algorithm d /\ pool_wf d') \/
  (e <> None /\ d' = d /\ mac d !! i = None).
Proof.
  intros Hwf Hi. unfold mem_free, IndexInPool. case_bool_decide; simpl; last first.
  { intros; simplify_eq. right. split_and!; [done..|]. apply eq_None_not_Some. intros [m Hm].
    apply (wf_mac _ Hwf) in Hm as [Hr _]. unfold in_range in Hr. lia. }
  destruct (free d !! i) as [b|] eqn:Hf; intros; simplify_eq; [right|left]; simpl.
  { split_and!; [done..|]. by apply (wf_free _ Hwf) in Hf as (_ & _ & ?). }
  assert (Hr : in_range (capacity d) i) by (unfold in_range; lia).
  destruct (wf_total _ Hwf _ Hr) as [[? ?]|?]; [congruence|].
  split_and!; auto with pool.
Qed.

Lemma mem_get_free_spec o m d d' i m' e :
  pool_wf d -> mem_oracle_ok o d -> algorithm d <> OldestReleased ->
  mem_get_free o m d = (d', (i, m', e)) ->
  (e = None /\ m' = m /\ spec_alloc (capacity d) (mac d) i m (mac d') /\ d' = assign i m d) \/
  (e <> None /\ free d = ∅ /\ d' = d).
Proof.
  intros Hwf Ho Ha. unfold mem_get_free. case_decide as Hs.
  { intros; simplify_eq. right. repeat split; auto. by apply map_size_empty_iff. }
  rewrite decide_False by done. intros; simplify_eq. left.
  destruct (choose_random_free _ _ Ho Hs) as [b Hb].
  apply (wf_free _ Hwf) in Hb as (_ & Hr & Hm). done.
Qed.

Lemma memory_laws : PoolLaws DHCPPool mem_oracle.
Proof.
  constructor; cbn [ReserveIPIndex FreeIPIndex GetMACIndex GetFreeIPIndex FreeIPsRemaining
    Capacity leases pool_ok oracle_ok faultless commits MemoryOps].
  - intros s i m [Hwf _] Hm. by apply (wf_mac _ Hwf) in Hm as [? _].
  - intros o i m s s' r [Hwf Ha] _ Hi. destruct (mem_reserve i m s) as [d' [m' e]] eqn:He.
    intros; simplify_eq.
    destruct (mem_reserve_spec _ _ _ _ _ _ Hwf Hi He) as [(-> & -> & Hs & ->)|(? & ? & -> & Hn)].
    + split; [split; [apply assign_wf; [done|apply Hs]|done]|].
      split_and!; [done|by eauto|intros; by simplify_eq|]. intros _. split; [|by eauto].
      split; [intros _; split; apply Hs|by eauto].
    + split_and!; [done..|by left|intros; by simplify_eq|]. intros _.
      split; [|by right]. split; [intros [? ?]; by simplify_eq|done].
  - intros o m s s' r [Hwf Ha] Ho. destruct (mem_get_free o m s) as [d' [[i m'] e]] eqn:He.
    intros; simplify_eq.
    destruct (mem_get_free_spec _ _ _ _ _ _ _ Hwf Ho Ha He) as [(-> & -> & Hs & ->)|(? & ? & ->)].
    + split; [split; [apply assign_wf; [done|apply Hs]|done]|].
      split_and!; [done|by eauto| |by eauto]. intros; simplify_eq. split_and!; [done|apply Hs..|done].
    + split_and!; [done..|by left|intros; by simplify_eq|by right].
  - intros o i s s' r [Hwf Ha] _ Hi. destruct (mem_free (o_now o) i s) as [d' e] eqn:He.
    intros; simplify_eq.
    destruct (mem_free_spec _ _ _ _ _ Hwf Hi He) as [(-> & ? & ? & ? & ? & Hal & ?)|(? & -> & Hn)].
    + rewrite Hal. split_and!; auto. intros _. split; [done|by left].
    + split_and!; [done..|by left|intros; by simplify_eq|]. intros _. split; [|by right].
      rewrite Hn. split; [intros; by simplify_eq|by intros [? ?]].
  - intros o i s j m e [Hwf _] _ Hi [= He] Hne Hne'. unfold mem_get_mac, IndexInPool in He.
    case_bool_decide; simpl in He; [|by simplify_eq].
    destruct (free s !! i) eqn:Hf; simplify_eq. unfold mac_at in *.
    by destruct (mac s !! _) eqn:Hm; simpl in *.
  - intros o i s m [Hwf _] _ _ Hm. destruct (wf_mac _ Hwf _ _ Hm) as [Hr Hf].
    unfold in_range in Hr. unfold mem_get_mac, IndexInPool, mac_at. rewrite bool_decide_true by lia.
    simpl. by rewrite Hf, Hm.
  - done.
Qed.

Global Instance MemoryLaws : PoolLaws DHCPPool mem_oracle := memory_laws.

(** *** Duplicates reported by GetIssues *)

(** Index [i] is allocated to [m], as the loops of GetIssues test it. *)
Definition holds (d : DHCPPool) (m : string) (i : Z) : Prop :=
  free_at d i = false /\ mac_at d i = m.

Global Instance holds_dec d m i : Decision (holds d m i).
Proof. unfold holds. apply _. Defined.

Lemma dup_step_skip d m st i : ~ holds d m i -> dup_step d m st i = st.
Proof.
  unfold holds, dup_step. destruct st as [[c s] u]. intros H.
  destruct (free_at d i); [done|]. by rewrite decide_False by naive_solver.
Qed.

Lemma dup_fold d m u0 l :
  let '(c, s, u) := foldl (dup_step d m) (0, 0, u0) l in
  let L := filter (holds d m) l in
  c = Z.of_nat (length L) /\ (forall x L', L = x :: L' -> s = x) /\
  (forall j, u !! j = if decide (j ∈ L /\ (2 <= length L)%nat) then Some m else u0 !! j).
Proof.
  induction l as [|i l IH] using rev_ind.
  { cbn [foldl]. split; [done|]. split; [done|]. intros j.
    rewrite decide_False; [done|]. simpl. lia. }
  rewrite foldl_app, filter_app. cbn [foldl].
  destruct (foldl (dup_step d m) (0, 0, u0) l) as [[c s] u]. cbv zeta iota in IH.
  set (L := filter (holds d m) l) in *. destruct IH as (Hc & Hs & Hu).
  rewrite filter_cons, filter_nil. destruct (decide (holds d m i)) as [Hh|Hh].
  2: { rewrite dup_step_skip, app_nil_r by done. done. }
  destruct Hh as [Hfr Hma]. unfold dup_step. cbv beta iota zeta.
  rewrite Hfr, (decide_True (P := mac_at d i = m)) by done.
  destruct L as [|x [|y L']]; cbn [length] in Hc; subst c.
  - rewrite decide_True, decide_False, decide_False by lia.
    split; [done|]. split; [naive_solver|]. intros j. rewrite Hu.
    rewrite !decide_False; [done|simpl; lia|simpl; lia].
  - rewrite decide_False, decide_True by lia. rewrite (Hs x []) by done.
    split; [done|]. split; [naive_solver|]. intros j. rewrite !lookup_insert, Hu.
    repeat case_decide; subst; try done; exfalso; set_solver by (simpl in *; lia).
  - rewrite decide_False, decide_False, decide_True by (simpl; lia).
    split; [simpl; rewrite length_app; simpl; lia|].
    split; [intros x0 L0 [= <- _]; eauto|]. intros j.
    rewrite lookup_insert, Hu. rewrite length_app.
    repeat case_decide; subst; try done; exfalso; set_solver by (simpl in *; lia).
Qed.

(** Two or more indexes of the pool are allocated to [m]. *)
Definition many (d : DHCPPool) (m : string) : bool :=
  bool_decide (2 <= length (filter (holds d m) (seqZ 0 (capacity d))))%nat.

Lemma dup_mac_lookup d u m j :
  dup_mac d u m !! j =
  if decide (in_range (capacity d) j /\ holds d m j /\ many d m = true)
  then Some m else u !! j.
Proof.
  unfold dup_mac. pose proof (dup_fold d m u (seqZ 0 (capacity d))) as H.
  destruct (foldl (dup_step d m) (0, 0, u) (seqZ 0 (capacity d))) as [[c s] u'].
  destruct H as (_ & _ & H). simpl. rewrite H. apply decide_ext. unfold many, in_range.
  rewrite bool_decide_eq_true, list_elem_of_filter, elem_of_seqZ. naive_solver lia.
Qed.

Lemma dup_macs_lookup d macs u j :
  foldl (dup_mac d) u macs !! j =
  if decide (in_range (capacity d) j /\ free_at d j = false /\ mac_at d j ∈ macs /\
             many d (mac_at d j) = true)
  then Some (mac_at d j) else u !! j.
Proof.
  revert u. induction macs as [|m macs IH]; intros u; cbn [foldl].
  { rewrite decide_False; [done|]. set_solver. }
  rewrite IH, dup_mac_lookup. unfold holds.
  destruct (decide (mac_at d j = m)) as [<-|Hne].
  - destruct (decide (many d (mac_at d j) = true /\ in_range (capacity d) j /\ free_at d j = false))
      as [(? & ? & ?)|Hn].
    + rewrite (decide_True (P := _ /\ _ /\ mac_at d j ∈ _ :: _ /\ _)) by set_solver.
      case_decide; [done|]. by rewrite decide_True.
    + rewrite !decide_False; [done|naive_solver..].
  - rewrite (decide_False (P := _ /\ (_ /\ mac_at d j = m) /\ _)) by naive_solver.
    apply decide_ext. set_solver.
Qed.

Lemma holds_leased d m i :
  pool_wf d -> in_range (capacity d) i -> holds d m i <-> mac d !! i = Some m.
Proof.
  intros Hwf Hi. unfold holds, free_at, mac_at. split.
  - intros [Hf Hm]. destruct (wf_total _ Hwf _ Hi) as [[b Hb]|[m' Hm']].
    + rewrite Hb in Hf. apply (wf_free _ Hwf) in Hb as [-> _]. done.
    + rewrite Hm' in Hm. by simplify_eq/=.
  - intros Hm. destruct (wf_mac _ Hwf _ _ Hm) as [_ Hf]. by rewrite Hf, Hm.
Qed.

Lemma two_elements (l : list Z) x :
  NoDup l -> x ∈ l -> (2 <= length l)%nat <-> exists y, y ∈ l /\ y <> x.
Proof.
  intros Hnd Hx. split.
  - intros Hl. destruct l as [|a [|b l]]; simpl in Hl; try lia.
    apply NoDup_cons in Hnd as [Hab _].
    destruct (decide (a = x)) as [<-|]; [exists b|exists a]; set_solver.
  - intros (y & Hy & Hne). destruct l as [|a [|b l]]; simpl; try lia; set_solver.
Qed.

Lemma many_iff d m i :
  pool_wf d -> mac d !! i = Some m ->
  many d m = true <-> exists j, j <> i /\ mac d !! j = Some m.
Proof.
  intros Hwf Hm. destruct (wf_mac _ Hwf _ _ Hm) as [Hi _]. unfold many.
  rewrite bool_decide_eq_true.
  rewrite (two_elements _ i).
  - setoid_rewrite list_elem_of_filter. setoid_rewrite elem_of_seqZ. split.
    + intros (j & [Hj Hr] & Hne). exists j. split; [done|].
      apply holds_leased; [done| |done]. unfold in_range. lia.
    + intros (j & Hne & Hj). destruct (wf_mac _ Hwf _ _ Hj) as [Hjr _].
      exists j. split; [|done]. split; [by apply holds_leased|]. unfold in_range in Hjr. lia.
  - apply NoDup_filter, NoDup_seqZ.
  - apply list_elem_of_filter. rewrite elem_of_seqZ. split; [by apply holds_leased|].
    unfold in_range in Hi. lia.
Qed.

Lemma GetIssues_duplicates_iff d macs i m :
  pool_wf d ->
  (GetIssues d macs).2 !! i = Some m <->
  m ∈ macs /\ mac d !! i = Some m /\ exists j, j <> i /\ mac d !! j = Some m.
Proof.
  intros Hwf. unfold GetIssues. cbn [snd]. rewrite dup_macs_lookup, lookup_empty.
  case_decide as Hc.
  - destruct Hc as (Hi & Hf & Hin & Hmany).
    assert (Hm : mac d !! i = Some (mac_at d i)) by by apply holds_leased.
    rewrite many_iff in Hmany by done. split; [intros; simplify_eq; auto|].
    intros (_ & Hm' & _). congruence.
  - split; [done|]. intros (Hin & Hm & Hex). exfalso. apply Hc.
    destruct (wf_mac _ Hwf _ _ Hm) as [Hi _].
    destruct (proj2 (holds_leased _ _ _ Hwf Hi) Hm) as [Hf Hma].
    rewrite Hma. split_and!; [done..|]. by eapply many_iff.
Qed.

(** *** The unfound-entries report of GetIssues *)

Lemma issues_stuck d macs l acc :
  foldl (issues_step d macs) (true, acc) l = (true, acc).
Proof.
  induction l as [|i l IH]; [done|]. cbn [foldl]. unfold issues_step at 2.
  destruct (free_at d i); [done|].
  assert (Hf : foldl (fun f m => if decide (mac_at d i = m) then true else f) true macs = true).
  { clear. induction macs; simpl; [done|]. by case_decide. }
  by rewrite Hf.
Qed.

(** *** Reachable pools *)

Inductive pool_op :=
  | OpReserve (i : Z) (m : string)
  | OpFree (i : Z)
  | OpGetFree (m : string).

Definition op_index_ok (p : pool_op) : Prop :=
  match p with OpReserve i _ | OpFree i => 0 <= i | OpGetFree _ => True end.

Definition run_op (o : mem_oracle) (p : pool_op) (d : DHCPPool) : DHCPPool :=
  match p with
  | OpReserve i m => (mem_reserve i m d).1
  | OpFree i => (mem_free (o_now o) i d).1
  | OpGetFree m => (mem_get_free o m d).1
  end.

Inductive reachable (cap alg : Z) : DHCPPool -> Prop :=
  | reach_new clock : reachable cap alg (NewDHCPPool clock cap alg)
  | reach_op o p d :
      reachable cap alg d -> mem_oracle_ok o d -> op_index_ok p ->
      reachable cap alg (run_op o p d).

Lemma run_op_wf o p d :
  pool_wf d -> mem_oracle_ok o d -> op_index_ok p ->
  pool_wf (run_op o p d) /\ capacity (run_op o p d) = capacity d /\
  algorithm (run_op o p d) = algorithm d.
Proof.
  intros Hwf Ho Hp. destruct p as [i m|i|m]; simpl in *.
  - destruct (mem_reserve i m d) as [d' [m' e]] eqn:He. simpl.
    destruct (mem_reserve_spec _ _ _ _ _ _ Hwf Hp He) as [(_ & _ & Hs & ->)|(_ & _ & -> & _)]; [|done].
    split; [|done]. apply assign_wf; [done|apply Hs].
  - destruct (mem_free (o_now o) i d) as [d' e] eqn:He. simpl.
    by destruct (mem_free_spec _ _ _ _ _ Hwf Hp He) as [(_ & _ & _ & _ & ? & ? & ?)|(_ & -> & _)].
  - unfold mem_get_free. case_decide as Hs; [done|]. simpl. split; [|done].
    apply assign_wf; [done|]. case_decide as Ha.
    + destruct (choose_oldest_min _ _ (proj2 (proj2 Ho)) (free_nonempty_released _ Hwf Hs))
        as (v & Hv & _). apply (wf_released _ Hwf). eauto.
    + destruct (choose_random_free _ _ Ho Hs) as [b Hb]. by apply (wf_free _ Hwf) in Hb as (_ & ? & _).
Qed.

Lemma reachable_wf cap alg d :
  reachable cap alg d -> pool_wf d /\ capacity d = cap /\ algorithm d = alg.
Proof.
  induction 1 as [clock|o p d _ (Hwf & Hc & Ha) Ho Hp].
  - destruct (NewDHCPPool_rest clock cap alg) as (_ & ? & ?). auto with pool.
  - destruct (run_op_wf o p d Hwf Ho Hp) as (? & -> & ->). auto.
Qed.

Lemma wf_count d : pool_wf d -> (size (free d) + size (mac d))%nat = Z.to_nat (capacity d).
Proof.
  intros Hwf. rewrite <- !size_dom, <- size_union.
  - assert (dom (free d) ∪ dom (mac d) = list_to_set (seqZ 0 (capacity d))) as ->.
    { apply set_eq. intros i. rewrite elem_of_union, !elem_of_dom, elem_of_list_to_set, elem_of_seqZ.
      split.
      - intros [[b Hb]|[m Hm]].
        + apply (wf_free _ Hwf) in Hb as (_ & Hr & _). unfold in_range in Hr. lia.
        + apply (wf_mac _ Hwf) in Hm as (Hr & _). unfold in_range in Hr. lia.
      - intros Hr. apply (wf_total _ Hwf). unfold in_range. lia. }
    rewrite size_list_to_set by apply NoDup_seqZ. by rewrite length_seqZ.
  - intros i. rewrite !elem_of_dom. intros [b Hb] [m Hm].
    apply (wf_free _ Hwf) in Hb as (_ & _ & ?). congruence.
Qed.

(** The text GetIssues reports for an index. *)
Definition issue_text (d : DHCPPool) (i : Z) : string :=
  (mac_at d i +:+ ", " +:+ Itoa (i64 i))%string.

Lemma issues_inner d i macs f :
  foldl (fun f m => if decide (mac_at d i = m) then true else f) f macs =
  f || bool_decide (mac_at d i ∈ macs).
Proof.
  revert f. induction macs as [|m macs IH]; intros f; cbn [foldl].
  - rewrite bool_decide_false by set_solver. by rewrite orb_false_r.
  - rewrite IH. destruct (decide (mac_at d i = m)) as [Hm|Hm].
    + rewrite (bool_decide_true (mac_at d i ∈ m :: macs)) by set_solver. by rewrite !orb_true_r.
    + f_equal. apply bool_decide_ext. set_solver.
Qed.

Lemma issues_fold d macs l acc :
  (foldl (issues_step d macs) (false, acc) l).2 =
  acc ++ (issue_text d <$> take_while (fun i => bool_decide (mac_at d i ∉ macs))
            (filter (fun i => free_at d i = false) l)).
Proof.
  revert acc. induction l as [|i l IH]; intros acc; cbn [foldl].
  { by rewrite app_nil_r. }
  rewrite filter_cons. unfold issues_step at 2.
  destruct (free_at d i) eqn:Hf; [by rewrite decide_False|]. rewrite decide_True by done.
  rewrite issues_inner. cbn [orb take_while].
  case_bool_decide as Hin.
  - rewrite issues_stuck, bool_decide_false by naive_solver. by rewrite app_nil_r.
  - rewrite IH, bool_decide_true by done. rewrite <-app_assoc. done.
Qed.

(** An oracle every pool can be run with. *)
Definition canonical_oracle (now : Z) (r : nat) (d : DHCPPool) : mem_oracle :=
  {| o_now := now; o_free_order := elements (dom (free d)); o_rand := r;
     o_released_order := map_to_list (released d) |}.

Lemma mem_get_free_oldest o m d k :
  size (free d) <> 0%nat -> algorithm d = OldestReleased ->
  choose_oldest (o_released_order o) = k ->
  mem_get_free o m d = (assign k m d, (k, m, None)).
Proof. intros ? ? <-. unfold mem_get_free. by rewrite decide_False, decide_True. Qed.

Lemma canonical_oracle_ok now r d :
  (r < size (free d))%nat -> mem_oracle_ok (canonical_oracle now r d) d.
Proof. intros. split; [done|]. split; [by left|done]. Qed.

(** ** Theorems *)

(** C1.  The in-memory backend with the Random algorithm keeps the contract of
    a pool backend.  ReserveIPIndex succeeds exactly on a free index of the range,
    FreeIPIndex exactly on a leased one, GetFreeIPIndex whenever an index is
    free; a call that succeeds takes one free index for its MAC, or gives back the
    one leased index, and changes no other lease; a call that fails leaves the
    leases as they are; GetMACIndex finds the holder of every lease; and the
    representation invariant is kept. *)
Theorem memory_pool_refines_backend :
  PoolLaws DHCPPool mem_oracle /\ (forall o, faultless (S := DHCPPool) (o : mem_oracle)) /\
  (forall o m d i, pool_wf d -> algorithm d <> OldestReleased -> mem_oracle_ok o d ->
     in_range (capacity d) i -> mac d !! i = None ->
     exists j, mem_get_free o m d = (assign j m d, (j, m, None)) /\
               spec_alloc (capacity d) (mac d) j m (mac (assign j m d))).
Proof.
  split; [exact memory_laws|]. split; [done|]. intros o m d i Hwf Ha Ho Hi Hm.
  destruct (mem_get_free o m d) as [d' [[j m'] e]] eqn:He.
  destruct (mem_get_free_spec _ _ _ _ _ _ _ Hwf Ho Ha He) as [(-> & -> & Hsp & ->)|(_ & He' & _)]; [by eauto|].
  destruct (wf_total _ Hwf _ Hi) as [[b Hb]|[? ?]]; [by rewrite He', lookup_empty in Hb|congruence].
Qed.

(** C7.  In every pool the program can reach (built by NewDHCPPool, then
    reserved, freed and allocated from in any order, under either algorithm)
    each index of the range is either free or leased and never both, and
    FreeIPsRemaining plus the number of leases is the capacity. *)
Theorem reachable_pool_conserves_addresses cap alg d :
  0 <= cap < 2 ^ 64 -> reachable cap alg d ->
  pool_wf d /\ mem_remaining d + Z.of_nat (size (mac d)) = cap.
Proof.
  intros Hcap Hr. destruct (reachable_wf _ _ _ Hr) as (Hwf & Hc & _).
  split; [done|]. pose proof (wf_count _ Hwf) as Hn. rewrite Hc in Hn.
  unfold mem_remaining. rewrite wrapU_small; unfold is_u; lia.
Qed.

Lemma reachable_pool_conserves_addresses_witness :
  let d := run_op (canonical_oracle 9 0 (NewDHCPPool id 3 1)) (OpReserve 2 "aa")
             (NewDHCPPool id 3 1) in
  pool_wf d /\ mem_remaining d + Z.of_nat (size (mac d)) = 3.
Proof.
  apply (reachable_pool_conserves_addresses 3 1); [lia|].
  apply reach_op; [apply reach_new| |simpl; lia].
  apply canonical_oracle_ok. vm_compute. lia.
Defined.

(** GetFreeIPIndex with the Random algorithm is total and exact: while
    the pool is not exhausted it succeeds with an index of the range that was
    free, leases it to the asking MAC and touches no other lease; once every
    address is leased it answers "DHCP pool is full" and changes nothing. *)
Theorem GetFreeIPIndex_random_exact o m d :
  pool_wf d -> mem_oracle_ok o d -> algorithm d <> OldestReleased ->
  if decide (Z.of_nat (size (mac d)) < capacity d) then
    exists i, mem_get_free o m d = (assign i m d, (i, m, None)) /\
      spec_alloc (capacity d) (mac d) i m (mac (assign i m d))
  else mem_get_free o m d = (d, (0, FreeMac, Some "DHCP pool is full"%string)).
Proof.
  intros Hwf Ho Ha. pose proof (wf_count _ Hwf) as Hn. case_decide as Hs.
  - destruct (mem_get_free o m d) as [d' [[i m'] e]] eqn:He.
    destruct (mem_get_free_spec _ _ _ _ _ _ _ Hwf Ho Ha He)
      as [(-> & -> & Hsp & ->)|(_ & He' & _)]; [eauto|].
    rewrite He', map_size_empty in Hn. lia.
  - unfold mem_get_free. rewrite decide_True by lia. done.
Qed.

Lemma GetFreeIPIndex_random_exact_witness :
  let d := NewDHCPPool id 2 1 in
  exists i, mem_get_free (canonical_oracle 5 1 d) "aa" d = (assign i "aa" d, (i, "aa"%string, None)) /\
    spec_alloc 2 ∅ i "aa" (mac (assign i "aa" d)).
Proof.
  apply (GetFreeIPIndex_random_exact (canonical_oracle 5 1 (NewDHCPPool id 2 1)) "aa" (NewDHCPPool id 2 1)).
  - apply NewDHCPPool_wf.
  - apply canonical_oracle_ok. vm_compute. lia.
  - vm_compute. discriminate.
Defined.

(** The duplicate report of GetIssues is exact: it maps an index to a MAC
    precisely when that MAC is one of the cached ones, holds that index, and
    holds another index of the pool as well. *)
Theorem GetIssues_duplicates_exact d macs i m :
  pool_wf d ->
  (GetIssues d macs).2 !! i = Some m <->
  m ∈ macs /\ mac d !! i = Some m /\ exists j, j <> i /\ mac d !! j = Some m.
Proof. apply GetIssues_duplicates_iff. Qed.

Lemma GetIssues_duplicates_exact_witness :
  let d := (mem_reserve 2 "aa" (mem_reserve 0 "aa" (NewDHCPPool id 3 1)).1).1 in
  (GetIssues d ["aa"%string]).2 !! 2 = Some "aa"%string.
Proof.
  apply GetIssues_duplicates_exact.
  - apply (run_op_wf (canonical_oracle 0 0 (mem_reserve 0 "aa" (NewDHCPPool id 3 1)).1)
      (OpReserve 2 "aa")); [|apply canonical_oracle_ok; vm_compute; lia|simpl; lia].
    apply (run_op_wf (canonical_oracle 0 0 (NewDHCPPool id 3 1)) (OpReserve 0 "aa"));
      [apply NewDHCPPool_wf|apply canonical_oracle_ok; vm_compute; lia|simpl; lia].
  - split; [left|]. split; [reflexivity|]. exists 0. split; [lia|reflexivity].
Defined.

(** The "in the pool but not in the cache" report of GetIssues stops at
    the first allocated index whose MAC is cached: [found] is never reset, so
    the report is exactly the leading run of uncached entries, and every later
    uncached entry is missing from it. *)
Theorem GetIssues_reports_leading_run d macs :
  (GetIssues d macs).1 =
  issue_text d <$> take_while (fun i => bool_decide (mac_at d i ∉ macs))
    (filter (fun i => free_at d i = false) (seqZ 0 (capacity d))).
Proof. unfold GetIssues. cbn [fst]. by rewrite issues_fold. Qed.

(** With the OldestReleased algorithm the memory backend hands the same
    address to two clients: allocating does not touch [released], so while the
    pool is not exhausted a second GetFreeIPIndex picks the same oldest index
    again and overwrites the first client's lease. *)
Theorem GetFreeIPIndex_oldest_reallocates o1 o2 m1 m2 k d d1 :
  pool_wf d -> algorithm d = OldestReleased -> (1 < size (free d))%nat ->
  (forall j v w, j <> k -> released d !! j = Some w -> released d !! k = Some v -> v < w) ->
  is_Some (released d !! k) ->
  mem_oracle_ok o1 d -> d1 = (mem_get_free o1 m1 d).1 -> mem_oracle_ok o2 d1 ->
  (mem_get_free o1 m1 d).2 = (k, m1, None) /\ mac d1 !! k = Some m1 /\
  (mem_get_free o2 m2 d1).2 = (k, m2, None) /\ mac (mem_get_free o2 m2 d1).1 !! k = Some m2.
Proof.
  intros Hwf Ha Hs Hmin [v Hv] Ho1 -> Ho2.
  assert (Hch : forall ss, ss ≡ₚ map_to_list (released d) -> choose_oldest ss = k).
  { intros ss Hss. destruct (choose_oldest_min _ _ Hss) as (w & Hw & Hle).
    - intros He. by rewrite He, lookup_empty in Hv.
    - destruct (decide (choose_oldest ss = k)) as [|Hne]; [done|].
      specialize (Hmin _ _ _ Hne Hw Hv). specialize (Hle _ _ Hv). lia. }
  pose proof (mem_get_free_oldest o1 m1 d k ltac:(lia) Ha (Hch _ (proj2 (proj2 Ho1)))) as H1.
  rewrite H1 in *. simpl in *.
  rewrite (mem_get_free_oldest o2 m2 (assign k m1 d) k).
  - simpl. by rewrite !lookup_insert_eq.
  - simpl. destruct (free d !! k) eqn:Hk; [rewrite map_size_delete_Some by eauto|rewrite delete_id by done]; lia.
  - done.
  - apply Hch, Ho2.
Qed.

Lemma GetFreeIPIndex_oldest_reallocates_witness :
  let d := NewDHCPPool id 3 OldestReleased in
  let d1 := (mem_get_free (canonical_oracle 7 0 d) "aa" d).1 in
  (mem_get_free (canonical_oracle 7 0 d) "aa" d).2 = (0, "aa"%string, None) /\
  mac d1 !! 0 = Some "aa"%string /\
  (mem_get_free (canonical_oracle 8 0 d1) "bb" d1).2 = (0, "bb"%string, None) /\
  mac (mem_get_free (canonical_oracle 8 0 d1) "bb" d1).1 !! 0 = Some "bb"%string.
Proof.
  apply (GetFreeIPIndex_oldest_reallocates _ _ _ _ 0 (NewDHCPPool id 3 OldestReleased) _).
  - apply NewDHCPPool_wf.
  - reflexivity.
  - vm_compute. lia.
  - intros j v w Hj. rewrite !NewDHCPPool_released. unfold in_range.
    intros Hw Hv. repeat case_decide; simplify_eq; unfold id; lia.
  - vm_compute. eauto.
  - apply canonical_oracle_ok. vm_compute. lia.
  - reflexivity.
  - apply canonical_oracle_ok. vm_compute. lia.
Defined.

(** Reserving a free index and freeing it again succeeds and gives back
    the same free set and the same leases; only the release time of that index
    changes. *)
Theorem reserve_then_free_roundtrip now i m d :
  pool_wf d -> 0 <= i -> free d !! i = Some true ->
  exists d1, mem_reserve i m d = (d1, (m, None)) /\
    mem_get_mac d1 i = (i, m, None) /\
    mem_free now i d1 =
      ({| free := free d; mac := mac d; capacity := capacity d;
          released := <[i := now]> (released d); algorithm := algorithm d |}, None).
Proof.
  intros Hwf Hi Hf. destruct (wf_free _ Hwf _ _ Hf) as (_ & Hr & Hm).
  exists (assign i m d). unfold in_range in Hr. unfold mem_reserve, mem_free, mem_get_mac.
  unfold IndexInPool, mac_at. simpl. rewrite decide_False by lia. rewrite Hf.
  rewrite bool_decide_true by lia. simpl.
  rewrite !lookup_delete_eq, lookup_insert_eq, insert_delete_id, delete_insert_id by done.
  done.
Qed.

Lemma reserve_then_free_roundtrip_witness :
  let d := NewDHCPPool id 4 1 in
  exists d1, mem_reserve 3 "aa" d = (d1, ("aa"%string, None)) /\
    mem_get_mac d1 3 = (3, "aa"%string, None) /\
    mem_free 50 3 d1 =
      ({| free := free d; mac := mac d; capacity := capacity d;
          released := <[3 := 50]> (released d); algorithm := algorithm d |}, None).
Proof.
  apply (reserve_then_free_roundtrip 50 3 "aa" (NewDHCPPool id 4 1)).
  - apply NewDHCPPool_wf.
  - lia.
  - reflexivity.
Defined.
