(* ===== verification/MysqlPool.v ===== *)
(** The MySQL DHCP pool (src/go/dhcp/pool/mysql.go).

    The table dhcppool has the unique key (pool_name, idx), so its contents is
    a map from pool names to maps from indexes to rows.  Each [sql_*]
    definition is the effect of one statement of the file on that table.  The
    answers of the driver (a statement that fails, before or after the server
    has carried it out, a row that cannot be scanned, a transaction that is rolled
    back instead of committed), the clock and the row order that ORDER BY leaves
    open are the oracle.  The sources ignore the error of Commit.

    [rows.Close()] is deferred before the error of [Query] is looked at; on a
    failed query [rows] is nil and the deferred call panics, which is what
    [close_nil] stands for. *)
From S2P Require Import Prelude PoolInterface DhcpPool.
From Stdlib Require Import ZArith Lia.
From stdpp Require Import base gmap strings list sorting fin_maps.

Open Scope Z_scope.

(** ** Data *)

Record row := mkRow {
  row_mac : string;
  row_free : bool;
  row_released : Z
}.

Abbreviation table := (gmap string (gmap Z row)).

Record Mysql := mkMysql {
  my_name : string;           (* PoolName *)
  my_pool : DHCPPool;         (* DHCPPool: capacity, algorithm, and empty maps *)
  my_db : table               (* the database behind SQL *)
}.

(** What the driver and the database answer in one operation; [true] in an
    [f_] field is a failure. *)
Record my_oracle := mkMyOracle {
  f_err : string;             (* text of the driver's error *)
  f_exec : bool;              (* Exec *)
  f_done : bool;              (* an Exec that fails was carried out by the server *)
  f_rows : bool;              (* RowsAffected *)
  f_query : bool;             (* Query *)
  f_next : bool;              (* rows.Next() answers false *)
  f_scan : bool;              (* rows.Scan *)
  f_begin : bool;             (* Begin *)
  f_commit : bool;            (* Commit: the transaction is rolled back *)
  f_count_query : bool;       (* the three of FreeIPsRemaining *)
  f_count_next : bool;
  f_count_scan : bool;
  my_now : Z;                 (* NOW() *)
  my_order : list (Z * Z);    (* (idx, released) of the free rows, in row order *)
  my_affected : nat -> Z      (* RowsAffected after Exec of a SELECT with n rows *)
}.

Definition rows_of (name : string) (t : table) : gmap Z row := default ∅ (t !! name).

Definition set_db (t : table) (s : Mysql) : Mysql :=
  {| my_name := my_name s; my_pool := my_pool s; my_db := t |}.

Definition close_nil : string :=
  "runtime error: invalid memory address or nil pointer dereference".

(** ** Statements *)

(** DELETE FROM dhcppool WHERE pool_name=? *)
Definition sql_delete (name : string) (t : table) : table := delete name t.

(** INSERT INTO dhcppool (pool_name, idx, released) VALUES (?, ?, NOW())
    ON DUPLICATE KEY UPDATE id=id: [mac] is not given and gets the empty
    string, [free] its default 1. *)
Definition sql_insert (name : string) (idx now : Z) (t : table) : table :=
  match rows_of name t !! idx with
  | Some _ => t
  | None => <[name := <[idx := {| row_mac := EmptyString; row_free := true;
                                  row_released := now |}]> (rows_of name t)]> t
  end.

(** UPDATE dhcppool SET free = 0, mac = ? WHERE idx = ? AND free = 1 AND
    pool_name = ?, with the number of rows affected. *)
Definition sql_reserve (m : string) (idx : Z) (name : string) (t : table) : table * Z :=
  match rows_of name t !! idx with
  | Some r =>
      if row_free r then
        (<[name := <[idx := {| row_mac := m; row_free := false;
                               row_released := row_released r |}]> (rows_of name t)]> t, 1)
      else (t, 0)
  | None => (t, 0)
  end.

(** UPDATE dhcppool set free = 1, mac = ?, released = NOW() WHERE idx = ? AND
    free = 0 AND pool_name = ? *)
Definition sql_free (m : string) (now idx : Z) (name : string) (t : table) : table * Z :=
  match rows_of name t !! idx with
  | Some r =>
      if row_free r then (t, 0)
      else (<[name := <[idx := {| row_mac := m; row_free := true;
                                  row_released := now |}]> (rows_of name t)]> t, 1)
  | None => (t, 0)
  end.

(** (idx, released) of the rows with free = 1 of a pool. *)
Definition free_rows (name : string) (t : table) : list (Z * Z) :=
  omap (fun kr => if row_free kr.2 then Some (kr.1, row_released kr.2) else None)
    (map_to_list (rows_of name t)).

(** SELECT idx ... WHERE P.free = 1 AND P.pool_name = ? ORDER BY released (or
    ORDER BY RAND()) LIMIT 1; [order] is the order of the rows. *)
Definition sql_pick (alg : Z) (order : list (Z * Z)) : option Z :=
  if decide (alg = OldestReleased) then fst <$> head (merge_sort kv_le order)
  else fst <$> head order.

(** UPDATE dhcppool D SET D.mac = ?, D.free = 0 WHERE D.pool_name = ? AND D.idx
    IN (the picked one) AND @tmp_index := idx.  The last conjunct assigns the
    session variable and is true when the value assigned is not 0. *)
Definition sql_alloc (alg : Z) (order : list (Z * Z)) (m name : string) (t : table) :
  table * Z * Z :=
  match sql_pick alg order with
  | None => (t, 0, 0)
  | Some idx =>
      match rows_of name t !! idx with
      | None => (t, 0, 0)
      | Some r =>
          if decide (idx = 0) then (t, 0, idx)
          else (<[name := <[idx := {| row_mac := m; row_free := false;
                                      row_released := row_released r |}]> (rows_of name t)]> t,
                1, idx)
      end
  end.

(** SELECT COUNT( * ) FROM dhcppool WHERE free = 1 AND pool_name = ? *)
Definition sql_count (name : string) (t : table) : Z := Z.of_nat (length (free_rows name t)).

(** ** Operations *)

Fixpoint my_insert_loop (fails : nat -> bool) (clock : Z -> Z) (name : string)
  (n : nat) (q : nat) (i : Z) (t : table) : go table :=
  match n with
  | O => Ret t
  | S n' =>
      if fails q then Panic close_nil
      else my_insert_loop fails clock name n' (S q) (i + 1) (sql_insert name i (clock i) t)
  end.

(** [fails q]: the [q]-th query fails. *)
Definition NewMysqlPool (fails : nat -> bool) (clock : Z -> Z) (cap : Z) (name : string)
  (alg : Z) (t : table) : go (Mysql * error) :=
  if fails 0%nat then Panic close_nil
  else
    (t' <-! my_insert_loop fails clock name (Z.to_nat cap) 1 0 (sql_delete name t) ;;
     Ret ({| my_name := name;
             my_pool := {| free := ∅; mac := ∅; capacity := cap; released := ∅; algorithm := alg |};
             my_db := t' |}, None))%go.

Definition my_index_in_pool (s : Mysql) (index : Z) : bool :=
  bool_decide (index < capacity (my_pool s)).

Definition my_reserve (o : my_oracle) (index : Z) (m : string) (s : Mysql) :
  Mysql * (string * error) :=
  if decide (index >= capacity (my_pool s)) then
    (s, (FreeMac, Some "Trying to reserve an IP that is outside the capacity of this pool"%string))
  else
    let '(t, count) := sql_reserve m index (my_name s) (my_db s) in
    let s' := set_db t s in
    if f_exec o then (if f_done o then s' else s, (FreeMac, Some "IP is already reserved"%string))
    else if f_rows o then (s', (FreeMac, Some "IP is already reserved"%string))
    else if decide (count = 1) then (s', (m, None))
    else (s', (FreeMac, Some "IP is already reserved"%string)).

Definition my_free (o : my_oracle) (index : Z) (s : Mysql) : Mysql * error :=
  if negb (my_index_in_pool s index) then
    (s, Some "Trying to free an IP that is outside the capacity of this pool"%string)
  else
    let '(t, count) := sql_free FreeMac (my_now o) index (my_name s) (my_db s) in
    let s' := set_db t s in
    if f_exec o then (if f_done o then s' else s, Some "IP is already free"%string)
    else if f_rows o then (s', Some "IP is already free"%string)
    else if decide (count = 1) then (s', None)
    else (s', Some "IP is already free"%string).

Definition my_is_free (o : my_oracle) (index : Z) (s : Mysql) : bool :=
  if negb (my_index_in_pool s index) then false
  else if f_exec o then false
  else
    let n := match rows_of (my_name s) (my_db s) !! index with
             | Some r => if row_free r then 1%nat else 0%nat
             | None => 0%nat
             end in
    if f_rows o then false
    else bool_decide (my_affected o n = 1).

Definition my_get_mac (o : my_oracle) (index : Z) (s : Mysql) : go (Z * string * error) :=
  if negb (my_index_in_pool s index) then
    Ret (index, FreeMac, Some "The index is not part of the pool"%string)
  else if f_query o then Panic close_nil
  else match rows_of (my_name s) (my_db s) !! index with
  | Some r =>
      if f_next o then Ret (0, EmptyString, None)
      else if f_scan o then Ret (index, FreeMac, None)
      else Ret (index, row_mac r, None)
  | None => Ret (0, EmptyString, None)
  end.

Definition my_remaining (o : my_oracle) (s : Mysql) : go Z :=
  if f_count_query o then Panic close_nil
  else if f_count_next o then Ret 0
  else if f_count_scan o then Ret 0
  else
    let Count := sql_count (my_name s) (my_db s) in
    if decide (Count = 0) then Ret 0 else Ret (u64 Count).

Definition my_get_free (o : my_oracle) (m : string) (s : Mysql) :
  Mysql * go (Z * string * error) :=
  match my_remaining o s with
  | Panic msg => (s, Panic msg)
  | Ret Count =>
      if decide (Count = 0) then (s, Ret (0, FreeMac, Some "DHCP pool is full"%string))
      else if f_begin o then (s, Ret (0, FreeMac, Some (f_err o)))
      else
        let '(t, count, tmp_index) :=
          sql_alloc (algorithm (my_pool s)) (my_order o) m (my_name s) (my_db s) in
        (* the state after tx.Commit(), which ends every branch *)
        let s' := if f_commit o then s else set_db t s in
        if f_exec o then (if f_done o then s' else s, Ret (0, FreeMac, Some (f_err o)))
        else if f_rows o then (s', Ret (0, FreeMac, Some (f_err o)))
        else if decide (count = 1) then
          if f_query o then (s', Panic close_nil)
          else if f_next o then
            (s', Ret (0, FreeMac, Some "Not able to fetch the index from the db"%string))
          else if f_scan o then (s', Ret (0, FreeMac, Some (f_err o)))
          else (s', Ret (u64 tmp_index, m, None))
        else (s', Ret (0, FreeMac, Some "Doesn't suppose to reach here"%string))
  end.

(** GetIssues reads the [free] and [mac] maps of the structure; its loops are
    those of the in-memory pool. *)
Definition my_issues (s : Mysql) (macs : list string) : list string * gmap Z string :=
  GetIssues (my_pool s) macs.

(** ** The backend interface *)

Definition lease_of (r : row) : option string := if row_free r then None else Some (row_mac r).

Definition my_leases (s : Mysql) : gmap Z string := omap lease_of (rows_of (my_name s) (my_db s)).

(** The MAC column of a row that is not leased. *)
Definition unowned (r : row) : Prop :=
  row_free r = true -> row_mac r = EmptyString \/ row_mac r = FreeMac.

(** The pool has one row per index of its range, free rows carry no client's
    MAC, and the range fits an unsigned 64-bit integer. *)
Record my_wf (s : Mysql) : Prop := mkMyWf {
  my_rows : forall i, is_Some (rows_of (my_name s) (my_db s) !! i) <->
                      in_range (capacity (my_pool s)) i;
  my_unowned : forall i r, rows_of (my_name s) (my_db s) !! i = Some r -> unowned r;
  my_width : capacity (my_pool s) <= 2 ^ 64
}.

Definition my_oracle_ok (o : my_oracle) (s : Mysql) : Prop :=
  my_order o ≡ₚ free_rows (my_name s) (my_db s).

Global Instance MysqlOps : PoolOps Mysql my_oracle := {
  ReserveIPIndex o i m s := let '(s', r) := my_reserve o i m s in (s', Ret r);
  FreeIPIndex o i s := let '(s', r) := my_free o i s in (s', Ret r);
  GetMACIndex := my_get_mac;
  GetFreeIPIndex := my_get_free;
  FreeIPsRemaining := my_remaining;
  Capacity s := capacity (my_pool s);
  Listen _ := true;
  leases := my_leases;
  pool_ok := my_wf;
  oracle_ok := my_oracle_ok;
  faultless o := f_exec o = false /\ f_rows o = false /\ f_query o = false /\ f_next o = false /\
    f_scan o = false /\ f_begin o = false /\ f_commit o = false /\ f_count_query o = false /\
    f_count_next o = false /\ f_count_scan o = false;
  commits o := f_commit o = false
}.

(** ** Lemmas *)

Create HintDb mysql discriminated.

Lemma rows_of_insert name R t : rows_of name (<[name := R]> t) = R.
Proof. unfold rows_of. by rewrite lookup_insert_eq. Qed.

Lemma my_leases_lookup s i :
  my_leases s !! i = rows_of (my_name s) (my_db s) !! i ≫= lease_of.
Proof. unfold my_leases. by rewrite lookup_omap. Qed.

(** Rewriting the row of one index of the pool. *)
Definition put_row (i : Z) (r : row) (s : Mysql) : Mysql :=
  set_db (<[my_name s := <[i := r]> (rows_of (my_name s) (my_db s))]> (my_db s)) s.

Lemma put_row_wf i r s :
  my_wf s -> in_range (capacity (my_pool s)) i -> unowned r -> my_wf (put_row i r s).
Proof.
  intros [Hr Hu Hw] Hi Hur. constructor; [| |done]; intros j; simpl; rewrite rows_of_insert.
  - destruct (decide (i = j)) as [<-|]; [rewrite lookup_insert_eq; by split|].
    rewrite lookup_insert_ne by done. apply Hr.
  - intros r'. rewrite lookup_insert_Some. intros [[_ <-]|[_ ?]]; eauto.
Qed.

Lemma put_row_leases i r s :
  my_leases (put_row i r s) =
  match lease_of r with
  | Some m => <[i := m]> (my_leases s)
  | None => delete i (my_leases s)
  end.
Proof.
  apply map_eq. intros j. rewrite my_leases_lookup. simpl. rewrite rows_of_insert.
  destruct (decide (i = j)) as [<-|Hne].
  - rewrite lookup_insert_eq. simpl. destruct (lease_of r);
      [by rewrite lookup_insert_eq|by rewrite lookup_delete_eq].
  - rewrite lookup_insert_ne by done. destruct (lease_of r);
      [rewrite lookup_insert_ne by done|rewrite lookup_delete_ne by done];
      by rewrite my_leases_lookup.
Qed.

(** The invariant and the leases of the state a statement leaves. *)
Ltac put_row_facts i Hw Hl :=
  match goal with
  | Hwf : my_wf ?s, Hi : in_range _ i |- context [set_db (<[_ := <[i := ?r']> _]> _) ?s] =>
      pose proof (put_row_wf i r' s Hwf Hi) as Hw; unfold unowned in Hw; simpl in Hw;
      specialize (Hw ltac:(auto; done)); pose proof (put_row_leases i r' s) as Hl;
      unfold put_row in Hw, Hl
  end.

Lemma set_db_same s : set_db (my_db s) s = s.
Proof. by destruct s. Qed.

(** The three updating statements, on the pool's state. *)
Lemma sql_reserve_spec m i s t c :
  my_wf s -> sql_reserve m i (my_name s) (my_db s) = (t, c) ->
  (c = 1 /\ spec_alloc (capacity (my_pool s)) (my_leases s) i m (my_leases (set_db t s)) /\
   my_wf (set_db t s)) \/
  (c = 0 /\ set_db t s = s).
Proof.
  intros Hwf. unfold sql_reserve.
  destruct (rows_of (my_name s) (my_db s) !! i) as [r|] eqn:Hr;
    [destruct (row_free r) eqn:Hf|]; intros; simplify_eq;
    [left|right; by rewrite set_db_same..].
  assert (Hi : in_range (capacity (my_pool s)) i) by (apply (my_rows _ Hwf); eauto).
  split; [done|].
  put_row_facts i Hw Hl. split; [|done]. split_and!; [done| |by rewrite Hl].
  rewrite my_leases_lookup, Hr. simpl. unfold lease_of. by rewrite Hf.
Qed.

Lemma sql_free_spec now i s t c :
  my_wf s -> sql_free FreeMac now i (my_name s) (my_db s) = (t, c) ->
  (c = 1 /\ in_range (capacity (my_pool s)) i /\ is_Some (my_leases s !! i) /\
   my_leases (set_db t s) = delete i (my_leases s) /\ my_wf (set_db t s)) \/
  (c = 0 /\ set_db t s = s).
Proof.
  intros Hwf. unfold sql_free.
  destruct (rows_of (my_name s) (my_db s) !! i) as [r|] eqn:Hr;
    [destruct (row_free r) eqn:Hf|]; intros; simplify_eq;
    [right; by rewrite set_db_same|left|right; by rewrite set_db_same].
  assert (Hi : in_range (capacity (my_pool s)) i) by (apply (my_rows _ Hwf); eauto).
  split; [done|]. split; [done|].
  put_row_facts i Hw Hl. split_and!; [|by rewrite Hl|done].
  rewrite my_leases_lookup, Hr. simpl. unfold lease_of. rewrite Hf. eauto.
Qed.

Lemma free_rows_elem name t i v :
  (i, v) ∈ free_rows name t <->
  exists r, rows_of name t !! i = Some r /\ row_free r = true /\ row_released r = v.
Proof.
  unfold free_rows. rewrite list_elem_of_omap. split.
  - intros ([j r] & Hin & Hr). simpl in Hr. apply elem_of_map_to_list in Hin.
    destruct (row_free r) eqn:Hf; simplify_eq. eauto.
  - intros (r & Hr & Hf & <-). exists (i, r). simpl. rewrite Hf.
    split; [by apply elem_of_map_to_list|done].
Qed.

Lemma sql_pick_free o s i :
  my_oracle_ok o s -> sql_pick (algorithm (my_pool s)) (my_order o) = Some i ->
  exists r, rows_of (my_name s) (my_db s) !! i = Some r /\ row_free r = true.
Proof.
  intros Ho Hp. assert (Hin : exists v, (i, v) ∈ my_order o).
  { unfold sql_pick in Hp. case_decide.
    - destruct (merge_sort kv_le (my_order o)) as [|[j v] l] eqn:Hm; simplify_eq/=.
      exists v. rewrite <-(merge_sort_Permutation kv_le), Hm. left.
    - destruct (my_order o) as [|[j v] l]; simplify_eq/=. exists v. left. }
  destruct Hin as [v Hin]. unfold my_oracle_ok in Ho. rewrite Ho in Hin.
  apply free_rows_elem in Hin as (r & ? & ? & _). eauto.
Qed.

Lemma sql_alloc_spec o m s t c idx :
  my_wf s -> my_oracle_ok o s ->
  sql_alloc (algorithm (my_pool s)) (my_order o) m (my_name s) (my_db s) = (t, c, idx) ->
  (c = 1 /\ idx <> 0 /\
   spec_alloc (capacity (my_pool s)) (my_leases s) idx m (my_leases (set_db t s)) /\
   my_wf (set_db t s)) \/
  (c = 0 /\ set_db t s = s).
Proof.
  intros Hwf Ho. unfold sql_alloc.
  destruct (sql_pick _ _) as [i|] eqn:Hp; [|intros; simplify_eq; right; by rewrite set_db_same].
  destruct (sql_pick_free _ _ _ Ho Hp) as (r & Hr & Hf). rewrite Hr.
  case_decide; intros; simplify_eq; [right; by rewrite set_db_same|left].
  assert (Hi : in_range (capacity (my_pool s)) idx) by (apply (my_rows _ Hwf); eauto).
  split; [done|]. split; [done|].
  put_row_facts idx Hw Hl. split; [|done]. split_and!; [done| |by rewrite Hl].
  rewrite my_leases_lookup, Hr. simpl. unfold lease_of. by rewrite Hf.
Qed.

(** A row of an index of the pool is leased or free. *)
Lemma my_row s i : my_wf s -> in_range (capacity (my_pool s)) i ->
  exists r, rows_of (my_name s) (my_db s) !! i = Some r /\ my_leases s !! i = lease_of r.
Proof.
  intros Hwf Hi. apply (my_rows _ Hwf) in Hi as [r Hr]. exists r. split; [done|].
  by rewrite my_leases_lookup, Hr.
Qed.

Lemma my_range s i m : my_wf s -> my_leases s !! i = Some m -> in_range (capacity (my_pool s)) i.
Proof.
  intros Hwf Hm. rewrite my_leases_lookup in Hm. apply (my_rows _ Hwf).
  destruct (rows_of _ _ !! i); simplify_eq/=; eauto.
Qed.

(** The outcome of a statement that changes at most one row: [ok] when it changed it. *)
Definition changed (ok : Prop) (s s' : Mysql) : Prop :=
  my_wf s' /\ capacity (my_pool s') = capacity (my_pool s) /\ (s' = s \/ ok).

Lemma changed_same ok s : my_wf s -> changed ok s s.
Proof. intros. split_and!; [done..|by left]. Qed.

Lemma my_reserve_law o i m s s' r :
  my_wf s -> 0 <= i -> my_reserve o i m s = (s', r) ->
  let alloc := spec_alloc (capacity (my_pool s)) (my_leases s) i m (my_leases s') in
  changed alloc s s' /\ (forall m', r = (m', None) -> m' = m /\ alloc) /\
  (f_exec o = false -> f_rows o = false ->
   ((exists m', r = (m', None)) <-> in_range (capacity (my_pool s)) i /\ my_leases s !! i = None) /\
   ((exists m', r = (m', None)) \/ s' = s)).
Proof.
  intros Hwf Hi. unfold my_reserve, in_range. case_decide as Hc.
  { intros; simplify_eq. split; [by apply changed_same|]. split; [intros; by simplify_eq|].
    intros _ _. split; [|by right]. split; [intros [? ?]; by simplify_eq|lia]. }
  destruct (sql_reserve m i (my_name s) (my_db s)) as [t c] eqn:Hq.
  destruct (sql_reserve_spec _ _ _ _ _ Hwf Hq) as [(-> & Hs & Hw)|(-> & Hs)].
  - rewrite decide_True by done.
    destruct (f_exec o), (f_rows o); [destruct (f_done o)..| |];
      intros; simplify_eq; (split; [first [by apply changed_same|by (split_and!; [done..|by right])]|]);
      (split; [intros; by simplify_eq|]); try done.
    intros _ _. split; [|by eauto]. split; [intros _; split; apply Hs|by eauto].
  - rewrite decide_False, Hs by done.
    assert (Hn : ~ (0 <= i < capacity (my_pool s) /\ my_leases s !! i = None)).
    { intros [Hr Hl]. destruct (my_row s i Hwf Hr) as (rw & Hrw & He). unfold lease_of in He.
      unfold sql_reserve in Hq. rewrite Hrw in Hq. destruct (row_free rw); congruence. }
    destruct (f_exec o), (f_rows o), (f_done o);
      intros; simplify_eq; (split; [by apply changed_same|]); (split; [intros; by simplify_eq|]);
      intros _ _; (split; [|by right]); (split; [intros [? ?]; by simplify_eq|done]).
Qed.

Lemma my_free_law o i s s' r :
  my_wf s -> 0 <= i -> my_free o i s = (s', r) ->
  changed (my_leases s' = delete i (my_leases s)) s s' /\
  (r = None -> in_range (capacity (my_pool s)) i /\ is_Some (my_leases s !! i) /\
     my_leases s' = delete i (my_leases s)) /\
  (f_exec o = false -> f_rows o = false ->
   (r = None <-> is_Some (my_leases s !! i)) /\ (r = None \/ s' = s)).
Proof.
  intros Hwf Hi. unfold my_free, my_index_in_pool. case_bool_decide as Hc; cbn [negb]; last first.
  { intros; simplify_eq. split; [by apply changed_same|]. split; [done|]. intros _ _. split; [|by right].
    split; [done|]. intros [m Hm]. apply (my_range _ _ _ Hwf) in Hm. unfold in_range in Hm. lia. }
  destruct (sql_free FreeMac (my_now o) i (my_name s) (my_db s)) as [t c] eqn:Hq.
  destruct (sql_free_spec _ _ _ _ _ Hwf Hq) as [(-> & Hr & Hl & Hd & Hw)|(-> & Hs)].
  - rewrite decide_True by done.
    destruct (f_exec o), (f_rows o); [destruct (f_done o)..| |];
      intros; simplify_eq; (split; [first [by apply changed_same|by (split_and!; [done..|by right])]|]);
      (split; [done|]); try done.
    intros _ _. split; [done|by left].
  - rewrite decide_False, Hs by done.
    assert (Hn : ~ is_Some (my_leases s !! i)).
    { intros [m Hm]. destruct (my_row s i Hwf (my_range _ _ _ Hwf Hm)) as (rw & Hrw & He). unfold lease_of in He.
      unfold sql_free in Hq. rewrite Hrw in Hq. destruct (row_free rw); congruence. }
    destruct (f_exec o), (f_rows o), (f_done o);
      intros; simplify_eq; (split; [by apply changed_same|]); (split; [done|]);
      intros _ _; (split; [done|by right]).
Qed.

(** A call of GetFreeIPIndex that ended before its transaction. *)
Lemma unallocated (A : Prop) (B : Z -> string -> Prop) (C : Prop) s (e : go (Z * string * error)) : my_wf s ->
  (forall i m', e <> Ret (i, m', None)) ->
  changed A s s /\ (forall i m', e = Ret (i, m', None) -> B i m') /\ (C -> (exists i m', e = Ret (i, m', None)) \/ s = s).
Proof. intros Hwf He. split; [by apply changed_same|]. split; [|by right]. intros i m' Hr. by destruct (He i m'). Qed.

Lemma my_alloc_law o m s s' r :
  my_wf s -> my_oracle_ok o s -> my_get_free o m s = (s', r) ->
  let alloc i := spec_alloc (capacity (my_pool s)) (my_leases s) i m (my_leases s') in
  changed (exists i, alloc i) s s' /\
  (forall i m', r = Ret (i, m', None) ->
     m' = m /\ i <> 0 /\ in_range (capacity (my_pool s)) i /\ my_leases s !! i = None /\
     (f_commit o = false -> alloc i)) /\
  (f_query o = false /\ f_exec o = false /\ f_rows o = false /\ f_next o = false /\ f_scan o = false ->
   (exists i m', r = Ret (i, m', None)) \/ s' = s).
Proof.
  intros Hwf Ho. unfold my_get_free.
  destruct (my_remaining o s); [|by intros; simplify_eq; apply unallocated].
  case_decide; [by intros; simplify_eq; apply unallocated|].
  destruct (f_begin o); [by intros; simplify_eq; apply unallocated|].
  destruct (sql_alloc _ _ _ _ _) as [[t c] idx] eqn:Hq.
  destruct (sql_alloc_spec _ _ _ _ _ _ Hwf Ho Hq) as [(-> & Hnz & Hs & Hw)|(-> & Hs)].
  - assert (Hwr : u64 idx = idx).
    { apply wrapU_small. destruct Hs as [Hr _]. pose proof (my_width _ Hwf).
      unfold in_range in Hr. unfold is_u. lia. }
    rewrite decide_True by done. destruct (f_commit o); destruct (f_exec o), (f_rows o), (f_query o),
      (f_next o), (f_scan o), (f_done o); intros; simplify_eq;
      (split; [first [by apply changed_same|by (split_and!; [done..|by eauto])]|]);
      (split; [intros; simplify_eq; rewrite ?Hwr; pose proof Hs as (? & ? & ?); done|]);
      first [by eauto|by intros (? & ? & ? & ? & ?)].
  - rewrite decide_False, Hs by done. destruct (f_commit o); destruct (f_exec o), (f_rows o), (f_done o);
      intros; simplify_eq; (split; [by apply changed_same|]); (split; [intros; by simplify_eq|by right]).
Qed.

Lemma mysql_laws : PoolLaws Mysql my_oracle.
Proof.
  constructor; cbn [ReserveIPIndex FreeIPIndex GetMACIndex GetFreeIPIndex FreeIPsRemaining
    Capacity leases pool_ok oracle_ok faultless commits MysqlOps].
  - intros s i m Hwf Hm. by eapply my_range.
  - intros o i m s s' r Hwf _ Hi. destruct (my_reserve o i m s) as [s1 r1] eqn:He. intros; simplify_eq.
    destruct (my_reserve_law _ _ _ _ _ _ Hwf Hi He) as ((? & ? & Hc) & Hok & Hf).
    split_and!; [done..|destruct Hc as [->|?]; auto|intros m' [= ->]; auto|].
    intros (H1 & H2 & _). destruct (Hf H1 H2) as [Hiff Hor]. split; [rewrite <- Hiff|].
    + split; intros [m' Hm']; exists m'; congruence.
    + destruct Hor as [[m' ->]| ->]; eauto.
  - intros o m s s' r Hwf Ho He.
    destruct (my_alloc_law _ _ _ _ _ Hwf Ho He) as ((? & ? & Hc) & Hok & Hf).
    split_and!; [done..|destruct Hc as [->|?]; auto| |].
    + intros i m' Hr. destruct (Hok _ _ Hr) as (? & _ & ?). auto.
    + intros (? & ? & ? & ? & ? & _). destruct Hf as [?| ->]; auto.
  - intros o i s s' r Hwf _ Hi. destruct (my_free o i s) as [s1 r1] eqn:He. intros; simplify_eq.
    destruct (my_free_law _ _ _ _ _ Hwf Hi He) as ((? & ? & Hc) & Hok & Hf).
    split_and!; [done..|destruct Hc as [->|?]; auto|intros [= ->]; auto|].
    intros (H1 & H2 & _). destruct (Hf H1 H2) as [Hiff Hor]. split; [rewrite <- Hiff; split; congruence|].
    destruct Hor as [->| ->]; auto.
  - intros o i s j m e Hwf _ Hi He Hne Hne'. unfold my_get_mac in He.
    destruct (my_index_in_pool s i); simpl in He; [|by simplify_eq].
    destruct (f_query o); [done|].
    destruct (rows_of (my_name s) (my_db s) !! i) as [r|] eqn:Hr; [|by simplify_eq].
    destruct (f_next o), (f_scan o); simplify_eq.
    rewrite my_leases_lookup, Hr. simpl. unfold lease_of.
    destruct (row_free r) eqn:Hf; [|done]. by destruct (my_unowned _ Hwf _ _ Hr Hf).
  - intros o i s m Hwf _ (_ & _ & Hq & Hn & Hs & _) Hm. pose proof (my_range _ _ _ Hwf Hm) as Hi.
    destruct (my_row s i Hwf Hi) as (r & Hr & Hl). unfold my_get_mac, my_index_in_pool, in_range in *.
    rewrite bool_decide_true by lia. cbn [negb]. rewrite Hq, Hr, Hn, Hs. unfold lease_of in Hl.
    destruct (row_free r); congruence.
  - naive_solver.
Qed.

Global Instance MysqlLaws : PoolLaws Mysql my_oracle := mysql_laws.

(** *** New pools *)

Lemma sql_insert_lookup name i now t name' j :
  rows_of name' (sql_insert name i now t) !! j =
  if decide (name' = name /\ j = i /\ rows_of name t !! i = None)
  then Some {| row_mac := EmptyString; row_free := true; row_released := now |}
  else rows_of name' t !! j.
Proof.
  unfold sql_insert. destruct (rows_of name t !! i) as [r|] eqn:Hr.
  { rewrite decide_False by naive_solver. done. }
  destruct (decide (name' = name)) as [->|Hne].
  - rewrite rows_of_insert, lookup_insert. destruct (decide (i = j)) as [<-|].
    + by rewrite decide_True.
    + rewrite decide_False by naive_solver. done.
  - rewrite decide_False by naive_solver. unfold rows_of at 1. by rewrite lookup_insert_ne.
Qed.

Lemma my_insert_loop_spec fails clock name n q i t :
  (forall k, fails k = false) ->
  (forall j, i <= j -> rows_of name t !! j = None) ->
  exists t', my_insert_loop fails clock name n q i t = Ret t' /\
    forall name' j, rows_of name' t' !! j =
      if decide (name' = name /\ i <= j < i + Z.of_nat n)
      then Some {| row_mac := EmptyString; row_free := true; row_released := clock j |}
      else rows_of name' t !! j.
Proof.
  intros Hok. revert q i t. induction n as [|n IH]; intros q i t Hnone; cbn [my_insert_loop].
  { exists t. split; [done|]. intros name' j. rewrite decide_False by lia. done. }
  rewrite Hok. destruct (IH (S q) (i + 1) (sql_insert name i (clock i) t)) as (t' & -> & Ht').
  { intros j Hj. rewrite sql_insert_lookup, decide_False by lia. apply Hnone. lia. }
  exists t'. split; [done|]. intros name' j. rewrite Ht', sql_insert_lookup.
  destruct (decide (name' = name)) as [->|Hne]; [|by rewrite !decide_False by naive_solver].
  destruct (decide (j = i)) as [->|Hji].
  - rewrite decide_False by lia. rewrite decide_True by (split_and!; auto; apply Hnone; lia).
    rewrite decide_True; [done|]. split; [done|lia].
  - rewrite (decide_False (P := _ /\ j = i /\ _)) by naive_solver. apply decide_ext.
    split; (intros [? ?]; split; [done|lia]).
Qed.

Lemma rows_of_delete name t name' :
  rows_of name' (sql_delete name t) = if decide (name' = name) then ∅ else rows_of name' t.
Proof.
  unfold rows_of, sql_delete. rewrite lookup_delete.
  repeat case_decide; by subst.
Qed.

Lemma NewMysqlPool_spec fails clock cap name alg t :
  (forall k, fails k = false) ->
  exists s, NewMysqlPool fails clock cap name alg t = Ret (s, None) /\
    my_name s = name /\
    my_pool s = {| free := ∅; mac := ∅; capacity := cap; released := ∅; algorithm := alg |} /\
    (forall j, rows_of name (my_db s) !! j =
       if decide (in_range cap j)
       then Some {| row_mac := EmptyString; row_free := true; row_released := clock j |}
       else None) /\
    (forall name', name' <> name -> rows_of name' (my_db s) = rows_of name' t).
Proof.
  intros Hok. unfold NewMysqlPool. rewrite Hok.
  destruct (my_insert_loop_spec fails clock name (Z.to_nat cap) 1 0 (sql_delete name t) Hok)
    as (t' & -> & Ht').
  { intros j _. rewrite rows_of_delete, decide_True by done. done. }
  simpl. eexists. split; [done|]. split; [done|]. split; [done|]. simpl. split.
  - intros j. rewrite Ht', rows_of_delete, (decide_True (P := name = name)) by done.
    rewrite lookup_empty. apply decide_ext. unfold in_range. split; [lia|]. intros. split; [done|lia].
  - intros name' Hne. apply map_eq. intros j. rewrite Ht', decide_False by naive_solver.
    by rewrite rows_of_delete, decide_False.
Qed.

Lemma NewMysqlPool_wf fails clock cap name alg t s :
  (forall k, fails k = false) -> cap <= 2 ^ 64 ->
  NewMysqlPool fails clock cap name alg t = Ret (s, None) -> my_wf s.
Proof.
  intros Hok Hcap He.
  destruct (NewMysqlPool_spec fails clock cap name alg t Hok) as (s' & He' & Hn & Hp & Hr & _).
  rewrite He in He'. simplify_eq. constructor; rewrite ?Hp; simpl; [intros i; rewrite Hr|intros i r; rewrite Hr|done].
  - case_decide; split; eauto; done.
  - case_decide; intros; simplify_eq. by left.
Qed.

(** An oracle without failures. *)
Definition quiet_oracle (now : Z) (s : Mysql) : my_oracle :=
  {| f_err := EmptyString; f_exec := false; f_rows := false; f_query := false; f_next := false;
     f_scan := false; f_begin := false; f_commit := false; f_done := false; f_count_query := false; f_count_next := false;
     f_count_scan := false; my_now := now; my_order := free_rows (my_name s) (my_db s);
     my_affected := Z.of_nat |}.

(** ** Theorems *)

(** C2.  The MySQL backend keeps the same contract, under both algorithms.
    Whatever fails (a statement before or after the server carried it out, the
    count of its rows, a query, a scan, Begin or Commit) no existing lease is
    dropped or rewritten: the call has done the abstract step or nothing.  A call
    that reports success has done exactly the abstract step, GetFreeIPIndex if its
    transaction is committed.  If nothing fails, an index is reserved exactly when
    it is free and freed exactly when it is leased, a call that reports an error
    has changed no lease, and GetMACIndex finds the holder of every lease. *)
Theorem mysql_pool_refines_backend : PoolLaws Mysql my_oracle.
Proof. exact mysql_laws. Qed.

(** The error of Commit is ignored: when the transaction is rolled back,
    GetFreeIPIndex still reports success, with an index that stays free. *)
Theorem lost_commit_is_reported_as_success :
  let s := {| my_name := "p"; my_pool := mkDHCPPool ∅ ∅ 2 ∅ OldestReleased;
              my_db := {[ "p"%string := {[ 0 := mkRow EmptyString true 2; 1 := mkRow EmptyString true 1 ]} ]} |} in
  let o := {| f_err := EmptyString; f_exec := false; f_done := false; f_rows := false; f_query := false;
              f_next := false; f_scan := false; f_begin := false; f_commit := true; f_count_query := false;
              f_count_next := false; f_count_scan := false; my_now := 5;
              my_order := free_rows (my_name s) (my_db s); my_affected := Z.of_nat |} in
  my_get_free o "aa" s = (s, Ret (1, "aa"%string, None)) /\ my_leases s = ∅.
Proof. vm_compute. done. Qed.

(** NewMysqlPool, when no query fails, gives a pool that satisfies the
    invariant, has no lease and reports its whole capacity as free, whatever
    rows an earlier run left for it, and leaves the other pools of the table
    alone. *)
Theorem NewMysqlPool_starts_empty fails clock cap name alg t :
  (forall k, fails k = false) -> 0 <= cap < 2 ^ 64 ->
  exists s, NewMysqlPool fails clock cap name alg t = Ret (s, None) /\
    my_wf s /\ my_leases s = ∅ /\
    my_remaining (quiet_oracle 0 s) s = Ret cap /\
    (forall name', name' <> name -> rows_of name' (my_db s) = rows_of name' t).
Proof.
  intros Hok Hcap.
  destruct (NewMysqlPool_spec fails clock cap name alg t Hok) as (s & He & Hn & Hp & Hr & Ho).
  exists s. split; [done|]. split; [eapply NewMysqlPool_wf; eauto; lia|]. split; [|split; [|done]].
  - apply map_eq. intros i. rewrite my_leases_lookup, Hn, Hr, lookup_empty. by case_decide.
  - unfold my_remaining, sql_count. simpl. rewrite Hn.
    assert (Hl : length (free_rows name (my_db s)) = Z.to_nat cap).
    { unfold free_rows. rewrite length_omap_total.
      - rewrite <-size_map_to_list, (map_size_seqZ _ cap); [done|]. intros i. rewrite Hr.
        case_decide; split; eauto; done.
      - intros [i r] Hi%elem_of_map_to_list. rewrite Hr in Hi.
        case_decide; simplify_eq/=. eauto. }
    rewrite Hl, Z2Nat.id by lia. case_decide; [by subst|]. rewrite wrapU_small; [done|].
    unfold is_u. lia.
Qed.

Lemma NewMysqlPool_starts_empty_witness :
  let t : table := {[ "p"%string := {[ 1 := mkRow "aa" false 3 ]} ]} in
  exists s, NewMysqlPool (fun _ => false) id 4 "p" 1 t = Ret (s, None) /\
    my_wf s /\ my_leases s = ∅ /\ my_remaining (quiet_oracle 0 s) s = Ret 4 /\
    (forall name', name' <> "p"%string -> rows_of name' (my_db s) = rows_of name' t).
Proof.
  intros t. apply (NewMysqlPool_starts_empty (fun _ => false) id 4 "p" 1 t).
  - reflexivity.
  - lia.
Defined.

(** C40.  The MySQL backend never allocates index 0 from GetFreeIPIndex: the
    conjunct [@tmp_index := idx] is false for it.  Every index a successful
    call returns is positive, and when 0 is the row picked, a call without any
    database failure reports an error and allocates nothing although addresses
    are left. *)
Theorem mysql_never_allocates_index_zero o m s :
  my_wf s -> my_oracle_ok o s ->
  (forall i m', (my_get_free o m s).2 = Ret (i, m', None) -> 0 < i) /\
  (forall n, my_remaining o s = Ret n -> n <> 0 ->
     f_begin o = false -> f_exec o = false -> f_rows o = false ->
     sql_pick (algorithm (my_pool s)) (my_order o) = Some 0 ->
     my_get_free o m s = (s, Ret (0, FreeMac, Some "Doesn't suppose to reach here"%string))).
Proof.
  intros Hwf Ho. split.
  - intros i m' Hr. destruct (my_get_free o m s) as [s' r] eqn:He. simpl in Hr. subst r.
    destruct (my_alloc_law _ _ _ _ _ Hwf Ho He) as (_ & Hok & _).
    destruct (Hok _ _ eq_refl) as (_ & Hnz & Hr & _).
    unfold in_range in Hr. lia.
  - intros n Hn Hnz Hb Hx Hr Hp. unfold my_get_free.
    rewrite Hn, decide_False, Hb by done. unfold sql_alloc. rewrite Hp.
    destruct (sql_pick_free _ _ _ Ho Hp) as (r & -> & _).
    rewrite decide_True, Hx, Hr by done. simpl. rewrite set_db_same. by destruct (f_commit o).
Qed.

Lemma mysql_never_allocates_index_zero_witness :
  let s := {| my_name := "p"; my_pool := mkDHCPPool ∅ ∅ 2 ∅ OldestReleased;
              my_db := {[ "p"%string := {[ 0 := mkRow EmptyString true 1; 1 := mkRow EmptyString true 2 ]} ]} |} in
  my_remaining (quiet_oracle 5 s) s = Ret 2 /\
  my_get_free (quiet_oracle 5 s) "aa" s =
    (s, Ret (0, FreeMac, Some "Doesn't suppose to reach here"%string)).
Proof.
  intros s. split; [reflexivity|].
  assert (Hwf : my_wf s).
  { constructor; [|intros i r Hr; vm_compute in Hr|vm_compute; discriminate].
    - intros i. change (rows_of (my_name s) (my_db s)) with
        ({[ 0 := mkRow EmptyString true 1; 1 := mkRow EmptyString true 2 ]} : gmap Z row).
      unfold in_range. simpl. destruct (decide (i = 0)) as [->|]; [split; [lia|vm_compute; eauto]|].
      destruct (decide (i = 1)) as [->|]; [split; [lia|vm_compute; eauto]|].
      rewrite lookup_insert_ne, lookup_singleton_ne by lia. split; [by intros [? ?]|lia].
    - left. destruct i as [|[|[]|]|]; simpl in Hr; try discriminate; by simplify_eq. }
  destruct (mysql_never_allocates_index_zero (quiet_oracle 5 s) "aa" s Hwf) as [_ H];
    [unfold my_oracle_ok; reflexivity|].
  by apply (H 2).
Defined.

(** GetIssues of the MySQL backend reads the [free] and [mac] maps of the
    structure, which this backend never fills: whatever the table holds, it
    reports every index of the range with an empty MAC and never reports a
    duplicate (for a list of MACs without the empty one). *)
Theorem mysql_issues_ignore_the_table fails clock cap name alg t s db macs :
  NewMysqlPool fails clock cap name alg t = Ret (s, None) -> EmptyString ∉ macs ->
  my_issues (set_db db s) macs =
    ((fun i => (", " +:+ Itoa (i64 i))%string) <$> seqZ 0 cap, ∅).
Proof.
  intros He Hmac. assert (Hp : my_pool s = mkDHCPPool ∅ ∅ cap ∅ alg).
  { unfold NewMysqlPool in He. destruct (fails 0%nat); [done|].
    destruct (my_insert_loop _ _ _ _ _ _ _); simplify_eq/=. done. }
  unfold my_issues. simpl. rewrite Hp. unfold GetIssues. simpl. f_equal.
  - rewrite issues_fold. simpl.
    assert (Hall : forall l : list Z,
      filter (fun i => free_at (mkDHCPPool ∅ ∅ cap ∅ alg) i = false) l = l).
    { induction l as [|i l IH]; [done|]. rewrite filter_cons, decide_True, IH by done. done. }
    rewrite Hall. induction (seqZ 0 cap) as [|i l IH]; [done|]. cbn [take_while fmap list_fmap].
    rewrite bool_decide_true by done. cbn [fmap list_fmap]. by rewrite IH.
  - apply map_eq. intros j. rewrite dup_macs_lookup, lookup_empty, decide_False; [done|].
    unfold mac_at. simpl. rewrite lookup_empty. simpl. naive_solver.
Qed.

Lemma mysql_issues_ignore_the_table_witness :
  exists s, NewMysqlPool (fun _ => false) id 2 "p" 1 ∅ = Ret (s, None) /\
  my_issues (set_db {[ "p"%string := {[ 1 := mkRow "aa" false 3 ]} ]} s) ["aa"%string] =
    ([", 0"%string; ", 1"%string], ∅).
Proof.
  eexists. split; [reflexivity|].
  apply (mysql_issues_ignore_the_table (fun _ => false) id 2 "p" 1 ∅).
  - reflexivity.
  - rewrite list_elem_of_singleton. discriminate.
Defined.
