(* ===== verification/DhcpWire.v ===== *)
(** The DHCP server's wire formats: the UDP and IP headers it builds and their
    checksums (src/go/cmd/pfdhcp/rawClient.go), the packets its listeners accept
    (server.go), where a worker sends an answer (workers_pool.go), and the table
    of DHCP option types with their text forms (dictionary.go). *)
From S2P Require Import Prelude NetIP.
From Stdlib Require Import ZArith Lia Ascii.
From stdpp Require Import base gmap strings list pretty.

Open Scope Z_scope.

(** ** Headers and checksums *)

Record udphdr := mkUdphdr { udp_src : Z; udp_dst : Z; udp_ulen : Z; udp_csum : Z }.

Record pseudohdr := mkPseudohdr {
  ph_ipsrc : bytes; ph_ipdst : bytes; ph_zero : Z; ph_ipproto : Z; ph_plen : Z
}.

Record iphdr := mkIphdr {
  ip_vhl : Z; ip_tos : Z; ip_iplen : Z; ip_id : Z; ip_off : Z; ip_ttl : Z;
  ip_proto : Z; ip_csum : Z; ip_src : bytes; ip_dst : bytes
}.

(** [binary.Write(b, binary.BigEndian, x)] of a uint16 and of the structs. *)
Definition be16 (v : Z) : bytes := [(v / 256) `mod` 256; v `mod` 256].

Definition write_udphdr (u : udphdr) : bytes :=
  be16 (udp_src u) ++ be16 (udp_dst u) ++ be16 (udp_ulen u) ++ be16 (udp_csum u).

Definition write_pseudohdr (p : pseudohdr) : bytes :=
  ph_ipsrc p ++ ph_ipdst p ++ [ph_zero p; ph_ipproto p] ++ be16 (ph_plen p).

Definition write_iphdr (h : iphdr) : bytes :=
  [ip_vhl h; ip_tos h] ++ be16 (ip_iplen h) ++ be16 (ip_id h) ++ be16 (ip_off h) ++
  [ip_ttl h; ip_proto h] ++ be16 (ip_csum h) ++ ip_src h ++ ip_dst h.

(** The first loop of [checksum] and the odd byte: a uint32 sum. *)
Fixpoint sum16 (buf : bytes) (sum : Z) : Z :=
  match buf with
  | a :: b :: buf' => sum16 buf' (u32 (sum + Z.lor (u32 (Z.shiftl a 8)) b))
  | [a] => u32 (sum + u32 (Z.shiftl a 8))
  | [] => sum
  end.

(** [for sum > 0xffff { sum = (sum >> 16) + (sum & 0xffff) }], [None] when
    the fuel runs out. *)
Fixpoint fold_sum (fuel : nat) (sum : Z) : option Z :=
  if decide (sum > 65535) then
    match fuel with
    | O => None
    | S fuel' => fold_sum fuel' (u32 (Z.shiftr sum 16 + Z.land sum 65535))
    end
  else Some sum.

(** Two rounds are enough for every uint32 ([fold_sum_total]). *)
Definition checksum (buf : bytes) : option Z :=
  match fold_sum 2 (sum16 buf 0) with
  | None => None
  | Some sum =>
      let csum := 65535 - u16 sum in
      Some (if decide (csum = 0) then 65535 else csum)
  end.

Definition with_csum (h : iphdr) (c : Z) : iphdr :=
  {| ip_vhl := ip_vhl h; ip_tos := ip_tos h; ip_iplen := ip_iplen h; ip_id := ip_id h;
     ip_off := ip_off h; ip_ttl := ip_ttl h; ip_proto := ip_proto h; ip_csum := c;
     ip_src := ip_src h; ip_dst := ip_dst h |}.

Definition iphdr_checksum (h : iphdr) : option iphdr :=
  c ← checksum (write_iphdr (with_csum h 0)); Some (with_csum h c).

Definition with_ucsum (u : udphdr) (c : Z) : udphdr :=
  {| udp_src := udp_src u; udp_dst := udp_dst u; udp_ulen := udp_ulen u; udp_csum := c |}.

Definition udphdr_checksum (u : udphdr) (h : iphdr) (payload : bytes) : option udphdr :=
  let u0 := with_ucsum u 0 in
  let phdr := {| ph_ipsrc := ip_src h; ph_ipdst := ip_dst h; ph_zero := 0;
                 ph_ipproto := ip_proto h; ph_plen := udp_ulen u |} in
  c ← checksum (write_pseudohdr phdr ++ write_udphdr u0 ++ payload);
  Some (with_ucsum u c).

(** [copy(dst[:], src)] into a 4-byte array of zeros. *)
Definition copy4 (src : bytes) : bytes := take 4 (src ++ [0; 0; 0; 0]).

(** The IP packet that sendDHCP puts in an Ethernet frame. *)
Definition sendDHCP_packet (dhcp : bytes) (dstIP srcIP : ip) : option bytes :=
  let udplen := 8 + Z.of_nat (length dhcp) in
  let udp := {| udp_src := 67; udp_dst := 68; udp_ulen := u16 udplen; udp_csum := 0 |} in
  let h := {| ip_vhl := 69; ip_tos := 0; ip_iplen := 0; ip_id := 0; ip_off := 0;
              ip_ttl := 128; ip_proto := 17; ip_csum := 0;
              ip_src := copy4 (To4 srcIP); ip_dst := copy4 (To4 dstIP) |} in
  udp' ← udphdr_checksum udp h dhcp;
  let totalLen := 20 + udplen in
  h' ← iphdr_checksum {| ip_vhl := ip_vhl h; ip_tos := 0; ip_iplen := u16 totalLen; ip_id := 0;
                         ip_off := 0; ip_ttl := 128; ip_proto := 17; ip_csum := 0;
                         ip_src := ip_src h; ip_dst := ip_dst h |};
  Some (write_iphdr h' ++ write_udphdr udp' ++ dhcp).

(** The packet that sendUnicastDHCP gives to the raw socket. *)
Definition sendUnicastDHCP_packet (dhcp : bytes) (srcIP dstIP : ip) (udpsrc udpdst : Z) :
  option bytes :=
  let udplen := 8 + Z.of_nat (length dhcp) in
  let udp := {| udp_src := u16 udpsrc; udp_dst := u16 udpdst; udp_ulen := u16 udplen;
                udp_csum := 0 |} in
  let h := {| ip_vhl := 69; ip_tos := 0; ip_iplen := 0; ip_id := 0; ip_off := 0;
              ip_ttl := 128; ip_proto := 17; ip_csum := 0;
              ip_src := copy4 (To4 srcIP); ip_dst := copy4 (To4 dstIP) |} in
  udp' ← udphdr_checksum udp h dhcp;
  let totalLen := 20 + udplen in
  h' ← iphdr_checksum {| ip_vhl := ip_vhl h; ip_tos := 0; ip_iplen := u16 totalLen; ip_id := 0;
                         ip_off := 0; ip_ttl := 128; ip_proto := 17; ip_csum := 0;
                         ip_src := ip_src h; ip_dst := ip_dst h |};
  Some (write_iphdr h' ++ write_udphdr udp' ++ dhcp).

(** ** Listeners and workers *)

(** What one iteration of the loop of Serve does with a packet of [n] bytes,
    hardware address length [hlen] and message-type option [t]: the message
    type handed to a worker, or nothing. *)
Definition Serve_accepts (n hlen : Z) (t : bytes) : option Z :=
  if decide (n < 240) then None
  else if decide (hlen > 16) then None
  else match t with
  | [reqType] => if decide (reqType < 1 \/ reqType > 8) then None else Some reqType
  | _ => None
  end.

(** How a worker sends an answer: to a unicast destination (address, port), or
    as a raw frame to the client. *)
Inductive sending :=
  | SendUnicast (dst : ip) (port : Z)
  | SendRaw.

(** doWork of workers_pool.go for an answer with a packet: [src] is the client
    address as net.ParseIP gives it, [port] its port, [giaddr] the relay. *)
Definition doWork (src : ip) (port : Z) (giaddr : ip) : list sending :=
  if negb (IPEqual giaddr IPv4zero && IPEqual src IPv4zero) then
    (if negb (IPEqual src giaddr) then
       if negb (IPEqual giaddr IPv4zero) then [SendUnicast giaddr port] else []
     else []) ++ [SendUnicast src port]
  else [SendRaw].

(** ** Option types *)

Inductive DataType :=
  | tlvIPAddr | tlvNstring | tlvBlob | tlvSTime | tlvZeroSize | tlvShort | tlvBool
  | tlvRangeShort | tlvOverload | tlvMessage | tlvInt8 | TlvTypeCn | tlvRangeByte
  | extractFingerPrint.

(** The loop of tlvIPAddrt.String: [temp] holds the bytes of the current
    group, [ips] the text so far, [None] before the first address. *)
Fixpoint ipaddr_loop (ip6s : ip -> string) (temp : bytes) (ips : option string) (a : bytes) : string :=
  match a with
  | [] => default EmptyString ips
  | x :: a' =>
      let temp' := temp ++ [x] in
      if decide (length temp' = 4%nat) then
        let t := IPString ip6s temp' in
        ipaddr_loop ip6s [] (Some (match ips with
                              | None => t
                              | Some s => (s +:+ "," +:+ t)%string
                              end)) a'
      else ipaddr_loop ip6s temp' ips a'
  end.

(** [Transform.String]; indexing an empty slice panics. *)
Definition tlv_String (ip6s : ip -> string) (t : DataType) (a : bytes) : go string :=
  match t with
  | tlvIPAddr => Ret (ipaddr_loop ip6s [] None a)
  | tlvNstring | tlvSTime => Ret (string_of_bytes a)
  | tlvBlob | tlvInt8 => Ret (hex a)
  | tlvShort => (v <-! Uint16 a ;; Ret (Itoa v))%go
  | tlvBool =>
      match a with
      | [] => Panic index_panic
      | x :: _ => Ret (if decide (x = 1) then "1" else "0")%string
      end
  | tlvMessage => match a with [] => Panic index_panic | x :: _ => Ret (Itoa x) end
  | extractFingerPrint => Ret (StrJoin (Itoa <$> a) ",")
  | tlvZeroSize | tlvRangeShort | tlvOverload | TlvTypeCn | tlvRangeByte => Ret "string"%string
  end.

(** [Transform.Encode]. *)
Definition tlv_Encode (ip6 : string -> ip) (t : DataType) (a : string) : go bytes :=
  match t with
  | tlvIPAddr => Ret (concat ((fun s => To4 (ParseIP ip6 s)) <$> Split a ","))
  | tlvSTime => Ret (PutUint32 (u32 (Atoi a).1))
  | tlvBool =>
      match bytes_of_string a with
      | [] => Panic index_panic
      | x :: _ => Ret (if decide (x = 1) then [1] else [0])
      end
  | _ => Ret (bytes_of_string a)
  end.

(** The table Tlv.Tlvlist. *)
Definition Tlvlist : list (Z * (string * DataType)) :=
  [(0, ("Pad", tlvIPAddr));
   (1, ("OptionSubnetMask", tlvIPAddr));
   (2, ("OptionTimeOffset", tlvSTime));
   (3, ("OptionRouter", tlvIPAddr));
   (4, ("OptionTimeServer", tlvIPAddr));
   (5, ("OptionNameServer", tlvIPAddr));
   (6, ("OptionDomainNameServer", tlvIPAddr));
   (7, ("OptionLogServer", tlvIPAddr));
   (8, ("OptionCookieServer", tlvIPAddr));
   (9, ("OptionLPRServer", tlvIPAddr));
   (10, ("OptionImpressServer", tlvIPAddr));
   (11, ("OptionResourceLocationServer", tlvIPAddr));
   (12, ("OptionHostName", tlvNstring));
   (13, ("OptionBootFileSize", tlvShort));
   (14, ("OptionMeritDumpFile", tlvNstring));
   (15, ("OptionDomainName", tlvNstring));
   (16, ("OptionSwapServer", tlvIPAddr));
   (17, ("OptionRootPath", tlvNstring));
   (18, ("OptionExtensionsPath", tlvNstring));
   (19, ("OptionIPForwardingEnableDisable", tlvBool));
   (20, ("OptionNonLocalSourceRoutingEnableDisable", tlvBool));
   (21, ("OptionPolicyFilter", tlvIPAddr));
   (22, ("OptionMaximumDatagramReassemblySize", tlvShort));
   (23, ("OptionDefaultIPTimeToLive", tlvRangeByte));
   (24, ("OptionPathMTUAgingTimeout", tlvSTime));
   (25, ("OptionPathMTUPlateauTable", tlvRangeShort));
   (26, ("OptionInterfaceMTU", tlvRangeShort));
   (27, ("OptionAllSubnetsAreLocal", tlvBool));
   (28, ("OptionBroadcastAddress", tlvIPAddr));
   (29, ("OptionPerformMaskDiscovery", tlvBool));
   (30, ("OptionMaskSupplier", tlvBool));
   (31, ("OptionPerformRouterDiscovery", tlvBool));
   (32, ("OptionRouterSolicitationAddress", tlvIPAddr));
   (33, ("OptionStaticRoute", tlvIPAddr));
   (34, ("OptionTrailerEncapsulation", tlvBool));
   (35, ("OptionARPCacheTimeout", tlvSTime));
   (36, ("OptionEthernetEncapsulation", tlvBool));
   (37, ("OptionTCPDefaultTTL", tlvRangeByte));
   (38, ("OptionTCPKeepaliveInterval", tlvSTime));
   (39, ("OptionTCPKeepaliveGarbage", tlvBool));
   (40, ("OptionNetworkInformationServiceDomain", tlvNstring));
   (41, ("OptionNetworkInformationServers", tlvIPAddr));
   (42, ("OptionNetworkTimeProtocolServers", tlvIPAddr));
   (43, ("OptionVendorSpecificInformation", tlvBlob));
   (44, ("OptionNetBIOSOverTCPIPNameServer", tlvIPAddr));
   (45, ("OptionNetBIOSOverTCPIPDatagramDistributionServer", tlvIPAddr));
   (46, ("OptionNetBIOSOverTCPIPNodeType", tlvRangeByte));
   (47, ("OptionNetBIOSOverTCPIPScope", tlvNstring));
   (48, ("OptionXWindowSystemFontServer", tlvIPAddr));
   (49, ("OptionXWindowSystemDisplayManager", tlvIPAddr));
   (50, ("OptionRequestedIPAddress", tlvIPAddr));
   (51, ("OptionIPAddressLeaseTime", tlvSTime));
   (52, ("OptionOverload", tlvOverload));
   (53, ("OptionDHCPMessageType", tlvMessage));
   (54, ("OptionServerIdentifier", tlvIPAddr));
   (55, ("OptionParameterRequestList", extractFingerPrint));
   (56, ("OptionMessage", tlvNstring));
   (57, ("OptionMaximumDHCPMessageSize", tlvShort));
   (58, ("OptionRenewalTimeValue", tlvSTime));
   (59, ("OptionRebindingTimeValue", tlvSTime));
   (60, ("OptionVendorClassIdentifier", tlvSTime));
   (61, ("OptionClientIdentifier", tlvBlob));
   (62, ("OptionNetwareIPDomain", tlvNstring));
   (63, ("OptionNetwareIPInformation", tlvBlob));
   (64, ("OptionNetworkInformationServicePlusDomain", tlvNstring));
   (65, ("OptionNetworkInformationServicePlusServers", tlvIPAddr));
   (66, ("OptionTFTPServerName", tlvNstring));
   (67, ("OptionBootFileName", tlvNstring));
   (68, ("OptionMobileIPHomeAgent", tlvIPAddr));
   (69, ("OptionSimpleMailTransportProtocol", tlvIPAddr));
   (70, ("OptionPostOfficeProtocolServer", tlvIPAddr));
   (71, ("OptionNetworkNewsTransportProtocol", tlvIPAddr));
   (72, ("OptionDefaultWorldWideWebServer", tlvIPAddr));
   (73, ("OptionDefaultFingerServer", tlvIPAddr));
   (74, ("OptionDefaultInternetRelayChatServer", tlvIPAddr));
   (75, ("OptionStreetTalkServer", tlvIPAddr));
   (76, ("OptionStreetTalkDirectoryAssistance", tlvIPAddr));
   (77, ("OptionUserClass", TlvTypeCn));
   (81, ("OptionFQDN", tlvNstring));
   (82, ("OptionRelayAgentInformation", tlvBlob));
   (93, ("OptionClientArchitecture", tlvShort));
   (100, ("OptionTZPOSIXString", tlvNstring));
   (101, ("OptionTZDatabaseString", tlvNstring));
   (114, ("OptionCaptivePortal", tlvNstring));
   (121, ("OptionClasslessRouteFormat", tlvBlob));
   (255, ("end", tlvZeroSize))].

Definition tlv_lookup (opcode : Z) : option DataType :=
  match list_find (fun e => e.1 = opcode) Tlvlist with
  | Some (_, (_, (_, t))) => Some t
  | None => None
  end.

(** ** Lemmas *)

(** The sum of the big-endian 16-bit words, an odd last byte padded. *)
Fixpoint words (buf : bytes) : Z :=
  match buf with
  | a :: b :: buf' => a * 256 + b + words buf'
  | [a] => a * 256
  | [] => 0
  end.

Lemma lor_shift a b : is_byte a -> is_byte b -> Z.lor (u32 (Z.shiftl a 8)) b = a * 256 + b.
Proof.
  unfold is_byte. intros Ha Hb. rewrite Z.shiftl_mul_pow2 by lia.
  rewrite wrapU_small by (unfold is_u; lia). change (2 ^ 8) with 256.
  rewrite <-Z.add_lor_land.
  assert (Z.land (a * 256) b = 0) as ->; [|lia].
  apply Z.bits_inj'. intros n Hn. rewrite Z.land_spec, Z.bits_0.
  change 256 with (2 ^ 8). rewrite <-Z.shiftl_mul_pow2, Z.shiftl_spec by lia.
  destruct (decide (n < 8)); [by rewrite (Z.testbit_neg_r _ (n - 8)) by lia|].
  assert (Z.testbit b n = false) as ->; [|by rewrite andb_false_r].
  apply Z.testbit_false; [lia|]. rewrite Z.div_small; [done|].
  split; [lia|]. apply Z.lt_le_trans with (2 ^ 8); [lia|]. apply Z.pow_le_mono_r; lia.
Qed.

Lemma words_nonneg buf : Forall is_byte buf -> 0 <= words buf.
Proof.
  induction buf as [|a|a b buf IH] using list_pair_ind; rewrite ?Forall_cons; simpl; [lia|..];
    unfold is_byte; [lia|]. intros (? & ? & H). specialize (IH H). lia.
Qed.

Lemma words_bound buf :
  Forall is_byte buf -> words buf <= 65535 * ((Z.of_nat (length buf) + 1) / 2).
Proof.
  induction buf as [|a|a b buf IH] using list_pair_ind; rewrite ?Forall_cons; simpl length;
    unfold is_byte; cbn [words]; [done|..].
  { intros [? _]. change ((Z.of_nat 1 + 1) / 2) with 1. lia. }
  intros (? & ? & H). specialize (IH H).
  replace (Z.of_nat (S (S (length buf))) + 1) with (Z.of_nat (length buf) + 1 + 1 * 2) by lia.
  rewrite Z.div_add by lia. lia.
Qed.

Lemma sum16_words buf s :
  Forall is_byte buf -> is_u 32 s -> sum16 buf s = u32 (s + words buf).
Proof.
  revert s. induction buf as [|a|a b buf IH] using list_pair_ind; intros s; rewrite ?Forall_cons.
  - intros _ Hs. cbn [sum16 words]. rewrite Z.add_0_r. by rewrite wrapU_small.
  - intros [Ha _] Hs. cbn [sum16 words]. f_equal. f_equal. rewrite Z.shiftl_mul_pow2 by lia.
    apply wrapU_small. unfold is_byte, is_u in *. lia.
  - intros (Ha & Hb & H) Hs. cbn [sum16 words]. rewrite lor_shift by done.
    rewrite IH by (done || by apply wrapU_range). unfold wrapU.
    rewrite Zplus_mod_idemp_l. f_equal. lia.
Qed.

Lemma words_app b1 b2 : Nat.Even (length b1) -> words (b1 ++ b2) = words b1 + words b2.
Proof.
  induction b1 as [|a|a b b1 IH] using list_pair_ind; intros He.
  - done.
  - destruct He as [k Hk]. simpl in Hk. lia.
  - cbn [app words]. rewrite IH; [lia|]. destruct He as [k Hk]. simpl in Hk. exists (k - 1)%nat. lia.
Qed.

(** Folding a uint32 takes at most two rounds and keeps it modulo 65535. *)
Lemma fold_sum_total s :
  is_u 32 s -> exists r, fold_sum 2 s = Some r /\ 0 <= r <= 65535 /\
    r `mod` 65535 = s `mod` 65535 /\ (0 < s -> 0 < r).
Proof.
  assert (Hstep : forall t, is_u 32 t -> exists q m,
    u32 (Z.shiftr t 16 + Z.land t 65535) = q + m /\ t = 65536 * q + m /\
    0 <= q < 65536 /\ 0 <= m < 65536).
  { intros t Ht. unfold is_u in Ht. exists (t / 65536), (t `mod` 65536).
    rewrite Z.shiftr_div_pow2 by lia. change (2 ^ 16) with 65536.
    change 65535 with (Z.ones 16). rewrite Z.land_ones by lia. change (2 ^ 16) with 65536.
    pose proof (Z.mod_pos_bound t 65536 ltac:(lia)).
    assert (0 <= t / 65536 < 65536).
    { split; [apply Z.div_pos; lia|apply Z.div_lt_upper_bound; lia]. }
    split_and!; try lia; [apply wrapU_small; unfold is_u; lia|apply Z.div_mod; lia]. }
  assert (Hmod : forall q m, (q + m) `mod` 65535 = (65536 * q + m) `mod` 65535).
  { intros q m. replace (65536 * q + m) with (q + m + q * 65535) by lia. by rewrite Z.mod_add. }
  intros Hs. cbn [fold_sum]. case_decide; [|exists s; unfold is_u in Hs; split_and!; auto; lia].
  destruct (Hstep s Hs) as (q & m & -> & -> & Hq & Hm).
  case_decide; [|exists (q + m); split_and!; auto; lia].
  destruct (Hstep (q + m)) as (q' & m' & -> & E & Hq' & Hm'); [unfold is_u; lia|].
  rewrite decide_False by lia. exists (q' + m').
  rewrite <-(Hmod q m), E, <-(Hmod q' m'). split_and!; auto; lia.
Qed.

(** A receiver accepts a block of 16-bit words when its folded sum is all
    ones. *)
Definition verifies (buf : bytes) : Prop := fold_sum 2 (sum16 buf 0) = Some 65535.

Lemma be16_bytes v : Forall is_byte (be16 v).
Proof.
  unfold be16, is_byte. repeat constructor; apply Z.mod_pos_bound; lia.
Qed.

Lemma be16_words v : 0 <= v <= 65535 -> words (be16 v) = v.
Proof.
  intros Hv. unfold be16. cbn [words].
  rewrite (Z.mod_small (v / 256)) by (split; [apply Z.div_pos; lia|apply Z.div_lt_upper_bound; lia]).
  pose proof (Z.div_mod v 256 ltac:(lia)). lia.
Qed.

(** Writing the checksum of a block into its zeroed checksum field makes the
    block verify. *)
Lemma checksum_verifies b1 b2 :
  Forall is_byte b1 -> Forall is_byte b2 -> Nat.Even (length b1) ->
  Z.of_nat (length b1 + length b2) <= 131000 ->
  exists c, checksum (b1 ++ be16 0 ++ b2) = Some c /\ 0 < c <= 65535 /\
    verifies (b1 ++ be16 c ++ b2).
Proof.
  intros H1 H2 He Hlen.
  assert (Hw : forall c, 0 <= c <= 65535 ->
    sum16 (b1 ++ be16 c ++ b2) 0 = words b1 + words b2 + c /\
    is_u 32 (words b1 + words b2 + c)).
  { intros c Hc. pose proof (words_nonneg _ H1). pose proof (words_nonneg _ H2).
    pose proof (words_bound _ H1). pose proof (words_bound _ H2).
    assert (Hu : is_u 32 (words b1 + words b2 + c)).
    { unfold is_u. split; [lia|].
      assert ((Z.of_nat (length b1) + 1) / 2 <= (Z.of_nat (length b1) + 1)) by (apply Z.div_le_upper_bound; lia).
      pose proof (Z.mul_div_le (Z.of_nat (length b1) + 1) 2 ltac:(lia)).
      pose proof (Z.mul_div_le (Z.of_nat (length b2) + 1) 2 ltac:(lia)). lia. }
    split; [|done].
    rewrite sum16_words; [|rewrite !Forall_app; auto using be16_bytes|unfold is_u; lia].
    rewrite words_app, words_app by (done || by exists 1%nat). rewrite be16_words by lia.
    rewrite wrapU_small; unfold is_u in *; lia. }
  destruct (Hw 0) as [E0 Hu0]; [lia|]. rewrite Z.add_0_r in E0, Hu0.
  destruct (fold_sum_total _ Hu0) as (r & Hr & Hrb & Hrm & _).
  unfold checksum. rewrite E0, Hr.
  assert (Hu16 : u16 r = r) by (apply wrapU_small; unfold is_u; lia). rewrite Hu16.
  set (c := if decide (65535 - r = 0) then 65535 else 65535 - r).
  assert (Hc : 0 < c <= 65535 /\ (r + c) `mod` 65535 = 0).
  { unfold c. case_decide; split; try lia.
    - by replace (r + 65535) with (2 * 65535) by lia.
    - by replace (r + (65535 - r)) with (1 * 65535) by lia. }
  exists c. split; [done|]. split; [lia|]. unfold verifies.
  destruct (Hw c) as [Ec Huc]; [lia|]. rewrite Ec.
  destruct (fold_sum_total _ Huc) as (r' & -> & Hb' & Hm' & Hpos).
  f_equal. rewrite <-Zplus_mod_idemp_l, <-Hrm, Zplus_mod_idemp_l in Hm'.
  destruct Hc as [Hc1 Hc2]. rewrite Hc2 in Hm'.
  assert (0 < r').
  { apply Hpos. pose proof (words_nonneg _ H1). pose proof (words_nonneg _ H2). lia. }
  apply Z.mod_divide in Hm' as [k Hk]; [|lia]. lia.
Qed.

(** The pseudo header of a UDP datagram in an IP packet. *)
Definition pseudo_of (h : iphdr) (u : udphdr) : pseudohdr :=
  {| ph_ipsrc := ip_src h; ph_ipdst := ip_dst h; ph_zero := 0; ph_ipproto := ip_proto h;
     ph_plen := udp_ulen u |}.

Ltac all_bytes :=
  repeat first [rewrite Forall_app | rewrite Forall_cons | rewrite Forall_nil];
  split_and!; auto using be16_bytes; unfold is_byte; lia.

Lemma udphdr_checksum_ok u h payload :
  Forall is_byte (ip_src h) -> Forall is_byte (ip_dst h) ->
  length (ip_src h) = 4%nat -> length (ip_dst h) = 4%nat -> is_byte (ip_proto h) ->
  Forall is_byte payload -> Z.of_nat (length payload) <= 65535 ->
  exists c, udphdr_checksum u h payload = Some (with_ucsum u c) /\
    verifies (write_pseudohdr (pseudo_of h u) ++ write_udphdr (with_ucsum u c) ++ payload).
Proof.
  intros Hs Hd Ls Ld Hp Hpay Hlen.
  set (b1 := write_pseudohdr (pseudo_of h u) ++ be16 (udp_src u) ++ be16 (udp_dst u) ++ be16 (udp_ulen u)).
  assert (Hb1 : Forall is_byte b1 /\ length b1 = 18%nat).
  { unfold b1, write_pseudohdr, pseudo_of.
    cbn [ph_ipsrc ph_ipdst ph_zero ph_ipproto ph_plen]. split.
    - all_bytes.
    - rewrite !length_app, Ls, Ld. done. }
  assert (E : forall c, write_pseudohdr (pseudo_of h u) ++ write_udphdr (with_ucsum u c) ++ payload =
              b1 ++ be16 c ++ payload).
  { intros c. unfold b1, write_udphdr. simpl. rewrite <- !app_assoc. done. }
  destruct (checksum_verifies b1 payload) as (c & Hc & _ & Hv); try apply Hb1; auto.
  - destruct Hb1 as [_ ->]. by exists 9%nat.
  - destruct Hb1 as [_ ->]. lia.
  - exists c. rewrite E. split; [|done]. unfold udphdr_checksum.
    change (mkPseudohdr _ _ _ _ _) with (pseudo_of h u). rewrite E, Hc. done.
Qed.

Definition iphdr_ok (h : iphdr) : Prop :=
  is_byte (ip_vhl h) /\ is_byte (ip_tos h) /\ is_byte (ip_ttl h) /\ is_byte (ip_proto h) /\
  Forall is_byte (ip_src h) /\ Forall is_byte (ip_dst h) /\
  length (ip_src h) = 4%nat /\ length (ip_dst h) = 4%nat.

Lemma iphdr_checksum_ok h :
  iphdr_ok h -> exists c, iphdr_checksum h = Some (with_csum h c) /\
    verifies (write_iphdr (with_csum h c)).
Proof.
  intros (Hv & Ht & Hl & Hp & Hs & Hd & Ls & Ld).
  set (b1 := [ip_vhl h; ip_tos h] ++ be16 (ip_iplen h) ++ be16 (ip_id h) ++ be16 (ip_off h) ++
             [ip_ttl h; ip_proto h]).
  assert (E : forall c, write_iphdr (with_csum h c) = b1 ++ be16 c ++ (ip_src h ++ ip_dst h)).
  { intros c. unfold b1, write_iphdr. simpl. done. }
  destruct (checksum_verifies b1 (ip_src h ++ ip_dst h)) as (c & Hc & _ & Hver).
  - unfold b1. all_bytes.
  - rewrite Forall_app. auto.
  - by exists 5%nat.
  - rewrite length_app, Ls, Ld. unfold b1. simpl. lia.
  - exists c. unfold iphdr_checksum. rewrite !E, Hc. done.
Qed.

Lemma copy4_ok b : Forall is_byte b -> length (copy4 b) = 4%nat /\ Forall is_byte (copy4 b).
Proof.
  intros Hb. unfold copy4. split.
  - rewrite length_take, length_app. cbn [length]. lia.
  - apply Forall_take, Forall_app. split; [done|]. repeat constructor; unfold is_byte; lia.
Qed.

Lemma To4_bytes x : Forall is_byte x -> Forall is_byte (To4 x).
Proof. intros. unfold To4. repeat case_decide; auto using Forall_drop. Qed.

(** A 4-byte address. *)
Definition quad (g : bytes) : Prop := length g = 4%nat /\ Forall is_byte g.

Lemma quad_inv g :
  quad g -> exists a b c d, g = [a; b; c; d] /\ is_byte a /\ is_byte b /\ is_byte c /\ is_byte d.
Proof.
  intros [Hl Hf]. destruct g as [|a [|b [|c [|d [|]]]]]; simpl in Hl; try lia.
  rewrite !Forall_cons in Hf. exists a, b, c, d. naive_solver.
Qed.

Lemma dotted_nocomma g : quad g -> no_char "," (dotted g) = true.
Proof.
  intros (a & b & c & d & -> & Ha & Hb & Hc & Hd)%quad_inv. unfold dotted.
  cbn [fmap list_fmap StrJoin]. rewrite !no_char_app, !Itoa_no_char by done. done.
Qed.

Lemma StrJoin_merge s t l sep :
  StrJoin ((s +:+ sep +:+ t)%string :: l) sep = StrJoin (s :: t :: l) sep.
Proof. destruct l as [|u l]; cbn [StrJoin]; [done|]. by rewrite !str_app_assoc. Qed.

Lemma ipaddr_loop_group ip6s g ips gs :
  quad g ->
  ipaddr_loop ip6s [] ips (g ++ gs) =
  ipaddr_loop ip6s [] (Some (match ips with
                             | None => dotted g
                             | Some s => (s +:+ "," +:+ dotted g)%string
                             end)) gs.
Proof. intros (a & b & c & d & -> & _)%quad_inv. done. Qed.

Lemma ipaddr_loop_quads ip6s gs s :
  Forall quad gs ->
  ipaddr_loop ip6s [] (Some s) (concat gs) = StrJoin (s :: (dotted <$> gs)) ",".
Proof.
  intros Hg. revert s. induction Hg as [|g gs Hq Hg IH]; intros s; [done|].
  cbn [concat]. rewrite ipaddr_loop_group, IH by done. apply StrJoin_merge.
Qed.

(** ** Theorems *)

(** Every DHCP answer sent as a raw frame is a well-formed IP packet: the
    checksum loop terminates, the header carries the length of the packet, and
    both the IP header checksum and the UDP checksum (over the pseudo header
    and the payload) verify at the receiver. *)
Theorem sendDHCP_packet_checksums_verify dhcp dstIP srcIP :
  Forall is_byte dhcp -> Z.of_nat (length dhcp) <= 65507 ->
  Forall is_byte dstIP -> Forall is_byte srcIP ->
  exists h u, sendDHCP_packet dhcp dstIP srcIP = Some (write_iphdr h ++ write_udphdr u ++ dhcp) /\
    ip_iplen h = 28 + Z.of_nat (length dhcp) /\ udp_ulen u = 8 + Z.of_nat (length dhcp) /\
    ip_src h = copy4 (To4 srcIP) /\ ip_dst h = copy4 (To4 dstIP) /\
    udp_src u = 67 /\ udp_dst u = 68 /\
    verifies (write_iphdr h) /\
    verifies (write_pseudohdr (pseudo_of h u) ++ write_udphdr u ++ dhcp).
Proof.
  intros Hd Hlen Hdst Hsrc. unfold sendDHCP_packet.
  destruct (copy4_ok _ (To4_bytes _ Hdst)) as [Ld Bd].
  destruct (copy4_ok _ (To4_bytes _ Hsrc)) as [Ls Bs].
  rewrite !wrapU_small by (unfold is_u; lia).
  match goal with |- context [udphdr_checksum ?u ?h dhcp] =>
    destruct (udphdr_checksum_ok u h dhcp) as (c & -> & Hv); auto;
      [simpl; unfold is_byte; lia|lia|] end.
  cbn [mbind option_bind].
  match goal with |- context [iphdr_checksum ?h] =>
    destruct (iphdr_checksum_ok h) as (c' & -> & Hv') end.
  { unfold iphdr_ok. simpl. split_and!; auto; unfold is_byte; lia. }
  cbn [mbind option_bind]. eexists _, _. split; [done|]. simpl. split_and!; auto. lia.
Qed.

Lemma sendDHCP_packet_checksums_verify_witness :
  exists h u, sendDHCP_packet [1; 2; 3] [10; 0; 0; 9] [10; 0; 0; 1] =
      Some (write_iphdr h ++ write_udphdr u ++ [1; 2; 3]) /\
    ip_iplen h = 31 /\ udp_ulen u = 11 /\
    ip_src h = [10; 0; 0; 1] /\ ip_dst h = [10; 0; 0; 9] /\ udp_src u = 67 /\ udp_dst u = 68 /\
    verifies (write_iphdr h) /\
    verifies (write_pseudohdr (pseudo_of h u) ++ write_udphdr u ++ [1; 2; 3]).
Proof.
  apply (sendDHCP_packet_checksums_verify [1; 2; 3] [10; 0; 0; 9] [10; 0; 0; 1]).
  - repeat constructor; lia.
  - simpl; lia.
  - repeat constructor; lia.
  - repeat constructor; lia.
Defined.

(** The text form of an option that holds IPv4 addresses round trips:
    encoding what tlvIPAddr prints gives back the bytes of the option, for any
    number of addresses. *)
Theorem tlvIPAddr_roundtrip ip6 ip6s gs :
  Forall quad gs ->
  exists s, tlv_String ip6s tlvIPAddr (concat gs) = Ret s /\
    tlv_Encode ip6 tlvIPAddr s = Ret (concat gs).
Proof.
  intros Hg. eexists. split; [done|]. unfold tlv_Encode. f_equal.
  destruct Hg as [|g gs Hq Hg]; [done|].
  change (concat (g :: gs)) with (g ++ concat gs) at 1.
  rewrite ipaddr_loop_group, ipaddr_loop_quads by done.
  change (dotted g :: (dotted <$> gs)) with (dotted <$> (g :: gs)).
  rewrite Split_StrJoin; [|done|].
  - f_equal. rewrite <-list_fmap_compose. rewrite <-(list_fmap_id (g :: gs)) at 2.
    apply list_fmap_ext. intros i x Hx. simpl.
    assert (Hqx : quad x).
    { apply list_elem_of_lookup_2 in Hx. revert x Hx. apply Forall_forall. by constructor. }
    destruct (quad_inv x Hqx) as (a & b & c & d & -> & ? & ? & ? & ?).
    by rewrite ParseIP_dotted.
  - apply Forall_fmap. apply (Forall_impl quad); [by constructor|]. apply dotted_nocomma.
Qed.

Lemma tlvIPAddr_roundtrip_witness :
  exists s, tlv_String (fun _ => EmptyString) tlvIPAddr [10; 0; 0; 1; 192; 168; 1; 254] = Ret s /\
    tlv_Encode (fun _ => []) tlvIPAddr s = Ret [10; 0; 0; 1; 192; 168; 1; 254].
Proof.
  apply (tlvIPAddr_roundtrip (fun _ => []) (fun _ => EmptyString) [[10; 0; 0; 1]; [192; 168; 1; 254]]).
  repeat constructor; lia.
Defined.

(** tlvBool does not round trip: Encode compares the first character with
    the byte 1 instead of the digit 1, so the texts its own String function
    produces are both encoded as false. *)
Theorem tlvBool_encodes_false ip6 ip6s x a :
  exists s, tlv_String ip6s tlvBool (x :: a) = Ret s /\ tlv_Encode ip6 tlvBool s = Ret [0].
Proof. simpl. case_decide; eexists; split; reflexivity. Qed.
