(* ===== verification/PfDhcpUtils.v ===== *)
(** The helpers of the DHCP server (src/go/cmd/pfdhcp/utils.go, keysoption.go
    and decodeOptions of api.go): the state a scope works on, the option
    assembly, the address shuffling, the parsing of the reserved and assigned
    ranges, and the reload of the leases from the database.

    The caches are values of the third-party package go-cache: a client of
    [CacheOps], with the laws of its documentation in [CacheLaws].  Expiry is a
    background event and not an operation of the handlers. *)
From S2P Require Import Prelude NetIP Regex PoolInterface DhcpPool DhcpWire.
From Stdlib Require Import ZArith Lia Ascii.
From stdpp Require Import base gmap strings list.

Open Scope Z_scope.

Class CacheOps (C : Type -> Type) := {
  cache_get : forall {V : Type}, string -> C V -> option V;
  cache_set : forall {V : Type}, string -> V -> Z -> C V -> C V;
  (** [None]: the key is absent, an error *)
  cache_replace : forall {V : Type}, string -> V -> Z -> C V -> option (C V);
  cache_delete : forall {V : Type}, string -> C V -> C V
}.

Class CacheLaws (C : Type -> Type) {K : CacheOps C} := {
  get_set : forall V k k' (v : V) d c,
    cache_get k' (cache_set k v d c) = if decide (k' = k) then Some v else cache_get k' c;
  get_delete : forall V k k' (c : C V),
    cache_get k' (cache_delete k c) = if decide (k' = k) then None else cache_get k' c;
  replace_absent : forall V k (v : V) d c,
    cache_get k c = None -> cache_replace k v d c = None;
  replace_present : forall V k (v : V) d c,
    is_Some (cache_get k c) ->
    exists c', cache_replace k v d c = Some c' /\
      forall k', cache_get k' c' = if decide (k' = k) then Some v else cache_get k' c
}.

(** A cache without expiry, as a map. *)
Global Instance gmap_cache : CacheOps (fun V => gmap string V) := {
  cache_get V k c := c !! k;
  cache_set V k v _ c := <[k := v]> c;
  cache_replace V k v _ c := match c !! k with Some _ => Some (<[k := v]> c) | None => None end;
  cache_delete V k c := delete k c
}.

Global Instance gmap_cache_laws : CacheLaws (fun V => gmap string V).
Proof.
  split; cbn; intros.
  - rewrite lookup_insert. repeat case_decide; congruence.
  - rewrite lookup_delete. repeat case_decide; congruence.
  - by rewrite H.
  - destruct H as [x ->]. eexists. split; [done|]. intros k'. rewrite lookup_insert.
    repeat case_decide; congruence.
Qed.

(** [net.HardwareAddr.String]. *)
Definition macString (m : bytes) : string := StrJoin ((fun x => hex [x]) <$> m) ":".

(** NodeInfo. *)
Record NodeInfo := mkNodeInfo { ni_Mac : string; ni_Status : string; ni_Category : string }.

(** NodeInformation: [rows] is the answer of the database, [None] when the
    query failed and there are no rows to close or to read. *)
Definition NodeInformation (rows : option (list (string * string * string))) : go NodeInfo :=
  match rows with
  | None => Panic "invalid memory address or nil pointer dereference"
  | Some l =>
      let '(m, st, cat) :=
        fold_left (fun _ r => r) l (EmptyString, EmptyString, EmptyString) in
      Ret (mkNodeInfo m st cat)
  end.

(** ** Shuffling of address lists *)

Definition swap (l : list ip) (i j : nat) : list ip :=
  match l !! i, l !! j with
  | Some a, Some b => <[j := a]> (<[i := b]> l)
  | _, _ => l
  end.

(** The loop [for i := len(array)-1; i > 0; i--]; [intn k n] is the [k]-th
    call of [random.Intn(n)]. *)
Fixpoint shuffle_loop (intn : nat -> Z -> Z) (k i : nat) (array : list ip) : list ip :=
  match i with
  | O => array
  | S i' => shuffle_loop intn (S k) i' (swap array i (Z.to_nat (intn k (Z.of_nat i + 1))))
  end.

Section Utils.
Context (ip6 : string -> ip) (ip6s : ip -> string).
(** [rnd seed k n]: the [k]-th [Intn(n)] of [rand.New(rand.NewSource(seed))],
    and the clock [time.Now().UnixNano()] that seeds it. *)
Context (rnd : Z -> nat -> Z -> Z) (nanos : Z).

Definition ShuffleNetIP (array : list ip) (randSrc : Z) : bytes :=
  let src := if decide (randSrc = 0) then nanos else randSrc in
  concat (shuffle_loop (rnd src) 0 (length array - 1) array).

(** The loop of ShuffleIP that cuts the bytes in addresses. *)
Fixpoint quads (a : bytes) : go (list ip) :=
  match a with
  | [] => Ret []
  | b0 :: b1 :: b2 :: b3 :: a' =>
      (l <-! quads a' ;; Ret (To4 (IPv4 b0 b1 b2 b3) :: l))%go
  | _ => Panic index_panic
  end.

Definition ShuffleIP (a : bytes) (randSrc : Z) : go bytes :=
  (array <-! quads a ;; Ret (ShuffleNetIP array randSrc))%go.

Definition Shuffle (addresses : string) (excluded : list string) : bytes :=
  let kept := filter (fun a => a ∉ excluded) (Split addresses ",") in
  let array := (fun a => To4 (ParseIP ip6 a)) <$> kept in
  concat (shuffle_loop (rnd nanos) 0 (length array - 1) array).

(** The fields of RessourseNetworkConf that these functions read. *)
Record NetworkConf := mkNetworkConf {
  NatDNS : string; Dns : string; ClusterIPs : string; Dnsvip : string;
  NextHop : string; Gateway : string; conf_Type : string; NatEnabled : string;
  ForceGatewayVIP : string; InterfaceName : string;
  IpReserved : string; IpAssigned : string
}.

(** DetectDisabledServer: [servers] is the element list of the cluster
    resource, [disabled] the presence of the host's flag file. *)
Definition server_ips (netint : string) (key : list (string * jv)) : go (list string) :=
  foldr (fun kv acc =>
    (ips <-! (if decide (kv.1 = ("interface " +:+ netint)%string) then
                match kv.2 with
                | JMap v =>
                    foldr (fun wx acc' =>
                      if decide (wx.1 = "ip"%string) then
                        match wx.2 with
                        | JStr x => (l <-! acc' ;; Ret (x :: l))%go
                        | _ => Panic type_panic
                        end
                      else acc') (Ret []) v
                | _ => Panic type_panic
                end
              else Ret []) ;;
     rest <-! acc ;; Ret (ips ++ rest))%go) (Ret []) key.

Fixpoint DetectDisabledServer (disabled : string -> bool) (servers : list jv) (netint : string) :
  go (list string) :=
  match servers with
  | [] => Ret []
  | JMap key :: servers' =>
      match (list_to_map key : gmap string jv) !! "host"%string with
      | Some (JStr host) =>
          if disabled host then
            (ips <-! server_ips netint key ;;
             rest <-! DetectDisabledServer disabled servers' netint ;; Ret (ips ++ rest))%go
          else DetectDisabledServer disabled servers' netint
      | _ => Panic type_panic
      end
  | _ :: _ => Panic type_panic
  end.

Section Lists.
Context (IsEnabled : string -> bool) (disabled : string -> bool) (servers : list jv).

Definition ShuffleDNS (c : NetworkConf) : go bytes :=
  if negb (IsEnabled (NatDNS c)) then Ret (Shuffle (Dns c) [])
  else if decide (ClusterIPs c <> EmptyString) then
    if decide (Dnsvip c <> EmptyString) then Ret (To4 (ParseIP ip6 (Dnsvip c)))
    else (excluded <-! DetectDisabledServer disabled servers (InterfaceName c) ;;
          Ret (Shuffle (ClusterIPs c) excluded))%go
  else if decide (Dnsvip c <> EmptyString) then Ret (To4 (ParseIP ip6 (Dnsvip c)))
  else (excluded <-! DetectDisabledServer disabled servers (InterfaceName c) ;;
        Ret (Shuffle (Dns c) excluded))%go.

Definition ShuffleGateway (c : NetworkConf) : go bytes :=
  if decide (NextHop c <> EmptyString) then Ret (To4 (ParseIP ip6 (Gateway c)))
  else if decide (ClusterIPs c <> EmptyString) then
    if decide (conf_Type c = "inlinel2"%string /\ NatEnabled c = "disabled"%string) then
      Ret (To4 (ParseIP ip6 (Gateway c)))
    else if decide (ForceGatewayVIP c <> EmptyString) then
      Ret (To4 (ParseIP ip6 (ForceGatewayVIP c)))
    else (excluded <-! DetectDisabledServer disabled servers (InterfaceName c) ;;
          Ret (Shuffle (ClusterIPs c) excluded))%go
  else Ret (To4 (ParseIP ip6 (Gateway c))).

End Lists.

Definition setOptionServerIdentifier (srvIP handlerIP : ip) : ip :=
  if IPEqual srvIP handlerIP || IPEqual srvIP IPv4zero || IPEqual srvIP IPv4bcast
  then handlerIP else srvIP.

(** ** Ranges of addresses *)

(** The endless loop over a range; [inc] is sharedutils.Inc.  [None]: out of
    fuel. *)
Fixpoint range_loop (inc : ip -> ip) (fuel : nat) (start end_ : ip) : option (list ip) :=
  match fuel with
  | O => None
  | S fuel' =>
      let item := ParseIP ip6 (IPString ip6s start) in
      if IPEqual start end_ then Some [item]
      else match range_loop inc fuel' (inc start) end_ with
           | Some l => Some (item :: l)
           | None => None
           end
  end.

Definition range_item (inc : ip -> ip) (fuel : nat) (rangeip : string) : option (list ip) :=
  match Split rangeip "-" with
  | [a] => Some [ParseIP ip6 a]
  | a :: b :: _ => range_loop inc fuel (ParseIP ip6 a) (ParseIP ip6 b)
  | [] => Some []
  end.

Fixpoint range_items (inc : ip -> ip) (fuel : nat) (l : list string) : option (list ip) :=
  match l with
  | [] => Some []
  | r :: l' =>
      match range_item inc fuel r, range_items inc fuel l' with
      | Some x, Some y => Some (x ++ y)
      | _, _ => None
      end
  end.

Definition IPsFromRange (inc : ip -> ip) (fuel : nat) (iPrange : string) : option (list ip) :=
  range_items inc fuel (Split iPrange ",").

(** The index of an address in the pool that starts at [start]. *)
Definition position_of (x start : ip) : go Z :=
  (a <-! Uint32 (To4 x) ;; b <-! Uint32 (To4 start) ;; Ret (u32 (a - b)))%go.

(** The regular expression of AssignIP. *)
Definition assign_re : re :=
  Seq (Grp 1 (Seq (Rep (Seq (Rep (Chr is_hex) 2 2) (Chr (is_char ":"))) 5 5)
                  (Rep (Chr is_hex) 2 2)))
  (Seq (Chr (is_char ":"))
       (Grp 2 (Seq (Rep (Seq (Rep (Chr is_digit) 1 3) (Chr any_char)) 3 3)
                   (Rep (Chr is_digit) 1 3)))).

End Utils.

(** ** The state of a scope

    [g_calls] numbers the calls to the outside (pool oracle, ping, arp);
    [g_tasks] are the goroutines started and not yet run: each sleeps for the
    given number of seconds and then frees the index. *)
Inductive MessageType := Discover | Offer | Request | Decline | ACK | NAK | Release | Inform.

Global Instance MessageType_eq_dec : EqDecision MessageType.
Proof. solve_decision. Defined.

(** The arguments of dhcp.ReplyPacket. *)
Record reply := mkReply {
  r_type : MessageType; r_server : ip; r_ip : ip; r_lease : Z; r_options : list (Z * bytes)
}.

(** Answer; [D] is nil until a reply is built. *)
Record Answer := mkAnswer { MAC : bytes; IP : ip; SrcIP : ip; D : option reply }.

Definition no_answer : Answer := mkAnswer [] [] [] None.

Record scope (C : Type -> Type) (S : Type) := mkScope {
  g_pool : S;
  g_calls : nat;
  g_hw : C Z;
  g_xid : C Z;
  g_trans : C Z;
  g_reqtrans : C Z;
  g_filter : C jv;
  g_ipc : C string;
  g_macc : C string;
  g_tasks : list (Z * Z);
  g_ans : Answer
}.

Arguments mkScope {C S}.
Arguments g_pool {C S}.
Arguments g_calls {C S}.
Arguments g_hw {C S}.
Arguments g_xid {C S}.
Arguments g_trans {C S}.
Arguments g_reqtrans {C S}.
Arguments g_filter {C S}.
Arguments g_ipc {C S}.
Arguments g_macc {C S}.
Arguments g_tasks {C S}.
Arguments g_ans {C S}.

Section State.
Context {C : Type -> Type} {S O : Type} {K : CacheOps C} {P : PoolOps S O}.
Context (orc : nat -> S -> O).

Abbreviation st := (scope C S).

Definition set_pool (p : S) (s : st) : st :=
  mkScope p (Datatypes.S (g_calls s)) (g_hw s) (g_xid s) (g_trans s) (g_reqtrans s) (g_filter s)
    (g_ipc s) (g_macc s) (g_tasks s) (g_ans s).
Definition set_hw (h : C Z) (s : st) : st :=
  mkScope (g_pool s) (g_calls s) h (g_xid s) (g_trans s) (g_reqtrans s) (g_filter s)
    (g_ipc s) (g_macc s) (g_tasks s) (g_ans s).
Definition set_xid (x : C Z) (s : st) : st :=
  mkScope (g_pool s) (g_calls s) (g_hw s) x (g_trans s) (g_reqtrans s) (g_filter s)
    (g_ipc s) (g_macc s) (g_tasks s) (g_ans s).
Definition set_trans (x : C Z) (s : st) : st :=
  mkScope (g_pool s) (g_calls s) (g_hw s) (g_xid s) x (g_reqtrans s) (g_filter s)
    (g_ipc s) (g_macc s) (g_tasks s) (g_ans s).
Definition set_reqtrans (x : C Z) (s : st) : st :=
  mkScope (g_pool s) (g_calls s) (g_hw s) (g_xid s) (g_trans s) x (g_filter s)
    (g_ipc s) (g_macc s) (g_tasks s) (g_ans s).
Definition upd_filter (x : C jv) (s : st) : st :=
  mkScope (g_pool s) (g_calls s) (g_hw s) (g_xid s) (g_trans s) (g_reqtrans s) x
    (g_ipc s) (g_macc s) (g_tasks s) (g_ans s).
Definition set_global (i m : C string) (s : st) : st :=
  mkScope (g_pool s) (g_calls s) (g_hw s) (g_xid s) (g_trans s) (g_reqtrans s) (g_filter s)
    i m (g_tasks s) (g_ans s).
Definition set_tasks (t : list (Z * Z)) (s : st) : st :=
  mkScope (g_pool s) (g_calls s) (g_hw s) (g_xid s) (g_trans s) (g_reqtrans s) (g_filter s)
    (g_ipc s) (g_macc s) t (g_ans s).
Definition set_ans (a : Answer) (s : st) : st :=
  mkScope (g_pool s) (g_calls s) (g_hw s) (g_xid s) (g_trans s) (g_reqtrans s) (g_filter s)
    (g_ipc s) (g_macc s) (g_tasks s) a.

(** The calls of the handlers to the pool; the conversion [uint64(i)] of an
    int index is written at the calls. *)
Definition reserve (i : Z) (m : string) : gst st (string * error) := fun s =>
  let '(p, r) := ReserveIPIndex (orc (g_calls s) (g_pool s)) i m (g_pool s) in (set_pool p s, r).
Definition free_index (i : Z) : gst st error := fun s =>
  let '(p, r) := FreeIPIndex (orc (g_calls s) (g_pool s)) i (g_pool s) in (set_pool p s, r).
Definition alloc (m : string) : gst st (Z * string * error) := fun s =>
  let '(p, r) := GetFreeIPIndex (orc (g_calls s) (g_pool s)) m (g_pool s) in (set_pool p s, r).
Definition mac_at (i : Z) : gst st (Z * string * error) := fun s =>
  (s, GetMACIndex (orc (g_calls s) (g_pool s)) i (g_pool s)).
Definition remaining : gst st Z := fun s =>
  (s, FreeIPsRemaining (orc (g_calls s) (g_pool s)) (g_pool s)).

Definition hw_get (m : string) : gst st (option Z) := gst_get (fun s => cache_get m (g_hw s)).
Definition hw_set (m : string) (i d : Z) : gst st unit :=
  gst_do (fun s => set_hw (cache_set m i d (g_hw s)) s).

(** [go func() {...}()] with a sleep of [d] seconds before FreeIPIndex. *)
Definition spawn_free (d i : Z) : gst st unit := gst_do (fun s => set_tasks (g_tasks s ++ [(d, i)]) s).

(** [hwcache.Delete]: a present entry is removed and the eviction callback of
    the scope starts a goroutine that frees its index. *)
Definition hw_delete (m : string) : gst st unit := fun s =>
  match cache_get m (g_hw s) with
  | None => (set_hw (cache_delete m (g_hw s)) s, Ret tt)
  | Some i => spawn_free 0 i (set_hw (cache_delete m (g_hw s)) s)
  end.

(** Running a goroutine that was started. *)
Definition run_task (i : Z) : gst st unit := (free_index (u64 i) ;;; gst_ret tt)%go.

(** *** Start of a scope: reserved, assigned and known leases *)

Section Start.
Context (ip6 : string -> ip) (start : ip).

Fixpoint exclude_loop (l : list ip) : gst st unit :=
  match l with
  | [] => gst_ret tt
  | x :: l' =>
      if decide (x <> []) then
        (pos <-- gst_lift (position_of x start) ;; reserve (u64 pos) FakeMac ;;; exclude_loop l')%go
      else exclude_loop l'
  end.

(** ExcludeIP on the addresses that IPsFromRange returned. *)
Definition ExcludeIP (excludeIPs : list ip) : gst st (list ip) :=
  (exclude_loop excludeIPs ;;; gst_ret excludeIPs)%go.

Fixpoint assign_loop (l : list string) (couple : gmap string Z) (iplist : list ip) :
  gst st (gmap string Z * list ip) :=
  match l with
  | [] => gst_ret (couple, iplist)
  | rangeip :: l' =>
      match re_find assign_re rangeip with
      | None => gst_lift (Panic index_panic)
      | Some result =>
          let mac := default EmptyString (result !! 1%nat) in
          let addr := ParseIP ip6 (default EmptyString (result !! 2%nat)) in
          (pos <-- gst_lift (position_of addr start) ;;
           reserve (u64 pos) mac ;;;
           assign_loop l' (<[mac := pos]> couple) (iplist ++ [addr]))%go
      end
  end.

Definition AssignIP (ipRange : string) : gst st (gmap string Z * list ip) :=
  if decide (ipRange <> EmptyString) then assign_loop (Split ipRange ",") ∅ []
  else gst_ret (∅, []).

(** A row of ip4log: address, MAC and end time, [None] for the zero time; a
    row that cannot be scanned is [None]. *)
Abbreviation row := (option (string * string * option Z)).

(** The loop over the rows; [found] is declared outside of it. *)
Fixpoint lease_loop (leaseDuration now : Z) (taken : list ip) (found : bool) (rows : list row) :
  gst st unit :=
  match rows with
  | [] => gst_ret tt
  | None :: _ => gst_ret tt
  | Some (ipstr, mac, endTime) :: rows' =>
      let x := ParseIP ip6 ipstr in
      let found := found || existsb (IPEqual x) taken in
      if negb found then
        let d := match endTime with None => leaseDuration | Some e => e - now end in
        (pos <-- gst_lift (position_of x start) ;;
         reserve (u64 pos) mac ;;;
         hw_set mac pos d ;;;
         gst_do (fun s => set_global (cache_set ipstr mac d (g_ipc s))
                                     (cache_set mac ipstr d (g_macc s)) s) ;;;
         lease_loop leaseDuration now taken found rows')%go
      else lease_loop leaseDuration now taken found rows'
  end.

(** initiaLease, given the addresses of the reserved range and the rows of the
    database ([None]: the query failed).  Returns the assigned map. *)
Definition initiaLease (leaseRange leaseDuration now : Z) (reserved : list ip)
  (ipAssigned : string) (rows : option (list row)) : gst st (option (gmap string Z)) :=
  (e <-- gst_lift (Uint32 (To4 start)) ;;
   match rows with
   | None => gst_ret None
   | Some rows =>
       (excludeIP <-- ExcludeIP reserved ;;
        ar <-- AssignIP ipAssigned ;;
        lease_loop leaseDuration now (excludeIP ++ ar.2) false rows ;;;
        gst_ret (Some ar.1))%go
   end)%go.

End Start.
End State.

(** ** Lemmas *)

Lemma swap_permutation l i j : swap l i j ≡ₚ l.
Proof.
  unfold swap. destruct (l !! i) as [a|] eqn:Hi; [|done]. destruct (l !! j) as [b|] eqn:Hj; [|done].
  by apply Permutation_insert_swap.
Qed.

Lemma shuffle_permutation intn k i l : shuffle_loop intn k i l ≡ₚ l.
Proof.
  revert k l. induction i as [|i IH]; intros k l; [done|]. cbn [shuffle_loop].
  by rewrite IH, swap_permutation.
Qed.

Lemma quads_spec a :
  (exists l, quads a = Ret l /\ concat l = a /\ Forall (fun x => length x = 4%nat) l) \/
  (quads a = Panic index_panic /\ (length a `mod` 4 <> 0)%nat).
Proof.
  remember (length a) as n eqn:Hn. revert a Hn. induction (lt_wf n) as [n _ IH]. intros a Hn.
  destruct a as [|b0 [|b1 [|b2 [|b3 a]]]]; subst n; cbn [quads length].
  - left. exists []. done.
  - right. done.
  - right. done.
  - right. done.
  - destruct (IH (length a) ltac:(simpl; lia) a eq_refl) as [(l & -> & Hc & Hl)|[-> Hm]].
    + left. eexists. split; [done|]. rewrite To4_IPv4. cbn [concat app]. rewrite Hc.
      split; [done|]. by constructor.
    + right. split; [done|]. change (S (S (S (S (length a))))) with (4 + length a)%nat.
      pose proof (Nat.Div0.mod_add (length a) 1 4) as Ha.
      replace (4 + length a)%nat with (length a + 1 * 4)%nat by lia. by rewrite Ha.
Qed.

(** *** Ranges *)

(** The 16-byte form of an IPv4 address given as a number. *)
Definition v4 (v : Z) : ip := v4InV6Prefix ++ PutUint32 v.

Definition plain (c : Ascii.ascii) (a : Z) : bool := no_char c (Itoa a).

Lemma fields_plain : forallb (fun a => plain "-" a && plain "," a) (seqZ 0 256) = true.
Proof. vm_compute. reflexivity. Qed.

Lemma dotted_plain c l :
  (c = "-" \/ c = ",")%char -> Forall is_byte l -> no_char c (dotted l) = true.
Proof.
  intros Hc Hl. unfold dotted.
  assert (Hd : no_char c "." = true) by (by destruct Hc as [->| ->]).
  induction Hl as [|a l Ha Hl IH]; [done|]. cbn [fmap list_fmap StrJoin].
  pose proof fields_plain as Hf. rewrite forallb_forall in Hf.
  assert (Hin : In a (seqZ 0 256)) by (apply list_elem_of_In, elem_of_seqZ; unfold is_byte in *; lia).
  apply Hf, andb_true_iff in Hin as [H1 H2].
  assert (Hp : no_char c (Itoa a) = true) by (by destruct Hc as [->| ->]).
  destruct l as [|b l]; [done|]. cbn [fmap list_fmap]. rewrite !no_char_app, Hp, Hd. exact IH.
Qed.

Lemma PutUint32_bytes v : Forall is_byte (PutUint32 v).
Proof. unfold PutUint32, is_byte. repeat constructor; apply Z.mod_pos_bound; lia. Qed.

Lemma PutUint32_inj v v' :
  0 <= v < 2 ^ 32 -> 0 <= v' < 2 ^ 32 -> PutUint32 v = PutUint32 v' -> v = v'.
Proof.
  intros Hv Hv' H. pose proof (Uint32_PutUint32 v Hv) as E. rewrite H, Uint32_PutUint32 in E by done.
  congruence.
Qed.

Lemma v4_equal v v' :
  0 <= v < 2 ^ 32 -> 0 <= v' < 2 ^ 32 -> IPEqual (v4 v) (v4 v') = bool_decide (v = v').
Proof.
  intros Hv Hv'. unfold IPEqual. rewrite decide_True by done. apply bool_decide_ext.
  split; [|congruence]. intros H. unfold v4 in H. apply app_inv_head in H. by apply PutUint32_inj.
Qed.

Lemma ParseIP_v4 ip6 v : ParseIP ip6 (dotted (PutUint32 v)) = v4 v.
Proof.
  pose proof (PutUint32_bytes v) as Hb. unfold PutUint32 in *.
  apply Forall_cons in Hb as [? Hb]. apply Forall_cons in Hb as [? Hb].
  apply Forall_cons in Hb as [? Hb]. apply Forall_cons in Hb as [? _].
  rewrite ParseIP_dotted; done.
Qed.

Lemma IPString_v4 ip6s v : IPString ip6s (v4 v) = dotted (PutUint32 v).
Proof. done. Qed.

Lemma range_loop_exact ip6 ip6s inc n a :
  (forall v, 0 <= v < 2 ^ 32 - 1 -> inc (v4 v) = v4 (v + 1)) ->
  0 <= a -> a + Z.of_nat n < 2 ^ 32 ->
  range_loop ip6 ip6s inc (S n) (v4 a) (v4 (a + Z.of_nat n)) = Some (v4 <$> seqZ a (Z.of_nat n + 1)).
Proof.
  intros Hinc. revert a. induction n as [|n IH]; intros a Ha Hb.
  - replace (a + Z.of_nat 0) with a by lia. cbn [range_loop].
    rewrite v4_equal, bool_decide_true, IPString_v4, ParseIP_v4 by lia.
    rewrite seqZ_cons by lia. done.
  - remember (S n) as n1 eqn:En. cbn [range_loop].
    rewrite v4_equal, bool_decide_false, IPString_v4, ParseIP_v4, Hinc by lia. subst n1.
    replace (a + Z.of_nat (S n)) with (a + 1 + Z.of_nat n) by lia.
    rewrite IH, (seqZ_cons a) by lia.
    replace (Z.pred (Z.of_nat (S n) + 1)) with (Z.of_nat n + 1) by lia. done.
Qed.

(** ** Theorems *)

(** Shuffling the DNS servers or routers of an option permutes whole
    addresses: the bytes come back cut in the same 4-byte addresses in another
    order; an option whose length is not a multiple of four panics. *)
Theorem ShuffleIP_permutes rnd nanos a seed :
  (exists l l', concat l = a /\ Forall (fun x => length x = 4%nat) l /\ l' ≡ₚ l /\
     ShuffleIP rnd nanos a seed = Ret (concat l')) \/
  (ShuffleIP rnd nanos a seed = Panic index_panic /\ (length a `mod` 4 <> 0)%nat).
Proof.
  unfold ShuffleIP. destruct (quads_spec a) as [(l & -> & Hc & Hl)|[-> Hm]]; [left|by right].
  exists l. eexists. split; [done|]. split; [done|]. split; [|done]. apply shuffle_permutation.
Qed.

(** A range "first-last" of dotted addresses denotes exactly the addresses
    from the first to the last, each once and in order, when the increment of
    an address is its successor. *)
Theorem IPsFromRange_exact ip6 ip6s inc a n :
  (forall v, 0 <= v < 2 ^ 32 - 1 -> inc (v4 v) = v4 (v + 1)) ->
  0 <= a -> a + Z.of_nat n < 2 ^ 32 ->
  IPsFromRange ip6 ip6s inc (S n)
    (dotted (PutUint32 a) +:+ String "-" (dotted (PutUint32 (a + Z.of_nat n)))) =
  Some (v4 <$> seqZ a (Z.of_nat n + 1)).
Proof.
  intros Hinc Ha Hb. unfold IPsFromRange.
  assert (Hp : forall c v, (c = "-" \/ c = ",")%char -> no_char c (dotted (PutUint32 v)) = true).
  { intros. apply dotted_plain; [done|apply PutUint32_bytes]. }
  rewrite Split_plain; last first.
  { rewrite no_char_app, Hp by auto. cbn [no_char]. by rewrite Hp by auto. }
  cbn [range_items]. unfold range_item. rewrite Split_app, Split_plain by auto.
  rewrite !ParseIP_v4, range_loop_exact by done. by rewrite app_nil_r.
Qed.

(** An increment for the example: the successor of a 16-byte IPv4 address. *)
Definition demo_inc (x : ip) : ip :=
  match Uint32 (To4 x) with Ret v => v4 (v + 1) | Panic _ => x end.

Lemma IPsFromRange_exact_witness :
  IPsFromRange (fun _ => []) (fun _ => EmptyString) demo_inc 3 "10.0.0.254-10.0.1.0" =
  Some (v4 <$> seqZ 167772414 3).
Proof.
  apply (IPsFromRange_exact (fun _ => []) (fun _ => EmptyString) demo_inc 167772414 2).
  - intros v Hv. unfold demo_inc. change (To4 (v4 v)) with (PutUint32 v).
    rewrite Uint32_PutUint32 by lia. reflexivity.
  - lia.
  - lia.
Defined.

(** The reload of the leases stops at the first reserved address: once a
    row of ip4log holds a reserved or statically assigned address, no later row
    is restored, whatever addresses those rows hold. *)
Theorem initiaLease_stops_at_reserved {C : Type -> Type} {S O : Type} `{CacheOps C} `{PoolOps S O}
  (orc : nat -> S -> O) ip6 start leaseDuration now taken pre ipstr m e post (s : scope C S) :
  Forall is_Some pre -> existsb (IPEqual (ParseIP ip6 ipstr)) taken = true ->
  lease_loop orc ip6 start leaseDuration now taken false (pre ++ Some (ipstr, m, e) :: post) s =
  lease_loop orc ip6 start leaseDuration now taken false pre s.
Proof.
  intros Hpre Hx.
  assert (Hskip : forall rows (t : scope C S),
    lease_loop orc ip6 start leaseDuration now taken true rows t = (t, Ret tt)).
  { induction rows as [|[[[i m'] e']|] rows IH]; intros t; cbn [lease_loop orb negb]; done. }
  revert s. generalize false as found.
  induction Hpre as [|[[[i m'] e']|] pre Hr _ IH]; intros found s; cbn [app lease_loop].
  - rewrite Hx, orb_true_r. cbn [negb]. apply Hskip.
  - destruct (negb _); [|apply IH]. unfold gst_bind. by repeat case_match.
  - by destruct Hr.
Qed.

Definition demo_start : scope (fun V => gmap string V) DHCPPool :=
  mkScope (NewDHCPPool id 8 Random) 0 ∅ ∅ ∅ ∅ ∅ ∅ ∅ [] no_answer.

Lemma initiaLease_stops_at_reserved_witness :
  lease_loop (fun _ d => canonical_oracle 0 0 d) (fun _ => []) [10; 0; 0; 10] 0 0 [v4 167772171] false
    [Some ("10.0.0.11", "02:00:00:00:00:01", None); Some ("10.0.0.12", "02:00:00:00:00:02", None)]%string
    demo_start = (demo_start, Ret tt).
Proof.
  apply (initiaLease_stops_at_reserved (fun _ d => canonical_oracle 0 0 d) (fun _ => [])
    [10; 0; 0; 10] 0 0 [v4 167772171] [] "10.0.0.11" "02:00:00:00:00:01" None
    [Some ("10.0.0.12", "02:00:00:00:00:02", None)]%string demo_start).
  - constructor.
  - vm_compute. reflexivity.
Defined.
