(* ===== verification/PfDhcp.v ===== *)
(** The DHCP server: the choice of the scope and the handling of one packet
    (ServeDHCP of src/go/cmd/pfdhcp/main.go), over any pool backend that
    satisfies [PoolLaws] and any cache that satisfies [CacheLaws].

    A handler runs against one [scope] state.  The goroutines it starts are
    queued in [g_tasks]; [step] lets them, the handlers and the expiry of cache
    entries follow each other in any order.  What third-party packages
    compute (packet access, IPAdd and IPRange of dhcp4, the ping and the ARP
    table, pffilter, the JSON of the option store) are arguments. *)
From S2P Require Import Prelude NetIP PoolInterface DhcpWire PfDhcpUtils.
From Stdlib Require Import ZArith Lia Ascii.
From stdpp Require Import base gmap strings list.

Open Scope Z_scope.

(** Option codes of dhcp4 used by the server. *)
Definition OptionRouter : Z := 3.
Definition OptionDomainNameServer : Z := 6.
Definition OptionHostName : Z := 12.
Definition OptionRequestedIPAddress : Z := 50.
Definition OptionIPAddressLeaseTime : Z := 51.
Definition OptionServerIdentifier : Z := 54.
Definition OptionParameterRequestList : Z := 55.

Definition second : Z := 1000000000.

(** The parts of a packet that the handler reads. *)
Record Packet := mkPacket {
  p_options : gmap Z bytes; CHAddr : bytes; CIAddr : ip; GIAddr : ip; XId : bytes
}.

(** DHCPHandler, the fields that do not change while packets are served. *)
Record DHCPHandler := mkHandler {
  h_ip : ip; h_start : ip; h_options : gmap Z bytes; h_leaseRange : Z;
  h_leaseDuration : Z; h_ipAssigned : gmap string Z; h_layer2 : bool; h_role : string
}.

(** Network. *)
Record Network := mkNetwork { n_network : IPNet; n_splittednet : bool; n_dhcpHandler : DHCPHandler }.

(** An entry of the option store, as encoding/json decodes it. *)
Record Options := mkOptions { o_Option : Z; o_Value : string; o_Type : string }.

(** What is outside of the sources. *)
Record world := mkWorld {
  w_ip6 : string -> ip;
  w_ip6s : ip -> string;
  w_rnd : Z -> nat -> Z -> Z;
  w_nanos : Z;
  IPAdd : ip -> Z -> ip;
  IPRange : ip -> ip -> Z;
  SelectOrderOrAll : gmap Z bytes -> option bytes -> list (Z * bytes);
  optionString : Z -> string;
  msgString : MessageType -> string;
  ByteToString : bytes -> string;
  (** the option store and its JSON; [None]: not decodable *)
  w_store : string -> option (list Options);
  (** the pffilter service: the [k]-th call; [None]: an error *)
  FilterDhcp : nat -> string -> string -> gmap string string -> option jv;
  (** the [k]-th probe of an address: ARP table and ping *)
  arpSearch : nat -> ip -> string;
  Ping : nat -> ip -> bool;
  w_node : string -> option (list (string * string * string));
  (** the iteration order of an option map *)
  w_iter : gmap Z bytes -> list (Z * bytes)
}.

Section Options.
Context (w : world).

Definition decode_step (m : gmap Z bytes) (o : Options) : gmap Z bytes :=
  if decide (o_Type o = "ipaddr"%string) then <[o_Option o := To4 (ParseIP (w_ip6 w) (o_Value o))]> m
  else if decide (o_Type o = "string"%string) then <[o_Option o := bytes_of_string (o_Value o)]> m
  else if decide (o_Type o = "int"%string) then <[o_Option o := bytes_of_string (o_Value o)]> m
  else m.

(** decodeOptions. *)
Definition decodeOptions (b : string) : option (gmap Z bytes) :=
  match w_store w b with
  | None => None
  | Some options => Some (fold_left decode_step options ∅)
  end.

Definition device_step (acc : Z * gmap Z bytes) (kv : Z * bytes) : Z * gmap Z bytes :=
  let '(leaseDuration, G) := acc in
  let '(key, value) := kv in
  if decide (key = OptionIPAddressLeaseTime) then
    (i64 (i64 (Atoi (string_of_bytes value)).1 * second), G)
  else (leaseDuration, <[key := value]> G).

(** AddDevicesOptions, and the same loop inlined in the DHCPDISCOVER case. *)
Definition AddDevicesOptions (object : string) (acc : Z * gmap Z bytes) : Z * gmap Z bytes :=
  match decodeOptions object with
  | None => acc
  | Some x => fold_left device_step (w_iter w x) acc
  end.

(** AddPffilterDevicesOptions; [true] is the error "Rejected from pffilter". *)
Fixpoint pffilter_loop (m : list (string * jv)) (G : gmap Z bytes) : go (bool * gmap Z bytes) :=
  match m with
  | [] => Ret (false, G)
  | (key, value) :: m' =>
      if decide (key = "reject"%string) then Ret (true, G)
      else if decide (key = "continue"%string) then pffilter_loop m' G
      else match value with
           | JStr s =>
               let opcode := u8 (Atoi key).1 in
               match tlv_lookup opcode with
               | None => Panic "invalid memory address or nil pointer dereference"
               | Some t => (b <-! tlv_Encode (w_ip6 w) t s ;; pffilter_loop m' (<[opcode := b]> G))%go
               end
           | _ => pffilter_loop m' G
           end
  end.

Definition AddPffilterDevicesOptions (info : jv) (G : gmap Z bytes) : go (bool * gmap Z bytes) :=
  match info with
  | JMap m => pffilter_loop m G
  | _ => Panic type_panic
  end.

(** The options of the scope with the DNS servers and the routers shuffled. *)
Fixpoint scope_options (mac : bytes) (l : list (Z * bytes)) (options : gmap Z bytes) :
  go (gmap Z bytes) :=
  match l with
  | [] => Ret options
  | (key, value) :: l' =>
      if decide (key = OptionDomainNameServer \/ key = OptionRouter) then
        match mac !! 5%nat with
        | None => Panic index_panic
        | Some seed =>
            (v <-! ShuffleIP (w_rnd w) (w_nanos w) value seed ;;
             scope_options mac l' (<[key := v]> options))%go
        end
      else scope_options mac l' (<[key := value]> options)
  end.

(** The textual client options that are sent to pffilter. *)
Definition lower_first (s : string) : go string :=
  match s with
  | EmptyString => Panic index_panic
  | String c s' =>
      Ret (String (Ascii.ascii_of_nat (Nat.lor (Ascii.nat_of_ascii c) 32)) s')
  end.

Fixpoint client_options (l : list (Z * bytes)) (m : gmap string string) : go (gmap string string) :=
  match l with
  | [] => Ret m
  | (option, value) :: l' =>
      (key <-! lower_first (optionString w option) ;;
       match tlv_lookup option with
       | None => client_options l' m
       | Some t => (v <-! tlv_String (w_ip6s w) t value ;; client_options l' (<[key := v]> m))%go
       end)%go
  end.

(** ** The choice of the scope *)

Definition category_of (n : NodeInfo) : string :=
  if decide (ni_Category n = EmptyString \/ ni_Status n = "unreg"%string)
  then "registration" else ni_Category n.

(** The loop over I.network: the index of the scope, and the source address it
    sets.  [node] is the node already looked up by an earlier iteration. *)
Fixpoint select_scope (p : Packet) (node : option NodeInfo) (k : nat) (l : list Network) :
  go (option (nat * Network * bool)) :=
  match l with
  | [] => Ret None
  | v :: l' =>
      let h := n_dhcpHandler v in
      let inside := Contains (n_network v) in
      if h_layer2 h && (IPEqual (GIAddr p) IPv4zero || inside (CIAddr p)) then
        if n_splittednet v then
          (n <-! match node with
                 | Some n => Ret n
                 | None => NodeInformation (w_node w (macString (CHAddr p)))
                 end ;;
           if decide (h_role h = category_of n) then Ret (Some (k, v, true))
           else select_scope p (Some n) (S k) l')%go
        else if negb (IPEqual (CIAddr p) IPv4zero) && negb (inside (CIAddr p)) then
          select_scope p node (S k) l'
        else Ret (Some (k, v, false))
      else if IPEqual (GIAddr p) IPv4zero && inside (CIAddr p) then Ret (Some (k, v, false))
      else if (negb (IPEqual (GIAddr p) IPv4zero) && inside (GIAddr p)) || inside (CIAddr p) then
        Ret (Some (k, v, false))
      else select_scope p node (S k) l'
  end.

End Options.

(** ** The handling of a packet in a scope *)

(** What a round of the allocation of DHCPDISCOVER ends with. *)
Inductive attempt :=
  | OutOfFuel
  | GiveUp
  | Use (free : Z).

Section Serve.
Context {C : Type -> Type} {PS PO : Type} {K : CacheOps C} {P : PoolOps PS PO}.
Context (orc : nat -> PS -> PO) (w : world).
Context (h : DHCPHandler) (scopeIP ifIP srvIP : ip) (p : Packet).

Abbreviation st := (scope C PS).

Definition mac : string := macString (CHAddr p).
Definition server_id : ip := To4 (setOptionServerIdentifier srvIP (h_ip h)).

Definition set_reply (r : reply) : gst st unit :=
  gst_do (fun s => set_ans (mkAnswer (MAC (g_ans s)) (IP (g_ans s)) (SrcIP (g_ans s)) (Some r)) s).
Definition set_ip (x : ip) : gst st unit :=
  gst_do (fun s => set_ans (mkAnswer (MAC (g_ans s)) x (SrcIP (g_ans s)) (D (g_ans s))) s).
Definition set_src (x : ip) : gst st unit :=
  gst_do (fun s => set_ans (mkAnswer (MAC (g_ans s)) (IP (g_ans s)) x (D (g_ans s))) s).

Definition nak : reply := mkReply NAK server_id [] 0 [].

(** The test [Filter != "null"] of GetFromGlobalFilterCache. *)
Definition is_null (v : jv) : bool :=
  match v with JStr s => bool_decide (s = "null"%string) | _ => false end.

(** GetFromGlobalFilterCache. *)
Definition GetFromGlobalFilterCache (msgType : string) (m : string) (opts : gmap string string) :
  gst st jv := fun s =>
  let key := (m +:+ msgType)%string in
  let ask := match FilterDhcp w (g_calls s) msgType m opts with
             | None => (upd_filter (cache_set key (JStr "null") 0 (g_filter s)) s,
                        Ret (JMap [("continue", JStr "Not able to contact pffilter")]))
             | Some info => (upd_filter (cache_set key info 0 (g_filter s)) s, Ret info)
             end in
  match cache_get key (g_filter s) with
  | Some info => if is_null info then ask else (s, Ret info)
  | None => ask
  end.

(** The label [reply] of DHCPDISCOVER. *)
Definition discover_reply (opts : gmap string string) (free : Z) : gst st unit :=
  (set_ip (IPAdd w (h_start h) free) ;;;
   set_src ifIP ;;;
   options <-- gst_lift (scope_options w (CHAddr p) (w_iter w (h_options h)) ∅) ;;
   let '(lease, G) :=
     AddDevicesOptions w (IPString (w_ip6s w) scopeIP) (h_leaseDuration h, options) in
   info <-- GetFromGlobalFilterCache (msgString w Discover) mac opts ;;
   rg <-- gst_lift (AddPffilterDevicesOptions w info G) ;;
   if rg.1 : bool then set_reply nak
   else
     let lease := if decide (is_Some (rg.2 !! OptionIPAddressLeaseTime)) then 0 else lease in
     let '(lease, G) := AddDevicesOptions w mac (lease, rg.2) in
     set_reply (mkReply Offer server_id (IPAdd w (h_start h) free) lease
                  (SelectOrderOrAll w G (G !! OptionParameterRequestList))))%go.

(** The test of the address the device asks for: [None] is [goto retry]. *)
Definition try_requested (free : Z) (b : bytes) : gst st (option Z) :=
  (a <-- gst_lift (Uint32 b) ;;
   s0 <-- gst_lift (Uint32 (To4 (h_start h))) ;;
   let element := u32 (a - s0) in
   r <-- mac_at orc element ;;
   let '(_, returnedMac, err) := r in
   if decide (err = None /\ returnedMac = mac) then gst_ret (Some element)
   else if decide (err = None /\ returnedMac = FreeMac) then
     (r <-- reserve orc element mac ;;
      let '(returnedMac, err) := r in
      if decide (err <> None) then gst_ret None
      else if decide (returnedMac = mac) then gst_ret (Some element)
      else gst_ret (Some free))%go
   else gst_ret None)%go.

(** An address that answers, or that another MAC holds in the ARP table. *)
Definition in_use (k : nat) (free : Z) : bool :=
  let x := IPAdd w (h_start h) free in
  let inarp := h_layer2 h &&
    bool_decide (arpSearch w k x <> EmptyString /\ arpSearch w k x <> FreeMac /\
                 mac <> arpSearch w k x) in
  Ping w k x || inarp.

(** After the index is chosen: lock it, probe it. *)
Definition lock_index (free : Z) : gst st unit :=
  (hw_set mac free (5 * second) ;;;
   gst_do (fun s => set_xid (cache_set (ByteToString w (XId p)) 0 (5 * second) (g_xid s)) s))%go.

Definition confirm_index (free : Z) : gst st unit :=
  (hw_set mac free (5 * second) ;;;
   gst_do (fun s => match cache_replace (ByteToString w (XId p)) 1 (5 * second) (g_xid s) with
                    | Some x => set_xid x s
                    | None => s
                    end))%go.

(** The branch of an address that is in use. *)
Definition declare_unusable (free : Z) : gst st unit :=
  (hw_delete mac ;;; reserve orc (u64 free) FakeMac ;;; spawn_free 600 free)%go.

(** The label [retry]; the source loops without bound, [fuel] bounds the
    rounds. *)
Fixpoint retry (fuel : nat) (firstTry : bool) (free : Z) : gst st attempt :=
  match fuel with
  | O => gst_ret OutOfFuel
  | S fuel' =>
      (n <-- remaining orc ;;
       if decide (n > 0) then
         (c <-- match p_options p !! OptionRequestedIPAddress, firstTry with
                | Some b, true => try_requested free b
                | _, _ => gst_ret (Some free)
                end ;;
          match c with
          | None => retry fuel' false free
          | Some free =>
              (f <-- (if decide (free = -1) then
                        (r <-- alloc orc mac ;;
                         let '(freeu64, _, err) := r in
                         gst_ret (if decide (err <> None) then None else Some (i64 freeu64)))%go
                      else gst_ret (Some free)) ;;
               match f with
               | None => gst_ret GiveUp
               | Some free =>
                   (lock_index free ;;;
                    k <-- gst_get g_calls ;;
                    if in_use k free then
                      (declare_unusable free ;;; retry fuel' false 0)%go
                    else (confirm_index free ;;; gst_ret (Use free))%go)%go
               end)%go
          end)%go
       else gst_ret GiveUp)%go
  end.

(** The search in hwcache: [None] is [goto retry]. *)
Definition cached_index (x : Z) : gst st (option attempt) :=
  let answer_with (free : Z) : gst st (option attempt) := fun s =>
    match cache_replace mac free (5 * second) (g_hw s) with
    | None => (s, Ret (Some GiveUp))
    | Some c => (set_hw c s, Ret (Some (Use free)))
    end in
  (r <-- mac_at orc (u64 x) ;;
   let '(_, returnedMac, _) := r in
   if decide (returnedMac = mac) then answer_with x
   else if decide (returnedMac = FreeMac) then
     (hw_delete mac ;;;
      r <-- reserve orc (u64 x) mac ;;
      let '(returnedMac, err) := r in
      if decide (err = None /\ returnedMac = mac) then answer_with x else gst_ret None)%go
   else gst_ret None)%go.

(** case dhcp.Discover; [false]: out of fuel. *)
Definition find_index (fuel : nat) : gst st attempt :=
  match h_ipAssigned h !! mac with
  | Some position => gst_ret (Use position)
  | None =>
      (x <-- hw_get mac ;;
       c <-- match x with Some x => cached_index x | None => gst_ret None end ;;
       match c with
       | Some a => gst_ret a
       | None => retry fuel true (-1)
       end)%go
  end.

Definition serve_discover (fuel : nat) (opts : gmap string string) : gst st bool :=
  (a <-- find_index fuel ;;
   match a with
   | OutOfFuel => gst_ret false
   | GiveUp => gst_ret true
   | Use free => (discover_reply opts free ;;; gst_ret true)%go
   end)%go.

(** *** DHCPREQUEST and DHCPINFORM *)

(** The address a message is about. *)
Definition reqIP : ip :=
  match p_options p !! OptionRequestedIPAddress with Some b => b | None => CIAddr p end.

(** Whether the message names another server. *)
Definition other_server : bool :=
  match p_options p !! OptionServerIdentifier with
  | Some [a; b; c; d] =>
      negb (IPEqual (IPv4 a b c d) server_id) && negb (IPEqual (IPv4 a b c d) (To4 (h_ip h)))
  | _ => false
  end.

Definition leaseNum : Z := IPRange w (h_start h) reqIP - 1.
Definition in_pool : bool := bool_decide (0 <= leaseNum < h_leaseRange h).

Inductive decision :=
  | Silent        (** [return Answer{}] *)
  | Processed     (** [return answer] *)
  | Refuse        (** [Reply] is false *)
  | Grant (index : Z).

(** The fields [Reply] and [Index] of the handler. *)
Definition request_decision (msgType : MessageType) : gst st decision :=
  if in_pool then
    match h_ipAssigned h !! mac with
    | Some position =>
        gst_ret (if decide (position = leaseNum) then Grant position else Refuse)
    | None =>
        (index <-- hw_get mac ;;
         match index with
         | None => gst_ret Silent
         | Some index =>
             if IPEqual (IPAdd w (h_start h) index) reqIP then
               let key := (mac +:+ " " +:+ msgString w msgType +:+ " xID " +:+ ByteToString w (XId p))%string in
               (t <-- gst_get (fun s => cache_get key (g_reqtrans s)) ;;
                match t with
                | Some _ => gst_ret Processed
                | None =>
                    (gst_do (fun s => set_reqtrans (cache_set key 1 second (g_reqtrans s)) s) ;;;
                     gst_ret (Grant index))%go
                end)%go
             else
               (x <-- gst_lift (Uint32 (XId p)) ;;
                t <-- gst_get (fun s => cache_get (Itoa x) (g_xid s)) ;;
                (if decide (t = Some 1) then hw_delete mac else gst_ret tt) ;;;
                gst_ret Refuse)%go
         end)%go
    end
  else gst_ret Refuse.

Definition cache_duration (lease : Z) : Z :=
  if decide (lease < 60 * second) then 120 * second else i64 (lease + 60 * second).

(** The block [if Reply]. *)
Definition request_grant (msgType : MessageType) (opts : gmap string string) (Index : Z) : gst st unit :=
  (options <-- gst_lift (scope_options w (CHAddr p) (w_iter w (h_options h)) ∅) ;;
   let '(lease, G) :=
     AddDevicesOptions w mac
       (AddDevicesOptions w (IPString (w_ip6s w) scopeIP) (h_leaseDuration h, options)) in
   info <-- GetFromGlobalFilterCache (msgString w msgType) mac opts ;;
   rg <-- gst_lift (AddPffilterDevicesOptions w info G) ;;
   let G := rg.2 in
   let lease := if decide (is_Some (G !! OptionIPAddressLeaseTime)) then 0 else lease in
   if rg.1 : bool then set_reply nak
   else
     (set_reply (mkReply ACK server_id reqIP lease
                   (SelectOrderOrAll w G (G !! OptionParameterRequestList))) ;;;
      let d := cache_duration lease in
      gst_do (fun s => set_global (cache_set (IPString (w_ip6s w) reqIP) mac d (g_ipc s))
                                  (cache_set mac (IPString (w_ip6s w) reqIP) d (g_macc s)) s) ;;;
      hw_set mac Index d ;;;
      reserve orc (u64 Index) mac ;;;
      gst_ret tt))%go.

(** case dhcp.Request, dhcp.Inform. *)
Definition serve_request (msgType : MessageType) (opts : gmap string string) : gst st unit :=
  if other_server then gst_do (set_ans no_answer)
  else
    (set_ip reqIP ;;;
     if decide (length reqIP = 4%nat /\ IPEqual reqIP IPv4zero = false) then
       (d <-- request_decision msgType ;;
        match d with
        | Silent => gst_do (set_ans no_answer)
        | Processed => gst_ret tt
        | Refuse => set_reply nak
        | Grant index => request_grant msgType opts index
        end)%go
     else set_reply nak)%go.

(** *** DHCPRELEASE and DHCPDECLINE *)

(** The address is taken from the client and kept unusable for 30 seconds. *)
Definition take_back : gst st unit :=
  (hw_delete mac ;;;
   free_index orc (u64 leaseNum) ;;;
   reserve orc (u64 leaseNum) FakeMac ;;;
   spawn_free 30 leaseNum)%go.

Definition give_back : gst st unit :=
  if in_pool && negb (bool_decide (h_ipAssigned h !! mac = Some leaseNum)) then
    (x <-- hw_get mac ;;
     match x with
     | Some x =>
         if decide (leaseNum = x) then
           (r <-- mac_at orc (u64 x) ;;
            let '(_, returnedMac, _) := r in
            if decide (returnedMac = mac) then take_back else gst_ret tt)%go
         else gst_ret tt
     | None => gst_ret tt
     end)%go
  else gst_ret tt.

Definition serve_release : gst st unit := give_back.
Definition serve_decline : gst st unit := give_back.

(** *** The body of ServeDHCP once the scope is known *)

Definition serve_type (fuel : nat) (msgType : MessageType) (opts : gmap string string) : gst st bool :=
  match msgType with
  | Discover => serve_discover fuel opts
  | Request | Inform => (serve_request msgType opts ;;; gst_ret true)%go
  | Release => (serve_release ;;; gst_ret true)%go
  | Decline => (serve_decline ;;; gst_ret true)%go
  | Offer | ACK | NAK => (set_reply nak ;;; gst_ret true)%go
  end.

Definition transaction_key (msgType : MessageType) : string :=
  (mac +:+ " " +:+ msgString w msgType)%string.

Definition serve (fuel : nat) (msgType : MessageType) : gst st bool :=
  (opts <-- gst_lift (client_options w (w_iter w (p_options p)) ∅) ;;
   let key := transaction_key msgType in
   t <-- gst_get (fun s => cache_get key (g_trans s)) ;;
   match t with
   | Some _ => gst_ret true
   | None =>
       (gst_do (fun s => set_trans (cache_set key 3 second (g_trans s)) s) ;;;
        serve_type fuel msgType opts)%go
   end)%go.

End Serve.

(** ** ServeDHCP *)

Section ServeDHCP.
Context {C : Type -> Type} {PS PO : Type} {K : CacheOps C} {P : PoolOps PS PO}.
Context (orc : nat -> PS -> PO) (w : world).

Abbreviation st := (scope C PS).

(** The caches that all scopes share. *)
Definition share (s t : st) : st :=
  upd_filter (g_filter s) (set_global (g_ipc s) (g_macc s)
    (set_reqtrans (g_reqtrans s) (set_trans (g_trans s) t))).

(** The interface [I]: its address, its networks with the state of their
    scopes, and whether it holds the VIP.  [recoverName] turns a panic of the
    handler into the answer built so far; [None] is a handler that loops
    beyond the fuel. *)
Definition ServeDHCP (fuel : nat) (ifIP : ip) (vip : bool) (p : Packet) (msgType : MessageType)
  (srvIP : ip) (nets : list Network) (scopes : list st) : go (option (Answer * list st)) :=
  let answer := mkAnswer (CHAddr p) [] ifIP None in
  (sel <-! select_scope w p None 0 nets ;;
   match sel with
   | None => Ret (Some (answer, scopes))
   | Some (k, v, role) =>
       let h := n_dhcpHandler v in
       let answer := if role : bool then mkAnswer (CHAddr p) [] (h_ip h) None else answer in
       if decide (h_ip h = []) then Ret (Some (answer, scopes))
       else match scopes !! k with
            | None => Panic index_panic
            | Some s =>
                if vip || Listen (g_pool s) then
                  match serve orc w h (net_IP (n_network v)) ifIP srvIP p fuel msgType
                          (set_ans answer s) with
                  | (s', Ret false) => Ret None
                  | (s', _) => Ret (Some (g_ans s', <[k := s']> (share s' <$> scopes)))
                  end
                else Ret (Some (answer, scopes))
            end
   end)%go.

(** *** Runs of the server

    What happens to the scopes: a packet of the client [m] is handled; a
    goroutine that waits to free index [i] of the scope [k] runs; the entry of
    [m] in hwcache expires, which starts such a goroutine; entries of the other
    caches expire. *)
Inductive event :=
  | Handled (m : string)
  | Freed (k : nat) (i : Z)
  | Expired (k : nat) (m : string)
  | Forgotten.

Definition forgets (s s' : st) : Prop :=
  g_pool s' = g_pool s /\ g_hw s' = g_hw s /\ g_tasks s' = g_tasks s.

End ServeDHCP.

Inductive step {C : Type -> Type} {PS PO : Type} {K : CacheOps C} {P : PoolOps PS PO}
    (orc : nat -> PS -> PO) : list (scope C PS) -> event -> list (scope C PS) -> Prop :=
  | step_packet w fuel ifIP vip p msgType srvIP nets scopes scopes' answer :
      ServeDHCP orc w fuel ifIP vip p msgType srvIP nets scopes = Ret (Some (answer, scopes')) ->
      step orc scopes (Handled (mac p)) scopes'
  | step_task scopes k s d i l1 l2 :
      scopes !! k = Some s -> g_tasks s = app l1 ((d, i) :: l2) ->
      step orc scopes (Freed k i) (<[k := (run_task orc i (set_tasks (app l1 l2) s)).1]> scopes)
  | step_expire scopes k s m :
      scopes !! k = Some s -> is_Some (cache_get m (g_hw s)) ->
      step orc scopes (Expired k m) (<[k := (hw_delete m s).1]> scopes)
  | step_forget scopes scopes' :
      Forall2 forgets scopes scopes' -> step orc scopes Forgotten scopes'.

Inductive run {C : Type -> Type} {PS PO : Type} {K : CacheOps C} {P : PoolOps PS PO}
    (orc : nat -> PS -> PO) : list (scope C PS) -> list event -> list (scope C PS) -> Prop :=
  | run_nil scopes : run orc scopes [] scopes
  | run_cons scopes e scopes1 es scopes2 :
      step orc scopes e scopes1 -> run orc scopes1 es scopes2 -> run orc scopes (e :: es) scopes2.

(** ** Lemmas *)

Section Safety.
Context {C : Type -> Type} {PS PO : Type} {K : CacheOps C} {P : PoolOps PS PO} {L : PoolLaws PS PO}.
Context (orc : nat -> PS -> PO).
(** The pool is run with oracles of its states. *)
Context (Horc : forall n s, pool_ok s -> oracle_ok (orc n s) s).
Context (m : string).

Abbreviation st := (scope C PS).

(** From [s] to [s'] the pool stays well formed and every lease of another
    client than [m] is still there. *)
Definition kept (s s' : st) : Prop :=
  pool_ok (g_pool s) ->
  pool_ok (g_pool s') /\ Capacity (g_pool s') = Capacity (g_pool s) /\
  forall i m', leases (g_pool s) !! i = Some m' -> m' <> m -> leases (g_pool s') !! i = Some m'.

Abbreviation safe := (pres kept).

Lemma kept_pool s s' : g_pool s' = g_pool s -> kept s s'.
Proof. intros H. unfold kept. by rewrite H. Qed.

Global Instance kept_preorder : PreOrder kept.
Proof.
  split; [intros s; by apply kept_pool|].
  intros s1 s2 s3 H12 H23 H1. destruct (H12 H1) as (H2 & Hc2 & Hl2).
  destruct (H23 H2) as (H3 & Hc3 & Hl3). split_and!; [done|congruence|eauto].
Qed.

Lemma safe_do (f : st -> st) : (forall s, g_pool (f s) = g_pool s) -> safe (gst_do f).
Proof. intros H. apply pres_do. intros s. by apply kept_pool. Qed.

Lemma safe_reserve i m' : 0 <= i -> safe (reserve orc i m').
Proof.
  intros Hi s Hok. unfold reserve. destruct (ReserveIPIndex _ _ _ _) as [p r] eqn:E. simpl.
  destruct (reserve_law _ _ _ _ _ _ Hok (Horc _ _ Hok) Hi E) as (? & ? & Hsub & _).
  split_and!; try done. intros j x Hj _. destruct Hsub as [->|Hs]; eauto using alloc_keeps.
Qed.

Lemma safe_alloc m' : safe (alloc orc m').
Proof.
  intros s Hok. unfold alloc. destruct (GetFreeIPIndex _ _ _) as [p r] eqn:E. simpl.
  destruct (alloc_law _ _ _ _ _ Hok (Horc _ _ Hok) E) as (? & ? & Hsub & _).
  split_and!; try done. intros j x Hj _. destruct Hsub as [->|[k Hs]]; eauto using alloc_keeps.
Qed.

Lemma safe_mac_at i : safe (mac_at orc i).
Proof. intros s. by apply kept_pool. Qed.

Lemma safe_remaining : safe (remaining orc).
Proof. intros s. by apply kept_pool. Qed.

Lemma safe_hw_delete x : safe (hw_delete x).
Proof. intros s. unfold hw_delete. destruct (cache_get x (g_hw s)); by apply kept_pool. Qed.

(** Freeing an index that the client itself holds. *)
Lemma kept_free i s :
  0 <= i -> leases (g_pool s) !! i = Some m -> kept s (free_index orc i s).1.
Proof.
  intros Hi Hm Hok. unfold free_index. destruct (FreeIPIndex _ _ _) as [p r] eqn:E. simpl.
  destruct (free_law _ _ _ _ _ Hok (Horc _ _ Hok) Hi E) as (? & ? & Hl & _).
  split_and!; try done. intros j x Hj Hne. destruct Hl as [->| ->]; [done|].
  rewrite lookup_delete_ne; [done|]. intros ->. congruence.
Qed.

Lemma u64_nonneg i : 0 <= u64 i.
Proof. apply (wrapU_range 64 i). lia. Qed.

Lemma u32_nonneg i : 0 <= u32 i.
Proof. apply (wrapU_range 32 i). lia. Qed.

End Safety.

#[export] Hint Resolve safe_do safe_reserve safe_alloc safe_mac_at
  safe_remaining safe_hw_delete u64_nonneg u32_nonneg : pres.

Section ServeSafety.
Context {C : Type -> Type} {PS PO : Type} {K : CacheOps C} {P : PoolOps PS PO} {L : PoolLaws PS PO}.
Context (orc : nat -> PS -> PO) (Horc : forall n s, pool_ok s -> oracle_ok (orc n s) s).
Context (w : world) (h : DHCPHandler) (scopeIP ifIP srvIP : ip) (p : Packet).
(** The client has a hardware address other than the one that marks free
    entries. *)
Context (Hmac : mac p <> FreeMac) (Hmac' : mac p <> EmptyString).

Abbreviation st := (scope C PS).
Abbreviation safe' := (pres (kept (C:=C) (mac p))).

Lemma safe_filter t x opts : safe' (GetFromGlobalFilterCache w t x opts).
Proof.
  intros s. unfold GetFromGlobalFilterCache.
  destruct (cache_get _ (g_filter s)); repeat case_match; by apply kept_pool.
Qed.
Hint Resolve safe_filter : pres.

Lemma safe_set_reply r : safe' (set_reply r).
Proof. by apply safe_do. Qed.
Hint Resolve safe_set_reply : pres.

Lemma safe_hw_set k i d : safe' (hw_set k i d).
Proof. by apply safe_do. Qed.
Hint Resolve safe_hw_set : pres.

Lemma safe_spawn d i : safe' (spawn_free d i).
Proof. by apply safe_do. Qed.
Hint Resolve safe_spawn : pres.

Lemma safe_discover_reply opts free : safe' (discover_reply w h scopeIP ifIP srvIP p opts free).
Proof. unfold discover_reply, set_ip, set_src. pres_walk. Qed.
Hint Resolve safe_discover_reply : pres.

Lemma safe_try_requested free b : safe' (try_requested orc h p free b).
Proof. unfold try_requested. pres_walk. Qed.
Hint Resolve safe_try_requested : pres.

Lemma safe_lock free : safe' (lock_index w p free).
Proof. unfold lock_index. pres_walk. Qed.
Hint Resolve safe_lock : pres.

Lemma safe_confirm free : safe' (confirm_index w p free).
Proof.
  unfold confirm_index. pres_walk. apply safe_do. intros s. by destruct (cache_replace _ _ _ _).
Qed.
Hint Resolve safe_confirm : pres.

Lemma safe_retry fuel firstTry free : safe' (retry orc w h p fuel firstTry free).
Proof.
  revert firstTry free. induction fuel as [|fuel IH]; intros firstTry free; cbn [retry];
    unfold declare_unusable; pres_walk.
Qed.
Hint Resolve safe_retry : pres.

Lemma safe_cached x : safe' (cached_index orc p x).
Proof.
  assert (Hr : forall f, safe' (fun s => match cache_replace (mac p) f (5 * second) (g_hw s) with
                               | None => (s, Ret (Some GiveUp))
                               | Some c => (set_hw c s, Ret (Some (Use f)))
                               end)).
  { intros f s. destruct (cache_replace _ _ _ _); by apply kept_pool. }
  unfold cached_index. pres_walk.
Qed.
Hint Resolve safe_cached : pres.

Lemma safe_discover fuel opts :
  safe' (serve_discover orc w h scopeIP ifIP srvIP p fuel opts).
Proof. unfold serve_discover, find_index, hw_get. pres_walk. Qed.

Lemma safe_request t opts : safe' (serve_request orc w h scopeIP srvIP p t opts).
Proof.
  unfold serve_request, set_ip, request_decision, request_grant, hw_get. pres_walk.
Qed.

(** The client holds the index that a release takes back. *)
Lemma kept_take_back s :
  leases (g_pool s) !! u64 (leaseNum w h p) = Some (mac p) ->
  kept (mac p) s (take_back orc w h p s).1.
Proof.
  intros Hl. unfold take_back, gst_bind at 1.
  pose proof (safe_hw_delete (C:=C) (mac p) (mac p) s) as Hd.
  assert (Hp : g_pool (hw_delete (mac p) s).1 = g_pool s).
  { unfold hw_delete. by destruct (cache_get _ _). }
  destruct (hw_delete (mac p) s) as [s1 [[]|]]; simpl in *; [|done].
  etrans; [exact Hd|]. unfold gst_bind at 1.
  pose proof (kept_free orc Horc (mac p) (u64 (leaseNum w h p)) s1 (u64_nonneg _)) as Hf.
  rewrite Hp in Hf. specialize (Hf Hl).
  destruct (free_index _ _ s1) as [s2 [r|]]; simpl in *; [|done].
  etrans; [exact Hf|].
  assert (Hs : safe' (gst_bind (reserve orc (u64 (leaseNum w h p)) FakeMac)
                        (fun _ => spawn_free 30 (leaseNum w h p)))) by pres_walk.
  apply Hs.
Qed.

Lemma safe_give_back : safe' (give_back orc w h p).
Proof.
  unfold give_back. destruct (_ && _); [|auto with pres]. apply pres_bind; [typeclasses eauto|by unfold hw_get; auto with pres|].
  intros [x|]; [|auto with pres]. destruct (decide _) as [<-|]; [|auto with pres].
  intros s Hok. unfold gst_bind, mac_at.
  destruct (GetMACIndex _ _ _) as [[[j returnedMac] e]|msg] eqn:E; [|by apply (kept_pool (mac p) s s)].
  destruct (decide (returnedMac = mac p)) as [->|]; [|by apply (kept_pool (mac p) s s)].
  apply kept_take_back; [|exact Hok].
  eapply get_mac_law; eauto with pres.
Qed.

Hint Resolve safe_discover safe_request safe_give_back : pres.

(** No message of a client takes the lease of another one. *)
Lemma safe_serve fuel msgType : safe' (serve orc w h scopeIP ifIP srvIP p fuel msgType).
Proof.
  unfold serve. apply pres_bind; [typeclasses eauto|auto with pres|]. intros opts. cbn zeta.
  apply pres_bind; [typeclasses eauto|auto with pres|]. intros []; [auto with pres|].
  apply pres_bind; [typeclasses eauto|by apply safe_do|]. intros _. destruct msgType; cbn [serve_type];
    unfold serve_release, serve_decline; pres_walk.
Qed.

End ServeSafety.
