(* ===== verification/DhcpServer.v ===== *)
(** Theorems about the DHCP server model of PfDhcp.v: what a client is offered
    and granted, what a packet can change, and where the allocation loop of
    DHCPDISCOVER ends. *)
From S2P Require Import Prelude NetIP PoolInterface DhcpPool DhcpWire PfDhcpUtils PfDhcp.
From Stdlib Require Import ZArith Lia Ascii.
From stdpp Require Import base gmap strings list.

Open Scope Z_scope.

(** ** Lemmas *)

Section Lemmas.
Context {C : Type -> Type} {PS PO : Type} {K : CacheOps C} {KL : CacheLaws C}
  {P : PoolOps PS PO} {L : PoolLaws PS PO}.
Context (orc : nat -> PS -> PO) (Horc : forall n s, pool_ok s -> oracle_ok (orc n s) s).
(** The transactions of the backend are committed; only lemmas on what is leased
    after an allocation need it. *)
Context (Hcom : forall n s, commits (orc n s)).
Context (w : world) (h : DHCPHandler) (scopeIP ifIP srvIP : ip) (p : Packet).
Context (Hmac : mac p <> FreeMac) (Hmac' : mac p <> EmptyString).

Abbreviation st := (scope C PS).

(** The pool and hwcache are not touched. *)
Definition frame (s s' : st) : Prop := g_pool s' = g_pool s /\ g_hw s' = g_hw s.

Global Instance frame_preorder : PreOrder frame.
Proof. split; [done|]. intros ??? [] []. split; congruence. Qed.

Lemma frame_filter t x opts : pres frame (GetFromGlobalFilterCache (C:=C) (PS:=PS) w t x opts).
Proof.
  intros s. unfold GetFromGlobalFilterCache.
  destruct (cache_get _ (g_filter s)); repeat case_match; done.
Qed.

(** What the label [reply] builds. *)
Definition offers (a : Answer) (free : Z) : Prop :=
  IP a = IPAdd w (h_start h) free /\
  exists r, D a = Some r /\
    (r = nak h srvIP \/
     (r_type r = Offer /\ r_ip r = IPAdd w (h_start h) free /\ r_server r = server_id h srvIP)).

Lemma discover_reply_inv opts free (s s' : st) :
  discover_reply w h scopeIP ifIP srvIP p opts free s = (s', Ret tt) ->
  frame s s' /\ offers (g_ans s') free.
Proof.
  unfold discover_reply. intros H. unfold set_ip, set_src in H.
  inv_bind H s1 a1 H1. inv_bind H s2 a2 H2. inv_bind H s3 a3 H3.
  destruct (AddDevicesOptions w (IPString _ _) _) as [lease G].
  inv_bind H s4 info H4. inv_bind H s5 rg H5.
  unfold gst_do, gst_lift in H1, H2, H3, H5. simplify_eq.
  pose proof (frame_filter (msgString w Discover) (mac p) opts) as Hf.
  match type of H4 with _ ?s0 = _ => specialize (Hf s0) end. rewrite H4 in Hf. simpl in Hf.
  assert (Ha : g_ans s5 = mkAnswer (MAC (g_ans s)) (IPAdd w (h_start h) free) ifIP (D (g_ans s))).
  { unfold GetFromGlobalFilterCache in H4.
    destruct (cache_get _ _); repeat case_match; by simplify_eq. }
  destruct Hf as [Hp Hh]. simpl in Hp, Hh.
  assert (Hs : exists r, (s', Ret tt) = set_reply r s5 /\
    (r = nak h srvIP \/ (r_type r = Offer /\ r_ip r = IPAdd w (h_start h) free /\
       r_server r = server_id h srvIP))).
  { destruct rg.1; [by eexists; eauto|].
    destruct (AddDevicesOptions w (mac p) _) as [lease' G']. eexists; split; [done|]. right. done. }
  destruct Hs as (r & Hs & Hr). unfold set_reply, gst_do in Hs. simplify_eq. rewrite Ha. split.
  - done.
  - split; [done|]. by exists r.
Qed.

(** *** The allocation loop *)

Lemma i64_index i s : pool_ok s -> Capacity s <= 2 ^ 63 -> in_range (Capacity s) i -> i64 i = i.
Proof.
  intros _ Hc [H0 H1]. unfold wrapS. change (2 ^ (64 - 1)) with (2 ^ 63) in *.
  rewrite Z.mod_small; lia.
Qed.

Lemma try_requested_spec free b (s s' : st) e :
  pool_ok (g_pool s) -> try_requested orc h p free b s = (s', Ret (Some e)) ->
  leases (g_pool s') !! e = Some (mac p) /\ g_hw s' = g_hw s.
Proof.
  intros Hok H. unfold try_requested in H. inv_bind H s1 a H1. inv_bind H s2 b2 H2.
  unfold gst_lift in *. simplify_eq. cbn zeta in H. inv_bind H s3 r H3.
  unfold mac_at in H3. simplify_eq. destruct r as [[j rm] err].
  destruct (decide _) as [[-> ->]|].
  { unfold gst_ret in H. simplify_eq. split; [|done]. eapply get_mac_law; eauto with pres. }
  destruct (decide _) as [[-> ->]|]; [|done].
  inv_bind H s4 r H4. destruct r as [rm err]. unfold reserve in H4.
  destruct (ReserveIPIndex _ _ _ _) as [q r] eqn:E. simplify_eq.
  destruct (reserve_law _ _ _ _ _ _ Hok (Horc _ _ Hok) (u32_nonneg _) E) as (_ & _ & _ & Hr & _).
  destruct (decide (err <> None)) as [|He]; [done|]. apply dec_stable in He. subst err.
  destruct (Hr _ eq_refl) as (-> & _ & _ & Hl). rewrite decide_True in H by done.
  unfold gst_ret in H. simplify_eq. simpl. rewrite Hl. split; [by rewrite lookup_insert_eq|done].
Qed.

Lemma alloc_range (s s' : st) i m' :
  pool_ok (g_pool s) -> alloc orc (mac p) s = (s', Ret (i, m', None)) -> in_range (Capacity (g_pool s)) i.
Proof.
  intros Hok H. unfold alloc in H. destruct (GetFreeIPIndex _ _ _) as [q r] eqn:E. simplify_eq.
  destruct (alloc_law _ _ _ _ _ Hok (Horc _ _ Hok) E) as (_ & _ & _ & Hr & _).
  by destruct (Hr _ _ eq_refl) as (_ & ? & _).
Qed.

Lemma alloc_spec (s s' : st) i m' :
  pool_ok (g_pool s) -> alloc orc (mac p) s = (s', Ret (i, m', None)) ->
  leases (g_pool s') !! i = Some (mac p).
Proof.
  intros Hok H. unfold alloc in H. destruct (GetFreeIPIndex _ _ _) as [q r] eqn:E. simplify_eq.
  destruct (alloc_law _ _ _ _ _ Hok (Horc _ _ Hok) E) as (_ & _ & _ & Hr & _).
  destruct (Hr _ _ eq_refl) as (-> & ? & _ & Hs). destruct (Hs (Hcom _ _)) as (_ & _ & Hl).
  simpl. rewrite Hl. by rewrite lookup_insert_eq.
Qed.

Lemma lock_pool free (s s' : st) a : lock_index w p free s = (s', a) -> g_pool s' = g_pool s.
Proof. intros H. unfold lock_index, gst_bind, hw_set, gst_do in H. by simplify_eq. Qed.

Lemma confirm_inv free (s s' : st) a :
  confirm_index w p free s = (s', a) ->
  g_pool s' = g_pool s /\ cache_get (mac p) (g_hw s') = Some free.
Proof.
  intros H. unfold confirm_index, gst_bind, hw_set, gst_do in H. simplify_eq.
  destruct (cache_replace _ _ _ _); simpl; rewrite get_set, decide_True; done.
Qed.

(** The index a round locks and probes, and the state before it does. *)
Definition chosen (firstTry : bool) (free : Z) (s : st) (i : Z) (s2 : st) : Prop :=
  exists s1 c,
    match p_options p !! OptionRequestedIPAddress, firstTry with
    | Some b, true => try_requested orc h p free b s = (s1, Ret (Some c))
    | _, _ => s1 = s /\ c = free
    end /\
    ((c = -1 /\ exists v m', alloc orc (mac p) s1 = (s2, Ret (v, m', None)) /\ i = i64 v) \/
     (c <> -1 /\ s2 = s1 /\ i = c)).

(** The ways a round of the loop can go on. *)
Inductive round (fuel : nat) (firstTry : bool) (free : Z) (s s' : st) (a : attempt) : Prop :=
  | RoundGiveUp : a = GiveUp -> round fuel firstTry free s s' a
  | RoundAgain s1 b :
      p_options p !! OptionRequestedIPAddress = Some b -> firstTry = true ->
      try_requested orc h p free b s = (s1, Ret None) ->
      retry orc w h p fuel false free s1 = (s', Ret a) -> round fuel firstTry free s s' a
  | RoundUse i s2 s3 k :
      chosen firstTry free s i s2 -> lock_index w p i s2 = (s3, Ret tt) ->
      in_use w h p k i = false -> confirm_index w p i s3 = (s', Ret tt) -> a = Use i ->
      round fuel firstTry free s s' a
  | RoundConflict i s2 s3 k s4 :
      chosen firstTry free s i s2 -> lock_index w p i s2 = (s3, Ret tt) ->
      in_use w h p k i = true -> declare_unusable orc p i s3 = (s4, Ret tt) ->
      retry orc w h p fuel false 0 s4 = (s', Ret a) -> round fuel firstTry free s s' a.

Lemma retry_inv fuel firstTry free (s s' : st) a :
  retry orc w h p (S fuel) firstTry free s = (s', Ret a) -> round fuel firstTry free s s' a.
Proof.
  cbn [retry]. intros H. inv_bind H s0 n H0. unfold remaining in H0. simplify_eq.
  destruct (decide (n > 0)); [|unfold gst_ret in H; simplify_eq; by apply RoundGiveUp].
  inv_bind H s1 c Hx1. destruct c as [c|]; last first.
  { destruct (p_options p !! _) as [b|] eqn:Eb; [|done]. destruct firstTry; [|done].
    by eapply RoundAgain. }
  inv_bind H s2 f Hx2.
  assert (Hc : match f with Some i => chosen firstTry free s0 i s2 | None => True end).
  { destruct f as [i|]; [|done]. exists s1, c. split.
    - destruct (p_options p !! _), firstTry; unfold gst_ret in Hx1; simplify_eq; done.
    - destruct (decide (c = -1)) as [->|]; unfold gst_ret in Hx2; [|simplify_eq; auto].
      left. inv_bind Hx2 sx r Hr. destruct r as [[v m'] err].
      destruct (decide (err <> None)) as [|He]; simplify_eq. apply dec_stable in He. subst err.
      split; [done|]. by exists v, m'. }
  destruct f as [i|]; [|unfold gst_ret in H; simplify_eq; by apply RoundGiveUp].
  inv_bind H s3 u Hx3. destruct u. inv_bind H s4 k Hx4. unfold gst_get in Hx4. simplify_eq.
  destruct (in_use w h p _ i) eqn:Eu; inv_bind H s5 u Hx5; destruct u.
  - by eapply RoundConflict.
  - unfold gst_ret in H. simplify_eq. by eapply RoundUse.
Qed.

(** The index that a requested address stands for is a lease of the client. *)
Lemma chosen_requested firstTry (s s1 : st) c :
  pool_ok (g_pool s) ->
  match p_options p !! OptionRequestedIPAddress, firstTry with
  | Some b, true => try_requested orc h p (-1) b s = (s1, Ret (Some c))
  | _, _ => s1 = s /\ c = -1
  end ->
  pool_ok (g_pool s1) /\ Capacity (g_pool s1) = Capacity (g_pool s) /\
  (c <> -1 -> leases (g_pool s1) !! c = Some (mac p)).
Proof.
  intros Hok Hc. destruct (p_options p !! _) as [b|]; [destruct firstTry|];
    [|by destruct Hc as [-> ->]|by destruct Hc as [-> ->]].
  pose proof (safe_try_requested orc Horc h p (-1) b s Hok) as Hk. rewrite Hc in Hk.
  destruct Hk as (? & ? & _). split_and!; [done|done|].
  intros _. by destruct (try_requested_spec _ _ _ _ _ Hok Hc).
Qed.

(** The chosen index is one of the pool, and a lease of the client, unless it is a
    leftover [free]. *)
Lemma chosen_in_range firstTry (s s2 : st) i :
  pool_ok (g_pool s) -> Capacity (g_pool s) <= 2 ^ 63 -> chosen firstTry (-1) s i s2 ->
  in_range (Capacity (g_pool s)) i.
Proof.
  intros Hok Hcap (s1 & c & Hc & Hd).
  destruct (chosen_requested _ _ _ _ Hok Hc) as (Hok1 & Hcap1 & Hown). rewrite <- Hcap1.
  destruct Hd as [(-> & v & m' & Ha & ->)|(? & -> & ->)].
  - pose proof (alloc_range _ _ _ _ Hok1 Ha). rewrite (i64_index v (g_pool s1)); [done..|lia|done].
  - eapply leases_in_range; [done|by apply Hown].
Qed.

Lemma chosen_owned firstTry (s s2 : st) i :
  pool_ok (g_pool s) -> Capacity (g_pool s) <= 2 ^ 63 -> chosen firstTry (-1) s i s2 ->
  leases (g_pool s2) !! i = Some (mac p).
Proof.
  intros Hok Hcap (s1 & c & Hc & Hd).
  destruct (chosen_requested _ _ _ _ Hok Hc) as (Hok1 & Hcap1 & Hown).
  destruct Hd as [(-> & v & m' & Ha & ->)|(? & -> & ->)]; [|by apply Hown].
  pose proof (alloc_range _ _ _ _ Hok1 Ha). rewrite (i64_index v (g_pool s1)); [by eapply alloc_spec|done|lia|done].
Qed.

(** Without conflicts, the loop ends on a lease of the client. *)
Lemma retry_owned fuel firstTry (s s' : st) i :
  (forall k j, in_use w h p k j = false) ->
  pool_ok (g_pool s) -> Capacity (g_pool s) <= 2 ^ 63 ->
  retry orc w h p fuel firstTry (-1) s = (s', Ret (Use i)) ->
  leases (g_pool s') !! i = Some (mac p) /\ cache_get (mac p) (g_hw s') = Some i.
Proof.
  intros Hq. revert firstTry s. induction fuel as [|fuel IH]; intros firstTry s Hok Hcap H; [done|].
  apply retry_inv in H as [?|s1 b Hb -> Ht H|j s2 s3 k Hc Hl _ Hcf [= <-]|j s2 s3 k s4 _ _ Hu _ _];
    [done| | |by rewrite Hq in Hu].
  - pose proof (safe_try_requested orc Horc h p (-1) b s Hok) as Hk. rewrite Ht in Hk.
    destruct Hk as (? & Hcap1 & _). apply IH in H; [done|done|simpl in *; lia].
  - apply confirm_inv in Hcf as [Hp ?]. apply lock_pool in Hl. rewrite Hp, Hl.
    split; [|done]. by eapply chosen_owned.
Qed.

(** A round that starts with [free = 0] probes index 0. *)
Lemma chosen_zero (s : st) i s2 : chosen false 0 s i s2 -> i = 0.
Proof.
  intros (s3 & c & Hc & Hd).
  assert (c = 0) as -> by (destruct (p_options p !! _); by destruct Hc).
  destruct Hd as [(? & _)|(_ & _ & ->)]; [lia|done].
Qed.

Lemma retry_zero fuel (s s' : st) i :
  retry orc w h p fuel false 0 s = (s', Ret (Use i)) -> i = 0.
Proof.
  revert s. induction fuel as [|fuel IH]; intros s H; [done|].
  apply retry_inv in H as [?|s1 b _ ? _ _|j s2 s3 k Hc _ _ _ [= ->]|j s2 s3 k s4 _ _ _ _ H];
    [done|done|by eapply chosen_zero|by eapply IH].
Qed.

(** The loop ends on index 0 or on an index of the pool that passed the probe. *)
Lemma retry_zero_or_probed fuel firstTry (s s' : st) i :
  pool_ok (g_pool s) -> Capacity (g_pool s) <= 2 ^ 63 ->
  retry orc w h p fuel firstTry (-1) s = (s', Ret (Use i)) ->
  i = 0 \/ (in_range (Capacity (g_pool s)) i /\ exists k, in_use w h p k i = false).
Proof.
  revert firstTry s. induction fuel as [|fuel IH]; intros firstTry s Hok Hcap H; [done|].
  apply retry_inv in H as [?|s1 b _ _ Ht H|j s2 s3 k Hc _ Hu Hcf [= <-]|j s2 s3 k s4 _ _ _ _ H];
    [done| | |left; by eapply retry_zero].
  - pose proof (safe_try_requested orc Horc h p (-1) b s Hok) as Hk. rewrite Ht in Hk.
    destruct Hk as (? & Hcap1 & _). simpl in *. rewrite <- Hcap1. eapply IH; [done|lia|done].
  - right. split; [by eapply chosen_in_range|eauto].
Qed.

(** Once an address conflicted only index 0 can be the outcome. *)
Lemma retry_after_conflict fuel (s s' : st) a :
  (forall k, in_use w h p k 0 = false) -> (0 < fuel)%nat ->
  retry orc w h p fuel false 0 s = (s', Ret a) -> a = GiveUp \/ a = Use 0.
Proof.
  intros Hz Hf H. destruct fuel as [|fuel]; [lia|].
  apply retry_inv in H as [?|s1 b _ ? _ H|j s2 s3 k Hc _ _ _ ->|j s2 s3 k s4 Hc _ Hu _ _];
    [by left|done|right; f_equal; by eapply chosen_zero|].
  apply chosen_zero in Hc. subst. by rewrite Hz in Hu.
Qed.

Lemma retry_terminates fuel firstTry free (s s' : st) a :
  (forall k, in_use w h p k 0 = false) -> (3 <= fuel)%nat ->
  retry orc w h p fuel firstTry free s = (s', Ret a) -> a <> OutOfFuel.
Proof.
  intros Hz Hf H. destruct fuel as [|[|fuel]]; [lia..|].
  assert (Hlast : forall s1 s2 b, retry orc w h p fuel false 0 s1 = (s2, Ret b) -> b <> OutOfFuel).
  { intros s1 s2 b Hb. apply retry_after_conflict in Hb as [->| ->]; [done..|lia]. }
  assert (Hsnd : forall s1 f s2 b,
    retry orc w h p (S fuel) false f s1 = (s2, Ret b) -> b <> OutOfFuel).
  { intros s1 f s2 b Hb.
    apply retry_inv in Hb as [->|? ? _ ? _ _|? ? ? ? _ _ _ _ ->|? ? ? ? ? _ _ _ _ Hb]; eauto. }
  apply retry_inv in H as [->|? ? _ _ _ H|? ? ? ? _ _ _ _ ->|? ? ? ? ? _ _ _ _ H]; eauto.
Qed.

(** *** The search of an index *)

Lemma safe_find_index fuel : pres (kept (C:=C) (mac p)) (find_index orc w h p fuel).
Proof.
  unfold find_index, hw_get. destruct (h_ipAssigned h !! mac p); [auto with pres|].
  apply pres_bind; [typeclasses eauto|auto with pres|]. intros x.
  apply pres_bind; [typeclasses eauto| |].
  - destruct x; [by apply safe_cached|auto with pres].
  - intros []; [auto with pres|by apply safe_retry].
Qed.

(** The search does not build an answer. *)
Definition same_ans (s s' : st) : Prop := g_ans s' = g_ans s.

Global Instance same_ans_preorder : PreOrder same_ans.
Proof. split; [done|]. intros ??? H1 H2. unfold same_ans in *. congruence. Qed.

Lemma ans_reserve i m : pres same_ans (reserve (C:=C) orc i m).
Proof. intros s. unfold reserve, same_ans. by destruct (ReserveIPIndex _ _ _ _). Qed.
Lemma ans_alloc m : pres same_ans (alloc (C:=C) orc m).
Proof. intros s. unfold alloc, same_ans. by destruct (GetFreeIPIndex _ _ _). Qed.
Lemma ans_delete m : pres same_ans (hw_delete m).
Proof. intros s. unfold hw_delete, same_ans. by destruct (cache_get _ _). Qed.
Hint Resolve ans_reserve ans_alloc ans_delete : pres.

Lemma retry_ans fuel firstTry free : pres same_ans (retry (C:=C) orc w h p fuel firstTry free).
Proof.
  revert firstTry free. induction fuel as [|fuel IH]; intros firstTry free; cbn [retry];
    unfold declare_unusable, try_requested, lock_index, confirm_index, remaining, mac_at,
      spawn_free, hw_set; pres_walk; try (intros ?; done).
  apply pres_do. intros s. by destruct (cache_replace _ _ _ _).
Qed.

Lemma find_index_ans fuel (s : st) : g_ans (find_index orc w h p fuel s).1 = g_ans s.
Proof.
  assert (Hp : pres same_ans (find_index (C:=C) orc w h p fuel)); [|apply Hp].
  unfold find_index, cached_index, hw_get, mac_at. pose proof retry_ans.
  pres_walk; try (intros ?; unfold same_ans; by repeat case_match).
Qed.

(** An index in the cache that the pool confirms is a lease of the client. *)
Lemma cached_owned x (s s' : st) i :
  pool_ok (g_pool s) -> Capacity (g_pool s) <= 2 ^ 63 -> is_s 64 x ->
  cache_get (mac p) (g_hw s) = Some x ->
  cached_index orc p x s = (s', Ret (Some (Use i))) ->
  leases (g_pool s') !! i = Some (mac p) /\ cache_get (mac p) (g_hw s') = Some i.
Proof.
  intros Hok Hcap Hx Hc H. unfold cached_index in H. inv_bind H s1 r H1. unfold mac_at in H1.
  simplify_eq. destruct r as [[j rm] e].
  destruct (decide (rm = mac p)) as [->|].
  - destruct (replace_present _ (mac p) x (5 * second) (g_hw s1)) as (c & Ec & Hg); [eauto|].
    rewrite Ec in H. simplify_eq. simpl. rewrite Hg, decide_True by done. split; [|done].
    assert (Hl : leases (g_pool s1) !! u64 i = Some (mac p)) by (eapply get_mac_law; eauto with pres).
    pose proof (leases_in_range _ _ _ Hok Hl) as [_ Hlt].
    enough (u64 i = i) by congruence. apply wrapU_small. unfold is_u, is_s, wrapU in *.
    change (2 ^ (64 - 1)) with (2 ^ 63) in Hx. destruct (decide (0 <= i)); [lia|].
    rewrite <- (Z.mod_unique i (2 ^ 64) (-1) (i + 2 ^ 64)) in Hlt; lia.
  - destruct (decide (rm = FreeMac)); [|done]. inv_bind H s2 u H2. inv_bind H s3 r H3.
    assert (Hn : cache_get (mac p) (g_hw s3) = None).
    { unfold reserve in H3. destruct (ReserveIPIndex _ _ _ _). unfold hw_delete in H2.
      rewrite Hc in H2. unfold spawn_free, gst_do in H2. simplify_eq. simpl.
      by rewrite get_delete, decide_True. }
    destruct r as [rm' e']. destruct (decide _); [|done].
    rewrite replace_absent in H by done. simplify_eq.
Qed.

Lemma find_index_owned fuel (s s' : st) i :
  h_ipAssigned h !! mac p = None -> (forall k j, in_use w h p k j = false) ->
  (forall x, cache_get (mac p) (g_hw s) = Some x -> is_s 64 x) ->
  pool_ok (g_pool s) -> Capacity (g_pool s) <= 2 ^ 63 ->
  find_index orc w h p fuel s = (s', Ret (Use i)) ->
  leases (g_pool s') !! i = Some (mac p) /\ cache_get (mac p) (g_hw s') = Some i.
Proof.
  intros Hst Hq Hint Hok Hcap H. unfold find_index in H. rewrite Hst in H.
  inv_bind H s1 x H1. unfold hw_get, gst_get in H1. simplify_eq. inv_bind H s2 c H2.
  destruct (cache_get (mac p) (g_hw s1)) as [x|] eqn:Hx.
  - destruct c as [a|]; [unfold gst_ret in H; simplify_eq; by eapply cached_owned; eauto|].
    pose proof (safe_cached orc Horc p x s1 Hok) as Hk. rewrite H2 in Hk.
    destruct Hk as (? & Hcap2 & _). eapply retry_owned; [done|done| |exact H]. simpl in *. lia.
  - unfold gst_ret in H2. simplify_eq. by eapply retry_owned.
Qed.

End Lemmas.

(** *** Requests *)

Section Requests.
Context {C : Type -> Type} {PS PO : Type} {K : CacheOps C} {KL : CacheLaws C} {P : PoolOps PS PO}.
Context (orc : nat -> PS -> PO) (w : world) (h : DHCPHandler) (scopeIP srvIP : ip) (p : Packet).

Abbreviation st := (scope C PS).

Lemma request_decision_inv msgType (s s' : st) d :
  request_decision w h p msgType s = (s', d) ->
  g_ans s' = g_ans s /\
  forall index, d = Ret (Grant index) ->
    in_pool w h p = true /\ g_hw s' = g_hw s /\
    (h_ipAssigned h !! mac p = Some index /\ index = leaseNum w h p \/
     h_ipAssigned h !! mac p = None /\ cache_get (mac p) (g_hw s') = Some index /\
     IPEqual (IPAdd w (h_start h) index) (reqIP p) = true).
Proof.
  unfold request_decision. destruct (in_pool w h p); [|unfold gst_ret; intros; by simplify_eq].
  destruct (h_ipAssigned h !! mac p) as [pos|] eqn:Hst.
  { unfold gst_ret. case_decide; intros; simplify_eq; (split; [done|]); intros; simplify_eq; auto. }
  unfold gst_bind at 1, hw_get, gst_get. destruct (cache_get (mac p) (g_hw s)) as [index|] eqn:Hc;
    [|unfold gst_ret; intros; by simplify_eq].
  destruct (IPEqual _ _) eqn:Heq.
  - unfold gst_bind, gst_ret, gst_do. destruct (cache_get _ (g_reqtrans s)); intros; simplify_eq;
      (split; [done|]); intros; simplify_eq. simpl. split_and!; auto.
  - intros Hd. split.
    + assert (Hp : pres same_ans (gst_bind (gst_lift (Uint32 (XId p))) (fun x =>
        gst_bind (gst_get (fun s : st => cache_get (Itoa x) (g_xid s))) (fun t =>
        gst_bind (if decide (t = Some 1) then hw_delete (mac p) else gst_ret tt) (fun _ =>
        gst_ret Refuse))))) by (pose proof (ans_delete (C:=C) (PS:=PS)); pres_walk).
      specialize (Hp s). unfold gst_get in *. cbv beta in Hp. rewrite Hd in Hp. done.
    + intros idx ->. inv_bind Hd s1 x H1. inv_bind Hd s2 t H2. inv_bind Hd s3 u H3.
      unfold gst_ret in Hd. by simplify_eq.
Qed.

Lemma request_grant_inv msgType opts index (s s' : st) b r :
  D (g_ans s) = None -> request_grant orc w h scopeIP srvIP p msgType opts index s = (s', b) ->
  D (g_ans s') = Some r -> r_type r = ACK ->
  r_ip r = reqIP p /\ cache_get (mac p) (g_hw s') = Some index.
Proof.
  intros HD HS Hr Ht. unfold request_grant in HS. unfold gst_bind at 1, gst_lift in HS.
  destruct (scope_options _ _ _ _) as [options|]; [|simplify_eq; congruence].
  destruct (AddDevicesOptions w (mac p) _) as [lease G].
  unfold gst_bind at 1 in HS. destruct (GetFromGlobalFilterCache _ _ _ _ s) as [s1 info] eqn:Ef.
  assert (Ha : g_ans s1 = g_ans s).
  { unfold GetFromGlobalFilterCache in Ef. destruct (cache_get _ _); repeat case_match; by simplify_eq. }
  destruct info as [info|]; [|simplify_eq; congruence].
  unfold gst_bind at 1 in HS. destruct (AddPffilterDevicesOptions w info G) as [rg|]; [|simplify_eq; congruence].
  cbn zeta in HS. destruct rg.1.
  { unfold set_reply, gst_do in HS. simplify_eq. simpl in Hr. by simplify_eq. }
  unfold gst_bind, set_reply, gst_do, hw_set, gst_do, reserve, gst_ret in HS.
  destruct (ReserveIPIndex _ _ _ _) as [q e]. destruct e; simplify_eq; simpl in *; simplify_eq;
    (split; [done|]); by rewrite get_set, decide_True.
Qed.

(** The pool part of taking an index back: only that index changes. *)
Lemma take_back_inv {L : PoolLaws PS PO} (Horc : forall n s, pool_ok s -> oracle_ok (orc n s) s)
  (s s' : st) :
  let i := leaseNum w h p in
  pool_ok (g_pool s) -> u64 i = i -> cache_get (mac p) (g_hw s) = Some i ->
  take_back orc w h p s = (s', Ret tt) ->
  g_tasks s' = g_tasks s ++ [(0, i); (30, i)] /\ cache_get (mac p) (g_hw s') = None /\
  forall j, j <> i -> leases (g_pool s') !! j = leases (g_pool s) !! j.
Proof.
  intros i Hok Hu Hc HS. unfold take_back in HS. fold i in HS. rewrite Hu in HS.
  assert (Hi : 0 <= i) by (rewrite <- Hu; apply u64_nonneg).
  inv_bind HS s1 x1 H1. unfold hw_delete in H1. rewrite Hc in H1. unfold spawn_free, gst_do in H1.
  inv_bind HS s2 x2 H2. unfold free_index in H2. destruct (FreeIPIndex _ _ _) as [q2 r2] eqn:E2.
  inv_bind HS s3 x3 H3. unfold reserve in H3. destruct (ReserveIPIndex _ _ _ _) as [q3 r3] eqn:E3.
  unfold spawn_free, gst_do in HS. simplify_eq. simpl in *.
  destruct (free_law _ _ _ _ _ Hok (Horc _ _ Hok) Hi E2) as (Hok2 & _ & Hl2 & _).
  split_and!; [by rewrite <- app_assoc|by rewrite get_delete, decide_True|].
  intros j Hj. transitivity (leases q2 !! j); [|destruct Hl2 as [->| ->]; by rewrite ?lookup_delete_ne].
  destruct (reserve_law _ _ _ _ _ _ Hok2 (Horc _ _ Hok2) Hi E3) as (_ & _ & [->|(_ & _ & ->)] & _);
    [done|by rewrite lookup_insert_ne].
Qed.

End Requests.

(** ** A concrete server for the examples

    A scope of eight addresses from 10.0.0.10 over the in-memory pool, on a
    network where the addresses of [busy] answer a ping. *)
Definition demo_add (x : ip) (n : Z) : ip :=
  match Uint32 (To4 x) with Ret v => PutUint32 (u32 (v + n)) | Panic _ => [] end.

Definition demo_range (x y : ip) : Z :=
  match Uint32 (To4 x), Uint32 (To4 y) with Ret a, Ret b => b - a + 1 | _, _ => 0 end.

Definition demo_world (busy : ip -> bool) : world := {|
  w_ip6 := fun _ => []; w_ip6s := fun _ => EmptyString; w_rnd := fun _ _ _ => 0; w_nanos := 1;
  IPAdd := demo_add; IPRange := demo_range;
  SelectOrderOrAll := fun G _ => map_to_list G;
  optionString := fun _ => "Option"%string; msgString := fun _ => "Message"%string;
  ByteToString := fun b => hex b; w_store := fun _ => None;
  FilterDhcp := fun _ _ _ _ => Some (JMap []); arpSearch := fun _ _ => EmptyString;
  Ping := fun _ x => busy x; w_node := fun _ => Some []; w_iter := map_to_list |}.

Definition demo_handler : DHCPHandler :=
  mkHandler [10; 0; 0; 1] [10; 0; 0; 10] ∅ 8 (3600 * second) ∅ false "registration".

Definition demo_packet (last : Z) (opts : gmap Z bytes) : Packet :=
  mkPacket opts [2; 0; 0; 0; 0; last] [0; 0; 0; 0] [0; 0; 0; 0] [0; 0; 0; 7].

Definition demo_orc (n : nat) (d : DHCPPool) : mem_oracle := canonical_oracle 0 0 d.

Lemma demo_orc_ok n d : pool_ok d -> oracle_ok (demo_orc n d) d.
Proof. intros _. split; [done|]. split; [simpl; lia|done]. Qed.

Definition demo_scope (d : DHCPPool) : scope (fun V => gmap string V) DHCPPool :=
  mkScope d 0 ∅ ∅ ∅ ∅ ∅ ∅ ∅ [] no_answer.

(** A new pool, and one in which each listed index is reserved for a MAC. *)
Definition demo_pool (l : list (Z * string)) : DHCPPool :=
  fold_left (fun d im => (ReserveIPIndex (demo_orc 0 d) im.1 im.2 d).1) l (NewDHCPPool id 8 Random).

Lemma demo_pool_ok l : Forall (fun im => 0 <= im.1) l -> pool_ok (demo_pool l).
Proof.
  intros Hl. unfold demo_pool.
  assert (H : pool_ok (NewDHCPPool id 8 Random)) by (split; [apply NewDHCPPool_wf|done]).
  revert H. generalize (NewDHCPPool id 8 Random). induction Hl as [|im l Hi _ IH]; intros d Hd; [done|].
  cbn [fold_left]. apply IH. destruct (ReserveIPIndex _ _ _ d) as [d' r] eqn:E.
  eapply reserve_law in E as (? & _); eauto using demo_orc_ok.
Qed.

(** ** Theorems *)

(** One packet, whatever its handler does. *)
Lemma packet_keeps {C : Type -> Type} {PS PO : Type} `{CacheOps C}
  `{PoolLaws PS PO} (orc : nat -> PS -> PO) (w : world) fuel ifIP vip p msgType srvIP nets
  (scopes scopes' : list (scope C PS)) answer :
  (forall n s, pool_ok s -> oracle_ok (orc n s) s) ->
  mac p <> FreeMac -> mac p <> EmptyString ->
  ServeDHCP orc w fuel ifIP vip p msgType srvIP nets scopes = Ret (Some (answer, scopes')) ->
  Forall2 (kept (mac p)) scopes scopes'.
Proof.
  intros Horc Hm Hm' HS.
  assert (Hrefl : Forall2 (kept (mac p)) scopes scopes).
  { apply Forall_Forall2_diag, Forall_forall. intros s _. by apply kept_pool. }
  unfold ServeDHCP in HS. destruct (select_scope _ _ _ _ _) as [sel|]; [|done]. cbn [go_bind] in HS.
  destruct sel as [[[k v] role]|]; [|by simplify_eq].
  destruct (decide _); [by simplify_eq|]. destruct (scopes !! k) as [s|] eqn:Hs; [|done].
  destruct (vip || _); [|by simplify_eq].
  destruct (serve _ _ _ _ _ _ _ _ _ _) as [s' r] eqn:E.
  assert (Hk : scopes' = <[k := s']> (share s' <$> scopes)).
  { by destruct r as [[]|]; simplify_eq. }
  subst scopes'. clear HS.
  match type of E with serve _ _ ?h ?sc _ _ _ _ _ ?s0 = _ =>
    pose proof (safe_serve orc Horc w h sc ifIP srvIP p Hm Hm' fuel msgType s0) as Hsafe end.
  rewrite E in Hsafe. simpl in Hsafe.
  apply Forall2_same_length_lookup. split; [by rewrite length_insert, length_fmap|].
  intros j a b Ha Hb. destruct (decide (j = k)) as [->|].
  - rewrite Hs in Ha. simplify_eq. rewrite list_lookup_insert_eq in Hb
      by (rewrite length_fmap; by eapply lookup_lt_Some).
    simplify_eq. exact Hsafe.
  - rewrite list_lookup_insert_ne, list_lookup_fmap, Ha in Hb by done. cbn in Hb. simplify_eq.
    by apply kept_pool.
Qed.

Section RunLemmas.
Context {C : Type -> Type} {PS PO : Type} {K : CacheOps C} {P : PoolOps PS PO} {L : PoolLaws PS PO}.
Context (orc : nat -> PS -> PO) (Horc : forall n s, pool_ok s -> oracle_ok (orc n s) s).

Abbreviation st := (scope C PS).

(** The leases that an event can end. *)
Definition ends (e : event) (k : nat) (i : Z) (m : string) : Prop :=
  match e with
  | Handled m' => m' = m
  | Freed k' j => k' = k /\ u64 j = i
  | Expired _ _ | Forgotten => False
  end.

(** The client of a packet has a hardware address that does not mark a free entry. *)
Definition client (e : event) : Prop :=
  match e with Handled m => m <> FreeMac /\ m <> EmptyString | _ => True end.

Definition all_ok (l : list st) : Prop := Forall (fun s => pool_ok (g_pool s)) l.

Definition keeps_but (bad : nat -> Z -> string -> Prop) (l l' : list st) : Prop :=
  all_ok l' /\
  forall k s i m, l !! k = Some s -> leases (g_pool s) !! i = Some m ->
    bad k i m \/ exists s', l' !! k = Some s' /\ leases (g_pool s') !! i = Some m.

(** A change of one scope that keeps its pool well formed. *)
Lemma one_scope bad k s s' l : all_ok l -> l !! k = Some s -> pool_ok (g_pool s') ->
  (forall i m, leases (g_pool s) !! i = Some m -> bad k i m \/ leases (g_pool s') !! i = Some m) ->
  keeps_but bad l (<[k := s']> l).
Proof.
  intros Hl Hk Hok Hs. split; [by apply Forall_insert|]. intros j t i m Hj Hm.
  destruct (decide (j = k)) as [->|].
  - rewrite Hk in Hj. injection Hj as <-. destruct (Hs i m Hm) as [?|?]; [by left|right].
    exists s'. rewrite list_lookup_insert_eq by (by eapply lookup_lt_Some). done.
  - right. exists t. by rewrite list_lookup_insert_ne.
Qed.

(** Scopes whose pools are related by something that implies [kept]. *)
Lemma all_scopes m (l l' : list st) : all_ok l -> Forall2 (kept m) l l' ->
  keeps_but (fun _ _ m' => m = m') l l'.
Proof.
  intros Hl H2. split.
  - apply Forall_lookup_2. intros k s' Hk. destruct (Forall2_lookup_r _ _ _ _ _ H2 Hk) as (s & Hs & Hkept).
    apply Hkept. by eapply Forall_lookup_1 in Hl.
  - intros k s i m' Hk Hm. destruct (decide (m' = m)) as [->|Hne]; [by left|right].
    destruct (Forall2_lookup_l _ _ _ _ _ H2 Hk) as (s' & Hs' & Hkept). exists s'. split; [done|].
    eapply Forall_lookup_1 in Hl; [|exact Hk]. by destruct (Hkept Hl) as (_ & _ & ?); auto.
Qed.

Lemma step_keeps l e l' : all_ok l -> client e -> step orc l e l' -> keeps_but (ends e) l l'.
Proof using Horc L.
  intros Hl Hc Hs. destruct Hs as [w fuel ifIP vip p msgType srvIP nets l l' a HS|l k s d i l1 l2 Hk Ht|l k s m Hk _|l l' H2].
  - destruct Hc as [Hm Hm']. apply all_scopes; [done|]. by eapply packet_keeps.
  - pose proof (proj1 (Forall_lookup _ _) Hl _ _ Hk) as Hok. cbn in Hok.
    unfold run_task, gst_bind, gst_ret, free_index. cbn [g_pool g_calls set_tasks].
    destruct (FreeIPIndex _ _ _) as [q r] eqn:E.
    destruct (free_law _ _ _ _ _ Hok (Horc _ _ Hok) (u64_nonneg _) E) as (Hok' & _ & Hd & _).
    destruct r; (eapply one_scope; [done..|]); intros j m Hm; cbn [g_pool set_pool fst];
      (destruct (decide (u64 i = j)) as [<-|]; [by left|right]);
      (destruct Hd as [->| ->]; [done|by rewrite lookup_delete_ne]).
  - assert (Hp : g_pool (hw_delete m s).1 = g_pool s) by (unfold hw_delete; by destruct (cache_get m (g_hw s))).
    eapply one_scope; [done..| |]; rewrite Hp; [by eapply Forall_lookup_1 in Hl|by right].
  - split.
    + apply Forall_lookup_2. intros k s' Hk. destruct (Forall2_lookup_r _ _ _ _ _ H2 Hk) as (s & Hs & -> & _).
      by eapply Forall_lookup_1 in Hl.
    + intros k s i m Hk Hm. right. destruct (Forall2_lookup_l _ _ _ _ _ H2 Hk) as (s' & Hs' & Hp & _).
      exists s'. by rewrite Hp.
Qed.

End RunLemmas.

(** C25.  Over any sequence of packets, of goroutines that free an index and of
    expiries of cache entries, with any answers of pings, filters and option
    stores and any failures of the backend, every pool stays well formed, and a
    client loses a lease only to a packet of its own or to a goroutine that was
    started to free that very index: no packet of another client takes it.  The
    backend is any that keeps the contract: the in-memory pool with the Random
    algorithm and the MySQL pool.  Handlers follow each other and return, and no
    client has the hardware address that marks free entries. *)
Theorem ServeDHCP_keeps_other_leases {C : Type -> Type} {PS PO : Type} `{CacheOps C}
  `{PoolLaws PS PO} (orc : nat -> PS -> PO) (scopes scopes' : list (scope C PS)) es :
  (forall n s, pool_ok s -> oracle_ok (orc n s) s) ->
  Forall (fun s => pool_ok (g_pool s)) scopes -> Forall client es -> run orc scopes es scopes' ->
  Forall (fun s => pool_ok (g_pool s)) scopes' /\
  forall k s i m, scopes !! k = Some s -> leases (g_pool s) !! i = Some m ->
    Handled m ∈ es \/ (exists j, u64 j = i /\ Freed k j ∈ es) \/
    exists s', scopes' !! k = Some s' /\ leases (g_pool s') !! i = Some m.
Proof.
  intros Horc Hok Hc Hr. induction Hr as [l|l e l1 es l2 Hs Hr IH]; [by eauto 10|].
  apply Forall_cons in Hc as [He Hc]. destruct (step_keeps orc Horc _ _ _ Hok He Hs) as [Hok1 Hk1].
  destruct (IH Hok1 Hc) as [Hok2 Hk2]. split; [done|]. intros k s i m Hk Hm.
  destruct (Hk1 k s i m Hk Hm) as [Hb|(s1 & Hs1 & Hm1)].
  - destruct e as [m'|k' j| |]; cbn in Hb; [subst m'; left; left| |done..].
    destruct Hb as [-> Hj]. right. left. exists j. split; [done|left].
  - destruct (Hk2 k s1 i m Hs1 Hm1) as [?|[(j & ? & ?)|?]]; [left; by right| |by auto].
    right. left. exists j. split; [done|by right].
Qed.

Definition demo_nets : list Network :=
  [mkNetwork (mkIPNet [10; 0; 0; 0] [255; 255; 255; 0]) false
     (mkHandler [10; 0; 0; 1] [10; 0; 0; 10] ∅ 8 (3600 * second) ∅ true "registration")].

Definition demo_run : go (option (Answer * list (scope (fun V => gmap string V) DHCPPool))) :=
  ServeDHCP demo_orc (demo_world (fun _ => false)) 3 [10; 0; 0; 1] true (demo_packet 9 ∅)
    Discover [10; 0; 0; 1] demo_nets [demo_scope (demo_pool [(0, "02:00:00:00:00:01"%string)])].

Definition run_ip {A : Type} (r : go (option (Answer * A))) : option ip :=
  match r with Ret (Some (a, _)) => r_ip <$> D a | _ => None end.

(** Runs of the demo scope: a packet, and the [n]-th goroutine that waits. *)
Abbreviation demo_scopes := (list (scope (fun V => gmap string V) DHCPPool)).

Definition demo_serve (p : Packet) (t : MessageType) (l : demo_scopes) :=
  ServeDHCP demo_orc (demo_world (fun _ => false)) 3 [10; 0; 0; 1] true p t [10; 0; 0; 1] demo_nets l.

Definition answered (r : go (option (Answer * demo_scopes))) : Answer * demo_scopes :=
  match r with Ret (Some x) => x | _ => (no_answer, []) end.

Definition demo_free (n : nat) (s : scope (fun V => gmap string V) DHCPPool) (i : Z) : demo_scopes :=
  [(run_task demo_orc i (set_tasks (app (take n (g_tasks s)) (drop (S n) (g_tasks s))) s)).1].

Lemma demo_served p t l : match demo_serve p t l with Ret (Some _) => True | _ => False end ->
  step demo_orc l (Handled (mac p)) (answered (demo_serve p t l)).2.
Proof.
  intros H. apply (step_packet demo_orc (demo_world (fun _ => false)) 3 [10; 0; 0; 1] true p t [10; 0; 0; 1] demo_nets
    l _ (answered (demo_serve p t l)).1).
  fold (demo_serve p t l). by destruct (demo_serve p t l) as [[[]|]|].
Qed.

Lemma demo_freed n s d i : g_tasks s !! n = Some (d, i) -> step demo_orc [s] (Freed 0 i) (demo_free n s i).
Proof.
  intros Ht. eapply (step_task demo_orc [s] 0 s d i); [done|]. symmetry. by apply take_drop_middle.
Qed.

(** The client 9 holds 10.0.0.13, another client 10.0.0.10. *)
Definition demo_cached : scope (fun V => gmap string V) DHCPPool :=
  set_hw {[ mac (demo_packet 9 ∅) := 3 ]}
    (demo_scope (demo_pool [(3, mac (demo_packet 9 ∅)); (0, "02:00:00:00:00:01"%string)])).

Definition demo_release : Packet := demo_packet 9 {[ 50 := [10; 0; 0; 13] ]}.

(** The client 9 releases its address, and the entry of its cache is gone at once. *)
Definition demo_released : scope (fun V => gmap string V) DHCPPool :=
  default demo_cached (head (answered (demo_serve demo_release Release [demo_cached])).2).

Lemma single {A : Type} (d : A) (l : list A) : length l = 1%nat -> l = [default d (head l)].
Proof. by destruct l as [|x [|]]. Qed.

Lemma demo_release_step : step demo_orc [demo_cached] (Handled (mac demo_release)) [demo_released].
Proof.
  assert ((answered (demo_serve demo_release Release [demo_cached])).2 = [demo_released]) as <-
    by (apply single; vm_compute; reflexivity).
  apply demo_served. vm_compute. exact I.
Qed.

Lemma demo_release_freed : step demo_orc [demo_released] (Freed 0 3) (demo_free 0 demo_released 3).
Proof. apply (demo_freed 0 demo_released 0 3). vm_compute. reflexivity. Qed.

Lemma ServeDHCP_keeps_other_leases_witness :
  Forall (fun s => pool_ok (g_pool s)) (demo_free 0 demo_released 3) /\
  exists s, demo_free 0 demo_released 3 !! 0%nat = Some s /\ leases (g_pool s) !! 0 = Some "02:00:00:00:00:01"%string.
Proof.
  destruct (ServeDHCP_keeps_other_leases demo_orc [demo_cached] (demo_free 0 demo_released 3)
    [Handled (mac demo_release); Freed 0 3] demo_orc_ok) as [Hok Hkeep].
  - apply Forall_singleton. apply demo_pool_ok. repeat constructor; vm_compute; discriminate.
  - apply Forall_cons. split; [split; vm_compute; discriminate|by apply Forall_singleton].
  - eapply run_cons; [exact demo_release_step|]. eapply run_cons; [exact demo_release_freed|apply run_nil].
  - split; [exact Hok|].
    destruct (Hkeep 0%nat demo_cached 0 "02:00:00:00:00:01"%string eq_refl ltac:(vm_compute; reflexivity))
      as [Hin|[(j & Hj & Hin)|H]]; [| |exact H]; exfalso; revert Hin; rewrite !elem_of_cons, elem_of_nil.
    + intros [Hin|[Hin|[]]]; [|discriminate]. injection Hin. vm_compute. discriminate.
    + intros [Hin|[Hin|[]]]; [discriminate|]. injection Hin as ->. vm_compute in Hj. discriminate.
Defined.

(** The goroutine of a release runs after the address was given to another
    client: the client 9 releases 10.0.0.13, the expiry of its cache entry frees
    the index, client 8 is offered the address, and 30 seconds after the release
    the timer frees the lease of client 8. *)
Definition demo_discover8 : Packet := demo_packet 8 {[ 50 := [10; 0; 0; 13] ]}.

Definition demo_offered : scope (fun V => gmap string V) DHCPPool :=
  default demo_cached (head (answered (demo_serve demo_discover8 Discover (demo_free 0 demo_released 3))).2).

Theorem timer_frees_the_lease_of_another :
  run demo_orc [demo_cached]
    [Handled (mac demo_release); Freed 0 3; Handled (mac demo_discover8); Freed 0 3] (demo_free 0 demo_offered 3) /\
  leases (g_pool demo_offered) !! 3 = Some (mac demo_discover8) /\
  ((fun s => leases (g_pool s) !! 3) <$> demo_free 0 demo_offered 3) = [None].
Proof.
  split; [|split; vm_compute; reflexivity].
  eapply run_cons; [exact demo_release_step|]. eapply run_cons; [exact demo_release_freed|].
  apply (run_cons demo_orc _ _ [demo_offered]).
  - assert ((answered (demo_serve demo_discover8 Discover (demo_free 0 demo_released 3))).2 = [demo_offered]) as <-
      by (apply single; vm_compute; reflexivity).
    apply demo_served. vm_compute. exact I.
  - eapply run_cons; [|apply run_nil]. apply (demo_freed 0 demo_offered 30 3). vm_compute. reflexivity.
Qed.

(** What is offered is leased: when no probed address is in use, the
    address of a DHCPOFFER is the one of an index that the pool has leased to
    this very client, and hwcache remembers that index for the request, if the
    backend commits its transactions. *)
Theorem discover_offers_own_lease {C : Type -> Type} {PS PO : Type} `{CacheLaws C}
  `{PoolLaws PS PO} (orc : nat -> PS -> PO) w h scopeIP ifIP srvIP p fuel opts
  (s s' : scope C PS) r :
  (forall n s, pool_ok s -> oracle_ok (orc n s) s) -> (forall n s, commits (orc n s)) ->
  mac p <> FreeMac -> mac p <> EmptyString ->
  h_ipAssigned h !! mac p = None ->
  (forall k i, in_use w h p k i = false) ->
  (forall x, cache_get (mac p) (g_hw s) = Some x -> is_s 64 x) ->
  pool_ok (g_pool s) -> Capacity (g_pool s) <= 2 ^ 63 -> D (g_ans s) = None ->
  serve_discover orc w h scopeIP ifIP srvIP p fuel opts s = (s', Ret true) ->
  D (g_ans s') = Some r -> r_type r = Offer ->
  exists i, r_ip r = IPAdd w (h_start h) i /\ in_range (Capacity (g_pool s')) i /\
    leases (g_pool s') !! i = Some (mac p) /\ cache_get (mac p) (g_hw s') = Some i.
Proof.
  intros Horc Hcom Hm Hm' Hst Hq Hint Hok Hcap HD HS Hr Ht. unfold serve_discover in HS.
  inv_bind HS s1 a Ha.
  assert (Hown : forall i, a = Use i -> leases (g_pool s1) !! i = Some (mac p) /\
                              cache_get (mac p) (g_hw s1) = Some i).
  { intros i ->. by eapply find_index_owned. }
  pose proof (safe_find_index orc Horc w h p fuel s Hok) as (Hok1 & _). rewrite Ha in Hok1. simpl in Hok1.
  destruct a as [| |i]; [done| |].
  - unfold gst_ret in HS. simplify_eq. pose proof (find_index_ans orc w h p fuel s) as Hd.
    rewrite Ha in Hd. simpl in Hd. congruence.
  - inv_bind HS s2 u Hu. destruct u. unfold gst_ret in HS. simplify_eq.
    apply discover_reply_inv in Hu as [[Hp Hh] (_ & r' & Hr' & Hcase)].
    rewrite Hr in Hr'. simplify_eq. destruct (Hown i eq_refl) as [Hl Hc].
    destruct Hcase as [->|(_ & ? & _)]; [done|]. exists i. rewrite Hp, Hh.
    split_and!; [done|by eapply leases_in_range|done|done].
Qed.

(** The state after the DISCOVER of client 9 on a scope. *)
Definition demo_discover (busy : ip -> bool) (d : DHCPPool) :=
  serve_discover demo_orc (demo_world busy) demo_handler [10; 0; 0; 0] [10; 0; 0; 1] [10; 0; 0; 1]
    (demo_packet 9 ∅) 3 ∅ (demo_scope d).

Lemma discover_offers_own_lease_witness :
  exists s' r, demo_discover (fun _ => false) (demo_pool []) = (s', Ret true) /\
    D (g_ans s') = Some r /\
    exists i, r_ip r = demo_add [10; 0; 0; 10] i /\ in_range (Capacity (g_pool s')) i /\
      leases (g_pool s') !! i = Some (mac (demo_packet 9 ∅)) /\
      cache_get (mac (demo_packet 9 ∅)) (g_hw s') = Some i.
Proof.
  destruct (demo_discover (fun _ => false) (demo_pool [])) as [s' b] eqn:E.
  assert (Hb : b = Ret true) by (change b with (s', b).2; rewrite <- E; vm_compute; reflexivity).
  assert (Hr : exists r, D (g_ans s') = Some r /\ r_type r = Offer).
  { change s' with (s', b).1. rewrite <- E. vm_compute. eauto. }
  subst b. destruct Hr as (r & Hr & Ht). exists s', r. split; [done|]. split; [done|].
  apply (discover_offers_own_lease demo_orc (demo_world (fun _ => false)) demo_handler
    [10; 0; 0; 0] [10; 0; 0; 1] [10; 0; 0; 1] (demo_packet 9 ∅) 3 ∅ (demo_scope (demo_pool [])) s' r
    demo_orc_ok ltac:(done)).
  - vm_compute. discriminate.
  - vm_compute. discriminate.
  - reflexivity.
  - reflexivity.
  - discriminate.
  - by apply demo_pool_ok.
  - vm_compute. discriminate.
  - reflexivity.
  - exact E.
  - exact Hr.
  - exact Ht.
Defined.

(** After a conflict the server offers index 0: if every other address of
    the pool answers the probe, the search can only end on index 0, also when
    that index is the lease of another client, whose lease stays in the pool. *)
Theorem conflict_offers_index_zero {C : Type -> Type} {PS PO : Type} `{CacheLaws C}
  `{PoolLaws PS PO} (orc : nat -> PS -> PO) w h p fuel (s s' : scope C PS) i m :
  (forall n s, pool_ok s -> oracle_ok (orc n s) s) ->
  mac p <> FreeMac -> mac p <> EmptyString ->
  h_ipAssigned h !! mac p = None -> cache_get (mac p) (g_hw s) = None ->
  pool_ok (g_pool s) -> Capacity (g_pool s) <= 2 ^ 63 ->
  (forall k j, 0 < j < Capacity (g_pool s) -> in_use w h p k j = true) ->
  leases (g_pool s) !! 0 = Some m -> m <> mac p ->
  find_index orc w h p fuel s = (s', Ret (Use i)) ->
  i = 0 /\ leases (g_pool s') !! 0 = Some m.
Proof.
  intros Horc Hm Hm' Hst Hc Hok Hcap Hall Hl Hne HS. split.
  - unfold find_index in HS. rewrite Hst in HS. unfold hw_get, gst_bind, gst_get in HS.
    rewrite Hc in HS. cbn in HS.
    eapply retry_zero_or_probed in HS as [|[[? ?] [k Hk]]]; [done| |done..].
    destruct (decide (i = 0)) as [|Hi]; [done|]. rewrite Hall in Hk; [done|lia].
  - pose proof (safe_find_index orc Horc w h p fuel s Hok) as (_ & _ & Hkeep).
    rewrite HS in Hkeep. by apply Hkeep.
Qed.

(** All addresses but 10.0.0.10 are taken by devices the server does not know. *)
Definition only_first_free (x : ip) : bool := negb (bool_decide (x = [10; 0; 0; 10])).

Definition demo_owner : string := "02:00:00:00:00:01".

Lemma conflict_offers_index_zero_witness :
  exists s' i,
    find_index demo_orc (demo_world only_first_free) demo_handler (demo_packet 9 ∅) 3
      (demo_scope (demo_pool [(0, demo_owner)])) = (s', Ret (Use i)) /\
    i = 0 /\ leases (g_pool s') !! 0 = Some demo_owner.
Proof.
  destruct (find_index demo_orc (demo_world only_first_free) demo_handler (demo_packet 9 ∅) 3
      (demo_scope (demo_pool [(0, demo_owner)]))) as [s' b] eqn:E.
  assert (Hb : b = Ret (Use 0)) by (change b with (s', b).2; rewrite <- E; vm_compute; reflexivity).
  subst b. exists s', 0. split; [reflexivity|].
  apply (conflict_offers_index_zero demo_orc (demo_world only_first_free) demo_handler
    (demo_packet 9 ∅) 3 (demo_scope (demo_pool [(0, demo_owner)])) s' 0 demo_owner demo_orc_ok).
  - vm_compute. discriminate.
  - vm_compute. discriminate.
  - reflexivity.
  - reflexivity.
  - apply demo_pool_ok. repeat constructor. discriminate.
  - vm_compute. discriminate.
  - intros k j Hj. change (Capacity _) with 8 in Hj.
    assert (j = 1 \/ j = 2 \/ j = 3 \/ j = 4 \/ j = 5 \/ j = 6 \/ j = 7)
      as [->|[->|[->|[->|[->|[->| ->]]]]]] by lia; reflexivity.
  - vm_compute. reflexivity.
  - vm_compute. discriminate.
  - exact E.
Defined.

(** The search of DHCPDISCOVER terminates when the first address of the
    pool does not answer the probe: three rounds of the loop are enough from
    any state, whatever the pool, the cache and the other addresses answer. *)
Theorem discover_terminates {C : Type -> Type} {PS PO : Type} `{CacheOps C} `{PoolOps PS PO}
  (orc : nat -> PS -> PO) w h scopeIP ifIP srvIP p fuel opts (s : scope C PS) :
  (forall k, in_use w h p k 0 = false) -> (3 <= fuel)%nat ->
  (serve_discover orc w h scopeIP ifIP srvIP p fuel opts s).2 <> Ret false.
Proof.
  intros Hz Hf HS. destruct (serve_discover _ _ _ _ _ _ _ _ _ _) as [s' b] eqn:E.
  simpl in HS. subst b. unfold serve_discover in E. inv_bind E s1 a Ha.
  destruct a as [| |i]; [|done|by inv_bind E s2 u Hu].
  unfold find_index in Ha. destruct (h_ipAssigned h !! mac p); [done|].
  inv_bind Ha s2 x Hx. inv_bind Ha s3 c Hc. destruct c as [a|].
  - unfold gst_ret in Ha. simplify_eq. destruct x as [x|]; [|done].
    unfold cached_index in Hc. inv_bind Hc s4 r Hr. destruct r as [[j rm] e].
    repeat case_decide; try done; [by case_match; simplify_eq|].
    inv_bind Hc s5 u Hu. inv_bind Hc s6 r Hr'. destruct r. case_decide; [|done].
    by case_match; simplify_eq.
  - by eapply retry_terminates in Ha.
Qed.

Lemma discover_terminates_witness :
  (demo_discover only_first_free (demo_pool [])).2 <> Ret false.
Proof.
  apply (discover_terminates demo_orc (demo_world only_first_free) demo_handler [10; 0; 0; 0]
    [10; 0; 0; 1] [10; 0; 0; 1] (demo_packet 9 ∅) 3 ∅ (demo_scope (demo_pool []))).
  - reflexivity.
  - apply le_n.
Defined.

Section Livelock.
Context {C : Type -> Type} `{CacheOps C} (orc : nat -> DHCPPool -> mem_oracle).
Context (w : world) (h : DHCPHandler) (p : Packet).
Context (Hu : forall k i, in_use w h p k i = true).

(** Over the in-memory pool, a probed index that is in use goes through the
    reservation for the fake MAC to the next round. *)
Lemma conflict_step i fuel (s : scope C DHCPPool) :
  exists s4, g_pool s4 = (mem_reserve (u64 i) FakeMac (g_pool s)).1 /\
    (lock_index w p i ;;;
     k <-- gst_get g_calls ;;
     if in_use w h p k i then (declare_unusable orc p i ;;; retry orc w h p fuel false 0)%go
     else (confirm_index w p i ;;; gst_ret (Use i))%go)%go s = retry orc w h p fuel false 0 s4.
Proof.
  unfold gst_bind at 1. destruct (lock_index w p i s) as [s1 r1] eqn:E1.
  pose proof (lock_pool _ _ _ _ _ _ E1) as Hp1.
  assert (r1 = Ret tt) as -> by (unfold lock_index, gst_bind, hw_set, gst_do in E1; by simplify_eq).
  unfold gst_bind at 1, gst_get. rewrite Hu. unfold declare_unusable. unfold gst_bind at 1 2.
  assert (Hd : exists s2, hw_delete (mac p) s1 = (s2, Ret tt) /\ g_pool s2 = g_pool s1).
  { unfold hw_delete. destruct (cache_get _ _); eexists; done. }
  destruct Hd as (s2 & -> & Hp2). unfold gst_bind at 1, reserve. cbn [ReserveIPIndex MemoryOps].
  rewrite Hp2, Hp1. destruct (mem_reserve _ _ (g_pool s)) as [d r]. cbn.
  eexists. split; [|reflexivity]. done.
Qed.

(** A scope whose index 0 is leased and that still has free addresses goes
    round the loop for ever once index 0 is probed. *)
Lemma retry_zero_loops fuel (s : scope C DHCPPool) m :
  pool_wf (g_pool s) -> leases (g_pool s) !! 0 = Some m -> mem_remaining (g_pool s) > 0 ->
  (retry orc w h p fuel false 0 s).2 = Ret OutOfFuel.
Proof.
  revert s. induction fuel as [|fuel IH]; intros s Hwf Hm Hr; [done|].
  cbn [retry]. unfold gst_bind at 1, remaining. cbn [FreeIPsRemaining MemoryOps].
  rewrite decide_True by done. unfold gst_bind at 1.
  assert (Hfst : (match p_options p !! OptionRequestedIPAddress, false with
     | Some b, true => try_requested orc h p 0 b
     | _, _ => gst_ret (Some 0) end) s = (s, Ret (Some 0))) by (by destruct (p_options p !! _)).
  rewrite Hfst. rewrite decide_False by lia. unfold gst_bind at 1, gst_ret at 1.
  destruct (conflict_step 0 fuel s) as (s4 & Hp & ->).
  assert (Hp4 : g_pool s4 = g_pool s).
  { rewrite Hp. change (u64 0) with 0. unfold mem_reserve. cbn [leases MemoryOps] in Hm.
    destruct (wf_mac _ Hwf _ _ Hm) as [_ Hf]. case_decide; [done|]. by rewrite Hf. }
  apply IH; by rewrite Hp4.
Qed.

End Livelock.

Lemma mem_remaining_size d :
  pool_wf d -> capacity d < 2 ^ 63 -> mem_remaining d = Z.of_nat (size (free d)).
Proof.
  intros Hwf Hcap. apply wrapU_small. pose proof (wf_count d Hwf). unfold is_u. lia.
Qed.

(** A pool that allocated one of its free addresses. *)
Lemma alloc_one o m d d' i m' e :
  pool_wf d -> mem_oracle_ok o d -> algorithm d <> OldestReleased -> (0 < size (free d))%nat ->
  mem_get_free o m d = (d', (i, m', e)) ->
  e = None /\ in_range (capacity d) i /\ d' = assign i m d /\
  S (size (free d')) = size (free d) /\ DhcpPool.mac d !! i = None.
Proof.
  intros Hwf Ho Ha Hsz E.
  destruct (mem_get_free_spec _ _ _ _ _ _ _ Hwf Ho Ha E) as [(-> & -> & (Hr & Hn & _) & ->)|(_ & Hf & _)];
    [|rewrite Hf, map_size_empty in Hsz; lia].
  split_and!; try done. unfold assign; cbn [free].
  destruct (wf_total _ Hwf _ Hr) as [[b Hb]|[? ?]]; [|congruence].
  rewrite map_size_delete, Hb. simpl. lia.
Qed.

(** The loop of DHCPDISCOVER need not end: with index 0 leased, at least
    two addresses left in the in-memory pool and every address answering the
    probe (also index 0, whose owner is on line), a client without an address
    keeps the handler going through any number of rounds. *)
Theorem discover_loops_on_index_zero {C : Type -> Type} `{CacheLaws C}
  (orc : nat -> DHCPPool -> mem_oracle) w h scopeIP ifIP srvIP p fuel opts (s : scope C DHCPPool) m :
  (forall n d, pool_ok d -> oracle_ok (orc n d) d) ->
  (forall k i, in_use w h p k i = true) ->
  h_ipAssigned h !! mac p = None -> cache_get (mac p) (g_hw s) = None ->
  p_options p !! OptionRequestedIPAddress = None ->
  pool_ok (g_pool s) -> capacity (g_pool s) < 2 ^ 63 -> leases (g_pool s) !! 0 = Some m ->
  (2 <= size (free (g_pool s)))%nat ->
  (serve_discover orc w h scopeIP ifIP srvIP p fuel opts s).2 = Ret false.
Proof.
  intros Horc Hu Hst Hc H50 Hok Hcap Hm Hsz. pose proof Hok as [Hwf Halg].
  assert (Hf : (find_index orc w h p fuel s).2 = Ret OutOfFuel); last first.
  { unfold serve_discover, gst_bind. destruct (find_index _ _ _ _ _ s) as [s1 a]. simpl in Hf. by subst a. }
  unfold find_index. rewrite Hst. unfold hw_get, gst_bind at 1, gst_get. rewrite Hc.
  unfold gst_bind at 1, gst_ret at 1. destruct fuel as [|fuel]; [done|].
  cbn [retry]. unfold gst_bind at 1, remaining. cbn [FreeIPsRemaining MemoryOps].
  rewrite decide_True by (rewrite mem_remaining_size by done; lia).
  rewrite H50. unfold gst_bind at 1, gst_ret at 1. rewrite decide_True by done.
  unfold gst_bind at 1 2, alloc. cbn [GetFreeIPIndex MemoryOps].
  destruct (mem_get_free _ _ (g_pool s)) as [d' [[i m'] e]] eqn:E.
  pose proof (fun Hpos => alloc_one _ _ _ _ _ _ _ Hwf (Horc _ _ Hok) Halg Hpos E) as Hone.
  destruct Hone as (-> & Hr & Hd & Hs & Hn); [lia|].
  rewrite decide_False by tauto. unfold gst_ret at 1. cbn [leases MemoryOps] in Hm.
  destruct (conflict_step orc w h p Hu (i64 i) fuel (set_pool d' s)) as (s4 & Hp & ->).
  assert (Hi : i64 i = i) by (apply (i64_index i (g_pool s)); [done|simpl; lia|done]).
  rewrite Hi in Hp. unfold in_range in Hr.
  rewrite (wrapU_small 64 i) in Hp by (unfold is_u; lia).
  assert (Hp4 : g_pool s4 = d').
  { rewrite Hp. simpl. unfold mem_reserve. case_decide; [done|]. subst d'. unfold assign; cbn [free].
    by rewrite lookup_delete_eq. }
  assert (Hwf' : pool_wf d') by (subst d'; by apply assign_wf).
  apply (retry_zero_loops orc w h p Hu fuel s4 m); rewrite Hp4; [done| |].
  - subst d'. cbn. rewrite lookup_insert_ne; [done|congruence].
  - rewrite mem_remaining_size; [lia|done|by subst d'].
Qed.

Lemma discover_loops_on_index_zero_witness :
  (serve_discover demo_orc (demo_world (fun _ => true)) demo_handler [10; 0; 0; 0] [10; 0; 0; 1]
     [10; 0; 0; 1] (demo_packet 9 ∅) 50 ∅ (demo_scope (demo_pool [(0, demo_owner)]))).2 = Ret false.
Proof.
  apply (discover_loops_on_index_zero demo_orc (demo_world (fun _ => true)) demo_handler
    [10; 0; 0; 0] [10; 0; 0; 1] [10; 0; 0; 1] (demo_packet 9 ∅) 50 ∅
    (demo_scope (demo_pool [(0, demo_owner)])) demo_owner demo_orc_ok).
  - reflexivity.
  - reflexivity.
  - reflexivity.
  - reflexivity.
  - apply demo_pool_ok. repeat constructor. discriminate.
  - vm_compute. reflexivity.
  - vm_compute. reflexivity.
  - vm_compute. repeat constructor.
Defined.

(** A DHCPACK is only sent for an address of the scope that belongs to
    the client: its static assignment, or the index that hwcache holds for it.
    The request names no other server, and afterwards hwcache holds the index. *)
Theorem ack_only_for_cached_or_static {C : Type -> Type} {PS PO : Type} `{CacheLaws C}
  `{PoolOps PS PO} (orc : nat -> PS -> PO) w h scopeIP srvIP p msgType opts (s s' : scope C PS) b r :
  D (g_ans s) = None ->
  serve_request orc w h scopeIP srvIP p msgType opts s = (s', b) ->
  D (g_ans s') = Some r -> r_type r = ACK ->
  other_server h srvIP p = false /\ in_pool w h p = true /\ r_ip r = reqIP p /\
  exists index, cache_get (mac p) (g_hw s') = Some index /\
    (h_ipAssigned h !! mac p = Some index /\ index = leaseNum w h p \/
     h_ipAssigned h !! mac p = None /\ cache_get (mac p) (g_hw s) = Some index /\
     IPEqual (IPAdd w (h_start h) index) (reqIP p) = true).
Proof.
  intros HD HS Hr Ht. unfold serve_request in HS.
  destruct (other_server h srvIP p); [unfold gst_do in HS; by simplify_eq|].
  unfold gst_bind at 1, set_ip, gst_do in HS.
  destruct (decide (_ /\ _)); [|unfold set_reply, gst_do in HS; simplify_eq; simpl in *; by simplify_eq].
  unfold gst_bind at 1 in HS. destruct (request_decision _ _ _ _ _) as [s1 d] eqn:Ed.
  apply request_decision_inv in Ed as (Hans & Hgrant). simpl in Hans.
  assert (Hnone : D (g_ans s1) = None) by (by rewrite Hans).
  destruct d as [[]|]; unfold gst_do, gst_ret, set_reply, gst_do in HS; simplify_eq; simpl in *;
    simplify_eq; [].
  destruct (Hgrant index eq_refl) as (Hin & Hhw & Hcase). simpl in *.
  apply request_grant_inv with (r := r) in HS as (Hip & Hget); [|done..].
  split_and!; try done. exists index. split; [done|]. rewrite Hhw in Hcase. done.
Qed.

(** The DHCPREQUEST of client 9 for an address, on a scope. *)
Definition demo_request (x : ip) (s : scope (fun V => gmap string V) DHCPPool) :=
  serve_request demo_orc (demo_world only_first_free) demo_handler [10; 0; 0; 0] [10; 0; 0; 1]
    (demo_packet 9 {[ 50 := x ]}) Request ∅ s.

Lemma ack_only_for_cached_or_static_witness :
  exists s' b r, demo_request [10; 0; 0; 13] demo_cached = (s', b) /\ D (g_ans s') = Some r /\
    r_type r = ACK /\ r_ip r = [10; 0; 0; 13].
Proof.
  destruct (demo_request [10; 0; 0; 13] demo_cached) as [s' b] eqn:E.
  assert (Hr : exists r, D (g_ans s') = Some r /\ r_type r = ACK).
  { change s' with (s', b).1. rewrite <- E. vm_compute. eauto. }
  destruct Hr as (r & Hr & Ht). exists s', b, r. split; [done|]. split; [done|]. split; [done|].
  destruct (ack_only_for_cached_or_static demo_orc (demo_world only_first_free) demo_handler
    [10; 0; 0; 0] [10; 0; 0; 1] (demo_packet 9 {[ 50 := [10; 0; 0; 13] ]}) Request ∅ demo_cached
    s' b r eq_refl E Hr Ht) as (_ & _ & Hip & _).
  rewrite Hip. reflexivity.
Defined.

(** Two clients end up with the same address: on a scope where 10.0.0.10
    is the lease of one client and the other addresses are in use by unknown
    devices, the discover and the request of a second client are answered with
    an offer and an acknowledgment for 10.0.0.10, and the pool still records the
    first client as its holder. *)
Theorem conflict_acknowledges_leased_address :
  let s1 := (demo_discover only_first_free (demo_pool [(0, demo_owner)])).1 in
  let s2 := (demo_request [10; 0; 0; 10] (set_ans no_answer s1)).1 in
  ((fun r => (r_type r, r_ip r)) <$> D (g_ans s1)) = Some (Offer, [10; 0; 0; 10]) /\
  ((fun r => (r_type r, r_ip r)) <$> D (g_ans s2)) = Some (ACK, [10; 0; 0; 10]) /\
  leases (g_pool s2) !! 0 = Some demo_owner /\ mac (demo_packet 9 ∅) <> demo_owner.
Proof. vm_compute. repeat split; discriminate. Qed.

(** A release or a decline takes back the client's own address or nothing:
    either the state is unchanged, or hwcache and the pool both named the client
    for that index; then the cache entry is gone, two goroutines will free the
    index (the eviction at once and the timer after 30 seconds), and the leases
    of all other indexes are as before. *)
Theorem give_back_only_own_lease {C : Type -> Type} {PS PO : Type} `{CacheLaws C}
  `{PoolLaws PS PO} (orc : nat -> PS -> PO) w h p (s s' : scope C PS) :
  (forall n s, pool_ok s -> oracle_ok (orc n s) s) ->
  mac p <> FreeMac -> mac p <> EmptyString -> h_leaseRange h <= 2 ^ 63 ->
  pool_ok (g_pool s) ->
  give_back orc w h p s = (s', Ret tt) ->
  s' = s \/
  let i := leaseNum w h p in
  in_pool w h p = true /\ h_ipAssigned h !! mac p <> Some i /\
  cache_get (mac p) (g_hw s) = Some i /\ leases (g_pool s) !! i = Some (mac p) /\
  cache_get (mac p) (g_hw s') = None /\ g_tasks s' = g_tasks s ++ [(0, i); (30, i)] /\
  (forall j, j <> i -> leases (g_pool s') !! j = leases (g_pool s) !! j).
Proof.
  intros Horc Hm Hm' Hrange Hok HS. unfold give_back in HS.
  destruct (in_pool w h p) eqn:Hin; cbn [andb] in HS; [|unfold gst_ret in HS; simplify_eq; by left].
  destruct (bool_decide _) eqn:Hst; cbn [negb] in HS; [unfold gst_ret in HS; simplify_eq; by left|].
  apply bool_decide_eq_false in Hst. inv_bind HS s1 x Hx. unfold hw_get, gst_get in Hx. simplify_eq.
  destruct (cache_get (mac p) (g_hw s1)) as [x|] eqn:Hc; [|unfold gst_ret in HS; simplify_eq; by left].
  destruct (decide (leaseNum w h p = x)) as [<-|]; [|unfold gst_ret in HS; simplify_eq; by left].
  inv_bind HS s2 r Hr. unfold mac_at in Hr. simplify_eq. destruct r as [[j rm] e].
  destruct (decide (rm = mac p)) as [->|]; [|unfold gst_ret in HS; simplify_eq; by left].
  right. unfold in_pool in Hin. apply bool_decide_eq_true in Hin.
  assert (Hu : u64 (leaseNum w h p) = leaseNum w h p) by (apply wrapU_small; unfold is_u; lia).
  assert (Hl : leases (g_pool s2) !! leaseNum w h p = Some (mac p)).
  { rewrite <- Hu. eapply get_mac_law; eauto with pres. }
  apply (take_back_inv orc w h p Horc) in HS as (Ht & Hg & Hother); [|done..].
  cbn zeta. split_and!; done.
Qed.

Lemma give_back_only_own_lease_witness :
  exists s', give_back demo_orc (demo_world (fun _ => false)) demo_handler
      (demo_packet 9 {[ 50 := [10; 0; 0; 13] ]}) demo_cached = (s', Ret tt) /\
    g_tasks s' = [(0, 3); (30, 3)].
Proof.
  destruct (give_back demo_orc (demo_world (fun _ => false)) demo_handler
      (demo_packet 9 {[ 50 := [10; 0; 0; 13] ]}) demo_cached) as [s' b] eqn:E.
  assert (Hb : b = Ret tt) by (change b with (s', b).2; rewrite <- E; vm_compute; reflexivity).
  subst b. exists s'. split; [reflexivity|].
  destruct (give_back_only_own_lease demo_orc (demo_world (fun _ => false)) demo_handler
    (demo_packet 9 {[ 50 := [10; 0; 0; 13] ]}) demo_cached s' demo_orc_ok) as [Hs|Hs].
  - vm_compute. discriminate.
  - vm_compute. discriminate.
  - vm_compute. discriminate.
  - apply demo_pool_ok. repeat constructor; discriminate.
  - exact E.
  - exfalso. assert (Hn : g_tasks s' = g_tasks demo_cached) by (by rewrite Hs). revert Hn.
    change s' with (s', @Ret unit tt).1. rewrite <- E. vm_compute. discriminate.
  - destruct Hs as (_ & _ & _ & _ & _ & Ht & _). rewrite Ht. vm_compute. reflexivity.
Defined.

(** A repeated message is dropped: while the transaction cache remembers a
    message type of a client, another such message changes nothing and builds no
    answer. *)
Theorem duplicate_message_is_ignored {C : Type -> Type} {PS PO : Type} `{CacheOps C} `{PoolOps PS PO}
  (orc : nat -> PS -> PO) w h scopeIP ifIP srvIP p fuel msgType (s : scope C PS) x :
  cache_get (transaction_key w p msgType) (g_trans s) = Some x ->
  (serve orc w h scopeIP ifIP srvIP p fuel msgType s).1 = s.
Proof.
  intros Hx. unfold serve, gst_bind at 1, gst_lift. destruct (client_options _ _ _); [|done].
  cbn zeta. unfold gst_bind, gst_get. by rewrite Hx.
Qed.

Lemma duplicate_message_is_ignored_witness :
  let s := set_trans {[ transaction_key (demo_world (fun _ => false)) (demo_packet 9 ∅) Discover := 3 ]}
    (demo_scope (demo_pool [])) in
  (serve demo_orc (demo_world (fun _ => false)) demo_handler [10; 0; 0; 0] [10; 0; 0; 1] [10; 0; 0; 1]
     (demo_packet 9 ∅) 3 Discover s).1 = s.
Proof.
  apply (duplicate_message_is_ignored demo_orc (demo_world (fun _ => false)) demo_handler
    [10; 0; 0; 0] [10; 0; 0; 1] [10; 0; 0; 1] (demo_packet 9 ∅) 3 Discover _ 3).
  vm_compute. reflexivity.
Defined.

(** A client whose cached index the pool reports as free is not answered:
    the branch deletes the cache entry before it replaces it, so a successful
    reservation always ends without an offer, with the index leased to the
    client, no cache entry that could expire it, and a goroutine started that
    frees it again. *)
Theorem cached_free_index_gets_no_offer {C : Type -> Type} {PS PO : Type} `{CacheLaws C}
  `{PoolLaws PS PO} (orc : nat -> PS -> PO) w h p fuel (s : scope C PS) x j m :
  (forall n s, pool_ok s -> oracle_ok (orc n s) s) ->
  h_ipAssigned h !! mac p = None -> mac p <> FreeMac ->
  pool_ok (g_pool s) -> cache_get (mac p) (g_hw s) = Some x ->
  GetMACIndex (orc (g_calls s) (g_pool s)) (u64 x) (g_pool s) = Ret (j, FreeMac, None) ->
  (ReserveIPIndex (orc (g_calls s) (g_pool s)) (u64 x) (mac p) (g_pool s)).2 = Ret (m, None) ->
  exists s', find_index orc w h p fuel s = (s', Ret GiveUp) /\
    leases (g_pool s') !! u64 x = Some (mac p) /\ cache_get (mac p) (g_hw s') = None /\
    g_tasks s' = g_tasks s ++ [(0, x)].
Proof.
  intros Horc Hst Hm Hok Hc Hg Hr. unfold find_index. rewrite Hst.
  unfold gst_bind at 1, hw_get, gst_get. rewrite Hc. unfold gst_bind at 1, cached_index.
  unfold gst_bind at 1, mac_at. rewrite Hg. rewrite decide_False, decide_True by done.
  unfold gst_bind, hw_delete. rewrite Hc. unfold spawn_free, gst_do, reserve. cbn [g_calls g_pool set_tasks set_hw].
  destruct (ReserveIPIndex _ _ _ _) as [q r] eqn:E. simpl in Hr. subst r.
  destruct (reserve_law _ _ _ _ _ _ Hok (Horc _ _ Hok) (u64_nonneg _) E) as (_ & _ & _ & Hs & _).
  destruct (Hs m eq_refl) as (-> & _ & _ & Hl). rewrite decide_True by done.
  cbn [g_hw set_pool set_tasks set_hw]. rewrite replace_absent by (by rewrite get_delete, decide_True).
  eexists. split; [reflexivity|]. cbn. rewrite Hl, lookup_insert_eq.
  rewrite get_delete, decide_True by done. done.
Qed.

Lemma cached_free_index_gets_no_offer_witness :
  let s := set_hw {[ mac (demo_packet 9 ∅) := 3 ]} (demo_scope (demo_pool [])) in
  exists s', find_index demo_orc (demo_world (fun _ => false)) demo_handler (demo_packet 9 ∅) 3 s =
      (s', Ret GiveUp) /\
    leases (g_pool s') !! u64 3 = Some (mac (demo_packet 9 ∅)) /\
    cache_get (mac (demo_packet 9 ∅)) (g_hw s') = None /\ g_tasks s' = g_tasks s ++ [(0, 3)].
Proof.
  apply (cached_free_index_gets_no_offer demo_orc (demo_world (fun _ => false)) demo_handler
    (demo_packet 9 ∅) 3 (set_hw {[ mac (demo_packet 9 ∅) := 3 ]} (demo_scope (demo_pool []))) 3 3
    (mac (demo_packet 9 ∅)) demo_orc_ok).
  - reflexivity.
  - vm_compute. discriminate.
  - by apply demo_pool_ok.
  - vm_compute. reflexivity.
  - vm_compute. reflexivity.
  - vm_compute. reflexivity.
Defined.
