(* ===== verification/Sync.v ===== *)
(** Synchronisation primitives: the timed read/write lock
    (src/go/timedlock/rw_lock.go) and the retryable once
    (src/go/tryableonce/once.go), as transition systems over any number of
    goroutines.  A goroutine is its program counter; the counters name the
    points between two accesses to shared state.  A timeout can happen at every
    point where the code waits. *)
From S2P Require Import Prelude.
From Stdlib Require Import ZArith Lia.
From stdpp Require Import base list strings relations.

(** ** Counting goroutines *)

Section Counting.
Context {A : Type}.

Definition count (f : A -> bool) (l : list A) : nat := length (filter (fun x => f x = true) l).

Definition b2n (b : bool) : nat := if b then 1 else 0.

Lemma count_insert f l (t : nat) a b :
  l !! t = Some a -> (count f (<[t := b]> l) + b2n (f a) = count f l + b2n (f b))%nat.
Proof.
  intros Ht. unfold count. rewrite insert_take_drop by (by eapply lookup_lt_Some).
  rewrite <- (take_drop_middle l t a Ht) at 3. rewrite !filter_app, !filter_cons, !length_app.
  destruct (f a), (f b); simpl; lia.
Qed.

Lemma count_pos f l (t : nat) a : l !! t = Some a -> f a = true -> (0 < count f l)%nat.
Proof.
  intros Ht Hf. pose proof (count_insert f l t a a Ht). unfold count.
  rewrite <- (take_drop_middle l t a Ht), filter_app, filter_cons, length_app, Hf. simpl. lia.
Qed.

Lemma count_delete f l (t : nat) a :
  l !! t = Some a -> count f l = (count f (delete t l) + b2n (f a))%nat.
Proof.
  intros Ht. unfold count. rewrite delete_take_drop, <- (take_drop_middle l t a Ht) at 1.
  rewrite !filter_app, !filter_cons, !length_app. destruct (f a); simpl; lia.
Qed.

(** Two goroutines at points that [f] selects. *)
Lemma count_two f l (t u : nat) a b :
  t <> u -> l !! t = Some a -> l !! u = Some b -> f a = true -> f b = true -> (2 <= count f l)%nat.
Proof.
  intros Hne Ht Hu Ha Hb. rewrite (count_delete f l t a Ht), Ha. simpl.
  assert (0 < count f (delete t l))%nat; [|lia].
  destruct (decide (u < t)%nat).
  - eapply (count_pos _ _ u b); [|done]. by rewrite list_lookup_delete_lt.
  - eapply (count_pos _ _ (u - 1) b); [|done]. rewrite list_lookup_delete_ge by lia.
    replace (S (u - 1)) with u by lia. done.
Qed.

Lemma count_le f g l : (forall x, f x = true -> g x = true) -> (count f l <= count g l)%nat.
Proof.
  intros Hfg. unfold count. induction l as [|x l IH]; [done|]. rewrite !filter_cons.
  pose proof (Hfg x). destruct (f x), (g x); simpl; try lia.
Qed.

(** A goroutine that [g] selects and [f] does not. *)
Lemma count_lt f g l (t : nat) a :
  (forall x, f x = true -> g x = true) -> l !! t = Some a -> f a = false -> g a = true ->
  (count f l < count g l)%nat.
Proof.
  intros Hfg Ht Hf Hg. rewrite (count_delete f l t a Ht), (count_delete g l t a Ht), Hf, Hg.
  pose proof (count_le f g (delete t l) Hfg). simpl. lia.
Qed.

Lemma count_replicate f n a : f a = false -> count f (replicate n a) = 0%nat.
Proof.
  intros Hf. unfold count. induction n as [|n IH]; [done|]. cbn [replicate].
  rewrite filter_cons, Hf. exact IH.
Qed.

End Counting.

(** ** RWLock *)

Module RWLock.

Definition MAX_RLOCK : nat := 1000.

(** The program counter of a goroutine that uses the lock. *)
Inductive pc :=
  | Idle                (** not using the lock *)
  | LockWait            (** Lock: in the select, waiting for the token *)
  | LockLoop            (** Lock: has the token, top of the loop *)
  | LockCheck           (** Lock: has the token and the internal lock *)
  | Writing             (** Lock returned an id *)
  | UnlockIn            (** Unlock: has the internal lock *)
  | RLockWait           (** RLock: in the outer select *)
  | RLockTok            (** RLock: has the token, waiting for the internal lock *)
  | RLockIn             (** RLock: has the token and the internal lock, inner select *)
  | Reading             (** RLock returned an id *)
  | RUnlockIn           (** RUnlock: has the internal lock *)
  | Failed              (** TIMEOUT_ERROR, or the panic of handleTimeout *)
  | Crashed.            (** a panic of Unlock or RUnlock *)

(** [lockChan] and [rlockChan] are the numbers of elements in the channels,
    [internal] the goroutine that holds internalLock, [ids] the ids that the last
    Lock or RLock of each goroutine drew. *)
Record state := mkState {
  lockChan : nat; rlockChan : nat; internal : option nat; c : Z; pcs : list pc; ids : list Z
}.

Definition goto (t : nat) (p : pc) (s : state) : state :=
  mkState (lockChan s) (rlockChan s) (internal s) (c s) (<[t := p]> (pcs s)) (ids s).
Definition put_lock (n : nat) (s : state) : state :=
  mkState n (rlockChan s) (internal s) (c s) (pcs s) (ids s).
Definition put_rlock (n : nat) (s : state) : state :=
  mkState (lockChan s) n (internal s) (c s) (pcs s) (ids s).
Definition hold (h : option nat) (s : state) : state :=
  mkState (lockChan s) (rlockChan s) h (c s) (pcs s) (ids s).

(** getNextId, which runs under the internal lock: the id of goroutine [t]. *)
Definition next_c (c : Z) : Z := let c := u64 (c + 1) in if decide (c = 0%Z) then u64 (c + 1) else c.
Definition getNextId (t : nat) (s : state) : state :=
  mkState (lockChan s) (rlockChan s) (internal s) (next_c (c s)) (pcs s) (<[t := next_c (c s)]> (ids s)).

(** NewRWLock with [n] goroutines that do not use it yet. *)
Definition NewRWLock (n : nat) : state := mkState 1 MAX_RLOCK None 1 (replicate n Idle) (replicate n 0%Z).

(** The steps of goroutine [t]. *)
Inductive step (t : nat) : state -> state -> Prop :=
  (* Lock *)
  | s_lock s : pcs s !! t = Some Idle -> internal s = None ->
      step t s (goto t LockWait (getNextId t s))
  | s_lock_timeout s : pcs s !! t = Some LockWait -> step t s (goto t Failed s)
  | s_lock_token s n : pcs s !! t = Some LockWait -> lockChan s = S n ->
      step t s (goto t LockLoop (put_lock n s))
  | s_lock_enter s : pcs s !! t = Some LockLoop -> internal s = None ->
      step t s (goto t LockCheck (hold (Some t) s))
  | s_lock_ok s : pcs s !! t = Some LockCheck -> rlockChan s = MAX_RLOCK ->
      step t s (goto t Writing (hold None s))
  | s_lock_again s : pcs s !! t = Some LockCheck -> rlockChan s <> MAX_RLOCK ->
      step t s (goto t LockLoop (hold None s))
  | s_lock_late s : pcs s !! t = Some LockLoop -> lockChan s = 0 ->
      step t s (goto t Failed (put_lock 1 s))
  (* Unlock by the writer with the id that Lock gave it *)
  | s_unlock_enter s : pcs s !! t = Some Writing -> internal s = None ->
      step t s (goto t UnlockIn (hold (Some t) s))
  | s_unlock_panic s : pcs s !! t = Some UnlockIn -> lockChan s <> 0 ->
      step t s (goto t Crashed (hold None s))
  | s_unlock_zero s : pcs s !! t = Some UnlockIn -> lockChan s = 0 -> ids s !! t = Some 0%Z ->
      step t s (goto t Crashed (hold None s))
  | s_unlock s i : pcs s !! t = Some UnlockIn -> lockChan s = 0 -> ids s !! t = Some i -> i <> 0%Z ->
      step t s (goto t Idle (hold None (put_lock 1 s)))
  (* RLock *)
  | s_rlock s : pcs s !! t = Some Idle -> internal s = None ->
      step t s (goto t RLockWait (getNextId t s))
  | s_rlock_timeout s : pcs s !! t = Some RLockWait -> step t s (goto t Failed s)
  | s_rlock_token s n : pcs s !! t = Some RLockWait -> lockChan s = S n ->
      step t s (goto t RLockTok (put_lock n s))
  | s_rlock_enter s : pcs s !! t = Some RLockTok -> internal s = None ->
      step t s (goto t RLockIn (hold (Some t) s))
  | s_rlock_ok s n : pcs s !! t = Some RLockIn -> rlockChan s = S n -> lockChan s = 0 ->
      step t s (goto t Reading (hold None (put_lock 1 (put_rlock n s))))
  | s_rlock_late s : pcs s !! t = Some RLockIn -> lockChan s = 0 ->
      step t s (goto t Failed (hold None (put_lock 1 s)))
  (* RUnlock by a reader with the id that RLock gave it *)
  | s_runlock_enter s : pcs s !! t = Some Reading -> internal s = None ->
      step t s (goto t RUnlockIn (hold (Some t) s))
  | s_runlock_panic s : pcs s !! t = Some RUnlockIn -> rlockChan s >= MAX_RLOCK ->
      step t s (goto t Crashed (hold None s))
  | s_runlock_zero s : pcs s !! t = Some RUnlockIn -> rlockChan s < MAX_RLOCK -> ids s !! t = Some 0%Z ->
      step t s (goto t Crashed (hold None s))
  | s_runlock s i : pcs s !! t = Some RUnlockIn -> rlockChan s < MAX_RLOCK -> ids s !! t = Some i -> i <> 0%Z ->
      step t s (goto t Idle (hold None (put_rlock (S (rlockChan s)) s)))
  (* a goroutine that recovered from a timeout uses the lock again *)
  | s_retry s : pcs s !! t = Some Failed -> step t s (goto t Idle s).

Definition any_step (s s' : state) : Prop := exists t, step t s s'.

(** Goroutines that own the element of lockChan, an element of rlockChan, or
    the write section. *)
Definition owns_token (p : pc) : bool :=
  match p with
  | LockLoop | LockCheck | Writing | UnlockIn | RLockTok | RLockIn => true
  | _ => false
  end.
Definition owns_read (p : pc) : bool := match p with Reading | RUnlockIn => true | _ => false end.
Definition owns_write (p : pc) : bool := match p with Writing | UnlockIn => true | _ => false end.

(** The goroutines that drew an id and are not done with it. *)
Definition has_id (p : pc) : bool := match p with Idle | Failed | Crashed => false | _ => true end.

Definition is_crashed (p : pc) : bool := match p with Crashed => true | _ => false end.

(** The invariant: elements are conserved, and no reader is in while a writer
    is. *)
Record inv (s : state) : Prop := mkInv {
  inv_token : lockChan s + count owns_token (pcs s) = 1;
  inv_read : rlockChan s + count owns_read (pcs s) = MAX_RLOCK;
  inv_excl : count owns_write (pcs s) <> 0 -> count owns_read (pcs s) = 0;
  inv_crash : count is_crashed (pcs s) = 0;
  inv_len : length (ids s) = length (pcs s);
  inv_ids : forall t p, pcs s !! t = Some p -> has_id p = true -> ids s !! t <> Some 0%Z
}.

Lemma rw_inv_new n : inv (NewRWLock n).
Proof.
  split; cbn [lockChan rlockChan pcs ids NewRWLock]; rewrite ?count_replicate by done; try done; [by rewrite !length_replicate|].
  intros t p [-> _]%lookup_replicate. done.
Qed.

Lemma next_c_nonzero x : next_c x <> 0%Z.
Proof. unfold next_c. cbn zeta. case_decide as E; [|done]. by rewrite E. Qed.

(** A goroutine that moves on with its id, or without one. *)
Lemma ids_kept (l : list Z) (ps : list pc) t p q :
  (forall u x, ps !! u = Some x -> has_id x = true -> l !! u <> Some 0%Z) ->
  ps !! t = Some p -> has_id p = true \/ has_id q = false ->
  forall u x, <[t := q]> ps !! u = Some x -> has_id x = true -> l !! u <> Some 0%Z.
Proof.
  intros H Ht Hpq u x Hu Hx. destruct (decide (u = t)) as [->|]; [|rewrite list_lookup_insert_ne in Hu by done; by eapply H].
  rewrite list_lookup_insert_eq in Hu by by eapply lookup_lt_Some. simplify_eq. destruct Hpq as [Hp|Hq]; [by eapply H|congruence].
Qed.

Lemma ids_drawn (l : list Z) (ps : list pc) t q i : i <> 0%Z ->
  (forall u x, ps !! u = Some x -> has_id x = true -> l !! u <> Some 0%Z) ->
  forall u x, <[t := q]> ps !! u = Some x -> has_id x = true -> <[t := i]> l !! u <> Some 0%Z.
Proof.
  intros Hi H u x Hu Hx E. destruct (decide (u = t)) as [->|].
  - destruct (decide (t < length l)%nat) as [Hlt|Hge]; [rewrite list_lookup_insert_eq in E by done; congruence|].
    rewrite lookup_ge_None_2 in E by (rewrite length_insert; lia). done.
  - rewrite list_lookup_insert_ne in Hu by done. rewrite list_lookup_insert_ne in E by done. by eapply H.
Qed.

Lemma write_owns_token p : owns_write p = true -> owns_token p = true.
Proof. by destruct p. Qed.

(** What moving a goroutine from [p] to [q] does to the counts. *)
Ltac counts Ht q :=
  pose proof (count_insert owns_token _ _ _ q Ht);
  pose proof (count_insert owns_read _ _ _ q Ht);
  pose proof (count_insert owns_write _ _ _ q Ht);
  pose proof (count_insert is_crashed _ _ _ q Ht).

Lemma rw_inv_step t s s' : inv s -> step t s s' -> inv s'.
Proof.
  intros [Htok Hread Hexcl Hcrash Hlen Hids] Hs.
  assert (Hlt : forall p, pcs s !! t = Some p -> owns_write p = false -> owns_token p = true ->
    (count owns_write (pcs s) < count owns_token (pcs s))%nat).
  { intros p Hp Hw Ho. by eapply (count_lt owns_write owns_token); eauto using write_owns_token. }
  destruct Hs as [s Ht|s Ht|s n Ht|s Ht|s Ht|s Ht|s Ht|s Ht|s Ht|s Ht ? Hz|s i Ht|s Ht|s Ht|s n Ht|s Ht|s n Ht|s Ht|s Ht|s Ht|s Ht ? Hz|s i Ht|s Ht];
    pose proof (Hlt _ Ht) as Hl; cbn [owns_write owns_token] in Hl;
    match goal with |- inv (goto _ ?q _) => counts Ht q end;
    try (by destruct (Hids _ _ Ht eq_refl));
    split; cbn [goto put_lock put_rlock hold getNextId lockChan rlockChan pcs ids] in *;
    cbn [owns_token owns_read owns_write is_crashed b2n] in *; try lia; rewrite ?length_insert; try done;
    first [eapply ids_kept; [exact Hids|exact Ht|by auto]|apply ids_drawn; [apply next_c_nonzero|exact Hids]].
Qed.

Lemma rw_inv_reachable n s : rtc any_step (NewRWLock n) s -> inv s.
Proof.
  intros Hr. pose proof (rw_inv_new n) as Hi. induction Hr as [|? ? ? [t Ht] _ IH]; [done|].
  apply IH. by eapply rw_inv_step.
Qed.

(** Goroutine [t] waits for a read element under the internal lock while there
    is none. *)
Definition stuck (t : nat) (s : state) : Prop :=
  pcs s !! t = Some RLockIn /\ internal s = Some t /\ rlockChan s = 0 /\ lockChan s = 0.

(** The other goroutines that could act hold neither lock. *)
Definition outside (t : nat) (s : state) : Prop :=
  forall u p, u <> t -> pcs s !! u = Some p ->
    match p with Idle | LockWait | RLockWait | Reading | Failed => True | _ => False end.

Lemma stuck_step t u s s' : u <> t -> stuck t s -> outside t s -> step u s s' -> stuck t s' /\ outside t s'.
Proof.
  intros Hne (Hpc & Hi & Hr & Hl) Ho Hs.
  assert (Hkeep : forall q r, stuck t (goto u q r) <->
    (pcs r !! t = Some RLockIn /\ internal r = Some t /\ rlockChan r = 0 /\ lockChan r = 0)).
  { intros q r. unfold stuck. cbn. by rewrite list_lookup_insert_ne. }
  assert (Hout : forall q r, pcs r = pcs s ->
    match q with Idle | LockWait | RLockWait | Reading | Failed => True | _ => False end ->
    outside t (goto u q r)).
  { intros q r Hp Hq v p Hv Hlook. cbn in Hlook. destruct (decide (v = u)) as [->|].
    - destruct (decide (u < length (pcs r))%nat).
      + rewrite list_lookup_insert_eq in Hlook by done. by simplify_eq.
      + rewrite list_insert_ge, Hp in Hlook by lia. by eapply Ho.
    - rewrite list_lookup_insert_ne, Hp in Hlook by done. by eapply Ho. }
  destruct Hs as [s Ht|s Ht|s n Ht|s Ht|s Ht|s Ht|s Ht|s Ht|s Ht|s Ht ? Hz|s i Ht|s Ht|s Ht|s n Ht|s Ht|s n Ht|s Ht|s Ht|s Ht|s Ht ? Hz|s i Ht|s Ht];
    pose proof (Ho _ _ Hne Ht) as Hx; cbn in Hx; try done; try congruence;
    (split; [by apply Hkeep|by apply Hout]).
Qed.

(** *** A run that uses all read elements *)

(** The first [k] of [n] goroutines read, the next one is at [p]. *)
Definition row (k n : nat) (p : pc) : list pc :=
  replicate k Reading ++ p :: replicate (n - S k) Idle.

Lemma row_lookup k n p : row k n p !! k = Some p.
Proof. apply list_lookup_middle. by rewrite length_replicate. Qed.

Lemma row_insert k n p q : <[k := q]> (row k n p) = row k n q.
Proof.
  unfold row. rewrite insert_app_r_alt by (rewrite length_replicate; lia).
  by rewrite length_replicate, Nat.sub_diag.
Qed.

Lemma row_next k n : S k < n -> row k n Reading = row (S k) n Idle.
Proof.
  intros Hk. unfold row. rewrite replicate_S_end, <- app_assoc. cbn [app]. do 2 f_equal.
  replace (n - S k) with (S (n - S (S k))) by lia. done.
Qed.

Lemma reader_enters k n c l :
  rtc any_step (mkState 1 (MAX_RLOCK - k) None c (row k n Idle) l)
    (mkState 0 (MAX_RLOCK - k) (Some k) (next_c c) (row k n RLockIn) (<[k := next_c c]> l)).
Proof.
  eapply rtc_l. { exists k. apply s_rlock; [apply row_lookup|done]. }
  unfold goto, getNextId. cbn. rewrite row_insert.
  eapply rtc_l. { exists k. eapply s_rlock_token; [apply row_lookup|done]. }
  unfold goto, put_lock. cbn. rewrite row_insert.
  eapply rtc_l. { exists k. eapply s_rlock_enter; [apply row_lookup|done]. }
  unfold goto, hold. cbn. rewrite row_insert. done.
Qed.

Lemma all_readers k n :
  k <= MAX_RLOCK -> k < n ->
  exists c l, rtc any_step (NewRWLock n) (mkState 1 (MAX_RLOCK - k) None c (row k n Idle) l).
Proof.
  intros Hm Hk. induction k as [|k IH].
  - exists 1%Z, (replicate n 0%Z). unfold NewRWLock, row. rewrite Nat.sub_0_r. destruct n as [|n]; [lia|].
    replace (S n - 1) with n by lia. done.
  - destruct IH as (c & l & IH); [lia..|]. exists (next_c c), (<[k := next_c c]> l). etrans; [exact IH|].
    etrans; [apply reader_enters|]. apply rtc_once. exists k.
    rewrite <- row_next, <- (row_insert k n RLockIn Reading) by lia.
    apply (s_rlock_ok k (mkState 0 (MAX_RLOCK - k) (Some k) (next_c c) (row k n RLockIn) (<[k := next_c c]> l))
      (MAX_RLOCK - S k)); [apply row_lookup|cbn [rlockChan]; lia|done].
Qed.

(** ** Theorems *)

(** C33.  Mutual exclusion: however goroutines that unlock what they have locked, with
    the id that they got, interleave and time out, in every state that is reached a
    goroutine that holds the write lock excludes all other writers and all readers,
    at most MAX_RLOCK goroutines hold the read lock, no Unlock or RUnlock has
    panicked, and a holder has an id other than 0. *)
Theorem rwlock_mutual_exclusion n s :
  rtc any_step (NewRWLock n) s ->
  (forall t u p q, t <> u -> pcs s !! t = Some p -> owns_write p = true -> pcs s !! u = Some q ->
     owns_write q = false /\ owns_read q = false) /\
  count owns_read (pcs s) <= MAX_RLOCK /\
  (forall t, pcs s !! t <> Some Crashed) /\
  (forall t p, pcs s !! t = Some p -> owns_write p = true \/ owns_read p = true -> exists i, ids s !! t = Some i /\ i <> 0%Z).
Proof.
  intros Hr. destruct (rw_inv_reachable _ _ Hr) as [Htok Hread Hexcl Hcrash Hlen Hids]. split_and!.
  - intros t u p q Hne Ht Hp Hu. pose proof (count_pos owns_write _ _ _ Ht Hp) as Hw. split; apply not_true_is_false; intros Hq.
    + pose proof (count_two owns_token _ _ _ _ _ Hne Ht Hu (write_owns_token _ Hp) (write_owns_token _ Hq)). lia.
    + pose proof (count_pos owns_read _ _ _ Hu Hq). lia.
  - lia.
  - intros t Ht. pose proof (count_pos is_crashed _ _ _ Ht eq_refl). lia.
  - intros t p Ht Hp. assert (Hid : has_id p = true) by (destruct p; naive_solver).
    destruct (lookup_lt_is_Some_2 (ids s) t) as [i Hi]; [rewrite Hlen; by eapply lookup_lt_Some|].
    exists i. split; [done|]. intros ->. by eapply Hids.
Qed.

Lemma rwlock_mutual_exclusion_witness :
  let s := mkState 0 MAX_RLOCK None 2 [Writing; Idle] [2%Z; 0%Z] in
  rtc any_step (NewRWLock 2) s /\ count owns_read (pcs s) <= MAX_RLOCK /\ exists i, ids s !! 0 = Some i /\ i <> 0%Z.
Proof.
  cbn zeta.
  assert (Hr : rtc any_step (NewRWLock 2) (mkState 0 MAX_RLOCK None 2 [Writing; Idle] [2%Z; 0%Z])).
  { eapply rtc_l; [exists 0; by apply s_lock|]. eapply rtc_l; [exists 0; by eapply s_lock_token|].
    eapply rtc_l; [exists 0; by apply s_lock_enter|]. eapply rtc_l; [exists 0; by apply s_lock_ok|].
    reflexivity. }
  destruct (rwlock_mutual_exclusion 2 (mkState 0 MAX_RLOCK None 2 [Writing; Idle] [2%Z; 0%Z]) Hr) as (_ & Hc & _ & Hi).
  split; [exact Hr|]. split; [exact Hc|]. apply (Hi 0 Writing); [reflexivity|left; reflexivity].
Defined.

(** The reader after the last read element times out even if all readers
    release the lock: a state is reachable in which it waits for an element
    while it holds the internal lock; no step of the other goroutines, an
    RUnlock in particular, changes that, and its own next step is the timeout. *)
Theorem rlock_waits_under_internal_lock :
  exists s, rtc any_step (NewRWLock (S MAX_RLOCK)) s /\
  forall s', rtc (fun a b => exists u, u <> MAX_RLOCK /\ step u a b) s s' ->
    stuck MAX_RLOCK s' /\
    forall s'', step MAX_RLOCK s' s'' -> pcs s'' !! MAX_RLOCK = Some Failed.
Proof.
  destruct (all_readers MAX_RLOCK (S MAX_RLOCK)) as (c & l & Hc); [lia..|].
  eexists. split; [etrans; [exact Hc|apply reader_enters]|]. intros s' Hs'.
  assert (Hst : stuck MAX_RLOCK s' /\ outside MAX_RLOCK s').
  { revert Hs'. match goal with |- rtc _ ?s0 _ -> _ =>
      assert (H0 : stuck MAX_RLOCK s0 /\ outside MAX_RLOCK s0) end.
    { split; [split_and!; [apply row_lookup|done|apply Nat.sub_diag|done]|].
      intros u p Hu Hp. cbn [pcs] in Hp. unfold row in Hp. rewrite lookup_app in Hp.
      destruct (replicate _ Reading !! u) eqn:E.
      - apply lookup_replicate in E as [-> _]. by simplify_eq.
      - rewrite Nat.sub_diag in Hp. rewrite length_replicate in Hp.
        destruct (u - MAX_RLOCK) eqn:Eu; [|done].
        apply lookup_replicate_None in E. lia. }
    intros Hs'. induction Hs' as [|a b d (u & Hu & Hab) _ IH]; [done|].
    apply IH. destruct H0. by eapply stuck_step. }
  destruct Hst as [(Hpc & Hi & Hr & Hl) _]. split; [done|]. intros s'' Hs.
  destruct Hs; simplify_eq; try congruence. cbn.
  rewrite list_lookup_insert_eq; [done|]. by eapply lookup_lt_Some.
Qed.

End RWLock.

(** ** TryableOnce *)

Module TryableOnce.

(** A goroutine in Do; [Returned None] is a nil error. *)
Inductive pc :=
  | Top                    (** top of the loop *)
  | Swap                   (** at the compare-and-swap *)
  | Running                (** in [f] *)
  | Finish (err : error)   (** [f] returned, before the store *)
  | Reload                 (** at the switch on the loaded value *)
  | Returned (err : error).

(** [ok] counts the calls of [f] that returned nil. *)
Record state := mkState { done : Z; ok : nat; pcs : list pc }.

Definition Retry : string := "Retry".

Definition goto (t : nat) (p : pc) (s : state) : state := mkState (done s) (ok s) (<[t := p]> (pcs s)).
Definition store (d : Z) (s : state) : state := mkState d (ok s) (pcs s).

Definition start (n : nat) : state := mkState 0 0 (replicate n Top).

(** The steps of Do; [f] returns any error. *)
Inductive step (t : nat) : state -> state -> Prop :=
  | o_done s : pcs s !! t = Some Top -> done s = 2%Z -> step t s (goto t (Returned None) s)
  | o_try s : pcs s !! t = Some Top -> done s <> 2%Z -> step t s (goto t Swap s)
  | o_swap s : pcs s !! t = Some Swap -> done s = 0%Z -> step t s (goto t Running (store 1 s))
  | o_noswap s : pcs s !! t = Some Swap -> done s <> 0%Z -> step t s (goto t Reload s)
  | o_fail s e : pcs s !! t = Some Running -> step t s (goto t (Finish (Some e)) s)
  | o_ok s : pcs s !! t = Some Running ->
      step t s (goto t (Finish None) (mkState (done s) (S (ok s)) (pcs s)))
  | o_reset s e : pcs s !! t = Some (Finish (Some e)) -> step t s (goto t (Returned (Some e)) (store 0 s))
  | o_set s : pcs s !! t = Some (Finish None) -> step t s (goto t (Returned None) (store 2 s))
  | o_retry s : pcs s !! t = Some Reload -> done s = 0%Z -> step t s (goto t (Returned (Some Retry)) s)
  | o_again s : pcs s !! t = Some Reload -> done s = 1%Z -> step t s (goto t Top s)
  | o_nil s : pcs s !! t = Some Reload -> done s = 2%Z -> step t s (goto t (Returned None) s).

Definition any_step (s s' : state) : Prop := exists t, step t s s'.

Definition in_f (p : pc) : bool := match p with Running | Finish _ => true | _ => false end.
Definition unset (p : pc) : bool := match p with Finish None => true | _ => false end.
Definition got_nil (p : pc) : bool := match p with Returned None => true | _ => false end.

Record inv (s : state) : Prop := mkInv {
  inv_done : done s = 0%Z \/ done s = 1%Z \/ done s = 2%Z;
  inv_f : count in_f (pcs s) = (if decide (done s = 1%Z) then 1 else 0);
  inv_ok : ok s = (if decide (done s = 2%Z) then 1 else count unset (pcs s));
  inv_nil : done s <> 2%Z -> count got_nil (pcs s) = 0
}.

Lemma unset_in_f p : unset p = true -> in_f p = true.
Proof. by destruct p as [| | |[]| |]. Qed.

Lemma once_inv_start n : inv (start n).
Proof.
  split; cbn [done ok pcs start]; rewrite ?count_replicate by (by cbn); repeat case_decide; auto; lia.
Qed.

Lemma once_inv_step t s s' : inv s -> step t s s' -> inv s'.
Proof.
  intros [Hd Hf Hok Hnil] Hs. pose proof (count_le unset in_f (pcs s) unset_in_f) as Hle.
  assert (Hlt : forall p, pcs s !! t = Some p -> unset p = false -> in_f p = true ->
    (count unset (pcs s) < count in_f (pcs s))%nat).
  { intros p Hp Hu Hi. by eapply (count_lt unset in_f); eauto using unset_in_f. }
  destruct Hs as [s Ht|s Ht|s Ht|s Ht|s e Ht|s Ht|s e Ht|s Ht|s Ht|s Ht|s Ht];
    pose proof (Hlt _ Ht) as Hl; cbn [unset in_f] in Hl;
    match goal with |- inv (goto _ ?q _) =>
      pose proof (count_insert in_f _ _ _ q Ht); pose proof (count_insert unset _ _ _ q Ht);
      pose proof (count_insert got_nil _ _ _ q Ht) end;
    split; cbn [goto store done ok pcs] in *; cbn [in_f unset got_nil b2n] in *;
    repeat case_decide; try lia.
Qed.

Lemma once_inv_reachable n s : rtc any_step (start n) s -> inv s.
Proof.
  intros Hr. pose proof (once_inv_start n) as Hi. induction Hr as [|? ? ? [t Ht] _ IH]; [done|].
  apply IH. by eapply once_inv_step.
Qed.

(** Do runs [f] in one goroutine at a time and lets it succeed once: over
    any interleaving of any number of callers there is at most one goroutine in
    [f], at most one call of [f] has returned nil, and a caller got nil only
    after such a call. *)
Theorem once_succeeds_once n s :
  rtc any_step (start n) s ->
  count in_f (pcs s) <= 1 /\ ok s <= 1 /\ (0 < count got_nil (pcs s) -> ok s = 1).
Proof.
  intros Hr. destruct (once_inv_reachable _ _ Hr) as [Hd Hf Hok Hnil].
  pose proof (count_le unset in_f (pcs s) unset_in_f) as Hle.
  repeat case_decide; split_and!; lia.
Qed.

Lemma once_succeeds_once_witness :
  let s := mkState 2 1 [Returned None; Top] in
  count in_f (pcs s) <= 1 /\ ok s <= 1 /\ (0 < count got_nil (pcs s) -> ok s = 1).
Proof.
  apply (once_succeeds_once 2 (mkState 2 1 [Returned None; Top])).
  eapply rtc_l; [exists 0; by apply o_try|]. eapply rtc_l; [exists 0; by apply o_swap|].
  eapply rtc_l; [exists 0; by apply o_ok|]. eapply rtc_l; [exists 0; by apply o_set|].
  reflexivity.
Defined.

End TryableOnce.
