(* ===== verification/RequestHistory.v ===== *)
(** The history of log messages per request
    (src/go/requesthistory/request_history.go): a ring buffer of requests with
    an index by UUID, and its refinement to the list of the most recent
    requests.

    A [*Request] of the source is its slot: a slot keeps the same object for
    ever, recycled requests are reset in place. *)
From S2P Require Import Prelude NetIP.
From Stdlib Require Import ZArith Lia.
From stdpp Require Import base gmap strings list.

Open Scope nat_scope.

Record Request := mkRequest { RequestId : string; Messages : list string }.

Record RequestHistory := mkHistory {
  container : list (option Request);
  uuidMap : gmap string nat;
  currentPosition : nat
}.

Definition NewRequestHistory (size : Z) : RequestHistory * error :=
  if decide (size <= 0)%Z then (mkHistory [] ∅ 0, Some "Size can't be 0 or negative"%string)
  else (mkHistory (replicate (Z.to_nat size) None) ∅ 0, None).

Definition NewRequest : Request := mkRequest EmptyString [].

(** Reset, which makes a slice of 100 empty messages. *)
Definition Reset (r : Request) : Request := mkRequest EmptyString (replicate 100 EmptyString).

(** Create returns the slot of the request, [None] for the error of a UUID
    that exists. *)
Definition Create (uuid : string) (rh : RequestHistory) : go (RequestHistory * option nat) :=
  match uuidMap rh !! uuid with
  | Some _ => Ret (rh, None)
  | None =>
      let pos := currentPosition rh in
      match container rh !! pos with
      | None => Panic index_panic
      | Some old =>
          let um := match old with Some r => delete (RequestId r) (uuidMap rh) | None => uuidMap rh end in
          let r := match old with Some r => Reset r | None => NewRequest end in
          let c := <[pos := Some (mkRequest uuid (Messages r))]> (container rh) in
          let next := if decide (length c <= S pos) then 0 else S pos in
          Ret (mkHistory c (<[uuid := pos]> um) next, Some pos)
      end
  end.

Definition uuidIndexNoLock (uuid : string) (rh : RequestHistory) : Z :=
  match uuidMap rh !! uuid with Some i => Z.of_nat i | None => (-1)%Z end.

Definition GetRequestByUuid (uuid : string) (rh : RequestHistory) : go (option nat) :=
  match uuidMap rh !! uuid with
  | Some i => match container rh !! i with None => Panic index_panic | Some _ => Ret (Some i) end
  | None => Ret None
  end.

Record RequestHistoryIterator := mkIterator { started : bool; it_start : Z; current : Z }.

Definition NewRequestHistoryIterator (rh : RequestHistory) (startAt : Z) : RequestHistoryIterator :=
  let startAt := if decide (startAt < 0)%Z then (Z.of_nat (length (container rh)) + startAt)%Z else startAt in
  mkIterator false startAt startAt.

Definition Iterator (rh : RequestHistory) : RequestHistoryIterator :=
  NewRequestHistoryIterator rh (Z.of_nat (currentPosition rh) - 1).

(** rhi.rh.container[rhi.current], with the panic of a bad index. *)
Definition slot_at (rh : RequestHistory) (i : Z) : go (option Request) :=
  if decide (i < 0)%Z then Panic index_panic
  else match container rh !! Z.to_nat i with None => Panic index_panic | Some r => Ret r end.

Definition Next (rh : RequestHistory) (it : RequestHistoryIterator) :
  go (RequestHistoryIterator * option Request) :=
  if started it then
    let cur := (current it - 1)%Z in
    let cur := if decide (cur < 0)%Z then (Z.of_nat (length (container rh)) - 1)%Z else cur in
    let it' := mkIterator true (it_start it) cur in
    if decide (cur = it_start it) then Ret (it', None)
    else (r <-! slot_at rh cur ;; Ret (it', r))%go
  else
    (r <-! slot_at rh (current it) ;; Ret (mkIterator true (it_start it) (current it), r))%go.

(** The loop of All; [None]: out of fuel. *)
Fixpoint all_loop (fuel : nat) (rh : RequestHistory) (it : RequestHistoryIterator) :
  go (option (list Request)) :=
  match fuel with
  | O => Ret None
  | S fuel' =>
      (x <-! Next rh it ;;
       match x.2 with
       | None => Ret (Some [])
       | Some r => (l <-! all_loop fuel' rh x.1 ;; Ret (cons r <$> l))%go
       end)%go
  end.

Definition All (fuel : nat) (rh : RequestHistory) : go (option (list Request)) :=
  all_loop fuel rh (Iterator rh).

Definition AddMessage (slot : nat) (message : string) (rh : RequestHistory) : RequestHistory :=
  mkHistory (alter (fmap (fun r => mkRequest (RequestId r) (Messages r ++ [message]))) slot (container rh))
    (uuidMap rh) (currentPosition rh).

(** HandleLogRecord, for a record whose context was read; [None] is a context
    without a request UUID. *)
Definition HandleLogRecord (msg : string) (requestUuid : option string) (rh : RequestHistory) :
  go RequestHistory :=
  if decide (msg = EmptyString) then Ret rh
  else match requestUuid with
  | None => Ret rh
  | Some u =>
      (r <-! GetRequestByUuid u rh ;;
       match r with
       | Some slot => Ret (AddMessage slot msg rh)
       | None =>
           (c <-! Create u rh ;;
            match c.2 with
            | Some slot => Ret (AddMessage slot msg c.1)
            | None => Panic "An element with this UUID already exists"
            end)%go
       end)%go
  end.

(** ** What the code keeps: the most recent requests, the newest first *)

(** The messages a new request starts with: a recycled object has 100 empty ones. *)
Definition fresh_messages (size : nat) (h : list Request) : list string :=
  if decide (length h < size) then [] else replicate 100 EmptyString.

Definition spec_create (size : nat) (uuid : string) (h : list Request) : list Request :=
  take size (mkRequest uuid (fresh_messages size h) :: h).

Definition add_to (uuid msg : string) (r : Request) : Request :=
  if decide (RequestId r = uuid) then mkRequest (RequestId r) (Messages r ++ [msg]) else r.

Definition spec_handle (size : nat) (msg : string) (u : option string) (h : list Request) : list Request :=
  if decide (msg = EmptyString) then h
  else match u with
  | None => h
  | Some u => add_to u msg <$> (if decide (u ∈ RequestId <$> h) then h else spec_create size u h)
  end.

(** ** The refinement relation *)

(** The slot of the [k]-th most recent request. *)
Definition slot (size pos k : nat) : nat := (pos + (size - 1 - k)) `mod` size.

Record refines (size : nat) (h : list Request) (rh : RequestHistory) : Prop := mkRefines {
  r_size : 0 < size;
  r_len : length (container rh) = size;
  r_pos : currentPosition rh < size;
  r_bound : length h <= size;
  r_slots : forall k, k < size -> container rh !! slot size (currentPosition rh) k = Some (h !! k);
  r_map : forall u i, uuidMap rh !! u = Some i <->
    exists r, container rh !! i = Some (Some r) /\ RequestId r = u
}.

Lemma slot_lt size pos k : 0 < size -> slot size pos k < size.
Proof. intros. apply Nat.mod_upper_bound. lia. Qed.

Lemma mod_wrap a n : 0 < n -> a < 2 * n -> a `mod` n = if decide (a < n) then a else a - n.
Proof.
  intros Hn Ha. case_decide; [by apply Nat.mod_small|].
  symmetry. apply (Nat.mod_unique a n 1); lia.
Qed.

(** Every slot is the one of some [k]. *)
Lemma slot_surj size pos i : pos < size -> i < size -> exists k, k < size /\ slot size pos k = i.
Proof.
  intros Hp Hi. exists (if decide (i < pos) then pos - 1 - i else pos + size - 1 - i).
  unfold slot. case_decide; (split; [lia|]); rewrite mod_wrap by lia; case_decide; lia.
Qed.

Definition advance (size pos : nat) : nat := if decide (size <= S pos) then 0 else S pos.

Lemma slot_advance_0 size pos : pos < size -> slot size (advance size pos) 0 = pos.
Proof.
  intros Hp. unfold slot, advance. rewrite mod_wrap by (repeat case_decide; lia). repeat case_decide; lia.
Qed.

Lemma slot_advance_S size pos k :
  pos < size -> S k < size -> slot size (advance size pos) (S k) = slot size pos k.
Proof.
  intros Hp Hk. unfold slot, advance. rewrite !mod_wrap by (repeat case_decide; lia).
  repeat case_decide; lia.
Qed.

Lemma slot_oldest size pos k : pos < size -> k < size -> slot size pos k = pos <-> k = size - 1.
Proof. intros Hp Hk. unfold slot. rewrite mod_wrap by lia. case_decide; lia. Qed.

Lemma refines_new (size : Z) : (0 < size)%Z -> refines (Z.to_nat size) [] (NewRequestHistory size).1.
Proof.
  intros Hs. unfold NewRequestHistory. rewrite decide_False by lia.
  split; cbn [container uuidMap currentPosition length fst]; try lia.
  - by rewrite length_replicate.
  - intros k Hk. by rewrite lookup_replicate_2 by (apply slot_lt; lia).
  - intros u i. rewrite lookup_empty. split; [done|]. intros (r & Hr & _).
    by apply lookup_replicate in Hr as [? _].
Qed.

Section Refinement.
Context (size : nat) (h : list Request) (rh : RequestHistory) (R : refines size h rh).

(** The requests of the specification are the ones the UUID map knows. *)
Lemma known u : (exists i, uuidMap rh !! u = Some i) <-> u ∈ RequestId <$> h.
Proof.
  rewrite list_elem_of_fmap. split.
  - intros [i Hi]. apply (r_map _ _ _ R) in Hi as (r & Hc & Hr).
    destruct (slot_surj size (currentPosition rh) i (r_pos _ _ _ R)) as (k & Hk & Hs).
    { rewrite <- (r_len _ _ _ R). by eapply lookup_lt_Some. }
    pose proof (r_slots _ _ _ R k Hk) as Hx. rewrite Hs, Hc in Hx. exists r.
    split; [done|]. simplify_eq. by eapply list_elem_of_lookup_2.
  - intros (r & -> & Hr). apply list_elem_of_lookup in Hr as [k Hk].
    assert (Hlt : k < size).
    { pose proof (r_bound _ _ _ R). apply lookup_lt_Some in Hk. lia. }
    exists (slot size (currentPosition rh) k). apply (r_map _ _ _ R). exists r.
    by rewrite (r_slots _ _ _ R k Hlt), Hk.
Qed.

Lemma unknown u : uuidMap rh !! u = None <-> u ∉ RequestId <$> h.
Proof. rewrite <- known, eq_None_not_Some. split; intros H [? ?]; apply H; eauto. Qed.

Lemma create_refines u :
  u ∉ RequestId <$> h ->
  exists rh', Create u rh = Ret (rh', Some (currentPosition rh)) /\
    uuidMap rh' !! u = Some (currentPosition rh) /\ refines size (spec_create size u h) rh'.
Proof.
  intros Hu. apply unknown in Hu. unfold Create. rewrite Hu.
  destruct R as [Hs Hlen Hpos Hb Hslots Hmap]. set (pos := currentPosition rh) in *.
  pose proof (Hslots (size - 1) ltac:(lia)) as Hold. rewrite (proj2 (slot_oldest size pos (size - 1) Hpos ltac:(lia)) eq_refl) in Hold.
  rewrite Hold. eexists. split; [done|]. split; [apply lookup_insert_eq|].
  assert (Hmsg : Messages (match h !! (size - 1) with Some r => Reset r | None => NewRequest end) =
    fresh_messages size h).
  { unfold fresh_messages. destruct (h !! (size - 1)) eqn:E.
    - apply lookup_lt_Some in E. by rewrite decide_False by lia.
    - apply lookup_ge_None in E. by rewrite decide_True by lia. }
  rewrite Hmsg. clear Hmsg. set (new := mkRequest u (fresh_messages size h)).
  split; cbn [container uuidMap currentPosition]; rewrite ?length_insert, ?Hlen; try done.
  - case_decide; lia.
  - unfold spec_create. rewrite length_take. lia.
  - intros k Hk. fold (advance size pos). unfold spec_create. rewrite lookup_take_lt by done.
    destruct k as [|k].
    + rewrite slot_advance_0 by done. by rewrite list_lookup_insert_eq by lia.
    + rewrite slot_advance_S by done. cbn. rewrite list_lookup_insert_ne; [apply Hslots; lia|].
      intros E. symmetry in E. apply slot_oldest in E; lia.
  - intros v i. destruct (decide (i = pos)) as [->|Hi].
    + rewrite list_lookup_insert_eq by lia. destruct (decide (v = u)) as [->|Hv].
      * rewrite lookup_insert_eq. split; [eauto|done].
      * rewrite lookup_insert_ne by done. split; [|intros (r & ? & ?); by simplify_eq].
        destruct (h !! (size - 1)) as [r0|]; rewrite ?lookup_delete_Some; [intros [Hr0 Hv']|intros Hv'];
          apply Hmap in Hv' as (r & Hc & Hr); rewrite Hold in Hc; simplify_eq.
    + rewrite list_lookup_insert_ne by done. destruct (decide (v = u)) as [->|Hv].
      * rewrite lookup_insert_eq. split; [intros; by simplify_eq|]. intros (r & Hc & Hr).
        assert (uuidMap rh !! u = Some i) by (apply Hmap; eauto). congruence.
      * rewrite lookup_insert_ne, <- Hmap by done.
        destruct (h !! (size - 1)) as [r0|]; [|done]. rewrite lookup_delete_Some.
        split; [by intros [_ ?]|]. intros Hv'. split; [|done]. intros <-.
        assert (uuidMap rh !! RequestId r0 = Some pos) by (apply Hmap; eauto). congruence.
Qed.

Lemma add_refines u i msg :
  uuidMap rh !! u = Some i -> refines size (add_to u msg <$> h) (AddMessage i msg rh).
Proof.
  intros Hi. destruct R as [Hs Hlen Hpos Hb Hslots Hmap].
  pose proof (proj1 (Hmap u i) Hi) as (r & Hc & Hr).
  split; cbn [AddMessage container uuidMap currentPosition]; rewrite ?length_alter, ?length_fmap; try done.
  - intros k Hk. rewrite list_lookup_fmap. destruct (decide (i = slot size (currentPosition rh) k)) as [->|Hne].
    + rewrite list_lookup_alter_eq, Hslots by done. rewrite Hslots in Hc by done. simplify_eq.
      rewrite Hc. cbn. unfold add_to. by rewrite decide_True.
    + rewrite list_lookup_alter_ne, Hslots by done. destruct (h !! k) as [q|] eqn:Eq; [|done].
      cbn. unfold add_to. rewrite decide_False; [done|]. intros Hq. apply Hne.
      assert (uuidMap rh !! u = Some (slot size (currentPosition rh) k)) by
        (apply Hmap; exists q; by rewrite Hslots, Eq). congruence.
  - intros v j. rewrite Hmap. destruct (decide (i = j)) as [<-|Hne].
    + rewrite list_lookup_alter_eq, Hc. cbn. split; intros (q & Hq & Hv); simplify_eq; eauto.
    + by rewrite list_lookup_alter_ne.
Qed.

(** *** The iterator *)

Lemma slot_at_refines k :
  k < size -> slot_at rh (Z.of_nat (slot size (currentPosition rh) k)) = Ret (h !! k).
Proof.
  intros Hk. unfold slot_at. rewrite decide_False by lia.
  by rewrite Nat2Z.id, (r_slots _ _ _ R).
Qed.

(** Stepping back from slot [k]. *)
Lemma slot_prev k :
  k < size ->
  (let cur := (Z.of_nat (slot size (currentPosition rh) k) - 1)%Z in
   if decide (cur < 0)%Z then (Z.of_nat (length (container rh)) - 1)%Z else cur) =
  Z.of_nat (slot size (currentPosition rh) (if decide (S k = size) then 0 else S k)).
Proof.
  intros Hk. rewrite (r_len _ _ _ R). pose proof (r_pos _ _ _ R). cbn zeta. unfold slot.
  rewrite !mod_wrap by (repeat case_decide; lia). repeat case_decide; lia.
Qed.

Lemma slot_first k :
  k < size -> slot size (currentPosition rh) k = slot size (currentPosition rh) 0 <-> k = 0.
Proof.
  intros Hk. pose proof (r_pos _ _ _ R). unfold slot. rewrite !mod_wrap by lia.
  repeat case_decide; lia.
Qed.

Lemma all_loop_refines fuel k :
  k < size -> size - k <= fuel ->
  all_loop fuel rh (mkIterator true (Z.of_nat (slot size (currentPosition rh) 0))
                      (Z.of_nat (slot size (currentPosition rh) k))) = Ret (Some (drop (S k) h)).
Proof.
  revert k. induction fuel as [|fuel IH]; intros k Hk Hf; [lia|]. cbn [all_loop].
  unfold Next. cbn [started current it_start]. pose proof (slot_prev k Hk) as Hprev. cbn zeta in Hprev.
  rewrite Hprev. destruct (decide (S k = size)) as [He|Hne].
  - rewrite decide_True by done. cbn. rewrite drop_ge; [done|]. pose proof (r_bound _ _ _ R). lia.
  - rewrite decide_False; last first.
    { intros E. apply Nat2Z.inj in E. apply slot_first in E; lia. }
    rewrite slot_at_refines by lia. cbn [go_bind fst snd]. destruct (h !! S k) as [r|] eqn:Er.
    + rewrite IH by lia. cbn. by rewrite (drop_S _ _ _ Er).
    + apply lookup_ge_None in Er. by rewrite drop_ge.
Qed.

Lemma All_refines fuel : size < fuel -> All fuel rh = Ret (Some h).
Proof.
  intros Hf. pose proof (r_pos _ _ _ R) as Hp. pose proof (r_size _ _ _ R) as Hs.
  destruct fuel as [|fuel]; [lia|]. unfold All, Iterator, NewRequestHistoryIterator.
  assert (E : (if decide (Z.of_nat (currentPosition rh) - 1 < 0)%Z
    then (Z.of_nat (length (container rh)) + (Z.of_nat (currentPosition rh) - 1))%Z
    else (Z.of_nat (currentPosition rh) - 1)%Z) = Z.of_nat (slot size (currentPosition rh) 0)).
  { rewrite (r_len _ _ _ R). unfold slot. rewrite mod_wrap by lia. repeat case_decide; lia. }
  rewrite E. cbn [all_loop]. unfold Next. cbn [started current it_start].
  rewrite slot_at_refines by lia. cbn [go_bind fst snd].
  destruct (h !! 0) as [r|] eqn:Er; [|by destruct h].
  rewrite all_loop_refines by lia. cbn. by destruct h; simplify_eq/=; rewrite ?drop_0.
Qed.

End Refinement.

Lemma handle_refines size h rh msg u :
  refines size h rh ->
  exists rh', HandleLogRecord msg u rh = Ret rh' /\ refines size (spec_handle size msg u h) rh'.
Proof.
  intros R. unfold HandleLogRecord, spec_handle. case_decide; [by exists rh|].
  destruct u as [u|]; [|by exists rh].
  unfold GetRequestByUuid. destruct (uuidMap rh !! u) as [i|] eqn:Ei.
  - pose proof (proj1 (r_map _ _ _ R u i) Ei) as (r & Hc & _). rewrite Hc. cbn [go_bind].
    eexists. split; [done|]. rewrite decide_True by (apply (known _ _ _ R); eauto).
    by apply add_refines.
  - cbn [go_bind]. apply (unknown _ _ _ R) in Ei.
    destruct (create_refines _ _ _ R u Ei) as (rh1 & Hc & Hm & R1).
    rewrite Hc. cbn [go_bind fst snd]. eexists. split; [done|]. rewrite decide_False by done.
    by apply add_refines.
Qed.

(** ** Theorems *)

(** Handling a sequence of records. *)
Fixpoint handle_all (records : list (string * option string)) (rh : RequestHistory) : go RequestHistory :=
  match records with
  | [] => Ret rh
  | (msg, u) :: records' => (rh' <-! HandleLogRecord msg u rh ;; handle_all records' rh')%go
  end.

(** ** Specification

    The most recent requests, the newest first, each one with the messages that
    were logged for it since it came in. *)
Definition recent_handle (size : nat) (msg : string) (u : option string) (h : list Request) : list Request :=
  if decide (msg = EmptyString) then h
  else match u with
  | None => h
  | Some u => add_to u msg <$> (if decide (u ∈ RequestId <$> h) then h else take size (mkRequest u [] :: h))
  end.

Definition recent (size : nat) (records : list (string * option string)) : list Request :=
  fold_left (fun h '(msg, u) => recent_handle size msg u h) records [].

(** The request of the history for one of the specification: the same messages,
    after 100 empty ones if it recycles a slot. *)
Definition padded (r i : Request) : Prop :=
  RequestId r = RequestId i /\ (Messages r = Messages i \/ Messages r = replicate 100 EmptyString ++ Messages i).

Definition lists (size : nat) (l h : list Request) : Prop := Forall2 padded l h /\ (length h < size -> l = h).

Lemma padded_add u msg r i : padded r i -> padded (add_to u msg r) (add_to u msg i).
Proof.
  intros [Hid Hm]. unfold add_to. rewrite Hid. case_decide; [|done]. split; [done|]. cbn.
  destruct Hm as [->| ->]; [by left|right; by rewrite <- app_assoc].
Qed.

Lemma padded_ids l h : Forall2 padded l h -> RequestId <$> l = RequestId <$> h.
Proof. induction 1 as [|r i l h [Hid _] _ IH]; [done|]. cbn. by rewrite Hid, IH. Qed.

Lemma lists_handle size msg u l h : lists size l h -> lists size (spec_handle size msg u l) (recent_handle size msg u h).
Proof.
  intros [Hp He]. unfold spec_handle, recent_handle. case_decide; [done|]. destruct u as [u|]; [|done].
  assert (Hadd : forall l h, lists size l h -> lists size (add_to u msg <$> l) (add_to u msg <$> h)).
  { intros l' h' [Hp' He']. split; [apply Forall2_fmap; eapply Forall2_impl; [exact Hp'|]; intros; by apply padded_add|].
    rewrite length_fmap. intros Hlt. by rewrite (He' Hlt). }
  apply Hadd. rewrite (padded_ids _ _ Hp). case_decide; [done|]. unfold spec_create, fresh_messages.
  rewrite (Forall2_length _ _ _ Hp). split.
  - apply Forall2_take. constructor; [|done]. split; [done|]. case_decide; [by left|right; by rewrite app_nil_r].
  - rewrite length_take. cbn [length]. intros Hlt. rewrite decide_True by lia. by rewrite He by lia.
Qed.


Definition demo_records : list (string * option string) :=
  [("m1", Some "a"); ("m2", Some "b"); ("m3", Some "a"); ("m4", None); ("m5", Some "c")]%string.


(** The request c recycles the slot of a. *)
Example recycled_request :
  (rh <-! handle_all demo_records (NewRequestHistory 2).1 ;; All 3 rh)%go =
  Ret (Some [mkRequest "c" (replicate 100 EmptyString ++ ["m5"]); mkRequest "b" ["m2"]])%string.
Proof. vm_compute. reflexivity. Qed.
