(* ===== verification/Interval.v ===== *)
(** Durations and periodic jobs: NormalizeTime
    (src/go/util/normalize_time.go) and the scheduler of
    src/go/interval/interval.go.  Durations and clock readings are int64
    nanoseconds. *)
From S2P Require Import Prelude Regex.
From Stdlib Require Import ZArith Lia Ascii.
From stdpp Require Import base gmap strings list relations.

Open Scope Z_scope.

(** ** NormalizeTime *)

Definition Second : Z := 1000000000.
Definition Minute : Z := 60 * Second.
Definition Hour : Z := 60 * Minute.

Definition unit_char (c : Ascii.ascii) : bool :=
  is_char "s" c || is_char "m" c || is_char "h" c || is_char "D" c || is_char "W" c ||
  is_char "M" c || is_char "Y" c.

(** [(\d+)([smhDWMY]* )] without the space. *)
Definition normalizeTimeRe : re := Seq (Grp 1 (Plus (Chr is_digit))) (Grp 2 (Star (Chr unit_char))).

(** [strconv.ParseInt(s, 10, 64)] of a string of digits. *)
Definition ParseInt (s : string) : Z * error :=
  match digits 0 s with
  | Some v => if decide (v <= max_int) then (v, None)
              else (max_int, Some "strconv.ParseInt: value out of range"%string)
  | None => (0, Some "strconv.ParseInt: invalid syntax"%string)
  end.

(** The factor of a unit, in the order of the multiplications of the source;
    [None]: the default case. *)
Definition unit_factors (u : string) : option (list Z) :=
  if decide (u = "s"%string \/ u = EmptyString) then Some [Second]
  else if decide (u = "m"%string) then Some [Minute]
  else if decide (u = "h"%string) then Some [Hour]
  else if decide (u = "D"%string) then Some [Hour; 24]
  else if decide (u = "W"%string) then Some [Hour; 24; 7]
  else if decide (u = "M"%string) then Some [Hour; 24; 30]
  else if decide (u = "Y"%string) then Some [Hour; 24; 365]
  else None.

Definition NormalizeTime (spec : string) : Z * error :=
  match re_find normalizeTimeRe spec with
  | None => (0, Some (spec +:+ " is not valid")%string)
  | Some matches =>
      match ParseInt (default EmptyString (matches !! 1%nat)) with
      | (_, Some err) => (0, Some err)
      | (i, None) =>
          match unit_factors (default EmptyString (matches !! 2%nat)) with
          | None => (0, None)
          | Some fs => (fold_left (fun d f => i64 (d * f)) fs i, None)
          end
      end
  end.

(** ** Periodic jobs *)

(** recurrent: [r_started] is the clock reading of the start. *)
Record recurrent := mkRecurrent {
  delay : Z; r_started : Z; r_count : Z; r_done : bool; randomize : bool
}.

(** nextRun at clock reading [now]; [jitter n] is [rand.Int63n(n)], which
    panics for [n <= 0]. *)
Definition nextRun (now : Z) (jitter : Z -> Z) (r : recurrent) : recurrent * go (Z * error) :=
  if decide (delay r < 0) then (r, Ret (0, Some "invalid delay"%string))
  else if negb (r_done r) then
    (mkRecurrent (delay r) (r_started r) (r_count r) true (randomize r), Ret (0, None))
  else
    let next (r : recurrent) :=
      let offset := i64 (i64 (r_count r * delay r) - (now - r_started r)) in
      (r, Ret (i64 (delay r + offset), None)) in
    if randomize r then
      let r' := mkRecurrent (delay r) (r_started r) (r_count r) (r_done r) false in
      if decide (delay r <= 0) then (r', Panic "invalid argument to Int63n")
      else next (mkRecurrent (delay r) (r_started r - jitter (delay r)) (r_count r) (r_done r) false)
    else next r.

(** Every, with what time.ParseDuration answered. *)
Definition Every (now : Z) (parsed : option Z) : option recurrent :=
  match parsed with
  | None => None
  | Some t => Some (mkRecurrent t now 0 false false)
  end.

Definition Randomize (r : recurrent) : recurrent :=
  mkRecurrent (delay r) (r_started r) (r_count r) true true.

(** *** runJob

    Each run of a job is a goroutine; the points of runJob between accesses to
    the shared job. *)
Inductive job_pc :=
  | Begin       (** before the increment of count *)
  | Test        (** at IsRunning() and doRun() *)
  | Mark        (** at setRunning(true) *)
  | InFn        (** in job.fn() *)
  | Unmark      (** at setRunning(false) *)
  | Over.

Record job := mkJob { j_count : Z; isRunning : bool; runs : list job_pc }.

Definition job_goto (t : nat) (p : job_pc) (j : job) : job :=
  mkJob (j_count j) (isRunning j) (<[t := p]> (runs j)).

Inductive job_step (t : nat) : job -> job -> Prop :=
  | j_begin j : runs j !! t = Some Begin ->
      job_step t j (mkJob (i64 (j_count j + 1)) (isRunning j) (<[t := Test]> (runs j)))
  | j_skip j : runs j !! t = Some Test -> job_step t j (job_goto t Over j)
  | j_go j : runs j !! t = Some Test -> isRunning j = false -> job_step t j (job_goto t Mark j)
  | j_mark j : runs j !! t = Some Mark ->
      job_step t j (mkJob (j_count j) true (<[t := InFn]> (runs j)))
  | j_fn j : runs j !! t = Some InFn -> job_step t j (job_goto t Unmark j)
  | j_unmark j : runs j !! t = Some Unmark ->
      job_step t j (mkJob (j_count j) false (<[t := Over]> (runs j))).

(** ** Lemmas *)

Lemma digits_all acc d v : digits acc d = Some v -> all_chars is_digit d = true.
Proof.
  revert acc. induction d as [|c d IH]; intros acc H; [done|]. cbn in *. unfold digit in H.
  case_decide as Hc; [|done]. rewrite (IH _ H), andb_true_r. unfold is_digit, in_class.
  change (Ascii.nat_of_ascii "0") with 48%nat. change (Ascii.nat_of_ascii "9") with 57%nat.
  apply andb_true_iff. split; apply Nat.leb_le; lia.
Qed.

Lemma find_duration d u v :
  d <> EmptyString -> digits 0 d = Some v -> all_chars unit_char u = true ->
  re_find normalizeTimeRe (d +:+ u) = Some (<[2%nat := u]> (<[1%nat := d]> ∅)).
Proof.
  intros Hne Hd Hu. pose proof (digits_all _ _ _ Hd) as Ha.
  assert (Hm : re_match normalizeTimeRe (d +:+ u) ∅ (fun _ caps => Some caps) =
               Some (<[2%nat := u]> (<[1%nat := d]> ∅))).
  { destruct d as [|c d]; [done|]. cbn in Ha. apply andb_true_iff in Ha as [Hc Ha].
    change (String c d +:+ u)%string with (String c (d +:+ u)).
    unfold normalizeTimeRe. cbn [re_match rep_min]. rewrite Hc.
    apply rep_opt_run; [done| |cbn [String.length]; pose proof (str_length_app d u); lia|].
    - destruct u as [|e u]; [done|]. cbn in Hu. apply andb_true_iff in Hu as [He _].
      cbn. unfold unit_char, is_char in He. rewrite !orb_true_iff, !bool_decide_eq_true in He.
      destruct He as [[[[[[-> | ->]| ->]| ->]| ->]| ->]| ->]; done.
    - change (String c (d +:+ u)) with (String c d +:+ u)%string. rewrite consumed_app.
      rewrite <- (str_app_nil_r u) at 2. apply rep_opt_run; [done|done|lia|].
      rewrite <- (str_app_nil_r u) at 1. by rewrite consumed_app. }
  destruct (d +:+ u)%string; cbn [re_find]; by rewrite Hm.
Qed.

(** The nanoseconds of one unit. *)
Definition unit_value (fs : list Z) : Z := foldr Z.mul 1 fs.

Lemma fold_i64 fs a :
  fs <> [] -> fold_left (fun d f => i64 (d * f)) fs a = i64 (a * unit_value fs).
Proof.
  assert (H : forall fs a, fold_left (fun d f => i64 (d * f)) fs (i64 a) = i64 (a * unit_value fs)).
  { clear. induction fs as [|f fs IH]; intros a; cbn [fold_left unit_value foldr].
    - by rewrite Z.mul_1_r.
    - rewrite wrapS_mul_l, IH by lia. f_equal. unfold unit_value. lia. }
  destruct fs as [|f fs]; [done|]. intros _. cbn [fold_left]. rewrite H. f_equal.
  cbn [unit_value foldr]. unfold unit_value. lia.
Qed.

(** ** Theorems *)

(** NormalizeTime of a number and a unit is that many units in
    nanoseconds, at the width of a Duration; a run of several unit letters
    gives a zero duration without an error, and a number beyond int64 an error. *)
Theorem NormalizeTime_exact d u v :
  d <> EmptyString -> digits 0 d = Some v -> all_chars unit_char u = true ->
  (v <= max_int -> forall fs, unit_factors u = Some fs ->
     NormalizeTime (d +:+ u) = (i64 (v * unit_value fs), None)) /\
  (v <= max_int -> unit_factors u = None -> NormalizeTime (d +:+ u) = (0, None)) /\
  (max_int < v -> (NormalizeTime (d +:+ u)).2 <> None).
Proof.
  intros Hne Hd Hu. unfold NormalizeTime. rewrite (find_duration d u v Hne Hd Hu).
  change (default EmptyString ((<[2%nat := u]> (<[1%nat := d]> ∅) : captures) !! 1%nat)) with d.
  change (default EmptyString ((<[2%nat := u]> (<[1%nat := d]> ∅) : captures) !! 2%nat)) with u.
  unfold ParseInt. rewrite Hd.
  split_and!.
  - intros Hv fs Hfs. rewrite decide_True, Hfs by done. rewrite fold_i64; [done|].
    unfold unit_factors in Hfs. repeat case_decide; by simplify_eq.
  - intros Hv Hn. by rewrite decide_True, Hn by done.
  - intros Hv. by rewrite decide_False by lia.
Qed.

Lemma NormalizeTime_exact_witness :
  NormalizeTime "12h" = (i64 (12 * unit_value [Hour]), None) /\ NormalizeTime "3sm" = (0, None).
Proof.
  split.
  - destruct (NormalizeTime_exact "12" "h" 12 ltac:(discriminate) ltac:(reflexivity) ltac:(reflexivity))
      as (H & _ & _). apply H; [unfold max_int; lia|reflexivity].
  - destruct (NormalizeTime_exact "3" "sm" 3 ltac:(discriminate) ltac:(reflexivity) ltac:(reflexivity))
      as (_ & H & _). apply H; [unfold max_int; lia|reflexivity].
Defined.

(** The scheduler does not drift: a job that ran [r_count] times is woken at
    the clock reading start plus [r_count + 1] delays, however long the runs
    took, as long as the readings fit in int64; and a randomised job with a
    zero delay panics. *)
Theorem nextRun_does_not_drift now jitter r :
  r_done r = true -> 0 <= delay r ->
  (randomize r = false ->
     is_s 64 (r_count r * delay r) -> is_s 64 (r_count r * delay r - (now - r_started r)) ->
     is_s 64 (delay r + (r_count r * delay r - (now - r_started r))) ->
     exists next, nextRun now jitter r = (r, Ret (next, None)) /\
       now + next = r_started r + (r_count r + 1) * delay r) /\
  (randomize r = true -> delay r = 0 -> exists msg, (nextRun now jitter r).2 = Panic msg).
Proof.
  intros Hd H0. unfold nextRun. rewrite decide_False, Hd by lia. cbn [negb]. split.
  - intros -> H1 H2 H3. rewrite (wrapS_small 64 (r_count r * delay r)), (wrapS_small 64 (_ - _)),
      (wrapS_small 64 (_ + _)) by (lia || done). eexists. split; [done|]. lia.
  - intros -> Hz. rewrite decide_True by lia. by eexists.
Qed.

Lemma nextRun_does_not_drift_witness :
  exists next, nextRun 170 (fun _ => 0) (mkRecurrent 50 100 1 true false) =
      (mkRecurrent 50 100 1 true false, Ret (next, None)) /\
    170 + next = 100 + (1 + 1) * 50.
Proof.
  destruct (nextRun_does_not_drift 170 (fun _ => 0) (mkRecurrent 50 100 1 true false)) as [H _];
    [reflexivity|simpl; lia|].
  apply H; [reflexivity|unfold is_s; simpl; lia..].
Defined.

(** Runs of a job can overlap: the test of isRunning and its setting are
    two critical sections, and two runs started one after the other can both
    pass the test and both be in the job's function. *)
Theorem runs_can_overlap :
  rtc (fun a b => exists t, job_step t a b) (mkJob 0 false [Begin; Begin]) (mkJob 2 true [InFn; InFn]).
Proof.
  eapply rtc_l; [exists 0%nat; by apply j_begin|]. eapply rtc_l; [exists 1%nat; by apply j_begin|].
  eapply rtc_l; [exists 0%nat; by apply j_go|]. eapply rtc_l; [exists 1%nat; by apply j_go|].
  eapply rtc_l; [exists 0%nat; by apply j_mark|]. eapply rtc_l; [exists 1%nat; by apply j_mark|].
  reflexivity.
Qed.
