(* ===== verification/Aaa.v ===== *)
(** Authentication and authorization of the unified API
    (src/go/api-frontend/aaa and src/go/caddy/api-aaa): tokens and their
    lifetime, the login, the table of administrative roles, and the gate in
    front of every request.

    The token store is the third-party go-cache with expiry: [TimedCache] has
    the two operations used and the laws of its documentation.  Clock readings
    are numbers; every operation reads the clock once. *)
From S2P Require Import Prelude NetIP DhcpWire TimedCache.
From Stdlib Require Import ZArith Lia Ascii.
From stdpp Require Import base gmap strings list.

Open Scope Z_scope.
Open Scope string_scope.

(** ** Data *)

Definition AccessAllTenants : Z := 0.
Definition AccessNoTenants : Z := -1.

Record Tenant := mkTenant { t_Name : string; t_Portal : string; t_Domain : string; t_Id : Z }.

(** AdminRoles is a set: the source uses the keys of a map. *)
Record TokenInfo := mkTokenInfo {
  AdminRoles : gset string; ti_Tenant : Tenant; Username : string; CreatedAt : Z
}.

(** ** The table of roles *)

Record adminRoleMapping := mapping { prefix : string; role : string; roleSuffix : string }.

Definition apiPrefix : string := "/api/v1".
Definition apiPrefixV1_1 : string := "/api/v1.1".
Definition configApiPrefix : string := apiPrefix +:+ "/config".
Definition ALLOW_ANY : string := "*".

Definition pathAdminRolesMap : list adminRoleMapping :=
  [
   mapping (apiPrefix +:+ "/current_user") ALLOW_ANY EmptyString;
   mapping (apiPrefix +:+ "/radius_attributes") ALLOW_ANY EmptyString;
   mapping (apiPrefix +:+ "/preference/") ALLOW_ANY EmptyString;
   mapping (apiPrefix +:+ "/preferences") ALLOW_ANY EmptyString;
   mapping (apiPrefix +:+ "/auth_log/") "NODES" EmptyString;
   mapping (apiPrefix +:+ "/auth_logs") "NODES" EmptyString;
   mapping (apiPrefix +:+ "/class/") "SECURITY_EVENTS" EmptyString;
   mapping (apiPrefix +:+ "/classes") "SECURITY_EVENTS" EmptyString;
   mapping (apiPrefix +:+ "/ip4log/") "NODES" EmptyString;
   mapping (apiPrefix +:+ "/ip4logs") "NODES" EmptyString;
   mapping (apiPrefix +:+ "/ip6log/") "NODES" EmptyString;
   mapping (apiPrefix +:+ "/ip6logs") "NODES" EmptyString;
   mapping (apiPrefix +:+ "/locationlog/") "NODES" EmptyString;
   mapping (apiPrefix +:+ "/locationlogs") "NODES" EmptyString;
   mapping (apiPrefix +:+ "/nodes/network_graph") "NODES" "_READ";
   mapping (apiPrefix +:+ "/node/") "NODES" EmptyString;
   mapping (apiPrefix +:+ "/nodes") "NODES" EmptyString;
   mapping (apiPrefix +:+ "/node_categories") "NODES" EmptyString;
   mapping (apiPrefix +:+ "/node_category/") "NODES" EmptyString;
   mapping (apiPrefix +:+ "/security_event/") "SECURITY_EVENTS" EmptyString;
   mapping (apiPrefix +:+ "/security_events") "SECURITY_EVENTS" EmptyString;
   mapping (apiPrefix +:+ "/user/") "USERS" EmptyString;
   mapping (apiPrefix +:+ "/users") "USERS" EmptyString;
   mapping (apiPrefix +:+ "/fingerbank") "FINGERBANK" EmptyString;
   mapping (apiPrefix +:+ "/service/") "SERVICES" EmptyString;
   mapping (apiPrefix +:+ "/services") "SERVICES" EmptyString;
   mapping (apiPrefix +:+ "/reports/") "REPORTS" EmptyString;
   mapping (apiPrefixV1_1 +:+ "/reports") "REPORTS" EmptyString;
   mapping (apiPrefixV1_1 +:+ "/report/") "REPORTS" EmptyString;
   mapping (apiPrefix +:+ "/dynamic_reports") "REPORTS" EmptyString;
   mapping (apiPrefix +:+ "/dynamic_report/") "REPORTS" EmptyString;
   mapping (apiPrefix +:+ "/radius_audit_log/") "RADIUS_LOG" EmptyString;
   mapping (apiPrefix +:+ "/dhcp_option82s") "DHCP_OPTION_82" EmptyString;
   mapping (apiPrefix +:+ "/dhcp_option82/") "DHCP_OPTION_82" EmptyString;
   mapping (apiPrefix +:+ "/radius_audit_logs") "RADIUS_LOG" EmptyString;
   mapping (apiPrefix +:+ "/dns_audit_logs") "DNS_LOG" EmptyString;
   mapping (apiPrefix +:+ "/dns_audit_log/") "DNS_LOG" EmptyString;
   mapping (apiPrefix +:+ "/admin_api_audit_logs") "ADMIN_API_AUDIT_LOG" EmptyString;
   mapping (apiPrefix +:+ "/admin_api_audit_log/") "ADMIN_API_AUDIT_LOG" EmptyString;
   mapping (configApiPrefix +:+ "/admin_role/") "ADMIN_ROLES" EmptyString;
   mapping (configApiPrefix +:+ "/admin_roles") "ADMIN_ROLES" EmptyString;
   mapping (configApiPrefix +:+ "/base/") "CONFIGURATION_MAIN" EmptyString;
   mapping (configApiPrefix +:+ "/bases") "CONFIGURATION_MAIN" EmptyString;
   mapping (configApiPrefix +:+ "/billing_tier/") "BILLING_TIER" EmptyString;
   mapping (configApiPrefix +:+ "/billing_tiers") "BILLING_TIER" EmptyString;
   mapping (configApiPrefix +:+ "/certificate/") "CONFIGURATION_MAIN" EmptyString;
   mapping (configApiPrefix +:+ "/certificates") "CONFIGURATION_MAIN" EmptyString;
   mapping (configApiPrefix +:+ "/checkup") ALLOW_ANY EmptyString;
   mapping (configApiPrefix +:+ "/cluster_status") "SERVICES" EmptyString;
   mapping (configApiPrefix +:+ "/connection_profile/") "CONNECTION_PROFILES" EmptyString;
   mapping (configApiPrefix +:+ "/connection_profiles") "CONNECTION_PROFILES" EmptyString;
   mapping (configApiPrefix +:+ "/event_logger/") "EVENT_LOGGERS" EmptyString;
   mapping (configApiPrefix +:+ "/event_loggers") "EVENT_LOGGERS" EmptyString;
   mapping (configApiPrefix +:+ "/self_service/") "SELF_SERVICE" EmptyString;
   mapping (configApiPrefix +:+ "/self_services") "SELF_SERVICE" EmptyString;
   mapping (configApiPrefix +:+ "/domain/") "DOMAIN" EmptyString;
   mapping (configApiPrefix +:+ "/domains") "DOMAIN" EmptyString;
   mapping (configApiPrefix +:+ "/fingerbank_setting/") "FINGERBANK" EmptyString;
   mapping (configApiPrefix +:+ "/fingerbank_settings") "FINGERBANK" EmptyString;
   mapping (configApiPrefix +:+ "/firewall/") "FIREWALL_SSO" EmptyString;
   mapping (configApiPrefix +:+ "/firewalls") "FIREWALL_SSO" EmptyString;
   mapping (configApiPrefix +:+ "/floating_device/") "FLOATING_DEVICES" EmptyString;
   mapping (configApiPrefix +:+ "/floating_devices") "FLOATING_DEVICES" EmptyString;
   mapping (configApiPrefix +:+ "/interface/") "INTERFACES" EmptyString;
   mapping (configApiPrefix +:+ "/interfaces") "INTERFACES" EmptyString;
   mapping (configApiPrefix +:+ "/l2_network/") "INTERFACES" EmptyString;
   mapping (configApiPrefix +:+ "/l2_networks") "INTERFACES" EmptyString;
   mapping (configApiPrefix +:+ "/maintenance_task/") "PFCRON" EmptyString;
   mapping (configApiPrefix +:+ "/maintenance_tasks") "PFCRON" EmptyString;
   mapping (configApiPrefix +:+ "/pki_provider/") "PKI_PROVIDER" EmptyString;
   mapping (configApiPrefix +:+ "/pki_providers") "PKI_PROVIDER" EmptyString;
   mapping (configApiPrefix +:+ "/portal_module/") "PORTAL_MODULE" EmptyString;
   mapping (configApiPrefix +:+ "/pki/") "PKI" EmptyString;
   mapping (configApiPrefix +:+ "/portal_modules") "PORTAL_MODULE" EmptyString;
   mapping (configApiPrefix +:+ "/provisioning") "PROVISIONING" EmptyString;
   mapping (configApiPrefix +:+ "/provisionings/") "PROVISIONING" EmptyString;
   mapping (configApiPrefix +:+ "/realm/") "REALM" EmptyString;
   mapping (configApiPrefix +:+ "/realms") "REALM" EmptyString;
   mapping (configApiPrefix +:+ "/role/") "USERS_ROLES" EmptyString;
   mapping (configApiPrefix +:+ "/roles") "USERS_ROLES" EmptyString;
   mapping (configApiPrefix +:+ "/routed_network/") "INTERFACES" EmptyString;
   mapping (configApiPrefix +:+ "/routed_networks") "INTERFACES" EmptyString;
   mapping (configApiPrefix +:+ "/scan/") "SCAN" EmptyString;
   mapping (configApiPrefix +:+ "/scans") "SCAN" EmptyString;
   mapping (configApiPrefix +:+ "/security_event/") "SECURITY_EVENTS" EmptyString;
   mapping (configApiPrefix +:+ "/security_events") "SECURITY_EVENTS" EmptyString;
   mapping (configApiPrefix +:+ "/source/") "USERS_SOURCES" EmptyString;
   mapping (configApiPrefix +:+ "/sources") "USERS_SOURCES" EmptyString;
   mapping (configApiPrefix +:+ "/switch/") "SWITCHES" EmptyString;
   mapping (configApiPrefix +:+ "/switch_group/") "SWITCHES" EmptyString;
   mapping (configApiPrefix +:+ "/switch_groups") "SWITCHES" EmptyString;
   mapping (configApiPrefix +:+ "/switches") "SWITCHES" EmptyString;
   mapping (configApiPrefix +:+ "/syslog_forwarder/") "SYSLOG" EmptyString;
   mapping (configApiPrefix +:+ "/syslog_forwarders") "SYSLOG" EmptyString;
   mapping (configApiPrefix +:+ "/syslog_parser/") "PFDETECT" EmptyString;
   mapping (configApiPrefix +:+ "/syslog_parsers") "PFDETECT" EmptyString;
   mapping (configApiPrefix +:+ "/traffic_shaping_policies") "TRAFFIC_SHAPING" EmptyString;
   mapping (configApiPrefix +:+ "/traffic_shaping_policy/") "TRAFFIC_SHAPING" EmptyString
  ].

Definition allTenantsPaths : list string :=
  [configApiPrefix +:+ "/security_events"; configApiPrefix +:+ "/security_event/";
   configApiPrefix +:+ "/base/guests_admin_registration"; configApiPrefix +:+ "/admin_roles"].

Definition multiTenantDenyPaths : list string :=
  [apiPrefix +:+ "/queues"; apiPrefix +:+ "/services"; apiPrefix +:+ "/service"].

Definition methodSuffixMap (method : string) : string :=
  if decide (method = "GET") then "_READ"
  else if decide (method = "OPTIONS") then "_READ"
  else if decide (method = "POST") then "_CREATE"
  else if decide (method = "PUT") then "_UPDATE"
  else if decide (method = "PATCH") then "_UPDATE"
  else if decide (method = "DELETE") then "_DELETE"
  else EmptyString.

Definition publicPaths : list string :=
  [apiPrefix +:+ "/translations"; apiPrefix +:+ "/translation/"; apiPrefix +:+ "/configurator/"].

Definition IsPathPublic (path : string) : bool := existsb (HasPrefix path) publicPaths.

Definition InvalidTokenInfoErr : string := "Invalid token info".

Section Aaa.
(** The multi-tenant mode found at start, the actions the configuration gives
    to an administrative role, and the iteration order of a set of roles. *)
Context (multipleTenants : bool) (roleActions : string -> gset string).
Context (iter : gset string -> list string).

Definition IsTenantMaster (ti : TokenInfo) : bool :=
  negb multipleTenants || (multipleTenants && bool_decide (t_Id (ti_Tenant ti) = AccessAllTenants)).

Definition AdminActions (ti : TokenInfo) : gset string :=
  let actions := set_fold (fun r acc => roleActions r ∪ acc) ∅ (AdminRoles ti) in
  if IsTenantMaster ti then {[ "TENANT_MASTER" ]} ∪ actions else actions.

(** *** Authorization *)

(** The loop over pathAdminRolesMap: base role and suffix. *)
Fixpoint find_role (path : string) (l : list adminRoleMapping) : string * string :=
  match l with
  | [] => (EmptyString, EmptyString)
  | o :: l' =>
      if HasPrefix path (prefix o) && negb (bool_decide (role o = EmptyString))
      then (role o, roleSuffix o) else find_role path l'
  end.

Definition isAuthorizedAdminActions (method path : string) (roles : gset string) : bool * error :=
  let '(baseAdminRole, suffix) := find_role path pathAdminRolesMap in
  let baseAdminRole := if decide (baseAdminRole = EmptyString) then "SYSTEM" else baseAdminRole in
  let suffix := if decide (suffix = EmptyString) then methodSuffixMap method else suffix in
  if decide (suffix = EmptyString) then
    (false, Some ("Impossible to find admin role suffix for unknown method " +:+ method))
  else
    let suffix := if decide (method = "POST" /\ HasSuffix path "/search" = true) then "_READ" else suffix in
    if decide (baseAdminRole = ALLOW_ANY) then (true, None)
    else
      let adminRole := baseAdminRole +:+ suffix in
      if decide (adminRole ∈ roles) then (true, None)
      else (false, Some ("Unauthorized access, lacking the " +:+ adminRole +:+ " administrative role")).

Definition isAuthorizedTenantId (requestTenantId tokenTenantId : Z) : bool * error :=
  if decide (tokenTenantId = AccessNoTenants) then
    (false, Some "Token is prohibited from accessing data from any tenant")
  else if decide (tokenTenantId = AccessAllTenants) then (true, None)
  else if decide (requestTenantId = tokenTenantId) then (true, None)
  else (false, Some ("Token is not allowed to access this tenant " +:+ Itoa requestTenantId +:+
                     " and only has access to tenant " +:+ Itoa tokenTenantId)).

Definition isAuthorizedConfigNamespace (method path : string) (ti : TokenInfo) : bool * error :=
  if negb (HasPrefix path configApiPrefix) then (true, None)
  else if negb (IsTenantMaster ti) then
    if decide (method = "GET" \/ method = "OPTIONS") then
      if existsb (HasPrefix path) allTenantsPaths then (true, None)
      else (false, Some "Token is not allowed to access the configuration namespace because it is scoped to a single tenant.")
    else (false, Some "Token is not allowed to access the configuration namespace because it is scoped to a single tenant.")
  else (true, None).

Definition isAuthorizedPathMultiTenant (path : string) (ti : TokenInfo) : bool * error :=
  if negb (IsTenantMaster ti) then
    if existsb (HasPrefix path) multiTenantDenyPaths then
      (false, Some "Token is not allowed to access this namespace because it is scoped to a single tenant.")
    else (true, None)
  else (true, None).

Definition failed (r : bool * error) : bool := negb r.1 || bool_decide (r.2 <> None).

Definition isAuthorizedMultiTenant (method path : string) (ti : TokenInfo) : bool * error :=
  let r := isAuthorizedConfigNamespace method path ti in
  if failed r then r
  else let r := isAuthorizedPathMultiTenant path ti in
  if failed r then r else (true, None).

Definition IsAuthorized (method path : string) (tenantId : Z) (tokenInfo : option TokenInfo) : bool * error :=
  match tokenInfo with
  | None => (false, Some InvalidTokenInfoErr)
  | Some ti =>
      let r := isAuthorizedAdminActions method path (AdminActions ti) in
      if failed r then r
      else let r := isAuthorizedTenantId tenantId (t_Id (ti_Tenant ti)) in
      if failed r then r
      else let r := isAuthorizedMultiTenant method path ti in
      if failed r then r else (true, None)
  end.

(** *** Tokens *)

Context {C : Type -> Type} {T : TimedCache C}.

(** MemTokenBackend: the default expiration of the store, the maximum age of a
    token, and the store. *)
Record MemTokenBackend := mkMem { expiration : Z; maxExpiration : Z; store : C TokenInfo }.

Definition TokenIsValid (now : Z) (token : string) (mtb : MemTokenBackend) : bool :=
  match tc_get now token (store mtb) with Some _ => true | None => false end.

Definition TokenInfoForToken (now : Z) (token : string) (mtb : MemTokenBackend) : option TokenInfo * Z :=
  match tc_get now token (store mtb) with
  | Some (ti, e) =>
      if decide (now - CreatedAt ti > maxExpiration mtb) then (None, 0)
      else if decide (e > CreatedAt ti + maxExpiration mtb) then (Some ti, CreatedAt ti + maxExpiration mtb)
      else (Some ti, e)
  | None => (None, 0)
  end.

Definition TenantIdForToken (now : Z) (token : string) (mtb : MemTokenBackend) : Z :=
  match (TokenInfoForToken now token mtb).1 with
  | Some ti => t_Id (ti_Tenant ti)
  | None => AccessNoTenants
  end.

Definition AdminActionsForToken (now : Z) (token : string) (mtb : MemTokenBackend) : gset string :=
  match (TokenInfoForToken now token mtb).1 with Some ti => AdminActions ti | None => ∅ end.

Definition set_store (s : C TokenInfo) (mtb : MemTokenBackend) : MemTokenBackend :=
  mkMem (expiration mtb) (maxExpiration mtb) s.

Definition StoreTokenInfo (now : Z) (token : string) (ti : TokenInfo) (mtb : MemTokenBackend) : MemTokenBackend :=
  let ti := mkTokenInfo (AdminRoles ti) (ti_Tenant ti) (Username ti) now in
  set_store (tc_set (expiration mtb) now token ti (store mtb)) mtb.

Definition TouchTokenInfo (now : Z) (token : string) (mtb : MemTokenBackend) : MemTokenBackend :=
  match (TokenInfoForToken now token mtb).1 with
  | Some ti => set_store (tc_set (expiration mtb) now token ti (store mtb)) mtb
  | None => mtb
  end.

(** *** Authentication *)

(** An authentication backend: authenticated, token info, error. *)
Abbreviation AuthenticationBackend := (string -> string -> bool * option TokenInfo * error).

(** MemAuthenticationBackend.Authenticate. *)
Definition MemAuthenticate (validUsers : gmap string string) (adminRoles : gset string) : AuthenticationBackend :=
  fun username password =>
    match validUsers !! username with
    | Some storedPass =>
        if decide (password = storedPass) then
          (true, Some (mkTokenInfo adminRoles (mkTenant EmptyString EmptyString EmptyString AccessAllTenants)
                         EmptyString 0), None)
        else (false, None, None)
    | None => (false, None, None)
    end.

Definition SetUser (username password : string) (validUsers : gmap string string) : gmap string string :=
  <[username := password]> validUsers.
Definition RemoveUser (username : string) (validUsers : gmap string string) : gmap string string :=
  delete username validUsers.

(** The roles of a PfAuthenticationReply or of an access level. *)
Definition trimmed_roles (roles : list string) : gset string :=
  list_to_set ((fun r => Trim r " ") <$> roles).

(** PfAuthenticationBackend.Authenticate: [reply] is the transport error or the
    decoded result, roles and tenant. *)
Definition PfAuthenticate (reply : string -> string -> sum string (Z * list string * Tenant)) :
  AuthenticationBackend :=
  fun username password =>
    match reply username password with
    | inl err => (false, None, Some err)
    | inr (result, roles, tenant) =>
        if decide (result <> 1) then (false, None, None)
        else (true, Some (mkTokenInfo (trimmed_roles roles) tenant EmptyString 0), None)
    end.

(** GenerateToken: [rnd] is what rand.Read filled in and its error. *)
Definition GenerateToken (rnd : bytes * error) : string * error :=
  let '(b, err) := rnd in
  if decide (length b <> 32%nat) then (EmptyString, Some "Didn't generate a token of the right length")
  else match err with
  | Some e => (EmptyString, Some e)
  | None => (hex b, None)
  end.

Fixpoint Login (now : Z) (rnd : bytes * error) (backends : list AuthenticationBackend)
  (username password : string) (mtb : MemTokenBackend) : go (MemTokenBackend * (bool * string * error)) :=
  match backends with
  | [] => Ret (mtb, (false, EmptyString, Some "Wasn't able to authenticate those credentials"))
  | backend :: backends' =>
      match backend username password with
      | (true, Some ti, _) =>
          match GenerateToken rnd with
          | (_, Some err) => Ret (mtb, (false, EmptyString, Some err))
          | (token, None) =>
              let ti := mkTokenInfo (AdminRoles ti) (ti_Tenant ti) username (CreatedAt ti) in
              Ret (StoreTokenInfo now token ti mtb, (true, token, None))
          end
      | (true, None, _) => Panic "invalid memory address or nil pointer dereference"
      | (false, _, _) => Login now rnd backends' username password mtb
      end
  end.

(** *** The gate in front of a request *)

Record Req := mkReq { r_Method : string; r_Path : string; r_Header : gmap string string }.

Definition Header_Get (k : string) (r : Req) : string := default EmptyString (r_Header r !! k).
Definition Header_Set (k v : string) (r : Req) : Req :=
  mkReq (r_Method r) (r_Path r) (<[k := v]> (r_Header r)).

Definition tokenFromRequest (r : Req) : string := TrimPrefix (Header_Get "Authorization" r) "Bearer ".

Definition tenant_header : string := "X-PacketFence-Tenant-Id".
Definition roles_header : string := "X-PacketFence-Admin-Roles".
Definition username_header : string := "X-PacketFence-Username".

(** BearerRequestIsAuthorized of the authorization middleware: it also rewrites
    the headers of the request. *)
Definition BearerRequestIsAuthorized (now : Z) (mtb : MemTokenBackend) (r : Req) : Req * (bool * error) :=
  let xptid := Header_Get tenant_header r in
  match (TokenInfoForToken now (tokenFromRequest r) mtb).1 with
  | None => (r, (false, Some InvalidTokenInfoErr))
  | Some ti =>
      let finish (r : Req) (tenantId : Z) :=
        let r := Header_Set roles_header (StrJoin (iter (AdminRoles ti)) ",") r in
        let r := Header_Set username_header (Username ti) r in
        (r, IsAuthorized (r_Method r) (r_Path r) tenantId (Some ti)) in
      if decide (t_Id (ti_Tenant ti) = AccessAllTenants /\ xptid = EmptyString) then finish r 0
      else if decide (xptid = EmptyString) then
        finish (Header_Set tenant_header (Itoa (t_Id (ti_Tenant ti))) r) (t_Id (ti_Tenant ti))
      else match Atoi xptid with
      | (_, true) =>
          (r, (false, Some ("Impossible to parse X-PacketFence-Tenant-Id " +:+ xptid +:+ " into a valid number")))
      | (tenantId, false) => finish r tenantId
      end
  end.

(** HandleAAA: the request goes on, or the status of the answer; the readings
    of the clock are the ones of the three token operations. *)
Definition HandleAAA (now1 now2 now3 : Z) (mtb : MemTokenBackend) (r : Req) :
  MemTokenBackend * Req * option Z :=
  if IsPathPublic (r_Path r) then (mtb, r, None)
  else if negb (TokenIsValid now1 (tokenFromRequest r) mtb) then (mtb, r, Some 401)
  else
    let mtb := TouchTokenInfo now2 (tokenFromRequest r) mtb in
    let '(r, (auth, err)) := BearerRequestIsAuthorized now3 mtb r in
    if auth then (mtb, r, None)
    else (mtb, r, Some (if decide (err = Some InvalidTokenInfoErr) then 401 else 403)).

End Aaa.

(** ** Lemmas *)

(** What a request needs of the token. *)
Inductive need :=
  | Unknown            (** a method without a suffix: refused *)
  | Anyone             (** a path open to every token *)
  | Action (a : string).

Definition needed_action (method path : string) : need :=
  let '(base, suffix) := find_role path pathAdminRolesMap in
  let base := if decide (base = EmptyString) then "SYSTEM" else base in
  let suffix := if decide (suffix = EmptyString) then methodSuffixMap method else suffix in
  if decide (suffix = EmptyString) then Unknown
  else if decide (base = ALLOW_ANY) then Anyone
  else Action (base +:+ (if decide (method = "POST" /\ HasSuffix path "/search" = true) then "_READ" else suffix)).

Definition satisfied (n : need) (actions : gset string) : Prop :=
  match n with Unknown => False | Anyone => True | Action a => a ∈ actions end.

Lemma admin_actions_spec method path roles :
  failed (isAuthorizedAdminActions method path roles) = false <->
  satisfied (needed_action method path) roles.
Proof.
  unfold isAuthorizedAdminActions, needed_action.
  destruct (find_role path pathAdminRolesMap) as [base suffix].
  set (b := if decide (base = EmptyString) then "SYSTEM" else base).
  set (x := if decide (suffix = EmptyString) then methodSuffixMap method else suffix).
  destruct (decide (x = EmptyString)); [done|]. destruct (decide (b = ALLOW_ANY)); [done|].
  cbn [satisfied]. destruct (decide (_ ∈ roles)); done.
Qed.

Section Lemmas.
Context (multipleTenants : bool) (roleActions : string -> gset string).

(** What tenants allow: the token's tenant, and for a token of a single tenant
    only the listed configuration paths and none of the denied ones. *)
Definition tenant_ok (tenantId : Z) (ti : TokenInfo) : Prop :=
  t_Id (ti_Tenant ti) <> AccessNoTenants /\
  (t_Id (ti_Tenant ti) = AccessAllTenants \/ tenantId = t_Id (ti_Tenant ti)).

Definition namespace_ok (method path : string) (ti : TokenInfo) : Prop :=
  IsTenantMaster multipleTenants ti = true \/
  ((HasPrefix path configApiPrefix = true ->
      (method = "GET" \/ method = "OPTIONS") /\ existsb (HasPrefix path) allTenantsPaths = true) /\
   existsb (HasPrefix path) multiTenantDenyPaths = false).

Lemma tenant_spec tenantId ti :
  failed (isAuthorizedTenantId tenantId (t_Id (ti_Tenant ti))) = false <-> tenant_ok tenantId ti.
Proof.
  unfold isAuthorizedTenantId, tenant_ok. repeat case_decide; cbn; split; intros; naive_solver.
Qed.

Lemma namespace_spec method path ti :
  failed (isAuthorizedMultiTenant multipleTenants method path ti) = false <-> namespace_ok method path ti.
Proof.
  unfold isAuthorizedMultiTenant, isAuthorizedConfigNamespace, isAuthorizedPathMultiTenant, namespace_ok.
  destruct (IsTenantMaster multipleTenants ti), (HasPrefix path configApiPrefix),
    (existsb (HasPrefix path) multiTenantDenyPaths), (existsb (HasPrefix path) allTenantsPaths);
    repeat case_decide; cbn; naive_solver.
Qed.

(** A request is let through exactly if the three checks agree. *)
Lemma IsAuthorized_spec method path tenantId ti :
  IsAuthorized multipleTenants roleActions method path tenantId (Some ti) = (true, None) <->
  satisfied (needed_action method path) (AdminActions multipleTenants roleActions ti) /\
  tenant_ok tenantId ti /\ namespace_ok method path ti.
Proof.
  rewrite <- admin_actions_spec, <- tenant_spec, <- namespace_spec. unfold IsAuthorized.
  assert (Hf : forall r, failed r = true -> r <> (true, None)) by (intros [[] []]; done).
  destruct (failed (isAuthorizedAdminActions _ _ _)) eqn:E1; [split; [by intros ?%Hf|naive_solver]|].
  destruct (failed (isAuthorizedTenantId _ _)) eqn:E2; [split; [by intros ?%Hf|naive_solver]|].
  destruct (failed (isAuthorizedMultiTenant _ _ _ _)) eqn:E3; [split; [by intros ?%Hf|naive_solver]|].
  done.
Qed.

(** No check grants with an error. *)
Definition coherent (r : bool * error) : Prop := r.1 = true -> r.2 = None.

Lemma IsAuthorized_coherent method path tenantId t :
  coherent (IsAuthorized multipleTenants roleActions method path tenantId t).
Proof.
  destruct t as [ti|]; [|done]. unfold IsAuthorized.
  assert (Ha : coherent (isAuthorizedAdminActions method path (AdminActions multipleTenants roleActions ti))).
  { unfold isAuthorizedAdminActions. destruct (find_role _ _). cbn zeta. by repeat case_decide. }
  assert (Ht : coherent (isAuthorizedTenantId tenantId (t_Id (ti_Tenant ti)))).
  { unfold isAuthorizedTenantId. by repeat case_decide. }
  assert (Hn : coherent (isAuthorizedMultiTenant multipleTenants method path ti)).
  { unfold isAuthorizedMultiTenant, isAuthorizedConfigNamespace, isAuthorizedPathMultiTenant.
    destruct (IsTenantMaster _ _), (HasPrefix _ _), (existsb _ multiTenantDenyPaths),
      (existsb _ allTenantsPaths); by repeat case_decide. }
  destruct (failed _); [done|]. destruct (failed _); [done|]. by destruct (failed _).
Qed.

End Lemmas.

Lemma Header_Get_eq k v r : Header_Get k (Header_Set k v r) = v.
Proof. unfold Header_Get, Header_Set. cbn. by rewrite lookup_insert_eq. Qed.

Lemma Header_Get_ne k k' v r : k <> k' -> Header_Get k (Header_Set k' v r) = Header_Get k r.
Proof. intros. unfold Header_Get, Header_Set. cbn. by rewrite lookup_insert_ne. Qed.

Section Identity.
Context (multipleTenants : bool) (roleActions : string -> gset string) (iter : gset string -> list string).

(** The end of BearerRequestIsAuthorized: the identity headers and the decision. *)
Definition with_identity (ti : TokenInfo) (r : Req) (tenantId : Z) : Req * (bool * error) :=
  let r := Header_Set roles_header (StrJoin (iter (AdminRoles ti)) ",") r in
  let r := Header_Set username_header (Username ti) r in
  (r, IsAuthorized multipleTenants roleActions (r_Method r) (r_Path r) tenantId (Some ti)).

(** Request [r] was granted to [ti] for a tenant and became [r']. *)
Definition granted (ti : TokenInfo) (tenantId : Z) (r r' : Req) : Prop :=
  satisfied (needed_action (r_Method r) (r_Path r)) (AdminActions multipleTenants roleActions ti) /\
  tenant_ok tenantId ti /\ namespace_ok multipleTenants (r_Method r) (r_Path r) ti /\
  r_Method r' = r_Method r /\ r_Path r' = r_Path r /\ Header_Get username_header r' = Username ti /\
  Header_Get roles_header r' = StrJoin (iter (AdminRoles ti)) ",".

Lemma identity_granted ti r r0 r' tid err :
  r_Method r0 = r_Method r -> r_Path r0 = r_Path r ->
  with_identity ti r0 tid = (r', (true, err)) -> granted ti tid r r'.
Proof.
  intros Hm Hp Heq. pose proof (f_equal snd Heq) as Hauth. pose proof (f_equal fst Heq) as Hr.
  unfold with_identity in Hauth, Hr. cbn [fst snd Header_Set r_Method r_Path] in Hauth, Hr. subst r'.
  pose proof (IsAuthorized_coherent multipleTenants roleActions (r_Method r0) (r_Path r0) tid (Some ti)) as Hc.
  rewrite Hauth in Hc. specialize (Hc eq_refl). cbn in Hc. subst err.
  rewrite Hm, Hp in Hauth. apply IsAuthorized_spec in Hauth as (? & ? & ?).
  split_and!; [done..|apply Header_Get_eq|]. rewrite Header_Get_ne by done. apply Header_Get_eq.
Qed.

End Identity.

(** *** Suffixes *)

Lemma drop_str_past s t n : drop_str (String.length s + n) (s +:+ t) = drop_str n t.
Proof. induction s as [|c s IH]; [done|]. exact IH. Qed.

Lemma HasSuffix_app_long s t p :
  (String.length p <= String.length t)%nat -> HasSuffix (s +:+ t) p = HasSuffix t p.
Proof.
  intros Hl. unfold HasSuffix. rewrite str_length_app. rewrite (bool_decide_true (String.length p <= String.length s + String.length t)%nat) by lia.
  rewrite (bool_decide_true (String.length p <= String.length t)%nat) by lia. cbn [andb].
  replace (String.length s + String.length t - String.length p)%nat with
    (String.length s + (String.length t - String.length p))%nat by lia.
  by rewrite drop_str_past.
Qed.

Lemma find_role_inv path l b s :
  find_role path l = (b, s) ->
  (b = EmptyString /\ s = EmptyString) \/
  exists o, o ∈ l /\ HasPrefix path (prefix o) = true /\ role o = b /\ roleSuffix o = s.
Proof.
  induction l as [|o l IH]; cbn [find_role]; [intros; simplify_eq; by left|].
  destruct (HasPrefix path (prefix o) && _) eqn:E.
  - intros; simplify_eq. apply andb_true_iff in E as [E _]. right. exists o. split; [left|done].
  - intros H. destruct (IH H) as [?|(o' & ? & ?)]; [by left|]. right. exists o'. split; [by right|done].
Qed.

Definition graph_path : string := apiPrefix +:+ "/nodes/network_graph".

(** The only path of the table with a suffix of its own. *)
Lemma own_suffix_only_graph path b s :
  find_role path pathAdminRolesMap = (b, s) -> s <> EmptyString -> HasPrefix path graph_path = true.
Proof.
  intros H Hs. apply find_role_inv in H as [[_ ->]|(o & Hin & Hp & _ & <-)]; [done|].
  assert (Hall : forallb (fun o => bool_decide (roleSuffix o = EmptyString) || bool_decide (prefix o = graph_path))
    pathAdminRolesMap = true) by (vm_compute; reflexivity).
  rewrite forallb_forall in Hall. apply list_elem_of_In in Hin. apply Hall in Hin.
  apply orb_true_iff in Hin as [Hin|Hin]; apply bool_decide_eq_true in Hin; [done|by rewrite <- Hin].
Qed.

Definition write_method (method : string) : Prop :=
  method = "POST" \/ method = "PUT" \/ method = "PATCH" \/ method = "DELETE".

Definition write_suffix (s : string) : Prop := s = "_CREATE" \/ s = "_UPDATE" \/ s = "_DELETE".

Lemma write_method_suffix method : write_method method -> write_suffix (methodSuffixMap method).
Proof. intros [->|[->|[->| ->]]]; unfold write_suffix; auto. Qed.

Definition read_only_action (a : string) : Prop := HasSuffix a "_READ" = true \/ a = "TENANT_MASTER".

Lemma write_action_not_read_only base s : write_suffix s -> ~ read_only_action (base +:+ s).
Proof.
  intros Hs [H|H].
  - rewrite HasSuffix_app_long in H by (destruct Hs as [->|[->| ->]]; simpl; lia).
    destruct Hs as [->|[->| ->]]; vm_compute in H; done.
  - assert (Hx : HasSuffix (base +:+ s) s = true).
    { rewrite HasSuffix_app_long by lia. destruct Hs as [->|[->| ->]]; done. }
    rewrite H in Hx. destruct Hs as [->|[->| ->]]; vm_compute in Hx; done.
Qed.

Lemma hex_length b : String.length (hex b) = (2 * length b)%nat.
Proof. induction b as [|x b IH]; [done|]. cbn [hex String.length length]. rewrite IH. lia. Qed.

(** *** Lifetime of a token *)

Section Lifetime.
Context {C : Type -> Type} {T : TimedCache C} {L : TimedCacheLaws C}.

(** Touching a token at a list of clock readings. *)
Definition touches (token : string) (ts : list Z) (mtb : MemTokenBackend (C:=C)) : MemTokenBackend :=
  fold_left (fun m t => TouchTokenInfo t token m) ts mtb.

(** Every entry of the store under [token] was created at [t0]. *)
Definition created_at (t0 : Z) (token : string) (mtb : MemTokenBackend (C:=C)) : Prop :=
  forall now ti e, tc_get now token (store mtb) = Some (ti, e) -> CreatedAt ti = t0.

Lemma TokenInfo_created t0 token mtb now ti :
  created_at t0 token mtb -> (TokenInfoForToken now token mtb).1 = Some ti ->
  CreatedAt ti = t0 /\ now <= t0 + maxExpiration mtb.
Proof.
  intros Hc H. unfold TokenInfoForToken in H.
  destruct (tc_get now token (store mtb)) as [[ti' e]|] eqn:E; [|done].
  pose proof (Hc _ _ _ E). repeat case_decide; simplify_eq/=; split; lia.
Qed.

Lemma touch_created t0 t token mtb :
  0 < expiration mtb -> created_at t0 token mtb -> created_at t0 token (TouchTokenInfo t token mtb).
Proof.
  intros Hd Hc. unfold TouchTokenInfo. destruct (TokenInfoForToken t token mtb).1 as [ti|] eqn:E; [|done].
  intros now ti' e. cbn [store set_store]. rewrite tc_get_set, decide_True by done.
  case_decide; intros; simplify_eq. by apply (TokenInfo_created t0 token mtb t ti').
Qed.

Lemma touch_settings t token (mtb : MemTokenBackend (C:=C)) :
  expiration (TouchTokenInfo t token mtb) = expiration mtb /\
  maxExpiration (TouchTokenInfo t token mtb) = maxExpiration mtb.
Proof. unfold TouchTokenInfo. by destruct (TokenInfoForToken t token mtb).1. Qed.

Lemma touches_created t0 token ts mtb :
  0 < expiration mtb -> created_at t0 token mtb ->
  created_at t0 token (touches token ts mtb) /\
  maxExpiration (touches token ts mtb) = maxExpiration mtb.
Proof.
  revert mtb. induction ts as [|t ts IH]; intros mtb Hd Hc; [done|]. cbn [touches fold_left].
  destruct (touch_settings t token mtb) as [He Hm].
  destruct (IH (TouchTokenInfo t token mtb)) as [H1 H2]; [by rewrite He|by apply touch_created|].
  split; [exact H1|]. etrans; [exact H2|done].
Qed.

Lemma last_cons_default (x : Z) l d : List.last (x :: l) d = List.last l x.
Proof.
  revert x d. induction l as [|y l IH]; intros x d; [done|].
  change (List.last (y :: l) d = List.last (y :: l) x). by rewrite !IH.
Qed.

(** The store answers [stored] under [token] until the timeout after [s0]. *)
Definition live (stored : TokenInfo) (token : string) (s0 : Z) (mtb : MemTokenBackend (C:=C)) : Prop :=
  forall now, tc_get now token (store mtb) =
    if decide (now <= s0 + expiration mtb) then Some (stored, s0 + expiration mtb) else None.

Lemma live_info stored token s0 mtb now :
  live stored token s0 mtb -> now <= s0 + expiration mtb ->
  now <= CreatedAt stored + maxExpiration mtb -> (TokenInfoForToken now token mtb).1 = Some stored.
Proof.
  intros Hl H1 H2. unfold TokenInfoForToken. rewrite Hl, decide_True by done.
  rewrite decide_False by lia. by case_decide.
Qed.

Lemma touches_keep stored token ts s0 mtb now :
  0 < expiration mtb -> live stored token s0 mtb ->
  (forall k a b, (s0 :: ts) !! k = Some a -> ts !! k = Some b -> b <= a + expiration mtb) ->
  Forall (fun t => t <= CreatedAt stored + maxExpiration mtb) ts ->
  now <= List.last ts s0 + expiration mtb -> now <= CreatedAt stored + maxExpiration mtb ->
  (TokenInfoForToken now token (touches token ts mtb)).1 = Some stored.
Proof.
  intros Hd Hl Hgap Hall Hn1 Hn2. revert s0 mtb Hd Hl Hgap Hall Hn1 Hn2.
  induction ts as [|t ts IH]; intros s0 mtb Hd Hl Hgap Hall Hn1 Hn2; cbn [touches fold_left].
  - by eapply live_info.
  - apply Forall_cons in Hall as [Ht Hall]. pose proof (Hgap 0%nat _ _ eq_refl eq_refl) as Ht0.
    pose proof (live_info _ _ _ _ _ Hl Ht0 Ht) as Hi.
    destruct (touch_settings t token mtb) as [He Hm].
    apply (IH t (TouchTokenInfo t token mtb)); rewrite ?He, ?Hm; try done.
    + intros now'. rewrite He. unfold TouchTokenInfo. rewrite Hi. cbn.
      by rewrite tc_get_set, decide_True by done.
    + intros k a b Ha Hb. by apply (Hgap (S k) a b).
    + by rewrite (last_cons_default t ts s0) in Hn1.
Qed.

End Lifetime.

(** ** Theorems *)

(** C28.  A request passes the gate only with a live token that may do it: if a
    path is not public and the request goes on, the store has a token for it
    that is not older than the maximum, the token has the action the method and
    path need, the tenant asked for and the namespace are allowed, and the
    identity headers are the token's, whatever the client sent. *)
Theorem gate_needs_authorized_token {C : Type -> Type} `{TimedCache C} multipleTenants roleActions iter
  now1 now2 now3 (mtb mtb' : MemTokenBackend (C:=C)) r r' :
  IsPathPublic (r_Path r) = false ->
  HandleAAA multipleTenants roleActions iter now1 now2 now3 mtb r = (mtb', r', None) ->
  exists ti tenantId,
    (TokenInfoForToken now3 (tokenFromRequest r) mtb').1 = Some ti /\
    now3 <= CreatedAt ti + maxExpiration mtb' /\
    satisfied (needed_action (r_Method r) (r_Path r)) (AdminActions multipleTenants roleActions ti) /\
    tenant_ok tenantId ti /\ namespace_ok multipleTenants (r_Method r) (r_Path r) ti /\
    (Header_Get tenant_header r = EmptyString /\ tenantId = t_Id (ti_Tenant ti) \/
     Atoi (Header_Get tenant_header r) = (tenantId, false)) /\
    r_Method r' = r_Method r /\ r_Path r' = r_Path r /\
    Header_Get username_header r' = Username ti /\
    Header_Get roles_header r' = StrJoin (iter (AdminRoles ti)) ",".
Proof.
  intros Hpub HS. unfold HandleAAA in HS. rewrite Hpub in HS.
  destruct (TokenIsValid _ _ _); cbn [negb] in HS; [|simplify_eq].
  destruct (BearerRequestIsAuthorized _ _ _ _ _ r) as [r1 [auth err]] eqn:E.
  destruct auth; [|simplify_eq]. simplify_eq. unfold BearerRequestIsAuthorized in E.
  set (m := TouchTokenInfo now2 (tokenFromRequest r) mtb) in *.
  destruct (TokenInfoForToken now3 (tokenFromRequest r) m).1 as [ti|] eqn:Et; [|simplify_eq].
  assert (Hlife : now3 <= CreatedAt ti + maxExpiration m).
  { unfold TokenInfoForToken in Et. repeat case_match; simplify_eq/=; lia. }
  assert (Hfin : forall r0 tid, r_Method r0 = r_Method r -> r_Path r0 = r_Path r ->
    with_identity multipleTenants roleActions iter ti r0 tid = (r', (true, err)) ->
    granted multipleTenants roleActions iter ti tid r r') by (intros; by eapply identity_granted).
  exists ti. destruct (decide _) as [[H0 Hx]|].
  { destruct (Hfin r 0 eq_refl eq_refl E) as (? & ? & ? & ? & ? & ? & ?).
    exists 0. split_and!; try done. left. split; [done|]. by rewrite H0. }
  destruct (decide _) as [Hx|].
  { destruct (Hfin (Header_Set tenant_header (Itoa (t_Id (ti_Tenant ti))) r) _ eq_refl eq_refl E)
      as (? & ? & ? & ? & ? & ? & ?).
    eexists. split_and!; try done. by left. }
  destruct (Atoi _) as [tid []]; [simplify_eq|].
  destruct (Hfin r tid eq_refl eq_refl E) as (? & ? & ? & ? & ? & ? & ?).
  exists tid. split_and!; try done. by right.
Qed.

(** A token with only reading actions cannot write: every POST, PUT, PATCH
    or DELETE that IsAuthorized grants to it is on a path open to everyone, is a
    search, or is under the node graph, whose entry in the table fixes the
    suffix. *)
Theorem read_only_token_cannot_write multipleTenants roleActions method path tenantId ti :
  write_method method ->
  (forall a, a ∈ AdminActions multipleTenants roleActions ti -> read_only_action a) ->
  IsAuthorized multipleTenants roleActions method path tenantId (Some ti) = (true, None) ->
  needed_action method path = Anyone \/
  (method = "POST" /\ HasSuffix path "/search" = true) \/
  HasPrefix path graph_path = true.
Proof.
  intros Hw Hro HA. apply IsAuthorized_spec in HA as (Hs & _ & _). unfold needed_action in *.
  destruct (find_role path pathAdminRolesMap) as [base suffix] eqn:E.
  destruct (decide (suffix = EmptyString)) as [->|Hne]; [|right; right; by eapply own_suffix_only_graph].
  destruct (decide (methodSuffixMap method = EmptyString)); [done|].
  destruct (decide (_ = ALLOW_ANY)); [by left|].
  destruct (decide (method = "POST" /\ _)); [right; by left|].
  exfalso. cbn [satisfied] in Hs. apply Hro in Hs. revert Hs.
  by apply write_action_not_read_only, write_method_suffix.
Qed.

(** A token lives until its maximum age and no longer: however often it is
    touched, TokenInfoForToken finds nothing once the maximum age is over, and
    while touches keep coming within the inactivity timeout it finds the token
    as it was stored. *)
Theorem token_lifetime {C : Type -> Type} `{TimedCacheLaws C} t0 token ti ts
  (mtb : MemTokenBackend (C:=C)) now :
  0 < expiration mtb ->
  let m := touches token ts (StoreTokenInfo t0 token ti mtb) in
  (now > t0 + maxExpiration mtb -> (TokenInfoForToken now token m).1 = None) /\
  (let last := List.last ts t0 in
   (forall k a b, (t0 :: ts) !! k = Some a -> ts !! k = Some b -> b <= a + expiration mtb) ->
   Forall (fun t => t <= t0 + maxExpiration mtb) ts ->
   now <= last + expiration mtb -> now <= t0 + maxExpiration mtb ->
   (TokenInfoForToken now token m).1 =
     Some (mkTokenInfo (AdminRoles ti) (ti_Tenant ti) (Username ti) t0)).
Proof.
  intros Hd m. set (stored := mkTokenInfo (AdminRoles ti) (ti_Tenant ti) (Username ti) t0).
  assert (H0 : forall now', tc_get now' token (store (StoreTokenInfo t0 token ti mtb)) =
    if decide (now' <= t0 + expiration mtb) then Some (stored, t0 + expiration mtb) else None).
  { intros now'. cbn. by rewrite tc_get_set, decide_True by done. }
  assert (Hc : created_at t0 token (StoreTokenInfo t0 token ti mtb)).
  { intros now' ti' e. rewrite H0. case_decide; intros; by simplify_eq. }
  split.
  - intros Hnow. destruct (TokenInfoForToken now token m).1 as [ti'|] eqn:E; [|done].
    destruct (touches_created t0 token ts (StoreTokenInfo t0 token ti mtb) Hd Hc) as [Hcm Hmax].
    apply (TokenInfo_created t0 _ m) in E as [_ E]; [|done]. unfold m in E. rewrite Hmax in E.
    cbn in E. lia.
  - cbn zeta. intros Hgap Hall Hn1 Hn2. by apply (touches_keep stored token ts t0).
Qed.

(** *** Examples *)

Definition demo_tenant (id : Z) : Tenant := mkTenant EmptyString EmptyString EmptyString id.
Definition demo_actions (r : string) : gset string :=
  if decide (r = "Node Manager") then {[ "NODES_READ"; "NODES_UPDATE" ]}
  else if decide (r = "Viewer") then {[ "NODES_READ" ]} else ∅.
Definition demo_info (r : string) (tenant : Z) : TokenInfo :=
  mkTokenInfo {[ r ]} (demo_tenant tenant) "alice" 100.
Definition demo_store (ti : TokenInfo) : MemTokenBackend (C:=fun V => gmap string (V * Z)) :=
  mkMem 30 600 {[ "abc" := (ti, 140) ]}.
Definition demo_req (method path : string) : Req :=
  mkReq method path {[ "Authorization" := "Bearer abc"; "X-PacketFence-Username" := "root" ]}.

Lemma gate_needs_authorized_token_witness :
  exists mtb' r' ti, HandleAAA true demo_actions elements 120 121 122 (demo_store (demo_info "Node Manager" 2))
      (demo_req "PATCH" "/api/v1/node/1") = (mtb', r', None) /\
    (TokenInfoForToken 122 "abc" mtb').1 = Some ti /\ Header_Get username_header r' = Username ti.
Proof.
  destruct (HandleAAA true demo_actions elements 120 121 122 (demo_store (demo_info "Node Manager" 2))
      (demo_req "PATCH" "/api/v1/node/1")) as [[mtb' r'] o] eqn:E.
  assert (Ho : o = None) by (change o with ((mtb', r'), o).2; rewrite <- E; vm_compute; reflexivity).
  subst o. destruct (gate_needs_authorized_token true demo_actions elements 120 121 122
    (demo_store (demo_info "Node Manager" 2)) mtb' (demo_req "PATCH" "/api/v1/node/1") r'
    ltac:(vm_compute; reflexivity) E) as (ti & tid & Hti & _ & _ & _ & _ & _ & _ & _ & Hu & _).
  exists mtb', r', ti. split; [reflexivity|]. split; [exact Hti|exact Hu].
Defined.

Lemma read_only_token_cannot_write_witness :
  IsAuthorized true demo_actions "POST" "/api/v1/nodes/search" 2 (Some (demo_info "Viewer" 2)) = (true, None) /\
  (needed_action "POST" "/api/v1/nodes/search" = Anyone \/
   ("POST" = "POST" /\ HasSuffix "/api/v1/nodes/search" "/search" = true) \/
   HasPrefix "/api/v1/nodes/search" graph_path = true).
Proof.
  split; [vm_compute; reflexivity|].
  apply (read_only_token_cannot_write true demo_actions "POST" "/api/v1/nodes/search" 2 (demo_info "Viewer" 2)).
  - left. reflexivity.
  - intros a Ha. assert (Hx : AdminActions true demo_actions (demo_info "Viewer" 2) = {[ "NODES_READ" ]})
      by (vm_compute; reflexivity).
    rewrite Hx in Ha. apply elem_of_singleton in Ha. subst a. left. vm_compute. reflexivity.
  - vm_compute. reflexivity.
Defined.

Lemma token_lifetime_witness :
  let m := touches "t" [20; 40] (StoreTokenInfo 0 "t" (demo_info "Viewer" 2)
             (mkMem (C:=fun V => gmap string (V * Z)) 30 60 ∅)) in
  (TokenInfoForToken 61 "t" m).1 = None /\ Username <$> (TokenInfoForToken 60 "t" m).1 = Some "alice".
Proof.
  cbn zeta. split.
  - apply (token_lifetime 0 "t" (demo_info "Viewer" 2) [20; 40] (mkMem 30 60 ∅) 61); [simpl; lia|simpl; lia].
  - destruct (token_lifetime 0 "t" (demo_info "Viewer" 2) [20; 40]
      (mkMem (C:=fun V => gmap string (V * Z)) 30 60 ∅) 60) as [_ H]; [simpl; lia|].
    cbn zeta in H. rewrite H; [reflexivity| | |cbn; lia|cbn; lia].
    + intros [|[|k]] a b Ha Hb; simplify_eq/=; lia.
    + repeat constructor; cbn; lia.
Defined.

(** A login gives a token exactly when a backend accepts the credentials:
    with a working random source Login succeeds iff some backend authenticates,
    and then the returned token (64 characters) is found in the store with the
    first such backend's roles and tenant and with the login name. *)
Theorem login_stores_token {C : Type -> Type} `{TimedCacheLaws C} now b backends username password
  (mtb : MemTokenBackend (C:=C)) :
  0 < expiration mtb -> 0 <= maxExpiration mtb -> length b = 32%nat ->
  Forall (fun be => (be username password).1.1 = true -> is_Some (be username password).1.2) backends ->
  exists mtb' auth token err,
    Login now (b, None) backends username password mtb = Ret (mtb', (auth, token, err)) /\
    (auth = true <-> Exists (fun be => (be username password).1.1 = true) backends) /\
    (auth = true -> String.length token = 64%nat /\
       exists be ti, be ∈ backends /\ be username password = (true, Some ti, (be username password).2) /\
         (TokenInfoForToken now token mtb').1 =
           Some (mkTokenInfo (AdminRoles ti) (ti_Tenant ti) username now)) /\
    (auth = false -> mtb' = mtb).
Proof.
  intros Hd Hm Hb Hall. induction Hall as [|be bes Hbe _ IH]; cbn [Login].
  { do 4 eexists. split; [done|]. split_and!; [|done..]. split; [done|]. by intros ?%Exists_nil. }
  destruct (be username password) as [[[] ti] e] eqn:E; cbn in Hbe.
  - destruct (Hbe eq_refl) as [ti' ->]. unfold GenerateToken. rewrite decide_False by tauto.
    do 4 eexists. split; [done|]. split_and!; [|intros _|done].
    + split; [|done]. intros _. left. by rewrite E.
    + split; [by rewrite hex_length, Hb|]. exists be, ti'. split; [left|]. rewrite E. split; [done|].
      unfold TokenInfoForToken. cbn. rewrite tc_get_set, decide_True, decide_True by (lia || done).
      cbn. rewrite decide_False by lia. by case_decide.
  - destruct IH as (mtb' & auth & token & err & HL & Hiff & Hok & Hno).
    exists mtb', auth, token, err. split; [done|]. split_and!; [| |done].
    + rewrite Hiff. split; [by right|]. intros [Hx|Hx]%Exists_cons; [by rewrite E in Hx|done].
    + intros Ha. destruct (Hok Ha) as (Hlen & be' & ti' & Hin & Hx). split; [done|].
      exists be', ti'. split; [by right|done].
Qed.

Lemma login_stores_token_witness :
  exists mtb' auth token err,
    Login 5 (replicate 32 7, None) [MemAuthenticate {[ "alice" := "secret" ]} {[ "ALL" ]}] "alice" "secret"
      (mkMem (C:=fun V => gmap string (V * Z)) 30 60 ∅) = Ret (mtb', (auth, token, err)) /\ auth = true.
Proof.
  destruct (login_stores_token 5 (replicate 32 7) [MemAuthenticate {[ "alice" := "secret" ]} {[ "ALL" ]}]
    "alice" "secret" (mkMem (C:=fun V => gmap string (V * Z)) 30 60 ∅))
    as (mtb' & auth & token & err & HL & Hiff & _).
  - cbn. lia.
  - cbn. lia.
  - reflexivity.
  - repeat constructor. intros _. vm_compute. eauto.
  - exists mtb', auth, token, err. split; [exact HL|]. apply Hiff. constructor. vm_compute. reflexivity.
Defined.
