(* ===== verification/Acct.v ===== *)
(** RADIUS accounting (src/go/cmd/pfacct/radius.go): the queues, the checks of
    a packet, the accounting of cumulative counters in time buckets, the
    charging of the time and bandwidth balance of a node, the vendor
    attributes.

    Tables are maps; an SQL statement is the function it computes on them, and
    [e_fails] says which statements fail.  The RADIUS library and its
    dictionary, the hash and the mac package are fields of [env]. *)
From S2P Require Import Prelude NetIP.
From Stdlib Require Import ZArith Lia Ascii.
From stdpp Require Import base gmap strings list.

Open Scope Z_scope.

(** ** Queues and packets (radius.go) *)

(** djb2Hash: [hash = ((hash << 5) + hash) + c] in uint64. *)
Definition djb2Hash (s : bytes) : Z :=
  fold_left (fun hash c => u64 (u64 (u64 (Z.shiftl hash 5) + hash) + c)) s 5381.

(** sendRadiusRequestToQueue: the queue of a MAC. *)
Definition queueIndex (mac : bytes) (queues : Z) : go Z :=
  if decide (queues = 0) then Panic "integer divide by zero" else Ret (djb2Hash mac `mod` queues).

Definition PacketTooSmall : string := "radius: packet not at least 20 bytes long".
Definition PacketInvalidLength : string := "radius: invalid packet length".

(** checkPacket; [max] is radius.MaxPacketLength. *)
Definition checkPacket (max : Z) (raw : bytes) : go error :=
  let n := Z.of_nat (length raw) in
  if decide (n < 20) then Ret (Some PacketTooSmall)
  else (len <-! Uint16 (take 2 (drop 2 raw)) ;;
        if decide (len < 20 \/ len > max \/ n <> len) then Ret (Some PacketInvalidLength)
        else Ret None)%go.

(** The 64-bit counters of a request from octets and gigawords (uint32). *)
Definition counter (octets gigawords : Z) : Z := i64 (octets + i64 (Z.shiftl gigawords 32)).

(** ** The RADIUS dictionary and its attributes *)

Inductive attr_type := AttributeString | AttributeInteger | AttributeInteger64 | AttributeIPAddr
  | AttributeDate | AttributeOther.

Record attribute := mkAttribute { da_Name : string; da_Type : attr_type }.

(** The database statements of RadiusStatements. *)
Inductive stmt := InsertStmt | CloseStmt | IsUnregStmt | SoftTimeStmt | TimeSubtractStmt | TimeZeroStmt
  | SoftBandwidthStmt | BandwidthSubtractStmt | BandwidthZeroStmt.

Global Instance stmt_eq_dec : EqDecision stmt.
Proof. solve_decision. Defined.

(** What radius.go calls: the decoders of the RADIUS library for a value
    ([None]: an error), VendorSpecific, the dictionary, mac.NewFromString (the
    zero address on an error) and its error, Mac.String, Mac.NodeId, the 64-bit
    hash, the string the database driver sends for an argument of type mac.Mac
    ([None]: it rejects the type), which statements fail, the time in
    nanoseconds since Go's zero time, and TimeDuration. *)
Record env := mkEnv {
  e_decode : attr_type -> bytes -> option jv;
  e_VendorSpecific : bytes -> option (Z * bytes);
  e_vendor : Z -> option (Z -> option attribute);
  e_attribute : Z -> option attribute;
  e_mac : string -> bytes * bool;
  e_macString : bytes -> string;
  e_NodeId : bytes -> Z -> Z;
  e_hash : bytes -> Z;
  e_macArg : bytes -> option string;
  e_fails : stmt -> bool;
  e_now : Z;
  e_TimeDuration : Z
}.

(** addAttributeToMap: a value that cannot be decoded is dropped, repeated
    attributes become arrays. *)
Definition addAttributeToMap (E : env) (attributes : gmap string jv) (da : attribute) (attr : bytes)
  : gmap string jv :=
  let item := match da_Type da with
              | AttributeOther => None
              | ty => e_decode E ty attr
              end in
  match item with
  | None => attributes
  | Some item =>
      match attributes !! da_Name da with
      | Some (JArr old) => <[da_Name da := JArr (old ++ [item])]> attributes
      | Some old => <[da_Name da := JArr [old; item]]> attributes
      | None => <[da_Name da := item]> attributes
      end
  end.

Definition slice_panic : string := "runtime error: slice bounds out of range".

(** The loop of packetToMap over the attributes of one vendor.  The first
    slice is bounded by the capacity and the second by the length, so together
    they panic for every length byte below 2 or beyond the data. *)
Fixpoint vsa_loop (fuel : nat) (E : env) (v : Z -> option attribute) (vsa : bytes)
  (attributes : gmap string jv) : go (gmap string jv) :=
  match fuel, vsa with
  | S fuel', vsaTyp :: vsaLen :: _ :: _ =>
      if decide (vsaLen < 2 \/ Z.of_nat (length vsa) < vsaLen) then Panic slice_panic
      else
        let data := drop 2 (take (Z.to_nat vsaLen) vsa) in
        let vsa' := drop (Z.to_nat vsaLen) vsa in
        match v vsaTyp with
        | None => vsa_loop fuel' E v vsa' attributes
        | Some a => vsa_loop fuel' E v vsa' (addAttributeToMap E attributes a data)
        end
  | _, _ => Ret attributes
  end.

Definition VendorSpecific_Type : Z := 26.

(** The values of the attribute Vendor-Specific, in order. *)
Fixpoint vendor_attributes (E : env) (l : list bytes) (attributes : gmap string jv) : go (gmap string jv) :=
  match l with
  | [] => Ret attributes
  | vattrs :: l' =>
      match e_VendorSpecific E vattrs with
      | None => vendor_attributes E l' attributes
      | Some (id, vsa) =>
          match e_vendor E id with
          | None => vendor_attributes E l' attributes
          | Some v => (a <-! vsa_loop (length vsa) E v vsa attributes ;; vendor_attributes E l' a)%go
          end
      end
  end.

(** The attributes of a packet, in the iteration order of its map. *)
Fixpoint packet_attributes (E : env) (l : list (Z * list bytes)) (attributes : gmap string jv)
  : go (gmap string jv) :=
  match l with
  | [] => Ret attributes
  | (i, attr) :: l' =>
      if decide (i = VendorSpecific_Type) then
        (a <-! vendor_attributes E attr attributes ;; packet_attributes E l' a)%go
      else
        match e_attribute E i with
        | None => packet_attributes E l' attributes
        | Some a =>
            match attr with
            | [] => Panic index_panic
            | x :: _ => packet_attributes E l' (addAttributeToMap E attributes a x)
            end
        end
  end.

Definition packetToMap (E : env) (p : list (Z * list bytes)) : go (gmap string jv) :=
  (attributes <-! packet_attributes E p ∅ ;;
   match attributes !! "Calling-Station-Id" with
   | None => Ret attributes
   | Some (JStr val) =>
       let '(mac, ok) := e_mac E val in
       Ret (if ok : bool then <["Calling-Station-Id" := JStr (e_macString E mac)]> attributes else attributes)
   | Some _ => Panic type_panic
   end)%go.

(** ** The state *)

(** A row of the table node; a balance that is NULL is [None], the registration
    date is in seconds. *)
Record node := mkNode {
  time_balance : option Z; bandwidth_balance : option Z; n_status : string; n_regdate : Z
}.

Record nodeSession := mkNodeSession { timeBalance : Z; bandwidthBalance : Z }.

(** The rows of one session of bandwidth_accounting: time bucket to
    (in_bytes, out_bytes). *)
Abbreviation buckets := (gmap Z (Z * Z)).

(** The tables node, by (tenant_id, mac), and bandwidth_accounting, by
    (node_id, unique_session_id); the sessions marked as closed; the cache of
    node sessions; the notifications (mac, tid, tenant) and calls sent. *)
Record acct := mkAcct {
  a_node : gmap (Z * string) node;
  a_rows : gmap (Z * Z) buckets;
  a_closed : gset (Z * Z);
  a_cache : gmap Z nodeSession;
  a_events : list (string * string * Z);
  a_calls : list (gmap string jv * Z)
}.

Definition with_node (f : gmap (Z * string) node -> gmap (Z * string) node) (s : acct) : acct :=
  mkAcct (f (a_node s)) (a_rows s) (a_closed s) (a_cache s) (a_events s) (a_calls s).
Definition with_rows (f : gmap (Z * Z) buckets -> gmap (Z * Z) buckets) (s : acct) : acct :=
  mkAcct (a_node s) (f (a_rows s)) (a_closed s) (a_cache s) (a_events s) (a_calls s).
Definition with_closed (f : gset (Z * Z) -> gset (Z * Z)) (s : acct) : acct :=
  mkAcct (a_node s) (a_rows s) (f (a_closed s)) (a_cache s) (a_events s) (a_calls s).
Definition with_cache (f : gmap Z nodeSession -> gmap Z nodeSession) (s : acct) : acct :=
  mkAcct (a_node s) (a_rows s) (a_closed s) (f (a_cache s)) (a_events s) (a_calls s).
Definition Notify (mac tid : string) (tenant : Z) (s : acct) : acct :=
  mkAcct (a_node s) (a_rows s) (a_closed s) (a_cache s) (a_events s ++ [(mac, tid, tenant)]) (a_calls s).
Definition Call (attr : gmap string jv) (tenant : Z) (s : acct) : acct :=
  mkAcct (a_node s) (a_rows s) (a_closed s) (a_cache s) (a_events s) (a_calls s ++ [(attr, tenant)]).

(** ** The statements *)

Definition sql_error : string := "sql error".

(** insertBandwidthAccounting: the counter minus what the other buckets of the
    session hold, at least 0, replaces the row of the bucket. *)
Definition total_bytes (f : Z * Z -> Z) (b : buckets) : Z := map_fold (fun _ v acc => f v + acc) 0 b.

Definition sql_insert_accounting (bucket in_bytes out_bytes : Z) (rows : buckets) : buckets :=
  let others := delete bucket rows in
  <[bucket := (Z.max (in_bytes - total_bytes fst others) 0, Z.max (out_bytes - total_bytes snd others) 0)]> rows.

Definition InsertBandwidthAccounting (E : env) (node_id session bucket in_bytes out_bytes : Z) (s : acct)
  : acct * error :=
  if e_fails E InsertStmt then (s, Some sql_error)
  else
    let k := (node_id, session) in
    (with_rows (fun r => <[k := sql_insert_accounting bucket in_bytes out_bytes (default ∅ (r !! k))]> r) s, None).

(** CloseSession resets last_updated of the rows of the session. *)
Definition CloseSession (E : env) (node_id session : Z) (s : acct) : acct :=
  if e_fails E CloseStmt then s
  else if decide (a_rows s !! (node_id, session) = None) then s
  else with_closed (fun c => {[(node_id, session)]} ∪ c) s.

(** status = "reg" || DATE_SUB(NOW(), INTERVAL 5 MINUTE) > regdate. *)
Definition settled (E : env) (n : node) : bool :=
  bool_decide (n_status n = "reg") || bool_decide (e_now E `div` 10 ^ 9 - 300 > n_regdate n).

Definition IsUnreg (E : env) (mac : string) (tenant : Z) (s : acct) : bool * error :=
  if e_fails E IsUnregStmt then (false, Some sql_error)
  else match a_node s !! (tenant, mac) with
       | Some n => if decide (n_status n = "unreg") then (true, None) else (false, Some "sql: no rows in result set")
       | None => (false, Some "sql: no rows in result set")
       end.

(** The new balance of an UPDATE whose condition holds: 0 where the balance is
    at most the argument; the balance minus the argument, at least 0. *)
Definition soft_set (old : option Z) (balance : Z) : option (option Z) :=
  match old with
  | Some b => if decide (b <= balance) then Some (Some 0) else None
  | None => None
  end.
Definition subtract_set (old : option Z) (balance : Z) : option (option Z) :=
  match old with
  | Some b => Some (Some (Z.max (b - balance) 0))
  | None => None
  end.

Definition set_time (n : node) (x : option Z) : node := mkNode x (bandwidth_balance n) (n_status n) (n_regdate n).
Definition set_bandwidth (n : node) (x : option Z) : node := mkNode (time_balance n) x (n_status n) (n_regdate n).

(** An UPDATE of the balance [get] of a node, and whether it changed a row (the
    server reports changed rows). *)
Definition update_balance (E : env) (st : stmt) (get : node -> option Z) (set : node -> option Z -> node)
  (new : option Z -> Z -> option (option Z)) (tenant : Z) (mac : bytes) (balance : Z) (s : acct)
  : acct * (bool * error) :=
  if e_fails E st then (s, (false, Some sql_error))
  else
    let k := (tenant, e_macString E mac) in
    match a_node s !! k with
    | None => (s, (false, None))
    | Some n =>
        match new (get n) balance with
        | Some x =>
            if settled E n && negb (bool_decide (x = get n)) then
              (with_node (fun m => <[k := set n x]> m) s, (true, None))
            else (s, (false, None))
        | None => (s, (false, None))
        end
    end.

Definition SoftNodeTimeBalanceUpdate (E : env) := update_balance E SoftTimeStmt time_balance set_time soft_set.
Definition NodeTimeBalanceSubtract (E : env) := update_balance E TimeSubtractStmt time_balance set_time subtract_set.
Definition SoftNodeBandwidthBalanceUpdate (E : env) :=
  update_balance E SoftBandwidthStmt bandwidth_balance set_bandwidth soft_set.
Definition NodeBandwidthBalanceSubtract (E : env) :=
  update_balance E BandwidthSubtractStmt bandwidth_balance set_bandwidth subtract_set.

(** IsNodeTimeBalanceZero and IsNodeBandwidthBalanceZero pass the address as a
    mac.Mac, the other statements as its string. *)
Definition is_zero (E : env) (st : stmt) (get : node -> option Z) (tenant : Z) (mac : bytes) (s : acct) : bool :=
  negb (e_fails E st) &&
  match e_macArg E mac with
  | Some m => match a_node s !! (tenant, m) with
              | Some n => bool_decide (get n = Some 0)
              | None => false
              end
  | None => false
  end.

Definition IsNodeTimeBalanceZero (E : env) := is_zero E TimeZeroStmt time_balance.
Definition IsNodeBandwidthBalanceZero (E : env) := is_zero E BandwidthZeroStmt bandwidth_balance.

(** ** Requests *)

(** The attributes the handlers read; [r_timestamp] is [None] when the packet
    has no Event-Timestamp. *)
Record request := mkRequest {
  r_status : Z;
  r_UserName : bytes;
  r_CallingStationID : string;
  r_AcctSessionID : bytes;
  r_InputOctets : Z; r_OutputOctets : Z; r_InputGigawords : Z; r_OutputGigawords : Z;
  r_SessionTime : Z;
  r_timestamp : option Z;
  r_attributes : list (Z * list bytes);
  r_RemoteAddr : string
}.

Definition Value_Stop : Z := 2.
Definition Value_InterimUpdate : Z := 3.
Definition ACCOUNTING_POLICY_BANDWIDTH : string := "BandwidthExpired".
Definition ACCOUNTING_POLICY_TIME : string := "TimeExpired".

(** Time.Truncate on nanoseconds since the zero time. *)
Definition Truncate (t d : Z) : Z := if decide (d <= 0) then t else t - t `mod` d.

Definition accountingUniqueSessionId (E : env) (r : request) : Z :=
  e_hash E (r_UserName r ++ [44] ++ bytes_of_string (r_CallingStationID r) ++ [44] ++ r_AcctSessionID r).

(** ** Handlers *)

Definition getNodeSessionFromCache (session : Z) (s : acct) : option nodeSession := a_cache s !! session.
Definition setNodeSessionCache (session : Z) (ns : nodeSession) : acct -> acct :=
  with_cache (fun m => <[session := ns]> m).
Definition deleteNodeSessionFromCache (session : Z) : acct -> acct := with_cache (fun m => delete session m).

Definition clamp (z : Z) : Z := if decide (z < 0) then 0 else z.

(** handleTimeBalance; a cached nodeSession is updated in place. *)
Definition handleTimeBalance (E : env) (r : request) (tenant session : Z) (s : acct) : acct :=
  let t := r_SessionTime r in
  if decide (t = 0) then s
  else
    let mac := (e_mac E (r_CallingStationID r)).1 in
    let isUnreg := (IsUnreg E (e_macString E mac) tenant s).1 in
    let ns := getNodeSessionFromCache session s in
    if decide (r_status r = Value_Stop) then
      deleteNodeSessionFromCache session
        (if isUnreg then s
         else
           let t := match ns with Some ns => clamp (i64 (t - timeBalance ns)) | None => t end in
           let '(s, (ok, _)) := NodeTimeBalanceSubtract E tenant mac t s in
           if ok && IsNodeTimeBalanceZero E tenant mac s
           then Notify (e_macString E mac) ACCOUNTING_POLICY_TIME tenant s else s)
    else if isUnreg then
      setNodeSessionCache session
        (mkNodeSession (-1) (match ns with Some ns => bandwidthBalance ns | None => 0 end)) s
    else
      let '(s, t) :=
        match ns with
        | None => (s, t)
        | Some ns =>
            if decide (timeBalance ns = -1)
            then (setNodeSessionCache session (mkNodeSession t (bandwidthBalance ns)) s, t)
            else (s, clamp (i64 (t - timeBalance ns)))
        end in
      if decide (t > 0) then
        let '(s, (ok, _)) := SoftNodeTimeBalanceUpdate E tenant mac t s in
        if ok then Notify (e_macString E mac) ACCOUNTING_POLICY_TIME tenant s else s
      else s.

Definition handleBandwidthBalance (E : env) (r : request) (tenant balance : Z) (s : acct) : acct :=
  if decide (balance = 0) then s
  else
    let mac := (e_mac E (r_CallingStationID r)).1 in
    if decide (r_status r = Value_Stop) then
      let '(s, (ok, _)) := NodeBandwidthBalanceSubtract E tenant mac balance s in
      if ok && IsNodeBandwidthBalanceZero E tenant mac s
      then Notify (e_macString E mac) ACCOUNTING_POLICY_BANDWIDTH tenant s else s
    else
      let '(s, (ok, _)) := SoftNodeBandwidthBalanceUpdate E tenant mac balance s in
      if ok then Notify (e_macString E mac) ACCOUNTING_POLICY_BANDWIDTH tenant s else s.

Definition sendRadiusAccounting (E : env) (r : request) (tenant : Z) : gst acct unit :=
  (attr <-- gst_lift (packetToMap E (r_attributes r)) ;;
   let attr := <["PF_HEADERS" := JMap [("X-FreeRADIUS-Server", JStr "packetfence");
                                       ("X-FreeRADIUS-Section", JStr "accounting")]]> attr in
   let fix_ip := match attr !! "NAS-IP-Address" with
                 | Some (JStr val) => bool_decide (val = "0.0.0.0")
                 | Some _ => false
                 | None => true
                 end in
   let attr := if fix_ip
               then <["NAS-IP-Address" := JStr (default EmptyString (head (Split (r_RemoteAddr r) ":"%char)))]> attr
               else attr in
   gst_do (Call attr tenant))%go.

(** handleAccountingRequest, run by the worker of the queue of the address. *)
Definition handleAccountingRequest (E : env) (r : request) (tenant : Z) (mac : bytes) : gst acct unit :=
  let in_bytes := counter (r_InputOctets r) (r_InputGigawords r) in
  let out_bytes := counter (r_OutputOctets r) (r_OutputGigawords r) in
  let timestamp := Truncate (default (e_now E) (r_timestamp r)) (e_TimeDuration E) in
  let node_id := e_NodeId E mac (u16 tenant) in
  let session := accountingUniqueSessionId E r in
  (gst_do (fun s => (InsertBandwidthAccounting E node_id session timestamp in_bytes out_bytes s).1) ;;;
   gst_do (fun s => if decide (r_status r = Value_Stop) then CloseSession E node_id session s else s) ;;;
   sendRadiusAccounting E r tenant ;;;
   gst_do (handleTimeBalance E r tenant session) ;;;
   gst_do (handleBandwidthBalance E r tenant (i64 (in_bytes + out_bytes))))%go.

(** HandleAccounting up to the queue: the queue a request goes to, or [None]
    when its status is ignored. *)
Definition HandleAccounting (E : env) (queues : Z) (r : request) : option (go Z) :=
  if decide (r_status r > Value_InterimUpdate) then None
  else Some (queueIndex (e_mac E (r_CallingStationID r)).1 queues).

(** ** Theorems *)

(** *** Queues *)

Lemma djb2_step h c : u64 (u64 (u64 (Z.shiftl h 5) + h) + c) = u64 (h * 33 + c).
Proof.
  unfold wrapU. rewrite Z.shiftl_mul_pow2 by lia.
  rewrite Zplus_mod_idemp_l, <- Z.add_assoc, Zplus_mod_idemp_l. f_equal. lia.
Qed.

(** The hash without wrap-around in its steps. *)
Fixpoint djb2_poly (h : Z) (s : bytes) : Z :=
  match s with
  | [] => h
  | c :: s' => djb2_poly (h * 33 + c) s'
  end.

Lemma djb2_poly_cong s : forall h h', u64 h = u64 h' -> u64 (djb2_poly h s) = u64 (djb2_poly h' s).
Proof.
  induction s as [|c s IH]; intros h h' H; [done|]. apply IH. unfold wrapU in *.
  rewrite Zplus_mod, (Zmult_mod h), H, <- Zmult_mod, <- Zplus_mod. done.
Qed.

Lemma u64_idem z : u64 (u64 z) = u64 z.
Proof. apply wrapU_idem. lia. Qed.

Lemma djb2_fold s : forall h, is_u 64 h ->
  fold_left (fun hash c => u64 (u64 (u64 (Z.shiftl hash 5) + hash) + c)) s h = u64 (djb2_poly h s).
Proof.
  induction s as [|c s IH]; intros h Hh; cbn [fold_left djb2_poly].
  - by rewrite wrapU_small.
  - rewrite djb2_step, IH by (apply wrapU_range; lia). apply djb2_poly_cong, u64_idem.
Qed.

(** The shift form of the hash is the multiplication by 33 it replaces:
    the 64-bit hash is the polynomial in 33 modulo 2^64. *)
Theorem djb2Hash_is_times_33 s : djb2Hash s = u64 (djb2_poly 5381 s).
Proof. apply djb2_fold. unfold is_u. lia. Qed.

(** Every request of an address goes to one existing queue. *)
Lemma queueIndex_in_range mac queues : 0 < queues ->
  exists i, queueIndex mac queues = Ret i /\ 0 <= i < queues.
Proof.
  intros H. unfold queueIndex. rewrite decide_False by lia. eexists; split; [done|]. apply Z.mod_pos_bound. lia.
Qed.

(** *** Counters *)

Lemma counter_exact octets giga : is_u 32 octets -> 0 <= giga < 2 ^ 31 -> counter octets giga = octets + giga * 2 ^ 32.
Proof.
  unfold is_u, counter. intros. rewrite Z.shiftl_mul_pow2 by lia.
  rewrite (wrapS_small 64 (giga * 2 ^ 32)) by (unfold is_s; lia).
  apply wrapS_small; unfold is_s; lia.
Qed.

(** *** Time buckets *)

Section Total.
Context (f : Z * Z -> Z).

Lemma total_delete b k v : b !! k = Some v -> total_bytes f b = f v + total_bytes f (delete k b).
Proof. intros H. unfold total_bytes. by rewrite (map_fold_delete_L _ _ k v b) by (done || lia). Qed.

Lemma total_insert b k v : total_bytes f (<[k := v]> b) = f v + total_bytes f (delete k b).
Proof. rewrite (total_delete _ k v) by apply lookup_insert_eq. by rewrite delete_insert_eq. Qed.

Definition nonneg (b : buckets) : Prop := map_Forall (fun _ v => 0 <= f v) b.

Lemma total_nonneg b : nonneg b -> 0 <= total_bytes f b.
Proof.
  induction b as [|k v b Hk IH] using map_ind; intros H; [done|].
  apply map_Forall_insert in H as [H1 H2]; [|done].
  rewrite total_insert, delete_id by done. specialize (IH H2). lia.
Qed.

Lemma total_delete_le b k : nonneg b -> 0 <= total_bytes f (delete k b) <= total_bytes f b.
Proof.
  intros H. assert (nonneg (delete k b)) by by apply map_Forall_delete.
  split; [by apply total_nonneg|].
  destruct (b !! k) as [v|] eqn:E; [|by rewrite delete_id].
  rewrite (total_delete b k v E). specialize (H _ _ E). simpl in H. lia.
Qed.

End Total.

(** A session whose rows hold [i] and [o] bytes in all, none negative. *)
Definition holds (i o : Z) (b : buckets) : Prop :=
  nonneg fst b /\ nonneg snd b /\ total_bytes fst b = i /\ total_bytes snd b = o.

Lemma holds_empty : holds 0 0 ∅.
Proof. split; [|split]; [apply map_Forall_empty..|done]. Qed.

Lemma sql_insert_accounting_holds i o i' o' bucket b :
  holds i o b -> i <= i' -> o <= o' -> holds i' o' (sql_insert_accounting bucket i' o' b).
Proof.
  intros (Hi & Ho & <- & <-) Hi' Ho'.
  pose proof (total_delete_le fst b bucket Hi). pose proof (total_delete_le snd b bucket Ho).
  unfold sql_insert_accounting, holds. rewrite !total_insert; cbn [fst snd].
  split; [|split]; [apply map_Forall_insert_2; [cbn; lia|done]..|lia].
Qed.

(** *** The handlers keep the rows *)

Definition same_rows (s s' : acct) : Prop := a_rows s' = a_rows s.

Global Instance same_rows_pre : PreOrder same_rows.
Proof. split; [done|]. unfold same_rows. intros ??? -> ->. done. Qed.

Lemma update_balance_rows E st get set new tenant mac balance s :
  same_rows s (update_balance E st get set new tenant mac balance s).1.
Proof. unfold update_balance, same_rows. repeat case_match; done. Qed.

(** The branches of a handler whose only table access is [update_balance]. *)
Ltac walk_balance :=
  repeat (case_match; simplify_eq/=; try done);
    repeat match goal with H : update_balance ?E ?a ?b ?c ?d ?e ?f ?g ?s = _ |- _ =>
      pose proof (update_balance_rows E a b c d e f g s) as ?Hr; rewrite H in *; clear H end;
    unfold same_rows in *; simpl in *; congruence.

Lemma handleTimeBalance_rows E r tenant session s : same_rows s (handleTimeBalance E r tenant session s).
Proof.
  unfold handleTimeBalance, NodeTimeBalanceSubtract, SoftNodeTimeBalanceUpdate, same_rows.
  walk_balance.
Qed.

Lemma handleBandwidthBalance_rows E r tenant balance s : same_rows s (handleBandwidthBalance E r tenant balance s).
Proof.
  unfold handleBandwidthBalance, NodeBandwidthBalanceSubtract, SoftNodeBandwidthBalanceUpdate, same_rows.
  walk_balance.
Qed.

Lemma CloseSession_rows E node_id session s : same_rows s (CloseSession E node_id session s).
Proof. unfold CloseSession, same_rows. by repeat case_match. Qed.

Lemma sendRadiusAccounting_rows E r tenant : pres same_rows (sendRadiusAccounting E r tenant).
Proof. unfold sendRadiusAccounting. pres_walk; by apply pres_do. Qed.

#[export] Hint Resolve sendRadiusAccounting_rows : pres.

Definition requestIn (r : request) : Z := counter (r_InputOctets r) (r_InputGigawords r).
Definition requestOut (r : request) : Z := counter (r_OutputOctets r) (r_OutputGigawords r).
Definition requestBucket (E : env) (r : request) : Z :=
  Truncate (default (e_now E) (r_timestamp r)) (e_TimeDuration E).

Lemma handleAccountingRequest_rows E r tenant mac s :
  a_rows (handleAccountingRequest E r tenant mac s).1 =
  a_rows (InsertBandwidthAccounting E (e_NodeId E mac (u16 tenant)) (accountingUniqueSessionId E r)
            (requestBucket E r) (requestIn r) (requestOut r) s).1.
Proof.
  unfold handleAccountingRequest. cbn zeta. unfold gst_bind at 1. cbn [gst_do]. cbv beta iota.
  match goal with |- a_rows (?c ?s0).1 = _ => assert (pres same_rows c) as Hc; [|exact (Hc s0)] end.
  pres_walk; apply pres_do; intros s0.
  - case_match; [apply CloseSession_rows|done].
  - apply handleTimeBalance_rows.
  - apply handleBandwidthBalance_rows.
Qed.

(** Requests of one session, each handled in its own environment; a panic ends the
    process. *)
Fixpoint run (tenant : Z) (mac : bytes) (l : list (env * request)) : gst acct unit :=
  match l with
  | [] => gst_ret tt
  | (E, r) :: l' => (handleAccountingRequest E r tenant mac ;;; run tenant mac l')%go
  end.

(** The requests belong to the session of the key [k], and their counters do not
    decrease from [i] and [o] in the order in which they are handled. *)
Fixpoint session_run (tenant : Z) (mac : bytes) (k : Z * Z) (i o : Z) (l : list (env * request)) : Prop :=
  match l with
  | [] => True
  | (E, r) :: l' =>
      (e_NodeId E mac (u16 tenant), accountingUniqueSessionId E r) = k /\
      i <= requestIn r /\ o <= requestOut r /\
      session_run tenant mac k (requestIn r) (requestOut r) l'
  end.

(** The counters of the last request whose insert succeeded, from [d]. *)
Fixpoint last_counters (d : Z * Z) (l : list (env * request)) : Z * Z :=
  match l with
  | [] => d
  | (E, r) :: l' => last_counters (if e_fails E InsertStmt then d else (requestIn r, requestOut r)) l'
  end.

Lemma insert_holds E r tenant mac k i o s :
  (e_NodeId E mac (u16 tenant), accountingUniqueSessionId E r) = k -> i <= requestIn r -> o <= requestOut r ->
  holds i o (default ∅ (a_rows s !! k)) ->
  let d := if e_fails E InsertStmt then (i, o) else (requestIn r, requestOut r) in
  holds d.1 d.2 (default ∅ (a_rows (handleAccountingRequest E r tenant mac s).1 !! k)).
Proof.
  intros Hk Hi Ho Hs d. rewrite handleAccountingRequest_rows. unfold InsertBandwidthAccounting, d.
  destruct (e_fails E InsertStmt); [done|]. rewrite Hk. cbn. rewrite lookup_insert_eq. by apply (sql_insert_accounting_holds i o).
Qed.

Lemma run_holds tenant mac k l : forall i o i0 o0 s,
  session_run tenant mac k i o l -> i0 <= i -> o0 <= o -> holds i0 o0 (default ∅ (a_rows s !! k)) ->
  exists l1 l2, l = app l1 l2 /\ ((run tenant mac l s).2 = Ret tt -> l2 = []) /\ (l <> [] -> l1 <> []) /\
    holds (last_counters (i0, o0) l1).1 (last_counters (i0, o0) l1).2 (default ∅ (a_rows (run tenant mac l s).1 !! k)).
Proof.
  induction l as [|[E r] l IH]; intros i o i0 o0 s Hl Hi0 Ho0 Hs; [by exists [], []|].
  destruct Hl as (Hk & Hi & Ho & Hl). pose proof (insert_holds E r tenant mac k i0 o0 s Hk ltac:(lia) ltac:(lia) Hs) as Hins.
  cbn [run]. unfold gst_bind. destruct (handleAccountingRequest E r tenant mac s) as [s' [[]|m]]; cbn [fst] in Hins.
  - set (d := if e_fails E InsertStmt then _ else _) in Hins.
    destruct (IH _ _ d.1 d.2 s' Hl) as (l1 & l2 & -> & Hr & _ & Hh); [unfold d; destruct (e_fails _ _); cbn; lia..|done|].
    exists ((E, r) :: l1), l2. split_and!; [done|done|done|]. cbn [last_counters]. fold d. by destruct d.
  - exists [(E, r)], l. split_and!; [done|done|done|done].
Qed.

(** C31.  Let a session without rows get requests whose counters do not decrease in
    the order in which they are handled, in whatever time buckets (a request may
    come again at once, but not after later counters).  Then the rows of the session
    sum up to the counters of the last request that was handled and whose insert
    succeeded: the buckets share out the cumulative counters without losing or
    repeating a byte.  All requests are handled unless one of them panics, which
    ends the process. *)
Theorem accounted_bytes_are_last_counters tenant mac k l s :
  a_rows s !! k = None ->
  session_run tenant mac k 0 0 l ->
  exists l1 l2, l = app l1 l2 /\ ((run tenant mac l s).2 = Ret tt -> l2 = []) /\ (l <> [] -> l1 <> []) /\
    let rows := default ∅ (a_rows (run tenant mac l s).1 !! k) in
    (total_bytes fst rows, total_bytes snd rows) = last_counters (0, 0) l1.
Proof.
  intros Hs Hl. destruct (run_holds tenant mac k l 0 0 0 0 s Hl) as (l1 & l2 & E & Hr & Hne & (_ & _ & Hi & Ho)); [lia|lia| |].
  - rewrite Hs. apply holds_empty.
  - exists l1, l2. split_and!; [done|done|done|]. cbn zeta. rewrite Hi, Ho. by destruct (last_counters _ _).
Qed.

(** *** Balances *)

(** The time a Stop packet charges. *)
Definition charge (t : Z) (ns : option nodeSession) : Z :=
  match ns with
  | Some ns => Z.max (t - timeBalance ns) 0
  | None => t
  end.

Definition in_range (t : Z) (ns : option nodeSession) : Prop :=
  0 < t < 2 ^ 32 /\ forall x, ns = Some x -> -1 <= timeBalance x < 2 ^ 32.

Lemma clamp_charge t ns : in_range t ns ->
  match ns with Some ns => clamp (i64 (t - timeBalance ns)) | None => t end = charge t ns.
Proof.
  intros [H1 H2]. destruct ns as [x|]; [|done]. specialize (H2 x eq_refl). cbn [charge].
  rewrite wrapS_small by (unfold is_s; lia). unfold clamp. case_decide; lia.
Qed.

Section Balance.
Context (E : env) (r : request) (tenant session : Z) (s : acct) (n : node) (b : Z).

Abbreviation rmac := ((e_mac E (r_CallingStationID r)).1).
Abbreviation rkey := ((tenant, e_macString E rmac)).

(** The node of the request: registered, with a time balance. *)
Definition registered : Prop :=
  a_node s !! rkey = Some n /\ time_balance n = Some b /\ n_status n <> "unreg" /\ settled E n = true.

Lemma registered_not_unreg : registered -> (IsUnreg E (e_macString E rmac) tenant s).1 = false.
Proof. intros (Hn & _ & Hu & _). unfold IsUnreg. rewrite Hn. case_match; [done|]. by rewrite decide_False. Qed.

(** An UPDATE on the time balance of the registered node. *)
Lemma update_time_balance st new t x :
  registered -> e_fails E st = false -> new (Some b) t = Some (Some x) ->
  update_balance E st time_balance set_time new tenant rmac t s =
  if decide (x = b) then (s, (false, None))
  else (with_node (fun m => <[rkey := set_time n (Some x)]> m) s, (true, None)).
Proof.
  intros (Hn & Hb & _ & Hs) Hf Hx. unfold update_balance. rewrite Hf, Hn, Hb, Hx, Hs. cbn [andb].
  case_decide; [rewrite bool_decide_true by congruence|rewrite bool_decide_false by congruence]; done.
Qed.

Lemma set_time_same : time_balance n = Some b -> set_time n (Some b) = n.
Proof. unfold set_time. destruct n. cbn. by intros ->. Qed.

(** A Stop packet of a registered node takes the time of the session, less
    the cached part, off the balance, never below 0; it forgets the session,
    touches no other node, and the security event TimeExpired is sent exactly
    when this used up a positive balance, provided that the driver accepts an
    address as the statement's argument. *)
Theorem stop_charges_session_time :
  r_status r = Value_Stop -> in_range (r_SessionTime r) (a_cache s !! session) ->
  registered -> 0 <= b ->
  e_fails E TimeSubtractStmt = false -> e_fails E TimeZeroStmt = false ->
  e_macArg E rmac = Some (e_macString E rmac) ->
  let c := charge (r_SessionTime r) (a_cache s !! session) in
  let s' := handleTimeBalance E r tenant session s in
  a_node s' = <[rkey := set_time n (Some (Z.max (b - c) 0))]> (a_node s) /\
  a_cache s' = delete session (a_cache s) /\
  a_events s' = a_events s ++
    (if decide (0 < b <= c) then [(e_macString E rmac, ACCOUNTING_POLICY_TIME, tenant)] else []).
Proof.
  intros Hst Hr Hreg Hb Hf1 Hf2 Harg c s'.
  assert (0 <= c) as Hc by (unfold c, charge; destruct Hr; case_match; lia).
  subst s'. unfold handleTimeBalance.
  rewrite decide_False by (destruct Hr; lia). rewrite decide_True by done.
  rewrite registered_not_unreg by done. unfold getNodeSessionFromCache. rewrite clamp_charge by done. fold c.
  unfold NodeTimeBalanceSubtract. rewrite (update_time_balance _ _ c (Z.max (b - c) 0)) by done.
  destruct (decide (Z.max (b - c) 0 = b)) as [e|ne].
  - cbn [andb deleteNodeSessionFromCache with_cache a_node a_cache a_events].
    rewrite decide_False by lia. rewrite app_nil_r, e. destruct Hreg as (Hn & Ht & _).
    rewrite set_time_same, insert_id; done.
  - unfold IsNodeTimeBalanceZero, is_zero. rewrite Hf2, Harg. cbn. rewrite lookup_insert_eq. cbn.
    destruct (decide (0 < b <= c)).
    + rewrite bool_decide_true by (f_equal; lia). done.
    + rewrite bool_decide_false by (intros [=]; lia). by rewrite app_nil_r.
Qed.

(** Time spent before registration is charged: the first packet after an
    unregistered node registers records its session time as the part not to
    charge, but compares the balance with the whole of it, so that a session
    already older than the balance has it set to 0 and raises TimeExpired at
    once. *)
Theorem time_before_registration_is_charged :
  r_status r <> Value_Stop -> 0 < r_SessionTime r ->
  registered -> 0 < b <= r_SessionTime r ->
  e_fails E SoftTimeStmt = false ->
  timeBalance <$> a_cache s !! session = Some (-1) ->
  let s' := handleTimeBalance E r tenant session s in
  a_node s' = <[rkey := set_time n (Some 0)]> (a_node s) /\
  timeBalance <$> a_cache s' !! session = Some (r_SessionTime r) /\
  a_events s' = a_events s ++ [(e_macString E rmac, ACCOUNTING_POLICY_TIME, tenant)].
Proof.
  intros Hst Ht Hreg Hb Hf Hns. cbn zeta. unfold handleTimeBalance.
  rewrite decide_False by lia. rewrite decide_False by done. rewrite registered_not_unreg by done.
  unfold getNodeSessionFromCache. destruct (a_cache s !! session) as [ns|]; [|done].
  cbn in Hns. injection Hns as Hns. rewrite decide_True by done. rewrite decide_True by lia.
  destruct Hreg as (Hn & Hbal & Hu & Hs).
  unfold SoftNodeTimeBalanceUpdate, update_balance. rewrite Hf. cbn [a_node setNodeSessionCache with_cache].
  rewrite Hn, Hbal. cbn [soft_set]. rewrite decide_True by lia. rewrite Hs. cbn [andb].
  rewrite bool_decide_false by (intros [=]; lia). cbn. by rewrite lookup_insert_eq.
Qed.

End Balance.

(** *** Vendor attributes *)

(** Every round takes two bytes or more: the length of the data is enough
    fuel. *)
Lemma vsa_loop_fuel E v : forall n m vsa a,
  (length vsa <= n)%nat -> (length vsa <= m)%nat -> vsa_loop n E v vsa a = vsa_loop m E v vsa a.
Proof.
  induction n as [|n IH]; intros [|m] vsa a Hn Hm;
    destruct vsa as [|t [|len [|x vsa]]]; try (cbn in Hn, Hm; lia); try done.
  cbn [vsa_loop]. case_decide; [done|].
  assert (length (drop (Z.to_nat len) (t :: len :: x :: vsa)) <= length vsa + 1)%nat as Hd
    by (rewrite length_drop; cbn [length]; lia).
  cbn [length] in Hn, Hm. case_match; apply IH; lia.
Qed.

(** The attributes of a vendor as a switch encodes them. *)
Definition encode_vsa (l : list (Z * bytes)) : bytes :=
  concat ((fun '(t, d) => t :: Z.of_nat (2 + length d) :: d) <$> l).

Definition add_vsa (E : env) (v : Z -> option attribute) (a : gmap string jv) (x : Z * bytes) : gmap string jv :=
  match v x.1 with
  | None => a
  | Some da => addAttributeToMap E a da x.2
  end.

Lemma vsa_loop_encode E v rest l : forall fuel a,
  Forall (fun x => x.2 <> []) l -> (length l <= fuel)%nat ->
  vsa_loop fuel E v (encode_vsa l ++ rest) a = vsa_loop (fuel - length l) E v rest (fold_left (add_vsa E v) l a).
Proof.
  induction l as [|[t d] l IH]; intros fuel a Hl Hf; [by rewrite Nat.sub_0_r|].
  apply Forall_cons in Hl as [Hd Hl]. destruct fuel as [|fuel]; [cbn in Hf; lia|].
  destruct d as [|c d]; [done|].
  change (encode_vsa ((t, c :: d) :: l) ++ rest) with
    (t :: Z.of_nat (3 + length d) :: c :: (d ++ encode_vsa l) ++ rest).
  cbn [vsa_loop]. rewrite decide_False by (cbn [length]; rewrite !length_app; lia).
  rewrite Nat2Z.id, <- app_assoc. cbn [Nat.add take drop fold_left length Nat.sub].
  rewrite take_app_length, drop_app_length. cbn in Hf. unfold add_vsa at 2. cbn [fst snd].
  case_match; apply IH; (done || lia).
Qed.

Lemma length_encode_vsa l : (length l <= length (encode_vsa l))%nat.
Proof.
  induction l as [|[t d] l IH]; [cbn; lia|].
  change (encode_vsa ((t, d) :: l)) with (t :: Z.of_nat (2 + length d) :: d ++ encode_vsa l).
  cbn [length]. rewrite length_app. lia.
Qed.

(** Well-formed attributes are all read: the fuel of [vendor_attributes] is
    enough. *)
Lemma vsa_loop_roundtrip E v l a :
  Forall (fun x => x.2 <> []) l ->
  vsa_loop (length (encode_vsa l)) E v (encode_vsa l) a = Ret (fold_left (add_vsa E v) l a).
Proof.
  intros Hl. rewrite <- (app_nil_r (encode_vsa l)) at 2. rewrite vsa_loop_encode; [|done|].
  - by destruct (_ - _)%nat.
  - apply length_encode_vsa.
Qed.

(** Attributes of a known vendor that are well formed up to one whose length
    byte is below 2 or beyond the data. *)
Definition malformed (E : env) (vattrs : bytes) : Prop :=
  exists id v l t len x rest,
    e_VendorSpecific E vattrs = Some (id, encode_vsa l ++ t :: len :: x :: rest) /\ e_vendor E id = Some v /\
    Forall (fun x => x.2 <> []) l /\ (len < 2 \/ Z.of_nat (length (t :: len :: x :: rest)) < len).

Definition panics {A : Type} (c : go A) : Prop := exists msg, c = Panic msg.

Lemma malformed_vendor_panics E vs vattrs : malformed E vattrs -> vattrs ∈ vs -> forall a, panics (vendor_attributes E vs a).
Proof.
  intros Hm. induction vs as [|x vs IH]; intros Hin a; [by apply not_elem_of_nil in Hin|].
  apply elem_of_cons in Hin as [<-|Hin]; cbn [vendor_attributes].
  - destruct Hm as (id & v & l & t & len & c & rest & -> & -> & Hl & Hlen). exists slice_panic.
    pose proof (length_encode_vsa l) as Hle.
    rewrite vsa_loop_encode by (done || rewrite length_app; lia).
    rewrite length_app. cbn [length].
    replace (length (encode_vsa l) + S (S (S (length rest))) - length l)%nat with (S (length (encode_vsa l) + S (S (length rest)) - length l)) by lia.
    cbn [vsa_loop]. by rewrite decide_True.
  - repeat case_match; eauto. destruct (vsa_loop _ _ _ _ _) as [a'|msg]; cbn; [eauto|by exists msg].
Qed.

Lemma malformed_packet_panics E p vs vattrs :
  malformed E vattrs -> vattrs ∈ vs -> (VendorSpecific_Type, vs) ∈ p -> forall a, panics (packet_attributes E p a).
Proof.
  intros Hm Hv. induction p as [|[i attr] p IH]; intros Hin a; [by apply not_elem_of_nil in Hin|].
  apply elem_of_cons in Hin as [[= <- <-]|Hin]; cbn [packet_attributes].
  - rewrite decide_True by done. destruct (malformed_vendor_panics E vs vattrs Hm Hv a) as [msg ->]. by exists msg.
  - repeat case_match; eauto; [|by eexists].
    destruct (vendor_attributes _ _ _) as [a'|msg]; cbn; [eauto|by exists msg].
Qed.

(** A vendor attribute with a length byte below 2 or beyond the packet makes
    the worker panic, wherever it is in the packet and in whatever order the
    attributes are visited: the bytes are accounted, but neither the accounting
    call nor the balances are reached. *)
Theorem malformed_vendor_attribute_panics E r tenant mac s vs vattrs :
  malformed E vattrs -> vattrs ∈ vs -> (VendorSpecific_Type, vs) ∈ r_attributes r ->
  let '(s', res) := handleAccountingRequest E r tenant mac s in
  panics res /\ a_node s' = a_node s /\ a_calls s' = a_calls s /\ a_events s' = a_events s /\
  a_rows s' = a_rows (InsertBandwidthAccounting E (e_NodeId E mac (u16 tenant)) (accountingUniqueSessionId E r)
                        (requestBucket E r) (requestIn r) (requestOut r) s).1.
Proof.
  intros Hm Hv Hp. pose proof (handleAccountingRequest_rows E r tenant mac s) as Hrows. revert Hrows.
  destruct (malformed_packet_panics E _ vs vattrs Hm Hv Hp ∅) as [msg Hmsg].
  unfold handleAccountingRequest, sendRadiusAccounting, packetToMap. rewrite Hmsg.
  cbv [gst_bind gst_do gst_lift go_bind]. intros Hrows. split; [by exists msg|].
  unfold CloseSession, InsertBandwidthAccounting in *. repeat case_match; done.
Qed.

(** *** Concrete instances *)

(** Addresses are their strings, vendor 9 knows attribute 1, and every
    statement succeeds; the time is one minute after the zero time. *)
Definition demo_env (now : Z) : env :=
  mkEnv (fun _ b => Some (JStr (string_of_bytes b)))
    (fun b => match b with w :: x :: y :: z :: rest => Some (z, rest) | _ => None end)
    (fun id => if decide (id = 9) then
                 Some (fun t => if decide (t = 1) then Some (mkAttribute "Cisco-AVPair" AttributeString) else None)
               else None)
    (fun i => if decide (i = 31) then Some (mkAttribute "Calling-Station-Id" AttributeString) else None)
    (fun s => (bytes_of_string s, true)) string_of_bytes (fun _ t => t) djb2Hash
    (fun b => Some (string_of_bytes b)) (fun _ => false) now (60 * 10 ^ 9).

Definition demo_request (status inb outb t : Z) (attrs : list (Z * list bytes)) : request :=
  mkRequest status [117] "02" [49] inb outb 0 0 t None attrs "10.0.0.1:1813".

Definition demo_state (n : node) (cache : gmap Z nodeSession) : acct :=
  mkAcct {[(1, "02") := n]} ∅ ∅ cache [] [].

Definition demo_session : Z := accountingUniqueSessionId (demo_env 0) (demo_request 3 0 0 0 []).

Definition demo_run : list (env * request) :=
  [(demo_env (90 * 10 ^ 9), demo_request 3 100 10 30 []); (demo_env (150 * 10 ^ 9), demo_request 3 250 10 90 []);
   (demo_env (155 * 10 ^ 9), demo_request 3 250 10 90 []); (demo_env (200 * 10 ^ 9), demo_request 2 400 25 140 [])].

Definition demo_start : acct := demo_state (mkNode None None "reg" 0) ∅.

Lemma demo_run_returns : (run 1 [48; 50] demo_run demo_start).2 = Ret tt.
Proof. vm_compute. reflexivity. Qed.

Lemma accounted_bytes_are_last_counters_witness :
  let rows := default ∅ (a_rows (run 1 [48; 50] demo_run demo_start).1 !! (1, demo_session)) in
  (total_bytes fst rows, total_bytes snd rows) = (400, 25).
Proof.
  destruct (accounted_bytes_are_last_counters 1 [48; 50] (1, demo_session) demo_run demo_start) as (l1 & l2 & E & Hr & _ & H).
  - vm_compute. reflexivity.
  - cbn [session_run demo_run]. repeat split; vm_compute; congruence.
  - specialize (Hr demo_run_returns). subst l2. rewrite app_nil_r in E. subst l1. exact H.
Defined.

(** An older packet that is repeated after a later one takes bytes away. *)
Example older_packet_takes_bytes_away :
  let l := [(demo_env (90 * 10 ^ 9), demo_request 3 100 10 30 []); (demo_env (150 * 10 ^ 9), demo_request 3 250 10 90 []);
            (demo_env (155 * 10 ^ 9), demo_request 3 100 10 30 [])] in
  total_bytes fst (default ∅ (a_rows (run 1 [48; 50] l demo_start).1 !! (1, demo_session))) = 100.
Proof. vm_compute. reflexivity. Qed.

Definition demo_node : node := mkNode (Some 100) None "reg" 0.

Lemma stop_charges_session_time_witness :
  let s := demo_state demo_node {[7 := mkNodeSession 20 0]} in
  let s' := handleTimeBalance (demo_env 0) (demo_request 2 0 0 130 []) 1 7 s in
  a_node s' !! (1, "02") = Some (mkNode (Some 0) None "reg" 0) /\
  a_events s' = [("02", ACCOUNTING_POLICY_TIME, 1)].
Proof.
  destruct (stop_charges_session_time (demo_env 0) (demo_request 2 0 0 130 []) 1 7
              (demo_state demo_node {[7 := mkNodeSession 20 0]}) demo_node 100) as (H1 & _ & H3).
  - reflexivity.
  - split; [cbn; lia|]. intros x Hx. vm_compute in Hx. injection Hx as <-. cbn. lia.
  - split; [vm_compute; reflexivity|]. split; [reflexivity|]. split; [discriminate|reflexivity].
  - lia.
  - reflexivity.
  - reflexivity.
  - reflexivity.
  - cbv zeta. rewrite H1, H3. split; vm_compute; reflexivity.
Defined.

Lemma time_before_registration_is_charged_witness :
  let s := demo_state demo_node {[7 := mkNodeSession (-1) 0]} in
  let s' := handleTimeBalance (demo_env 0) (demo_request 3 0 0 5000 []) 1 7 s in
  a_node s' !! (1, "02") = Some (mkNode (Some 0) None "reg" 0).
Proof.
  destruct (time_before_registration_is_charged (demo_env 0) (demo_request 3 0 0 5000 []) 1 7
              (demo_state demo_node {[7 := mkNodeSession (-1) 0]}) demo_node 100) as (H1 & _).
  - discriminate.
  - cbn. lia.
  - split; [vm_compute; reflexivity|]. split; [reflexivity|]. split; [discriminate|reflexivity].
  - cbn. lia.
  - reflexivity.
  - vm_compute. reflexivity.
  - cbv zeta. rewrite H1. vm_compute. reflexivity.
Defined.

Lemma malformed_vendor_attribute_panics_witness :
  panics (handleAccountingRequest (demo_env 0) (demo_request 3 5 5 5 [(26, [[0; 0; 0; 9; 1; 3; 65; 1; 0; 65]])])
            1 [48; 50] (demo_state demo_node ∅)).2.
Proof.
  pose proof (malformed_vendor_attribute_panics (demo_env 0)
    (demo_request 3 5 5 5 [(26, [[0; 0; 0; 9; 1; 3; 65; 1; 0; 65]])]) 1 [48; 50] (demo_state demo_node ∅)
    [[0; 0; 0; 9; 1; 3; 65; 1; 0; 65]] [0; 0; 0; 9; 1; 3; 65; 1; 0; 65]) as H.
  destruct (handleAccountingRequest _ _ _ _ _) as [s' res]. apply H.
  - eexists 9, _, [(1, [65])], 1, 0, 65, []. split; [reflexivity|]. split; [reflexivity|]. split; [|left; lia].
    constructor; [discriminate|constructor].
  - constructor.
  - constructor.
Defined.
