(* ===== verification/AcctFlow.v ===== *)
(** NetFlow accounting (src/go/cmd/pfacct/net_flow.go): the bytes of a NetFlow
    packet summed up per allowed address, and the SQL text of the insert; and
    the in-memory buckets of src/go/cmd/pfacct/nodes.go with its locks. *)
From S2P Require Import Prelude NetIP Acct.
From Stdlib Require Import ZArith Lia Ascii.
From stdpp Require Import base gmap strings list.

Open Scope Z_scope.

Module NetFlow.

(** A flow of the netflow5 library: its addresses and octets. *)
Record flow := mkFlow { SrcIP : ip; DstIP : ip; DOctets : Z }.

Record rec := mkRec { Ip : string; UniqueSession : Z; TimeBucket : Z; InBytes : Z; OutBytes : Z }.

Section NetFlow.
(** Printing of addresses that are not IPv4. *)
Context (ip6s : ip -> string).

Definition quote : string := String (Ascii.ascii_of_nat 34) EmptyString.
Definition newline : string := String (Ascii.ascii_of_nat 10) EmptyString.

(** [AppendFormat] prints the time of a bucket. *)
Definition ToSQLSelect (AppendFormat : Z -> string) (r : rec) : string :=
  "SELECT _latin1" +:+ quote +:+ Ip r +:+ quote +:+ " as ip, " +:+ Itoa (UniqueSession r) +:+
  " as unique_session_id, " +:+ Itoa (InBytes r) +:+ " as in_bytes_, " +:+ Itoa (OutBytes r) +:+
  " as out_bytes_, " +:+ quote +:+ AppendFormat (TimeBucket r) +:+ quote +:+ " as time_bucket" +:+ newline.

(** Append: the new record and its index. *)
Definition Append (recs : list rec) (x : ip) (t : Z) : go (list rec * Z) :=
  match x with
  | a :: b :: c :: d :: _ =>
      let unique_session :=
        Z.lor (Z.lor (Z.lor (Z.lor (Z.shiftl 4294967295 32) (u64 (Z.shiftl a 24))) (u64 (Z.shiftl b 16)))
                 (u64 (Z.shiftl c 8))) d in
      Ret (recs ++ [mkRec (IPString ip6s x) unique_session t 0 0], Z.of_nat (length recs))
  | _ => Panic index_panic
  end.

Definition sql_head : string :=
  "INSERT INTO bandwidth_accounting (node_id, tenant_id, mac, unique_session_id, time_bucket, in_bytes, out_bytes, source_type)"
  +:+ newline +:+ "    SELECT * FROM (" +:+ newline +:+
  "        SELECT ((tenant_id << 48) | CAST(CONV(REPLACE(mac," +:+ quote +:+ ":" +:+ quote +:+ "," +:+ quote +:+ quote +:+
  "), 16, 10) AS UNSIGNED)) as node_id, tenant_id, mac, unique_session_id, time_bucket, in_bytes_, out_bytes_, "
  +:+ quote +:+ "net_flow" +:+ quote +:+ " FROM (" +:+ newline +:+ "            ".

Definition sql_tail : string :=
  "        ) as time_buckets INNER JOIN ip4log as ip4 ON time_buckets.ip = ip4.ip" +:+ newline +:+
  "    ) as x" +:+ newline +:+
  "ON DUPLICATE KEY UPDATE in_bytes = in_bytes + VALUES(in_bytes), out_bytes = out_bytes + VALUES(out_bytes), last_updated = NOW();".

Definition ToSQL (AppendFormat : Z -> string) (array : list rec) : string :=
  match array with
  | [] => EmptyString
  | first :: rest =>
      fold_left (fun sql r => sql +:+ "            UNION ALL " +:+ ToSQLSelect AppendFormat r) rest
        (sql_head +:+ ToSQLSelect AppendFormat first) +:+ sql_tail
  end.

(** IpAddressAllowed. *)
Definition IpAddressAllowed (AllNetworks : bool) (AllowedNetworks : list IPNet) (x : ip) : bool :=
  AllNetworks || existsb (fun n => Contains n x) AllowedNetworks.

(** The state of the loop of NetFlowV5ToBandwidthAccounting. *)
Abbreviation st := ((list rec * gmap string Z)%type).

(** The index of an address: -1 when it is not allowed, a new record when it is
    seen first. *)
Definition index_of (allowed : ip -> bool) (t : Z) (x : ip) (s : st) : go (st * Z) :=
  let '(recs, lookup) := s in
  if allowed x then
    match lookup !! IPString ip6s x with
    | Some i => Ret (s, i)
    | None => (p <-! Append recs x t ;; Ret ((p.1, <[IPString ip6s x := p.2]> lookup), p.2))%go
    end
  else Ret (s, -1).

(** recs[i].f += n, when i is not -1. *)
Definition bump (f : rec -> rec) (i : Z) (recs : list rec) : go (list rec) :=
  if decide (i = -1) then Ret recs
  else if decide (0 <= i < Z.of_nat (length recs)) then Ret (alter f (Z.to_nat i) recs)
  else Panic index_panic.

Definition add_out (n : Z) (r : rec) : rec :=
  mkRec (Ip r) (UniqueSession r) (TimeBucket r) (InBytes r) (u64 (OutBytes r + n)).
Definition add_in (n : Z) (r : rec) : rec :=
  mkRec (Ip r) (UniqueSession r) (TimeBucket r) (u64 (InBytes r + n)) (OutBytes r).

Fixpoint flows_loop (allowed : ip -> bool) (t : Z) (flows : list flow) (s : st) : go st :=
  match flows with
  | [] => Ret s
  | f :: flows' =>
      (src <-! index_of allowed t (SrcIP f) s ;;
       dst <-! index_of allowed t (DstIP f) src.1 ;;
       recs <-! bump (add_out (DOctets f)) src.2 dst.1.1 ;;
       recs <-! bump (add_in (DOctets f)) dst.2 recs ;;
       flows_loop allowed t flows' (recs, dst.1.2))%go
  end.

(** The fields of PfAcct that are read. *)
Record pfacct := mkPfAcct { AllNetworks : bool; AllowedNetworks : list IPNet; TimeDuration : Z }.

Record header := mkHeader { UnixSecs : Z; UnixNsecs : Z }.

(** time.Unix in nanoseconds since Go's zero time, 62135596800 seconds before
    the epoch. *)
Definition unixTime (h : header) : Z := (UnixSecs h + 62135596800) * 10 ^ 9 + UnixNsecs h.

Definition NetFlowV5ToBandwidthAccounting (h : pfacct) (hdr : header) (flows : list flow) : go (list rec) :=
  (s <-! flows_loop (IpAddressAllowed (AllNetworks h) (AllowedNetworks h))
           (Truncate (unixTime hdr) (TimeDuration h)) flows ([], ∅) ;;
   Ret s.1)%go.

(** HandleFlows: the statement that is executed, if any. *)
Definition HandleFlows (AppendFormat : Z -> string) (h : pfacct) (hdr : header) (flows : list flow)
  : go (option string) :=
  (recs <-! NetFlowV5ToBandwidthAccounting h hdr flows ;;
   let sql := ToSQL AppendFormat recs in
   Ret (if decide (sql = EmptyString) then None else Some sql))%go.

(** *** Theorems *)

(** The bytes of the flows from, and to, the allowed address printed as [x]. *)
Definition sum_of (allowed : ip -> bool) (dir : flow -> ip) (x : string) (flows : list flow) : Z :=
  foldr (fun f acc => (if allowed (dir f) && bool_decide (IPString ip6s (dir f) = x) then DOctets f else 0) + acc)
    0 flows.

(** The records and the index agree, and the records hold the sums [O] and [I]
    of their address. *)
Definition inv (s : st) (Out In : string -> Z) : Prop :=
  (forall x i, s.2 !! x = Some i <-> exists r, 0 <= i /\ s.1 !! Z.to_nat i = Some r /\ Ip r = x) /\
  (forall n r, s.1 !! n = Some r -> OutBytes r = u64 (Out (Ip r)) /\ InBytes r = u64 (In (Ip r))) /\
  (forall x, s.2 !! x = None -> Out x = 0 /\ In x = 0).

Lemma inv_ext s Out Out' In In' : (forall x, Out x = Out' x) -> (forall x, In x = In' x) -> inv s Out In -> inv s Out' In'.
Proof.
  intros HO HI (H1 & H2 & H3). split; [done|]. split.
  - intros n r Hr. rewrite <- HO, <- HI. eauto.
  - intros x Hx. rewrite <- HO, <- HI. eauto.
Qed.

Lemma Append_ok recs x t : (4 <= length x)%nat ->
  exists u, Append recs x t = Ret (recs ++ [mkRec (IPString ip6s x) u t 0 0], Z.of_nat (length recs)).
Proof. intros H. destruct x as [|a [|b [|c [|d x]]]]; cbn in H; try lia. by eexists. Qed.

Lemma inv_append recs lk Out In x u t :
  inv (recs, lk) Out In -> lk !! x = None ->
  inv (recs ++ [mkRec x u t 0 0], <[x := Z.of_nat (length recs)]> lk) Out In.
Proof.
  intros (H1 & H2 & H3) Hx. cbn [fst snd] in *. destruct (H3 x Hx) as [HO HI]. split; [|split]; cbn [fst snd].
  - intros y i. destruct (decide (y = x)) as [->|ne].
    + rewrite lookup_insert_eq. split.
      * intros [= <-]. eexists. split; [lia|]. by rewrite Nat2Z.id, list_lookup_middle.
      * intros (r & Hi & Hr & Hip). apply lookup_snoc_Some in Hr as [[_ Hr]|[Hr _]].
        -- assert (lk !! x = Some i) as Hl by (apply H1; eauto). congruence.
        -- f_equal. lia.
    + rewrite lookup_insert_ne by done. rewrite H1. split; intros (r & Hi & Hr & Hip).
      * exists r. rewrite lookup_app_l by (eapply lookup_lt_Some; eauto). eauto.
      * exists r. apply lookup_snoc_Some in Hr as [[_ Hr]|[_ <-]]; [done|by destruct ne].
  - intros n r Hr. apply lookup_snoc_Some in Hr as [[_ Hr]|[_ <-]]; [eauto|]. cbn. by rewrite HO, HI.
  - intros y Hy. apply lookup_insert_None in Hy as [Hy _]. eauto.
Qed.

(** The index of an address points to its record, if it is allowed. *)
Lemma index_of_ok (allowed : ip -> bool) t x s Out In :
  (4 <= length x)%nat -> inv s Out In ->
  exists s' i, index_of allowed t x s = Ret (s', i) /\ inv s' Out In /\ s.2 ⊆ s'.2 /\
    (if allowed x then s'.2 !! IPString ip6s x = Some i else i = -1) /\
    (forall y, is_Some (s'.2 !! y) -> is_Some (s.2 !! y) \/ allowed x = true /\ y = IPString ip6s x).
Proof.
  intros Hx Hs. unfold index_of. destruct s as [recs lk].
  destruct (allowed x); [|by eexists _, _; repeat (split; [done|]); auto].
  destruct (lk !! IPString ip6s x) as [i|] eqn:Hl; [by eexists _, _; repeat (split; [done|]); auto|].
  destruct (Append_ok recs x t Hx) as [u ->]. cbn. eexists _, _. split; [done|].
  split; [by apply inv_append|]. cbn. split; [by apply insert_subseteq|].
  split; [apply lookup_insert_eq|]. intros y Hy. apply lookup_insert_is_Some in Hy. naive_solver.
Qed.

(** Adding to the record of an address adds to its sum. *)
Lemma inv_alter recs lk Out In Out' In' f x i :
  inv (recs, lk) Out In -> lk !! x = Some i ->
  (forall r, Ip (f r) = Ip r) ->
  (forall y, y <> x -> Out' y = Out y /\ In' y = In y) ->
  (forall r, Ip r = x -> OutBytes r = u64 (Out x) -> InBytes r = u64 (In x) ->
     OutBytes (f r) = u64 (Out' x) /\ InBytes (f r) = u64 (In' x)) ->
  bump f i recs = Ret (alter f (Z.to_nat i) recs) /\ inv (alter f (Z.to_nat i) recs, lk) Out' In'.
Proof.
  intros (H1 & H2 & H3) Hx Hip Hother Hf. cbn [fst snd] in *.
  pose proof (proj1 (H1 x i) Hx) as (r & Hi & Hr & Hrx).
  split. { unfold bump. apply lookup_lt_Some in Hr as Hlt. rewrite decide_False by lia. by rewrite decide_True by lia. }
  split; [|split]; cbn [fst snd].
  - intros y j. rewrite H1. split; intros (r' & Hj & Hr' & Hy).
    + rewrite list_lookup_alter. case_decide as e; [|eauto].
      exists (f r'). rewrite e, Hr'. split; [done|]. split; [done|]. by rewrite Hip.
    + rewrite list_lookup_alter in Hr'. case_decide as e; [|eauto].
      apply fmap_Some in Hr' as (r'' & Hr'' & ->). exists r''. rewrite <- e. split; [done|]. split; [done|]. by rewrite <- Hip.
  - intros n r' Hr'. rewrite list_lookup_alter in Hr'. case_decide as Hn.
    + apply fmap_Some in Hr' as (r'' & Hr'' & ->). subst n.
      assert (r'' = r) as -> by congruence. rewrite Hip, Hrx. destruct (H2 _ _ Hr) as [HO HI].
      rewrite Hrx in HO, HI. by apply Hf.
    + destruct (decide (Ip r' = x)) as [e|ne].
      * assert (lk !! x = Some (Z.of_nat n)) as Hl.
        { apply H1. exists r'. rewrite Nat2Z.id. split; [lia|done]. }
        destruct Hn. assert (i = Z.of_nat n) by congruence. lia.
      * destruct (Hother _ ne) as [-> ->]. eauto.
  - intros y Hy. assert (y <> x) as ne by congruence. destruct (Hother _ ne) as [-> ->]. eauto.
Qed.

Lemma u64_add a b : u64 (u64 a + b) = u64 (a + b).
Proof. unfold wrapU. by rewrite Zplus_mod_idemp_l. Qed.

(** The sums after [n] bytes from, or to, the address [x], if it is allowed. *)
Definition plus (allowed : ip -> bool) (T : string -> Z) (x : ip) (n : Z) (y : string) : Z :=
  T y + (if allowed x && bool_decide (IPString ip6s x = y) then n else 0).

Lemma plus_hit (allowed : ip -> bool) T x n : allowed x = true -> plus allowed T x n (IPString ip6s x) = T (IPString ip6s x) + n.
Proof. intros H. unfold plus. rewrite H, bool_decide_true by done. done. Qed.

Lemma plus_miss (allowed : ip -> bool) T x n y : allowed x = false \/ y <> IPString ip6s x -> plus allowed T x n y = T y.
Proof. intros H. unfold plus. destruct (allowed x); [|simpl; lia]. rewrite bool_decide_false by naive_solver. simpl; lia. Qed.

Lemma bump_out (allowed : ip -> bool) recs lk Out In x n i :
  inv (recs, lk) Out In -> (if allowed x then lk !! IPString ip6s x = Some i else i = -1) ->
  exists recs', bump (add_out n) i recs = Ret recs' /\ inv (recs', lk) (plus allowed Out x n) In.
Proof.
  intros Hs Hx. destruct (allowed x) eqn:Ha.
  - destruct (inv_alter recs lk Out In (plus allowed Out x n) In (add_out n) (IPString ip6s x) i) as [-> H]; eauto.
    + intros y Hy. rewrite plus_miss by auto. done.
    + intros r Hr HO HI. cbn. by rewrite HO, HI, plus_hit, u64_add.
  - subst i. exists recs. split; [done|]. eapply inv_ext; [..|exact Hs]; [|done]. intros y. by rewrite plus_miss by auto.
Qed.

Lemma bump_in (allowed : ip -> bool) recs lk Out In x n i :
  inv (recs, lk) Out In -> (if allowed x then lk !! IPString ip6s x = Some i else i = -1) ->
  exists recs', bump (add_in n) i recs = Ret recs' /\ inv (recs', lk) Out (plus allowed In x n).
Proof.
  intros Hs Hx. destruct (allowed x) eqn:Ha.
  - destruct (inv_alter recs lk Out In Out (plus allowed In x n) (add_in n) (IPString ip6s x) i) as [-> H]; eauto.
    + intros y Hy. rewrite plus_miss by auto. done.
    + intros r Hr HO HI. cbn. by rewrite HO, HI, plus_hit, u64_add.
  - subst i. exists recs. split; [done|]. eapply inv_ext; [..|exact Hs]; [done|]. intros y. by rewrite plus_miss by auto.
Qed.

Definition wf_flow (f : flow) : Prop := (4 <= length (SrcIP f))%nat /\ (4 <= length (DstIP f))%nat.

Definition covers (allowed : ip -> bool) (lk : gmap string Z) (f : flow) : Prop :=
  (allowed (SrcIP f) = true -> is_Some (lk !! IPString ip6s (SrcIP f))) /\
  (allowed (DstIP f) = true -> is_Some (lk !! IPString ip6s (DstIP f))).

(** The address printed as [y] is allowed and occurs in [flows]. *)
Definition occurs (allowed : ip -> bool) (flows : list flow) (y : string) : Prop :=
  exists f x, f ∈ flows /\ (x = SrcIP f \/ x = DstIP f) /\ allowed x = true /\ y = IPString ip6s x.

Lemma covers_mono (allowed : ip -> bool) lk lk' f : lk ⊆ lk' -> covers allowed lk f -> covers allowed lk' f.
Proof.
  intros Hlk [H1 H2].
  split; intros H; [destruct (H1 H) as [i Hi]|destruct (H2 H) as [i Hi]]; exists i; by eapply lookup_weaken.
Qed.

Lemma flows_loop_ok (allowed : ip -> bool) t flows : forall s Out In,
  Forall wf_flow flows -> inv s Out In ->
  exists s', flows_loop allowed t flows s = Ret s' /\ s.2 ⊆ s'.2 /\ Forall (covers allowed s'.2) flows /\
    (forall y, is_Some (s'.2 !! y) -> is_Some (s.2 !! y) \/ occurs allowed flows y) /\
    inv s' (fun x => Out x + sum_of allowed SrcIP x flows) (fun x => In x + sum_of allowed DstIP x flows).
Proof.
  induction flows as [|f flows IH]; intros s Out In Hwf Hs.
  - exists s. split; [done|]. split; [done|]. split; [done|]. split; [auto|].
    eapply inv_ext; [..|exact Hs]; intros x; cbn; lia.
  - apply Forall_cons in Hwf as [[Hf1 Hf2] Hwf].
    destruct (index_of_ok allowed t _ _ _ _ Hf1 Hs) as (s1 & i & E1 & Hs1 & Hle1 & Hi & Ho1).
    destruct (index_of_ok allowed t _ _ _ _ Hf2 Hs1) as ([r2 l2] & j & E2 & Hs2 & Hle2 & Hj & Ho2).
    cbn [fst snd] in *.
    assert (if allowed (SrcIP f) then l2 !! IPString ip6s (SrcIP f) = Some i else i = -1) as Hi2.
    { destruct (allowed (SrcIP f)); [by eapply lookup_weaken|done]. }
    destruct (bump_out allowed _ _ _ _ (SrcIP f) (DOctets f) i Hs2 Hi2) as (r3 & E3 & Hs3).
    destruct (bump_in allowed _ _ _ _ (DstIP f) (DOctets f) j Hs3 Hj) as (r4 & E4 & Hs4).
    destruct (IH _ _ _ Hwf Hs4) as (s' & E5 & Hle & Hcov & Ho & Hs'). cbn [fst snd] in *.
    exists s'. split; [cbn [flows_loop go_bind]; rewrite E1; cbn; rewrite E2; cbn; rewrite E3; cbn; by rewrite E4|].
    split; [by etrans; [|exact Hle]; etrans|]. split; [|split].
    + constructor; [|done]. apply (covers_mono allowed l2); [done|].
      split; intros Ha; [rewrite Ha in Hi2|rewrite Ha in Hj]; eauto.
    + intros y Hy. unfold occurs. destruct (Ho y Hy) as [H|(g & x & Hg & Hx)]; [|right; exists g, x; set_solver].
      destruct (Ho2 y H) as [H'|[? ->]]; [|right; exists f, (DstIP f); set_solver].
      destruct (Ho1 y H') as [H''|[? ->]]; [auto|right; exists f, (SrcIP f); set_solver].
    + eapply inv_ext; [..|exact Hs']; intros x; unfold plus, sum_of; cbn [foldr]; lia.
Qed.

Lemma inv_init : inv ([], ∅) (fun _ => 0) (fun _ => 0).
Proof.
  split; [|split]; [|done..]. intros x i. split; [done|]. intros (r & _ & Hr & _). done.
Qed.

(** A NetFlow packet gives one record per allowed address that occurs in it
    and no other, and the record holds the bytes of all flows from the address
    and of all flows to it, modulo 2^64. *)
Theorem netflow_sums_per_address h hdr flows :
  Forall wf_flow flows ->
  let allowed := IpAddressAllowed (AllNetworks h) (AllowedNetworks h) in
  exists recs, NetFlowV5ToBandwidthAccounting h hdr flows = Ret recs /\
    NoDup (Ip <$> recs) /\
    (forall r, r ∈ recs -> OutBytes r = u64 (sum_of allowed SrcIP (Ip r) flows) /\
                           InBytes r = u64 (sum_of allowed DstIP (Ip r) flows)) /\
    (forall y, y ∈ Ip <$> recs <-> occurs allowed flows y).
Proof.
  intros Hwf allowed. unfold NetFlowV5ToBandwidthAccounting. fold allowed.
  destruct (flows_loop_ok allowed (Truncate (unixTime hdr) (TimeDuration h)) flows _ _ _ Hwf inv_init) as ([recs lk] & -> & _ & Hcov & Hocc & H1 & H2 & H3).
  cbn in H1, H2, Hcov, Hocc |- *. exists recs. split; [done|]. split; [|split].
  - apply NoDup_alt. intros n m x Hn Hm. rewrite list_lookup_fmap in Hn, Hm.
    apply fmap_Some in Hn as (r1 & Hn & ->), Hm as (r2 & Hm & Heq).
    assert (lk !! Ip r1 = Some (Z.of_nat n)) by (apply H1; exists r1; rewrite Nat2Z.id; auto with lia).
    assert (lk !! Ip r1 = Some (Z.of_nat m)) by (apply H1; exists r2; rewrite Nat2Z.id; auto with lia).
    assert (Z.of_nat n = Z.of_nat m) by congruence. lia.
  - intros r Hr. apply list_elem_of_lookup in Hr as [n Hn]. eauto.
  - intros y. split.
    { intros Hy. apply list_elem_of_fmap in Hy as (r & -> & Hr). apply list_elem_of_lookup in Hr as [n Hn].
      destruct (Hocc (Ip r)) as [[i Hi]|Hy]; [|done..]. exists (Z.of_nat n). apply H1. exists r.
      rewrite Nat2Z.id. auto with lia. }
    intros (f & x & Hf & Hx & Ha & ->). rewrite Forall_forall in Hcov. destruct (Hcov f Hf) as [Hc1 Hc2].
    assert (is_Some (lk !! IPString ip6s x)) as [i Hi] by (destruct Hx; subst; auto).
    apply H1 in Hi as (r & _ & Hr & <-). apply list_elem_of_fmap_2. by eapply list_elem_of_lookup_2.
Qed.
End NetFlow.

Definition demo_flows : list flow :=
  [mkFlow [10; 0; 0; 1] [10; 0; 0; 2] 100; mkFlow [10; 0; 0; 2] [8; 8; 8; 8] 50; mkFlow [8; 8; 8; 8] [10; 0; 0; 1] 7].

Definition demo_pfacct : pfacct := mkPfAcct false [mkIPNet [10; 0; 0; 0] [255; 0; 0; 0]] (300 * 10 ^ 9).

Lemma netflow_sums_per_address_witness :
  exists recs, NetFlowV5ToBandwidthAccounting (fun _ => EmptyString) demo_pfacct (mkHeader 1600000000 0) demo_flows = Ret recs /\
    NoDup (Ip <$> recs) /\ (Ip <$> recs) = ["10.0.0.1"; "10.0.0.2"] /\ (OutBytes <$> recs) = [100; 50].
Proof.
  destruct (netflow_sums_per_address (fun _ => EmptyString) demo_pfacct (mkHeader 1600000000 0) demo_flows) as (recs & H & Hnd & _).
  - repeat constructor; cbn; lia.
  - exists recs. split; [exact H|]. split; [exact Hnd|].
    vm_compute in H. injection H as <-. split; reflexivity.
Defined.
End NetFlow.

Module Nodes.

(** The buckets of a session by time: (InBytes, OutBytes). *)
Abbreviation session := (gmap Z (Z * Z)).

(** Session.Add. *)
Definition Add (key i o : Z) (b : session) : session :=
  let '(x, y) := default (0, 0) (b !! key) in <[key := (i64 (x + i), i64 (y + o))]> b.

(** The loop of Session.Update over the other buckets. *)
Definition minus_others (f : Z * Z -> Z) (key x : Z) (b : session) : Z :=
  map_fold (fun k v acc => if decide (k = key) then acc else i64 (acc - f v)) x b.

(** Session.Update. *)
Definition Update (key i o : Z) (b : session) : session :=
  let x := minus_others fst key i b in
  let y := minus_others snd key o b in
  let x := if decide (x < 0) then 0 else x in
  let y := if decide (y < 0) then 0 else y in
  if decide (x > 0 \/ y > 0) then <[key := (x, y)]> b else b.

(** Session.GetBucket. *)
Definition GetBucket (key : Z) (b : session) : (Z * Z) * bool :=
  (default (0, 0) (b !! key), bool_decide (is_Some (b !! key))).

(** The sessions of a node, and the nodes by (tenant, mac); [n_readers] counts
    the read locks of Nodes.lock that are held between two operations. *)
Abbreviation sessions := (gmap Z session).
Record nodes := mkNodes { n_readers : nat; n_map : gmap (Z * string) sessions }.

Definition NewNodes : nodes := mkNodes 0 ∅.

(** getOrAddNode: [None] when Lock waits for a reader that never leaves. *)
Definition getOrAddNode (key : Z * string) (n : nodes) : option nodes :=
  match n_map n !! key with
  | Some _ => Some n
  | None => if decide (n_readers n = 0%nat) then Some (mkNodes (n_readers n) (<[key := ∅]> (n_map n))) else None
  end.

(** Sessions.getOrAdd followed by an update of the session. *)
Definition in_session (id : Z) (f : session -> session) (s : sessions) : sessions :=
  <[id := f (default ∅ (s !! id))]> s.

(** Nodes.Add and Nodes.Update, for [f] the operation of the session. *)
Definition on_node (key : Z * string) (id : Z) (f : session -> session) (n : nodes) : option nodes :=
  match getOrAddNode key n with
  | Some n' => Some (mkNodes (n_readers n') (alter (in_session id f) key (n_map n')))
  | None => None
  end.

(** Nodes.RemoveSession takes the read lock and returns without releasing it. *)
Definition RemoveSession (key : Z * string) (id : Z) (n : nodes) : nodes * option session :=
  match n_map n !! key with
  | None => (mkNodes (S (n_readers n)) (n_map n), None)
  | Some s => (mkNodes (S (n_readers n)) (<[key := delete id s]> (n_map n)), s !! id)
  end.

Inductive op :=
  | OpAdd (key : Z * string) (id time i o : Z)
  | OpUpdate (key : Z * string) (id time i o : Z)
  | OpRemove (key : Z * string) (id : Z).

Definition exec (c : op) (n : nodes) : option nodes :=
  match c with
  | OpAdd key id time i o => on_node key id (Add time i o) n
  | OpUpdate key id time i o => on_node key id (Update time i o) n
  | OpRemove key id => Some (RemoveSession key id n).1
  end.

Fixpoint exec_all (l : list op) (n : nodes) : option nodes :=
  match l with
  | [] => Some n
  | c :: l' => match exec c n with Some n' => exec_all l' n' | None => None end
  end.

(** *** Theorems *)

Section Session.
Context (f : Z * Z -> Z).

Lemma minus_others_delete key x b : minus_others f key x b = minus_others f key x (delete key b).
Proof.
  destruct (b !! key) as [v|] eqn:E; [|by rewrite delete_id].
  unfold minus_others. rewrite (map_fold_delete_L _ _ key v b).
  - by rewrite decide_True.
  - intros j1 j2 z1 z2 y _ _ _. repeat case_decide; try done.
    rewrite !wrapS_sub_l by lia. f_equal. lia.
  - done.
Qed.

Lemma minus_others_fresh key x b : b !! key = None -> is_s 64 x -> minus_others f key x b = i64 (x - total_bytes f b).
Proof.
  intros Hb Hx. induction b as [|k v b Hk IH] using map_ind.
  - unfold minus_others, total_bytes. rewrite !map_fold_empty, Z.sub_0_r, wrapS_small by (done || lia). done.
  - apply lookup_insert_None in Hb as [Hb Hne]. rewrite total_insert, delete_id by done.
    unfold minus_others. rewrite map_fold_insert_L.
    + rewrite decide_False by done. fold (minus_others f key x b). rewrite IH by done.
      rewrite wrapS_sub_l by lia. f_equal. lia.
    + intros j1 j2 z1 z2 y _ _ _. repeat case_decide; try done. rewrite !wrapS_sub_l by lia. f_equal. lia.
    + done.
Qed.

(** The loop subtracts the sum of the other buckets. *)
Lemma minus_others_total key x b : is_s 64 x -> minus_others f key x b = i64 (x - total_bytes f (delete key b)).
Proof. intros Hx. rewrite minus_others_delete. apply minus_others_fresh; [apply lookup_delete_eq|done]. Qed.
End Session.

(** The in-memory update computes what the SQL insert of radius.go does, except
    that a bucket to which nothing falls is left as it is. *)
Theorem Update_matches_sql key i o b :
  nonneg fst b -> nonneg snd b -> total_bytes fst b < 2 ^ 63 -> total_bytes snd b < 2 ^ 63 ->
  0 <= i < 2 ^ 63 -> 0 <= o < 2 ^ 63 ->
  Update key i o b =
  if decide (i <= total_bytes fst (delete key b) /\ o <= total_bytes snd (delete key b)) then b else sql_insert_accounting key i o b.
Proof.
  intros Hf Hs Htf Hts Hi Ho. unfold Update.
  pose proof (total_delete_le fst b key Hf). pose proof (total_delete_le snd b key Hs).
  rewrite !minus_others_total by (unfold is_s; lia). rewrite !wrapS_small by (unfold is_s; lia).
  set (x := total_bytes fst (delete key b)) in *. set (y := total_bytes snd (delete key b)) in *.
  destruct (decide (i <= x /\ o <= y)); repeat case_decide; try lia; try done; unfold sql_insert_accounting;
    fold x y; do 2 f_equal; lia.
Qed.

Lemma on_node_readers key id f n n' : on_node key id f n = Some n' -> n_readers n' = n_readers n.
Proof. unfold on_node, getOrAddNode. intros H. repeat case_match; by simplify_eq/=. Qed.

(** Once RemoveSession ran, no operation can add a node any more: the read lock
    it keeps makes the first operation on an unknown node wait forever. *)
Theorem remove_session_blocks_new_nodes l1 key id l2 n n' key' id' f :
  exec_all (l1 ++ OpRemove key id :: l2) n = Some n' ->
  n_map n' !! key' = None -> on_node key' id' f n' = None.
Proof.
  assert (forall l m m', exec_all l m = Some m' -> (n_readers m <= n_readers m')%nat) as Hmono.
  { induction l as [|c l IH]; intros m m' H; [by simplify_eq/=|]. cbn in H.
    destruct (exec c m) as [m1|] eqn:E; [|done]. apply IH in H. etrans; [|exact H].
    destruct c; cbn in E; [apply on_node_readers in E as ->; lia..|].
    injection E as <-. unfold RemoveSession. case_match; cbn; lia. }
  intros H Hk. revert n H. induction l1 as [|c l1 IH]; intros n H; cbn in H.
  - apply Hmono in H. unfold on_node, getOrAddNode. rewrite Hk, decide_False; [done|].
    unfold RemoveSession in H. case_match; cbn in H; lia.
  - destruct (exec c n) as [n1|]; [eauto|done].
Qed.
End Nodes.
