(* ===== verification/Dispatcher.v ===== *)
(** The job dispatcher of the accounting service
    (src/go/cmd/pfacct/dispatcher.go): the goroutines of the workers, of the
    dispatcher and of the jobs that wait, as a transition system whose events
    are the communications on the channels.

    Every goroutine is a component of the state that says where it is: a
    worker registers, selects, works, leaves; a job is on its way to the
    queue, in the queue, with the dispatcher, with a goroutine that waits for a
    worker, with a worker, or has run.  A channel of capacity n is a list of at
    most n values and an unbuffered channel is a rendezvous. *)
From stdpp Require Import base list sets.
From Stdlib Require Import Lia.
From S2P Require Import Prelude.

Local Open Scope nat_scope.

Section Dispatcher.
(** The jobs (values of the type Work), the number of workers and the size of
    the queue given to NewDispatcher *)
Context {Work : Type}.
Context (maxWorkers jobQueueSize : nat).

(** Where the goroutine of a worker is. *)
Inductive worker :=
  | Registering                 (* at w.workerPool <- w.jobChannel *)
  | Selecting                   (* at the select of the loop *)
  | Working (job : Work)        (* in job() of the loop *)
  | Leaving                     (* at the select for leftover jobs *)
  | Leftover (job : Work)       (* in job() of that select *)
  | Exited.

(** The dispatcher; the channel of a worker is named by the worker's index. *)
Record dispatcher := mkDispatcher {
  jobQueue : list Work;
  senders : list Work;               (* goroutines of SubmitJob *)
  workerPool : list nat;
  handing : option (Work * nat);     (* dispatch at jobChannel <- job *)
  waiting : list Work;               (* goroutines at <-workerPool *)
  giving : list (Work * nat);        (* goroutines at jobChannel <- job *)
  workers : list worker;
  stops : list nat;                  (* goroutines of stop *)
  ran : list Work                    (* jobs that have returned *)
}.

(** NewDispatcher followed by Run *)
Definition Run : dispatcher :=
  mkDispatcher [] [] [] None [] [] (replicate maxWorkers Registering) [] [].

Definition set_worker (w : nat) (st : worker) (d : dispatcher) : dispatcher :=
  mkDispatcher (jobQueue d) (senders d) (workerPool d) (handing d) (waiting d) (giving d)
    (<[w := st]> (workers d)) (stops d) (ran d).

Definition set_pool (pool : list nat) (d : dispatcher) : dispatcher :=
  mkDispatcher (jobQueue d) (senders d) pool (handing d) (waiting d) (giving d) (workers d) (stops d) (ran d).

Definition SubmitJob (job : Work) (d : dispatcher) : dispatcher :=
  if decide (length (jobQueue d) < jobQueueSize)
  then mkDispatcher (jobQueue d ++ [job]) (senders d) (workerPool d) (handing d) (waiting d) (giving d)
         (workers d) (stops d) (ran d)
  else mkDispatcher (jobQueue d) (job :: senders d) (workerPool d) (handing d) (waiting d) (giving d)
         (workers d) (stops d) (ran d).

(** A goroutine of SubmitJob gets its job into the queue. *)
Definition late_send (i : nat) (d : dispatcher) : option dispatcher :=
  match senders d !! i with
  | Some job =>
      if decide (length (jobQueue d) < jobQueueSize)
      then Some (mkDispatcher (jobQueue d ++ [job]) (delete i (senders d)) (workerPool d) (handing d) (waiting d)
                   (giving d) (workers d) (stops d) (ran d))
      else None
  | None => None
  end.

(** dispatch receives a job, from the queue or, while that is empty, from a
    goroutine that sends, and takes the channel of a worker or starts a
    goroutine that waits for one. *)
Definition receive_job (from : option nat) (d : dispatcher) : option (Work * list Work * list Work) :=
  match from, jobQueue d with
  | None, job :: rest => Some (job, rest, senders d)
  | Some i, [] => match senders d !! i with Some job => Some (job, [], delete i (senders d)) | None => None end
  | _, _ => None
  end.

Definition dispatch (from : option nat) (d : dispatcher) : option dispatcher :=
  match handing d, receive_job from d with
  | None, Some (job, queue, sending) =>
      Some (match workerPool d with
            | w :: pool =>
                mkDispatcher queue sending pool (Some (job, w)) (waiting d) (giving d) (workers d) (stops d) (ran d)
            | [] =>
                mkDispatcher queue sending [] None (job :: waiting d) (giving d) (workers d) (stops d) (ran d)
            end)
  | _, _ => None
  end.

(** A goroutine that waits gets the channel of a worker. *)
Definition take_worker (i : nat) (d : dispatcher) : option dispatcher :=
  match waiting d !! i, workerPool d with
  | Some job, w :: pool =>
      Some (mkDispatcher (jobQueue d) (senders d) pool (handing d) (delete i (waiting d)) ((job, w) :: giving d)
              (workers d) (stops d) (ran d))
  | _, _ => None
  end.

(** The worker w receives a job, in one of its two selects. *)
Definition receive (w : nat) (job : Work) (d : dispatcher) : option dispatcher :=
  match workers d !! w with
  | Some Selecting => Some (set_worker w (Working job) d)
  | Some Leaving => Some (set_worker w (Leftover job) d)
  | _ => None
  end.

(** jobChannel <- job of dispatch *)
Definition hand (d : dispatcher) : option dispatcher :=
  match handing d with
  | Some (job, w) =>
      receive w job (mkDispatcher (jobQueue d) (senders d) (workerPool d) None (waiting d) (giving d) (workers d)
                       (stops d) (ran d))
  | None => None
  end.

(** jobChannel <- job of a goroutine that waited *)
Definition give (i : nat) (d : dispatcher) : option dispatcher :=
  match giving d !! i with
  | Some (job, w) =>
      receive w job (mkDispatcher (jobQueue d) (senders d) (workerPool d) (handing d) (waiting d)
                       (delete i (giving d)) (workers d) (stops d) (ran d))
  | None => None
  end.

(** The statements of the goroutine of start that are not a receive of a job *)
Definition register (w : nat) (d : dispatcher) : option dispatcher :=
  match workers d !! w with
  | Some Registering =>
      if decide (length (workerPool d) < maxWorkers)
      then Some (set_worker w Selecting (set_pool (workerPool d ++ [w]) d)) else None
  | _ => None
  end.

Definition add_ran (job : Work) (d : dispatcher) : dispatcher :=
  mkDispatcher (jobQueue d) (senders d) (workerPool d) (handing d) (waiting d) (giving d) (workers d) (stops d)
    (job :: ran d).

Definition finish (w : nat) (d : dispatcher) : option dispatcher :=
  match workers d !! w with
  | Some (Working job) => Some (set_worker w Registering (add_ran job d))
  | Some (Leftover job) => Some (set_worker w Exited (add_ran job d))
  | _ => None
  end.

(** The receive of a stop in the select of the loop: the i-th goroutine of
    stop sends. *)
Definition stop_worker (i : nat) (d : dispatcher) : option dispatcher :=
  match stops d !! i with
  | Some w =>
      match workers d !! w with
      | Some Selecting =>
          Some (set_worker w Leaving
                  (mkDispatcher (jobQueue d) (senders d) (workerPool d) (handing d) (waiting d) (giving d) (workers d)
                     (delete i (stops d)) (ran d)))
      | _ => None
      end
  | None => None
  end.

(** The default case of the last select: a goroutine that has taken the channel
    need not have come to its send. *)
Definition no_leftover (w : nat) (d : dispatcher) : option dispatcher :=
  match workers d !! w with
  | Some Leaving => Some (set_worker w Exited d)
  | _ => None
  end.

Definition Stop (d : dispatcher) : dispatcher :=
  mkDispatcher (jobQueue d) (senders d) (workerPool d) (handing d) (waiting d) (giving d) (workers d)
    (stops d ++ seq 0 (length (workers d))) (ran d).

(** Wait returns when every worker has called waitGroup.Done. *)
Definition waited (d : dispatcher) : Prop := Forall (fun w => w = Exited) (workers d).

Inductive event :=
  | ESubmit (job : Work) | EStop
  | ELateSend (i : nat) | EDispatch (from : option nat) | ETake (i : nat) | EHand | EGive (i : nat)
  | ERegister (w : nat) | EFinish (w : nat) | EStopWorker (i : nat) | ENoLeftover (w : nat).

Definition fire (e : event) (d : dispatcher) : option dispatcher :=
  match e with
  | ESubmit job => Some (SubmitJob job d)
  | EStop => Some (Stop d)
  | ELateSend i => late_send i d
  | EDispatch from => dispatch from d
  | ETake i => take_worker i d
  | EHand => hand d
  | EGive i => give i d
  | ERegister w => register w d
  | EFinish w => finish w d
  | EStopWorker i => stop_worker i d
  | ENoLeftover w => no_leftover w d
  end.

(** The events that the goroutines do on their own *)
Definition internal (e : event) : bool := match e with ESubmit _ | EStop => false | _ => true end.

(** Runs: the states that a sequence of events leads to. *)
Inductive run : list event -> dispatcher -> Prop :=
  | run_nil : run [] Run
  | run_snoc es e d d' : run es d -> fire e d = Some d' -> run (es ++ [e]) d'.

Fixpoint submitted (es : list event) : list Work :=
  match es with
  | [] => []
  | ESubmit job :: es' => job :: submitted es'
  | _ :: es' => submitted es'
  end.

(** The jobs of a state, by where they are *)
Definition job_of (w : worker) : list Work := match w with Working j | Leftover j => [j] | _ => [] end.
Definition with_workers (ws : list worker) : list Work := concat (map job_of ws).
Definition with_dispatch (h : option (Work * nat)) : list Work := match h with Some (j, _) => [j] | None => [] end.

Definition jobs (d : dispatcher) : list Work :=
  jobQueue d ++ senders d ++ with_dispatch (handing d) ++ waiting d ++ (giving d).*1 ++ with_workers (workers d) ++ ran d.

(** The channels that are registered or in the hands of a sender *)
Definition held (h : option (Work * nat)) : list nat := match h with Some (_, w) => [w] | None => [] end.
Definition channels (d : dispatcher) : list nat := workerPool d ++ held (handing d) ++ (giving d).*2.

(** A bound on the number of events until the goroutines come to rest *)
Definition weight (w : worker) : nat :=
  match w with Registering | Leaving => 1 | Working _ | Leftover _ => 2 | Selecting | Exited => 0 end.

Definition pending (d : dispatcher) : nat :=
  6 * length (senders d) + 5 * length (jobQueue d) + 4 * length (waiting d) +
  3 * length (with_dispatch (handing d)) + 3 * length (giving d) + 2 * length (stops d) +
  sum_list_with weight (workers d).

(** * Lemmas on lists of workers *)

Lemma delete_insert_same {A : Type} (l : list A) (i : nat) (x : A) : delete i (<[i := x]> l) = delete i l.
Proof. revert i. induction l as [|y l IH]; intros [|i]; cbn; try done. f_equal. apply IH. Qed.

Lemma with_workers_delete ws w st :
  ws !! w = Some st -> with_workers ws ≡ₚ job_of st ++ with_workers (delete w ws).
Proof. intros H. unfold with_workers. by rewrite (delete_Permutation ws w st H) at 1. Qed.

Lemma with_workers_insert ws w st st' :
  ws !! w = Some st -> with_workers (<[w := st']> ws) ≡ₚ job_of st' ++ with_workers (delete w ws).
Proof.
  intros H. rewrite <- (delete_insert_same ws w st'). apply with_workers_delete.
  apply list_lookup_insert_eq. by eapply lookup_lt_Some.
Qed.

Lemma weight_insert ws w st st' :
  ws !! w = Some st -> sum_list_with weight (<[w := st']> ws) + weight st = sum_list_with weight ws + weight st'.
Proof.
  revert w. induction ws as [|x ws IH]; intros [|w] H; simplify_eq/=; [lia|].
  specialize (IH w H). lia.
Qed.

(** * Conservation of the jobs *)

(** Splits an enabled event into the cases of the code. *)
Ltac fired H :=
  repeat match type of H with
    | context [match ?x with _ => _ end] => let E := fresh "E" in destruct x eqn:E; try discriminate H
    end;
  try (injection H as <-); subst.

(** Replaces a list by the element at an index and the other elements. *)
Ltac split_at E :=
  let HP := fresh "HP" in
  pose proof (delete_Permutation _ _ _ E) as HP; revert HP;
  match type of E with ?l !! ?i = _ => generalize (delete i l) end; intros ? HP; rewrite HP; clear HP.

Lemma receive_jobs w job d d' :
  receive w job d = Some d' -> jobs d' ≡ₚ job :: jobs d.
Proof.
  unfold receive, jobs. intros H. fired H; simpl.
  all: rewrite (with_workers_insert _ _ _ _ E), (with_workers_delete _ _ _ E); cbn [job_of app]; solve_Permutation.
Qed.

Lemma receive_job_jobs from d job queue sending :
  receive_job from d = Some (job, queue, sending) -> jobQueue d ++ senders d ≡ₚ job :: queue ++ sending.
Proof.
  unfold receive_job. intros H. destruct from as [i|].
  - destruct (jobQueue d); [|done]. destruct (senders d !! i) eqn:E; [|done]. simplify_eq. by apply delete_Permutation.
  - destruct (jobQueue d); simplify_eq. done.
Qed.

Lemma fire_jobs e d d' :
  fire e d = Some d' -> jobs d' ≡ₚ submitted [e] ++ jobs d.
Proof.
  destruct e; cbn [fire submitted app]; intros H.
  - injection H as <-. unfold SubmitJob, jobs. case_decide; cbn; solve_Permutation.
  - by injection H as <-.
  - unfold late_send in H. fired H. unfold jobs; simpl. split_at E.
    solve_Permutation.
  - unfold dispatch in H. destruct (handing d) eqn:E; [done|]. destruct (receive_job from d) as [[[job q] sn]|] eqn:Er; [|done].
    apply receive_job_jobs in Er. injection H as <-. unfold jobs. rewrite E, (app_assoc (jobQueue d)), Er.
    destruct (workerPool d); simpl; solve_Permutation.
  - unfold take_worker in H. fired H. unfold jobs; simpl. split_at E. solve_Permutation.
  - unfold hand in H. fired H. rewrite (receive_jobs _ _ _ _ H). unfold jobs; simpl. rewrite E. cbn. solve_Permutation.
  - unfold give in H. fired H. rewrite (receive_jobs _ _ _ _ H). unfold jobs; simpl.
    split_at E. cbn. solve_Permutation.
  - unfold register in H. fired H. unfold jobs; simpl.
    rewrite (with_workers_insert _ _ _ _ E), (with_workers_delete _ _ _ E). done.
  - unfold finish in H. fired H; unfold jobs; simpl.
    all: rewrite (with_workers_insert _ _ _ _ E), (with_workers_delete _ _ _ E); cbn; solve_Permutation.
  - unfold stop_worker in H. fired H. unfold jobs; simpl.
    rewrite (with_workers_insert _ _ _ _ E0), (with_workers_delete _ _ _ E0). done.
  - unfold no_leftover in H. fired H. unfold jobs; simpl.
    rewrite (with_workers_insert _ _ _ _ E), (with_workers_delete _ _ _ E). done.
Qed.

Lemma submitted_app es es' : submitted (es ++ es') = submitted es ++ submitted es'.
Proof. induction es as [|e es IH]; [done|]. destruct e; cbn; by rewrite IH. Qed.

Lemma run_jobs es d : run es d -> jobs d ≡ₚ submitted es.
Proof.
  induction 1 as [|es e d d' _ IH H].
  - unfold jobs, with_workers, Run. cbn. induction maxWorkers as [|n IH]; [done|]. exact IH.
  - rewrite (fire_jobs _ _ _ H), submitted_app, IH. apply Permutation_app_comm.
Qed.
(** * Channels and workers *)

Definition listens (st : worker) : Prop := st = Selecting \/ st = Leaving.
Definition answered (st : worker) : Prop := listens st \/ st = Exited.

(** Each channel is in one place, the channels out belong to workers that
    select or have left, and every worker that selects has its channel out. *)
Definition linked (chs : list nat) (ws : list worker) : Prop :=
  NoDup chs /\
  (forall w, w ∈ chs -> exists st, ws !! w = Some st /\ answered st) /\
  (forall w st, ws !! w = Some st -> listens st -> w ∈ chs).

Definition inv (d : dispatcher) : Prop :=
  linked (channels d) (workers d) /\ length (workers d) = maxWorkers.

Lemma linked_perm chs chs' ws : chs ≡ₚ chs' -> linked chs ws -> linked chs' ws.
Proof.
  intros HP (Hnd & H1 & H2). split; [by rewrite <- HP|]. split.
  - intros w Hw. apply H1. by rewrite HP.
  - intros w st Hs Hl. rewrite <- HP. by eapply H2.
Qed.

Lemma lookup_insert_cases (ws : list worker) w st w' st' :
  <[w := st]> ws !! w' = Some st' -> (w' = w /\ st' = st) \/ (w' <> w /\ ws !! w' = Some st').
Proof. intros [(-> & <- & _) | [Hne H]]%list_lookup_insert_Some; [by left | right; done]. Qed.

Lemma linked_register chs ws w :
  linked chs ws -> ws !! w = Some Registering -> linked (w :: chs) (<[w := Selecting]> ws).
Proof.
  intros (Hnd & H1 & H2) Hw. pose proof (lookup_lt_Some _ _ _ Hw) as Hlt.
  assert (Hni : w ∉ chs). { intros (st & Hs & Ha)%H1. rewrite Hw in Hs. simplify_eq. by destruct Ha as [[|]|]. }
  split; [by constructor|]. split.
  - intros w' [-> | Hin]%elem_of_cons.
    + exists Selecting. rewrite list_lookup_insert_eq by done. split; [done|]. by left; left.
    + destruct (decide (w' = w)) as [->|Hne]; [done|]. rewrite list_lookup_insert_ne by done. by apply H1.
  - intros w' st [[-> _] | [_ Hs]]%lookup_insert_cases Hl; [by left|]. right. by eapply H2.
Qed.

Lemma linked_receive chs ws w st :
  linked (w :: chs) ws -> ~ listens st -> linked chs (<[w := st]> ws).
Proof.
  intros ([Hni Hnd]%NoDup_cons & H1 & H2) Hl. split; [done|]. split.
  - intros w' Hin. destruct (decide (w' = w)) as [->|Hne]; [done|]. rewrite list_lookup_insert_ne by done.
    apply H1. by right.
  - intros w' st' [[-> ->] | [Hne Hs]]%lookup_insert_cases Hl'; [done|].
    destruct (proj1 (elem_of_cons _ _ _) (H2 _ _ Hs Hl')); done.
Qed.

Lemma linked_move chs ws w old new :
  linked chs ws -> ws !! w = Some old -> (answered old -> answered new) -> (listens new -> listens old) ->
  linked chs (<[w := new]> ws).
Proof.
  intros (Hnd & H1 & H2) Hw Ha Hl. pose proof (lookup_lt_Some _ _ _ Hw) as Hlt. split; [done|]. split.
  - intros w' Hin. destruct (decide (w' = w)) as [->|Hne]; [|by rewrite list_lookup_insert_ne by done; apply H1].
    exists new. rewrite list_lookup_insert_eq by done. split; [done|]. destruct (H1 w Hin) as (st & Hs & Hst).
    rewrite Hw in Hs. simplify_eq. by apply Ha.
  - intros w' st [[-> ->] | [_ Hs]]%lookup_insert_cases Hl'; [by eapply H2; [|apply Hl] | by eapply H2].
Qed.

Lemma receive_inv w job d d' :
  linked (w :: channels d) (workers d) -> length (workers d) = maxWorkers -> receive w job d = Some d' -> inv d'.
Proof.
  unfold receive. intros Hl Hn H. fired H; (split; [|by cbn; rewrite length_insert]).
  all: apply linked_receive; [done|]. all: by intros [|].
Qed.

Lemma fire_inv e d d' : fire e d = Some d' -> inv d -> inv d'.
Proof.
  destruct e; cbn [fire]; intros H [Hl Hn].
  - injection H as <-. unfold SubmitJob. case_decide; by split.
  - injection H as <-. by split.
  - unfold late_send in H. fired H. by split.
  - unfold dispatch in H. destruct (handing d) eqn:E; [done|]. destruct (receive_job from d) as [[[job q] sn]|]; [|done].
    injection H as <-. destruct (workerPool d) eqn:Ep; split; try done; cbn [workers]; revert Hl; apply linked_perm;
      unfold channels; rewrite E, Ep; cbn; solve_Permutation.
  - unfold take_worker in H. fired H. split; [|done]. cbn [workers]. revert Hl. apply linked_perm. unfold channels.
    rewrite E0. cbn. solve_Permutation.
  - unfold hand in H. fired H. refine (receive_inv _ _ _ _ _ _ H); [|done]. revert Hl. apply linked_perm. unfold channels.
    rewrite E. cbn. solve_Permutation.
  - unfold give in H. fired H. refine (receive_inv _ _ _ _ _ _ H); [|done]. revert Hl. apply linked_perm. unfold channels. cbn.
    split_at E. cbn. solve_Permutation.
  - unfold register in H. fired H. split; [|by cbn; rewrite length_insert]. cbn.
    eapply linked_perm; [|by apply linked_register]. unfold channels. cbn. solve_Permutation.
  - unfold finish in H. fired H; (split; [|by cbn; rewrite length_insert]); cbn.
    all: eapply linked_move; [done | done | |]. all: intros; try by destruct H as [[|]|]. all: by destruct H.
  - unfold stop_worker in H. fired H. split; [|by cbn; rewrite length_insert]. cbn.
    eapply linked_move; [done | done | |]; intros _; [left; by right | by left].
  - unfold no_leftover in H. fired H. split; [|by cbn; rewrite length_insert]. cbn.
    eapply linked_move; [done | done | |]; [by right | by intros [|]].
Qed.

Lemma run_inv es d : run es d -> inv d.
Proof.
  induction 1 as [|es e d d' _ IH H]; [|by eapply fire_inv].
  split; [|apply length_replicate]. split; [constructor|]. split.
  - intros w Hw. by apply elem_of_nil in Hw.
  - intros w st [-> _]%lookup_replicate [|]; done.
Qed.

(** The channels fit in the pool: registering never blocks. *)
Lemma channels_bound d w :
  inv d -> workers d !! w = Some Registering -> length (channels d) < maxWorkers.
Proof.
  intros [(Hnd & H1 & _) Hn] Hw.
  assert (Hnd' : NoDup (w :: channels d)).
  { constructor; [|done]. intros (st & Hs & Ha)%H1. rewrite Hw in Hs. simplify_eq. by destruct Ha as [[|]|]. }
  assert (Hsub : w :: channels d ⊆+ seq 0 maxWorkers).
  { apply NoDup_submseteq; [done|]. intros w' Hin. rewrite elem_of_seq. split; [lia|].
    rewrite <- Hn. apply elem_of_cons in Hin as [-> | (st & Hs & _)%H1]; by eapply lookup_lt_Some. }
  apply submseteq_length in Hsub. rewrite length_seq in Hsub. exact Hsub.
Qed.
(** * Progress *)

(** The lengths of the lists after an event *)
Ltac count :=
  repeat match goal with
    | E : ?l !! ?i = Some _ |- context [length (delete ?i ?l)] =>
        pose proof (delete_Permutation _ _ _ E) as ?%Permutation_length; cbn [length] in *;
        generalize dependent (length (delete i l)); intros
    | E : ?ws !! ?w = Some ?st |- context [sum_list_with weight (<[?w := ?st']> ?ws)] =>
        pose proof (weight_insert ws w st st' E); cbn [weight] in *;
        generalize dependent (sum_list_with weight (<[w := st']> ws)); intros
    end;
  rewrite ?length_app; cbn [length]; lia.

Lemma receive_pending w job d d' : receive w job d = Some d' -> pending d' <= pending d + 2.
Proof. unfold receive, pending. intros H. fired H; cbn -[Nat.mul]; count. Qed.

Lemma fire_pending e d d' :
  internal e = true -> fire e d = Some d' -> pending d' < pending d.
Proof.
  destruct e; cbn [fire internal]; intros Hi H; try done.
  - unfold late_send in H. fired H. unfold pending; cbn -[Nat.mul]. count.
  - unfold dispatch in H. destruct (handing d) eqn:E; [done|]. destruct (receive_job from d) as [[[job q] sn]|] eqn:Er; [|done].
    unfold receive_job in Er. injection H as <-.
    destruct from; destruct (jobQueue d) eqn:Eq; try done; [destruct (senders d !! n) eqn:Es; [|done]|]; injection Er as <- <- <-.
    all: destruct (workerPool d); unfold pending; rewrite E, Eq; cbn -[Nat.mul]; count.
  - unfold take_worker in H. fired H. unfold pending; cbn -[Nat.mul]. count.
  - unfold hand in H. fired H. apply receive_pending in H. revert H. unfold pending. rewrite E. cbn -[Nat.mul]. lia.
  - unfold give in H. fired H. apply receive_pending in H. revert H. unfold pending. cbn -[Nat.mul]. intros H.
    eapply Nat.le_lt_trans; [exact H|]. count.
  - unfold register in H. fired H. unfold pending; cbn -[Nat.mul]. count.
  - unfold finish in H. fired H; unfold pending; cbn -[Nat.mul]; count.
  - unfold stop_worker in H. fired H. unfold pending; cbn -[Nat.mul]. count.
  - unfold no_leftover in H. fired H. unfold pending; cbn -[Nat.mul]. count.
Qed.

(** Runs in which Stop is not called *)
Definition calm (d : dispatcher) : Prop :=
  stops d = [] /\ Forall (fun st => st = Registering \/ st = Selecting \/ exists job, st = Working job) (workers d).

Lemma calm_insert (ws : list worker) w st :
  Forall (fun st => st = Registering \/ st = Selecting \/ exists job, st = Working job) ws ->
  st = Registering \/ st = Selecting \/ (exists job, st = Working job) ->
  Forall (fun st => st = Registering \/ st = Selecting \/ exists job, st = Working job) (<[w := st]> ws).
Proof. intros H Hs. by apply Forall_insert. Qed.

Lemma calm_lookup d w st :
  calm d -> workers d !! w = Some st -> st = Registering \/ st = Selecting \/ exists job, st = Working job.
Proof. intros [_ H] Hs. by eapply Forall_lookup in H. Qed.

Lemma receive_calm w job d d' : calm d -> receive w job d = Some d' -> calm d'.
Proof.
  unfold receive. intros Hc H. fired H; (split; [apply Hc|]); cbn; (apply calm_insert; [apply Hc|]); eauto.
  destruct (calm_lookup _ _ _ Hc E) as [|[|[]]]; done.
Qed.

Lemma fire_calm e d d' : e <> EStop -> fire e d = Some d' -> calm d -> calm d'.
Proof.
  destruct e; cbn [fire]; intros He H Hc; try done.
  - injection H as <-. unfold SubmitJob. by case_decide.
  - unfold late_send in H. fired H. done.
  - unfold dispatch in H. destruct (handing d); [done|]. destruct (receive_job from d) as [[[job q] sn]|]; [|done].
    injection H as <-. by destruct (workerPool d).
  - unfold take_worker in H. fired H. done.
  - unfold hand in H. fired H. by eapply receive_calm; [|exact H].
  - unfold give in H. fired H. by eapply receive_calm; [|exact H].
  - unfold register in H. fired H. split; [apply Hc|]. cbn. apply calm_insert; [apply Hc|]. eauto.
  - unfold finish in H. fired H; (split; [apply Hc|]); cbn; (apply calm_insert; [apply Hc|]); eauto.
    destruct (calm_lookup _ _ _ Hc E) as [|[|[]]]; done.
  - unfold stop_worker in H. fired H. destruct Hc as [Hs _]. by rewrite Hs in E.
  - unfold no_leftover in H. fired H. destruct (calm_lookup _ _ _ Hc E) as [|[|[]]]; done.
Qed.

Lemma run_calm es d : run es d -> EStop ∉ es -> calm d.
Proof.
  induction 1 as [|es e d d' _ IH H]; intros He.
  - split; [done|]. apply Forall_replicate. by left.
  - rewrite not_elem_of_app, list_elem_of_singleton in He. destruct He as [He1 He2].
    eapply fire_calm; [|exact H|by apply IH]. congruence.
Qed.

Definition resting (d : dispatcher) : Prop := forall e, internal e = true -> fire e d = None.

Lemma resting_selects d w st : inv d -> calm d -> resting d -> workers d !! w = Some st -> st = Selecting.
Proof.
  intros Hi Hc Hr Hw. destruct (calm_lookup _ _ _ Hc Hw) as [-> | [-> | [job ->]]]; [|done|].
  - specialize (Hr (ERegister w) eq_refl). cbn in Hr. unfold register in Hr. rewrite Hw in Hr.
    pose proof (channels_bound _ _ Hi Hw) as Hb. unfold channels in Hb. rewrite length_app in Hb.
    rewrite decide_True in Hr by lia. done.
  - specialize (Hr (EFinish w) eq_refl). cbn in Hr. unfold finish in Hr. by rewrite Hw in Hr.
Qed.

(** A channel that a sender holds is received from. *)
Lemma resting_receives d w job d0 :
  inv d -> calm d -> resting d -> w ∈ channels d -> workers d0 = workers d -> receive w job d0 <> None.
Proof.
  intros Hi Hc Hr Hin Hw. destruct (proj1 (proj2 (proj1 Hi)) w Hin) as (st & Hs & _).
  pose proof (resting_selects _ _ _ Hi Hc Hr Hs) as ->. unfold receive. by rewrite Hw, Hs.
Qed.

Lemma resting_all_ran d :
  0 < maxWorkers -> inv d -> calm d -> resting d -> jobs d = ran d.
Proof.
  intros Hm Hi Hc Hr.
  assert (Hh : handing d = None).
  { destruct (handing d) as [[job w]|] eqn:E; [|done]. specialize (Hr EHand eq_refl) as H. cbn in H. unfold hand in H.
    rewrite E in H. exfalso. revert H. apply (resting_receives d); try done. unfold channels. rewrite E. cbn. set_solver. }
  assert (Hg : giving d = []).
  { destruct (giving d) as [|[job w] g] eqn:E; [done|]. specialize (Hr (EGive 0) eq_refl) as H. cbn in H. unfold give in H.
    rewrite E in H. exfalso. revert H. apply (resting_receives d); try done. unfold channels. rewrite E. cbn. set_solver. }
  assert (Hp : workerPool d <> []).
  { intros Hp. destruct (lookup_lt_is_Some_2 (workers d) 0) as [st Hs]; [rewrite (proj2 Hi); done|].
    pose proof (resting_selects _ _ _ Hi Hc Hr Hs) as ->.
    pose proof (proj2 (proj2 (proj1 Hi)) 0 _ Hs (or_introl eq_refl)) as Hin. unfold channels in Hin.
    rewrite Hh, Hg, Hp in Hin. by apply elem_of_nil in Hin. }
  assert (Hw : waiting d = []).
  { destruct (waiting d) as [|job l] eqn:E; [done|]. specialize (Hr (ETake 0) eq_refl). cbn in Hr. unfold take_worker in Hr.
    rewrite E in Hr. by destruct (workerPool d). }
  assert (Hq : jobQueue d = []).
  { destruct (jobQueue d) as [|job l] eqn:E; [done|]. specialize (Hr (EDispatch None) eq_refl). cbn in Hr.
    unfold dispatch, receive_job in Hr. by rewrite Hh, E in Hr. }
  assert (Hs : senders d = []).
  { destruct (senders d) as [|job l] eqn:E; [done|]. specialize (Hr (EDispatch (Some 0)) eq_refl). cbn in Hr.
    unfold dispatch, receive_job in Hr. by rewrite Hh, Hq, E in Hr. }
  assert (Hws : with_workers (workers d) = []).
  { unfold with_workers. assert (Hall : Forall (fun st => st = Selecting) (workers d)).
    { apply Forall_lookup. intros w st Hst. by eapply resting_selects. }
    revert Hall. induction 1 as [|st ws -> _ IH]; done. }
  unfold jobs. by rewrite Hh, Hg, Hw, Hq, Hs, Hws.
Qed.

(** Internal events from a state *)
Inductive steps : dispatcher -> list event -> dispatcher -> Prop :=
  | steps_nil d : steps d [] d
  | steps_cons d e d1 es d2 : internal e = true -> fire e d = Some d1 -> steps d1 es d2 -> steps d (e :: es) d2.

Lemma steps_bounded d es d' : steps d es d' -> length es + pending d' <= pending d.
Proof. induction 1 as [|d e d1 es d2 Hi H _ IH]; [done|]. apply fire_pending in H; [|done]. cbn [length]. lia. Qed.

Lemma steps_run es d es' d' :
  run es d -> steps d es' d' -> run (es ++ es') d' /\ submitted es' = [] /\ (EStop ∉ es -> EStop ∉ es ++ es').
Proof.
  intros Hr Hs. revert es Hr. induction Hs as [|d e d1 es' d2 Hi H _ IH]; intros es Hr; [by rewrite app_nil_r|].
  destruct (IH _ (run_snoc _ _ _ _ Hr H)) as (Hrun & Hsub & Hstop).
  rewrite <- app_assoc in Hrun, Hstop. cbn in Hrun, Hstop. split; [done|]. split; [by destruct e|]. intros Hn. apply Hstop.
  rewrite not_elem_of_app, list_elem_of_singleton. split; [done|]. by intros <-.
Qed.

(** A sequence of events, where each can happen *)
Fixpoint fire_all (es : list event) (d : dispatcher) : option dispatcher :=
  match es with
  | [] => Some d
  | e :: es' => match fire e d with Some d' => fire_all es' d' | None => None end
  end.

Lemma fire_all_steps es d d' : forallb internal es = true -> fire_all es d = Some d' -> steps d es d'.
Proof.
  revert d. induction es as [|e es IH]; intros d Hi H; cbn in *; [injection H as <-; constructor|].
  apply andb_true_iff in Hi as [Hi1 Hi2]. destruct (fire e d) eqn:E; [|done]. econstructor; eauto.
Qed.

Lemma fire_all_run es d : fire_all es Run = Some d -> run es d.
Proof.
  assert (H : forall es0 d0, run es0 d0 -> fire_all es d0 = Some d -> run (es0 ++ es) d); [|exact (H [] _ run_nil)].
  induction es as [|e es IH]; intros es0 d0 Hr H; cbn in H; [injection H as <-; by rewrite app_nil_r|].
  destruct (fire e d0) as [d1|] eqn:E; [|done]. specialize (IH _ _ (run_snoc _ _ _ _ Hr E) H).
  by rewrite <- app_assoc in IH.
Qed.

(** A job handed to a worker that has left is never received. *)
Lemma exited_stays e d d' w :
  workers d !! w = Some Exited -> fire e d = Some d' -> workers d' !! w = Some Exited.
Proof.
  assert (Hkeep : forall w' st (ws : list worker), ws !! w' <> Some Exited -> ws !! w = Some Exited -> <[w' := st]> ws !! w = Some Exited).
  { intros w' st ws Hne Hw. destruct (decide (w' = w)) as [->|]; [done|]. by rewrite list_lookup_insert_ne. }
  intros Hw. destruct e; cbn [fire]; intros H.
  all: unfold late_send, take_worker, hand, give, receive, register, finish, stop_worker, no_leftover in H.
  all: try (fired H; cbn [workers set_worker set_pool add_ran] in *; try (apply Hkeep; [congruence|done]); done).
  - injection H as <-. unfold SubmitJob. by case_decide.
  - unfold dispatch in H. destruct (handing d); [done|]. destruct (receive_job from d) as [[[job q] sn]|]; [|done].
    injection H as <-. by destruct (workerPool d).
Qed.

Lemma handed_stays e d d' w job :
  handing d = Some (job, w) -> workers d !! w = Some Exited -> fire e d = Some d' -> handing d' = Some (job, w).
Proof.
  intros Hh Hw. destruct e; cbn [fire]; intros H.
  all: unfold dispatch, hand, give in H; try (by rewrite Hh in H).
  all: unfold late_send, take_worker, receive, register, finish, stop_worker, no_leftover in H.
  all: try (fired H; cbn [handing set_worker set_pool add_ran workers] in *; congruence).
  - injection H as <-. unfold SubmitJob. by case_decide.
  - by injection H as <-.
Qed.

(** * Theorems *)

(** Whatever the interleaving, and also with Stop, the jobs that were
    submitted are exactly the jobs that are queued, on the way to a worker,
    running or have run, each as often as it was submitted: no job is dropped
    and none runs twice. *)
Theorem jobs_are_conserved es d :
  run es d ->
  submitted es ≡ₚ jobQueue d ++ senders d ++ with_dispatch (handing d) ++ waiting d ++ (giving d).*1 ++
                  with_workers (workers d) ++ ran d.
Proof. intros H. symmetry. exact (run_jobs _ _ H). Qed.

(** C27.  Unless Stop is called, every job runs: from any state the goroutines
    can do at most [pending] events before they rest, and when they rest every
    job that was submitted has run. *)
Theorem every_job_runs es d es' d' :
  0 < maxWorkers -> run es d -> EStop ∉ es -> steps d es' d' ->
  length es' <= pending d /\ (resting d' -> ran d' ≡ₚ submitted es).
Proof.
  intros Hm Hr He Hs. split; [pose proof (steps_bounded _ _ _ Hs); lia|]. intros Hrest.
  destruct (steps_run _ _ _ _ Hr Hs) as (Hr' & Hsub & Hno).
  rewrite <- (resting_all_ran d' Hm (run_inv _ _ Hr') (run_calm _ _ Hr' (Hno He)) Hrest), (run_jobs _ _ Hr').
  by rewrite submitted_app, Hsub, app_nil_r.
Qed.

(** The pool has room for the channel of every worker: a worker that
    registers never blocks. *)
Theorem registering_never_blocks es d w :
  run es d -> workers d !! w = Some Registering -> exists d', register w d = Some d'.
Proof.
  intros Hr Hw. pose proof (channels_bound _ _ (run_inv _ _ Hr) Hw) as Hb. unfold channels in Hb.
  rewrite length_app in Hb. unfold register. rewrite Hw, decide_True by lia. by eexists.
Qed.

(** When dispatch has taken the channel of a worker that then leaves, it blocks
    for ever: whatever happens next, it keeps the job and takes no other. *)
Lemma dispatch_to_exited_worker es d d' w job :
  handing d = Some (job, w) -> workers d !! w = Some Exited -> fire_all es d = Some d' ->
  handing d' = Some (job, w) /\ forall from, dispatch from d' = None.
Proof.
  revert d. induction es as [|e es IH]; intros d Hh Hw H; cbn [fire_all] in H.
  - injection H as <-. split; [done|]. intros from. unfold dispatch. by rewrite Hh.
  - destruct (fire e d) as [d1|] eqn:E; [|done]. apply (IH d1); [|by eapply exited_stays|done].
    by eapply handed_stays.
Qed.
End Dispatcher.

(** A dispatcher with one worker *)
Module DispatcherDemo.
Definition fire_demo : list (event (Work := nat)) -> dispatcher -> option dispatcher := fire_all 1 1.

Definition stopped : list (event (Work := nat)) :=
  [ERegister 0; ESubmit 7; EStop; EStopWorker 0; EDispatch None; ENoLeftover 0].

(** The worker receives the stop while its channel is in the pool; the job
    that is dispatched after that is lost, although Stop returns. *)
Example stop_loses_a_job :
  exists d, fire_demo stopped (Run 1) = Some d /\ waited d /\
    forall es d', fire_demo es d = Some d' -> handing d' = Some (7, 0).
Proof.
  eexists. split; [vm_compute; reflexivity|]. split; [by repeat constructor|].
  intros es d' H. by refine (proj1 (dispatch_to_exited_worker 1 1 es _ d' 0 7 _ _ H)).
Qed.

Definition busy : list (event (Work := nat)) := [ESubmit 7; ERegister 0; EDispatch None; ESubmit 8; EHand; EDispatch None; ESubmit 9].

Definition drain : list (event (Work := nat)) :=
  [EFinish 0; ERegister 0; ETake 0; EGive 0; EFinish 0; EDispatch None; ERegister 0; ETake 0; EGive 0; EFinish 0; ERegister 0].

Definition after (es : list (event (Work := nat))) (d : dispatcher) : dispatcher :=
  match fire_demo es d with Some d' => d' | None => Run 1 end.
Definition busy_state : dispatcher (Work := nat) := Eval vm_compute in after busy (Run 1).
Definition drained : dispatcher (Work := nat) := Eval vm_compute in after drain busy_state.

Lemma jobs_are_conserved_witness :
  run 1 1 busy busy_state /\ submitted busy = [7; 8; 9] /\
  [7; 8; 9] ≡ₚ jobQueue busy_state ++ senders busy_state ++ with_dispatch (handing busy_state) ++ waiting busy_state ++
               (giving busy_state).*1 ++ with_workers (workers busy_state) ++ ran busy_state.
Proof.
  assert (H : run 1 1 busy busy_state) by (apply fire_all_run; vm_compute; reflexivity).
  split; [exact H|]. split; [reflexivity|]. exact (jobs_are_conserved 1 1 busy busy_state H).
Defined.

Lemma drained_rests : resting 1 1 drained.
Proof.
  intros [] Hi; try done; cbn [fire]; try reflexivity.
  - by destruct from.
  - by destruct w.
  - by destruct w.
  - by destruct w.
Qed.

Lemma every_job_runs_witness :
  steps 1 1 busy_state drain drained /\ length drain <= pending busy_state /\ ran drained ≡ₚ [7; 8; 9].
Proof.
  assert (Hs : steps 1 1 busy_state drain drained) by (apply fire_all_steps; vm_compute; reflexivity).
  destruct (every_job_runs 1 1 busy busy_state drain drained) as [Hb Hr].
  - lia.
  - apply fire_all_run. vm_compute. reflexivity.
  - intros H. apply list_elem_of_In in H. cbn in H. decompose [or] H; done.
  - exact Hs.
  - split; [exact Hs|]. split; [exact Hb|]. exact (Hr drained_rests).
Defined.

Lemma registering_never_blocks_witness :
  run 1 1 (busy ++ [EFinish 0]) (after [EFinish 0] busy_state) /\ exists d, register 1 0 (after [EFinish 0] busy_state) = Some d.
Proof.
  assert (H : run 1 1 (busy ++ [EFinish 0]) (after [EFinish 0] busy_state)) by (apply fire_all_run; vm_compute; reflexivity).
  split; [exact H|]. apply (registering_never_blocks 1 1 _ _ 0 H). vm_compute. reflexivity.
Defined.
End DispatcherDemo.
