(* ===== verification/Galera.v ===== *)
(** The repair of a broken database cluster (src/go/cmd/galera-autofix and
    src/go/galeraautofix/mariadb): the reports of sequence numbers between the
    servers, the choice of the server that starts a new cluster, and the
    rejoining of the others.

    A run is a computation over [run]: it counts the observations it makes (the
    [k]-th one is answered by the world) and records what it observes and does
    in [r_trace].  The nodes are shared pointers of the source and live in the
    state.  JSON decoding is an argument. *)
From S2P Require Import Prelude NetIP.
From Stdlib Require Import ZArith Lia.
From stdpp Require Import base gmap strings list.

Open Scope Z_scope.

(** ** Sequence numbers (mariadb.go) *)

Definition RunningSeqno : Z := -1.
Definition DefaultSeqno : Z := -2.
Definition InexistantSeqno : Z := -3.

(** The answer of a database to a status query: no connection, an error of the
    query, or its rows, each of which can fail to scan. *)
Inductive db_answer (A : Type) :=
  | NoConnection
  | QueryError
  | Rows (l : list (option A)).

Arguments NoConnection {A}.
Arguments QueryError {A}.
Arguments Rows {A} l.

Definition nil_error_panic : string := "runtime error: invalid memory address or nil pointer dereference".

(** GetLiveSeqno: without a row the error that is logged is nil. *)
Definition GetLiveSeqno (a : db_answer Z) : go Z :=
  match a with
  | NoConnection => Ret DefaultSeqno
  | QueryError => Ret DefaultSeqno
  | Rows (Some lastCommitted :: _) => Ret lastCommitted
  | Rows (None :: _) => Ret DefaultSeqno
  | Rows [] => Panic nil_error_panic
  end.

(** IsDBAvailable. *)
Definition IsDBAvailable (a : db_answer string) : go bool :=
  match a with
  | NoConnection => Ret false
  | QueryError => Ret false
  | Rows (Some status :: _) => Ret (bool_decide (status = "Primary"))
  | Rows (None :: _) => Ret false
  | Rows [] => Panic nil_error_panic
  end.

(** GetColdSeqno: the content of the file, [None] when it cannot be read. *)
Definition GetColdSeqno (file : option string) : Z * error :=
  match file with
  | None => (DefaultSeqno, Some "read")
  | Some data =>
      match Atoi data with
      | (seqno, false) => (seqno, None)
      | (_, true) => (DefaultSeqno, Some "atoi")
      end
  end.

(** One round of seqnoReporting: the new content of the file and the number
    reported to every server. *)
Definition seqnoReporting (live : db_answer Z) (file : option string) : go (option string * Z) :=
  (liveSeqno <-! GetLiveSeqno live ;;
   Ret (if decide (liveSeqno <> DefaultSeqno) then (Some (Itoa liveSeqno), liveSeqno)
        else let '(coldSeqno, err) := GetColdSeqno file in
             if decide (err = None) then (file, coldSeqno) else (file, InexistantSeqno)))%go.

(** ** Nodes (nodes.go) *)

Record Node := mkNode {
  n_IP : ip; n_Hostname : string; n_Seqno : Z; n_Pingable : bool; n_DBAvailable : bool
}.

Definition NewNode (x : ip) (hostname : string) : Node := mkNode x hostname DefaultSeqno false false.

Definition set_seqno (z : Z) (n : Node) : Node :=
  mkNode (n_IP n) (n_Hostname n) z (n_Pingable n) (n_DBAvailable n).

(** RefreshStats with the answers of the ping and of the database. *)
Definition RefreshStats (pingable available : bool) (n : Node) : Node :=
  mkNode (n_IP n) (n_Hostname n) (n_Seqno n) pingable available.

(** ** Messages (chitchat.go) *)

Definition MSG_SET_SEQNO : string := "set_seqno".

Record codec := mkCodec {
  c_ip6s : ip -> string;
  (** a message: its type and raw arguments; an integer *)
  c_message : bytes -> option (string * bytes);
  c_int : bytes -> option Z
}.

Section Messages.
Context (C : codec).

Definition same_ip (x y : ip) : bool := bool_decide (IPString (c_ip6s C) x = IPString (c_ip6s C) y).

Definition handleMsgSetSeqno (from : ip) (args : bytes) (nodes : list Node) : list Node * error :=
  match c_int C args with
  | None => (nodes, Some "json")
  | Some seqno => ((fun n => if same_ip (n_IP n) from then set_seqno seqno n else n) <$> nodes, None)
  end.

Definition handleMessage (from : ip) (payload : bytes) (nodes : list Node) : list Node * error :=
  match c_message C payload with
  | None => (nodes, Some "json")
  | Some (t, args) =>
      if decide (t = MSG_SET_SEQNO) then handleMsgSetSeqno from args nodes
      else (nodes, Some ("No handler for message type: " +:+ t))
  end.

(** One turn of the loop of getSeqnoReport: whether the deadline has passed,
    and what is read. *)
Record turn := mkTurn { t_late : bool; t_read : option (ip * bytes) }.

(** getSeqnoReport over the turns of its loop; [None]: still waiting. *)
Fixpoint getSeqnoReport (turns : list turn) (nodes : list Node) : list Node * option bool :=
  match turns with
  | [] => (nodes, None)
  | t :: turns' =>
      if t_late t then (nodes, Some false)
      else match t_read t with
           | None => getSeqnoReport turns' nodes
           | Some (from, payload) =>
               let nodes := (handleMessage from payload nodes).1 in
               if forallb (fun n => negb (bool_decide (n_Seqno n = DefaultSeqno))) nodes
               then (nodes, Some true) else getSeqnoReport turns' nodes
           end
  end.
End Messages.

(** ** The decision (main.go) *)

Inductive event :=
  | ObsLocal (b : bool)          (* IsLocalDBAvailable *)
  | ObsPeer (x : ip) (b : bool)  (* node.IsDBAvailable *)
  | ObsActive (b : bool)         (* mariadb.IsActive *)
  | ForceStop
  | ClearAndStart
  | Start
  | StartNewCluster.

(** The answers to the [k]-th observation; the deadline of bootAndRejoinCluster
    at its [k]-th observation; the host name, the disabled nodes, the turns of
    the report and the number of connection tries. *)
Record world := mkWorld {
  w_local : nat -> bool;
  w_peer : nat -> ip -> bool;
  w_active : nat -> bool;
  w_late : nat -> bool;
  w_hostname : string;
  w_disabled : string -> bool;
  w_turns : list turn;
  w_codec : codec;
  w_tries : nat
}.

Record run := mkRun { r_nodes : list Node; r_count : nat; r_trace : list event }.

Abbreviation M := (gst run).

Definition observe {A : Type} (f : nat -> A) : M A :=
  fun s => (mkRun (r_nodes s) (S (r_count s)) (r_trace s), Ret (f (r_count s))).
Definition emit (e : event) : M unit :=
  gst_do (fun s => mkRun (r_nodes s) (r_count s) (r_trace s ++ [e])).

Section Decision.
Context (w : world).

Open Scope go_scope.

Definition isLocal : M bool := b <-- observe (w_local w) ;; emit (ObsLocal b) ;;; gst_ret b.
Definition isPeer (x : ip) : M bool := b <-- observe (fun k => w_peer w k x) ;; emit (ObsPeer x b) ;;; gst_ret b.
Definition isActive : M bool := b <-- observe (w_active w) ;; emit (ObsActive b) ;;; gst_ret b.

Definition IsThisServer (n : Node) : bool := bool_decide (w_hostname w = n_Hostname n).

Definition filterPeers (nodes : list Node) : list Node := List.filter (fun n => negb (IsThisServer n)) nodes.

(** The loop of bootAndRejoinCluster; [None]: out of fuel. *)
Fixpoint rejoin_loop (fuel : nat) (x : ip) : M (option bool) :=
  match fuel with
  | O => gst_ret None
  | S fuel' =>
      late <-- observe (w_late w) ;;
      if (late : bool) then emit Start ;;; gst_ret (Some false)
      else b <-- isPeer x ;;
           if (b : bool) then gst_ret (Some true) else rejoin_loop fuel' x
  end.

Definition bootAndRejoinCluster (fuel : nat) (n : Node) : M unit :=
  active <-- isActive ;;
  if (active : bool) then
    emit ForceStop ;;;
    r <-- rejoin_loop fuel (n_IP n) ;;
    if decide (r = Some true) then emit ClearAndStart else gst_ret tt
  else gst_ret tt.

Definition bootNewCluster : M unit :=
  local <-- isLocal ;;
  if (local : bool) then gst_ret tt
  else active <-- isActive ;;
       if (active : bool) then emit ForceStop ;;; emit StartNewCluster else gst_ret tt.

(** The loop of handlePeersPingable over the reports: [None] when a node has
    not reported. *)
Fixpoint highest (best : Node) (nodes : list Node) : option Node :=
  match nodes with
  | [] => Some best
  | n :: nodes' =>
      if decide (n_Seqno n = DefaultSeqno) then None
      else highest (if decide (n_Seqno n > n_Seqno best) then n else best) nodes'
  end.

Definition handlePeersPingable (fuel : nat) : M bool :=
  nodes <-- gst_get r_nodes ;;
  if forallb n_Pingable (filterPeers nodes) then
    let '(nodes, reported) := getSeqnoReport (w_codec w) (w_turns w) nodes in
    gst_do (fun s => mkRun nodes (r_count s) (r_trace s)) ;;;
    if decide (reported = Some true) then
      match nodes with
      | [] => gst_lift (Panic index_panic)
      | first :: _ =>
          match highest first nodes with
          | None => gst_ret false
          | Some n =>
              if decide (n_Seqno n = RunningSeqno) then gst_ret false
              else (if IsThisServer n then bootNewCluster else bootAndRejoinCluster fuel n) ;;; gst_ret true
          end
      end
    else gst_ret false
  else gst_ret false.

Definition handlePeerDBAvailable (fuel : nat) : M bool :=
  nodes <-- gst_get r_nodes ;;
  match List.find n_DBAvailable (filterPeers nodes) with
  | Some n =>
      local <-- isLocal ;;
      if (local : bool) then gst_ret true
      else bootAndRejoinCluster fuel n ;;; gst_ret true
  | None => gst_ret false
  end.

(** The tries to connect to the local database. *)
Fixpoint try_local (tries : nat) : M bool :=
  match tries with
  | O => gst_ret false
  | S tries' => b <-- isLocal ;; if (b : bool) then gst_ret true else try_local tries'
  end.

Definition handle (fuel : nat) : M unit :=
  ok <-- try_local (w_tries w) ;;
  nodes <-- gst_get r_nodes ;;
  if (ok : bool) then gst_ret tt
  else if decide (length nodes <= 1)%nat then gst_ret tt
  else if existsb (fun n => w_disabled w (n_Hostname n)) nodes then gst_ret tt
  else used <-- handlePeerDBAvailable fuel ;;
       if (used : bool) then gst_ret tt
       else handlePeersPingable fuel ;;; gst_ret tt.

End Decision.

(** decisionLoop: the nodes of one round, from the management addresses and
    names of the servers with the answers of the pings and databases. *)
Definition decision_nodes (ip6 : string -> ip) (servers : list (string * string * bool * bool)) : list Node :=
  (fun '(managementIp, host, pingable, available) =>
     RefreshStats pingable available (NewNode (ParseIP ip6 managementIp) host)) <$> servers.

(** ** Theorems *)

(** *** Reports *)

(** What identifies a node; reports change only sequence numbers. *)
Definition ident (n : Node) : ip * string := (n_IP n, n_Hostname n).

Lemma handleMessage_ident C from payload nodes : ident <$> (handleMessage C from payload nodes).1 = ident <$> nodes.
Proof.
  unfold handleMessage, handleMsgSetSeqno. repeat case_match; try done. cbn.
  rewrite <- list_fmap_compose. apply list_fmap_ext. intros i n _. cbn. by case_match.
Qed.

Lemma getSeqnoReport_ident C turns : forall nodes, ident <$> (getSeqnoReport C turns nodes).1 = ident <$> nodes.
Proof.
  induction turns as [|t turns IH]; intros nodes; [done|]. cbn [getSeqnoReport].
  repeat case_match; try done; rewrite ?IH; apply handleMessage_ident.
Qed.

(** A report that succeeded has a number for every node. *)
Lemma getSeqnoReport_complete C turns : forall nodes,
  (getSeqnoReport C turns nodes).2 = Some true ->
  Forall (fun n => n_Seqno n <> DefaultSeqno) (getSeqnoReport C turns nodes).1.
Proof.
  induction turns as [|t turns IH]; intros nodes; [done|]. cbn [getSeqnoReport].
  destruct (t_late t); [done|]. destruct (t_read t) as [[from payload]|]; [|apply IH].
  case_match eqn:E; [|apply IH]. intros _. cbn. apply Forall_forall. intros n Hn.
  rewrite forallb_forall in E. apply list_elem_of_In, E in Hn. by apply negb_true_iff, bool_decide_eq_false in Hn.
Qed.

(** *** The choice *)

(** What the choice depends on. *)
Definition view (n : Node) : string * Z := (n_Hostname n, n_Seqno n).

Lemma highest_view l : forall l' b b',
  view <$> l = view <$> l' -> view b = view b' -> view <$> highest b l = view <$> highest b' l'.
Proof.
  induction l as [|n l IH]; intros [|n' l'] b b' Hl Hb; try done; [by cbn; f_equal|].
  cbn in Hl. injection Hl as Hh Hs Hl. cbn [highest]. rewrite Hs. case_decide; [done|].
  apply IH; [done|]. unfold view in *. injection Hb as Hbh Hbs. rewrite Hbs. case_decide; congruence.
Qed.

Lemma highest_in l : forall b n, highest b l = Some n -> n = b \/ n ∈ l.
Proof.
  induction l as [|m l IH]; intros b n; cbn [highest]; [intros [= ->]; auto|].
  case_decide; [done|]. intros Hm. apply IH in Hm as [->|Hm]; [|set_solver]. case_decide; set_solver.
Qed.

(** The chosen node has the highest number. *)
Lemma highest_max l : forall b n, highest b l = Some n ->
  n_Seqno b <= n_Seqno n /\ Forall (fun m => n_Seqno m <= n_Seqno n) l.
Proof.
  induction l as [|m l IH]; intros b n; cbn [highest]; [intros [= ->]; auto with lia|].
  case_decide; [done|]. intros Hm. apply IH in Hm as [Hm1 Hm2]. case_decide; (split; [lia|constructor; [lia|done]]).
Qed.

(** *** Traces *)

Lemma gst_then_ret {A B} (c : M A) (u : B) s : (gst_bind c (fun _ => gst_ret u) s).1 = (c s).1.
Proof. unfold gst_bind. by destruct (c s) as [s' [a|]]. Qed.

(** The computation does not start a new cluster and keeps the nodes. *)
Definition calm (s s' : run) : Prop :=
  r_nodes s' = r_nodes s /\ (StartNewCluster ∈ r_trace s' -> StartNewCluster ∈ r_trace s).

Global Instance calm_pre : PreOrder calm.
Proof. split; [by intros s|]. intros s1 s2 s3 [H1 H2] [H3 H4]. split; [congruence|auto]. Qed.

Lemma calm_observe {A} (f : nat -> A) : pres calm (observe f).
Proof. by intros s. Qed.

Lemma calm_emit e : e <> StartNewCluster -> pres calm (emit e).
Proof. intros He s. split; [done|]. cbn. rewrite elem_of_app, list_elem_of_singleton. naive_solver. Qed.

#[local] Hint Resolve calm_observe : pres.
#[local] Hint Extern 1 (pres calm (emit _)) => apply calm_emit; discriminate : pres.

Lemma calm_local w : pres calm (isLocal w).
Proof. unfold isLocal. pres_walk. Qed.
Lemma calm_peer w x : pres calm (isPeer w x).
Proof. unfold isPeer. pres_walk. Qed.
Lemma calm_active w : pres calm (isActive w).
Proof. unfold isActive. pres_walk. Qed.
#[local] Hint Resolve calm_local calm_peer calm_active : pres.

Lemma calm_rejoin_loop w fuel x : pres calm (rejoin_loop w fuel x).
Proof. induction fuel as [|fuel IH]; cbn [rejoin_loop]; pres_walk. Qed.
#[local] Hint Resolve calm_rejoin_loop : pres.

Lemma calm_rejoin w fuel n : pres calm (bootAndRejoinCluster w fuel n).
Proof. unfold bootAndRejoinCluster. pres_walk. Qed.
#[local] Hint Resolve calm_rejoin : pres.

Lemma calm_try_local w tries : pres calm (try_local w tries).
Proof. induction tries as [|tries IH]; cbn [try_local]; pres_walk. Qed.

Lemma calm_peer_available w fuel : pres calm (handlePeerDBAvailable w fuel).
Proof. unfold handlePeerDBAvailable. pres_walk. Qed.

(** *** Clearing the data *)

(** Each time the data is cleared the observation just before was that the
    database of a peer is available. *)
Definition wipes_ok (w : world) (ids : list (ip * string)) (tr : list event) : Prop :=
  forall i, tr !! i = Some ClearAndStart ->
    exists j x h, i = S j /\ tr !! j = Some (ObsPeer x true) /\ (x, h) ∈ ids /\ h <> w_hostname w.

Definition tame (w : world) (ids : list (ip * string)) (s s' : run) : Prop :=
  ident <$> r_nodes s = ids ->
  ident <$> r_nodes s' = ids /\ (wipes_ok w ids (r_trace s) -> wipes_ok w ids (r_trace s')).

Global Instance tame_pre w ids : PreOrder (tame w ids).
Proof. split; [by intros s|]. intros s1 s2 s3 H1 H2 H. destruct (H1 H) as [H' ?]. destruct (H2 H'). auto. Qed.

Lemma wipes_ok_snoc w ids tr e :
  wipes_ok w ids tr ->
  (e = ClearAndStart -> exists tr' x h, tr = tr' ++ [ObsPeer x true] /\ (x, h) ∈ ids /\ h <> w_hostname w) ->
  wipes_ok w ids (tr ++ [e]).
Proof.
  intros Hok He i Hi. apply lookup_snoc_Some in Hi as [[Hlt Hi]|[-> Hi]].
  - destruct (Hok i Hi) as (j & x & h & -> & Hj & ?). exists j, x, h. by rewrite lookup_app_l by lia.
  - destruct (He Hi) as (tr' & x & h & -> & Hin & Hne). exists (length tr'), x, h. split.
    + rewrite length_app. cbn. lia.
    + split; [|done]. rewrite lookup_app_l by (rewrite length_app; cbn; lia). by apply list_lookup_middle.
Qed.

Lemma tame_observe w ids {A} (f : nat -> A) : pres (tame w ids) (observe f).
Proof. by intros s. Qed.

Lemma tame_emit w ids e : e <> ClearAndStart -> pres (tame w ids) (emit e).
Proof. intros He s Hs. split; [done|]. intros Hok. by apply wipes_ok_snoc. Qed.

#[local] Hint Resolve tame_observe : pres.
#[local] Hint Extern 1 (pres (tame _ _) (emit _)) => apply tame_emit; discriminate : pres.

Lemma tame_local w ids : pres (tame w ids) (isLocal w).
Proof. unfold isLocal. pres_walk. Qed.
Lemma tame_peer w ids x : pres (tame w ids) (isPeer w x).
Proof. unfold isPeer. pres_walk. Qed.
Lemma tame_active w ids : pres (tame w ids) (isActive w).
Proof. unfold isActive. pres_walk. Qed.
#[local] Hint Resolve tame_local tame_peer tame_active : pres.

Lemma tame_rejoin_loop w ids fuel x : pres (tame w ids) (rejoin_loop w fuel x).
Proof. induction fuel as [|fuel IH]; cbn [rejoin_loop]; pres_walk. Qed.

Lemma tame_try_local w ids tries : pres (tame w ids) (try_local w tries).
Proof. induction tries as [|tries IH]; cbn [try_local]; pres_walk. Qed.

Lemma tame_bootNewCluster w ids : pres (tame w ids) (bootNewCluster w).
Proof. unfold bootNewCluster. pres_walk. Qed.
#[local] Hint Resolve tame_rejoin_loop tame_try_local tame_bootNewCluster : pres.

(** A wait that ended well ended with an available database. *)
Lemma rejoin_loop_ends w fuel x : forall s s',
  rejoin_loop w fuel x s = (s', Ret (Some true)) -> exists tr, r_trace s' = tr ++ [ObsPeer x true].
Proof.
  induction fuel as [|fuel IH]; intros s s' H; [done|]. cbn [rejoin_loop] in H.
  inv_bind H s1 late Hl. destruct late; [by inv_bind H s2 u Hu|].
  inv_bind H s2 b Hb. destruct b; [|by eapply IH]. injection H as <-.
  unfold isPeer in Hb. inv_bind Hb s3 b Hb1. inv_bind Hb s4 u Hu. injection Hb as -> ->.
  injection Hu as <-. cbn. eauto.
Qed.

(** The wait is over at the latest when the deadline has passed. *)
Lemma rejoin_loop_returns w x N : (forall k, (N <= k)%nat -> w_late w k = true) ->
  forall fuel s, (N < fuel + r_count s)%nat -> (0 < fuel)%nat -> exists s' b, rejoin_loop w fuel x s = (s', Ret (Some b)).
Proof.
  intros Hlate. induction fuel as [|fuel IH]; intros s Hf Hp; [lia|]. cbn [rejoin_loop].
  unfold gst_bind at 1. cbn [observe]. destruct (w_late w (r_count s)) eqn:El; [by eexists _, _|].
  unfold gst_bind at 1. cbn. destruct (w_peer w _ x); [by eexists _, _|].
  assert (~ (N <= r_count s)%nat) by (intros H%Hlate; congruence).
  apply IH; cbn; lia.
Qed.

Lemma tame_rejoin w ids fuel n : ident n ∈ ids -> IsThisServer w n = false ->
  pres (tame w ids) (bootAndRejoinCluster w fuel n).
Proof.
  intros Hin Hthis. unfold bootAndRejoinCluster. apply pres_bind; [apply _|auto with pres|]. intros active.
  destruct active; [|auto with pres]. apply pres_bind; [apply _|auto with pres|]. intros _.
  intros s Hs. destruct (tame_rejoin_loop w ids fuel (n_IP n) s Hs) as [Hn Hok]. unfold gst_bind.
  destruct (rejoin_loop w fuel (n_IP n) s) as [s1 [r|msg]] eqn:Er; [|by split]. case_decide; [|by split].
  subst r. split; [done|]. intros H0. apply wipes_ok_snoc; [by apply Hok|]. intros _.
  apply rejoin_loop_ends in Er as [tr Etr]. exists tr, (n_IP n), (n_Hostname n).
  apply bool_decide_eq_false in Hthis. done.
Qed.

(** The tries on a database that does not answer. *)
Lemma try_local_fails w : (forall k, w_local w k = false) -> forall tries nodes k tr,
  try_local w tries (mkRun nodes k tr) = (mkRun nodes (k + tries) (tr ++ replicate tries (ObsLocal false)), Ret false).
Proof.
  intros Hloc. induction tries as [|tries IH]; intros nodes k tr; cbn [try_local].
  - by rewrite Nat.add_0_r, app_nil_r.
  - unfold isLocal, gst_bind, observe. cbn. rewrite Hloc. cbn. rewrite IH. f_equal. f_equal; [lia|].
    by rewrite <- app_assoc.
Qed.

Lemma filterPeers_spec w n nodes : n ∈ filterPeers w nodes -> n ∈ nodes /\ IsThisServer w n = false.
Proof. unfold filterPeers. rewrite !list_elem_of_In, filter_In, negb_true_iff. done. Qed.

Lemma tame_peer_available w ids fuel : pres (tame w ids) (handlePeerDBAvailable w fuel).
Proof.
  intros s. unfold handlePeerDBAvailable, gst_bind at 1. cbn [gst_get].
  destruct (List.find _ _) as [n|] eqn:Ef; [|by apply (pres_ret (tame w ids))].
  apply List.find_some, proj1, list_elem_of_In, filterPeers_spec in Ef as [Hin Hthis]. intros Hs.
  assert (Hid : ident n ∈ ids) by (rewrite <- Hs; apply list_elem_of_fmap; eauto). revert s Hs Hin.
  cut (pres (tame w ids) (local <-- isLocal w ;; if (local : bool) then gst_ret true
         else bootAndRejoinCluster w fuel n ;;; gst_ret true)%go); [intros H s Hs _; by apply H|].
  apply pres_bind; [apply _|auto with pres|]. intros []; [auto with pres|].
  apply pres_bind; [apply _|by apply tame_rejoin|auto with pres].
Qed.

Lemma tame_peers_pingable w ids fuel : pres (tame w ids) (handlePeersPingable w fuel).
Proof.
  intros s. unfold handlePeersPingable, gst_bind at 1. cbn [gst_get]. case_match; [|by apply (pres_ret (tame w ids))].
  destruct (getSeqnoReport _ _ _) as [nodes reported] eqn:Er. unfold gst_bind at 1. cbn [gst_do].
  trans (mkRun nodes (r_count s) (r_trace s)).
  { intros Hs. split; [|auto]. rewrite <- Hs, <- (getSeqnoReport_ident (w_codec w) (w_turns w) (r_nodes s)). by rewrite Er. }
  case_decide; [|by apply (pres_ret (tame w ids))].
  destruct nodes as [|first rest]; [by apply (pres_lift (tame w ids))|].
  destruct (highest first (first :: rest)) as [n|] eqn:Eh; [|by apply (pres_ret (tame w ids))].
  case_decide; [by apply (pres_ret (tame w ids))|].
  rewrite gst_then_ret. destruct (IsThisServer w n) eqn:Et.
  - by apply (tame_bootNewCluster w ids).
  - intros Hids. apply (tame_rejoin w ids); [|done..]. rewrite <- Hids. apply list_elem_of_fmap.
    apply highest_in in Eh. exists n. set_solver.
Qed.

#[local] Hint Resolve tame_peer_available tame_peers_pingable : pres.

Lemma tame_handle w ids fuel : pres (tame w ids) (handle w fuel).
Proof.
  unfold handle. pres_walk.
Qed.

(** A server clears its own data only right after it has seen the database
    of another server of the cluster available: in every run of the decision,
    with whatever answers, each ClearAndStart comes directly after the
    observation that the database of a peer, a configured server with another
    host name, is available. *)
Theorem data_is_cleared_only_behind_a_live_peer w fuel nodes i :
  r_trace (handle w fuel (mkRun nodes 0 [])).1 !! i = Some ClearAndStart ->
  exists j n, i = S j /\ n ∈ nodes /\ n_Hostname n <> w_hostname w /\
    r_trace (handle w fuel (mkRun nodes 0 [])).1 !! j = Some (ObsPeer (n_IP n) true).
Proof.
  destruct (tame_handle w (ident <$> nodes) fuel (mkRun nodes 0 []) eq_refl) as [_ Hok].
  intros Hi. destruct (Hok ltac:(by intros ? ?) i Hi) as (j & x & h & -> & Hj & Hin & Hne).
  apply list_elem_of_fmap in Hin as (n & [= -> ->] & Hn). eauto 10.
Qed.

(** *** A single new cluster *)

(** The reports of these nodes elect the server of this world. *)
Definition elected (w : world) (nodes : list Node) : Prop :=
  exists first rest n, (getSeqnoReport (w_codec w) (w_turns w) nodes).1 = first :: rest /\
    highest first (first :: rest) = Some n /\ w_hostname w = n_Hostname n.

(** A computation that starts a new cluster was elected for it. *)
Definition elects (w : world) (s s' : run) : Prop :=
  StartNewCluster ∈ r_trace s' -> StartNewCluster ∈ r_trace s \/ elected w (r_nodes s).

Lemma elects_after_calm w {A B} (c : M A) (k : A -> M B) :
  pres calm c -> (forall a, pres (elects w) (k a)) -> pres (elects w) (gst_bind c k).
Proof.
  intros Hc Hk s. destruct (Hc s) as [Hn Ht]. unfold gst_bind. destruct (c s) as [s1 [a|msg]]; cbn in *.
  - intros Hin. destruct (Hk a s1 Hin) as [H|H]; [by left; apply Ht|right; by rewrite <- Hn].
  - unfold elects. auto.
Qed.

Lemma elects_of_calm w {A} (c : M A) : pres calm c -> pres (elects w) c.
Proof. intros Hc s Hin. left. by apply (Hc s). Qed.

Lemma elects_peers_pingable w fuel : pres (elects w) (handlePeersPingable w fuel).
Proof.
  intros s. unfold handlePeersPingable, gst_bind at 1. cbn [gst_get]. case_match; [|by left].
  destruct (getSeqnoReport _ _ _) as [nodes reported] eqn:Er. unfold gst_bind at 1. cbn [gst_do].
  case_decide; [|by left]. destruct nodes as [|first rest]; [by left|].
  destruct (highest first (first :: rest)) as [n|] eqn:Eh; [|by left]. case_decide; [by left|].
  destruct (IsThisServer w n) eqn:Et.
  - intros _. right. exists first, rest, n. rewrite Er. apply bool_decide_eq_true in Et. done.
  - intros Hin. left. eapply (pres_bind calm) in Hin; [exact Hin|apply calm_rejoin|auto with pres].
Qed.

Lemma elects_handle w fuel : pres (elects w) (handle w fuel).
Proof.
  apply elects_after_calm; [apply calm_try_local|intros ok].
  apply elects_after_calm; [auto with pres|intros nodes].
  repeat (case_match || case_decide); try (apply elects_of_calm; by auto with pres).
  apply elects_after_calm; [apply calm_peer_available|intros done'].
  case_match; [apply elects_of_calm; auto with pres|].
  intros s. rewrite gst_then_ret. apply elects_peers_pingable.
Qed.

(** C12.  Of the servers that see the same reports at most one starts a new
    cluster: if two runs of the decision, on any two servers with whatever
    answers of pings, databases and clocks, see the same host names and
    sequence numbers and both start one, they ran on the same host. *)
Theorem one_server_starts_the_cluster w1 w2 fuel1 fuel2 nodes1 nodes2 :
  view <$> (getSeqnoReport (w_codec w1) (w_turns w1) nodes1).1 =
  view <$> (getSeqnoReport (w_codec w2) (w_turns w2) nodes2).1 ->
  StartNewCluster ∈ r_trace (handle w1 fuel1 (mkRun nodes1 0 [])).1 ->
  StartNewCluster ∈ r_trace (handle w2 fuel2 (mkRun nodes2 0 [])).1 ->
  w_hostname w1 = w_hostname w2.
Proof.
  intros Hv [H|(f1 & l1 & n1 & E1 & H1 & ->)]%elects_handle [H'|(f2 & l2 & n2 & E2 & H2 & ->)]%elects_handle;
    cbn [r_trace r_nodes] in *; try by set_solver.
  rewrite E1, E2 in Hv. assert (Hf := Hv). injection Hf as Hf1 Hf2 _.
  assert (Hb : view f1 = view f2) by (unfold view; congruence).
  apply (highest_view _ _ _ _ Hv) in Hb. rewrite H1, H2 in Hb. by injection Hb.
Qed.

(** *** Servers without data *)

Lemma peer_unavailable w fuel {B} (k : bool -> M B) s :
  (forall n, n ∈ r_nodes s -> n_Hostname n <> w_hostname w -> n_DBAvailable n = false) ->
  gst_bind (handlePeerDBAvailable w fuel) k s = k false s.
Proof.
  intros H. unfold handlePeerDBAvailable, gst_bind. cbn [gst_get].
  destruct (List.find _ _) as [n|] eqn:Ef; [|done]. apply List.find_some in Ef as [Hin Hn].
  apply list_elem_of_In, filterPeers_spec in Hin as [Hin Ht%bool_decide_eq_false]. by rewrite H in Hn.
Qed.

Lemma peers_pingable w nodes :
  (forall n, n ∈ nodes -> n_Hostname n <> w_hostname w -> n_Pingable n = true) ->
  forallb n_Pingable (filterPeers w nodes) = true.
Proof.
  intros H. apply forallb_forall. intros n Hin.
  apply list_elem_of_In, filterPeers_spec in Hin as [Hin Ht%bool_decide_eq_false]. by apply H.
Qed.

Lemma highest_all_equal z l : z <> DefaultSeqno -> forall b,
  n_Seqno b = z -> Forall (fun n => n_Seqno n = z) l -> highest b l = Some b.
Proof.
  intros Hz b Hb. induction 1 as [|n l Hn Hl IH]; [done|]. cbn [highest]. rewrite Hn, decide_False by done.
  by rewrite decide_False by lia.
Qed.

(** When no server of the cluster has a sequence number, so that all
    report the inexistant one, the first server of the configuration starts a
    new cluster from its own data although none has the latest. *)
Theorem cluster_started_without_seqno w fuel nodes first rest :
  (getSeqnoReport (w_codec w) (w_turns w) nodes) = (first :: rest, Some true) ->
  Forall (fun n => n_Seqno n = InexistantSeqno) (first :: rest) ->
  n_Hostname first = w_hostname w -> (1 < length nodes)%nat ->
  (forall n, n ∈ nodes -> n_Hostname n <> w_hostname w -> n_Pingable n = true /\ n_DBAvailable n = false) ->
  (forall h, w_disabled w h = false) -> (forall k, w_local w k = false) -> (forall k, w_active w k = true) ->
  r_trace (handle w fuel (mkRun nodes 0 [])).1 =
    replicate (w_tries w) (ObsLocal false) ++ [ObsLocal false; ObsActive true; ForceStop; StartNewCluster].
Proof.
  intros Hr Hall Hfirst Hlen Hpeers Hdis Hloc Hact. unfold handle, gst_bind at 1. rewrite try_local_fails by done.
  unfold gst_bind at 1. cbn [gst_get r_nodes]. rewrite decide_False by lia.
  replace (existsb _ nodes) with false by (symmetry; apply not_true_iff_false; rewrite existsb_exists; intros (n & _ & Hn); by rewrite Hdis in Hn).
  rewrite peer_unavailable, gst_then_ret by (intros n Hn; apply (Hpeers n Hn)).
  unfold handlePeersPingable, gst_bind at 1. cbn [gst_get r_nodes].
  rewrite peers_pingable by (intros n Hn; apply (Hpeers n Hn)). rewrite Hr. unfold gst_bind at 1.
  cbn [gst_do r_count r_trace]. rewrite decide_True by done.
  inversion_clear Hall as [|? ? Hf Hrest]. rewrite (highest_all_equal InexistantSeqno) by (done || by constructor).
  rewrite Hf, decide_False by done. rewrite gst_then_ret.
  unfold IsThisServer. rewrite bool_decide_eq_true_2 by done.
  unfold bootNewCluster, isLocal, isActive, gst_bind, observe. cbn. rewrite Hloc. cbn. rewrite Hact. cbn.
  by rewrite <- !app_assoc.
Qed.

(** A server whose database answers one of the tries is left alone. *)
Lemma try_local_answers w : forall tries k nodes c tr,
  (k < tries)%nat -> w_local w (c + k) = true -> (forall j, (j < k)%nat -> w_local w (c + j) = false) ->
  try_local w tries (mkRun nodes c tr) =
    (mkRun nodes (c + S k) (tr ++ replicate k (ObsLocal false) ++ [ObsLocal true]), Ret true).
Proof.
  induction tries as [|tries IH]; intros k nodes c tr Hk Ht Hf; [lia|]. cbn [try_local].
  unfold isLocal, gst_bind, observe. cbn. destruct k as [|k].
  - rewrite Nat.add_0_r in Ht. rewrite Ht. cbn. by rewrite Nat.add_1_r.
  - assert (H0 := Hf 0%nat ltac:(lia)). rewrite Nat.add_0_r in H0. rewrite H0. cbn.
    rewrite (IH k); [|lia|by rewrite Nat.add_succ_comm|].
    + f_equal. f_equal; [lia|]. by rewrite <- app_assoc.
    + intros j Hj. rewrite Nat.add_succ_comm. apply Hf. lia.
Qed.

Lemma healthy_server_is_left_alone w fuel nodes k :
  (k < w_tries w)%nat -> w_local w k = true -> (forall j, (j < k)%nat -> w_local w j = false) ->
  r_trace (handle w fuel (mkRun nodes 0 [])).1 = replicate k (ObsLocal false) ++ [ObsLocal true].
Proof.
  intros Hk Ht Hf. unfold handle, gst_bind at 1. by rewrite (try_local_answers w _ k) by done.
Qed.

(** Without a row the error that GetLiveSeqno and IsDBAvailable log is nil. *)
Lemma status_without_row_panics :
  GetLiveSeqno (Rows []) = Panic nil_error_panic /\ IsDBAvailable (Rows []) = Panic nil_error_panic.
Proof. done. Qed.

(** *** A concrete cluster *)

(** Two servers; messages are a length and an integer in one byte. *)
Definition demo_codec : codec :=
  mkCodec (fun _ => EmptyString) (fun b => Some (MSG_SET_SEQNO, b)) (fun b => match b with [z] => Some z | _ => None end).
Definition demo_nodes : list Node := [NewNode [10; 0; 0; 1] "a"; RefreshStats true false (NewNode [10; 0; 0; 2] "b")].
Definition demo_world (host : string) (peer : bool) (z1 z2 : Z) : world :=
  mkWorld (fun _ => false) (fun _ _ => peer) (fun _ => true) (fun k => (20 <=? k)%nat) host (fun _ => false)
    [mkTurn false (Some ([10; 0; 0; 1], [z1])); mkTurn false None; mkTurn false (Some ([10; 0; 0; 2], [z2]))]
    demo_codec 3.

Lemma one_server_starts_the_cluster_witness :
  w_hostname (demo_world "a" true 7 5) = w_hostname (demo_world "a" false 7 5).
Proof.
  apply (one_server_starts_the_cluster (demo_world "a" true 7 5) (demo_world "a" false 7 5) 30 30
           demo_nodes (RefreshStats true false <$> demo_nodes));
    [vm_compute; reflexivity|apply list_elem_of_In; vm_compute; tauto|apply list_elem_of_In; vm_compute; tauto].
Defined.

Lemma data_is_cleared_only_behind_a_live_peer_witness :
  exists j n, 6%nat = S j /\ n ∈ RefreshStats true false <$> demo_nodes /\ n_Hostname n <> "a" /\
    r_trace (handle (demo_world "a" true 5 7) 30 (mkRun (RefreshStats true false <$> demo_nodes) 0 [])).1 !! j
      = Some (ObsPeer (n_IP n) true).
Proof.
  apply (data_is_cleared_only_behind_a_live_peer (demo_world "a" true 5 7) 30 (RefreshStats true false <$> demo_nodes) 6).
  vm_compute. reflexivity.
Defined.

Lemma cluster_started_without_seqno_witness :
  r_trace (handle (demo_world "a" false (-3) (-3)) 30 (mkRun demo_nodes 0 [])).1 =
    replicate 3 (ObsLocal false) ++ [ObsLocal false; ObsActive true; ForceStop; StartNewCluster].
Proof.
  apply (cluster_started_without_seqno (demo_world "a" false (-3) (-3)) 30 demo_nodes
           (set_seqno (-3) (NewNode [10; 0; 0; 1] "a")) [set_seqno (-3) (RefreshStats true false (NewNode [10; 0; 0; 2] "b"))]);
    [vm_compute; reflexivity|repeat constructor|reflexivity|vm_compute; lia| |reflexivity..].
  intros n [->|[->|H%elem_of_nil]%elem_of_cons]%elem_of_cons; [|vm_compute; done|done]. intros H. by destruct H.
Defined.
