(* ===== verification/Cron.v ===== *)
(** The scheduled maintenance (src/go/cron and src/go/cmd/pfcron): batched SQL
    statements, the clean-up and rotation of the address logs, the construction
    of jobs from the configuration and from the command line, and the wrapper
    that keeps a job from running twice at a time.

    A table is a multiset of rows.  The statements that select or delete a
    limited number of rows take them from a listing that the database chooses:
    any listing of the rows, sorted where the statement says ORDER BY.  The
    outcome of every call of the database and every reading of the clock is an
    argument. *)
From S2P Require Import Prelude Regex Interval.
From Stdlib Require Import ZArith Lia Ascii.
From stdpp Require Import base gmap gmultiset sorting strings list.

Open Scope Z_scope.

(** ** Batches (batch.go) *)

Inductive exec_result :=
  | ExecError (e : string)
  | RowsError (e : string)
  | Affected (rows : Z).

Section Batch.
Context {St : Type}.

(** BatchStmt from its [k]-th turn; [late k]: the time limit has passed then;
    [None]: out of fuel. *)
Fixpoint BatchStmt (fuel : nat) (late : nat -> bool) (exec : nat -> St -> St * exec_result)
  (k : nat) (rows_affected : Z) (s : St) : St * option (Z * error) :=
  match fuel with
  | O => (s, None)
  | S fuel' =>
      match exec k s with
      | (s, ExecError err) => (s, Some (rows_affected, Some err))
      | (s, RowsError err) => (s, Some (rows_affected, Some err))
      | (s, Affected rows) =>
          if decide (rows <= 0) then (s, Some (rows_affected, None))
          else let rows_affected := i64 (rows_affected + rows) in
               if late k then (s, Some (rows_affected, None))
               else BatchStmt fuel' late exec (S k) rows_affected s
      end
  end.

(** BatchStmtQueryWithCount: the query returns a count or fails. *)
Fixpoint BatchStmtQueryWithCount (fuel : nat) (late : nat -> bool) (query : nat -> St -> St * option Z)
  (k : nat) (rows_affected : Z) (s : St) : St * option Z :=
  match fuel with
  | O => (s, None)
  | S fuel' =>
      match query k s with
      | (s, None) => (s, Some rows_affected)
      | (s, Some count) =>
          if decide (count <= 0) then (s, Some rows_affected)
          else let rows_affected := i64 (rows_affected + count) in
               if late k then (s, Some rows_affected)
               else BatchStmtQueryWithCount fuel' late query (S k) rows_affected s
      end
  end.

(** BatchSql: [connect] and [prepare] are the errors of getDb and Prepare. *)
Definition BatchSql (connect prepare : error) (fuel : nat) (late : nat -> bool)
  (exec : nat -> St -> St * exec_result) (s : St) : St * option (Z * error) :=
  if decide (connect <> None) then (s, Some (-1, connect))
  else if decide (prepare <> None) then (s, Some (-1, prepare))
  else BatchStmt fuel late exec 0 0 s.

Definition BatchSqlCount (connect prepare : error) (fuel : nat) (late : nat -> bool)
  (query : nat -> St -> St * option Z) (s : St) : St :=
  if decide (connect <> None) then s
  else if decide (prepare <> None) then s
  else (BatchStmtQueryWithCount fuel late query 0 0 s).1.
End Batch.

(** ** The address logs (ip4log_cleanup.go; ip6log_cleanup.go is the same code
    on other tables) *)

(** tenant_id, mac, ip, start_time, end_time *)
Definition row : Type := Z * string * string * Z * Z.
Definition end_time (r : row) : Z := r.2.

Abbreviation table := (gmultiset row).

(** The rows of the condition end_time < DATE_SUB(start, INTERVAL window SECOND). *)
Definition old (cut : Z) (t : table) : table := filter (fun r => end_time r < cut) t.

(** The first [limit] rows of a listing. *)
Definition firsts (limit : Z) (l : list row) : table := list_to_set_disj (take (Z.to_nat limit) l).

Inductive commit := Committed | CommitFailed (applied : bool).

(** The answers in one turn of the loop of DoRotate: whether each call
    succeeds, the listings of the rows for the INSERT and for the DELETE, and
    whether the time limit has passed. *)
Record turn := mkTurn {
  o_begin : bool; o_insert : bool; o_inserted : bool; o_delete : bool; o_deleted : bool;
  o_commit : commit; o_late : bool;
  o_list_insert : table -> list row; o_list_delete : table -> list row
}.

Record tables := mkTables { history : table; archive : table }.

(** One turn: the tables, and whether the loop goes on.  A transaction that is
    rolled back leaves the tables as they were; a commit that returns an error
    may have been applied or not. *)
Definition rotate_turn (limit cut : Z) (o : turn) (t : tables) : tables * bool :=
  if negb (o_begin o) then (t, false)
  else if negb (o_insert o) || bool_decide (limit < 0) then (t, false)
  else
    let inserted := firsts limit (o_list_insert o (old cut (history t))) in
    if negb (o_inserted o) then (t, false)
    else if decide (size inserted <= 0)%nat then (t, false)
    else if negb (o_delete o) then (t, false)
    else
      let deleted := firsts limit (o_list_delete o (old cut (history t))) in
      if negb (o_deleted o) then (t, false)
      else
        let t' := mkTables (history t ∖ deleted) (archive t ⊎ inserted) in
        match o_commit o with
        | CommitFailed applied => (if applied then t' else t, false)
        | Committed => (t', negb (o_late o))
        end.

(** DoRotate; [None]: out of fuel. *)
Fixpoint DoRotate (fuel : nat) (limit cut : Z) (os : nat -> turn) (k : nat) (t : tables) : option tables :=
  match fuel with
  | O => None
  | S fuel' =>
      let '(t, more) := rotate_turn limit cut (os k) t in
      if (more : bool) then DoRotate fuel' limit cut os (S k) t else Some t
  end.

(** The answers to one execution of a DELETE with a limit: an error before or
    after it is done, and the listing of the rows. *)
Record del := mkDel { d_exec : error; d_rows : error; d_list : table -> list row }.

(** DELETE FROM t WHERE end_time < cut LIMIT limit. *)
Definition delete_stmt (limit cut : Z) (os : nat -> del) (k : nat) (t : table) : table * exec_result :=
  match d_exec (os k) with
  | Some err => (t, ExecError err)
  | None =>
      if decide (limit < 0) then (t, ExecError "syntax")
      else
        let deleted := firsts limit (d_list (os k) (old cut t)) in
        (t ∖ deleted, match d_rows (os k) with
                      | Some err => RowsError err
                      | None => Affected (Z.of_nat (size deleted))
                      end)
  end.

Record Ip4logCleanup := mkIp4logCleanup {
  Window : Z; Batch : Z; Timeout : Z; Rotate : string; RotateWindow : Z; RotateBatch : Z; RotateTimeout : Z
}.

(** Ip4logCleanup.Run: [start] and [now] are the clock readings of DoRotate and
    of the deletion; DoRotate returns at once when there is no connection. *)
Definition Ip4log_Run (fuel : nat) (j : Ip4logCleanup) (connect prepare : error) (start now : Z)
  (turns : nat -> turn) (late : nat -> bool) (dels : nat -> del) (t : tables) : option tables :=
  if decide (Rotate j = "Y") then
    match (if decide (connect <> None) then Some t
           else DoRotate fuel (RotateBatch j) (start - RotateWindow j) turns 0 t) with
    | None => None
    | Some t =>
        match BatchSql connect prepare fuel late (delete_stmt (Batch j) (now - Window j) dels) (archive t) with
        | (a, Some _) => Some (mkTables (history t) a)
        | (_, None) => None
        end
    end
  else
    match BatchSql connect prepare fuel late (delete_stmt (Batch j) (now - Window j) dels) (history t) with
    | (h, Some _) => Some (mkTables h (archive t))
    | (_, None) => None
    end.

(** ** Jobs from the configuration (config.go and the constructors) *)

Abbreviation config := (gmap string jv).

Definition cfg (c : config) (key : string) : jv := default JNil (c !! key).

(** The type assertions .(string), .(float64) and .(map[string]interface); a
    number of the configuration is integral. *)
Definition as_string (v : jv) : go string :=
  match v with JStr s => Ret s | _ => Panic type_panic end.
Definition as_float (v : jv) : go Z :=
  match v with JNum z => Ret z | _ => Panic type_panic end.
Definition as_map (v : jv) : go config :=
  match v with JMap m => Ret (list_to_map m) | _ => Panic type_panic end.

Definition seconds (z : Z) : Z := i64 (z * 1000000000).

Record Task := mkTask { Type_ : string; Status : string; Description : string; ScheduleSpecStr : string }.

Section Constructors.
Open Scope go_scope.

Definition SetupTask (c : config) : go Task :=
  type <-! as_string (cfg c "type") ;;
  status <-! as_string (cfg c "status") ;;
  description <-! as_string (cfg c "description") ;;
  schedule <-! as_string (cfg c "schedule") ;;
  Ret (mkTask type status description schedule).

Inductive job :=
  | FingerbankDataUpdate (t : Task)
  | CertificatesCheck (t : Task) (delay : string) (duration : Z) (certificates : list string)
  | FileLogger (t : Task) (outfile content : string)
  | ChiCleanup (t : Task) (batch timeout : Z)
  | BandwidthMaintenance (t : Task) (window batch timeout hwindow hbatch htimeout : Z)
  | PopulateNtlmRedisCache (t : Task)
  | Ip4logJob (t : Task) (j : Ip4logCleanup)
  | Ip6logJob (t : Task) (j : Ip4logCleanup)
  | WindowSqlCleanup (t : Task) (window batch timeout : Z) (sql : string)
  | MultiWindowSqlCleanup (t : Task) (window batch timeout : Z) (sqls : list string)
  | PfcronJob (t : Task).

Definition NewFingerbankDataUpdate (c : config) : go job :=
  t <-! SetupTask c ;; Ret (FingerbankDataUpdate t).

(** The separator of the list of certificates: a comma with spaces. *)
Definition splitByComma : re := Seq spaces (Seq (lit ",") spaces).

Definition NewCertificatesCheck (c : config) : go job :=
  delay <-! as_string (cfg c "delay") ;;
  t <-! SetupTask c ;;
  certificates <-! as_string (cfg c "certificates") ;;
  Ret (CertificatesCheck t delay (NormalizeTime delay).1 (re_split splitByComma None certificates)).

Definition NewFileLogger (c : config) : go job :=
  t <-! SetupTask c ;;
  outfile <-! as_string (cfg c "outfile") ;;
  content <-! as_string (cfg c "content") ;;
  Ret (FileLogger t outfile content).

Definition NewChiCleanup (c : config) : go job :=
  t <-! SetupTask c ;;
  batch <-! as_float (cfg c "batch") ;;
  timeout <-! as_float (cfg c "timeout") ;;
  Ret (ChiCleanup t batch (seconds timeout)).

Definition NewBandwidthMaintenance (c : config) : go job :=
  t <-! SetupTask c ;;
  batch <-! as_float (cfg c "batch") ;;
  timeout <-! as_float (cfg c "timeout") ;;
  window <-! as_float (cfg c "window") ;;
  hbatch <-! as_float (cfg c "history_batch") ;;
  htimeout <-! as_float (cfg c "history_timeout") ;;
  hwindow <-! as_float (cfg c "history_window") ;;
  Ret (BandwidthMaintenance t window batch (seconds timeout) hwindow hbatch (seconds htimeout)).

Definition NewPopulateNtlmRedisCache (c : config) : go job :=
  t <-! SetupTask c ;; Ret (PopulateNtlmRedisCache t).

(** The fields of both address log jobs. *)
Definition log_fields (c : config) : go Ip4logCleanup :=
  batch <-! as_float (cfg c "batch") ;;
  timeout <-! as_float (cfg c "timeout") ;;
  window <-! as_float (cfg c "window") ;;
  rotate <-! as_string (cfg c "rotate") ;;
  rbatch <-! as_float (cfg c "rotate_batch") ;;
  rtimeout <-! as_float (cfg c "rotate_timeout") ;;
  rwindow <-! as_float (cfg c "rotate_window") ;;
  Ret (mkIp4logCleanup window batch (seconds timeout) rotate rwindow rbatch (seconds rtimeout)).

Definition NewIp4logCleanup (c : config) : go job :=
  t <-! SetupTask c ;; j <-! log_fields c ;; Ret (Ip4logJob t j).

Definition NewIp6logCleanup (c : config) : go job :=
  t <-! SetupTask c ;; j <-! log_fields c ;; Ret (Ip6logJob t j).

Definition NewWindowSqlCleanup (sql : string) (c : config) : go job :=
  t <-! SetupTask c ;;
  batch <-! as_float (cfg c "batch") ;;
  timeout <-! as_float (cfg c "timeout") ;;
  window <-! as_float (cfg c "window") ;;
  Ret (WindowSqlCleanup t window batch (seconds timeout) sql).

Definition NewMultiWindowSqlCleanup (sqls : list string) (c : config) : go job :=
  t <-! SetupTask c ;;
  batch <-! as_float (cfg c "batch") ;;
  timeout <-! as_float (cfg c "timeout") ;;
  window <-! as_float (cfg c "window") ;;
  Ret (MultiWindowSqlCleanup t window batch (seconds timeout) sqls).

Definition NewPfcronJob (c : config) : go job := t <-! SetupTask c ;; Ret (PfcronJob t).

Definition session_sql : string := "
UPDATE
bandwidth_accounting RIGHT JOIN (
    SELECT node_id, unique_session_id
    FROM bandwidth_accounting as ba
    GROUP BY node_id, unique_session_id
    HAVING MAX(ba.last_updated) BETWEEN '0001-01-01 00:00:00' AND DATE_SUB(?, INTERVAL ? SECOND)
    LIMIT ?
    ) as old_sessions USING (node_id, unique_session_id)

    SET last_updated = '0000-00-00 00:00:00';
".

Definition builders : list (string * (config -> go job)) := [
  ("fingerbank_data_update", NewFingerbankDataUpdate);
  ("certificates_check", NewCertificatesCheck);
  ("file_logger", NewFileLogger);
  ("cleanup_chi_database_cache", NewChiCleanup);
  ("bandwidth_maintenance", NewBandwidthMaintenance);
  ("populate_ntlm_redis_cache", NewPopulateNtlmRedisCache);
  ("ip4log_cleanup", NewIp4logCleanup);
  ("ip6log_cleanup", NewIp6logCleanup);
  ("admin_api_audit_log_cleanup", NewWindowSqlCleanup
     "DELETE FROM admin_api_audit_log WHERE created_at < DATE_SUB(?, INTERVAL ? SECOND) LIMIT ?");
  ("auth_log_cleanup", NewWindowSqlCleanup
     "DELETE FROM auth_log WHERE attempted_at < DATE_SUB(?, INTERVAL ? SECOND) LIMIT ?");
  ("dns_audit_log_cleanup", NewWindowSqlCleanup
     "DELETE FROM dns_audit_log WHERE created_at < DATE_SUB(?, INTERVAL ? SECOND) LIMIT ?");
  ("radius_audit_log_cleanup", NewWindowSqlCleanup
     "DELETE FROM radius_audit_log WHERE created_at < DATE_SUB(?, INTERVAL ? SECOND) LIMIT ?");
  ("locationlog_cleanup", NewMultiWindowSqlCleanup [
     "DELETE FROM locationlog_history WHERE end_time < DATE_SUB(?, INTERVAL ? SECOND) AND end_time != '0000-00-00 00:00:00' LIMIT ?";
     "DELETE FROM locationlog WHERE end_time < DATE_SUB(?, INTERVAL ? SECOND) AND end_time != '0000-00-00 00:00:00' LIMIT ?"]);
  ("acct_cleanup", NewMultiWindowSqlCleanup [
     "UPDATE radacct SET acctstoptime = NOW() WHERE acctstarttime < DATE_SUB(?, INTERVAL ? SECOND) AND acctstoptime IS NULL LIMIT ?";
     "DELETE FROM radacct WHERE acctstarttime < DATE_SUB(?, INTERVAL ? SECOND) AND acctstoptime IS NOT NULL LIMIT ?";
     "DELETE FROM radacct_log WHERE timestamp < DATE_SUB(?, INTERVAL ? SECOND) LIMIT ?"]);
  ("bandwidth_maintenance_session", NewWindowSqlCleanup session_sql)
].

Definition BuildJob (name : string) (c : config) : go job :=
  match List.find (fun b => bool_decide (b.1 = name)) builders with
  | Some (_, constructor) => constructor c
  | None => NewPfcronJob c
  end.

(** GetConfiguredJobs over the entries in the order of the iteration. *)
Fixpoint GetConfiguredJobs (maintConfig : list (string * jv)) : go (list job) :=
  match maintConfig with
  | [] => Ret []
  | (name, c) :: rest =>
      data <-! as_map c ;;
      status <-! as_string (cfg data "status") ;;
      (if decide (status = "enabled") then
         j <-! BuildJob name data ;;
         js <-! GetConfiguredJobs rest ;;
         Ret (j :: js)
       else GetConfiguredJobs rest)
  end.

Definition GetJob (name : string) (jobsConfig : config) : go (option job) :=
  match jobsConfig !! name with
  | Some c => data <-! as_map c ;; j <-! BuildJob name data ;; Ret (Some j)
  | None => Ret None
  end.

Definition MergeArgs (a b : config) : config := b ∪ a.

(** ** The command line (cmd/pfcron) *)

(** makeArgs; [inl]: the error. *)
Fixpoint makeArgs_from (acc : config) (args : list string) : string + config :=
  match args with
  | [] => inr acc
  | arg :: args' =>
      match cut_at "=" arg with
      | None => inl ("'" +:+ arg +:+ "' is incorrectly formatted")
      | Some (k, v) => makeArgs_from (<[k := JStr v]> acc) args'
      end
  end.

Definition makeArgs (args : list string) : string + config := makeArgs_from ∅ args.

(** runJobNow: the exit code and the job that is run. *)
Definition runJobNow (name : string) (jobsConfig additionalArgs : config) : go (Z * option job) :=
  match jobsConfig !! name with
  | Some c =>
      data <-! as_map c ;;
      j <-! BuildJob name (MergeArgs data additionalArgs) ;;
      Ret (0, Some j)
  | None => Ret (1, None)
  end.

End Constructors.

(** ** The calls of a job *)

Inductive arg := ANow (* time.Now() *) | AStart (* the start of DoRotate *) | ANowFloat (* time.Now() in seconds *) | AInt (z : Z) | AStr (s : string).

Inductive call :=
  | CallBatchSql (timeout : Z) (sql : string) (args : list arg)
  | CallBatchSqlCount (timeout : Z) (sql : string) (args : list arg)
  | CallExec (sql : string) (args : list arg)   (* Exec in the transactions of DoRotate *)
  | CallApi (method : string)          (* a call of the API *)
  | OtherEffect.                       (* files and mails *)

Definition ProcessBandwidthAccountingNetflow (batch timeout : Z) : call :=
  CallBatchSqlCount timeout "CALL process_bandwidth_accounting_netflow(SUBDATE(NOW(), INTERVAL ? SECOND) ,?);"
    [AInt 300; AInt batch].
Definition TriggerBandwidth : call := CallApi "bandwidth_trigger".
Definition BandwidthAggregation (batch timeout : Z) (rounding date_sql : string) (interval : Z) : call :=
  CallBatchSqlCount timeout ("CALL bandwidth_aggregation(?, " +:+ date_sql +:+ ", ?)")
    [AStr rounding; AInt interval; AInt batch].
Definition BandwidthAccountingRadiusToHistory (window batch timeout : Z) : call :=
  CallBatchSqlCount timeout "CALL bandwidth_accounting_radius_to_history(DATE_SUB(NOW(), INTERVAL ? SECOND), ?);"
    [AInt window; AInt batch].
Definition BandwidthHistoryAggregation (batch timeout : Z) (rounding date_sql : string) (interval : Z) : call :=
  CallBatchSqlCount timeout ("CALL bandwidth_aggregation_history(?, " +:+ date_sql +:+ ", ?)")
    [AStr rounding; AInt interval; AInt batch].
Definition BandwidthAccountingHistoryCleanup (hwindow hbatch htimeout : Z) : call :=
  CallBatchSql htimeout "DELETE from bandwidth_accounting_history WHERE time_bucket < DATE_SUB(?, INTERVAL ? SECOND) LIMIT ?"
    [ANow; AInt hwindow; AInt hbatch].

Definition bandwidth_Run (window batch timeout hwindow hbatch htimeout : Z) : list call := [
  ProcessBandwidthAccountingNetflow batch timeout;
  TriggerBandwidth;
  BandwidthAggregation batch timeout "hourly" "DATE_SUB(NOW(), INTERVAL ? HOUR)" 2;
  BandwidthAggregation batch timeout "daily" "DATE_SUB(NOW(), INTERVAL ? DAY)" 2;
  BandwidthAggregation batch timeout "monthly" "DATE_SUB(NOW(), INTERVAL ? MONTH)" 1;
  BandwidthAccountingRadiusToHistory window batch timeout;
  BandwidthHistoryAggregation batch timeout "daily" "SUBDATE(NOW(), INTERVAL ? DAY)" 1;
  BandwidthHistoryAggregation batch timeout "monthly" "SUBDATE(NOW(), INTERVAL ? MONTH)" 1;
  BandwidthAccountingHistoryCleanup hwindow hbatch htimeout].

Definition window_Run (window batch timeout : Z) (sql : string) : list call :=
  [CallBatchSql timeout sql [ANow; AInt window; AInt batch]].

Definition multi_Run (window batch timeout : Z) (sqls : list string) : list call :=
  (fun sql => CallBatchSql timeout sql [ANow; AInt window; AInt batch]) <$> sqls.

Definition chi_Run (batch timeout : Z) : list call :=
  [CallBatchSql timeout "DELETE FROM chi_cache WHERE expires_at < ? LIMIT ?" [ANowFloat; AInt batch]].

(** Run of the log jobs on the tables [name]_history and [name]_archive: the
    statements in the order of their first execution; those of DoRotate are
    repeated in turn. *)
Definition log_Run (name : string) (j : Ip4logCleanup) : list call :=
  if decide (Rotate j = "Y") then
    [CallExec ("INSERT INTO " +:+ name +:+ "_archive (tenant_id, mac, ip, start_time, end_time) " +:+
        "SELECT tenant_id, mac, ip, start_time, end_time FROM " +:+ name +:+ "_history " +:+
        "WHERE end_time < DATE_SUB(?, INTERVAL ? SECOND) ORDER BY end_time LIMIT ?")
       [AStart; AInt (RotateWindow j); AInt (RotateBatch j)];
     CallExec ("DELETE FROM " +:+ name +:+ "_history WHERE end_time < DATE_SUB(?, INTERVAL ? SECOND) ORDER BY end_time LIMIT ?")
       [AStart; AInt (RotateWindow j); AInt (RotateBatch j)];
     CallBatchSql (Timeout j) ("DELETE FROM " +:+ name +:+ "_archive WHERE end_time < DATE_SUB(?, INTERVAL ? SECOND) LIMIT ?")
       [ANow; AInt (Window j); AInt (Batch j)]]
  else
    [CallBatchSql (Timeout j) ("DELETE FROM " +:+ name +:+ "_history WHERE end_time < DATE_SUB(?, INTERVAL ? SECOND) LIMIT ?")
       [ANow; AInt (Window j); AInt (Batch j)]].

(** The two tables of the job for IPv6 are handled by the same code. *)
Definition Ip6log_Run := Ip4log_Run.

Definition Run (j : job) : list call :=
  match j with
  | FingerbankDataUpdate _ => [CallApi "fingerbank_update_component"]
  | CertificatesCheck _ _ _ _ => [OtherEffect]
  | FileLogger _ _ _ => [OtherEffect]
  | ChiCleanup _ batch timeout => chi_Run batch timeout
  | BandwidthMaintenance _ w b t hw hb ht => bandwidth_Run w b t hw hb ht
  | PopulateNtlmRedisCache _ => []
  | Ip4logJob _ l => log_Run "ip4log" l
  | Ip6logJob _ l => log_Run "ip6log" l
  | WindowSqlCleanup _ w b t sql => window_Run w b t sql
  | MultiWindowSqlCleanup _ w b t sqls => multi_Run w b t sqls
  | PfcronJob t => [CallApi ("/api/v1/config/maintenance_task/" +:+ Type_ t +:+ "/run")]
  end.

(** VerifyCert of the check of certificates, on instants in nanoseconds. *)
Definition VerifyCert (delay : string) (duration : Z) (file : string) (notAfter now : Z) : error :=
  if decide (now > notAfter) then
    Some ("SSL certificate '" +:+ file +:+ "' is expired. This should be addressed to avoid issues.")
  else if decide (now + duration > notAfter) then
    Some ("SSL certificate '" +:+ file +:+ "' is about to expire soon (less than '" +:+ delay +:+ "'). This should be taken care.")
  else None.

(** ** The wrapper of a job (wrapJob)

    [w_token]: the channel holds its element; [w_checked]: the calls that have
    read a processJobs other than 0 and not reached the select; [w_running]: the
    calls between the receive and the end of job.Run.  Calls are numbered. *)
Record wrap := mkWrap { w_token : bool; w_checked : gset nat; w_running : gset nat; w_process : bool }.

Definition wrap_init : wrap := mkWrap true ∅ ∅ true.

Inductive wrap_event :=
  | SetProcessing (b : bool)   (* setProcessing of the main package *)
  | NotProcessing (i : nat)    (* processJobs is 0 *)
  | Checked (i : nat)          (* processJobs is not 0 *)
  | Skipped (i : nat)          (* the channel is empty *)
  | Took (i : nat)             (* the element is received, GetJob and Run begin *)
  | Finished (i : nat)         (* the element is sent back *)
  | Panicked (i : nat).        (* GetJob or Run panics, recovered by the deferred call *)

Inductive wrap_step : wrap -> wrap_event -> wrap -> Prop :=
  | step_processing b s :
      wrap_step s (SetProcessing b) (mkWrap (w_token s) (w_checked s) (w_running s) b)
  | step_not_processing i s : w_process s = false -> wrap_step s (NotProcessing i) s
  | step_check i s : w_process s = true -> i ∉ w_checked s -> i ∉ w_running s ->
      wrap_step s (Checked i) (mkWrap (w_token s) ({[i]} ∪ w_checked s) (w_running s) (w_process s))
  | step_skip i s : i ∈ w_checked s -> w_token s = false ->
      wrap_step s (Skipped i) (mkWrap false (w_checked s ∖ {[i]}) (w_running s) (w_process s))
  | step_take i s : i ∈ w_checked s -> w_token s = true ->
      wrap_step s (Took i) (mkWrap false (w_checked s ∖ {[i]}) ({[i]} ∪ w_running s) (w_process s))
  | step_finish i s : i ∈ w_running s ->
      wrap_step s (Finished i) (mkWrap true (w_checked s) (w_running s ∖ {[i]}) (w_process s))
  | step_panic i s : i ∈ w_running s ->
      wrap_step s (Panicked i) (mkWrap (w_token s) (w_checked s) (w_running s ∖ {[i]}) (w_process s)).

Inductive wrap_run : wrap -> list wrap_event -> wrap -> Prop :=
  | run_nil s : wrap_run s [] s
  | run_snoc s tr s1 e s2 : wrap_run s tr s1 -> wrap_step s1 e s2 -> wrap_run s (tr ++ [e]) s2.

(** ** Theorems *)

(** *** Listings *)

(** What a listing of the rows of a table promises. *)
Definition lists (f : table -> list row) : Prop := forall t, list_to_set_disj (f t) = t.
(** ORDER BY end_time. *)
Definition before_eq (r r' : row) : Prop := end_time r <= end_time r'.
Definition by_end (f : table -> list row) : Prop := forall t, Sorted before_eq (f t).

Global Instance before_eq_trans : Transitive before_eq.
Proof. intros a b c. unfold before_eq. lia. Qed.

Lemma elements_list_to_set_disj (l : list row) : elements (list_to_set_disj l : table) ≡ₚ l.
Proof.
  induction l as [|r l IH]; [done|].
  rewrite list_to_set_disj_cons, gmultiset_elements_disj_union, gmultiset_elements_singleton. by rewrite IH.
Qed.

Lemma size_list_to_set_disj (l : list row) : size (list_to_set_disj l : table) = length l.
Proof.
  induction l as [|r l IH]; [done|]. rewrite list_to_set_disj_cons, gmultiset_size_disj_union, gmultiset_size_singleton.
  cbn. lia.
Qed.

Lemma firsts_subseteq f limit t : lists f -> firsts limit (f t) ⊆ t.
Proof.
  intros Hf. rewrite <- (Hf t) at 2. rewrite <- (take_drop (Z.to_nat limit) (f t)) at 2. rewrite list_to_set_disj_app.
  unfold firsts. multiset_solver.
Qed.

Lemma size_firsts f limit t : lists f -> size (firsts limit (f t)) = (Z.to_nat limit `min` size t)%nat.
Proof.
  intros Hf. unfold firsts. rewrite size_list_to_set_disj, length_take, <- size_list_to_set_disj. by rewrite Hf.
Qed.

(** *** Rotation *)

(** The database follows the statements of a turn. *)
Definition faithful (o : turn) : Prop :=
  lists (o_list_insert o) /\ by_end (o_list_insert o) /\ lists (o_list_delete o) /\ by_end (o_list_delete o).

(** No two different rows to rotate have the same end. *)
Definition distinct_ends (cut : Z) (t : table) : Prop :=
  forall r r', r ∈ old cut t -> r' ∈ old cut t -> end_time r = end_time r' -> r = r'.

Lemma distinct_ends_mono cut t t' : t' ⊆ t -> distinct_ends cut t -> distinct_ends cut t'.
Proof.
  intros Hs Hd r r' Hr Hr'. apply Hd; unfold old in *;
    rewrite gmultiset_elem_of_filter in *; destruct Hr, Hr'; (split; [done|multiset_solver]).
Qed.

(** Two sorted listings of such rows are the same. *)
Lemma listings_agree f g cut t : lists f -> by_end f -> lists g -> by_end g -> distinct_ends cut t ->
  f (old cut t) = g (old cut t).
Proof.
  intros Hf Sf Hg Sg Hd. apply (Sorted_unique_strong before_eq); [|apply Sf|apply Sg|].
  - intros a b Ha Hb Hab Hba. unfold before_eq in *. apply Hd; [| |lia].
    + rewrite <- (Hf (old cut t)). by apply elem_of_list_to_set_disj.
    + rewrite <- (Hg (old cut t)). by apply elem_of_list_to_set_disj.
  - rewrite <- (elements_list_to_set_disj (f _)), <- (elements_list_to_set_disj (g _)). by rewrite Hf, Hg.
Qed.

(** One turn: either nothing happens, or the same number of rows, at least one,
    is deleted and inserted. *)
Lemma rotate_turn_cases limit cut o t t' more : faithful o -> rotate_turn limit cut o t = (t', more) ->
  (t' = t /\ more = false) \/
  (t' = mkTables (history t ∖ firsts limit (o_list_delete o (old cut (history t))))
          (archive t ⊎ firsts limit (o_list_insert o (old cut (history t)))) /\
   (0 < Z.to_nat limit `min` size (old cut (history t)))%nat).
Proof.
  intros (Hi & _ & Hd & _) H. unfold rotate_turn in H. rewrite (size_firsts _ _ _ Hi) in H.
  repeat (case_match || case_decide); simplify_eq; auto; right; (split; [done|lia]).
Qed.

Lemma deleted_subseteq limit cut f t : lists f -> firsts limit (f (old cut t)) ⊆ t.
Proof. intros Hf. etrans; [by apply firsts_subseteq|apply gmultiset_filter_subseteq]. Qed.

Lemma rotate_turn_shrinks limit cut o t t' : faithful o -> rotate_turn limit cut o t = (t', true) ->
  (size (history t') < size (history t))%nat.
Proof.
  intros Hf H. assert (Hd := Hf). destruct Hd as (_ & _ & Hd & _).
  apply rotate_turn_cases in H as [[_ ?]|[-> Hn]]; [done| |done]. cbn.
  rewrite gmultiset_size_difference by by apply deleted_subseteq. rewrite size_firsts by done.
  assert (size (old cut (history t)) <= size (history t))%nat; [|lia].
  apply gmultiset_subseteq_size, gmultiset_filter_subseteq.
Qed.

Lemma rotate_turn_conserves limit cut o t t' more : faithful o -> distinct_ends cut (history t) ->
  rotate_turn limit cut o t = (t', more) ->
  history t' ⊆ history t /\ history t' ⊎ archive t' = history t ⊎ archive t.
Proof.
  intros Hf Hd H. assert (Ho := Hf). destruct Ho as (H1 & S1 & H2 & S2).
  apply rotate_turn_cases in H as [[-> _]|[-> _]]; [done| |done]. cbn.
  rewrite (listings_agree _ _ cut (history t) H1 S1 H2 S2 Hd).
  assert (Hs := deleted_subseteq limit cut _ (history t) H2).
  set (d := firsts _ _) in *. split; multiset_solver.
Qed.

(** The rows that are not to be rotated stay. *)
Lemma rotate_turn_recent limit cut o t t' more r : faithful o -> cut <= end_time r ->
  rotate_turn limit cut o t = (t', more) ->
  multiplicity r (history t') = multiplicity r (history t) /\ multiplicity r (archive t') = multiplicity r (archive t).
Proof.
  intros Hf Hr H. assert (Ho := Hf). destruct Ho as (H1 & _ & H2 & _).
  apply rotate_turn_cases in H as [[-> _]|[-> _]]; [done| |done]. cbn.
  assert (E : forall f, lists f -> multiplicity r (firsts limit (f (old cut (history t)))) = 0%nat).
  { intros f Hl. assert (Hs := firsts_subseteq f limit (old cut (history t)) Hl). specialize (Hs r).
    unfold old in Hs at 2. rewrite multiplicity_filter, decide_False in Hs by lia. lia. }
  rewrite multiplicity_difference, multiplicity_disj_union, !E by done. lia.
Qed.

Lemma DoRotate_spec limit cut os : (forall k, faithful (os k)) -> forall fuel k t,
  (size (history t) < fuel)%nat -> exists t', DoRotate fuel limit cut os k t = Some t' /\
    (forall r, cut <= end_time r -> multiplicity r (history t') = multiplicity r (history t) /\
                                    multiplicity r (archive t') = multiplicity r (archive t)) /\
    (distinct_ends cut (history t) -> history t' ⊎ archive t' = history t ⊎ archive t).
Proof.
  intros Hf. induction fuel as [|fuel IH]; intros k t Hs; [lia|]. cbn [DoRotate].
  destruct (rotate_turn limit cut (os k) t) as [t1 more] eqn:E.
  assert (Hrec := fun r Hr => rotate_turn_recent _ _ _ _ _ _ r (Hf k) Hr E).
  assert (Hcon := fun Hd => rotate_turn_conserves _ _ _ _ _ _ (Hf k) Hd E).
  destruct more.
  - assert (Hlt := rotate_turn_shrinks _ _ _ _ _ (Hf k) E). destruct (IH (S k) t1 ltac:(lia)) as (t' & Et & Hr' & Hc').
    exists t'. split; [done|]. split.
    + intros r Hr. destruct (Hr' r Hr), (Hrec r Hr). split; congruence.
    + intros Hd. destruct (Hcon Hd) as [Hsub <-]. apply Hc'. by eapply distinct_ends_mono.
  - exists t1. split; [done|]. split; [done|]. intros Hd. by apply Hcon.
Qed.

(** C11.  Whatever fails and however long it takes, the rotation of the address
    logs ends after at most one turn more than there are rows, leaves the rows
    that are not old in place, and moves rows without losing or duplicating
    any, provided that no two different old rows have the same end. *)
Theorem rotation_conserves_rows limit cut os t fuel :
  (forall k, faithful (os k)) -> distinct_ends cut (history t) -> (size (history t) < fuel)%nat ->
  exists t', DoRotate fuel limit cut os 0 t = Some t' /\
    history t' ⊎ archive t' = history t ⊎ archive t /\
    (forall r, cut <= end_time r -> multiplicity r (history t') = multiplicity r (history t)).
Proof.
  intros Hf Hd Hs. destruct (DoRotate_spec limit cut os Hf fuel 0 t Hs) as (t' & E & Hr & Hc).
  exists t'. split; [done|]. split; [by apply Hc|]. intros r Hcut. by apply Hr.
Qed.

(** Without failures and time limits no old row is left. *)
Definition smooth_turn (o : turn) : Prop :=
  o_begin o = true /\ o_insert o = true /\ o_inserted o = true /\ o_delete o = true /\
  o_deleted o = true /\ o_commit o = Committed /\ o_late o = false.

Lemma DoRotate_complete limit cut os : 0 < limit ->
  (forall k, faithful (os k)) -> (forall k, smooth_turn (os k)) ->
  forall fuel k t t', DoRotate fuel limit cut os k t = Some t' -> old cut (history t') = ∅.
Proof.
  intros Hl Hf Hok. induction fuel as [|fuel IH]; intros k t t'; [done|]. cbn [DoRotate].
  destruct (rotate_turn limit cut (os k) t) as [t1 more] eqn:E. destruct more; [by apply IH|]. intros [= <-].
  destruct (Hok k) as (Hb & Hi & Hi' & Hd & Hd' & Hc & Ht). unfold rotate_turn in E.
  rewrite Hb, Hi, Hi', Hd, Hd', Hc, Ht, bool_decide_eq_false_2 in E by lia. cbn in E.
  rewrite size_firsts in E by apply Hf. case_decide; [|done]. simplify_eq.
  apply gmultiset_size_empty_inv. lia.
Qed.

(** *** A database *)

Lemma list_to_set_disj_elements (t : table) : list_to_set_disj (elements t) = t.
Proof.
  induction t as [|r t IH] using gmultiset_ind; [done|].
  rewrite (list_to_set_disj_perm _ _ (gmultiset_elements_disj_union _ _)), list_to_set_disj_app.
  rewrite gmultiset_elements_singleton, IH, list_to_set_disj_cons, list_to_set_disj_nil.
  by rewrite gmultiset_disj_union_right_id.
Qed.

Global Instance before_eq_dec : RelDecision before_eq.
Proof. intros r r'. unfold before_eq. apply _. Defined.
Global Instance before_eq_total : Total before_eq.
Proof. intros r r'. unfold before_eq. lia. Qed.

(** The rows by their end, and among rows with the same end in one or in the
    other order. *)
Definition listing (b : bool) (t : table) : list row :=
  merge_sort before_eq (if b then elements t else reverse (elements t)).

Lemma listing_lists b : lists (listing b).
Proof.
  intros t. unfold listing. rewrite (list_to_set_disj_perm _ _ (merge_sort_Permutation _ _)).
  destruct b; [apply list_to_set_disj_elements|]. by rewrite reverse_Permutation, list_to_set_disj_elements.
Qed.

Lemma listing_by_end b : by_end (listing b).
Proof. intros t. apply Sorted_merge_sort. apply _. Qed.

Definition good_turn (b : bool) : turn := mkTurn true true true true true Committed false (listing true) (listing b).

Lemma good_turn_faithful b : faithful (good_turn b).
Proof. split_and!; apply listing_lists || apply listing_by_end. Qed.

Definition r1 : row := (1, "a", "x", 1, 2).
Definition r2 : row := (1, "b", "y", 1, 2).
Definition r3 : row := (1, "b", "y", 1, 3).

Definition demo_tables : tables := mkTables {[+ r1; r3 +]} ∅.

Lemma rotation_conserves_rows_witness :
  exists t', DoRotate 3 1 9 (fun _ => good_turn false) 0 demo_tables = Some t' /\
    history t' ⊎ archive t' = history demo_tables ⊎ archive demo_tables /\
    (forall r, 9 <= end_time r -> multiplicity r (history t') = multiplicity r (history demo_tables)).
Proof.
  apply (rotation_conserves_rows 1 9 (fun _ => good_turn false) demo_tables 3).
  - intros _. apply good_turn_faithful.
  - intros r r'. unfold old. rewrite !gmultiset_elem_of_filter. cbn [history demo_tables].
    rewrite !gmultiset_elem_of_disj_union, !gmultiset_elem_of_singleton.
    intros [_ [-> | ->]] [_ [-> | ->]]; done.
  - vm_compute. lia.
Defined.

(** Rows with the same end can get lost: the INSERT and the DELETE of a
    turn each take the first rows by their end, and a database may list rows
    with the same end in different orders for the two statements.  Then, with
    no failure at all, a row disappears and another one is archived twice. *)
Theorem rotation_can_lose_rows :
  exists os t t', (forall k, faithful (os k)) /\
    DoRotate 3 1 9 os 0 t = Some t' /\
    history t = {[+ r1; r2 +]} /\ archive t = ∅ /\ history t' = ∅ /\ archive t' = {[+ r2; r2 +]}.
Proof.
  exists (fun _ => good_turn false), (mkTables {[+ r1; r2 +]} ∅), (mkTables ∅ {[+ r2; r2 +]}).
  split; [intros _; apply good_turn_faithful|]. split; [|done]. vm_compute. reflexivity.
Qed.

(** *** Clean-up *)

(** One execution of the deletion. *)
Lemma delete_stmt_cases limit cut os k t t' res : lists (d_list (os k)) ->
  delete_stmt limit cut os k t = (t', res) ->
  (t' = t /\ exists e, res = ExecError e) \/
  (t' = t ∖ firsts limit (d_list (os k) (old cut t)) /\
   ((exists e, res = RowsError e) \/ res = Affected (Z.of_nat (Z.to_nat limit `min` size (old cut t))))).
Proof.
  intros Hl. unfold delete_stmt. rewrite size_firsts by done.
  repeat (case_match || case_decide); intros; simplify_eq; eauto 10.
Qed.

Lemma deleted_recent limit cut f t r : lists f -> cut <= end_time r ->
  multiplicity r (t ∖ firsts limit (f (old cut t))) = multiplicity r t.
Proof.
  intros Hl Hr. assert (Hs := firsts_subseteq f limit (old cut t) Hl r).
  unfold old in Hs at 2. rewrite multiplicity_filter, decide_False in Hs by lia.
  rewrite multiplicity_difference. lia.
Qed.

(** A batched deletion ends, and deletes old rows only. *)
Lemma BatchStmt_delete limit cut os late : (forall k, lists (d_list (os k))) -> forall fuel k n t,
  (size t < fuel)%nat -> exists t' res, BatchStmt fuel late (delete_stmt limit cut os) k n t = (t', Some res) /\
    forall r, cut <= end_time r -> multiplicity r t' = multiplicity r t.
Proof.
  intros Hl. induction fuel as [|fuel IH]; intros k n t Hs; [lia|]. cbn [BatchStmt].
  destruct (delete_stmt limit cut os k t) as [t1 res] eqn:E.
  apply delete_stmt_cases in E as [(-> & e & ->)|(-> & [[e ->] | ->])]; [by eauto 10|..|done].
  { eexists _, _. split; [done|]. intros r Hr. by apply deleted_recent. }
  case_decide as Hn; [eexists _, _; split; [done|]; intros r Hr; by apply deleted_recent|].
  destruct (late k); [eexists _, _; split; [done|]; intros r Hr; by apply deleted_recent|].
  destruct (IH (S k) (i64 (n + Z.of_nat (Z.to_nat limit `min` size (old cut t)))) (t ∖ firsts limit (d_list (os k) (old cut t))))
    as (t' & res & -> & Hr').
  - assert (size (old cut t) <= size t)%nat by apply gmultiset_subseteq_size, gmultiset_filter_subseteq.
    rewrite gmultiset_size_difference by by apply deleted_subseteq. rewrite size_firsts by done. lia.
  - eexists _, _. split; [done|]. intros r Hr. rewrite Hr' by done. by apply deleted_recent.
Qed.

Lemma BatchSql_delete limit cut os late connect prepare fuel t : (forall k, lists (d_list (os k))) ->
  (size t < fuel)%nat -> exists t' res, BatchSql connect prepare fuel late (delete_stmt limit cut os) t = (t', Some res) /\
    forall r, cut <= end_time r -> multiplicity r t' = multiplicity r t.
Proof.
  intros Hl Hs. unfold BatchSql. repeat case_decide; [by eauto 10..|by apply BatchStmt_delete].
Qed.

Lemma i64_add_l a b : i64 (i64 a + b) = i64 (a + b).
Proof. by apply wrapS_add_l. Qed.

Lemma difference_nothing (t d : table) : d ⊆ ∅ -> t ∖ d = t.
Proof. multiset_solver. Qed.

Lemma difference_subseteq (t d : table) : t ∖ d ⊆ t.
Proof. multiset_solver. Qed.

(** Without errors and time limits all old rows go, and the count is theirs. *)
Lemma BatchStmt_delete_all limit cut os late : 0 < limit -> (forall k, late k = false) ->
  (forall k, lists (d_list (os k)) /\ d_exec (os k) = None /\ d_rows (os k) = None) -> forall fuel k n t,
  (size t < fuel)%nat -> exists t', BatchStmt fuel late (delete_stmt limit cut os) k (i64 n) t =
      (t', Some (i64 (n + Z.of_nat (size t - size t')), None)) /\ t' ⊆ t /\ old cut t' = ∅.
Proof.
  intros Hl Hlate Hok. induction fuel as [|fuel IH]; intros k n t Hs; [lia|]. cbn [BatchStmt].
  destruct (Hok k) as (Hlist & He & Hr). unfold delete_stmt at 1. rewrite He, Hr, decide_False by lia.
  rewrite size_firsts by done. assert (Hsub := deleted_subseteq limit cut _ t Hlist).
  assert (Hsz := gmultiset_size_difference _ _ Hsub). rewrite size_firsts in Hsz by done.
  assert (Hold : (size (old cut t) <= size t)%nat) by apply gmultiset_subseteq_size, gmultiset_filter_subseteq.
  set (t1 := t ∖ _) in *. case_decide as Hn.
  - assert (old cut t = ∅) as Ho by (apply gmultiset_size_empty_inv; lia). rewrite Ho in *.
    assert (E1 : t1 = t) by (subst t1; rewrite Ho; by apply difference_nothing, firsts_subseteq).
    exists t1. rewrite E1. split; [|by rewrite Ho]. by rewrite Nat.sub_diag, Z.add_0_r.
  - rewrite Hlate.
    destruct (IH (S k) (n + Z.of_nat (Z.to_nat limit `min` size (old cut t))) t1 ltac:(lia)) as (t' & E & Hsub' & Ho).
    exists t'. assert (size t' <= size t1)%nat by by apply gmultiset_subseteq_size.
    rewrite i64_add_l, E. split; [|split; [etrans; [exact Hsub'|apply difference_subseteq]|done]].
    do 4 f_equal. lia.
Qed.

(** A deletion in which nothing fails and no time limit strikes. *)
Definition smooth_dels (late : nat -> bool) (dels : nat -> del) : Prop :=
  forall k, late k = false /\ d_exec (dels k) = None /\ d_rows (dels k) = None.

Lemma BatchSql_delete_all limit cut dels late fuel t : 0 < limit -> (forall k, lists (d_list (dels k))) -> smooth_dels late dels ->
  (size t < fuel)%nat -> exists t' res, BatchSql None None fuel late (delete_stmt limit cut dels) t = (t', Some res) /\ old cut t' = ∅.
Proof.
  intros Hl Hd Hs Hf. unfold BatchSql. rewrite !decide_False by tauto.
  destruct (BatchStmt_delete_all limit cut dels late Hl (fun k => proj1 (Hs k)) (fun k => conj (Hd k) (proj2 (Hs k))) fuel 0 0 t Hf)
    as (t' & E & _ & Ho). eexists _, _. split; [exact E|done].
Qed.

(** C32.  The clean-up of the address logs, of version 4 and 6, ends whatever fails and
    whenever the time limits strike.  Provided that the database lists the rows of a
    table and sorts them as the statements ask for, and that no two different rows
    to rotate have the same end, every row that is not older than the window of the
    job is afterwards in the history or in the archive as often as before.  If
    nothing fails and no limit strikes, with positive batch sizes, no row that is
    older than the window is left: with rotation none in the archive and none in
    the history that is older than the window of the rotation, without it none in
    the history. *)
Theorem cleanup_keeps_recent_rows j fuel connect prepare start now turns late dels t :
  (forall k, faithful (turns k)) -> (forall k, lists (d_list (dels k))) ->
  distinct_ends (start - RotateWindow j) (history t) -> (size (history t) + size (archive t) < fuel)%nat ->
  exists t', Ip4log_Run fuel j connect prepare start now turns late dels t = Some t' /\
    (forall r, now - Window j <= end_time r ->
      multiplicity r (history t' ⊎ archive t') = multiplicity r (history t ⊎ archive t)) /\
    (connect = None -> prepare = None -> (forall k, smooth_turn (turns k)) -> smooth_dels late dels -> 0 < Batch j -> 0 < RotateBatch j ->
      if decide (Rotate j = "Y") then old (start - RotateWindow j) (history t') = ∅ /\ old (now - Window j) (archive t') = ∅
      else old (now - Window j) (history t') = ∅).
Proof.
  intros Ht Hd He Hf. unfold Ip4log_Run. case_decide.
  - assert (Hrot : exists t1, (if decide (connect <> None) then Some t
             else DoRotate fuel (RotateBatch j) (start - RotateWindow j) turns 0 t) = Some t1 /\
             history t1 ⊎ archive t1 = history t ⊎ archive t /\
             (connect = None -> (forall k, smooth_turn (turns k)) -> 0 < RotateBatch j -> old (start - RotateWindow j) (history t1) = ∅)).
    { case_decide as Hcon; [by exists t; split_and!; [| |by intros E]|].
      destruct (DoRotate_spec (RotateBatch j) (start - RotateWindow j) turns Ht fuel 0 t ltac:(lia)) as (t1 & E & _ & Hc).
      exists t1. split_and!; [done|by apply Hc|]. intros _ Hs Hb. by eapply DoRotate_complete. }
    destruct Hrot as (t1 & -> & Hc & Hcomp).
    assert (Hsz : (size (archive t1) <= size (history t1 ⊎ archive t1))%nat) by (rewrite gmultiset_size_disj_union; lia).
    rewrite Hc, gmultiset_size_disj_union in Hsz.
    destruct (BatchSql_delete (Batch j) (now - Window j) dels late connect prepare fuel (archive t1) Hd ltac:(lia)) as (a & res & E & Hr).
    rewrite E. eexists. split; [done|]. split; [intros r Hcut; cbn; rewrite <- Hc, !multiplicity_disj_union; by rewrite Hr|].
    intros -> -> Hs1 Hs2 Hb Hrb. split; [by apply Hcomp|].
    destruct (BatchSql_delete_all (Batch j) (now - Window j) dels late fuel (archive t1) Hb Hd Hs2 ltac:(lia)) as (a' & res' & E' & Ho).
    rewrite E in E'. by injection E' as <- _.
  - destruct (BatchSql_delete (Batch j) (now - Window j) dels late connect prepare fuel (history t) Hd ltac:(lia)) as (h & res & E & Hr).
    rewrite E. eexists. split; [done|]. split; [intros r Hcut; cbn; rewrite !multiplicity_disj_union; by rewrite Hr|].
    intros -> -> _ Hs2 Hb _.
    destruct (BatchSql_delete_all (Batch j) (now - Window j) dels late fuel (history t) Hb Hd Hs2 ltac:(lia)) as (h' & res' & E' & Ho).
    rewrite E in E'. by injection E' as <- _.
Qed.

Definition demo_job : Ip4logCleanup := mkIp4logCleanup 10 1 60 "Y" 1 1 60.
Definition demo_dels : nat -> del := fun _ => mkDel None None elements.

Lemma cleanup_keeps_recent_rows_witness :
  exists t', Ip4log_Run 4 demo_job None None 10 11 (fun _ => good_turn false) (fun _ => false) demo_dels demo_tables = Some t' /\
    (forall r, 11 - Window demo_job <= end_time r ->
      multiplicity r (history t' ⊎ archive t') = multiplicity r (history demo_tables ⊎ archive demo_tables)) /\
    old (10 - RotateWindow demo_job) (history t') = ∅.
Proof.
  destruct (cleanup_keeps_recent_rows demo_job 4 None None 10 11 (fun _ => good_turn false) (fun _ => false)
           demo_dels demo_tables) as (t' & E & Hr & Ho).
  - intros _. apply good_turn_faithful.
  - intros k t. apply list_to_set_disj_elements.
  - intros r r'. unfold old. rewrite !gmultiset_elem_of_filter. cbn [history demo_tables].
    rewrite !gmultiset_elem_of_disj_union, !gmultiset_elem_of_singleton.
    intros [_ [-> | ->]] [_ [-> | ->]]; done.
  - vm_compute. lia.
  - exists t'. split; [exact E|]. split; [exact Hr|].
    apply (Ho eq_refl eq_refl); [intros k; repeat split|intros k; repeat split|reflexivity|reflexivity].
Defined.

(** *** The command line *)

(** The jobs whose constructor reads a batch size. *)
Definition batch_jobs : list string := [
  "cleanup_chi_database_cache"; "bandwidth_maintenance"; "ip4log_cleanup"; "ip6log_cleanup";
  "admin_api_audit_log_cleanup"; "auth_log_cleanup"; "dns_audit_log_cleanup"; "radius_audit_log_cleanup";
  "locationlog_cleanup"; "acct_cleanup"; "bandwidth_maintenance_session"].

Lemma SetupTask_outcome c : (exists t, SetupTask c = Ret t) \/ SetupTask c = Panic type_panic.
Proof. unfold SetupTask, as_string, go_bind. repeat case_match; simplify_eq; eauto. Qed.

(** Every argument of the command line is a string. *)
Lemma makeArgs_from_strings args : forall acc c, makeArgs_from acc args = inr c ->
  map_Forall (fun _ v => exists s, v = JStr s) acc -> map_Forall (fun _ v => exists s, v = JStr s) c.
Proof.
  induction args as [|arg args IH]; intros acc c; cbn [makeArgs_from]; [by intros [= ->]|].
  destruct (cut_at "=" arg) as [[k v]|]; [|done]. intros H Hacc. eapply IH; [exact H|].
  apply map_Forall_insert_2; eauto.
Qed.

Ltac find_builder :=
  unfold BuildJob, builders; cbn [List.find fst];
  repeat (rewrite bool_decide_eq_false_2 by discriminate); rewrite bool_decide_eq_true_2 by done.

Lemma batch_string_panics name c s : name ∈ batch_jobs -> cfg c "batch" = JStr s -> BuildJob name c = Panic type_panic.
Proof.
  intros Hn Hb. unfold batch_jobs in Hn. rewrite !elem_of_cons, elem_of_nil in Hn.
  destruct_or! Hn; try done; subst name; find_builder;
    unfold NewChiCleanup, NewBandwidthMaintenance, NewIp4logCleanup, NewIp6logCleanup, log_fields,
      NewWindowSqlCleanup, NewMultiWindowSqlCleanup; rewrite Hb;
    destruct (SetupTask_outcome c) as [[t ->] | ->]; done.
Qed.

(** A batch size cannot be given on the command line of pfcron: the
    arguments are merged over the configuration as strings, and the
    constructors of all jobs with a batch size panic on a string. *)
Theorem batch_argument_panics name jobsConfig data args extra :
  name ∈ batch_jobs -> jobsConfig !! name = Some (JMap data) ->
  makeArgs args = inr extra -> is_Some (extra !! "batch") ->
  runJobNow name jobsConfig extra = Panic type_panic.
Proof.
  intros Hn Hc Ha [v Hv]. unfold runJobNow. rewrite Hc. cbn [as_map go_bind].
  assert (Hs := makeArgs_from_strings args ∅ extra Ha (map_Forall_empty _)).
  destruct (Hs _ _ Hv) as [s ->]. rewrite (batch_string_panics _ _ s Hn); [done|].
  unfold cfg, MergeArgs. by rewrite (lookup_union_Some_l _ _ _ _ Hv).
Qed.

Lemma batch_argument_panics_witness :
  runJobNow "acct_cleanup" {["acct_cleanup" := JMap [("batch", JNum 100)]]} {["batch" := JStr "50"]} = Panic type_panic.
Proof.
  apply (batch_argument_panics "acct_cleanup" {["acct_cleanup" := JMap [("batch", JNum 100)]]} [("batch", JNum 100)]
           ["batch=50"] {["batch" := JStr "50"]}).
  - unfold batch_jobs. rewrite !elem_of_cons. tauto.
  - by rewrite lookup_singleton_eq.
  - vm_compute. reflexivity.
  - rewrite lookup_singleton_eq. eauto.
Defined.

(** *** Statements and their parameters *)

(** The number of placeholders of a statement. *)
Fixpoint placeholders (s : string) : nat :=
  match s with
  | EmptyString => 0
  | String c s' => (if decide (c = "?"%char) then 1 else 0) + placeholders s'
  end.

(** A call gives each placeholder of its statement a parameter. *)
Definition well_typed (c : call) : bool :=
  match c with
  | CallBatchSql _ sql args | CallBatchSqlCount _ sql args | CallExec sql args => bool_decide (placeholders sql = length args)
  | _ => true
  end.

Ltac inv_go := repeat match goal with
  | H : go_bind _ _ = Ret _ |- _ => apply go_bind_Ret in H as (? & _ & H)
  | H : Ret _ = Ret _ |- _ => injection H as <-
  end.

(** Every SQL statement that a job runs gets exactly as many parameters as it has
    placeholders, for each job that can be built from any configuration. *)
Theorem statements_are_well_typed name c j : BuildJob name c = Ret j -> forallb well_typed (Run j) = true.
Proof.
  intros H. unfold BuildJob, builders in H. cbn [List.find fst] in H.
  repeat match type of H with context [bool_decide ?P] => destruct (bool_decide P) end;
    unfold NewFingerbankDataUpdate, NewCertificatesCheck, NewFileLogger, NewChiCleanup, NewBandwidthMaintenance,
      NewPopulateNtlmRedisCache, NewIp4logCleanup, NewIp6logCleanup, NewWindowSqlCleanup, NewMultiWindowSqlCleanup,
      NewPfcronJob in H; inv_go; cbn [Run]; unfold log_Run; try case_decide; vm_compute; reflexivity.
Qed.

Lemma statements_are_well_typed_witness :
  forallb well_typed (Run (ChiCleanup (mkTask "t" "enabled" "d" "@every 1m") 100 (seconds 60))) = true.
Proof.
  apply (statements_are_well_typed "cleanup_chi_database_cache"
    (list_to_map [("type", JStr "t"); ("status", JStr "enabled"); ("description", JStr "d"); ("schedule", JStr "@every 1m");
                  ("batch", JNum 100); ("timeout", JNum 60)])).
  vm_compute. reflexivity.
Defined.

(** *** The wrapper *)

(** At most one call runs the job, and none while the element is in the
    channel. *)
Definition wrap_inv (s : wrap) : Prop :=
  (w_token s = true -> w_running s = ∅) /\ forall i j, i ∈ w_running s -> j ∈ w_running s -> i = j.

Lemma wrap_step_inv s e s' : wrap_step s e s' -> wrap_inv s -> wrap_inv s'.
Proof.
  intros H [H1 H2]. inversion H; subst; unfold wrap_inv; cbn; try done.
  - split; [done|]. assert (w_running s = ∅) as -> by auto. set_solver.
  - split; [intros _; set_solver|set_solver].
  - split; [intros Ht; rewrite H1 by done; set_solver|set_solver].
Qed.

Lemma wrap_run_inv s tr s' : wrap_run s tr s' -> wrap_inv s -> wrap_inv s'.
Proof. induction 1; eauto using wrap_step_inv. Qed.

(** Two runs of a job never overlap, in any interleaving of the calls of
    its wrapper. *)
Theorem jobs_never_overlap tr s i j :
  wrap_run wrap_init tr s -> i ∈ w_running s -> j ∈ w_running s -> i = j.
Proof. intros H. apply (wrap_run_inv _ _ _ H). split; cbn; set_solver. Qed.

Definition demo_checked : wrap := mkWrap true ({[3%nat]} ∪ ∅) ∅ true.
Definition demo_taken : wrap := mkWrap false (({[3%nat]} ∪ ∅) ∖ {[3%nat]}) ({[3%nat]} ∪ ∅) true.

Lemma demo_run : wrap_run wrap_init [Checked 3; Took 3] demo_taken.
Proof.
  apply (run_snoc _ [Checked 3] demo_checked); [apply (run_snoc _ [] wrap_init); [apply run_nil|]|].
  - apply (step_check 3 wrap_init); [done|apply not_elem_of_empty..].
  - apply (step_take 3 demo_checked); [|done]. cbn. set_solver.
Qed.

Lemma jobs_never_overlap_witness : 3%nat = 3%nat.
Proof.
  apply (jobs_never_overlap [Checked 3; Took 3] demo_taken 3 3); [exact demo_run|cbn; set_solver..].
Defined.

(** A channel that has lost its element and that no call holds. *)
Definition stuck (s : wrap) : Prop := w_token s = false /\ w_running s = ∅.

Lemma stuck_wrap_step s e s' : wrap_step s e s' -> stuck s -> stuck s' /\ forall i, e <> Took i.
Proof.
  intros H [H1 H2]. inversion H; subst; unfold stuck; cbn; try (by split); try (by rewrite H1 in *);
    try (split; [split; [done|set_solver]|done]); set_solver.
Qed.

Lemma stuck_run s tr s' : wrap_run s tr s' -> stuck s -> stuck s' /\ forall i, Took i ∉ tr.
Proof.
  induction 1 as [s|s tr s1 e s2 _ IH Hstep]; intros Hs; [split; [done|set_solver]|].
  destruct (IH Hs) as [H1 H2]. destruct (stuck_wrap_step _ _ _ Hstep H1) as [H3 H4].
  split; [done|]. intros i. rewrite elem_of_app, list_elem_of_singleton. intros [?|<-]; [by apply (H2 i)|by apply (H4 i)].
Qed.

(** A job that panics once never runs again: the panic is recovered, but
    the element of the channel is not sent back, so every later call of the
    wrapper is skipped, whatever happens. *)
Theorem panicked_job_never_runs_again tr s i s' tr' s'' j :
  wrap_run wrap_init tr s -> wrap_step s (Panicked i) s' -> wrap_run s' tr' s'' -> Took j ∉ tr'.
Proof.
  intros H Hp H'. assert (Hinv : wrap_inv s) by (apply (wrap_run_inv _ _ _ H); split; cbn; set_solver).
  destruct Hinv as [Ht Hu]. apply (stuck_run _ _ _ H'). inversion Hp; subst. split; cbn.
  - destruct (w_token s) eqn:E; [|done]. rewrite Ht in *; [set_solver|done..].
  - apply set_eq. intros k. rewrite elem_of_difference, elem_of_singleton. set_solver.
Qed.

Lemma panicked_job_never_runs_again_witness : Took 4 ∉ [SetProcessing false].
Proof.
  apply (panicked_job_never_runs_again [Checked 3; Took 3] demo_taken 3
           (mkWrap false (({[3%nat]} ∪ ∅) ∖ {[3%nat]}) (({[3%nat]} ∪ ∅) ∖ {[3%nat]}) true) [SetProcessing false]
           (mkWrap false (({[3%nat]} ∪ ∅) ∖ {[3%nat]}) (({[3%nat]} ∪ ∅) ∖ {[3%nat]}) false)).
  - exact demo_run.
  - apply (step_panic 3 demo_taken). cbn. set_solver.
  - apply (run_snoc _ [] _ _ _ (run_nil _)). apply (step_processing false).
Defined.
