(* ===== verification/DetectParser.v ===== *)
(** The parsers of log lines of other products (src/go/detectparser): the rate
    limit, the parsers of the fixed formats, and the generic parser whose rules
    are regular expressions and templates of the configuration.

    CleanIP and CleanMac of the go-utils package, the answers of the API and
    the compiled expressions of the configuration are arguments; the expressions
    of the source are modelled.  A parser keeps its rate limits in a cache; every
    operation reads the clock once. *)
From S2P Require Import Prelude GoText Regex TimedCache NetIP.
From Stdlib Require Import ZArith Lia Ascii.
From stdpp Require Import base gmap strings list.

Open Scope Z_scope.

(** ** Calls and rate limits (parser.go) *)

Record ApiCall := mkCall { Method : string; Params : list jv; c_TenantID : Z }.

Record PfdetectRegexRule := mkRegexRule {
  pr_Actions : list string; pr_IpMacTranslation : string; pr_LastIfMatch : string;
  pr_Name : string; pr_Regex : string; pr_RateLimit : Z
}.

Record PfdetectConfig := mkPfdetectConfig {
  pc_RateLimit : Z; pc_TenantID : Z; pc_Rules : list PfdetectRegexRule
}.

(** The configuration of a parser: the duration of its rate limit, if it has
    one, and its tenant. *)
Record parser := mkParser { RateLimit : option Z; TenantID : Z }.

Definition NewRateLimitable (rateLimit : Z) : option Z :=
  if decide (rateLimit <> 0) then Some (i64 (rateLimit * 1000000000)) else None.

Definition setupParser (config : option PfdetectConfig) : parser :=
  match config with
  | None => mkParser None 1
  | Some c => mkParser (NewRateLimitable (pc_RateLimit c)) (pc_TenantID c)
  end.

Definition errorRateLimit : string := "Already processed".

Section Parsers.
Context {C : Type -> Type} `{TC : TimedCache C}.

Definition NotRateLimited (limit : option Z) (now : Z) (key : string) (cache : C unit) : C unit * error :=
  match limit with
  | None => (cache, None)
  | Some d =>
      match tc_get now key cache with
      | Some _ => (cache, Some errorRateLimit)
      | None => (tc_set d now key tt cache, None)
      end
  end.

(** The result of Parse: the cache, the calls and the error. *)
Abbreviation result := (C unit * (list ApiCall * error))%type.

(** The calls if the key is not rate limited, the error if it is. *)
Definition limited (p : parser) (now : Z) (key : string) (cache : C unit) (call : ApiCall) : result :=
  match NotRateLimited (RateLimit p) now key cache with
  | (cache, Some err) => (cache, ([], Some err))
  | (cache, None) => (cache, ([call], None))
  end.

(** go-utils *)
Context (CleanIP : string -> string * error) (CleanMac : string -> string).

(** ** DHCP server logs (dhcp.go) *)

Definition dot : re := lit ".".
Definition dotted : re := seqs [digits_re; dot; digits_re; dot; digits_re; dot; digits_re].
Definition is_lower_hex (c : Ascii.ascii) : bool := is_digit c || in_class "a" "f" c.
Definition hex2 : re := Rep (Chr is_lower_hex) 2 2.
Definition mac_re : re :=
  seqs [hex2; lit ":"; hex2; lit ":"; hex2; lit ":"; hex2; lit ":"; hex2; lit ":"; hex2].
Definition dhcp_type : re :=
  Alt (lit "DHCPDISCOVER") (Alt (lit "DHCPOFFER") (Alt (lit "DHCPREQUEST") (Alt (lit "DHCPACK")
    (Alt (lit "DHCPRELEASE") (Alt (lit "DHCPINFORM") (lit "DHCPEXPIRE")))))).

Definition dhcpRegexPattern1 : re := seqs [Grp 1 dhcp_type; lit " on "; Grp 2 dotted; lit " to "; Grp 3 mac_re].
Definition dhcpRegexPattern2 : re :=
  seqs [Grp 1 dhcp_type; lit " to "; Grp 2 dotted; lit " ("; Grp 3 mac_re; lit ")"].

Fixpoint dhcp_patterns (p : parser) (now : Z) (cache : C unit) (line : string) (rs : list re) : result :=
  match rs with
  | [] => (cache, ([], None))
  | r :: rs' =>
      match re_find r line with
      | None => dhcp_patterns p now cache line rs'
      | Some matches =>
          if decide (group 1 matches = "DHCPACK") then
            match CleanIP (group 2 matches) with
            | (_, Some _) => dhcp_patterns p now cache line rs'
            | (ip, None) =>
                let mac := CleanMac (group 3 matches) in
                if decide (mac = EmptyString) then dhcp_patterns p now cache line rs'
                else limited p now (mac +:+ ":" +:+ ip) cache
                       (mkCall "update_ip4log" [JStr "mac"; JStr mac; JStr "ip"; JStr ip] (TenantID p))
            end
          else dhcp_patterns p now cache line rs'
      end
  end.

Definition Dhcp_Parse (p : parser) (now : Z) (cache : C unit) (line : string) : result :=
  dhcp_patterns p now cache line [dhcpRegexPattern1; dhcpRegexPattern2].

(** ** FortiAnalyser (fortianalyser.go) *)

Definition fortiAnalyserRegexPattern1 : re := Plus (Chr is_space).
Definition fortiAnalyserRegexPattern2 : re := lit "=".

(** The last srcip and the last logid of the fields. *)
Fixpoint forti_fields (fields : list string) (srcip logid : string) : string * string :=
  match fields with
  | [] => (srcip, logid)
  | f :: fields' =>
      match re_split fortiAnalyserRegexPattern2 (Some 2%nat) f with
      | key :: v :: _ =>
          if decide (key = "srcip") then forti_fields fields' v logid
          else if decide (key = "logid") then forti_fields fields' srcip v
          else forti_fields fields' srcip logid
      | _ => forti_fields fields' srcip logid
      end
  end.

Definition FortiAnalyser_Parse (p : parser) (now : Z) (cache : C unit) (line : string) : result :=
  let '(srcip, logid) := forti_fields (re_split fortiAnalyserRegexPattern1 None line) EmptyString EmptyString in
  if decide (srcip = EmptyString \/ logid = EmptyString) then (cache, ([], None))
  else match CleanIP srcip with
       | (_, Some _) => (cache, ([], None))
       | (srcip, None) =>
           limited p now (srcip +:+ ":" +:+ logid) cache
             (mkCall "event_add" [JStr "srcip"; JStr srcip; JStr "events"; JMap [("detect", JStr logid)]] (TenantID p))
       end.

(** ** Nexpose (nexpose.go) *)

Definition ip_chars : re := Plus (Chr (fun c => is_digit c || is_char "." c)).
Definition word : re := Plus (Chr is_word).
Definition any : re := Chr any_char.
Definition nexposeRegexPattern1 : re :=
  seqs [Grp 1 (seqs [word; spaces; digits_re; lit " "; digits_re; lit ":"; digits_re; lit ":"; digits_re]);
        lit " "; Grp 2 ip_chars; lit " "; word; lit ": "; Grp 3 ip_chars; lit " "; Grp 4 word; lit ": "; Grp 5 (Star any)].

Definition Nexpose_Parse (p : parser) (now : Z) (cache : C unit) (line : string) : result :=
  match re_find_start nexposeRegexPattern1 line with
  | None => (cache, ([], None))
  | Some matches =>
      if decide (group 4 matches = "VULNERABILITY") then
        match CleanIP (group 3 matches) with
        | (_, Some _) => (cache, ([], None))
        | (dstip, None) =>
            match CleanIP (group 2 matches) with
            | (_, Some _) => (cache, ([], None))
            | (srcip, None) =>
                limited p now (dstip +:+ ":" +:+ srcip +:+ ":" +:+ group 5 matches) cache
                  (mkCall "event_add" [JStr "date"; JStr (group 1 matches); JStr "dstip"; JStr dstip;
                     JStr "srcip"; JStr srcip; JStr "events"; JMap [("nexpose_event", JStr (group 5 matches))]] (TenantID p))
            end
        end
      else (cache, ([], None))
  end.

(** ** Security Onion (security_onion.go) *)

Definition securityOnionRegexPattern1 : re := Alt (lit " {") (lit "} ").
Definition securityOnionRegexPattern2 : re := lit " ".

Definition errorParsing : string := "Error parsing".

Definition SecurityOnion_Parse (p : parser) (now : Z) (cache : C unit) (line : string) : result :=
  match re_split securityOnionRegexPattern1 None line with
  | [_; date; _; event; rest] =>
      match re_split securityOnionRegexPattern2 None rest with
      | [srcip; dstip; _; key; _; _; detect; _; _; _] =>
          limited p now (srcip +:+ date +:+ key) cache
            (mkCall "event_add" [JStr "date"; JStr date; JStr "srcip"; JStr srcip; JStr "dstip"; JStr dstip;
               JStr "events"; JMap [("suricata_event", JStr event); ("detect", JStr detect)]] (TenantID p))
      | _ => (cache, ([], Some errorParsing))
      end
  | _ => (cache, ([], Some errorParsing))
  end.

(** ** Snort and Suricata (snort.go) *)

Definition d13 : re := Rep (Chr is_digit) 1 3.
Definition ip13 : re := seqs [d13; dot; d13; dot; d13; dot; d13].
Definition space1 : re := Plus (Chr is_space).
Definition port_opt (n : nat) : re := opt (Grp n (seqs [lit ":"; digits_re])).
(** [\d+:(\d+):\d+] in square brackets *)
Definition rule_id : re := seqs [lit "["; digits_re; lit ":"; Grp 2 digits_re; lit ":"; digits_re; lit "]"].

Definition snortRegexPattern1 : re :=
  seqs [Grp 1 (LazyStar any); rule_id; space1; Grp 3 (LazyPlus any); space1; lit "["; LazyPlus any;
        Grp 4 ip13; port_opt 5; space1; lit "->"; space1; Grp 6 ip13; port_opt 7].
Definition snortRegexPattern2 : re :=
  seqs [Grp 1 (LazyPlus any); space1; lit "[**]"; space1; rule_id; space1; lit "Portscan"; space1; lit "detected"; space1;
        lit "from"; space1; Grp 3 ip13].
Definition snortRegexPattern3 : re :=
  seqs [Grp 1 (LazyPlus any); lit "[**] "; rule_id; space1; lit "(spp_portscan2) Portscan detected from "; Grp 3 ip13].

Definition portscan (p : parser) (now : Z) (cache : C unit) (matches : captures) (srcip : string) : result :=
  limited p now srcip cache
    (mkCall "event_add" [JStr "date"; JStr (group 1 matches); JStr "srcip"; JStr srcip;
       JStr "events"; JMap [("detect", JStr "PORTSCAN")]] (TenantID p)).

Definition snort_pattern3 (p : parser) (now : Z) (cache : C unit) (line : string) : result :=
  match re_find_start snortRegexPattern3 line with
  | None => (cache, ([], None))
  | Some matches =>
      let srcip := (CleanIP (group 3 matches)).1 in
      if decide (srcip <> EmptyString) then portscan p now cache matches srcip else (cache, ([], None))
  end.

Definition snort_pattern2 (p : parser) (now : Z) (cache : C unit) (line : string) : result :=
  match re_find_start snortRegexPattern2 line with
  | None => snort_pattern3 p now cache line
  | Some matches =>
      let srcip := (CleanIP (group 3 matches)).1 in
      if decide (srcip <> EmptyString) then portscan p now cache matches srcip else snort_pattern3 p now cache line
  end.

Definition Snort_Parse (p : parser) (now : Z) (cache : C unit) (line : string) : result :=
  match re_find snortRegexPattern1 line with
  | None => snort_pattern2 p now cache line
  | Some matches =>
      let dstip := (CleanIP (group 6 matches)).1 in
      let srcip := (CleanIP (group 4 matches)).1 in
      if decide (dstip <> EmptyString /\ srcip <> EmptyString) then
        limited p now (dstip +:+ ":" +:+ srcip) cache
          (mkCall "event_add" [JStr "date"; JStr (group 1 matches); JStr "dstip"; JStr dstip; JStr "srcip"; JStr srcip;
             JStr "events"; JMap [("suricata_event", JStr (group 3 matches)); ("detect", JStr (group 2 matches))]] (TenantID p))
      else snort_pattern2 p now cache line
  end.

(** ** MD5 sums of Suricata (suricata_md5.go) *)

(** The prefix before the first brace. *)
Definition suricataMD5RegexRemovePrefix : re := Star (Chr (fun c => negb (is_char "{" c))).
Definition remove_prefix (line : string) : string :=
  default line (re_match suricataMD5RegexRemovePrefix line ∅ (fun t _ => Some t)).

Definition find_key (key : string) (data : list (string * jv)) : option jv :=
  (list_to_map data : gmap string jv) !! key.

(** The key of the endpoint; empty when neither field is a text. *)
Definition endpoint_key (data : list (string * jv)) : string :=
  match find_key "http_host" data with
  | Some (JStr str) => if decide (str <> EmptyString) then "dstip" else EmptyString
  | Some _ => EmptyString
  | None =>
      match find_key "sender" data with
      | Some (JStr str) => if decide (str <> EmptyString) then "srcip" else EmptyString
      | _ => EmptyString
      end
  end.

(** [Unmarshal]: the object of a text or the error; [IpToMac]: the resolver. *)
Definition SuricataMD5_Parse (Unmarshal : string -> list (string * jv) + string) (IpToMac : string -> string + string)
  (p : parser) (now : Z) (cache : C unit) (line : string) : result :=
  match Unmarshal (remove_prefix line) with
  | inr err => (cache, ([], Some err))
  | inl data =>
      match find_key "md5" data with
      | Some (JStr tid) =>
          match find_key (endpoint_key data) data with
          | Some (JStr ip) =>
              match IpToMac ip with
              | inr err => (cache, ([], Some err))
              | inl mac =>
                  limited p now (mac +:+ ":" +:+ tid) cache
                    (mkCall "trigger_security_event"
                       [JStr "mac"; JStr mac; JStr "tid"; JStr tid; JStr "type"; JStr "suricata_md5"] (TenantID p))
              end
          | _ => (cache, ([], Some "endpoint not found"))
          end
      | _ => (cache, ([], Some "md5 not found"))
      end
  end.

End Parsers.

(** ** Templates (generic.go) *)

Definition slice_panic : string := "slice bounds out of range".

(** s[a:b] *)
Definition slice (s : string) (a b : Z) : go string :=
  if decide (0 <= a /\ a <= b /\ b <= Z.of_nat (String.length s))
  then Ret (take_str (Z.to_nat (b - a)) (drop_str (Z.to_nat a) s)) else Panic slice_panic.

Section Templates.
(** unicode.IsLetter and unicode.IsDigit beyond ASCII *)
Context (letter_table digit_table : Z -> bool).

Definition IsLetter (r : Z) : bool := if r <? 128 then in_range 65 90 r || in_range 97 122 r else letter_table r.
Definition IsDigit (r : Z) : bool := if r <? 128 then in_range 48 57 r else digit_table r.
Definition name_rune (r : Z) : bool := IsLetter r || IsDigit r || (r =? 95).

(** The longest name at the start of a text, and the rest. *)
Fixpoint take_name (fuel : nat) (s : string) : string * string :=
  match fuel, s with
  | S fuel', String _ _ =>
      let '(rune, size) := DecodeRune s in
      if name_rune rune then
        let '(name, rest) := take_name fuel' (drop_str size s) in (take_str size s +:+ name, rest)
      else (EmptyString, s)
  | _, _ => (EmptyString, s)
  end.

(** The number a name denotes, -1 for a name that is not a number. *)
Fixpoint name_num (num : Z) (name : string) : Z :=
  match name with
  | EmptyString => num
  | String c name' =>
      if negb (is_digit c) || (100000000 <=? num) then -1 else name_num (num * 10 + (code c - 48)) name'
  end.

Definition extract_num (name : string) : Z :=
  match name with
  | String "0" (String _ _) => -1
  | _ => name_num 0 name
  end.

(** extract: [None] when it is not ok. *)
Definition extract (str : string) : option (string * Z * string) :=
  match str with
  | String "$" (String c1 s1) =>
      let brace := bool_decide (c1 = "{"%char) in
      let str := if brace then s1 else String c1 s1 in
      let '(name, rest) := take_name (String.length str) str in
      if decide (name = EmptyString) then None
      else if brace then
             match rest with
             | String "}" rest => Some (name, extract_num name, rest)
             | _ => None
             end
           else Some (name, extract_num name, rest)
  | _ => None
  end.

(** The text of a reference; [m] are the positions of the groups in [src]. *)
Definition reference (src : string) (m : list Z) (replacements : gmap string string) (name : string) (num : Z) : go string :=
  if decide (0 <= num) then
    match m !! Z.to_nat (2 * num), m !! Z.to_nat (2 * num + 1) with
    | Some a, Some b => if decide (0 <= a) then slice src a b else Ret EmptyString
    | _, _ => Ret EmptyString
    end
  else Ret (default EmptyString (replacements !! name)).

(** ExpandString: the loop consumes a character of the template in each turn. *)
Fixpoint ExpandString (fuel : nat) (dst template src : string) (m : list Z) (replacements : gmap string string) : go string :=
  match fuel with
  | O => Ret (dst +:+ template)
  | S fuel' =>
      match cut_at "$" template with
      | None => Ret (dst +:+ template)
      | Some (text, after) =>
          match after with
          | String "$" after' => ExpandString fuel' (dst +:+ text +:+ "$") after' src m replacements
          | _ =>
              match extract (String "$" after) with
              | None => ExpandString fuel' (dst +:+ text +:+ "$") after src m replacements
              | Some (name, num, rest) =>
                  (r <-! reference src m replacements name num ;;
                   ExpandString fuel' (dst +:+ text +:+ r) rest src m replacements)%go
              end
          end
      end
  end.

Definition Expand (template src : string) (m : list Z) (replacements : gmap string string) : go string :=
  ExpandString (String.length template) EmptyString template src m replacements.

End Templates.

(** ** The generic parser (generic.go) *)

Record GenericParserAction := mkAction { MethodName : string; ArgsTemplate : string }.

(** [g_find]: FindStringSubmatchIndex of the expression of the rule; [g_names]:
    its SubexpNames. *)
Record GenericParserRule := mkRule {
  g_find : string -> option (list Z); g_names : list string; g_Actions : list GenericParserAction;
  g_Name : string; g_LastIfMatch : bool; g_IpMacTranslation : bool; g_limit : option Z
}.

Definition genericSplitPatternRegex : re := seqs [spaces; Chr (fun c => is_char "," c || is_char "=" c); spaces].
Definition splitActionRegex : re := seqs [spaces; lit ":"; spaces].

Section Generic.
Context {C : Type -> Type} `{TC : TimedCache C}.
Context (CleanIP : string -> string * error) (CleanMac : string -> string).
Context (letter_table digit_table : Z -> bool).
(** the answers of the API *)
Context (mac2ip ip2mac : string -> option string).

Open Scope go_scope.

(** The named groups from the [i]-th one on. *)
Fixpoint named_groups (src : string) (m : list Z) (i : nat) (names : list string) (acc : gmap string string) : go (gmap string string) :=
  match names with
  | [] => Ret acc
  | name :: names' =>
      if decide (name <> EmptyString) then
        match m !! (2 * i)%nat, m !! (2 * i + 1)%nat with
        | Some a, Some b => s <-! slice src a b ;; named_groups src m (S i) names' (<[name := s]> acc)
        | _, _ => Panic index_panic
        end
      else named_groups src m (S i) names' acc
  end.

Definition GetReplacementMap (rule : GenericParserRule) (src : string) (m : list Z) : go (gmap string string) :=
  replacements <-! named_groups src m 0 (g_names rule) ∅ ;;
  match replacements !! "mac", replacements !! "ip" with
  | Some mac, None =>
      Ret (if g_IpMacTranslation rule
           then match mac2ip mac with Some ip => <["ip" := ip]> replacements | None => replacements end
           else replacements)
  | None, Some ip =>
      Ret (if g_IpMacTranslation rule
           then match ip2mac ip with Some mac => <["mac" := mac]> replacements | None => replacements end
           else replacements)
  | _, _ => Ret replacements
  end.

(** The cleaned replacements; [None]: the rule is left. *)
Definition clean_mac (replacements : gmap string string) : option (gmap string string) :=
  match replacements !! "mac" with
  | Some mac => let mac := CleanMac mac in
                if decide (mac = EmptyString) then None else Some (<["mac" := mac]> replacements)
  | None => Some replacements
  end.

Definition clean_ip (replacements : gmap string string) : option (gmap string string) :=
  match replacements !! "ip" with
  | Some ip => match CleanIP ip with
               | (_, Some _) => None
               | (tmp, None) => Some (<["ip" := tmp]> replacements)
               end
  | None => Some replacements
  end.

Fixpoint run_actions (tenant : Z) (limit : option Z) (now : Z) (line : string) (m : list Z)
  (replacements : gmap string string) (actions : list GenericParserAction) (cache : C unit) : go (C unit * list ApiCall) :=
  match actions with
  | [] => Ret (cache, [])
  | action :: actions' =>
      params <-! Expand letter_table digit_table (ArgsTemplate action) line m replacements ;;
      match NotRateLimited limit now (MethodName action +:+ ":" +:+ params) cache with
      | (cache, Some _) => run_actions tenant limit now line m replacements actions' cache
      | (cache, None) =>
          rest <-! run_actions tenant limit now line m replacements actions' cache ;;
          Ret (rest.1, mkCall (MethodName action) (JStr <$> re_split genericSplitPatternRegex None params) tenant :: rest.2)
      end
  end.

(** Parse over the rules with their caches. *)
Fixpoint Generic_Parse (tenant : Z) (now : Z) (line : string) (rules : list (GenericParserRule * C unit)) :
  go (list (GenericParserRule * C unit) * list ApiCall) :=
  match rules with
  | [] => Ret ([], [])
  | (rule, cache) :: rules' =>
      match g_find rule line with
      | None => rest <-! Generic_Parse tenant now line rules' ;; Ret ((rule, cache) :: rest.1, rest.2)
      | Some m =>
          replacements <-! GetReplacementMap rule line m ;;
          match (clean_mac replacements ≫= clean_ip) with
          | None => rest <-! Generic_Parse tenant now line rules' ;; Ret ((rule, cache) :: rest.1, rest.2)
          | Some replacements =>
              done <-! run_actions tenant (g_limit rule) now line m replacements (g_Actions rule) cache ;;
              if g_LastIfMatch rule then Ret ((rule, done.1) :: rules', done.2)
              else rest <-! Generic_Parse tenant now line rules' ;;
                   Ret ((rule, done.1) :: rest.1, (done.2 ++ rest.2)%list)
          end
      end
  end.

(** MakeActions. *)
Fixpoint MakeActions (array : list string) : go (list GenericParserAction) :=
  match array with
  | [] => Ret []
  | i :: array' =>
      match re_split splitActionRegex (Some 2%nat) i with
      | a :: b :: _ => actions <-! MakeActions array' ;; Ret (mkAction a b :: actions)
      | _ => Panic index_panic
      end
  end.

(** NewGenericParser: [compile] is MustCompile, [None] when it panics;
    [IsEnabled] is of go-utils. *)
Context (compile : string -> option ((string -> option (list Z)) * list string)) (IsEnabled : string -> bool).

Fixpoint make_rules (rules : list PfdetectRegexRule) : go (list GenericParserRule) :=
  match rules with
  | [] => Ret []
  | rule :: rules' =>
      match compile (pr_Regex rule) with
      | None => Panic "regexp: Compile"
      | Some (find, names) =>
          actions <-! MakeActions (pr_Actions rule) ;;
          rest <-! make_rules rules' ;;
          Ret (mkRule find names actions (pr_Name rule) (IsEnabled (pr_LastIfMatch rule))
                 (IsEnabled (pr_IpMacTranslation rule)) (NewRateLimitable (pr_RateLimit rule)) :: rest)
      end
  end.

Definition NewGenericParser (config : PfdetectConfig) : go (list GenericParserRule * parser) :=
  rules <-! make_rules (pc_Rules config) ;; Ret (rules, setupParser (Some config)).

End Generic.

(** ** The table of parsers *)

Inductive parser_kind :=
  | KDhcp | KFortiAnalyser | KRegex | KSecurityOnion | KSnort | KNexpose | KSuricataMD5.

Definition parserLookup : list (string * parser_kind) :=
  [("dhcp", KDhcp); ("fortianalyser", KFortiAnalyser); ("regex", KRegex); ("security_onion", KSecurityOnion);
   ("snort", KSnort); ("suricata", KSnort); ("nexpose", KNexpose); ("suricata_md5", KSuricataMD5)].

Definition CreateParser (parserType : string) : parser_kind + string :=
  match List.find (fun e => bool_decide (e.1 = parserType)) parserLookup with
  | Some (_, k) => inl k
  | None => inr ("Parser of " +:+ parserType +:+ " not found")
  end.

(** ** Theorems *)

(** *** Rate limits *)

Section Limits.
Context {C : Type -> Type} `{TL : TimedCacheLaws C}.

(** The answers to a sequence of requests, each with its time and key: true
    when it is let through. *)
Fixpoint requests (limit : option Z) (reqs : list (Z * string)) (cache : C unit) : list bool :=
  match reqs with
  | [] => []
  | (now, key) :: reqs' =>
      let '(cache, err) := NotRateLimited limit now key cache in
      bool_decide (err = None) :: requests limit reqs' cache
  end.

Definition ordered (reqs : list (Z * string)) : Prop := forall i j r r',
  (i <= j)%nat -> reqs !! i = Some r -> reqs !! j = Some r' -> r.1 <= r'.1.

Lemma ordered_tail r reqs : ordered (r :: reqs) -> ordered reqs.
Proof. intros H i j r1 r2 Hij H1 H2. apply (H (S i) (S j)); [lia|done..]. Qed.

(** While the entry of a key is fresh its requests are refused. *)
Lemma refused_until d k e : 0 < d -> forall reqs cache, ordered reqs ->
  (forall now, now <= e -> is_Some (tc_get now k cache)) ->
  forall j now, reqs !! j = Some (now, k) -> requests (Some d) reqs cache !! j = Some true -> e < now.
Proof.
  intros Hd. induction reqs as [|[t k0] reqs IH]; intros cache Ho Hf j now Hj Hb; [done|].
  cbn [requests NotRateLimited] in Hb. destruct j as [|j].
  - injection Hj as -> ->. destruct (tc_get now k cache) eqn:E; [done|].
    destruct (decide (now <= e)) as [Hle|]; [|lia]. destruct (Hf _ Hle) as [x Hx]. congruence.
  - destruct (tc_get t k0 cache) eqn:E; cbn in Hb, Hj.
    + eapply IH; [by eapply ordered_tail|exact Hf|exact Hj|exact Hb].
    + destruct (decide (t <= e)) as [Hte|Hte].
      * assert (k0 <> k) by (intros ->; destruct (Hf _ Hte) as [x Hx]; congruence).
        eapply IH; [by eapply ordered_tail| |exact Hj|exact Hb].
        intros n Hn. rewrite tc_get_set, decide_False by done. auto.
      * assert (t <= now) by by apply (Ho 0%nat (S j) (t, k0) (now, k)); [lia|done..]. lia.
Qed.

(** Two requests with the same key that both pass a rate limit are more
    than the limit apart, in every sequence of requests over time. *)
Theorem rate_limit_spaces_requests d reqs cache i j t t' k :
  0 < d -> ordered reqs -> (i < j)%nat ->
  reqs !! i = Some (t, k) -> reqs !! j = Some (t', k) ->
  requests (Some d) reqs cache !! i = Some true -> requests (Some d) reqs cache !! j = Some true ->
  t + d < t'.
Proof.
  intros Hd. revert cache i j. induction reqs as [|[t0 k0] reqs IH]; intros cache i j Ho Hij Hi Hj Bi Bj; [done|].
  destruct j as [|j]; [lia|]. cbn [requests NotRateLimited] in Bi, Bj. destruct i as [|i].
  - injection Hi as -> ->. destruct (tc_get t k cache) eqn:E; [done|]. cbn in Bj, Hj.
    eapply (refused_until d k (t + d)); [done|by eapply ordered_tail| |exact Hj|exact Bj].
    intros n Hn. rewrite tc_get_set, decide_True, decide_True by done. eauto.
  - destruct (tc_get t0 k0 cache) eqn:E; cbn in *;
      (eapply IH; [by eapply ordered_tail| |exact Hi|exact Hj|exact Bi|exact Bj]; lia).
Qed.
End Limits.

Lemma rate_limit_spaces_requests_witness : 0 + 10 < 11.
Proof.
  apply (rate_limit_spaces_requests (C := fun V => gmap string (V * Z)) 10 [(0, "k"); (5, "k"); (11, "k")] ∅ 0 2 0 11 "k");
    [lia| |lia|reflexivity|reflexivity|vm_compute; reflexivity|vm_compute; reflexivity].
  intros [|[|[|i]]] [|[|[|j]]] r r' Hij Hr Hr'; simplify_eq/=; lia.
Defined.

(** *** Templates *)

Section TemplateLaws.
Context (letter_table digit_table : Z -> bool).

(** The parts of a template. *)
Inductive seg := Text (s : string) | Dollar | Ref (name : string).

Definition print_seg (g : seg) : string :=
  match g with
  | Text s => s
  | Dollar => "$$"
  | Ref name => "${" +:+ name +:+ "}"
  end.
Definition print_segs (l : list seg) : string := foldr (fun g s => print_seg g +:+ s) EmptyString l.

(** The names of references: not empty, of ASCII letters, digits and underscores. *)
Fixpoint all_word (s : string) : bool :=
  match s with EmptyString => true | String c s' => is_word c && all_word s' end.

Definition seg_ok (g : seg) : bool :=
  match g with
  | Text s => no_char "$" s
  | Dollar => true
  | Ref name => bool_decide (name <> EmptyString) && all_word name
  end.

Fixpoint eval_segs (src : string) (m : list Z) (replacements : gmap string string) (l : list seg) : go string :=
  match l with
  | [] => Ret EmptyString
  | g :: l' =>
      (r <-! match g with
             | Text s => Ret s
             | Dollar => Ret "$"
             | Ref name => reference src m replacements name (extract_num name)
             end ;;
       rest <-! eval_segs src m replacements l' ;;
       Ret (r +:+ rest))%go
  end.

Lemma word_rune c : is_word c = true -> (code c <? 128) = true /\ name_rune letter_table digit_table (code c) = true.
Proof. destruct c as [[] [] [] [] [] [] [] []]; vm_compute; intros; first [done|by split]. Qed.

Lemma take_name_word name : forall fuel rest, all_word name = true -> (String.length name <= fuel)%nat ->
  take_name letter_table digit_table fuel (name +:+ String "}" rest) = (name, String "}" rest).
Proof.
  induction name as [|c name IH]; intros fuel rest H Hf.
  - change (take_name letter_table digit_table fuel (String "}" rest) = (EmptyString, String "}" rest)).
    by destruct fuel.
  - cbn [all_word] in H. apply andb_true_iff in H as [[Hc Hn]%word_rune H]. destruct fuel as [|fuel]; [cbn in Hf; lia|].
    change (String c name +:+ String "}" rest) with (String c (name +:+ String "}" rest)).
    cbn [take_name DecodeRune]. rewrite Hc, Hn. cbn [drop_str take_str].
    assert (E : drop_str 0 (name +:+ String "}" rest) = name +:+ String "}" rest) by by destruct (name +:+ _).
    rewrite IH by (done || (cbn in Hf; lia)). done.
Qed.

Lemma extract_ref name rest : name <> EmptyString -> all_word name = true ->
  extract letter_table digit_table (String "$" (String "{" (name +:+ String "}" rest))) = Some (name, extract_num name, rest).
Proof.
  intros Hn Hw. unfold extract. rewrite bool_decide_eq_true_2 by done.
  rewrite take_name_word; [by rewrite decide_False|done|]. rewrite str_length_app. lia.
Qed.

(** Enough fuel is the length of the template. *)
Lemma ExpandString_print src m replacements l : forall fuel dst text,
  forallb seg_ok l = true -> no_char "$" text = true ->
  (String.length (text +:+ print_segs l) <= fuel)%nat ->
  ExpandString letter_table digit_table fuel dst (text +:+ print_segs l) src m replacements =
    (r <-! eval_segs src m replacements l ;; Ret (dst +:+ text +:+ r))%go.
Proof.
  induction l as [|g l IH]; intros fuel dst text Hok Ht Hf.
  - change (print_segs []) with EmptyString. cbn [eval_segs go_bind]. rewrite str_app_nil_r.
    destruct fuel; cbn [ExpandString]; [done|]. by rewrite cut_at_none.
  - cbn [forallb] in Hok. apply andb_true_iff in Hok as [Hg Hok].
    change (print_segs (g :: l)) with (print_seg g +:+ print_segs l) in *.
    assert (Hempty : forall dst fuel, (String.length (print_segs l) <= fuel)%nat ->
      ExpandString letter_table digit_table fuel dst (print_segs l) src m replacements =
        (r <-! eval_segs src m replacements l ;; Ret (dst +:+ r))%go).
    { intros dst' fuel' H. exact (IH fuel' dst' EmptyString Hok eq_refl H). }
    destruct g as [s| |name]; cbn [seg_ok print_seg eval_segs] in *.
    + rewrite <- str_app_assoc. rewrite IH; [|done|by rewrite no_char_app, Ht, Hg|by rewrite str_app_assoc].
      cbn [go_bind]. destruct (eval_segs src m replacements l); cbn [go_bind]; [|done].
      by rewrite !str_app_assoc.
    + change ("$$" +:+ print_segs l) with (String "$" (String "$" (print_segs l))) in *.
      rewrite str_length_app in Hf. destruct fuel as [|fuel]; [cbn in Hf; lia|].
      cbn [ExpandString]. rewrite cut_at_app by done. rewrite Hempty by (cbn in Hf; lia). cbn [go_bind].
      destruct (eval_segs src m replacements l); cbn [go_bind]; [|done]. by rewrite !str_app_assoc.
    + apply andb_true_iff in Hg as [Hne%bool_decide_eq_true_1 Hw].
      assert (E : ("${" +:+ name +:+ "}") +:+ print_segs l = String "$" (String "{" (name +:+ String "}" (print_segs l)))).
      { rewrite str_app_assoc. change ("${" +:+ (name +:+ "}") +:+ print_segs l) with (String "$" (String "{" ((name +:+ "}") +:+ print_segs l))).
        by rewrite str_app_assoc. }
      rewrite E in *. rewrite str_length_app in Hf. cbn in Hf. rewrite str_length_app in Hf. cbn in Hf.
      destruct fuel as [|fuel]; [lia|]. cbn [ExpandString]. rewrite cut_at_app, extract_ref by done.
      destruct (reference src m replacements name (extract_num name)) as [r|]; cbn [go_bind]; [|done].
      rewrite Hempty by lia. destruct (eval_segs src m replacements l); cbn [go_bind]; [|done]. by rewrite !str_app_assoc.
Qed.

(** Expanding a template gives the texts of its parts in a row: plain text
    stands for itself, a doubled dollar sign for one, and a reference in braces
    for the numbered group or the named replacement, empty if there is none;
    the loop ends within as many turns as the template has characters. *)
Theorem Expand_is_concatenation src m replacements l : forallb seg_ok l = true ->
  Expand letter_table digit_table (print_segs l) src m replacements = eval_segs src m replacements l.
Proof.
  intros Hok. unfold Expand.
  assert (H := ExpandString_print src m replacements l (String.length (print_segs l)) EmptyString EmptyString Hok eq_refl (le_n _)).
  change (EmptyString +:+ print_segs l) with (print_segs l) in H. rewrite H. by destruct (eval_segs src m replacements l).
Qed.

End TemplateLaws.

Lemma Expand_is_concatenation_witness :
  Expand (fun _ => false) (fun _ => false) (print_segs [Text "mac, "; Ref "mac"; Dollar; Ref "1"]) "ab" [0; 2; 1; 2] {["mac" := "x"]} =
  eval_segs "ab" [0; 2; 1; 2] {["mac" := "x"]} [Text "mac, "; Ref "mac"; Dollar; Ref "1"].
Proof.
  apply (Expand_is_concatenation (fun _ => false) (fun _ => false) "ab" [0; 2; 1; 2] {["mac" := "x"]}
    [Text "mac, "; Ref "mac"; Dollar; Ref "1"]). vm_compute. reflexivity.
Defined.

(** *** DHCP logs *)

Definition digit_text (d : string) : bool := bool_decide (d <> EmptyString) && all_chars is_digit d.
Definition hex_pair (h : string) : bool := bool_decide (String.length h = 2%nat) && all_chars is_lower_hex h.

Definition dotted_text (d1 d2 d3 d4 : string) : string := d1 +:+ "." +:+ d2 +:+ "." +:+ d3 +:+ "." +:+ d4.
Definition mac_text (h1 h2 h3 h4 h5 h6 : string) : string :=
  h1 +:+ ":" +:+ h2 +:+ ":" +:+ h3 +:+ ":" +:+ h4 +:+ ":" +:+ h5 +:+ ":" +:+ h6.

Lemma takes_digit_text d rest c : digit_text d = true -> no_head is_digit rest -> takes digits_re d rest c c.
Proof. intros [Hne%bool_decide_eq_true_1 Hd]%andb_true_iff Hr. by apply takes_plus. Qed.

Lemma takes_hex_pair h rest c : hex_pair h = true -> takes hex2 h rest c c.
Proof. intros [Hl%bool_decide_eq_true_1 Hh]%andb_true_iff. by apply takes_exactly. Qed.

Lemma takes_dotted d1 d2 d3 d4 rest c : forallb digit_text [d1; d2; d3; d4] = true -> no_head is_digit rest ->
  takes dotted (dotted_text d1 d2 d3 d4) rest c c.
Proof.
  cbn [forallb]. rewrite !andb_true_iff. intros (H1 & H2 & H3 & H4 & _) Hr.
  unfold dotted, dotted_text, dot, seqs. cbn [foldr]. rewrite <- (str_app_nil_r d4).
  repeat (eapply takes_seq; [first [apply takes_lit|apply takes_digit_text; [done|first [done|reflexivity]]]|]).
  apply takes_nil.
Qed.

Lemma takes_mac h1 h2 h3 h4 h5 h6 rest c : forallb hex_pair [h1; h2; h3; h4; h5; h6] = true ->
  takes mac_re (mac_text h1 h2 h3 h4 h5 h6) rest c c.
Proof.
  cbn [forallb]. rewrite !andb_true_iff. intros (H1 & H2 & H3 & H4 & H5 & H6 & _).
  unfold mac_re, mac_text, seqs. cbn [foldr]. rewrite <- (str_app_nil_r h6).
  repeat (eapply takes_seq; [first [apply takes_lit|by apply takes_hex_pair]|]). apply takes_nil.
Qed.

Lemma takes_dhcpack rest c : takes dhcp_type "DHCPACK" rest c c.
Proof.
  unfold dhcp_type. do 3 (apply takes_alt_r; [apply fails_lit; reflexivity|]). apply takes_alt_l, takes_lit.
Qed.

(** Every type of message starts with the same four letters. *)
Lemma fails_dhcp t : HasPrefix t "DHCP" = false -> fails dhcp_type t.
Proof.
  intros H. assert (Hp : forall p, HasPrefix t ("DHCP" +:+ p) = false).
  { intros p. destruct (HasPrefix t ("DHCP" +:+ p)) eqn:E; [|done]. apply HasPrefix_inv in E as [u ->].
    by rewrite str_app_assoc, HasPrefix_app in H. }
  unfold dhcp_type. repeat apply fails_alt; apply fails_lit; apply (Hp _).
Qed.

(** The two forms of a message. *)
Definition ack_on (ip mac post : string) : string := "DHCPACK on " +:+ ip +:+ " to " +:+ mac +:+ post.
Definition ack_to (ip mac post : string) : string := "DHCPACK to " +:+ ip +:+ " (" +:+ mac +:+ ")" +:+ post.

(** No text that starts with DHCP begins in [pre], before [s]. *)
Definition no_dhcp (pre s : string) : bool := quiet (fun t => HasPrefix t "DHCP") pre s.

Lemma no_dhcp_fails t : HasPrefix t "DHCP" = false -> fails dhcpRegexPattern1 t /\ fails dhcpRegexPattern2 t.
Proof. intros Ht. split; apply fails_seq, fails_grp, (fails_dhcp t Ht). Qed.

Lemma find_on pre d1 d2 d3 d4 h1 h2 h3 h4 h5 h6 post :
  forallb digit_text [d1; d2; d3; d4] = true -> forallb hex_pair [h1; h2; h3; h4; h5; h6] = true ->
  let ip := dotted_text d1 d2 d3 d4 in let mac := mac_text h1 h2 h3 h4 h5 h6 in
  no_dhcp pre (ack_on ip mac post) = true ->
  exists matches, re_find dhcpRegexPattern1 (pre +:+ ack_on ip mac post) = Some matches /\
    group 1 matches = "DHCPACK" /\ group 2 matches = ip /\ group 3 matches = mac.
Proof.
  intros Hd Hh ip mac Hq. eexists. split; [|split_and!].
  - apply (re_find_skip _ (fun t => HasPrefix t "DHCP")); [exact (fun t Ht => proj1 (no_dhcp_fails t Ht))|exact Hq|].
    assert (E : ack_on ip mac post = ("DHCPACK" +:+ " on " +:+ ip +:+ " to " +:+ mac +:+ "") +:+ post).
    { unfold ack_on. rewrite str_app_nil_r, !str_app_assoc. done. }
    rewrite E. eapply re_find_takes. unfold dhcpRegexPattern1, seqs. cbn [foldr].
    eapply takes_seq; [apply takes_grp, takes_dhcpack|]. eapply takes_seq; [apply takes_lit|].
    eapply takes_seq; [apply takes_grp, takes_dotted; [done|reflexivity]|]. eapply takes_seq; [apply takes_lit|].
    eapply takes_seq; [apply takes_grp, takes_mac; done|]. apply takes_nil.
  - done.
  - done.
  - done.
Qed.

Lemma find_to pre d1 d2 d3 d4 h1 h2 h3 h4 h5 h6 post :
  forallb digit_text [d1; d2; d3; d4] = true -> forallb hex_pair [h1; h2; h3; h4; h5; h6] = true ->
  let ip := dotted_text d1 d2 d3 d4 in let mac := mac_text h1 h2 h3 h4 h5 h6 in
  no_dhcp pre (ack_to ip mac post) = true ->
  exists matches, re_find dhcpRegexPattern2 (pre +:+ ack_to ip mac post) = Some matches /\
    group 1 matches = "DHCPACK" /\ group 2 matches = ip /\ group 3 matches = mac.
Proof.
  intros Hd Hh ip mac Hq. eexists. split; [|split_and!].
  - apply (re_find_skip _ (fun t => HasPrefix t "DHCP")); [exact (fun t Ht => proj2 (no_dhcp_fails t Ht))|exact Hq|].
    assert (E : ack_to ip mac post = ("DHCPACK" +:+ " to " +:+ ip +:+ " (" +:+ mac +:+ ")" +:+ "") +:+ post).
    { unfold ack_to. rewrite str_app_nil_r, !str_app_assoc. done. }
    rewrite E. eapply re_find_takes. unfold dhcpRegexPattern2, seqs. cbn [foldr].
    eapply takes_seq; [apply takes_grp, takes_dhcpack|]. eapply takes_seq; [apply takes_lit|].
    eapply takes_seq; [apply takes_grp, takes_dotted; [done|reflexivity]|]. eapply takes_seq; [apply takes_lit|].
    eapply takes_seq; [apply takes_grp, takes_mac; done|]. eapply takes_seq; [apply takes_lit|]. apply takes_nil.
  - done.
  - done.
  - done.
Qed.

(** The first expression finds nothing in a line of the second form without another
    message. *)
Lemma on_not_found pre ip mac post :
  no_dhcp pre (ack_to ip mac post) = true -> no_dhcp (drop_str 1 (ack_to ip mac post)) EmptyString = true ->
  re_find dhcpRegexPattern1 (pre +:+ ack_to ip mac post) = None.
Proof.
  intros Hpre Htail. apply (re_find_none_skip _ (fun t => HasPrefix t "DHCP")); [exact (fun t Ht => proj1 (no_dhcp_fails t Ht))|exact Hpre|].
  change (ack_to ip mac post) with (String "D" (drop_str 1 (ack_to ip mac post))). cbn [re_find].
  assert (Hf : fails dhcpRegexPattern1 (String "D" (drop_str 1 (ack_to ip mac post)))) by (intros X k c; reflexivity).
  rewrite Hf. rewrite <- (str_app_nil_r (drop_str 1 _)).
  apply (re_find_none_skip _ (fun t => HasPrefix t "DHCP")); [exact (fun t Ht => proj1 (no_dhcp_fails t Ht))|exact Htail|]. reflexivity.
Qed.

(** C38.  DHCP log lines.  Let a line have the message of a DHCPACK with an address
    and a MAC, either [DHCPACK on IP to MAC] or [DHCPACK to IP (MAC)], after a text
    without another message and before any text (for the second form, one without
    another message); let CleanIP and CleanMac accept the two.  The line becomes
    exactly one call, which records the address and the MAC, unless a call for them
    was made within the rate limit, when it becomes an error.  A line without DHCP
    becomes no call. *)
Theorem dhcpack_line_updates_ip4log {C : Type -> Type} {TC : TimedCache C} CleanIP CleanMac
  p now (cache : C unit) d1 d2 d3 d4 h1 h2 h3 h4 h5 h6 cleaned_ip cleaned_mac :
  forallb digit_text [d1; d2; d3; d4] = true -> forallb hex_pair [h1; h2; h3; h4; h5; h6] = true ->
  let ip := dotted_text d1 d2 d3 d4 in let mac := mac_text h1 h2 h3 h4 h5 h6 in
  CleanIP ip = (cleaned_ip, None) -> CleanMac mac = cleaned_mac -> cleaned_mac <> EmptyString ->
  let out := match RateLimit p ≫= fun _ => tc_get now (cleaned_mac +:+ ":" +:+ cleaned_ip) cache with
             | Some _ => ([], Some errorRateLimit)
             | None => ([mkCall "update_ip4log" [JStr "mac"; JStr cleaned_mac; JStr "ip"; JStr cleaned_ip] (TenantID p)], None)
             end in
  (forall pre post, no_dhcp pre (ack_on ip mac post) = true ->
     (Dhcp_Parse CleanIP CleanMac p now cache (pre +:+ ack_on ip mac post)).2 = out) /\
  (forall pre post, no_dhcp pre (ack_to ip mac post) = true -> no_dhcp (drop_str 1 (ack_to ip mac post)) EmptyString = true ->
     (Dhcp_Parse CleanIP CleanMac p now cache (pre +:+ ack_to ip mac post)).2 = out) /\
  (forall line, no_dhcp line EmptyString = true -> (Dhcp_Parse CleanIP CleanMac p now cache line).2 = ([], None)).
Proof.
  intros Hd Hh ip mac Hip Hmac Hne out.
  assert (Hone : forall rs r line matches, re_find r line = Some matches -> group 1 matches = "DHCPACK" -> group 2 matches = ip ->
    group 3 matches = mac -> (dhcp_patterns CleanIP CleanMac p now cache line (r :: rs)).2 = out).
  { intros rs r line matches Hf G1 G2 G3. cbn [dhcp_patterns]. rewrite Hf, G1, G2, G3, decide_True by done.
    rewrite Hip, Hmac, decide_False by done. unfold limited, NotRateLimited, out.
    destruct (RateLimit p) as [d|]; cbn; [|done]. by destruct (tc_get now (cleaned_mac +:+ ":" +:+ cleaned_ip) cache). }
  assert (Hskip : forall rs r line, re_find r line = None ->
    dhcp_patterns CleanIP CleanMac p now cache line (r :: rs) = dhcp_patterns CleanIP CleanMac p now cache line rs).
  { intros rs r line Hf. cbn [dhcp_patterns]. by rewrite Hf. }
  unfold Dhcp_Parse. split_and!.
  - intros pre post Hq. destruct (find_on pre d1 d2 d3 d4 h1 h2 h3 h4 h5 h6 post Hd Hh Hq) as (matches & Hf & G1 & G2 & G3).
    by eapply Hone.
  - intros pre post Hq Ht. destruct (find_to pre d1 d2 d3 d4 h1 h2 h3 h4 h5 h6 post Hd Hh Hq) as (matches & Hf & G1 & G2 & G3).
    rewrite Hskip by exact (on_not_found pre ip mac post Hq Ht). by eapply Hone.
  - intros line Hl. rewrite <- (str_app_nil_r line). cbn [dhcp_patterns].
    rewrite (re_find_none_skip dhcpRegexPattern1 (fun t => HasPrefix t "DHCP") line EmptyString (fun t Ht => proj1 (no_dhcp_fails t Ht)) Hl) by reflexivity.
    by rewrite (re_find_none_skip dhcpRegexPattern2 (fun t => HasPrefix t "DHCP") line EmptyString (fun t Ht => proj2 (no_dhcp_fails t Ht)) Hl) by reflexivity.
Qed.

Lemma dhcpack_line_updates_ip4log_witness :
  (Dhcp_Parse (C := fun V => gmap string (V * Z)) (fun s => (s, None)) (fun s => s) (mkParser (Some 10) 1) 0 ∅
     ("Jan dhcpd: " +:+ ack_to (dotted_text "10" "0" "0" "1") (mac_text "00" "11" "22" "33" "44" "5f") " via eth0")).2 =
  ([mkCall "update_ip4log" [JStr "mac"; JStr "00:11:22:33:44:5f"; JStr "ip"; JStr "10.0.0.1"] 1], None).
Proof.
  destruct (dhcpack_line_updates_ip4log (C := fun V => gmap string (V * Z)) (fun s => (s, None)) (fun s => s) (mkParser (Some 10) 1) 0 ∅
      "10" "0" "0" "1" "00" "11" "22" "33" "44" "5f" "10.0.0.1" "00:11:22:33:44:5f") as (_ & Hto & _);
    [reflexivity|reflexivity|reflexivity|reflexivity|discriminate|].
  rewrite Hto; [vm_compute; reflexivity|vm_compute; reflexivity|vm_compute; reflexivity].
Defined.

(** *** Optional groups *)

(** The positions of a match of [n] groups: each took part in the match, or
    has the positions -1. *)
Definition match_ok (src : string) (n : nat) (m : list Z) : Prop := forall i, (i < n)%nat ->
  exists a b, m !! (2 * i)%nat = Some a /\ m !! (2 * i + 1)%nat = Some b /\
    (a = -1 /\ b = -1 \/ 0 <= a /\ a <= b /\ b <= Z.of_nat (String.length src)).

Lemma named_groups_panic src m names : forall i acc,
  match_ok src (i + length names) m ->
  (exists j, (j < length names)%nat /\ names !! j <> Some EmptyString /\ m !! (2 * (i + j))%nat = Some (-1)) ->
  named_groups src m i names acc = Panic slice_panic.
Proof.
  induction names as [|name names IH]; intros i acc Hok (j & Hj & Hn & Hm); [cbn in Hj; lia|].
  cbn [named_groups length] in *. destruct (Hok i ltac:(lia)) as (a & b & Ha & Hb & Hab).
  assert (Hstep : forall acc', (j <> 0)%nat -> named_groups src m (S i) names acc' = Panic slice_panic).
  { intros acc' Hj0. destruct j as [|j]; [done|]. apply IH; [by rewrite Nat.add_succ_comm|].
    exists j. cbn in Hn. split; [lia|]. split; [done|]. by replace (S i + j)%nat with (i + S j)%nat by lia. }
  case_decide as Hname.
  - rewrite Ha, Hb. unfold slice. case_decide as Hs; [|done]. cbn [go_bind]. apply Hstep. intros ->.
    rewrite Nat.add_0_r in Hm. rewrite Hm in Ha. injection Ha as <-. lia.
  - apply Hstep. intros ->. subst name. by apply Hn.
Qed.

(** The generic parser panics on a line in which a named group of the
    expression took no part in the match, an optional one or one of another
    alternative: its position -1 is used as the bound of a slice. *)
Theorem optional_named_group_panics {C : Type -> Type} {TC : TimedCache C} CleanIP CleanMac letters digits mac2ip ip2mac
  tenant now line rule (cache : C unit) rules m j :
  g_find rule line = Some m -> match_ok line (length (g_names rule)) m ->
  (j < length (g_names rule))%nat -> g_names rule !! j <> Some EmptyString -> m !! (2 * j)%nat = Some (-1) ->
  Generic_Parse CleanIP CleanMac letters digits mac2ip ip2mac tenant now line ((rule, cache) :: rules) = Panic slice_panic.
Proof.
  intros Hf Hok Hj Hn Hm. cbn [Generic_Parse]. rewrite Hf. unfold GetReplacementMap.
  rewrite named_groups_panic; [done|done|]. exists j. done.
Qed.

(** A rule for two alternatives, each with its own named group. *)
Definition demo_rule : GenericParserRule :=
  mkRule (fun _ => Some [0; 2; 0; 2; -1; -1]) [EmptyString; "mac"; "ip"] [] "r" false false None.

Lemma optional_named_group_panics_witness :
  Generic_Parse (C := fun V => gmap string (V * Z)) (fun s => (s, None)) (fun s => s) (fun _ => false) (fun _ => false)
    (fun _ => None) (fun _ => None) 1 0 "ab" [(demo_rule, ∅)] = Panic slice_panic.
Proof.
  apply (optional_named_group_panics (C := fun V => gmap string (V * Z)) (fun s => (s, None)) (fun s => s) (fun _ => false)
    (fun _ => false) (fun _ => None) (fun _ => None) 1 0 "ab" demo_rule ∅ [] [0; 2; 0; 2; -1; -1] 2);
    [reflexivity| |vm_compute; lia|discriminate|reflexivity].
  intros [|[|[|i]]] Hi; [| | |cbn in Hi; lia].
  - exists 0, 2. vm_compute. naive_solver.
  - exists 0, 2. vm_compute. naive_solver.
  - exists (-1), (-1). vm_compute. naive_solver.
Defined.

(** An action without a colon makes MakeActions index past the parts. *)
Lemma action_without_colon_panics a array :
  re_split splitActionRegex (Some 2%nat) a = [a] -> MakeActions (a :: array) = Panic index_panic.
Proof. intros H. cbn [MakeActions]. by rewrite H. Qed.
