(* ===== verification/FirewallSso.v ===== *)
(** Firewall single sign-on (src/go/firewallsso and src/go/caddy/pfsso): the
    tests that decide whether a firewall is told of a login, the user name in the
    format of the firewall, the message of each type of firewall, and the
    handlers of the service with their cache of updates.

    Sending a message is an argument that gives the error of the transport; the
    payloads that third-party packages encode are kept as data.  The cache is
    the third-party go-cache behind the interface [ExpiringCache].  The order
    in which Go iterates over a map is an argument. *)
From S2P Require Import Prelude NetIP Regex TimedCache DetectParser.
From Stdlib Require Import ZArith Lia Ascii.
From stdpp Require Import base gmap strings list.

Open Scope Z_scope.

Abbreviation info := (gmap string string).

(** info[key]: empty when the key is missing. *)
Definition iget (i : info) (key : string) : string := default EmptyString (i !! key).

(** strconv.ParseInt(s, 10, 32): beyond the range the bound and an error. *)
Definition signed32 (neg : bool) (ds : string) : Z * error :=
  match ds with
  | EmptyString => (0, Some "strconv.ParseInt: invalid syntax")
  | _ =>
      match digits 0 ds with
      | None => (0, Some "strconv.ParseInt: invalid syntax")
      | Some v =>
          let z := if neg then - v else v in
          if decide (z > 2 ^ 31 - 1) then (2 ^ 31 - 1, Some "strconv.ParseInt: value out of range")
          else if decide (z < - 2 ^ 31) then (- 2 ^ 31, Some "strconv.ParseInt: value out of range")
          else (z, None)
      end
  end.

Definition ParseInt32 (s : string) : Z * error :=
  match s with
  | String "-" ds => signed32 true ds
  | String "+" ds => signed32 false ds
  | _ => signed32 false s
  end.

(** ** Firewalls (base.go) *)

Inductive kind :=
  | BarracudaNG (Username Password Port : string)
  | Iboss (NacName Password Port : string)
  | PaloAlto (Transport Password Port Vsys : string)
  | FortiGate (Password Port : string)
  | Checkpoint (Password Port : string)
  | WatchGuard (Password Port : string)
  | JSONRPC (Username Password Port : string)
  | JuniperSRX (Username Password Port : string)
  | FamilyZone (Username Password DeviceID : string)
  | CiscoIsePic (Port : string).

Record FirewallSSO := mkFirewall {
  PfconfigHashNS : string; Roles : list string; Networks : list IPNet; CacheUpdates : string;
  CacheTimeout : string; UsernameFormat : string; DefaultRealm : string; fw_TenantID : Z; fw_kind : kind
}.

Definition defaultTenantID : string := "1".

Definition ShouldCacheUpdates (fw : FirewallSSO) : bool := bool_decide (CacheUpdates fw = "enabled").

Definition GetCacheTimeout (fw : FirewallSSO) : Z :=
  match ParseInt32 (CacheTimeout fw) with
  | (_, Some _) => 0
  | (timeout, None) => timeout
  end.

Definition CheckStatus (i : info) : bool := bool_decide (iget i "status" = "reg").

Definition MatchesRole (fw : FirewallSSO) (i : info) : bool :=
  existsb (fun role => bool_decide (iget i "role" = role)) (Roles fw).

Definition MatchesTenant (fw : FirewallSSO) (i : info) : bool :=
  bool_decide (default defaultTenantID (i !! "tenant_id") = Itoa (fw_TenantID fw)).

Section Base.
Context (ip6 : string -> ip).
(** beyond ASCII, for the expansion of replacements *)
Context (letter_table digit_table : Z -> bool).

Definition MatchesNetwork (fw : FirewallSSO) (i : info) : bool :=
  match Networks fw with
  | [] => true
  | nets =>
      let x := ParseIP ip6 (iget i "ip") in
      if decide (x = []) then false else existsb (fun net => Contains net x) nets
  end.

(** regexp.ReplaceAllString of the literal [pat]: every match is replaced by
    the expansion of [repl], in which a dollar sign starts a reference to a
    group; the expression has only the group 0. *)
Fixpoint replace_fuel (fuel : nat) (pat repl s : string) : string :=
  match fuel with
  | O => s
  | S fuel' =>
      match re_locate (lit pat) s with
      | None => s
      | Some (pre, t) =>
          pre +:+ match Expand letter_table digit_table repl pat [0; Z.of_nat (String.length pat)] ∅ with
                  | Ret r => r
                  | Panic _ => EmptyString
                  end +:+ replace_fuel fuel' pat repl t
      end
  end.

Definition ReplaceAllString (pat repl s : string) : string := replace_fuel (S (String.length s)) pat repl s.

Definition usernameFormatRegexps : list (string * string) :=
  [("stripped_username", "$username"); ("realm", "$realm"); ("username", "$pf_username")].

(** The realm is set in the shared information. *)
Definition with_realm (fw : FirewallSSO) (i : info) : info :=
  if decide (iget i "realm" = EmptyString) then <["realm" := DefaultRealm fw]> i else i.

(** FormatUsername: [order] is the iteration over the expressions. *)
Definition FormatUsername (order : list (string * string)) (fw : FirewallSSO) (i : info) : info * string :=
  if decide (UsernameFormat fw = EmptyString) then (i, iget i "username")
  else let i := with_realm fw i in
       (i, fold_left (fun username kr => ReplaceAllString kr.2 (iget i kr.1) username) order (UsernameFormat fw)).

(** ** Messages *)

Inductive attribute :=
  | AcctStatusType (v : Z)
  | AcctSessionID (s : string)
  | UserName (s : string)
  | SessionTimeout (v : Z)
  | Class (s : string)
  | FilterID (s : string)
  | CalledStationID (s : string)
  | FramedIPAddress (x : ip)
  | CallingStationID (s : string).

Definition Status_Start : Z := 1.
Definition Status_Stop : Z := 2.

Inductive message :=
  | Radius (addr secret : string) (attributes : list attribute)
  | Ssh (addr user password cmd : string)
  | Http (method url : string) (body : string)   (* of a form: its only value *)
  | Syslog (addr line : string)
  | Rpc (url user password action : string) (args : list (string * jv)).

(** The RADIUS packets: the attributes in the order they are added. *)
Definition fortigate_start (i : info) : list attribute :=
  [AcctStatusType Status_Start; AcctSessionID ("acct_pf-" +:+ iget i "mac"); UserName (iget i "username");
   Class (iget i "role"); CalledStationID "00:11:22:33:44:55"; FramedIPAddress (ParseIP ip6 (iget i "ip"));
   CallingStationID (iget i "mac")].
Definition fortigate_stop (i : info) : list attribute :=
  [AcctSessionID ("acct_pf-" +:+ iget i "mac"); AcctStatusType Status_Stop; UserName (iget i "username");
   Class (iget i "role"); CalledStationID "00:11:22:33:44:55"; FramedIPAddress (ParseIP ip6 (iget i "ip"));
   CallingStationID (iget i "mac")].
Definition checkpoint_start (i : info) (timeout : Z) : list attribute :=
  [AcctStatusType Status_Start; AcctSessionID ("acct_pf-" +:+ iget i "mac"); UserName (iget i "username");
   SessionTimeout (u32 timeout); CalledStationID "00:11:22:33:44:55"; FramedIPAddress (ParseIP ip6 (iget i "ip"));
   CallingStationID (iget i "mac")].
Definition watchguard_start (i : info) : list attribute :=
  [AcctStatusType Status_Start; UserName (iget i "username"); FilterID (iget i "role");
   CalledStationID "00:11:22:33:44:55"; FramedIPAddress (ParseIP ip6 (iget i "ip")); CallingStationID (iget i "mac")].
Definition watchguard_stop (i : info) : list attribute :=
  [AcctSessionID ("acct_pf-" +:+ iget i "mac"); AcctStatusType Status_Stop; UserName (iget i "username");
   FilterID (iget i "role"); CalledStationID "00:11:22:33:44:55"; FramedIPAddress (ParseIP ip6 (iget i "ip"));
   CallingStationID (iget i "mac")].

Definition iboss_url (id port nacName password action : string) (i : info) : string :=
  "http://" +:+ id +:+ ":" +:+ port +:+ "/nacAgent?action=" +:+ action +:+ "&user=" +:+ iget i "username" +:+
  "&dc=" +:+ nacName +:+ "&key=" +:+ password +:+ "&ip=" +:+ iget i "ip" +:+ "&cn=" +:+ iget i "username" +:+
  "&g=" +:+ iget i "role".

(** The character of a quotation mark. *)
Definition dq : string := String (Ascii.ascii_of_nat 34) EmptyString.
Definition nl : string := String (Ascii.ascii_of_nat 10) EmptyString.
Fixpoint tabs (n : nat) : string :=
  match n with O => EmptyString | S n' => String (Ascii.ascii_of_nat 9) (tabs n') end.

(** The lines of a template, each with its indentation, after a newline each. *)
Definition tlines (l : list (nat * string)) : string := foldr (fun '(n, s) r => nl +:+ tabs n +:+ s +:+ r) EmptyString l.

(** InfoToTemplateCtx: [UcFirst] is of go-utils, [entries] are the pairs of the
    information in the order of the iteration. *)
Definition InfoToTemplateCtx (UcFirst : string -> string) (entries : list (string * string)) (timeout : Z) : info :=
  <["Timeout" := Itoa timeout]> (fold_left (fun c kv => <[UcFirst kv.1 := kv.2]> c) entries ∅).

(** A field of a template; a missing one is printed like this. *)
Definition field (c : info) (key : string) : string := default "<no value>" (c !! key).

Definition uid_message (action entry : string) : string :=
  tlines [(0, "<uid-message>"); (2, "<version>1.0</version>"); (2, "<type>update</type>"); (2, "<payload>");
          (4, "<" +:+ action +:+ ">"); (6, entry); (4, "</" +:+ action +:+ ">"); (2, "</payload>"); (0, "</uid-message>")]%nat +:+ nl.

Definition paloalto_startHttpPayload (UcFirst : string -> string) (entries : list (string * string)) (timeout : Z) : string :=
  let c := InfoToTemplateCtx UcFirst entries (Z.quot timeout 60) in
  uid_message "login" ("<entry name=" +:+ dq +:+ field c "Username" +:+ dq +:+ " ip=" +:+ dq +:+ field c "Ip" +:+ dq +:+
                       " timeout=" +:+ dq +:+ field c "Timeout" +:+ dq +:+ "/>").

Definition paloalto_stopHttpPayload (UcFirst : string -> string) (entries : list (string * string)) : string :=
  let c := InfoToTemplateCtx UcFirst entries (-1) in
  uid_message "logout" ("<entry name=" +:+ dq +:+ field c "Username" +:+ dq +:+ " ip=" +:+ dq +:+ field c "Ip" +:+ dq +:+ "/>").

(** The templates of the JuniperSRX on a context with the time of the request. *)
Definition juniper_startHttpPayload (c : info) : string :=
  "<?xml version=" +:+ dq +:+ "1.0" +:+ dq +:+ "?>" +:+
  tlines [(2, "<userfw-entries>"); (3, "<userfw-entry>"); (4, "<source>PacketFence</source>");
          (4, "<timestamp>" +:+ field c "Time" +:+ "</timestamp>"); (4, "<operation>logon</operation>");
          (4, "<IP>" +:+ field c "Ip" +:+ "</IP>"); (4, "<domain>" +:+ field c "Realm" +:+ "</domain>");
          (4, "<user>" +:+ field c "Username" +:+ "</user>"); (4, "<role-list>"); (5, "<role>" +:+ field c "Role" +:+ "</role>");
          (4, "</role-list>"); (4, "<posture>Healthy</posture>"); (4, "<end-user-attribute>"); (5, "<device-identity>");
          (6, "<value>" +:+ field c "Computername" +:+ "</value>"); (6, "<groups>"); (7, "<group>" +:+ field c "Role" +:+ "</group>");
          (6, "</groups>"); (5, "</device-identity>"); (5, "<device-category>" +:+ field c "Device_class" +:+ "</device-category>");
          (5, "<device-os>" +:+ field c "Device_type" +:+ "</device-os>");
          (5, "<device-os-version>" +:+ dq +:+ field c "Device_version" +:+ dq +:+ "</device-os-version>");
          (4, "</end-user-attribute>"); (3, "</userfw-entry>"); (2, "</userfw-entries>")]%nat.

Definition juniper_stopHttpPayload (c : info) : string :=
  "<?xml version=" +:+ dq +:+ "1.0" +:+ dq +:+ "?>" +:+
  tlines [(2, "<userfw-entries>"); (3, "<userfw-entry>"); (4, "<source>PacketFence</source>");
          (4, "<timestamp>" +:+ field c "Time" +:+ "</timestamp>"); (4, "<operation>logoff</operation>");
          (4, "<IP>" +:+ field c "Ip" +:+ "</IP>"); (3, "</userfw-entry>"); (2, "</userfw-entries>")]%nat.

Definition barracuda_cmd (letter : string) (i : info) : string :=
  "phibstest 127.0.0.1 " +:+ letter +:+ " peer=" +:+ iget i "ip" +:+ " origin=PacketFence service=PacketFence user=" +:+ iget i "username".

Definition syslog_line (i : info) : string :=
  "Group <packetfence> User <" +:+ iget i "username" +:+ "> Address <" +:+ iget i "ip" +:+ "> assigned to session".

Definition rpc_args (i : info) (timeout : Z) : list (string * jv) :=
  [("user", JStr (iget i "username")); ("mac", JStr (iget i "mac")); ("ip", JStr (iget i "ip"));
   ("role", JStr (iget i "role")); ("timeout", JNum timeout)].

(** What the environment gives to one request: the errors of the transports,
    whether http.NewRequest accepts a URL, the answer of a JSON-RPC server, the
    iteration over the information, the time, a new UUID and SHA-1, the
    addresses of the management network, UcFirst and ToLower. *)
Record env := mkEnv {
  e_send : message -> error; e_url_ok : string -> bool; e_rpc : message -> string + string;
  e_entries : info -> list (string * string); e_time : string; e_uuid : string + string; e_sha1 : string -> string;
  e_vip : string; e_ip : string; e_UcFirst : string -> string; e_ToLower : string -> string
}.

Definition nil_panic : string := "runtime error: invalid memory address or nil pointer dereference".
Definition check_panic : string := "CheckError".

(** getSourceIp *)
Definition getSourceIp (e : env) : ip :=
  if decide (e_vip e <> EmptyString) then ParseIP ip6 (e_vip e) else ParseIP ip6 (e_ip e).

(** The result of a transport: the message that was tried, success and error. *)
Definition tried (e : env) (m : message) : go (list message * (bool * error)) :=
  Ret ([m], (bool_decide (e_send e m = None), e_send e m)).

(** A request whose URL is refused is nil, and its header is used all the same. *)
Definition http_request (e : env) (method url body : string) : go (list message * (bool * error)) :=
  if e_url_ok e url then tried e (Http method url body) else Panic nil_panic.

Definition watchguard_send (e : env) (addr secret : string) (attributes : list attribute) : go (list message * (bool * error)) :=
  if decide (To4 (getSourceIp e) = []) then Panic check_panic else tried e (Radius addr secret attributes).

Definition rpc_request (e : env) (m : message) (url : string) : go (list message * (bool * error)) :=
  if e_url_ok e url then
    match e_rpc e m with
    | inr err => Ret ([m], (false, Some err))
    | inl result =>
        Ret ([m], if decide (result = "OK") then (true, None)
                  else (false, Some ("JSON-RPC call returned an error: " +:+ result)))
    end
  else Ret ([], (false, Some "http.NewRequest")).

Definition host_port (fw : FirewallSSO) (port : string) : string := PfconfigHashNS fw +:+ ":" +:+ port.

Definition juniper_url (fw : FirewallSSO) (port : string) : string :=
  "https://" +:+ host_port fw port +:+ "/api/userfw/v1/post-entry".
Definition paloalto_url (fw : FirewallSSO) (password port vsys : string) : string :=
  "https://" +:+ host_port fw port +:+ "/api/?type=user-id&vsys=vsys" +:+ vsys +:+ "&action=set&key=" +:+ password.

(** Start and Stop of the types of firewall. *)
Abbreviation outcome := (go (list message * (bool * error))).

Definition barracuda_Start (e : env) (fw : FirewallSSO) (user password port : string) (i : info) : outcome :=
  tried e (Ssh (host_port fw port) user password (barracuda_cmd "l" i)).
Definition barracuda_Stop (e : env) (fw : FirewallSSO) (user password port : string) (i : info) : outcome :=
  tried e (Ssh (host_port fw port) user password (barracuda_cmd "o" i)).

Definition iboss_Start (e : env) (fw : FirewallSSO) (nacName password port : string) (i : info) : outcome :=
  http_request e "GET" (iboss_url (PfconfigHashNS fw) port nacName password "login" i) "query=libwww-perl&mode=dist".
Definition iboss_Stop (e : env) (fw : FirewallSSO) (nacName password port : string) (i : info) : outcome :=
  http_request e "GET" (iboss_url (PfconfigHashNS fw) port nacName password "logout" i) "query=libwww-perl&mode=dist".

(** initChild of the PaloAlto *)
Definition default_vsys (vsys : string) : string := if decide (vsys = EmptyString) then "1" else vsys.

Definition paloalto_Start (e : env) (fw : FirewallSSO) (transport password port vsys : string) (i : info) (timeout : Z) : outcome :=
  if decide (transport = "syslog") then tried e (Syslog (PfconfigHashNS fw +:+ ":514") (syslog_line i))
  else tried e (Http "POST" (paloalto_url fw password port (default_vsys vsys))
                  (paloalto_startHttpPayload (e_UcFirst e) (e_entries e i) timeout)).
Definition paloalto_Stop (e : env) (fw : FirewallSSO) (transport password port vsys : string) (i : info) : outcome :=
  if decide (transport = "syslog") then Ret ([], (false, None))
  else tried e (Http "POST" (paloalto_url fw password port (default_vsys vsys))
                  (paloalto_stopHttpPayload (e_UcFirst e) (e_entries e i))).

Definition fortigate_Start (e : env) (fw : FirewallSSO) (password port : string) (i : info) : outcome :=
  tried e (Radius (host_port fw port) password (fortigate_start i)).
Definition fortigate_Stop (e : env) (fw : FirewallSSO) (password port : string) (i : info) : outcome :=
  tried e (Radius (host_port fw port) password (fortigate_stop i)).

Definition checkpoint_Start (e : env) (fw : FirewallSSO) (password port : string) (i : info) (timeout : Z) : outcome :=
  tried e (Radius (host_port fw port) password (checkpoint_start i timeout)).
Definition checkpoint_Stop : outcome := Ret ([], (false, None)).

Definition watchguard_Start (e : env) (fw : FirewallSSO) (password port : string) (i : info) : outcome :=
  watchguard_send e (host_port fw port) password (watchguard_start i).
Definition watchguard_Stop (e : env) (fw : FirewallSSO) (password port : string) (i : info) : outcome :=
  watchguard_send e (host_port fw port) password (watchguard_stop i).

Definition jsonrpc_Start (e : env) (fw : FirewallSSO) (user password port : string) (i : info) (timeout : Z) : outcome :=
  rpc_request e (Rpc ("https://" +:+ host_port fw port) user password "Start" (rpc_args i timeout)) ("https://" +:+ host_port fw port).
Definition jsonrpc_Stop (e : env) (fw : FirewallSSO) (user password port : string) (i : info) : outcome :=
  rpc_request e (Rpc ("https://" +:+ host_port fw port) user password "Stop" (rpc_args i 0)) ("https://" +:+ host_port fw port).

(** The payload sets the time in the information. *)
Definition juniper_Start (e : env) (fw : FirewallSSO) (port : string) (i : info) : outcome :=
  let i := <["Time" := e_time e]> i in
  http_request e "POST" (juniper_url fw port) (juniper_startHttpPayload (InfoToTemplateCtx (e_UcFirst e) (e_entries e i) 0)).
Definition juniper_Stop (e : env) (fw : FirewallSSO) (port : string) (i : info) : outcome :=
  let i := <["Time" := e_time e]> i in
  http_request e "POST" (juniper_url fw port) (juniper_stopHttpPayload (InfoToTemplateCtx (e_UcFirst e) (e_entries e i) 0)).

Definition familyzone_Start (e : env) (fw : FirewallSSO) (password deviceId : string) (i : info) : outcome :=
  match e_uuid e with
  | inr err => Ret ([], (false, Some err))
  | inl id =>
      tried e (Http "GET" ("https://" +:+ PfconfigHashNS fw +:+ "/login/agent?deviceid=" +:+ deviceId +:+ "&mac=" +:+ iget i "mac" +:+
        "&ip=" +:+ iget i "ip" +:+ "&username=" +:+ e_ToLower e (iget i "username") +:+ "&agent=PacketFence&hash=" +:+
        e_sha1 e (password +:+ "__" +:+ iget i "username" +:+ "_PacketFence_" +:+ id) +:+ "&salt=" +:+ id) EmptyString)
  end.
Definition familyzone_Stop : outcome := Ret ([], (true, None)).

Definition ciscoisepic_Start (e : env) (fw : FirewallSSO) (port : string) (i : info) : outcome :=
  tried e (Syslog (host_port fw port) (syslog_line i)).
Definition ciscoisepic_Stop : outcome := Ret ([], (false, None)).

Definition child_Start (e : env) (fw : FirewallSSO) (i : info) (timeout : Z) : outcome :=
  match fw_kind fw with
  | BarracudaNG user password port => barracuda_Start e fw user password port i
  | Iboss nacName password port => iboss_Start e fw nacName password port i
  | PaloAlto transport password port vsys => paloalto_Start e fw transport password port vsys i timeout
  | FortiGate password port => fortigate_Start e fw password port i
  | Checkpoint password port => checkpoint_Start e fw password port i timeout
  | WatchGuard password port => watchguard_Start e fw password port i
  | JSONRPC user password port => jsonrpc_Start e fw user password port i timeout
  | JuniperSRX _ _ port => juniper_Start e fw port i
  | FamilyZone _ password deviceId => familyzone_Start e fw password deviceId i
  | CiscoIsePic port => ciscoisepic_Start e fw port i
  end.

Definition child_Stop (e : env) (fw : FirewallSSO) (i : info) : outcome :=
  match fw_kind fw with
  | BarracudaNG user password port => barracuda_Stop e fw user password port i
  | Iboss nacName password port => iboss_Stop e fw nacName password port i
  | PaloAlto transport password port vsys => paloalto_Stop e fw transport password port vsys i
  | FortiGate password port => fortigate_Stop e fw password port i
  | Checkpoint _ _ => checkpoint_Stop
  | WatchGuard password port => watchguard_Stop e fw password port i
  | JSONRPC user password port => jsonrpc_Stop e fw user password port i
  | JuniperSRX _ _ port => juniper_Stop e fw port i
  | FamilyZone _ _ _ => familyzone_Stop
  | CiscoIsePic _ => ciscoisepic_Stop
  end.

(** ** ExecuteStart and ExecuteStop; Start and Stop of the base succeed. *)

Definition set_username (order : list (string * string)) (fw : FirewallSSO) (i : info) : info :=
  let '(i, username) := FormatUsername order fw i in <["username" := username]> i.

Definition ExecuteStart (e : env) (order : list (string * string)) (fw : FirewallSSO) (i : info) (timeout : Z) :
  go (list message * (bool * error)) :=
  if negb (CheckStatus i) then Ret ([], (false, None))
  else if negb (MatchesRole fw i) then Ret ([], (false, None))
  else if negb (MatchesNetwork fw i) then Ret ([], (false, None))
  else if negb (MatchesTenant fw i) then Ret ([], (false, None))
  else child_Start e fw (set_username order fw i) timeout.

Definition ExecuteStop (e : env) (order : list (string * string)) (fw : FirewallSSO) (i : info) : go (list message * (bool * error)) :=
  if negb (MatchesNetwork fw i) then Ret ([], (false, None))
  else if negb (MatchesTenant fw i) then Ret ([], (false, None))
  else child_Stop e fw (set_username order fw i).

End Base.

(** ** The factory (factory.go): the struct of each configured type *)
Definition typeRegistry : list (string * string) :=
  [("BarracudaNG", "BarracudaNG"); ("Iboss", "Iboss"); ("PaloAlto", "PaloAlto"); ("LightSpeedRocket", "FortiGate");
   ("SmoothWall", "FortiGate"); ("FortiGate", "FortiGate"); ("Checkpoint", "Checkpoint"); ("WatchGuard", "WatchGuard");
   ("JSONRPC", "JSONRPC"); ("JuniperSRX", "JuniperSRX"); ("FamilyZone", "FamilyZone"); ("CiscoIsePic", "CiscoIsePic")].

(** ** The service (caddy/pfsso) *)

Definition required : list string := ["ip"; "mac"; "username"; "role"].

Definition validateInfo (i : info) : error :=
  match List.find (fun k => bool_decide (i !! k = None)) required with
  | Some k => Some ("Missing " +:+ k +:+ " in request")
  | None => None
  end.

(** parseSsoRequest: [body] is the decoded payload or its error, where [None]
    is the nil map that null decodes to; [header] is the tenant header. *)
Definition parseSsoRequest (body : option info + string) (header : string) : go ((info * Z) + string) :=
  match body with
  | inr err => Ret (inr ("Error while decoding payload: " +:+ err))
  | inl None => Panic "assignment to entry in nil map"
  | inl (Some i) =>
      let tenant_id :=
        if decide (header = EmptyString) then defaultTenantID
        else match ParseInt32 header with
             | (_, Some _) => defaultTenantID
             | (_, None) => header
             end in
      let i := <["tenant_id" := tenant_id]> i in
      let timeout := (ParseInt32 (iget i "timeout")).1 in
      Ret (match validateInfo i with
           | Some err => inr err
           | None =>
               inl (if decide (iget i "stripped_username" = EmptyString)
                    then <["stripped_username" := iget i "username"]> i else i, timeout)
           end)
  end.

Section Service.
Context {C : Type} {EC : ExpiringCache C}.

Definition cache_key (fw : FirewallSSO) (i : info) : string :=
  PfconfigHashNS fw +:+ "|mac|" +:+ iget i "mac" +:+ "|ip|" +:+ iget i "ip" +:+ "|username|" +:+ iget i "username" +:+
  "|role|" +:+ iget i "role".

(** Deletes the keys of a test among those of Items. *)
Definition delete_keys (now : Z) (p : string -> bool) (c : C) : C :=
  fold_left (fun c k => if p k then ec_delete k c else c) (ec_items now c) c.

(** The time to cache an update, 0 for none. *)
Definition cache_timeout (fw : FirewallSSO) (timeout : Z) : Z :=
  if decide (GetCacheTimeout fw <> 0) then GetCacheTimeout fw
  else if decide (timeout <> 0) then Z.quot timeout 2 else 0.

(** The loop of handleUpdate: the cache and the firewalls for which a start is
    spawned; [shouldStart] is declared outside of the loop. *)
Fixpoint update_loop (now : Z) (i : info) (timeout : Z) (shouldStart : bool) (fws : list FirewallSSO) (c : C) :
  C * list FirewallSSO :=
  match fws with
  | [] => (c, [])
  | fw :: fws' =>
      let '(c, shouldStart) :=
        if ShouldCacheUpdates fw then
          let key := cache_key fw i in
          let c := delete_keys now (fun k => negb (bool_decide (k = key)) && StrContains k ("|mac|" +:+ iget i "mac")) c in
          if ec_get now key c then (c, shouldStart)
          else (if decide (cache_timeout fw timeout <> 0)
                then ec_set (i64 (cache_timeout fw timeout * 1000000000)) now key c else c, true)
        else (c, true) in
      let '(c, spawned) := update_loop now i timeout shouldStart fws' c in
      (c, if (shouldStart : bool) then fw :: spawned else spawned)
  end.

(** The handlers: the cache, the status of the answer and the firewalls for
    which a request is spawned, with the information it gets a copy of. *)
Definition handleUpdate (now : Z) (body : option info + string) (header : string) (fws : list FirewallSSO) (c : C) :
  go (C * Z * list (FirewallSSO * info)) :=
  (r <-! parseSsoRequest body header ;;
   match r with
   | inr _ => Ret (c, 400, [])
   | inl (i, timeout) =>
       let '(c, spawned) := update_loop now i timeout false fws c in Ret (c, 202, (fun fw => (fw, i)) <$> spawned)
   end)%go.

Definition handleStart (body : option info + string) (header : string) (fws : list FirewallSSO) :
  go (Z * list (FirewallSSO * info)) :=
  (r <-! parseSsoRequest body header ;;
   match r with
   | inr _ => Ret (400, [])
   | inl (i, _) => Ret (202, (fun fw => (fw, i)) <$> fws)
   end)%go.

Definition handleStop (now : Z) (body : option info + string) (header : string) (fws : list FirewallSSO) (c : C) :
  go (C * Z * list (FirewallSSO * info)) :=
  (r <-! parseSsoRequest body header ;;
   match r with
   | inr _ => Ret (c, 400, [])
   | inl (i, _) =>
       Ret (delete_keys now (fun k => StrContains k ("|ip|" +:+ iget i "ip" +:+ "|")) c, 202, (fun fw => (fw, i)) <$> fws)
   end)%go.
End Service.

(** ** Theorems *)

(** *** Who is told of a login *)

(** C36.  A firewall is only told of the login of a device that is registered
    and has one of the roles of the firewall, an address in one of its networks
    if it has any, and its tenant: in every other case ExecuteStart sends
    nothing at all. *)
Theorem start_needs_matching_device ip6 letters digits_ e order fw i timeout ms r :
  ExecuteStart ip6 letters digits_ e order fw i timeout = Ret (ms, r) -> ms <> [] ->
  i !! "status" = Some "reg" /\ iget i "role" ∈ Roles fw /\
  (Networks fw = [] \/ exists net, net ∈ Networks fw /\ Contains net (ParseIP ip6 (iget i "ip")) = true) /\
  default defaultTenantID (i !! "tenant_id") = Itoa (fw_TenantID fw).
Proof.
  unfold ExecuteStart. intros H Hne.
  destruct (CheckStatus i) eqn:H1; [|by injection H as <-]. destruct (MatchesRole fw i) eqn:H2; [|by injection H as <-].
  destruct (MatchesNetwork ip6 fw i) eqn:H3; [|by injection H as <-]. destruct (MatchesTenant fw i) eqn:H4; [|by injection H as <-].
  split_and!.
  - apply bool_decide_eq_true in H1. unfold iget in H1. by destruct (i !! "status") as [s|]; cbn in H1; [subst|].
  - apply existsb_exists in H2 as (role & Hin & ->%bool_decide_eq_true). by apply list_elem_of_In.
  - unfold MatchesNetwork in H3. destruct (Networks fw) as [|n ns]; [by left|]. right. case_decide; [done|].
    apply existsb_exists in H3 as (net & Hin & Hc). exists net. split; [by apply list_elem_of_In|done].
  - by apply bool_decide_eq_true in H4.
Qed.

Definition demo_env : env :=
  mkEnv (fun _ => None) (fun _ => true) (fun _ => inl "OK") map_to_list "now" (inl "uuid") (fun s => s) EmptyString "10.0.0.1"
    (fun s => s) (fun s => s).
Definition demo_fw (id : string) : FirewallSSO :=
  mkFirewall id ["guest"] [mkIPNet [10; 0; 0; 0] [255; 0; 0; 0]] "enabled" "60" EmptyString EmptyString 1 (FortiGate "s" "1813").
Definition demo_info : info :=
  list_to_map [("status", "reg"); ("role", "guest"); ("ip", "10.1.2.3"); ("mac", "00:11:22:33:44:55"); ("username", "bob")].

Lemma start_needs_matching_device_witness :
  demo_info !! "status" = Some "reg" /\ iget demo_info "role" ∈ ["guest"] /\
  (Networks (demo_fw "f") = [] \/ exists net, net ∈ Networks (demo_fw "f") /\ Contains net (ParseIP (fun _ => []) "10.1.2.3") = true) /\
  default defaultTenantID (demo_info !! "tenant_id") = "1".
Proof.
  apply (start_needs_matching_device (fun _ => []) (fun _ => false) (fun _ => false) demo_env usernameFormatRegexps (demo_fw "f") demo_info 0
    [Radius "f:1813" "s" (fortigate_start (fun _ => []) demo_info)] (true, None)); [vm_compute; reflexivity|discriminate].
Defined.

(** *** Numbers *)

Lemma signed32_range neg ds : - 2 ^ 31 <= (signed32 neg ds).1 <= 2 ^ 31 - 1.
Proof. unfold signed32. cbn zeta. repeat (case_match || case_decide); cbn [fst]; lia. Qed.

Lemma ParseInt32_range s : - 2 ^ 31 <= (ParseInt32 s).1 <= 2 ^ 31 - 1.
Proof. unfold ParseInt32. repeat case_match; apply signed32_range. Qed.

Lemma cache_timeout_range fw timeout : - 2 ^ 31 <= timeout <= 2 ^ 31 - 1 -> - 2 ^ 31 <= cache_timeout fw timeout <= 2 ^ 31 - 1.
Proof.
  intros Ht. unfold cache_timeout, GetCacheTimeout. assert (H := ParseInt32_range (CacheTimeout fw)).
  destruct (ParseInt32 (CacheTimeout fw)) as [z [e|]]; cbn in H; repeat case_decide; try lia;
    (split; [apply Z.quot_le_lower_bound|apply Z.quot_le_upper_bound]; lia).
Qed.

(** The durations of the single sign-on never overflow: whatever number a
    request has for its timeout and whatever text the firewall has, the time to
    cache an update is in the range of 32 bits, and its nanoseconds are exact in
    64 bits. *)
Theorem cache_duration_exact fw body header i timeout :
  parseSsoRequest body header = Ret (inl (i, timeout)) ->
  - 2 ^ 31 <= timeout < 2 ^ 31 /\ - 2 ^ 31 <= cache_timeout fw timeout < 2 ^ 31 /\
  i64 (cache_timeout fw timeout * 1000000000) = cache_timeout fw timeout * 1000000000.
Proof.
  intros H. assert (Ht : - 2 ^ 31 <= timeout <= 2 ^ 31 - 1).
  { unfold parseSsoRequest in H. destruct body as [[b|]|]; [|done..]. injection H as H.
    destruct (validateInfo _); [done|]. injection H as _ <-. apply ParseInt32_range. }
  assert (Hc := cache_timeout_range fw timeout Ht). split; [lia|]. split; [lia|].
  apply wrapS_small; [lia|]. unfold is_s. lia.
Qed.

Definition demo_body : option info + string := inl (Some (<["timeout" := "99999999999"]> demo_info)).

Lemma cache_duration_exact_witness :
  - 2 ^ 31 <= 2147483647 < 2 ^ 31 /\ - 2 ^ 31 <= cache_timeout (demo_fw "f") 2147483647 < 2 ^ 31 /\
  i64 (cache_timeout (demo_fw "f") 2147483647 * 1000000000) = cache_timeout (demo_fw "f") 2147483647 * 1000000000.
Proof.
  apply (cache_duration_exact (demo_fw "f") demo_body EmptyString
    (<["stripped_username" := "bob"]> (<["tenant_id" := "1"]> (<["timeout" := "99999999999"]> demo_info)))).
  vm_compute. reflexivity.
Defined.

(** *** The cache of updates *)

Lemma StrContains_app a b c : StrContains (a +:+ b +:+ c) b = true.
Proof.
  induction a as [|d a IH].
  - change (StrContains (b +:+ c) b = true). destruct (b +:+ c) eqn:E; cbn [StrContains]; rewrite <- E, HasPrefix_app; done.
  - change (String d a +:+ b +:+ c) with (String d (a +:+ b +:+ c)). cbn [StrContains]. by rewrite IH, orb_true_r.
Qed.

Lemma key_has_mac fw i : StrContains (cache_key fw i) ("|mac|" +:+ iget i "mac") = true.
Proof.
  unfold cache_key.
  assert (E : "|mac|" +:+ iget i "mac" +:+ "|ip|" +:+ iget i "ip" +:+ "|username|" +:+ iget i "username" +:+ "|role|" +:+ iget i "role" =
    ("|mac|" +:+ iget i "mac") +:+ "|ip|" +:+ iget i "ip" +:+ "|username|" +:+ iget i "username" +:+ "|role|" +:+ iget i "role").
  { by rewrite str_app_assoc. }
  rewrite E. apply StrContains_app.
Qed.

Lemma str_app_inj_r (a b c : string) : a +:+ c = b +:+ c -> a = b.
Proof.
  revert b. induction a as [|d a IH]; intros [|e b] H; [done|..].
  - apply (f_equal String.length) in H. rewrite !str_length_app in H. cbn in H. lia.
  - apply (f_equal String.length) in H. rewrite !str_length_app in H. cbn in H. lia.
  - change (String d (a +:+ c) = String e (b +:+ c)) in H. injection H as -> H. f_equal. by apply IH.
Qed.

Lemma cache_key_inj fw1 fw2 i : cache_key fw1 i = cache_key fw2 i -> PfconfigHashNS fw1 = PfconfigHashNS fw2.
Proof. apply str_app_inj_r. Qed.

Section CacheLaws.
Context {C : Type} {EC : ExpiringCache C} {EL : ExpiringCacheLaws C}.

(** Deleting keys removes those of the test and keeps the others. *)
Lemma delete_list_get (p : string -> bool) (l : list string) (c : C) now k :
  ec_get now k (fold_left (fun c k => if p k then ec_delete k c else c) l c) =
    if p k && bool_decide (k ∈ l) then false else ec_get now k c.
Proof.
  revert c. induction l as [|k0 l IH]; intros c; [by rewrite andb_false_r|]. cbn [fold_left]. rewrite IH.
  destruct (p k) eqn:Ep; cbn [andb]; [|destruct (p k0) eqn:Ep0; [|done]].
  - destruct (decide (k ∈ l)) as [Hin|Hin].
    + rewrite !bool_decide_eq_true_2 by set_solver. done.
    + rewrite (bool_decide_eq_false_2 _ Hin). destruct (decide (k = k0)) as [->|Hne].
      * rewrite Ep, ec_get_delete, decide_True, bool_decide_eq_true_2 by set_solver. done.
      * rewrite bool_decide_eq_false_2 by set_solver. destruct (p k0); [|done]. by rewrite ec_get_delete, decide_False.
  - rewrite ec_get_delete, decide_False; [done|]. intros ->. congruence.
Qed.

Lemma delete_keys_keeps now now' p (c : C) k : p k = false -> ec_get now' k (delete_keys now p c) = ec_get now' k c.
Proof. intros Hp. unfold delete_keys. by rewrite delete_list_get, Hp. Qed.

(** At and after the time of the deletion. *)
Lemma delete_keys_removes now now' p (c : C) k : now <= now' -> p k = true -> ec_get now' k (delete_keys now p c) = false.
Proof.
  intros Hle Hp. unfold delete_keys. rewrite delete_list_get, Hp. cbn [andb]. case_bool_decide as Hin; [done|].
  destruct (ec_get now' k c) eqn:E; [|done]. exfalso. apply Hin, ec_items_spec. by eapply ec_get_mono.
Qed.

(** Once the flag is set every later firewall is told. *)
Lemma update_loop_sticky now i timeout fws (c : C) : (update_loop now i timeout true fws c).2 = fws.
Proof.
  revert c. induction fws as [|fw fws IH]; intros c; [done|]. cbn [update_loop].
  destruct (ShouldCacheUpdates fw); [destruct (ec_get _ _ _)|];
    match goal with |- context [update_loop _ _ _ true fws ?d] => specialize (IH d); destruct (update_loop now i timeout true fws d) end;
    cbn in *; congruence.
Qed.

(** A firewall without a cache makes all firewalls after it be told at every
    update, whatever is cached for them. *)
Lemma told_after_uncached now i timeout b fw fws (c : C) :
  ShouldCacheUpdates fw = false -> (update_loop now i timeout b (fw :: fws) c).2 = fw :: fws.
Proof.
  intros Hc. cbn [update_loop]. rewrite Hc. assert (H := update_loop_sticky now i timeout fws c).
  destruct (update_loop now i timeout true fws c). cbn in *. congruence.
Qed.

(** With one firewall that caches updates an update that was sent is not
    sent again while it is cached: every update for the same device, address,
    user and role that comes within the time to cache it is answered without
    telling the firewall. *)
Theorem cached_update_not_repeated now now' fw i timeout timeout' (c c1 : C) :
  ShouldCacheUpdates fw = true -> 0 < cache_timeout fw timeout < 2 ^ 31 ->
  update_loop now i timeout false [fw] c = (c1, [fw]) ->
  now <= now' <= now + cache_timeout fw timeout * 1000000000 ->
  (update_loop now' i timeout' false [fw] c1).2 = [].
Proof.
  intros Hc Ht H Hn. cbn [update_loop] in *. rewrite Hc in *. set (key := cache_key fw i) in *.
  set (p := fun k => negb (bool_decide (k = key)) && StrContains k ("|mac|" +:+ iget i "mac")) in *.
  assert (Hp : p key = false) by (unfold p; by rewrite bool_decide_eq_true_2).
  destruct (ec_get now key (delete_keys now p c)) eqn:E; [done|]. rewrite decide_True in H by lia. injection H as <-.
  rewrite delete_keys_keeps, ec_get_set, decide_True, bool_decide_eq_true_2; [done| |done|done].
  right. assert (E64 : i64 (cache_timeout fw timeout * 1000000000) = cache_timeout fw timeout * 1000000000).
  { apply wrapS_small; [lia|]. unfold is_s. lia. }
  lia.
Qed.

(** With two firewalls that cache updates nothing is ever suppressed: the
    turn of each firewall deletes the entry of the other one, because it
    deletes every key of the device but its own, so that after any update the
    next one, in the same order, tells both firewalls again however soon it
    comes. *)
Theorem two_caching_firewalls_defeat_the_cache now now' fw1 fw2 i timeout (c : C) :
  ShouldCacheUpdates fw1 = true -> ShouldCacheUpdates fw2 = true -> PfconfigHashNS fw1 <> PfconfigHashNS fw2 ->
  now <= now' ->
  (update_loop now' i timeout false [fw1; fw2] (update_loop now i timeout false [fw1; fw2] c).1).2 = [fw1; fw2].
Proof.
  intros H1 H2 Hne Hn. assert (Hk : cache_key fw1 i <> cache_key fw2 i) by (intros E; by apply cache_key_inj in E).
  set (p k0 := fun k => negb (bool_decide (k = k0)) && StrContains k ("|mac|" +:+ iget i "mac")).
  assert (Hgone : forall d now0, now0 <= now' -> ec_get now' (cache_key fw1 i) (delete_keys now0 (p (cache_key fw2 i)) d) = false).
  { intros d now0 Hle. apply delete_keys_removes; [done|]. unfold p. by rewrite bool_decide_eq_false_2, key_has_mac. }
  assert (Hfirst : ec_get now' (cache_key fw1 i) (update_loop now i timeout false [fw1; fw2] c).1 = false).
  { cbn [update_loop]. rewrite H1, H2. destruct (ec_get now (cache_key fw1 i) _);
      match goal with |- context [ec_get now (cache_key fw2 i) ?d] => destruct (ec_get now (cache_key fw2 i) d) end;
      try case_decide; cbn [fst]; rewrite ?ec_get_set, ?decide_False by done; by apply Hgone. }
  set (c1 := (update_loop now i timeout false [fw1; fw2] c).1) in *. cbn [update_loop]. rewrite H1, H2.
  rewrite delete_keys_keeps by (by rewrite bool_decide_eq_true_2). rewrite Hfirst.
  by destruct (ec_get now' (cache_key fw2 i) _).
Qed.
End CacheLaws.

Lemma cached_update_not_repeated_witness :
  (update_loop (C := gmap string (option Z)) 50 demo_info 7 false [demo_fw "f"]
     (update_loop 0 demo_info 0 false [demo_fw "f"] ∅).1).2 = [].
Proof.
  apply (cached_update_not_repeated (C := gmap string (option Z)) 0 50 (demo_fw "f") demo_info 0 7 ∅);
    [reflexivity|split; vm_compute; reflexivity|vm_compute; reflexivity|split; vm_compute; discriminate].
Defined.

Lemma two_caching_firewalls_defeat_the_cache_witness :
  (update_loop (C := gmap string (option Z)) 1 demo_info 0 false [demo_fw "f"; demo_fw "g"]
     (update_loop 0 demo_info 0 false [demo_fw "f"; demo_fw "g"] ∅).1).2 = [demo_fw "f"; demo_fw "g"].
Proof.
  apply (two_caching_firewalls_defeat_the_cache (C := gmap string (option Z)) 0 1 (demo_fw "f") (demo_fw "g") demo_info 0 ∅);
    [reflexivity|reflexivity|discriminate|lia].
Defined.

(** *** The format of user names *)

Inductive uvar := VStripped | VRealm | VUsername.

Definition uvar_key (x : uvar) : string :=
  match x with VStripped => "stripped_username" | VRealm => "realm" | VUsername => "username" end.
Definition uvar_text (x : uvar) : string :=
  match x with VStripped => "$username" | VRealm => "$realm" | VUsername => "$pf_username" end.

Global Instance uvar_eq_dec : EqDecision uvar.
Proof. solve_decision. Defined.

(** A format: texts and variables. *)
Abbreviation uformat := (list (string + uvar)).

Definition print_format (l : uformat) : string :=
  foldr (fun g r => match g with inl s => s | inr x => uvar_text x end +:+ r) EmptyString l.

Definition format_ok (l : uformat) : bool :=
  forallb (fun g => match g with inl s => no_char "$" s | inr _ => true end) l.

Definition subst_var (x : uvar) (v : string) (l : uformat) : uformat :=
  (fun g => match g with inr y => if decide (y = x) then inl v else inr y | inl s => inl s end) <$> l.

Definition eval_format (i : info) (l : uformat) : string :=
  foldr (fun g r => match g with inl s => s | inr x => iget i (uvar_key x) end +:+ r) EmptyString l.

(** The number of variables of a format. *)
Definition nvars (l : uformat) : nat := foldr (fun g n => match g with inl _ => n | inr _ => S n end) 0%nat l.

Section Formats.
Context (letter_table digit_table : Z -> bool).

(** No match of [pat] starts inside of [pre], whatever follows. *)
Definition inert (pat pre : string) : Prop := forall t, quiet (fun u => HasPrefix u pat) pre t = true.

Lemma quiet_app bad a b t : quiet bad (a +:+ b) t = quiet bad a (b +:+ t) && quiet bad b t.
Proof.
  induction a as [|c a IH]; [done|]. change (String c a +:+ b) with (String c (a +:+ b)). cbn [quiet].
  rewrite IH, andb_assoc. change (String c (a +:+ b) +:+ t) with (String c ((a +:+ b) +:+ t)).
  change (String c a +:+ b +:+ t) with (String c (a +:+ b +:+ t)). by rewrite str_app_assoc.
Qed.

Lemma inert_app pat a b : inert pat a -> inert pat b -> inert pat (a +:+ b).
Proof. intros Ha Hb t. by rewrite quiet_app, Ha, Hb. Qed.

Lemma inert_text x s : no_char "$" s = true -> inert (uvar_text x) s.
Proof.
  intros Hs t. induction s as [|c s IH]; [done|]. cbn [no_char] in Hs. apply andb_true_iff in Hs as [Hc%bool_decide_eq_true_1 Hs].
  cbn [quiet]. rewrite (IH Hs), andb_true_r. change (String c s +:+ t) with (String c (s +:+ t)).
  destruct x; cbn [uvar_text HasPrefix]; by rewrite bool_decide_eq_false_2.
Qed.

Lemma inert_var x y : x <> y -> inert (uvar_text x) (uvar_text y).
Proof. intros Hne t. by destruct x, y. Qed.

Lemma locate_skip pat pre s r : quiet (fun u => HasPrefix u pat) pre s = true ->
  re_locate (lit pat) s = r ->
  re_locate (lit pat) (pre +:+ s) = match r with Some (p, t) => Some (pre +:+ p, t) | None => None end.
Proof.
  intros Hq <-. induction pre as [|c pre IH].
  - change (EmptyString +:+ s) with s. by destruct (re_locate (lit pat) s) as [[p t]|].
  - cbn [quiet] in Hq. apply andb_true_iff in Hq as [Hc%negb_true_iff Hq].
    change (String c pre +:+ s) with (String c (pre +:+ s)) in *. cbn [re_locate]. rewrite (fails_lit _ _ Hc), IH by done.
    by destruct (re_locate (lit pat) s) as [[p t]|].
Qed.

Lemma locate_here pat t : re_locate (lit pat) (pat +:+ t) = Some (EmptyString, t).
Proof.
  assert (H := takes_lit pat t ∅ string (fun u _ => Some u) t eq_refl).
  destruct (pat +:+ t); cbn [re_locate]; by rewrite H.
Qed.

Lemma Expand_plain v pat : no_char "$" v = true -> Expand letter_table digit_table v pat [0; Z.of_nat (String.length pat)] ∅ = Ret v.
Proof.
  intros Hv. unfold Expand. destruct v as [|c v]; [done|]. cbn [String.length ExpandString]. by rewrite cut_at_none.
Qed.

Lemma locate_none x : re_locate (lit (uvar_text x)) EmptyString = None.
Proof. by destruct x. Qed.

(** One replacement substitutes one variable. *)
Lemma replace_print x v l : no_char "$" v = true -> format_ok l = true -> forall fuel pre,
  inert (uvar_text x) pre -> (nvars l < fuel)%nat ->
  replace_fuel letter_table digit_table fuel (uvar_text x) v (pre +:+ print_format l) = pre +:+ print_format (subst_var x v l).
Proof.
  intros Hv. induction l as [|g l IH]; intros Hok [|fuel] pre Hpre Hf; [lia| |lia|].
  - change (print_format []) with EmptyString. cbn [replace_fuel].
    rewrite (locate_skip _ pre EmptyString None) by (apply Hpre || apply locate_none). done.
  - cbn [format_ok forallb] in Hok. apply andb_true_iff in Hok as [Hg Hok].
    assert (Hn : (nvars l <= nvars (g :: l))%nat) by (destruct g; unfold nvars; cbn [foldr]; lia).
    assert (Hstep : forall s, inert (uvar_text x) s ->
      replace_fuel letter_table digit_table (S fuel) (uvar_text x) v (pre +:+ (s +:+ print_format l)) =
        pre +:+ (s +:+ print_format (subst_var x v l))).
    { intros s Hs. rewrite <- !str_app_assoc. apply (IH Hok); [by apply inert_app|lia]. }
    destruct g as [s|y]; [apply Hstep; by apply inert_text|]. cbn [subst_var fmap list_fmap].
    change (print_format (inr y :: l)) with (uvar_text y +:+ print_format l).
    destruct (decide (y = x)) as [->|Hne]; [|apply Hstep, inert_var; congruence].
    cbn [replace_fuel]. rewrite (locate_skip _ pre _ (Some (EmptyString, print_format l))) by (apply Hpre || apply locate_here).
    rewrite Expand_plain, str_app_nil_r by done.
    assert (H := IH Hok fuel EmptyString ltac:(by intros t) ltac:(unfold nvars in *; cbn [foldr] in Hf; lia)).
    change (EmptyString +:+ ?a) with a in H. by rewrite H.
Qed.

Lemma nvars_le l : (nvars l <= String.length (print_format l))%nat.
Proof.
  unfold nvars. induction l as [|[s|x] l IH]; [done|..]; cbn [foldr].
  - change (print_format (inl s :: l)) with (s +:+ print_format l). rewrite str_length_app. lia.
  - change (print_format (inr x :: l)) with (uvar_text x +:+ print_format l). rewrite str_length_app.
    destruct x; cbn [uvar_text String.length]; lia.
Qed.

Lemma ReplaceAllString_print x v l : no_char "$" v = true -> format_ok l = true ->
  ReplaceAllString letter_table digit_table (uvar_text x) v (print_format l) = print_format (subst_var x v l).
Proof.
  intros Hv Hok. assert (H := replace_print x v l Hv Hok (S (String.length (print_format l))) EmptyString ltac:(by intros t)).
  apply H. assert (Hn := nvars_le l). lia.
Qed.

Lemma subst_ok x v l : no_char "$" v = true -> format_ok l = true -> format_ok (subst_var x v l) = true.
Proof.
  intros Hv. unfold format_ok, subst_var. induction l as [|[s|y] l IH]; [done|..]; cbn; [|by case_decide; cbn; rewrite ?Hv; auto].
  intros [Hs H]%andb_true_iff. by rewrite Hs, IH.
Qed.

(** The replacements in a row, in any order of the variables. *)
Lemma replacements_print i xs l : Forall (fun x => no_char "$" (iget i (uvar_key x)) = true) xs -> format_ok l = true ->
  fold_left (fun u kr => ReplaceAllString letter_table digit_table kr.2 (iget i kr.1) u)
    ((fun x => (uvar_key x, uvar_text x)) <$> xs) (print_format l) =
  print_format (fold_left (fun l x => subst_var x (iget i (uvar_key x)) l) xs l).
Proof.
  revert l. induction xs as [|x xs IH]; intros l Hx Hok; [done|]. inversion_clear Hx as [|? ? H1 H2].
  cbn [fmap list_fmap fold_left fst snd]. rewrite ReplaceAllString_print by done. apply IH; [done|by apply subst_ok].
Qed.

Lemma subst_all_print i xs l : (forall x, inr x ∈ l -> x ∈ xs) ->
  print_format (fold_left (fun l x => subst_var x (iget i (uvar_key x)) l) xs l) = eval_format i l.
Proof.
  assert (Hnil : forall xs, fold_left (fun l x => subst_var x (iget i (uvar_key x)) l) xs [] = []) by (induction xs0; auto).
  assert (Hcons : forall xs g l, fold_left (fun l x => subst_var x (iget i (uvar_key x)) l) xs (g :: l) =
    match g with inl s => inl s | inr y => if decide (y ∈ xs) then inl (iget i (uvar_key y)) else inr y end ::
    fold_left (fun l x => subst_var x (iget i (uvar_key x)) l) xs l).
  { clear. induction xs as [|x xs IH]; intros g l; [by destruct g|]. cbn [fold_left]. cbn [subst_var fmap list_fmap].
    fold (subst_var x (iget i (uvar_key x)) l). rewrite IH. destruct g as [s|y]; [done|]. f_equal.
    destruct (decide (y = x)) as [->|Hne]; [by rewrite decide_True by set_solver|].
    destruct (decide (y ∈ xs)); [by rewrite decide_True by set_solver|by rewrite decide_False by set_solver]. }
  induction l as [|g l IH]; intros H; [by rewrite Hnil|]. rewrite Hcons.
  cbn [print_format eval_format foldr]. fold (print_format (fold_left (fun l x => subst_var x (iget i (uvar_key x)) l) xs l)).
  rewrite IH by set_solver. destruct g as [s|y]; [done|]. by rewrite decide_True by set_solver.
Qed.

(** The user name sent to a firewall is its configured format with the
    variables for the stripped user name, the realm (the default one if the
    request has none) and the full user name replaced by the values of the
    request, in whatever order Go iterates over the variables, provided that
    texts and values contain no dollar sign. *)
Theorem FormatUsername_substitutes fw i l xs :
  UsernameFormat fw = print_format l -> print_format l <> EmptyString -> format_ok l = true ->
  xs ≡ₚ [VStripped; VRealm; VUsername] ->
  (forall x, no_char "$" (iget (with_realm fw i) (uvar_key x)) = true) ->
  (FormatUsername letter_table digit_table ((fun x => (uvar_key x, uvar_text x)) <$> xs) fw i).2 =
    eval_format (with_realm fw i) l.
Proof.
  intros Hf Hne Hok Hp Hv. unfold FormatUsername. rewrite decide_False by congruence. cbn [snd]. rewrite Hf.
  rewrite replacements_print; [|by apply Forall_forall|done]. apply subst_all_print.
  intros x _. rewrite Hp. destruct x; set_solver.
Qed.
End Formats.

Lemma FormatUsername_substitutes_witness :
  (FormatUsername (fun _ => false) (fun _ => false) (reverse usernameFormatRegexps)
     (mkFirewall "f" [] [] EmptyString EmptyString "$realm/$username" "local" 1 (FortiGate EmptyString EmptyString))
     (<["stripped_username" := "bob"]> demo_info)).2 = "local/bob".
Proof.
  etrans.
  - apply (FormatUsername_substitutes (fun _ => false) (fun _ => false)
      (mkFirewall "f" [] [] EmptyString EmptyString "$realm/$username" "local" 1 (FortiGate EmptyString EmptyString))
      (<["stripped_username" := "bob"]> demo_info) [inr VRealm; inl "/"; inr VStripped] [VUsername; VRealm; VStripped]);
      [reflexivity|discriminate|reflexivity| |intros []; vm_compute; reflexivity].
    apply (Permutation_rev [VUsername; VRealm; VStripped]).
  - vm_compute. reflexivity.
Defined.

(** A replacement with a dollar sign is expanded, and part of the name is lost. *)
Lemma dollar_in_username_is_expanded :
  ReplaceAllString (fun _ => false) (fun _ => false) "$username" "bob$ad" "$username" = "bob".
Proof. vm_compute. reflexivity. Qed.

(** *** Panics *)

(** A payload null is a nil map, and setting the tenant in it panics. *)
Lemma null_payload_panics header : parseSsoRequest (inl None) header = Panic "assignment to entry in nil map".
Proof. done. Qed.

(** A user name that makes a URL unacceptable makes the Iboss request panic. *)
Lemma iboss_bad_url_panics ip6 e fw i timeout nac password port :
  fw_kind fw = Iboss nac password port -> e_url_ok e (iboss_url (PfconfigHashNS fw) port nac password "login" i) = false ->
  child_Start ip6 e fw i timeout = Panic nil_panic.
Proof. intros Hk Hu. unfold child_Start. rewrite Hk. unfold iboss_Start, http_request. by rewrite Hu. Qed.
