(* ===== verification/PfIpset.v ===== *)
(** The service of the IP sets (src/go/caddy/pfipset): the validation of its
    requests, the jobs they put into the queue of the worker, the reload from
    the database and the forwarding of requests to the other servers of the
    cluster.

    The IP sets of the kernel are behind the interface [Kernel]: testing, adding
    and deleting entries of named sets; errors of the kernel are ignored by the
    source.  There is one worker, so jobs are done in the order of the queue;
    handlers test the sets of the kernel as they are when they run. *)
From S2P Require Import Prelude NetIP Regex.
From Stdlib Require Import ZArith Lia Ascii.
From stdpp Require Import base gmap strings list.

Open Scope Z_scope.

(** ** Data *)

(** An entry: an address, with a MAC, or with a port and a protocol. *)
Record entry := mkEntry { en_ip : ip; en_ether : option string; en_port : option (Z * Z) }.

Definition ip_entry (x : ip) : entry := mkEntry x None None.

Record job := mkJob { Method : string; Set_ : string; Entry : entry }.

(** A set as the kernel lists it. *)
Record SetPolicy := mkSet { sp_Name : string; sp_TypeName : string; sp_Entries : list entry }.

Definition maxQueueSize : Z := 1000.
Definition maxWorkers : Z := 1.

(** ** The kernel *)

(** The kernel does not tell the two forms of an IPv4 address apart. *)
Definition ipkey (x : ip) : ip := if decide (To4 x = []) then x else To4 x.

Class Kernel (K : Type) := {
  k_type : string -> K -> option string;      (* the type of a set that exists *)
  k_test : string -> ip -> K -> bool;         (* Test of an address *)
  k_add : string -> entry -> K -> K;
  k_del : string -> entry -> K -> K
}.

Definition port_type : string := "hash:ip,port".

(** Sets of addresses; nothing is promised of sets of ports. *)
Class KernelLaws (K : Type) {KK : Kernel K} := {
  k_type_add : forall n m e k, k_type m (k_add n e k) = k_type m k;
  k_type_del : forall n m e k, k_type m (k_del n e k) = k_type m k;
  k_test_key : forall n x y k, ipkey x = ipkey y -> k_test n x k = k_test n y k;
  k_test_missing : forall n x k, k_type n k = None -> k_test n x k = false;
  k_test_add : forall n m x e k, k_type m k <> Some port_type -> is_Some (k_type n k) ->
    k_test m x (k_add n e k) = if decide (m = n /\ ipkey x = ipkey (en_ip e)) then true else k_test m x k;
  k_test_del : forall n m x e k, k_type m k <> Some port_type -> is_Some (k_type n k) ->
    k_test m x (k_del n e k) = if decide (m = n /\ ipkey x = ipkey (en_ip e)) then false else k_test m x k
}.

(** Sets as maps from addresses to entries. *)
Abbreviation gkernel := (gmap string (string * gmap (list Z) entry)).

Global Instance gmap_kernel : Kernel gkernel := {
  k_type n k := fst <$> k !! n;
  k_test n x k := match k !! n with Some (_, m) => bool_decide (is_Some (m !! ipkey x)) | None => false end;
  k_add n e k := alter (fun s => (s.1, <[ipkey (en_ip e) := e]> s.2)) n k;
  k_del n e k := alter (fun s => (s.1, delete (ipkey (en_ip e)) s.2)) n k
}.

Global Instance gmap_kernel_laws : KernelLaws gkernel.
Proof.
  split; cbn; intros.
  - destruct (decide (m = n)) as [->|Hne]; [rewrite lookup_alter_eq; by destruct (k !! n)|by rewrite lookup_alter_ne].
  - destruct (decide (m = n)) as [->|Hne]; [rewrite lookup_alter_eq; by destruct (k !! n)|by rewrite lookup_alter_ne].
  - by rewrite H.
  - by destruct (k !! n) as [[]|].
  - destruct (decide (m = n)) as [->|Hne]; [|rewrite lookup_alter_ne, decide_False by naive_solver; done].
    rewrite lookup_alter_eq. destruct (k !! n) as [[t s]|] eqn:E; [|by destruct H0]. cbn.
    destruct (decide (ipkey x = ipkey (en_ip e))) as [->|Hx]; [rewrite lookup_insert_eq, decide_True by done; by apply bool_decide_eq_true_2|].
    by rewrite lookup_insert_ne, decide_False by naive_solver.
  - destruct (decide (m = n)) as [->|Hne]; [|rewrite lookup_alter_ne, decide_False by naive_solver; done].
    rewrite lookup_alter_eq. destruct (k !! n) as [[t s]|] eqn:E; [|by destruct H0]. cbn.
    destruct (decide (ipkey x = ipkey (en_ip e))) as [->|Hx]; [rewrite lookup_delete_eq, decide_True by done; by apply bool_decide_eq_false_2|].
    by rewrite lookup_delete_ne, decide_False by naive_solver.
Qed.

(** doWork *)
Definition doWork {K : Type} {KK : Kernel K} (j : job) (k : K) : K :=
  let k := if decide (Method j = "Add") then k_add (Set_ j) (Entry j) k else k in
  if decide (Method j = "Del") then k_del (Set_ j) (Entry j) k else k.

(** The worker, over the jobs in the order of the channel. *)
Definition work {K : Type} {KK : Kernel K} (js : list job) (k : K) : K := fold_left (fun k j => doWork j k) js k.

(** ** Validation (utils.go) *)

Section Validation.
(** mac.NewFromString of go-utils *)
Context (NewFromString : string -> option string).

Definition validateMac (macStr : string) : option string := NewFromString macStr.
End Validation.

Definition is_letter (c : Ascii.ascii) : bool := in_class "a" "z" c || in_class "A" "Z" c.

Definition validateType (t : string) : option string :=
  match re_find (Plus (Chr is_letter)) t with Some _ => Some t | None => None end.

Definition validateRoleId (roleid : string) : option string :=
  match re_find (Plus (Chr is_digit)) roleid with Some _ => Some roleid | None => None end.

(** strconv.ParseUint(s, 10, 16) of a text of digits, its error ignored. *)
Definition ParseUint16 (s : string) : Z :=
  match digits 0 s with
  | Some v => if decide (v <= 65535) then v else 65535
  | None => 0
  end.

Definition port_re : re := seqs [Grp 1 (Alt (lit "udp") (lit "tcp")); lit ":"; Grp 2 digits_re].

(** The port and the protocol. *)
Definition validatePort (portSpec : string) : option (Z * Z) :=
  match re_find port_re portSpec with
  | None => None
  | Some matches =>
      let proto := if decide (group 1 matches = "tcp") then 6
                   else if decide (group 1 matches = "udp") then 17 else 0 in
      Some (u16 (ParseUint16 (group 2 matches)), proto)
  end.

(** ** Requests *)

Record PostOptions := mkPost {
  p_Network : string; p_RoleId : string; p_Ip : string; p_Port : string; p_Mac : string; p_Type : string
}.

Inductive reply := ACK | NAK.

(** What a request does: jobs for the worker, connections that are dropped, and
    its reply; a body that is not JSON panics. *)
Record effect := mkEffect { jobs : list job; dropped : list ip; answer : reply }.

Definition nak : effect := mkEffect [] [] NAK.

Section Handlers.
Context (ip6 : string -> ip) (ip6s : ip -> string) (NewFromString : string -> option string).
(** the sets as they were listed last, and the answers of Test *)
Context (ListALL : list SetPolicy) (test : string -> ip -> bool).

(** The body is unmarshalled; [None]: the error, which panics. *)
Definition with_body (body : option PostOptions) (h : PostOptions -> effect) : go effect :=
  match body with Some o => Ret (h o) | None => Panic "json" end.

(** net.ParseIP and its test. *)
Definition with_ip (s : string) (h : ip -> effect) : effect :=
  let x := ParseIP ip6 s in if decide (x = []) then nak else h x.

Definition with_some {A : Type} (o : option A) (h : A -> effect) : effect :=
  match o with Some a => h a | None => nak end.

Definition handleAddIp (setName : string) (body : option PostOptions) : go effect :=
  with_body body (fun o => with_ip (p_Ip o) (fun Ip =>
    mkEffect [mkJob "Add" setName (ip_entry Ip)] [] ACK)).

Definition handleRemoveIp (setName : string) (body : option PostOptions) : go effect :=
  with_body body (fun o => with_ip (p_Ip o) (fun Ip =>
    mkEffect [mkJob "Del" setName (ip_entry Ip)] [] ACK)).

Definition handlePassthrough (body : option PostOptions) : go effect :=
  with_body body (fun o => with_ip (p_Ip o) (fun Ip => with_some (validatePort (p_Port o)) (fun pp =>
    mkEffect [mkJob "Add" "pfsession_passthrough" (mkEntry Ip None (Some pp))] [] ACK))).

Definition handleIsolationPassthrough (body : option PostOptions) : go effect :=
  with_body body (fun o => with_ip (p_Ip o) (fun Ip => with_some (validatePort (p_Port o)) (fun pp =>
    mkEffect [mkJob "Add" "pfsession_passthrough" (mkEntry Ip None (Some pp))] [] ACK))).

(** mac2ip: the entries of the listed set with the MAC. *)
Definition mac2ip (Mac : string) (v : SetPolicy) : list entry :=
  List.filter (fun u => bool_decide (en_ether u = Some Mac)) (sp_Entries v).

Definition skipped (v : SetPolicy) : bool := bool_decide (sp_TypeName v = port_type).

Definition IPSEThandleLayer2 (Ip : ip) (Mac Network Type_ RoleId : string) : list job :=
  concat ((fun v =>
    if skipped v then []
    else (if test (sp_Name v) Ip then [mkJob "Del" (sp_Name v) (ip_entry Ip)] else []) ++
         ((fun e => mkJob "Del" (sp_Name v) e) <$> mac2ip Mac v)) <$> ListALL) ++
  mkJob "Add" ("pfsession_" +:+ Type_ +:+ "_" +:+ Network) (mkEntry Ip (Some Mac) None) ::
  (if decide (Type_ = "Reg") then [mkJob "Add" ("PF-iL2_ID" +:+ RoleId +:+ "_" +:+ Network) (ip_entry Ip)] else []).

Definition IPSEThandleMarkIpL2 (Ip : ip) (Network RoleId : string) : list job :=
  [mkJob "Add" ("PF-iL2_ID" +:+ RoleId +:+ "_" +:+ Network) (ip_entry Ip)].

Definition IPSEThandleMarkIpL3 (Ip : ip) (Network RoleId : string) : list job :=
  [mkJob "Add" ("PF-iL3_ID" +:+ RoleId +:+ "_" +:+ Network) (ip_entry Ip)].

Definition IPSEThandleLayer3 (Ip : ip) (Network Type_ RoleId : string) : list job :=
  concat ((fun v =>
    if skipped v then []
    else if test (sp_Name v) Ip then [mkJob "Del" (sp_Name v) (ip_entry Ip)] else []) <$> ListALL) ++
  mkJob "Add" ("pfsession_" +:+ Type_ +:+ "_" +:+ Network) (ip_entry Ip) ::
  (if decide (Type_ = "Reg") then [mkJob "Add" ("PF-iL3_ID" +:+ RoleId +:+ "_" +:+ Network) (ip_entry Ip)] else []).

Definition handleLayer2 (body : option PostOptions) : go effect :=
  with_body body (fun o => with_ip (p_Ip o) (fun Ip => with_some (validateType (p_Type o)) (fun Type_ =>
    with_ip (p_Network o) (fun Network => with_some (validateRoleId (p_RoleId o)) (fun RoleId =>
    with_some (validateMac NewFromString (p_Mac o)) (fun Mac =>
      mkEffect (IPSEThandleLayer2 Ip Mac (IPString ip6s Network) Type_ RoleId) [] ACK)))))).

Definition handleMarkIpL2 (body : option PostOptions) : go effect :=
  with_body body (fun o => with_ip (p_Ip o) (fun Ip => with_ip (p_Network o) (fun Network =>
    with_some (validateRoleId (p_RoleId o)) (fun RoleId =>
      mkEffect (IPSEThandleMarkIpL2 Ip (IPString ip6s Network) RoleId) [] ACK)))).

Definition handleMarkIpL3 (body : option PostOptions) : go effect :=
  with_body body (fun o => with_ip (p_Ip o) (fun Ip => with_ip (p_Network o) (fun Network =>
    with_some (validateRoleId (p_RoleId o)) (fun RoleId =>
      mkEffect (IPSEThandleMarkIpL3 Ip (IPString ip6s Network) RoleId) [] ACK)))).

Definition handleLayer3 (body : option PostOptions) : go effect :=
  with_body body (fun o => with_ip (p_Ip o) (fun Ip => with_some (validateType (p_Type o)) (fun Type_ =>
    with_ip (p_Network o) (fun Network => with_some (validateRoleId (p_RoleId o)) (fun RoleId =>
      mkEffect (IPSEThandleLayer3 Ip (IPString ip6s Network) Type_ RoleId) [] ACK))))).

Definition handleUnmarkMac (body : option PostOptions) : go effect :=
  with_body body (fun o => with_some (validateMac NewFromString (p_Mac o)) (fun Mac =>
    mkEffect (concat ((fun v => (fun e => mkJob "Del" (sp_Name v) e) <$> mac2ip Mac v) <$> ListALL))
             (concat ((fun v => en_ip <$> mac2ip Mac v) <$> ListALL)) ACK)).

(** The sets an address is found in. *)
Definition found_in (Ip : ip) : list SetPolicy :=
  List.filter (fun v => negb (skipped v) && test (sp_Name v) Ip) ListALL.

Definition handleUnmarkIp (body : option PostOptions) : go effect :=
  with_body body (fun o => with_ip (p_Ip o) (fun Ip =>
    mkEffect ((fun v => mkJob "Del" (sp_Name v) (ip_entry Ip)) <$> found_in Ip) ((fun _ => Ip) <$> found_in Ip) ACK)).

(** The MAC that a text without one becomes. *)
Definition zero_mac : string := string_of_bytes [0; 0; 0; 0; 0; 0].

(** initIPSet: the rows of the registered inline devices (MAC, address, role),
    until a row that cannot be scanned ([None]); [networks] in the order of the
    iteration. *)
Fixpoint row_jobs (networks : list (IPNet * string)) (Mac IpStr NodeId : string) : list job :=
  match networks with
  | [] => []
  | (k, v) :: networks' =>
      let x := ParseIP ip6 IpStr in
      if Contains k x then
        let Network := IPString ip6s (net_IP k) in
        (if decide (v = "inlinel2") then IPSEThandleLayer2 x Mac Network "Reg" NodeId ++ IPSEThandleMarkIpL2 x Network NodeId else []) ++
        (if decide (v = "inlinel3") then IPSEThandleLayer3 x Network "Reg" NodeId ++ IPSEThandleMarkIpL3 x Network NodeId else [])
      else row_jobs networks' Mac IpStr NodeId
  end.

Fixpoint initIPSet (networks : list (IPNet * string)) (rows : list (option (string * string * string))) : list job :=
  match rows with
  | [] => []
  | None :: _ => []
  | Some (Mac, IpStr, NodeId) :: rows' =>
      row_jobs networks (default zero_mac (NewFromString Mac)) IpStr NodeId ++ initIPSet networks rows'
  end.

(** getClusterMembersIps: the configured servers whose address is not one of
    this host. *)
Definition getClusterMembersIps (configured : list string) (local_addrs : list ip) : list ip :=
  List.filter (fun x => negb (existsb (fun l => IPEqual x l) local_addrs)) (ParseIP ip6 <$> configured).

(** updateClusterRequest: the requests to the members, each a host and a path. *)
Definition updateClusterRequest (Local path : string) (members : list ip) : list (string * string) :=
  if decide (Local <> "0") then []
  else (fun x => (IPString ip6s x, path +:+ "?local=1")) <$> members.

(** detectType over the IPv4 addresses of the interfaces that are not single
    hosts and the configured networks: a network with its type. *)
Record NetworkConf := mkNetworkConf { nc_key : string; nc_DhcpStart : string; nc_DhcpEnd : string; nc_NextHop : string; nc_Netmask : string; nc_Type : string }.

Definition network_matches (NetIP : IPNet) (c : NetworkConf) : bool :=
  (Contains NetIP (ParseIP ip6 (nc_DhcpStart c)) && Contains NetIP (ParseIP ip6 (nc_DhcpEnd c))) ||
  Contains NetIP (ParseIP ip6 (nc_NextHop c)).

Definition detectType (addresses : list (ip * IPNet)) (confs : list NetworkConf) : list (IPNet * string) :=
  concat ((fun a : ip * IPNet =>
    if decide (To4 a.1 = []) then []
    else if forallb (fun b => b =? 255) (net_Mask a.2) then []
    else (fun c => (mkIPNet (ParseIP ip6 (nc_key c)) (ParseIP ip6 (nc_Netmask c)), nc_Type c)) <$>
           List.filter (network_matches a.2) confs) <$> addresses).
End Handlers.

(** ** Theorems *)

(** *** The worker *)

(** What a job does to the membership of an address in a set. *)
Definition effect_on (m : string) (x : ip) (j : job) : option bool :=
  if decide (Set_ j = m /\ ipkey (en_ip (Entry j)) = ipkey x) then
    if decide (Method j = "Add") then Some true else if decide (Method j = "Del") then Some false else None
  else None.

Definition after (m : string) (x : ip) (js : list job) (b : bool) : bool :=
  fold_left (fun b j => default b (effect_on m x j)) js b.

Lemma after_app m x js js' b : after m x (js ++ js') b = after m x js' (after m x js b).
Proof. unfold after. apply fold_left_app. Qed.

(** Jobs that do not mention the address in the set. *)
Lemma after_other m x js b : Forall (fun j => effect_on m x j = None) js -> after m x js b = b.
Proof. induction 1 as [|j js Hj _ IH] in b |- *; [done|]. cbn. rewrite Hj. apply IH. Qed.

(** Deletions: the address is gone if one of them mentions it. *)
Lemma after_dels m x js b : Forall (fun j => Method j = "Del") js ->
  after m x js b = b && forallb (fun j => bool_decide (effect_on m x j = None)) js.
Proof.
  induction 1 as [|j js Hj _ IH] in b |- *; [by destruct b|]. cbn [after fold_left forallb]. fold (after m x js (default b (effect_on m x j))).
  rewrite IH. unfold effect_on. case_decide; cbn; [|done]. rewrite Hj. cbn. by rewrite andb_false_r.
Qed.

Section Worker.
Context {K : Type} {KK : Kernel K} {KL : KernelLaws K}.

Lemma doWork_type j n (k : K) : k_type n (doWork j k) = k_type n k.
Proof. unfold doWork. repeat case_decide; by rewrite ?k_type_del, ?k_type_add. Qed.

Lemma work_type js n (k : K) : k_type n (work js k) = k_type n k.
Proof. unfold work. revert k. induction js as [|j js IH]; intros k; [done|]. cbn. by rewrite IH, doWork_type. Qed.

(** The sets after a sequence of jobs, for sets that exist. *)
Lemma work_test js m x (k : K) : Forall (fun j => is_Some (k_type (Set_ j) k)) js -> k_type m k <> Some port_type ->
  k_test m x (work js k) = after m x js (k_test m x k).
Proof.
  intros Hs Hm. unfold work, after. revert k Hs Hm. induction js as [|j js IH]; intros k Hs Hm; [done|].
  inversion_clear Hs as [|? ? Hj Hs']. cbn [fold_left]. rewrite IH; [|eapply Forall_impl; [exact Hs'|]; intros; by rewrite doWork_type|by rewrite doWork_type].
  f_equal. unfold doWork, effect_on.
  destruct (decide (Method j = "Add")) as [Ha|Ha].
  - rewrite (decide_False (P := Method j = "Del")) by congruence. rewrite k_test_add by done.
    repeat case_decide; cbn; naive_solver.
  - destruct (decide (Method j = "Del")) as [Hd|Hd].
    + rewrite k_test_del by done. repeat case_decide; cbn; naive_solver.
    + by case_decide.
Qed.
End Worker.

(** *** Marking a device *)

Section Marking.
Context {K : Type} {KK : Kernel K} {KL : KernelLaws K}.
Context (ListALL : list SetPolicy) (k : K).
(** The last listing has all sets of the kernel with their types. *)
Hypothesis listed : forall n t, k_type n k = Some t <-> exists v, v ∈ ListALL /\ sp_Name v = n /\ sp_TypeName v = t.

Abbreviation test := (fun n x => k_test n x k).

(** The deletions for an address, and for further entries of each set. *)
Definition dels (Ip : ip) (extra : SetPolicy -> list entry) : list job :=
  concat ((fun v => if skipped v then []
                    else (if k_test (sp_Name v) Ip k then [mkJob "Del" (sp_Name v) (ip_entry Ip)] else []) ++
                         ((fun e => mkJob "Del" (sp_Name v) e) <$> extra v)) <$> ListALL).

Lemma dels_in Ip extra j : j ∈ dels Ip extra <-> exists v e, v ∈ ListALL /\ skipped v = false /\
  j = mkJob "Del" (sp_Name v) e /\ (k_test (sp_Name v) Ip k = true /\ e = ip_entry Ip \/ e ∈ extra v).
Proof.
  unfold dels. rewrite list_elem_of_In, in_concat. split.
  - intros (l & Hl & Hj). apply list_elem_of_In, list_elem_of_fmap in Hl as (v & -> & Hv).
    destruct (skipped v) eqn:Es; [done|]. apply list_elem_of_In, elem_of_app in Hj as [Hj|Hj].
    + destruct (k_test (sp_Name v) Ip k) eqn:Et; [|by apply elem_of_nil in Hj].
      apply list_elem_of_singleton in Hj as ->. exists v, (ip_entry Ip). naive_solver.
    + apply list_elem_of_fmap in Hj as (e & -> & He). exists v, e. naive_solver.
  - intros (v & e & Hv & Hs & -> & He). eexists. split; [apply list_elem_of_In, list_elem_of_fmap; exists v; by split|].
    rewrite Hs. apply list_elem_of_In, elem_of_app. destruct He as [[-> ->]|He]; [left; by apply list_elem_of_singleton|].
    right. apply list_elem_of_fmap. eauto.
Qed.

(** An address among the further entries of the set [m]. *)
Definition mentioned (extra : SetPolicy -> list entry) (m : string) (x : ip) : Prop :=
  exists v e, v ∈ ListALL /\ skipped v = false /\ sp_Name v = m /\ e ∈ extra v /\ ipkey (en_ip e) = ipkey x.

Lemma after_dels_gone Ip extra m x : k_type m k <> Some port_type ->
  ipkey x = ipkey Ip \/ mentioned extra m x -> after m x (dels Ip extra) (k_test m x k) = false.
Proof.
  intros Hm Hx. rewrite after_dels by (apply Forall_forall; by intros j (v & e & _ & _ & -> & _)%dels_in).
  destruct (k_test m x k) eqn:Et; [|done]. cbn [andb]. apply not_true_iff_false. rewrite forallb_forall. intros H.
  assert (Hj : exists j, j ∈ dels Ip extra /\ effect_on m x j = Some false).
  { destruct Hx as [Hx|(v & e & Hv & Hs & <- & He & Hk)].
    - destruct (k_type m k) as [t|] eqn:Ety; [|by rewrite k_test_missing in Et].
      apply listed in Ety as (v & Hv & <- & <-). exists (mkJob "Del" (sp_Name v) (ip_entry Ip)). split.
      + apply dels_in. exists v, (ip_entry Ip). split_and!; [done|apply bool_decide_eq_false; congruence|done|].
        left. split; [|done]. rewrite <- Et. by apply k_test_key.
      + unfold effect_on. by rewrite decide_True.
    - exists (mkJob "Del" (sp_Name v) e). split; [apply dels_in; exists v, e; naive_solver|].
      unfold effect_on. by rewrite decide_True. }
  destruct Hj as (j & Hin & Hj). specialize (H j (proj1 (list_elem_of_In _ _) Hin)).
  apply bool_decide_eq_true in H. congruence.
Qed.

Lemma after_dels_kept Ip extra m x : ipkey x <> ipkey Ip -> ~ mentioned extra m x ->
  after m x (dels Ip extra) (k_test m x k) = k_test m x k.
Proof.
  intros Hx Hm. apply after_other, Forall_forall. intros j (v & e & Hv & Hs & -> & He)%dels_in. unfold effect_on. cbn.
  rewrite decide_False; [done|]. intros [<- Hk]. destruct He as [[_ ->]|He]; [by apply Hx|]. apply Hm. by exists v, e.
Qed.

Lemma dels_exist Ip extra : Forall (fun j => is_Some (k_type (Set_ j) k)) (dels Ip extra).
Proof.
  apply Forall_forall. intros j (v & e & Hv & _ & -> & _)%dels_in. exists (sp_TypeName v). apply listed. eauto.
Qed.

(** Marking: deletions, then the set of the status and perhaps that of the role. *)
Lemma marking Ip extra S1 e1 S2 (reg : bool) :
  is_Some (k_type S1 k) -> (reg = true -> is_Some (k_type S2 k)) -> ipkey (en_ip e1) = ipkey Ip ->
  let k' := work (dels Ip extra ++ mkJob "Add" S1 e1 :: if reg then [mkJob "Add" S2 (ip_entry Ip)] else []) k in
  (forall m, k_type m k <> Some port_type -> k_test m Ip k' = bool_decide (m = S1 \/ reg = true /\ m = S2)) /\
  (forall m x, k_type m k <> Some port_type -> ipkey x <> ipkey Ip ->
     (mentioned extra m x -> k_test m x k' = false) /\ (~ mentioned extra m x -> k_test m x k' = k_test m x k)).
Proof.
  intros H1 H2 He k'.
  assert (E : forall m x, k_type m k <> Some port_type -> k_test m x k' =
    after m x (mkJob "Add" S1 e1 :: if reg then [mkJob "Add" S2 (ip_entry Ip)] else []) (after m x (dels Ip extra) (k_test m x k))).
  { intros m x Hm. subst k'. rewrite work_test; [by rewrite after_app|apply Forall_app; split; [apply dels_exist|]|done].
    constructor; [done|]. destruct reg; repeat constructor; auto. }
  split.
  - intros m Hm. rewrite E, after_dels_gone by auto. unfold after, effect_on. destruct reg; cbn;
      repeat (case_decide; cbn); try case_bool_decide; naive_solver.
  - intros m x Hm Hx.
    assert (Hno : forall b, after m x (mkJob "Add" S1 e1 :: if reg then [mkJob "Add" S2 (ip_entry Ip)] else []) b = b).
    { intros b. apply after_other, Forall_forall. intros j Hj.
      assert (Hji : ipkey (en_ip (Entry j)) = ipkey Ip).
      { apply elem_of_cons in Hj as [->|Hj]; [done|]. destruct reg; [by apply list_elem_of_singleton in Hj as ->|by apply elem_of_nil in Hj]. }
      unfold effect_on. rewrite decide_False; [done|]. intros [_ Hk]. congruence. }
    rewrite E, Hno by done. split; intros Hmen; [by apply after_dels_gone; auto|by apply after_dels_kept].
Qed.

Lemma layer3_jobs Ip Network Type_ RoleId :
  IPSEThandleLayer3 ListALL test Ip Network Type_ RoleId =
  dels Ip (fun _ => []) ++ mkJob "Add" ("pfsession_" +:+ Type_ +:+ "_" +:+ Network) (ip_entry Ip) ::
    if bool_decide (Type_ = "Reg") then [mkJob "Add" ("PF-iL3_ID" +:+ RoleId +:+ "_" +:+ Network) (ip_entry Ip)] else [].
Proof.
  unfold IPSEThandleLayer3, dels. f_equal; [|f_equal; by case_decide; [rewrite bool_decide_eq_true_2|rewrite bool_decide_eq_false_2]].
  f_equal. apply list_fmap_ext. intros i v _. destruct (skipped v); [done|]. by rewrite app_nil_r.
Qed.

Lemma layer2_jobs Ip Mac Network Type_ RoleId :
  IPSEThandleLayer2 ListALL test Ip Mac Network Type_ RoleId =
  dels Ip (mac2ip Mac) ++ mkJob "Add" ("pfsession_" +:+ Type_ +:+ "_" +:+ Network) (mkEntry Ip (Some Mac) None) ::
    if bool_decide (Type_ = "Reg") then [mkJob "Add" ("PF-iL2_ID" +:+ RoleId +:+ "_" +:+ Network) (ip_entry Ip)] else [].
Proof.
  unfold IPSEThandleLayer2, dels. f_equal. f_equal. by case_decide; [rewrite bool_decide_eq_true_2|rewrite bool_decide_eq_false_2].
Qed.

(** C13.  Marking a device in a layer 3 network, when the worker has no other job,
    the last listing has all sets of the kernel, the set of its status and, for a
    registered device, that of its role exist, and the kernel does what it is asked
    to for a set that exists: its address is then in exactly the set of its status
    and, when it is registered, the set of its role, and in no other set of
    addresses; all other addresses stay in their sets.
    [overtaken_worker_leaves_two_sets] below shows a worker that has other jobs. *)
Theorem layer3_device_in_its_sets Ip Network Type_ RoleId :
  let S1 := "pfsession_" +:+ Type_ +:+ "_" +:+ Network in
  let S2 := "PF-iL3_ID" +:+ RoleId +:+ "_" +:+ Network in
  is_Some (k_type S1 k) -> (Type_ = "Reg" -> is_Some (k_type S2 k)) ->
  let k' := work (IPSEThandleLayer3 ListALL test Ip Network Type_ RoleId) k in
  (forall m, k_type m k <> Some port_type -> k_test m Ip k' = bool_decide (m = S1 \/ Type_ = "Reg" /\ m = S2)) /\
  (forall m x, k_type m k <> Some port_type -> ipkey x <> ipkey Ip -> k_test m x k' = k_test m x k).
Proof.
  intros S1 S2 H1 H2 k'. subst k'. rewrite layer3_jobs.
  destruct (marking Ip (fun _ => []) S1 (ip_entry Ip) S2 (bool_decide (Type_ = "Reg")) H1) as [Ha Hb]; [by intros H%bool_decide_eq_true; auto|done|]. split.
  - intros m Hm. etrans; [exact (Ha m Hm)|]. apply bool_decide_ext. by rewrite bool_decide_eq_true.
  - intros m x Hm Hx. apply (Hb m x Hm Hx). intros (v & e & _ & _ & _ & He & _). by apply elem_of_nil in He.
Qed.

(** Marking a device in a layer 2 network, done when the queue of the
    worker is empty, moves its address likewise into exactly the sets of its
    status and role, and takes every other address that a listed set has for
    the MAC of the device out of that set. *)
Theorem layer2_device_in_its_sets Ip Mac Network Type_ RoleId :
  let S1 := "pfsession_" +:+ Type_ +:+ "_" +:+ Network in
  let S2 := "PF-iL2_ID" +:+ RoleId +:+ "_" +:+ Network in
  is_Some (k_type S1 k) -> is_Some (k_type S2 k) ->
  let k' := work (IPSEThandleLayer2 ListALL test Ip Mac Network Type_ RoleId) k in
  (forall m, k_type m k <> Some port_type -> k_test m Ip k' = bool_decide (m = S1 \/ Type_ = "Reg" /\ m = S2)) /\
  (forall v e, v ∈ ListALL -> sp_TypeName v <> port_type -> e ∈ mac2ip Mac v -> ipkey (en_ip e) <> ipkey Ip ->
     k_test (sp_Name v) (en_ip e) k' = false).
Proof.
  intros S1 S2 H1 H2 k'. subst k'. rewrite layer2_jobs.
  destruct (marking Ip (mac2ip Mac) S1 (mkEntry Ip (Some Mac) None) S2 (bool_decide (Type_ = "Reg")) H1 (fun _ => H2) eq_refl) as [Ha Hb]. split.
  - intros m Hm. etrans; [exact (Ha m Hm)|]. apply bool_decide_ext. by rewrite bool_decide_eq_true.
  - intros v e Hv Ht He Hne. assert (Hty : k_type (sp_Name v) k = Some (sp_TypeName v)) by (apply listed; eauto).
    apply (Hb (sp_Name v) (en_ip e)); [congruence|done|]. exists v, e. split_and!; [done|by apply bool_decide_eq_false|done..].
Qed.

(** A request that overtakes the worker leaves a device in two sets: when
    a device that is in no set is registered, and before the worker has done
    the jobs of that request a second one marks it as unregistered, the test of
    the second finds nothing to delete, and in the end the address is both in
    the set of registered and in that of unregistered devices. *)
Theorem overtaken_worker_leaves_two_sets Ip Network RoleId :
  let Reg := "pfsession_Reg_" +:+ Network in let Unreg := "pfsession_Unreg_" +:+ Network in
  let S2 := "PF-iL3_ID" +:+ RoleId +:+ "_" +:+ Network in
  is_Some (k_type Reg k) -> is_Some (k_type Unreg k) -> is_Some (k_type S2 k) ->
  k_type Reg k <> Some port_type -> k_type Unreg k <> Some port_type ->
  (forall m, k_type m k <> Some port_type -> k_test m Ip k = false) ->
  let k' := work (IPSEThandleLayer3 ListALL test Ip Network "Reg" RoleId ++
                  IPSEThandleLayer3 ListALL test Ip Network "Unreg" RoleId) k in
  k_test Reg Ip k' = true /\ k_test Unreg Ip k' = true.
Proof.
  intros Reg Unreg S2 H1 H2 H3 Hp1 Hp2 Hno k'.
  assert (Hnil : dels Ip (fun _ => []) = []).
  { apply elem_of_nil_inv. intros j (v & e & Hv & Hs & -> & [[Ht _]|He])%dels_in; [|by apply elem_of_nil in He].
    rewrite Hno in Ht; [done|]. apply bool_decide_eq_false in Hs. intros E. apply Hs.
    assert (Hty : k_type (sp_Name v) k = Some (sp_TypeName v)) by (apply listed; eauto). congruence. }
  assert (Hok : Forall (fun j => is_Some (k_type (Set_ j) k))
    (mkJob "Add" Reg (ip_entry Ip) :: mkJob "Add" S2 (ip_entry Ip) :: [mkJob "Add" Unreg (ip_entry Ip)])) by (repeat constructor; done).
  assert (E : k' = work [mkJob "Add" Reg (ip_entry Ip); mkJob "Add" S2 (ip_entry Ip); mkJob "Add" Unreg (ip_entry Ip)] k).
  { subst k'. by rewrite !layer3_jobs, Hnil. }
  rewrite E, !work_test by done. unfold after, effect_on. cbn. split.
  - rewrite decide_True by done. repeat case_decide; done.
  - rewrite (decide_True (P := Unreg = Unreg /\ _)) by done. done.
Qed.
End Marking.

(** *** A concrete kernel *)

(** The kernel with the listed sets and their entries. *)
Definition kernel_of (l : list SetPolicy) : gkernel :=
  list_to_map ((fun v => (sp_Name v, (sp_TypeName v, list_to_map ((fun e => (ipkey (en_ip e), e)) <$> sp_Entries v)))) <$> l).

Lemma kernel_of_listed l : NoDup (sp_Name <$> l) -> forall n t,
  k_type n (kernel_of l) = Some t <-> exists v, v ∈ l /\ sp_Name v = n /\ sp_TypeName v = t.
Proof.
  intros Hn n t. cbn. unfold kernel_of. rewrite fmap_Some. split.
  - intros ([t' s] & H & ->). apply elem_of_list_to_map_2, list_elem_of_fmap in H as (v & [= -> -> ->] & Hv). eauto.
  - intros (v & Hv & <- & <-).
    exists (sp_TypeName v, list_to_map ((fun e => (ipkey (en_ip e), e)) <$> sp_Entries v)). split; [|done].
    apply elem_of_list_to_map_1; [rewrite <- list_fmap_compose; exact Hn|]. apply list_elem_of_fmap. by exists v.
Qed.

Definition demo_ip : ip := [10; 0; 0; 5].
Definition demo_sets : list SetPolicy :=
  [mkSet "pfsession_Reg_10.0.0.0" "bitmap:ip,mac" [mkEntry [10; 0; 0; 9] (Some "m") None];
   mkSet "pfsession_Unreg_10.0.0.0" "bitmap:ip,mac" [mkEntry demo_ip (Some "m") None];
   mkSet "PF-iL2_ID3_10.0.0.0" "hash:ip" []; mkSet "PF-iL3_ID3_10.0.0.0" "hash:ip" []].

Lemma demo_sets_listed n t : k_type n (kernel_of demo_sets) = Some t <->
  exists v, v ∈ demo_sets /\ sp_Name v = n /\ sp_TypeName v = t.
Proof. apply kernel_of_listed. apply (bool_decide_unpack _). vm_compute. exact I. Qed.

Lemma demo_sets_exist : is_Some (k_type "pfsession_Reg_10.0.0.0" (kernel_of demo_sets)) /\
  is_Some (k_type "PF-iL2_ID3_10.0.0.0" (kernel_of demo_sets)) /\ is_Some (k_type "PF-iL3_ID3_10.0.0.0" (kernel_of demo_sets)).
Proof. split_and!; eexists; vm_compute; reflexivity. Qed.

Lemma layer3_device_in_its_sets_witness :
  k_test "pfsession_Reg_10.0.0.0" demo_ip (work (IPSEThandleLayer3 demo_sets (fun n x => k_test n x (kernel_of demo_sets))
    demo_ip "10.0.0.0" "Reg" "3") (kernel_of demo_sets)) = true.
Proof.
  etrans.
  - apply (proj1 (layer3_device_in_its_sets demo_sets (kernel_of demo_sets) demo_sets_listed demo_ip "10.0.0.0" "Reg" "3"
      (proj1 demo_sets_exist) (fun _ => proj2 (proj2 demo_sets_exist)))). vm_compute. discriminate.
  - by apply bool_decide_eq_true_2; left.
Defined.

Lemma layer2_device_in_its_sets_witness :
  k_test "pfsession_Reg_10.0.0.0" [10; 0; 0; 9] (work (IPSEThandleLayer2 demo_sets (fun n x => k_test n x (kernel_of demo_sets))
    demo_ip "m" "10.0.0.0" "Reg" "3") (kernel_of demo_sets)) = false.
Proof.
  apply (proj2 (layer2_device_in_its_sets demo_sets (kernel_of demo_sets) demo_sets_listed demo_ip "m" "10.0.0.0" "Reg" "3"
    (proj1 demo_sets_exist) (proj1 (proj2 demo_sets_exist)))
    (mkSet "pfsession_Reg_10.0.0.0" "bitmap:ip,mac" [mkEntry [10; 0; 0; 9] (Some "m") None])
    (mkEntry [10; 0; 0; 9] (Some "m") None)).
  - by apply list_elem_of_In; left.
  - discriminate.
  - by apply list_elem_of_In; left.
  - vm_compute. discriminate.
Defined.

(** The same sets without entries. *)
Definition empty_sets : list SetPolicy := (fun v => mkSet (sp_Name v) (sp_TypeName v) []) <$> demo_sets.

Lemma empty_sets_listed n t : k_type n (kernel_of empty_sets) = Some t <->
  exists v, v ∈ empty_sets /\ sp_Name v = n /\ sp_TypeName v = t.
Proof. apply kernel_of_listed. apply (bool_decide_unpack _). vm_compute. exact I. Qed.

Lemma empty_sets_empty n x : k_test n x (kernel_of empty_sets) = false.
Proof.
  unfold k_test, gmap_kernel. destruct (kernel_of empty_sets !! n) as [[t s]|] eqn:E; [|done].
  apply elem_of_list_to_map_2, list_elem_of_fmap in E as (v & [= -> -> ->] & Hv).
  apply list_elem_of_fmap in Hv as (v' & -> & _). cbn. by rewrite lookup_empty.
Qed.

Lemma overtaken_worker_leaves_two_sets_witness :
  k_test "pfsession_Reg_10.0.0.0" demo_ip
    (work (IPSEThandleLayer3 empty_sets (fun n x => k_test n x (kernel_of empty_sets)) demo_ip "10.0.0.0" "Reg" "3" ++
           IPSEThandleLayer3 empty_sets (fun n x => k_test n x (kernel_of empty_sets)) demo_ip "10.0.0.0" "Unreg" "3") (kernel_of empty_sets))
  = true.
Proof.
  apply (overtaken_worker_leaves_two_sets empty_sets (kernel_of empty_sets) empty_sets_listed demo_ip "10.0.0.0" "3");
    [eexists; vm_compute; reflexivity|eexists; vm_compute; reflexivity|eexists; vm_compute; reflexivity|vm_compute; discriminate|
     vm_compute; discriminate|intros; apply empty_sets_empty].
Defined.

(** *** Ports *)

Lemma digits_all_chars acc d v : digits acc d = Some v -> all_chars is_digit d = true.
Proof.
  revert acc. induction d as [|c d IH]; intros acc H; [done|]. cbn [digits] in H. cbn [all_chars].
  destruct (digit c) as [x|] eqn:E; [|done]. rewrite (IH _ H), andb_true_r. unfold digit in E. case_decide as Hc; [|done].
  unfold is_digit, in_class. apply andb_true_iff. rewrite !Nat.leb_le.
  change (Ascii.nat_of_ascii "0") with 48%nat. change (Ascii.nat_of_ascii "9") with 57%nat. lia.
Qed.

Lemma digits_nonneg acc d v : 0 <= acc -> digits acc d = Some v -> 0 <= v.
Proof.
  revert acc. induction d as [|c d IH]; intros acc Ha H; cbn [digits] in H; [congruence|].
  destruct (digit c) as [x|] eqn:E; [|done]. apply (IH _) in H; [done|]. unfold digit in E. case_decide; [|done]. injection E as <-. lia.
Qed.

Lemma ParseUint16_exact d v : digits 0 d = Some v -> u16 (ParseUint16 d) = Z.min v 65535.
Proof.
  intros H. assert (Hv := digits_nonneg 0 d v ltac:(lia) H). unfold ParseUint16. rewrite H.
  case_decide; rewrite wrapU_small by (unfold is_u; lia); lia.
Qed.

Lemma port_takes proto d v : proto = "tcp" \/ proto = "udp" -> d <> EmptyString -> digits 0 d = Some v ->
  re_find port_re (proto +:+ ":" +:+ d) = Some (<[2%nat := d]> (<[1%nat := proto]> ∅)).
Proof.
  intros Hp Hd Hv. rewrite <- (str_app_nil_r (proto +:+ ":" +:+ d)). apply re_find_takes. unfold port_re, seqs. cbn [foldr].
  eapply takes_seq; [apply takes_grp; destruct Hp as [-> | ->];
    [apply takes_alt_r; [apply fails_lit; reflexivity|apply takes_lit]|apply takes_alt_l, takes_lit]|].
  eapply takes_seq; [apply takes_lit|]. rewrite <- (str_app_nil_r d) at 1.
  eapply takes_seq; [apply takes_grp, takes_plus; [done|by eapply digits_all_chars|done]|apply takes_nil].
Qed.

(** The port of a passthrough is a number of 16 bits for every
    specification; for a specification of a protocol, a colon and digits it is
    their number if it fits and 65535 if it does not, because the error of the
    conversion is ignored, with the number of the protocol. *)
Theorem validatePort_saturates :
  (forall s port proto, validatePort s = Some (port, proto) -> 0 <= port <= 65535) /\
  (forall d v, d <> EmptyString -> digits 0 d = Some v ->
     validatePort ("tcp:" +:+ d) = Some (Z.min v 65535, 6) /\ validatePort ("udp:" +:+ d) = Some (Z.min v 65535, 17)).
Proof.
  split.
  - intros s port proto H. unfold validatePort in H. destruct (re_find port_re s) as [c|]; [|done]. injection H as <- _.
    assert (Hr := wrapU_range 16 (ParseUint16 (group 2 c)) ltac:(lia)). unfold is_u in Hr. lia.
  - intros d v Hd Hv. unfold validatePort.
    change ("tcp:" +:+ d) with ("tcp" +:+ ":" +:+ d). change ("udp:" +:+ d) with ("udp" +:+ ":" +:+ d).
    rewrite !(port_takes _ d v) by auto. unfold group.
    rewrite !lookup_insert_eq, !(lookup_insert_ne _ 2%nat 1%nat), !lookup_insert_eq by lia.
    cbn [default from_option id]. rewrite (ParseUint16_exact d v Hv). done.
Qed.

Lemma validatePort_saturates_witness : validatePort "tcp:70000" = Some (65535, 6).
Proof. apply (proj2 validatePort_saturates "70000" 70000); [discriminate|reflexivity]. Defined.

(** *** Requests *)

(** A passthrough for isolated devices goes into the set of the others. *)
Lemma isolation_passthrough_is_shared ip6 body : handleIsolationPassthrough ip6 body = handlePassthrough ip6 body.
Proof. reflexivity. Qed.

(** A MAC that no listed set has keeps its entries in the kernel. *)
Lemma unmark_needs_listing New ListALL o Mac : New (p_Mac o) = Some Mac ->
  (forall v e, v ∈ ListALL -> e ∈ sp_Entries v -> en_ether e <> Some Mac) ->
  handleUnmarkMac New ListALL (Some o) = Ret (mkEffect [] [] ACK).
Proof.
  intros HM Hno. unfold handleUnmarkMac, with_body, with_some, validateMac. rewrite HM. do 2 f_equal.
  all: induction ListALL as [|v l IH]; [done|]; cbn [fmap list_fmap concat].
  all: rewrite IH by (intros; eapply Hno; [by right|done]).
  all: replace (mac2ip Mac v) with (@nil entry); [done|]; symmetry; apply elem_of_nil_inv; intros e He.
  all: apply list_elem_of_In, filter_In in He as [He Hm%bool_decide_eq_true].
  all: by apply (Hno v e); [left|apply list_elem_of_In|].
Qed.

(** A request that came from another member of the cluster is not sent on. *)
Lemma cluster_requests_stop ip6s path members : updateClusterRequest ip6s "1" path members = [].
Proof. reflexivity. Qed.

(** Any text with a letter is a type. *)
Lemma type_is_not_anchored : validateType "Reg; x" = Some "Reg; x" /\ validateRoleId "a1b" = Some "a1b".
Proof. split; vm_compute; reflexivity. Qed.
