(* ===== verification/HttpDispatcher.v ===== *)
(** The HTTP dispatcher of the captive portal (src/go/httpdispatcher/proxy.go):
    which requests are proxied, which are answered and which are redirected to
    the portal.

    A handler writes events: the headers and the status it sets, its pages, the
    requests it proxies and the calls of the API.  The expressions of the
    configuration are compiled by the argument [Compile]; the results of the
    queries are arguments as well. *)
From S2P Require Import Prelude NetIP NetUrl Regex.
From Stdlib Require Import ZArith Lia Ascii.
From stdpp Require Import base gmap strings list.

Open Scope Z_scope.
Open Scope string_scope.

(** ** Data *)

Record passthrough := mkPassthrough {
  proxypassthrough : list re;
  detectionmechanisms : list re;
  PortalURL : list (IPNet * URL);     (* by index, one network each *)
  URIException : re;
  OtherDomains : list re;
  DetectionMecanismBypass : bool;
  SecureRedirect : bool;
  Wispr : bool
}.

Record request := mkRequest {
  r_Method : string; r_Host : string; r_RequestURI : string; r_URL : URL;
  r_XForwardedFor : string; r_XForwardedProto : string; r_Referer : string; r_UserAgent : string
}.

Inductive event :=
  | Header (name value : string)
  | WriteHeader (code : Z)
  | CaptivePage (UserPortalURL : string) (Captive : bool)     (* RFC7710bis *)
  | KindlePage
  | WisprPage (location : string)
  | RefreshPage (location : string)
  | Proxied (host : string) (u : URL)
  | ApiCall (method path : string) (body : jv).

Definition emit (e : event) : gst (list event) unit := gst_do (fun out => app out [e]).

(** The configuration: fencing, general, captive_portal, and for each network
    its key, its mask and its portal. *)
Record config := mkConfig {
  ProxyPassthroughs : list string; DetectionMecanismUrls : list string; OtherDomainNames : list string;
  conf_DetectionMecanismBypass : string; conf_SecureRedirect : string; WisprRedirection : string;
  Hostname_ : string; Domain : string; networks : list (string * (string * string))
}.

(** ** Lists of expressions *)

Section Dispatcher.
Context (ip6 : string -> ip) (Compile : string -> option re).

(** addToEndpointList, addFqdnToList, addDetectionMechanismsToList and
    addOtherDomainsToList: an expression that does not compile is left out. *)
Definition add_to_list (l : list re) (r : string) : list re :=
  match Compile r with Some rgx => app l [rgx] | None => l end.

Definition addToEndpointList : list re -> string -> list re := add_to_list.
Definition addFqdnToList : list re -> string -> list re := add_to_list.
Definition addDetectionMechanismsToList : list re -> string -> list re := add_to_list.
Definition addOtherDomainsToList : list re -> string -> list re := add_to_list.

Definition matches_one (l : list re) (e : string) : bool := existsb (fun rgx => MatchString rgx e) l.

Definition checkEndpointList (endpointBlackList : list re) (e : string) : bool := negb (matches_one endpointBlackList e).
Definition checkProxyPassthrough (p : passthrough) (e : string) : bool := matches_one (proxypassthrough p) e.
Definition checkDetectionMechanisms (p : passthrough) (e : string) : bool := matches_one (detectionmechanisms p) e.
Definition checkOtherDomains (p : passthrough) (e : string) : bool := matches_one (OtherDomains p) e.

(** The targets that Configure denies. *)
Definition denied_targets : list string :=
  ["localhost"; "127.0.0.1"; "127.1"; "127.0.1"; "0177.1"; "0177.0.1"; "0x7f.1"; "0x7f.0.1"; "7f.00.00.01";
   "0x7f.0x0.0x0.0x1"; "0177.0.0.01"; "2130706433"; "0x7f.0.0.0x1"; "7f.00.00.01"; "0x7f000001"].

(** The constant expressions have no special character but the dot. *)
Definition Configure_blacklist : list re := dotted_lit <$> denied_targets.

(** ** Configuration *)

Definition captive_url (scheme host : string) : URL :=
  mkURL scheme EmptyString None host "/captive-portal" EmptyString false EmptyString EmptyString.

(** net.IPMask(net.ParseIP(mask)): the 16 bytes of an address. *)
Definition network_url (scheme fqdn_default : string) (n : string * (string * string)) : IPNet * URL :=
  let '(key, (Netmask, PortalFQDN)) := n in
  (mkIPNet (ParseIP ip6 key) (ParseIP ip6 Netmask),
   captive_url scheme (if decide (PortalFQDN <> EmptyString) then PortalFQDN else fqdn_default)).

Definition enabled (s : string) : bool := bool_decide (s = "enabled").

Definition readConfig (c : config) : passthrough :=
  let scheme := if enabled (conf_SecureRedirect c) then "https" else "http" in
  let fqdn_default := Hostname_ c +:+ "." +:+ Domain c in
  {| proxypassthrough := fold_left addFqdnToList (ProxyPassthroughs c) [];
     detectionmechanisms := fold_left addDetectionMechanismsToList (DetectionMecanismUrls c) [];
     PortalURL := app (network_url scheme fqdn_default <$> networks c) [(mkIPNet IPv4zero IPv4zero, captive_url scheme fqdn_default)];
     URIException := lit "CaptiveNetworkSupport";
     OtherDomains := fold_left addOtherDomainsToList (OtherDomainNames c) [];
     DetectionMecanismBypass := enabled (conf_DetectionMecanismBypass c);
     SecureRedirect := enabled (conf_SecureRedirect c);
     Wispr := enabled (WisprRedirection c) |}.

(** ** Clients *)

Definition getIP (r : request) : string :=
  if decide (r_XForwardedFor r <> EmptyString) then
    match before_str ", " (r_XForwardedFor r) with Some x => x | None => r_XForwardedFor r end
  else "0.0.0.0".

(** The answers of the database: [None] is an error, also that of no row. *)
Context (IsIPv4 : ip -> bool) (IP4log IP6log : string -> option string).
Context (ParkingSecurityEvent : string -> option Z) (Nodedb : string -> option string).

Definition HasSecurityEvents (mac : string) : bool :=
  match ParkingSecurityEvent mac with Some securityEventCount => bool_decide (securityEventCount <> 0) | None => false end.

Definition IP2Mac (x : string) : option string :=
  let srcIP := ParseIP ip6 x in
  if decide (srcIP <> []) then if IsIPv4 srcIP then IP4log x else IP6log x else None.

Definition nodeIsReg (mac : string) : bool := bool_decide (Nodedb mac = Some "reg").

Definition DetectRegistrationStatus (r : request) : bool :=
  let ipAddress := getIP r in
  if decide (ipAddress <> EmptyString) then
    match IP2Mac ipAddress with Some MAC => nodeIsReg MAC | None => false end
  else false.

(** ** The handler *)

(** The state of the server: the tables of the proxy, what the API answers (an
    error, and the body it may have sent), and url.Parse. *)
Context (passThrough : passthrough) (endpointBlackList : list re) (ShowParkingPortal : bool).
Context (api : string -> string -> jv -> error * option string) (Parse : string -> option URL).

(** The loop over the indices ends at the first network with the client. *)
Definition detectPortalURL (r : request) : bool * URL :=
  let srcIP := ParseIP ip6 (r_XForwardedFor r) in
  match List.find (fun cd : IPNet * URL => Contains cd.1 srcIP) (PortalURL passThrough) with
  | Some cd => (true, cd.2)
  | None => (false, zeroURL)
  end.

Definition reverse (u : URL) (host : string) : gst (list event) unit := emit (Proxied host u).

Definition APIUnpark (mac x : string) : gst (list event) error :=
  let path := "/api/v1/node/" +:+ mac +:+ "/unpark" in
  let payload := JMap [("ip", JStr x)] in
  (emit (ApiCall "POST" path payload) ;;;
   match api "POST" path payload with
   | (Some err, _) => gst_ret (Some err)
   | (None, None) => gst_ret (Some ("Empty response  from POST /api/v1/" +:+ mac +:+ "/unpark"))
   | (None, Some _) => gst_ret None
   end)%go.

(** Whether the client is parked, and the URL of the request, which a release
    changes. *)
Definition handleParking (r : request) : gst (list event) (bool * URL) :=
  let '(found, portal) := detectPortalURL r in
  let ipAddress := getIP r in
  match IP2Mac ipAddress with
  | Some MAC =>
      if HasSecurityEvents MAC && ShowParkingPortal then
        if found && bool_decide (Host portal = r_Host r) then
          (reqURL <-- (if decide (r_RequestURI r = "/release-parking") then
                         (err <-- APIUnpark MAC ipAddress ;;
                          gst_ret (set_Path (match err with None => "/back-on-network.html" | Some _ => "/max-attempts.html" end) (r_URL r)))
                       else gst_ret (r_URL r)) ;;
           reverse reqURL (if MatchString (lit "/common") (r_RequestURI r) then "127.0.0.1:8889" else "127.0.0.1:5252") ;;;
           gst_ret (true, reqURL))%go
        else gst_ret (true, r_URL r)
      else gst_ret (false, r_URL r)
  | None => gst_ret (false, r_URL r)
  end.

Definition handleDetectionMechanismRegister (r : request) (fqdn : string) : gst (list event) unit :=
  match IP2Mac (getIP r) with
  | Some MAC =>
      if nodeIsReg MAC && checkDetectionMechanisms passThrough fqdn then reverse (r_URL r) (r_Host r) else gst_ret tt
  | None => gst_ret tt
  end.

(** The URL that detection mechanisms are compared with; the path is the whole
    request URI. *)
Definition request_fqdn (r : request) : URL :=
  mkURL (r_XForwardedProto r) EmptyString None (r_Host r) (r_RequestURI r) EmptyString false EmptyString EmptyString.

Definition passes (r : request) : bool :=
  checkProxyPassthrough passThrough (r_Host r) ||
  ((checkDetectionMechanisms passThrough (URLString (request_fqdn r)) || MatchString (URIException passThrough) (r_RequestURI r)) &&
   DetectionMecanismBypass passThrough).

(** The destination as the portal gets it; [u] is the URL of the request. *)
Definition destination (r : request) (u : URL) : go URL :=
  match Parse (URLString u) with
  | None => Panic "nil pointer dereference"
  | Some destURL =>
      let destURL := set_Scheme (r_XForwardedProto r) destURL in
      Ret (set_Host (if decide (r_Referer r <> EmptyString)
                     then match Parse (r_Referer r) with None => r_Host r | Some refererHost => Hostname refererHost end
                     else r_Host r) destURL)
  end.

Definition is_wispr (UserAgent : string) : bool :=
  MatchString (fold_lit "wispr") UserAgent && negb (MatchString (fold_lit "CaptiveNetworkSupport") UserAgent).

Definition redirect (r : request) (parking : bool) (u : URL) : gst (list event) unit :=
  let portal := (detectPortalURL r).2 in
  let portal := if checkOtherDomains passThrough (r_Host r) then set_Host (r_Host r) portal else portal in
  (destURL <-- gst_lift (destination r u) ;;
   let portal := if parking then set_RawQuery EmptyString (set_Path EmptyString portal) else portal in
   let portal := set_RawQuery ("destination_url=" +:+ URLString destURL) portal in
   emit (Header "Location" (URLString portal)) ;;;
   if decide (r_Method r <> "HEAD") then
     if is_wispr (r_UserAgent r) || Wispr passThrough
     then emit (WriteHeader 302) ;;; emit (WisprPage (URLString portal))
     else emit (WriteHeader 200) ;;; emit (RefreshPage (URLString portal))
   else gst_ret tt)%go.

(** What follows the test of parking. *)
Definition dispatch (r : request) (parking : bool) (u : URL) : gst (list event) unit :=
  (if decide (Path u = "/rfc7710") then
     emit (Header "Cache-Control" "private") ;;;
     emit (Header "Content-Type" "application/captive+json") ;;;
     emit (WriteHeader 200) ;;;
     emit (CaptivePage (URLString (detectPortalURL r).2) (negb (DetectRegistrationStatus r)))
   else if decide (Path u = "/kindle-wifi/wifistub.html") then
     emit (WriteHeader 200) ;;; emit KindlePage
   else if negb (passes r) then
     if decide (r_Method r <> "GET" /\ r_Method r <> "HEAD") then emit (WriteHeader 501)
     else redirect r parking u
   else if negb (checkEndpointList endpointBlackList (r_Host r)) then emit (WriteHeader 403)
   else reverse u (r_Host r))%go.

Definition ServeHTTP (r : request) : gst (list event) unit :=
  if decide (r_Host r = EmptyString) then emit (WriteHeader 502)
  else (pu <-- handleParking r ;; dispatch r pu.1 pu.2)%go.
End Dispatcher.

(** ** Theorems *)

(** *** What a computation writes *)

Definition emits {A : Type} (c : gst (list event) A) (l : list event) (x : go A) : Prop :=
  forall out, c out = (app out l, x).

Lemma emits_ret {A} (a : A) : emits (gst_ret a) [] (Ret a).
Proof. intros out. by rewrite app_nil_r. Qed.

Lemma emits_emit e : emits (emit e) [e] (Ret tt).
Proof. by intros out. Qed.

Lemma emits_lift {A} (x : go A) : emits (gst_lift x) [] x.
Proof. intros out. by rewrite app_nil_r. Qed.

Lemma emits_bind {A B} (c : gst (list event) A) (k : A -> gst (list event) B) l a l' x :
  emits c l (Ret a) -> emits (k a) l' x -> emits (gst_bind c k) (app l l') x.
Proof. intros Hc Hk out. unfold gst_bind. rewrite Hc, Hk. by rewrite app_assoc. Qed.

Lemma emits_bind_panic {A B} (c : gst (list event) A) (k : A -> gst (list event) B) l msg :
  emits c l (Panic msg) -> emits (gst_bind c k) l (Panic msg).
Proof. intros Hc out. unfold gst_bind. by rewrite Hc. Qed.

#[local] Hint Resolve emits_ret emits_emit emits_lift : emits.

Ltac emits_step := first [eapply emits_bind; [solve [eauto with emits]|]|solve [eauto with emits]].

(** Events that are not in a list of events. *)
Ltac not_among := intros h v Hin; repeat (apply elem_of_cons in Hin as [Hin|Hin]; [discriminate Hin|]); by apply elem_of_nil in Hin.

(** A response: a status, or what the proxied server answers. *)
Definition is_response (e : event) : bool := match e with WriteHeader _ | Proxied _ _ => true | _ => false end.
Definition responses (l : list event) : nat := length (List.filter is_response l).

Lemma responses_app l l' : responses (app l l') = (responses l + responses l')%nat.
Proof. unfold responses. by rewrite List.filter_app, length_app. Qed.

Section Serving.
Context (ip6 : string -> ip) (IsIPv4 : ip -> bool) (IP4log IP6log : string -> option string).
Context (ParkingSecurityEvent : string -> option Z) (Nodedb : string -> option string).
Context (p : passthrough) (blacklist : list re) (ShowParkingPortal : bool).
Context (api : string -> string -> jv -> error * option string) (Parse : string -> option URL).

Abbreviation portal_of := (detectPortalURL ip6 p).
Abbreviation parking_of := (handleParking ip6 IsIPv4 IP4log IP6log ParkingSecurityEvent p ShowParkingPortal api).
Abbreviation serve := (ServeHTTP ip6 IsIPv4 IP4log IP6log ParkingSecurityEvent Nodedb p blacklist ShowParkingPortal api Parse).

(** The client has an open parking event, and parking is shown. *)
Definition parked (r : request) : bool :=
  match IP2Mac ip6 IsIPv4 IP4log IP6log (getIP r) with
  | Some MAC => HasSecurityEvents ParkingSecurityEvent MAC && ShowParkingPortal
  | None => false
  end.

(** The request is for the portal of the network of the client. *)
Definition at_portal (r : request) : bool := (portal_of r).1 && bool_decide (Host (portal_of r).2 = r_Host r).

Lemma parking_elsewhere r : parked r && at_portal r = false -> emits (parking_of r) [] (Ret (parked r, r_URL r)).
Proof.
  unfold handleParking, parked, at_portal. destruct (portal_of r) as [found portal]. cbn.
  destruct (IP2Mac ip6 IsIPv4 IP4log IP6log (getIP r)) as [MAC|]; [|intros; apply emits_ret].
  destruct (HasSecurityEvents ParkingSecurityEvent MAC && ShowParkingPortal); [|intros; apply emits_ret].
  cbn. intros ->. apply emits_ret.
Qed.

Lemma unpark_events MAC x : exists e, emits (APIUnpark api MAC x)
  [ApiCall "POST" ("/api/v1/node/" +:+ MAC +:+ "/unpark") (JMap [("ip", JStr x)])] (Ret e).
Proof.
  unfold APIUnpark. destruct (api "POST" ("/api/v1/node/" +:+ MAC +:+ "/unpark") (JMap [("ip", JStr x)])) as [[err|] [raw|]].
  all: eexists; rewrite <- (app_nil_r [ApiCall _ _ _]); eapply emits_bind; [apply emits_emit|apply emits_ret].
Qed.

Lemma parking_at_portal r : parked r && at_portal r = true -> exists calls u h,
  emits (parking_of r) (app calls [Proxied h u]) (Ret (true, u)) /\ (h = "127.0.0.1:5252" \/ h = "127.0.0.1:8889") /\
  Forall (fun e => exists m a b, e = ApiCall m a b) calls.
Proof.
  unfold handleParking, parked, at_portal. destruct (portal_of r) as [found portal]. cbn.
  destruct (IP2Mac ip6 IsIPv4 IP4log IP6log (getIP r)) as [MAC|]; [|done].
  destruct (HasSecurityEvents ParkingSecurityEvent MAC && ShowParkingPortal); [|done]. cbn. intros ->.
  set (h := if MatchString _ _ then "127.0.0.1:8889" else "127.0.0.1:5252").
  assert (Hh : h = "127.0.0.1:5252" \/ h = "127.0.0.1:8889") by (subst h; destruct (MatchString _ _); auto).
  case_decide.
  - destruct (unpark_events MAC (getIP r)) as [e He]. eexists [_], _, h. split_and!; [|done|repeat econstructor].
    eapply emits_bind; [rewrite <- (app_nil_r [ApiCall _ _ _]); eapply emits_bind; [exact He|apply emits_ret]|].
    unfold reverse. change [Proxied h ?u] with (app [Proxied h u] []). eapply emits_bind; [apply emits_emit|apply emits_ret].
  - exists [], (r_URL r), h. split_and!; [|done|constructor].
    eapply emits_bind; [apply emits_ret|]. unfold reverse. rewrite <- (app_nil_r [Proxied _ _]).
    eapply emits_bind; [apply emits_emit|apply emits_ret].
Qed.

Abbreviation dispatched := (dispatch ip6 IsIPv4 IP4log IP6log Nodedb p blacklist Parse).

(** The redirect: its location, and its page unless only the head is asked for. *)
Lemma redirect_events r parking u : exists l x, emits (redirect ip6 p Parse r parking u) l x /\
  (forall h v, Proxied h v ∉ l) /\ (responses l <= 1)%nat /\ (x = Ret tt -> r_Method r <> "HEAD" -> responses l = 1%nat).
Proof.
  unfold redirect. destruct (destination Parse r u) as [d|msg].
  - set (portal := if checkOtherDomains p (r_Host r) then _ else _). set (loc := URLString (set_RawQuery ("destination_url=" +:+ URLString d)
      (if parking then set_RawQuery EmptyString (set_Path EmptyString portal) else portal))).
    exists (Header "Location" loc :: if decide (r_Method r <> "HEAD") then
              if is_wispr (r_UserAgent r) || Wispr p then [WriteHeader 302; WisprPage loc] else [WriteHeader 200; RefreshPage loc] else []), (Ret tt).
    split; [|destruct (decide _); [destruct (_ || _)|]; (split; [not_among|split; [cbn; lia|done]])].
    intros out. unfold gst_bind, gst_lift, emit, gst_do. fold portal loc.
    case_decide; [destruct (_ || _)|]; cbn; by rewrite <- ?app_assoc.
  - exists [], (Panic msg). split_and!; [by apply emits_bind_panic, emits_lift|not_among|cbn; lia|done].
Qed.

Lemma dispatch_events r parking u : exists l x, emits (dispatched r parking u) l x /\
  (forall h v, Proxied h v ∈ l -> h = r_Host r /\ v = u /\ passes p r = true /\ checkEndpointList blacklist (r_Host r) = true) /\
  (responses l <= 1)%nat /\ (x = Ret tt -> r_Method r <> "HEAD" -> responses l = 1%nat).
Proof.
  unfold dispatch. case_decide; [|case_decide; [|destruct (passes p r) eqn:Ep; cbn [negb]; [|case_decide]]].
  - eexists [_; _; _; _], (Ret tt). split; [intros out; unfold gst_bind, emit, gst_do; cbn; by rewrite <- !app_assoc|].
    split_and!; [not_among|cbn; lia|done].
  - eexists [_; _], (Ret tt). split; [intros out; unfold gst_bind, emit, gst_do; cbn; by rewrite <- !app_assoc|].
    split_and!; [not_among|cbn; lia|done].
  - destruct (checkEndpointList blacklist (r_Host r)) eqn:Eb; cbn [negb].
    + exists [Proxied (r_Host r) u], (Ret tt). split_and!; [apply emits_emit|intros h v Hin; by apply list_elem_of_singleton in Hin as [= -> ->]|cbn; lia|done].
    + exists [WriteHeader 403], (Ret tt). split_and!; [apply emits_emit|not_among|cbn; lia|done].
  - exists [WriteHeader 501], (Ret tt). split_and!; [apply emits_emit|not_among|cbn; lia|done].
  - destruct (redirect_events r parking u) as (l & x & Hl & Hp & Hr & Hone). exists l, x. split_and!; [done|intros h v Hin; by apply Hp in Hin|done..].
Qed.

Lemma proxied_here r h (u v : URL) : h = r_Host r /\ v = u /\ passes p r = true /\ checkEndpointList blacklist (r_Host r) = true ->
  h = r_Host r /\ passes p r = true /\ Forall (fun rgx => MatchString rgx h = false) blacklist.
Proof.
  intros (-> & _ & Hp & Hb). split_and!; [done..|]. apply Forall_forall. intros rgx Hin. apply not_true_iff_false. intros Hm.
  apply negb_true_iff, not_true_iff_false in Hb. apply Hb, existsb_exists. exists rgx. by rewrite <- list_elem_of_In.
Qed.

(** C14.  A request is proxied to the host it names only if the host is a
    passthrough, or the bypass is enabled and the request is one of a detection
    mechanism or of the captive network support, and only if the host matches
    no expression of the deny list; any other proxied request is one of a parked
    client for the portal of its network, and goes to a server of this host. *)
Theorem proxied_requests_are_allowed r out x h u : serve r [] = (out, x) -> Proxied h u ∈ out ->
  (h = r_Host r /\ passes p r = true /\ Forall (fun rgx => MatchString rgx h = false) blacklist) \/
  (parked r = true /\ at_portal r = true /\ (h = "127.0.0.1:5252" \/ h = "127.0.0.1:8889")).
Proof.
  unfold ServeHTTP. case_decide as Hh.
  { intros [= <- _] Hin. by apply list_elem_of_singleton in Hin. }
  intros Hs Hin. destruct (parked r && at_portal r) eqn:Ep.
  - destruct (parking_at_portal r Ep) as (calls & u' & h' & Hpk & Hh' & Hc). destruct (dispatch_events r true u') as (l & y & Hl & Hd & _).
    rewrite (emits_bind _ _ _ _ _ _ Hpk Hl []) in Hs. injection Hs as <- <-. cbn in Hin.
    apply elem_of_app in Hin as [Hin|Hin]; [|left; exact (proxied_here _ _ _ _ (Hd h u Hin))].
    right. apply andb_true_iff in Ep as [Hp Ha]. apply elem_of_app in Hin as [Hin|Hin].
    + rewrite Forall_forall in Hc. by destruct (Hc _ Hin) as (m & a & b & [=]).
    + by apply list_elem_of_singleton in Hin as [= -> ->].
  - destruct (dispatch_events r (parked r) (r_URL r)) as (l & y & Hl & Hd & _).
    rewrite (emits_bind _ _ _ _ _ _ (parking_elsewhere r Ep) Hl []) in Hs. injection Hs as <- <-. left. exact (proxied_here _ _ _ _ (Hd h u Hin)).
Qed.

(** Every request with a host gets one response, unless the handler panics
    or only the head of a redirect is asked for; but a request of a parked client
    for its portal gets two: the one of the parking server and, since the handler
    goes on, one more. *)
Theorem parked_clients_are_answered_twice r out : r_Host r <> EmptyString -> r_Method r <> "HEAD" ->
  serve r [] = (out, Ret tt) -> responses out = if parked r && at_portal r then 2%nat else 1%nat.
Proof.
  intros Hh Hm Hs. unfold ServeHTTP in Hs. rewrite decide_False in Hs by done. destruct (parked r && at_portal r) eqn:Ep.
  - destruct (parking_at_portal r Ep) as (calls & u' & h' & Hpk & Hh' & Hc). destruct (dispatch_events r true u') as (l & y & Hl & _ & _ & H1).
    rewrite (emits_bind _ _ _ _ _ _ Hpk Hl []) in Hs. injection Hs as <- ->. cbn [app]. rewrite !responses_app, H1 by done.
    enough (responses calls = 0%nat) as -> by done. clear Hpk. induction Hc as [|e calls (m & a & b & ->) _ IH]; [done|]. exact IH.
  - destruct (dispatch_events r (parked r) (r_URL r)) as (l & y & Hl & _ & _ & H1).
    rewrite (emits_bind _ _ _ _ _ _ (parking_elsewhere r Ep) Hl []) in Hs. injection Hs as <- ->. by apply H1.
Qed.

(** A client that is not parked and asks for a page that is not let through
    is sent to the portal of the first network that contains it, with the page
    it asked for as the destination. *)
Theorem page_is_redirected_to_portal r d cd :
  r_Host r <> EmptyString -> parked r = false -> r_Method r = "GET" -> passes p r = false ->
  Path (r_URL r) <> "/rfc7710" -> Path (r_URL r) <> "/kindle-wifi/wifistub.html" -> checkOtherDomains p (r_Host r) = false ->
  Parse (URLString (r_URL r)) = Some d -> r_Referer r = EmptyString ->
  List.find (fun cd : IPNet * URL => Contains cd.1 (ParseIP ip6 (r_XForwardedFor r))) (PortalURL p) = Some cd ->
  let location := URLString (set_RawQuery ("destination_url=" +:+ URLString (set_Host (r_Host r) (set_Scheme (r_XForwardedProto r) d))) cd.2) in
  serve r [] = (Header "Location" location ::
    if is_wispr (r_UserAgent r) || Wispr p then [WriteHeader 302; WisprPage location] else [WriteHeader 200; RefreshPage location], Ret tt).
Proof.
  intros Hh Hp Hm Hpass H1 H2 Ho Hd Href Hf location. unfold ServeHTTP. rewrite decide_False by done.
  unfold gst_bind at 1. rewrite (parking_elsewhere r) by (by rewrite Hp). rewrite Hp. cbn [app fst snd].
  unfold dispatch. rewrite !decide_False by (rewrite ?Hm; naive_solver). rewrite Hpass. cbn [negb].
  unfold redirect. rewrite Ho. unfold detectPortalURL. rewrite Hf.
  unfold destination. rewrite Hd, decide_False by (rewrite Href; naive_solver). cbn [snd]. fold location.
  unfold gst_bind, gst_lift, emit, gst_do. fold location. rewrite decide_True by (by rewrite Hm).
  by destruct (is_wispr (r_UserAgent r) || Wispr p).
Qed.
End Serving.

(** *** The portal of a client *)

(** The networks of the configuration. *)
Definition net_of (ip6 : string -> ip) (n : string * (string * string)) : IPNet := mkIPNet (ParseIP ip6 n.1) (ParseIP ip6 n.2.1).

Definition is_v4 (x : ip) : Prop := length (To4 x) = 4%nat.

(** The network of all IPv4 addresses. *)
Lemma default_contains x : is_v4 x <-> Contains (mkIPNet IPv4zero IPv4zero) x = true.
Proof.
  unfold is_v4, Contains. change (networkNumberAndMask (mkIPNet IPv4zero IPv4zero)) with (Some ([0; 0; 0; 0], [0; 0; 0; 0])). cbn [length].
  destruct (decide (To4 x = [])) as [E|E].
  - rewrite E. split; [done|]. case_decide as H; [|done]. unfold To4 in E. rewrite decide_True in E by done. by rewrite E in H.
  - split; [intros H; rewrite decide_True by done|].
    + destruct (To4 x) as [|a [|b [|c [|d [|]]]]]; try done. cbn. rewrite !Z.land_0_r. done.
    + by case_decide.
Qed.

(** With the tables of a configuration, the portal of a client is that of
    the first configured network with its address, the name of the network's own
    portal or else that of the server; any other IPv4 client gets the portal of
    the server; any other client has none. *)
Theorem portal_of_first_network ip6 Compile c r :
  let x := ParseIP ip6 (r_XForwardedFor r) in
  let scheme := if enabled (conf_SecureRedirect c) then "https" else "http" in
  let server := Hostname_ c +:+ "." +:+ Domain c in
  detectPortalURL ip6 (readConfig ip6 Compile c) r =
  match List.find (fun n => Contains (net_of ip6 n) x) (networks c) with
  | Some n => (true, captive_url scheme (if decide (n.2.2 = EmptyString) then server else n.2.2))
  | None => if decide (is_v4 x) then (true, captive_url scheme server) else (false, zeroURL)
  end.
Proof.
  intros x scheme server. unfold detectPortalURL. cbn [readConfig PortalURL]. fold scheme server x.
  induction (networks c) as [|[key [mask fqdn]] l IH]; cbn [fmap list_fmap app List.find].
  - cbn [fst snd]. destruct (Contains (mkIPNet IPv4zero IPv4zero) x) eqn:E.
    + rewrite decide_True by (by apply default_contains). done.
    + rewrite decide_False; [done|]. intros H%default_contains. congruence.
  - unfold net_of at 1. cbn [network_url fst snd]. destruct (Contains _ x); [|exact IH]. cbn [snd]. do 2 f_equal.
    repeat case_decide; done.
Qed.

(** An IPv6 client, or one whose address comes as a list, is sent back to where
    it came from: the location has no host. *)
Lemma no_portal_location q : URLString (set_RawQuery ("destination_url=" +:+ q) zeroURL) = "?destination_url=" +:+ q.
Proof.
  etrans; [|exact (str_app_nil_r _)]. vm_compute. reflexivity.
Qed.

(** *** The deny list *)

(** A host that contains a denied target is denied. *)
Lemma denied_inside t pre post : t ∈ denied_targets -> checkEndpointList Configure_blacklist (pre +:+ t +:+ post) = false.
Proof.
  intros Ht. unfold checkEndpointList. apply negb_false_iff, existsb_exists. exists (dotted_lit t). split.
  - apply in_map, list_elem_of_In, Ht.
  - apply MatchString_inside. eapply MatchString_takes, takes_dotted_lit.
    assert (H : forallb (all_chars any_char) denied_targets = true) by (vm_compute; reflexivity).
    rewrite forallb_forall in H. by apply H, list_elem_of_In.
Qed.

(** Other names of the server itself are not denied. *)
Lemma loopback_names_not_denied :
  forallb (checkEndpointList Configure_blacklist) ["0.0.0.0"; "[::1]"; "LOCALHOST"; "127.0.0.2"; "0"] = true.
Proof. vm_compute. reflexivity. Qed.

(** A passthrough lets every host through that contains its name. *)
Lemma passthrough_not_anchored p h pre post : dotted_lit h ∈ proxypassthrough p -> all_chars any_char h = true ->
  checkProxyPassthrough p (pre +:+ h +:+ post) = true.
Proof.
  intros Hin Hh. apply existsb_exists. exists (dotted_lit h). split; [by apply list_elem_of_In|].
  eapply MatchString_inside, MatchString_takes, takes_dotted_lit, Hh.
Qed.

(** *** A concrete dispatcher *)

Definition demo_config : config :=
  mkConfig ["crl.geotrust.com"] ["http://captive.apple.com"] [] "enabled" "enabled" "disabled" "pf" "example.com"
    [("10.0.0.0", ("255.0.0.0", "guest.example.com"))].

Definition demo_tables : passthrough := readConfig (fun _ => []) (fun s => Some (dotted_lit s)) demo_config.

Definition demo_url (path : string) : URL := mkURL EmptyString EmptyString None EmptyString path EmptyString false EmptyString EmptyString.

Definition demo_request (method host path : string) : request :=
  mkRequest method host path (demo_url path) "10.1.2.3" "http" EmptyString "curl".

(** The server for a parked or an unknown client. *)
Definition demo_serve (parked : bool) (r : request) : list event * go unit :=
  ServeHTTP (fun _ => []) (fun _ => true) (fun _ => if parked then Some "m" else None) (fun _ => None)
    (fun _ => Some 1) (fun _ => None) demo_tables Configure_blacklist true (fun _ _ _ => (None, Some "ok")) (fun s => Some (demo_url s)) r [].

Lemma proxied_requests_are_allowed_witness : "crl.geotrust.com" = "crl.geotrust.com" /\ passes demo_tables (demo_request "GET" "crl.geotrust.com" "/a") = true /\
  Forall (fun rgx => MatchString rgx "crl.geotrust.com" = false) Configure_blacklist.
Proof.
  destruct (proxied_requests_are_allowed (fun _ => []) (fun _ => true) (fun _ => None) (fun _ => None) (fun _ => Some 1) (fun _ => None)
    demo_tables Configure_blacklist true (fun _ _ _ => (None, Some "ok")) (fun s => Some (demo_url s))
    (demo_request "GET" "crl.geotrust.com" "/a") [Proxied "crl.geotrust.com" (demo_url "/a")] (Ret tt) "crl.geotrust.com" (demo_url "/a")) as [H|[H _]].
  - vm_compute. reflexivity.
  - by apply list_elem_of_singleton.
  - exact H.
  - vm_compute in H. discriminate H.
Defined.

Lemma parked_clients_are_answered_twice_witness :
  responses (demo_serve true (demo_request "GET" "guest.example.com" "/")).1 = 2%nat.
Proof.
  etrans.
  - apply (parked_clients_are_answered_twice (fun _ => []) (fun _ => true) (fun _ => Some "m") (fun _ => None) (fun _ => Some 1) (fun _ => None)
      demo_tables Configure_blacklist true (fun _ _ _ => (None, Some "ok")) (fun s => Some (demo_url s))
      (demo_request "GET" "guest.example.com" "/")); [discriminate|discriminate|vm_compute; reflexivity].
  - vm_compute. reflexivity.
Defined.

Lemma page_is_redirected_to_portal_witness :
  (demo_serve false (demo_request "GET" "news.example.org" "/a")).2 = Ret tt /\
  Header "Location" "https://guest.example.com/captive-portal?destination_url=http://news.example.org/a" ∈
    (demo_serve false (demo_request "GET" "news.example.org" "/a")).1.
Proof.
  unfold demo_serve.
  rewrite (page_is_redirected_to_portal (fun _ => []) (fun _ => true) (fun _ => None) (fun _ => None) (fun _ => Some 1) (fun _ => None)
    demo_tables Configure_blacklist true (fun _ _ _ => (None, Some "ok")) (fun s => Some (demo_url s)) (demo_request "GET" "news.example.org" "/a")
    (demo_url "/a") (mkIPNet (IPv4 10 0 0 0) (IPv4 255 0 0 0), captive_url "https" "guest.example.com"));
    [|discriminate|vm_compute; reflexivity|reflexivity|vm_compute; reflexivity|discriminate|discriminate|vm_compute; reflexivity|
      vm_compute; reflexivity|reflexivity|vm_compute; reflexivity].
  split; [reflexivity|]. apply list_elem_of_In. left. vm_compute. reflexivity.
Defined.
