(* ===== verification/PfDns.v ===== *)
(** The DNS server of the enforcement networks
    (src/go/coredns/plugin/pfdns/pfdns.go and pfconfig.go): which queries are
    answered with the portal, which are resolved and which are handed to the
    resolver.

    Maps are lists in the order of their iteration.  The third-party packages
    are arguments: the DNS exchange, the text and the parser of records, and the
    compiler of expressions, an expression that does not compile being nil
    ([None]).  A request reads the clock once. *)
From S2P Require Import Prelude NetIP NetUrl Regex TimedCache.
From Stdlib Require Import ZArith Lia Ascii.
From stdpp Require Import base gmap strings list.

Open Scope Z_scope.
Open Scope string_scope.

(** ** Data *)

Record NetworkConf := mkNet {
  nc_Type : string; nc_NextHop : string; nc_DhcpStart : string; nc_DhcpEnd : string;
  nc_Netmask : string; nc_PortalFQDN : string; nc_RegNetwork : string
}.

Record pfdns := mkPfdns {
  InternalPortalIP : ip;
  FqdnPort : list (option re * list string);
  FqdnIsolationPort : list (option re * list string);
  FqdnDomainPort : list (option re * list string);
  Network : list (string * ip);
  NetworkType : list (IPNet * NetworkConf);
  PortalFQDN : list (IPNet * option re);      (* by index, one network each *)
  detectionBypass : bool;
  detectionMechanisms : list re;
  recordDNS : bool
}.

(** Resource records: addresses with their header, and the rest as text. *)
Record RR_Header := mkHdr { h_Name : string; h_Rrtype : Z; h_Class : Z; h_Ttl : Z }.

Inductive rr :=
  | RR_A (h : RR_Header) (a : ip)
  | RR_AAAA (h : RR_Header) (a : ip)
  | RR_other (text : string).

Definition TypeA : Z := 1.
Definition TypeAAAA : Z := 28.
Definition RcodeSuccess : Z := 0.
Definition RcodeNameError : Z := 3.

Record dns_msg := mkMsg { Rcode : Z; Answer : list rr; Extra : list rr }.

(** The query: the address of the client as text, the name as it was sent, its
    type as text and as number, its class. *)
Record query := mkQuery { q_IP : string; q_RemoteAddr : string; QName : string; q_Type : string; QType : Z; QClass : Z }.

Inductive event :=
  | WriteMsg (answers : list rr)
  | NextServeDNS                                     (* handed to the next plugin *)
  | DNSAudit (ip mac qname qtype scope answer : string)
  | ApiPost (path : string) (body : jv)
  | FilterDns (scope : string) (params : jv).

Section Server.
Context {C : Type -> Type} {TC : TimedCache C}.

Record state := mkState { out : list event; DNSFilter : C string; IpsetCache : C Z }.

Definition emit (e : event) : gst state unit :=
  gst_do (fun s => mkState (app (out s) [e]) (DNSFilter s) (IpsetCache s)).
Definition set_filter (c : C string) : gst state unit := gst_do (fun s => mkState (out s) c (IpsetCache s)).
Definition set_ipset (c : C Z) : gst state unit := gst_do (fun s => mkState (out s) (DNSFilter s) c).

Definition nil_panic : string := "nil pointer dereference".

(** The default expirations of the caches (setup.go). *)
Definition filterExpiration : Z := 300 * 10 ^ 9.
Definition ipsetExpiration : Z := 3600 * 10 ^ 9.

(** ** Arguments *)

Context (ip6 : string -> ip) (ip6s : ip -> string) (Compile : string -> option re) (Parse : string -> option URL).
(** rr.String, dns.NewRR with its error ignored, and the exchange with the local
    resolver over UDP ([false]) or TCP: [inr] is an error, [inl None] no message. *)
Context (rr_String : rr -> string) (NewRR : string -> option rr) (Exchange : bool -> option dns_msg + string).
(** The answers of the database; the first argument of [Nodedb] counts the
    queries of one request. *)
Context (IP4log IP6log : string -> option string) (SecurityEvent : string -> option Z).
Context (Nodedb : nat -> string -> option (string * string)).
(** What the API and the filter service answer, and whether the lock of the
    configuration could be taken. *)
Context (api : string -> jv -> error) (pffilter : string -> jv -> jv + string) (locked : bool).
Context (pf : pfdns) (now : Z).

(** ** Lookups *)

Definition IP2Mac (x : string) (ipVersion : Z) : option string :=
  if decide (ipVersion = 4) then IP4log x else IP6log x.

Definition HasSecurityEvents (mac : string) : bool :=
  match SecurityEvent mac with Some securityEventCount => bool_decide (securityEventCount <> 0) | None => false end.

(** The lock is released when the function returns. *)
Definition RefreshPfconfig : gst state unit :=
  if locked then gst_ret tt else gst_lift (Panic "Unable to obtain pfconfigpool lock in pfdns middleware").

Definition checkDetectionMechanisms (e : string) : bool :=
  if detectionBypass pf then false else existsb (fun rgx => MatchString rgx e) (detectionMechanisms pf).

Definition LocalResolver : option dns_msg + string :=
  let accept r :=
    match r with
    | None => inl None
    | Some m => if decide (Rcode m = RcodeNameError \/ Rcode m = RcodeSuccess) then inl (Some m)
                else inr "No name server to answer the question"
    end in
  match Exchange false with
  | inl r => accept r
  | inr _ => match Exchange true with inl r => accept r | inr err => inr err end
  end.

(** nil.MatchString panics. *)
Definition rgx_match (rgx : option re) (e : string) : go bool :=
  match rgx with Some r => Ret (MatchString r e) | None => Panic nil_panic end.

(** The loop over a table of passthroughs up to the first match. *)
Fixpoint first_match (l : list (option re * list string)) (e : string) : go (option (list string)) :=
  match l with
  | [] => Ret None
  | (k, v) :: l' => (b <-! rgx_match k e ;; if b : bool then Ret (Some v) else first_match l' e)%go
  end.

(** ** Writing *)

(** re.ReplaceAllString of the runs of white space by one blank. *)
Fixpoint squeeze (inside : bool) (s : string) : string :=
  match s with
  | EmptyString => EmptyString
  | String c s' => if is_space c then (if inside then squeeze true s' else String " " (squeeze true s')) else String c (squeeze false s')
  end.

(** strings.TrimRight with a set of characters. *)
Fixpoint TrimRight (p : Ascii.ascii -> bool) (s : string) : string :=
  match s with
  | EmptyString => EmptyString
  | String c s' => match TrimRight p s' with
                   | EmptyString => if p c then EmptyString else String c EmptyString
                   | t => String c t
                   end
  end.

Definition newline : string := String "010" EmptyString.

Definition logreply (x mac qname qtype : string) (answers : list rr) (scope : string) : gst state unit :=
  let b := foldr (fun r s => squeeze false (rr_String r) +:+ " " +:+ newline +:+ " " +:+ s) EmptyString answers in
  if recordDNS pf
  then emit (DNSAudit x mac (TrimRight (is_char ".") qname) qtype scope (TrimRight (fun c => is_char " " c || is_char "010" c) b))
  else gst_ret tt.

Definition SetPassthrough (passthrough x port : string) (local : bool) : gst state error :=
  let queryLocal := if local then "1" else "0" in
  let cacheKey := passthrough +:+ ":" +:+ x +:+ ":" +:+ port +:+ ":" +:+ queryLocal in
  (cached <-- gst_get (fun s => tc_get now cacheKey (IpsetCache s)) ;;
   match cached with
   | Some _ => gst_ret None
   | None =>
       let path := "/api/v1/ipset/" +:+ passthrough +:+ "?local=" +:+ queryLocal in
       let body := JMap [("ip", JStr x); ("port", JStr port)] in
       emit (ApiPost path body) ;;;
       match api path body with
       | Some err => gst_ret (Some err)
       | None =>
           (c <-- gst_get IpsetCache ;;
            set_ipset (tc_set ipsetExpiration now cacheKey 1 c) ;;;
            gst_ret None)
       end
   end)%go.

(** The ports of the addresses of an answer are opened one after the other. *)
Fixpoint open_ports (zone x : string) (ports : list string) : gst state unit :=
  match ports with
  | [] => gst_ret tt
  | valeur :: ports' => (SetPassthrough zone x valeur false ;;; open_ports zone x ports')%go
  end.

Fixpoint open_answers (zone : string) (ports : list string) (l : list rr) : gst state unit :=
  match l with
  | [] => gst_ret tt
  | RR_A _ a :: l' => (open_ports zone (IPString ip6s a) ports ;;; open_answers zone ports l')%go
  | _ :: l' => open_answers zone ports l'
  end.

(** A passthrough: the name is resolved, its addresses are opened and the
    answer is sent; after an error nothing is sent. *)
Definition serve_passthrough (q : query) (mac zone scope : string) (ports : list string) : gst state unit :=
  match LocalResolver with
  | inr _ => gst_ret tt
  | inl None => gst_lift (Panic nil_panic)
  | inl (Some answer) =>
      (open_answers zone ports (app (Answer answer) (Extra answer)) ;;;
       logreply (q_IP q) mac (QName q) (q_Type q) (Answer answer) scope ;;;
       emit (WriteMsg (Answer answer)))%go
  end.

(** An answer of one record, which may be nil. *)
Definition serve_record (q : query) (mac : string) (r : option rr) (scope : string) : gst state unit :=
  match r with
  | None => gst_lift (Panic nil_panic)
  | Some r => (logreply (q_IP q) mac (QName q) (q_Type q) [r] scope ;;; emit (WriteMsg [r]))%go
  end.

(** ** The DNS filter *)

Definition MakeKeyCache (mac category : string) (securityEvent : bool) (qname : string) : string :=
  mac +:+ category +:+ (if securityEvent then "true" else "false") +:+ qname.

(** The variable is declared outside of the loop over the networks. *)
Definition network_type (v : NetworkConf) (Type_ : string) : string :=
  if decide (nc_Type v = "inlinel2" \/ nc_Type v = "inlinel3") then "inline"
  else if decide (nc_Type v = "vlan-isolation") then "isolation"
  else if decide (nc_Type v = "vlan-registration") then "registration"
  else if decide (nc_Type v = "dns-enforcement") then "dnsenforcement"
  else Type_.

(** The name is one of the portal of a network with the client. *)
Fixpoint portal_name (l : list (IPNet * option re)) (bIP : ip) (qname : string) : go bool :=
  match l with
  | [] => Ret false
  | (c, d) :: l' =>
      if Contains c bIP then (b <-! rgx_match d qname ;; if b : bool then Ret true else portal_name l' bIP qname)%go
      else portal_name l' bIP qname
  end.

(** The text of the answer in what the filter returned. *)
Definition filter_response (info : jv) : go string :=
  match info with
  | JMap m =>
      match List.find (fun kv => bool_decide (kv.1 = "answer")) m with
      | None => Ret EmptyString
      | Some (_, JStr s) => Ret s
      | Some _ => Panic type_panic
      end
  | _ => Panic type_panic
  end.

(** The filter is asked; [true]: the query has been answered, [false]: the loop
    over the networks is left. *)
Definition ask_filter (q : query) (mac cacheKey Type_ : string) : gst state bool :=
  let params := JMap [("qname", JStr (QName q)); ("peerhost", JStr (q_RemoteAddr q)); ("qtype", JNum (QType q)); ("mac", JStr mac)] in
  (emit (FilterDns Type_ params) ;;;
   match pffilter Type_ params with
   | inr _ =>
       (c <-- gst_get DNSFilter ;;
        set_filter (tc_set filterExpiration now cacheKey "null" c) ;;;
        gst_ret false)
   | inl info =>
       (response <-- gst_lift (filter_response info) ;;
        c <-- gst_get DNSFilter ;;
        set_filter (tc_set filterExpiration now cacheKey response c) ;;;
        serve_record q mac (NewRR response) "DNS Filter" ;;;
        gst_ret true)
   end)%go.

Definition dns_filter (q : query) (mac category Type_ : string) (securityEvent : bool) : gst state bool :=
  let cacheKey := MakeKeyCache mac category securityEvent (QName q) in
  (reply <-- gst_get (fun s => fst <$> tc_get now cacheKey (DNSFilter s)) ;;
   match reply with
   | Some r =>
       if decide (r <> "null") then serve_record q mac (NewRR r) "DNS Filter" ;;; gst_ret true
       else ask_filter q mac cacheKey Type_
   | None => ask_filter q mac cacheKey Type_
   end)%go.

(** What is done in the first network with the client. *)
Definition in_network (q : query) (bIP : ip) (mac category Type_ : string) (securityEvent : bool) : gst state bool :=
  if decide (Type_ = "dnsenforcement" \/ Type_ = "inline") then
    let '(status, category) := match Nodedb 1 mac with Some sc => sc | None => ("unreg", category) end in
    if bool_decide (status = "reg") && negb securityEvent && bool_decide (category <> "REJECT") then
      (found <-- gst_lift (portal_name (PortalFQDN pf) bIP (QName q)) ;;
       if found : bool then dns_filter q mac category Type_ securityEvent
       else emit NextServeDNS ;;; gst_ret true)%go
    else if bool_decide (status = "reg") && bool_decide (category = "REJECT") then
      (serve_record q mac (NewRR "30 IN A 127.0.0.1") Type_ ;;; gst_ret true)%go
    else dns_filter q mac category Type_ securityEvent
  else dns_filter q mac category Type_ securityEvent.

(** The loop over the networks. *)
Fixpoint network_loop (q : query) (bIP : ip) (mac category : string) (securityEvent : bool)
  (nets : list (IPNet * NetworkConf)) (Type_ : string) : gst state bool :=
  match nets with
  | [] => gst_ret false
  | (k, v) :: nets' =>
      let Type_ := network_type v Type_ in
      if Contains k bIP then in_network q bIP mac category Type_ securityEvent
      else network_loop q bIP mac category securityEvent nets' Type_
  end.

(** ** The address of the portal *)

(** The header of the answer, that of the first network with the client; without
    one it is empty. *)
Fixpoint portal_header (l : list (IPNet * option re)) (bIP : ip) (q : query) (Rrtype : Z) (PortalDetection : bool) : go RR_Header :=
  match l with
  | [] => Ret (mkHdr EmptyString 0 0 0)
  | (c, d) :: l' =>
      if Contains c bIP then
        (b <-! rgx_match d (QName q) ;;
         Ret (mkHdr (QName q) Rrtype (QClass q) (if b : bool then 60 else if PortalDetection then 5 else 15)))%go
      else portal_header l' bIP q Rrtype PortalDetection
  end.

(** The first four bytes of the address of the portal. *)
Definition internal_portal : go ip :=
  match InternalPortalIP pf with
  | a :: b :: c :: d :: _ => Ret [a; b; c; d]
  | _ => Panic index_panic
  end.

Fixpoint portal_A (nets : list (string * ip)) (bIP : ip) (A : ip) (found : bool) : go ip :=
  match nets with
  | [] => Ret A
  | (n, v) :: nets' =>
      match ParseCIDR ip6 n with
      | None => Panic nil_panic
      | Some (_, k) =>
          if Contains k bIP then
            match List.find (fun wx : IPNet * NetworkConf => bool_decide (IPNetString ip6s k = IPNetString ip6s wx.1)) (NetworkType pf) with
            | Some (_, x) =>
                (returnedIP <-! (if decide (nc_NextHop x <> EmptyString) then Ret (To4 v) else internal_portal) ;;
                 portal_A nets' bIP returnedIP true)%go
            | None => portal_A nets' bIP A found
            end
          else if found then Ret A else portal_A nets' bIP [] found
      end
  end.

Fixpoint portal_AAAA (nets : list (string * ip)) (bIP : ip) : go ip :=
  match nets with
  | [] => Ret []
  | (n, v) :: nets' =>
      match ParseCIDR ip6 n with
      | None => Panic nil_panic
      | Some (_, k) => if Contains k bIP then Ret (To16 v) else portal_AAAA nets' bIP
      end
  end.

Definition portal_record (q : query) (bIP : ip) (PortalDetection : bool) : go rr :=
  (if decide (To4 bIP <> []) then
     (h <-! portal_header (PortalFQDN pf) bIP q TypeA PortalDetection ;;
      A <-! portal_A (Network pf) bIP [] false ;;
      Ret (RR_A h (if decide (A = []) then [127; 0; 0; 2] else A)))
   else
     (h <-! portal_header (PortalFQDN pf) bIP q TypeAAAA PortalDetection ;;
      A <-! portal_AAAA (Network pf) bIP ;;
      Ret (RR_AAAA h (if decide (A = []) then IPv6loopback else A))))%go.

(** ** ServeDNS *)

Definition ServeDNS (q : query) : gst state unit :=
  let srcIP := q_IP q in
  let bIP := ParseIP ip6 srcIP in
  let ipVersion := if decide (To4 bIP = []) then 6 else 4 in
  let mac := match IP2Mac srcIP ipVersion with Some m => m | None => "00:00:00:00:00:00" end in
  let category := match Nodedb 0 mac with Some (_, c) => c | None => EmptyString end in
  let PortalDetection := checkDetectionMechanisms (QName q) in
  let securityEvent := HasSecurityEvents mac in
  (RefreshPfconfig ;;;
   domain <-- gst_lift (first_match (FqdnDomainPort pf) (QName q)) ;;
   match domain with
   | Some v => serve_passthrough q mac "passthrough" "Portal" v
   | None =>
       (isolation <-- gst_lift (if securityEvent && negb PortalDetection then first_match (FqdnIsolationPort pf) (QName q) else Ret None) ;;
        match isolation with
        | Some v => serve_passthrough q mac "passthrough_isolation" "Isolation passthrough" v
        | None =>
            (registration <-- gst_lift (if negb PortalDetection then first_match (FqdnPort pf) (QName q) else Ret None) ;;
             match registration with
             | Some v => serve_passthrough q mac "passthrough" "Passthrough" v
             | None =>
                 (answered <-- network_loop q bIP mac category securityEvent (NetworkType pf) EmptyString ;;
                  if answered : bool then gst_ret tt
                  else
                    (r <-- gst_lift (portal_record q bIP PortalDetection) ;;
                     serve_record q mac (Some r) "Portal"))
             end)
        end)
   end)%go.
End Server.

(** ** Configuration *)

Section Configuration.
Context (ip6 : string -> ip) (ip6s : ip -> string) (Compile : string -> option re) (Parse : string -> option URL).

Definition domain_ports : list string :=
  ["tcp:88"; "udp:88"; "udp:123"; "udp:135"; "tcp:135"; "udp:137"; "udp:138"; "udp:139"; "tcp:139"; "tcp:389"; "udp:389"; "udp:445";
   "tcp:445"; "udp:464"; "tcp:464"; "tcp:1025"; "udp:49155"; "tcp:49155"; "udp:49156"; "tcp:49156"; "udp:49172"; "tcp:49172"].

Definition DomainPassthroughInit (Keys : list string) : list (option re * list string) :=
  (fun v => (Compile (".*(_msdcs|_sites)." +:+ v), domain_ports)) <$> Keys.

(** PassthroughsInit and PassthroughsIsolationInit, over the wildcard and the
    normal names with their ports. *)
Definition PassthroughsInit (Wildcard Normal : list (string * list string)) : list (option re * list string) :=
  app ((fun kv : string * list string => (Compile (".*" +:+ kv.1), kv.2)) <$> Wildcard)
      ((fun kv : string * list string => (Compile ("^" +:+ kv.1 +:+ ".$"), kv.2)) <$> Normal).

Definition DNSRecord (RecordDNS : string) : bool := bool_decide (RecordDNS = "enabled").

(** The networks of the configuration with their keys. *)
Definition PortalFQDNInit (Hostname Domain : string) (nets : list (string * NetworkConf)) : list (IPNet * option re) :=
  app ((fun kc : string * NetworkConf =>
          let fqdn := if decide (nc_PortalFQDN kc.2 <> EmptyString) then nc_PortalFQDN kc.2 else Hostname +:+ "." +:+ Domain in
          (mkIPNet (ParseIP ip6 kc.1) (ParseIP ip6 (nc_Netmask kc.2)), Compile (".*" +:+ fqdn))) <$> nets)
      [(mkIPNet IPv4zero IPv4zero, Compile (".*" +:+ Hostname +:+ "." +:+ Domain))].

Definition addDetectionMechanismsToList (l : list re) (r : string) : list re :=
  match Compile r with Some rgx => app l [rgx] | None => l end.

Definition MakeDetectionMecanism (Bypass : string) (DetectionMecanismUrls : list string) : bool * list re :=
  (bool_decide (Bypass = "enabled"),
   fold_left (fun l v => match Parse v with Some fqdn => addDetectionMechanismsToList l (Host fqdn) | None => l end) DetectionMecanismUrls []).

(** An interface: its address in the cluster, empty without one ([None]: it
    could not be fetched), and its addresses with their networks ([None]: they
    could not be read). *)
Record interface := mkInterface { if_cluster : option string; if_addrs : option (list (ip * IPNet)) }.

(** The mask is that of a single host, or not a mask. *)
Definition host_mask (n : IPNet) : bool :=
  match simpleMaskLength (net_Mask n) with Some a => bool_decide (a = 8 * Z.of_nat (length (net_Mask n))) | None => true end.

Definition serves_network (NetIP : IPNet) (c : NetworkConf) : bool :=
  (Contains NetIP (ParseIP ip6 (nc_DhcpStart c)) && Contains NetIP (ParseIP ip6 (nc_DhcpEnd c))) ||
  Contains NetIP (ParseIP ip6 (nc_NextHop c)).

(** The registration network of a network, if the interface has it. *)
Definition reg_network (NetIP : IPNet) (c : NetworkConf) : option IPNet :=
  if decide (nc_RegNetwork c <> EmptyString) then
    match ParseCIDR ip6 (nc_RegNetwork c) with
    | Some (IP2, NetIP2) => if Contains NetIP IP2 then Some NetIP2 else None
    | None => None
    end
  else None.

Definition key_network (key : string) (c : NetworkConf) : IPNet := mkIPNet (ParseIP ip6 key) (ParseIP ip6 (nc_Netmask c)).

(** A network that cannot be fetched is empty and matches nothing. *)
Definition emptyConf : NetworkConf := mkNet EmptyString EmptyString EmptyString EmptyString EmptyString EmptyString EmptyString.

Definition detectType (interfaces : list interface) (confs : list (string * option NetworkConf)) : list (IPNet * NetworkConf) :=
  concat ((fun i => concat ((fun a : ip * IPNet =>
    if host_mask a.2 then []
    else concat ((fun kc : string * option NetworkConf =>
      let ConfNet := default emptyConf kc.2 in
      app (if serves_network a.2 ConfNet then [(key_network kc.1 ConfNet, ConfNet)] else [])
          (match reg_network a.2 ConfNet with Some n => [(n, ConfNet)] | None => [] end)) <$> confs)) <$> default [] (if_addrs i))) <$> interfaces).

(** The turns of the loops of detectVIP: the network of the interface, the
    address to answer with, and a network of the configuration. *)
Definition vip_turns (interfaces : list interface) (confs : list (string * option NetworkConf)) : list (IPNet * ip * string * NetworkConf) :=
  concat ((fun i =>
    match if_cluster i with
    | None => []
    | Some cluster =>
        concat ((fun a : ip * IPNet =>
          if host_mask a.2 then []
          else omap (fun kc : string * option NetworkConf =>
                 ConfNet ← kc.2; Some (a.2, if decide (cluster <> EmptyString) then ParseIP ip6 cluster else a.1, kc.1, ConfNet)) confs)
          <$> default [] (if_addrs i))
    end) <$> interfaces).

Definition vip_turn (t : IPNet * ip * string * NetworkConf) (Network : gmap string ip) : gmap string ip :=
  let '(NetIP, VIP, key, ConfNet) := t in
  let Network := if serves_network NetIP ConfNet then <[IPNetString ip6s (key_network key ConfNet) := VIP]> Network else Network in
  match reg_network NetIP ConfNet with Some n => <[IPNetString ip6s n := VIP]> Network | None => Network end.

(** [lock n]: whether the n-th attempt to take the lock succeeds. *)
Fixpoint vip_loop (lock : nat -> bool) (n : nat) (turns : list (IPNet * ip * string * NetworkConf)) (Network : gmap string ip) : gmap string ip * error :=
  match turns with
  | [] => (Network, None)
  | t :: turns' =>
      if lock n then vip_loop lock (S n) turns' (vip_turn t Network) else (Network, Some "Unable to create a RWLock")
  end.

(** [None]: the keys could not be fetched. *)
Definition detectVIP (lock : nat -> bool) (interfaces : list interface) (confs : option (list (string * option NetworkConf)))
  (Network : gmap string ip) : gmap string ip * error :=
  match confs with
  | None => (Network, Some "Unable to fetch config::Network from pfconfig")
  | Some confs => vip_loop lock 0 (vip_turns interfaces confs) Network
  end.
End Configuration.

(** Refresh, when the passthroughs or the record setting have changed. *)
Section Refreshing.
Context {C : Type -> Type} {TC : TimedCache C}.

Definition Refresh (passthroughs_valid dns_valid : bool) (registration isolation : list (option re * list string)) (RecordDNS : string)
  (pf : pfdns) (s : state (C := C)) : pfdns * state (C := C) :=
  let '(pf, s) :=
    if passthroughs_valid then (pf, s)
    else (mkPfdns (InternalPortalIP pf) registration isolation (FqdnDomainPort pf) (Network pf) (NetworkType pf) (PortalFQDN pf)
                  (detectionBypass pf) (detectionMechanisms pf) (recordDNS pf),
          mkState (out s) tc_empty tc_empty) in
  if dns_valid then (pf, s)
  else (mkPfdns (InternalPortalIP pf) (FqdnPort pf) (FqdnIsolationPort pf) (FqdnDomainPort pf) (Network pf) (NetworkType pf) (PortalFQDN pf)
                (detectionBypass pf) (detectionMechanisms pf) (DNSRecord RecordDNS), s).
End Refreshing.

(** ** Theorems *)

Section Resolving.
Context {C : Type -> Type} {TC : TimedCache C}.
Context (ip6 : string -> ip) (ip6s : ip -> string).
Context (rr_String : rr -> string) (NewRR : string -> option rr) (Exchange : bool -> option dns_msg + string).
Context (IP4log IP6log : string -> option string) (SecurityEvent : string -> option Z).
Context (Nodedb : nat -> string -> option (string * string)).
Context (api : string -> jv -> error) (pffilter : string -> jv -> jv + string) (locked : bool).
Context (pf : pfdns) (now : Z).

Abbreviation serve := (ServeDNS ip6 ip6s rr_String NewRR Exchange IP4log IP6log SecurityEvent Nodedb api pffilter locked pf now (C := C)).

(** The MAC that stands for the client. *)
Definition client_mac (q : query) : string :=
  match IP2Mac IP4log IP6log (q_IP q) (if decide (To4 (ParseIP ip6 (q_IP q)) = []) then 6 else 4) with
  | Some m => m
  | None => "00:00:00:00:00:00"
  end.

(** Relations between states that every step satisfies but the one that hands a
    query on. *)
Class Quiet (R : state (C := C) -> state (C := C) -> Prop) := {
  quiet_pre :: PreOrder R;
  quiet_emit : forall e, e <> NextServeDNS -> pres R (emit e);
  quiet_filter : forall c, pres R (set_filter c);
  quiet_ipset : forall c, pres R (set_ipset c)
}.

#[local] Hint Resolve quiet_filter quiet_ipset : pres.
#[local] Hint Extern 1 (Quiet _) => typeclasses eauto : pres.
#[local] Hint Extern 1 (pres _ (emit _)) => apply quiet_emit; discriminate : pres.

Lemma pres_logreply R `{!Quiet R} x mac qname qtype answers scope : pres R (logreply rr_String pf x mac qname qtype answers scope).
Proof. unfold logreply. pres_walk. Qed.

Lemma pres_SetPassthrough R `{!Quiet R} zone x port local : pres R (SetPassthrough api now zone x port local).
Proof. unfold SetPassthrough. repeat (pres_walk; intros). Qed.
#[local] Hint Resolve pres_logreply pres_SetPassthrough : pres.

Lemma pres_open_ports R `{!Quiet R} zone x ports : pres R (open_ports api now zone x ports).
Proof. induction ports; cbn [open_ports]; repeat (pres_walk; intros). Qed.
#[local] Hint Resolve pres_open_ports : pres.

Lemma pres_open_answers R `{!Quiet R} zone ports l : pres R (open_answers ip6s api now zone ports l).
Proof. induction l as [|[] l IH]; cbn [open_answers]; repeat (pres_walk; intros); done. Qed.
#[local] Hint Resolve pres_open_answers : pres.

Lemma pres_serve_passthrough R `{!Quiet R} q mac zone scope ports :
  pres R (serve_passthrough ip6s rr_String Exchange api pf now q mac zone scope ports).
Proof. unfold serve_passthrough. repeat (pres_walk; intros). Qed.

Lemma pres_serve_record R `{!Quiet R} q mac r scope : pres R (serve_record rr_String pf q mac r scope).
Proof. unfold serve_record. repeat (pres_walk; intros). Qed.
#[local] Hint Resolve pres_serve_passthrough pres_serve_record : pres.

Lemma pres_dns_filter R `{!Quiet R} q mac category Type_ sec :
  pres R (dns_filter rr_String NewRR pffilter pf now q mac category Type_ sec).
Proof. unfold dns_filter, ask_filter. repeat (pres_walk; intros). Qed.
#[local] Hint Resolve pres_dns_filter : pres.

(** A query is handed on only if [P]. *)
Definition hands_on_if (P : Prop) (s s' : state (C := C)) : Prop := NextServeDNS ∈ out s' -> NextServeDNS ∈ out s \/ P.

#[local] Instance hands_on_if_quiet P : Quiet (hands_on_if P).
Proof.
  split; [split; unfold hands_on_if; [by left|]; intros s1 s2 s3 H1 H2 H3; destruct (H2 H3) as [H|H]; auto|..].
  - intros e He. apply pres_do. intros s H. cbn in H. apply elem_of_app in H as [H|H%list_elem_of_singleton]; [by left|congruence].
  - intros c. apply pres_do. intros s H. by left.
  - intros c. apply pres_do. intros s H. by left.
Qed.

Lemma pres_emit_next (P : Prop) : P -> pres (hands_on_if P) (emit NextServeDNS).
Proof. intros HP. apply pres_do. intros s H. by right. Qed.

(** Nothing that was written is taken back. *)
Definition keeps (e : event) (s s' : state (C := C)) : Prop := e ∈ out s -> e ∈ out s'.

#[local] Instance keeps_quiet e : Quiet (keeps e).
Proof.
  split; [split; unfold keeps; auto|..]; intros; apply pres_do; intros s Hs; cbn; auto. apply elem_of_app. by left.
Qed.

(** After a pure step its result is known. *)
Lemma pres_after_lift {A B} (P : Prop) (x : go A) (k : A -> gst (state (C := C)) B) :
  (forall a, x = Ret a -> pres (hands_on_if P) (k a)) -> pres (hands_on_if P) (gst_bind (gst_lift x) k).
Proof. intros H s. unfold gst_bind, gst_lift. destruct x as [a|msg]; [by apply H|]. cbn. reflexivity. Qed.

(** The type of a network after those before it in the loop. *)
Definition type_after (nets : list (IPNet * NetworkConf)) (Type_ : string) : string :=
  fold_left (fun t kv => network_type kv.2 t) nets Type_.

(** The types of networks in the configuration, and those in which queries of
    registered clients are resolved *)
Definition known_type (t : string) : Prop := t ∈ ["inlinel2"; "inlinel3"; "vlan-isolation"; "vlan-registration"; "dns-enforcement"].
Definition resolving_type (t : string) : Prop := t ∈ ["inlinel2"; "inlinel3"; "dns-enforcement"].

(** The first network with an address is an inline or DNS enforcement network, or
    one of an unknown type that comes after such a network. *)
Definition resolving_network (nets : list (IPNet * NetworkConf)) (bIP : ip) : Prop :=
  exists pre k v post, nets = app pre ((k, v) :: post) /\ Forall (fun kv => Contains kv.1 bIP = false) pre /\ Contains k bIP = true /\
    (resolving_type (nc_Type v) \/ ~ known_type (nc_Type v) /\ Exists (fun kv => resolving_type (nc_Type kv.2)) pre).

Lemma network_type_inv v T : network_type v T = "dnsenforcement" \/ network_type v T = "inline" ->
  resolving_type (nc_Type v) \/ ~ known_type (nc_Type v) /\ (T = "dnsenforcement" \/ T = "inline").
Proof.
  unfold network_type, resolving_type, known_type. intros H. rewrite !elem_of_cons, elem_of_nil.
  repeat case_decide; try (destruct H; discriminate); naive_solver.
Qed.

Lemma type_after_inv nets T : type_after nets T = "dnsenforcement" \/ type_after nets T = "inline" ->
  Exists (fun kv => resolving_type (nc_Type kv.2)) nets \/ (T = "dnsenforcement" \/ T = "inline").
Proof.
  revert T. induction nets as [|kv nets IH]; intros T H; [by right|]. cbn in H. apply IH in H as [H|H]; [left; by right|].
  apply network_type_inv in H as [H|[_ H]]; [left; by left|by right].
Qed.

(** When the query of a client may be handed on. *)
Definition may_resolve (q : query) : Prop :=
  let bIP := ParseIP ip6 (q_IP q) in let mac := client_mac q in
  (exists category, Nodedb 1 mac = Some ("reg", category) /\ category <> "REJECT") /\
  HasSecurityEvents SecurityEvent mac = false /\
  resolving_network (NetworkType pf) bIP /\
  portal_name (PortalFQDN pf) bIP (QName q) = Ret false /\
  first_match (FqdnDomainPort pf) (QName q) = Ret None.

Abbreviation in_net := (in_network rr_String NewRR Nodedb pffilter pf now (C := C)).

Lemma pres_in_network (P : Prop) q bIP mac category Type_ sec :
  ((exists category, Nodedb 1 mac = Some ("reg", category) /\ category <> "REJECT") -> sec = false ->
   (Type_ = "dnsenforcement" \/ Type_ = "inline") -> portal_name (PortalFQDN pf) bIP (QName q) = Ret false -> P) ->
  pres (hands_on_if P) (in_net q bIP mac category Type_ sec).
Proof.
  intros HP. unfold in_network. case_decide; [|auto with pres].
  destruct (match Nodedb 1 mac with Some sc => sc | None => ("unreg", category) end) as [status cat] eqn:En.
  destruct (bool_decide (status = "reg") && negb sec && bool_decide (cat <> "REJECT")) eqn:Eb; [|repeat (pres_walk; intros)].
  apply andb_true_iff in Eb as [[Hs%bool_decide_eq_true Hsec%negb_true_iff]%andb_true_iff Hc%bool_decide_eq_true].
  apply pres_after_lift. intros [] Hp; [auto with pres|]. apply pres_bind; [apply _| |intros; auto with pres].
  apply pres_emit_next, HP; [|done..]. exists cat. destruct (Nodedb 1 mac) as [sc|]; [by subst|]. injection En as <- <-. done.
Qed.

(** The same by the type that the loop has reached. *)
Definition reached (nets : list (IPNet * NetworkConf)) (Type_ : string) (bIP : ip) : Prop :=
  exists pre k v post, nets = app pre ((k, v) :: post) /\ Forall (fun kv => Contains kv.1 bIP = false) pre /\ Contains k bIP = true /\
    (type_after (app pre [(k, v)]) Type_ = "dnsenforcement" \/ type_after (app pre [(k, v)]) Type_ = "inline").

Lemma reached_resolving nets bIP : reached nets EmptyString bIP -> resolving_network nets bIP.
Proof.
  intros (pre & k & v & post & -> & Hpre & Hk & HT). exists pre, k, v, post. split_and!; [done..|].
  unfold type_after in HT. rewrite fold_left_app in HT. apply network_type_inv in HT as [?|[Hn HT]]; [by left|right].
  split; [done|]. by apply type_after_inv in HT as [?|[?|?]].
Qed.

Lemma pres_network_loop (P : Prop) q bIP mac category sec nets Type_ :
  ((exists category, Nodedb 1 mac = Some ("reg", category) /\ category <> "REJECT") -> sec = false ->
   reached nets Type_ bIP -> portal_name (PortalFQDN pf) bIP (QName q) = Ret false -> P) ->
  pres (hands_on_if P) (network_loop rr_String NewRR Nodedb pffilter pf now q bIP mac category sec nets Type_).
Proof.
  revert Type_. induction nets as [|[k v] nets IH]; intros Type_ HP; cbn [network_loop]; [auto with pres|].
  destruct (Contains k bIP) eqn:Ek.
  - apply pres_in_network. intros H1 H2 H3 H4. apply HP; [done|done| |done]. exists [], k, v, nets. by split_and!.
  - apply IH. intros H1 H2 (pre & k' & v' & post & -> & Hpre & Hk & HT) H3. apply HP; [done|done| |done].
    exists ((k, v) :: pre), k', v', post. split_and!; [done|by constructor|done|done].
Qed.


(** *** The DNS filter *)

(** A failure of the filter is remembered as null for five minutes, but it
    is not used: while it is in the cache, every further query of the client for
    the name asks the filter again. *)
Theorem remembered_failure_is_asked_again q mac category Type_ sec s e :
  tc_get now (MakeKeyCache mac category sec (QName q)) (DNSFilter s) = Some ("null", e) ->
  exists params, FilterDns Type_ params ∈ out (dns_filter rr_String NewRR pffilter pf now q mac category Type_ sec s).1.
Proof.
  intros Hc. unfold dns_filter. unfold gst_bind at 1, gst_get at 1. rewrite Hc. cbn [fmap option_fmap option_map fst].
  rewrite decide_False by (intros H; by apply H). unfold ask_filter. set (params := JMap _). exists params.
  set (k := fun _ : unit => match pffilter Type_ params with inr _ => _ | inl info => _ end).
  assert (Hk : pres (keeps (FilterDns Type_ params)) (k tt)) by (subst k; cbn; repeat (pres_walk; intros)).
  unfold gst_bind at 1. cbn [emit gst_do]. apply (Hk (mkState _ _ _)). cbn. apply elem_of_app. right. by apply list_elem_of_singleton.
Qed.
End Resolving.

(** *** The address of the portal *)

(** An IPv4 network as the configuration has them: the address is that of the
    network. *)
Definition ipv4_network (k : IPNet) : Prop := exists a b c d l,
  is_byte a /\ is_byte b /\ is_byte c /\ is_byte d /\ 0 <= l <= 32 /\
  mask_with [a; b; c; d] (CIDRMask 4 l) = [a; b; c; d] /\ k = network16 a b c d l.

Lemma ipv4_network_text ip6 ip6s k : ipv4_network k -> exists a k',
  ParseCIDR ip6 (IPNetString ip6s k) = Some (a, k') /\ (forall x, Contains k' x = Contains k x) /\ IPNetString ip6s k' = IPNetString ip6s k.
Proof.
  intros (a & b & c & d & l & Ha & Hb & Hc & Hd & Hl & Hm & ->). eexists _, _. split; [by apply ParseCIDR_String|]. split.
  - intros x. by apply ParseCIDR_Contains.
  - unfold IPNetString. rewrite Hm, network16_number by done. destruct (mask_length l Hl) as [_ Hn].
    unfold networkNumberAndMask. cbn [net_IP net_Mask]. change (To4 [a; b; c; d]) with [a; b; c; d].
    rewrite !(decide_False (P := [a; b; c; d] = [])), (decide_False (P := _ /\ _)) by (try intros [? _]; done).
    by rewrite Hn, !decide_True.
Qed.

Section Portal.
Context (ip6 : string -> ip) (ip6s : ip -> string) (pf : pfdns).

(** The networks that are served, with the address of this server in them. *)
Context (served : list (IPNet * ip * NetworkConf)).
Hypothesis served_ipv4 : Forall (fun s => ipv4_network s.1.1) served.
Hypothesis served_once : NoDup ((fun s : IPNet * ip * NetworkConf => IPNetString ip6s s.1.1) <$> served).
(** The tables of the server have them, in any order. *)
Hypothesis networks : Network pf ≡ₚ ((fun s : IPNet * ip * NetworkConf => (IPNetString ip6s s.1.1, s.1.2)) <$> served).
Hypothesis types : NetworkType pf ≡ₚ ((fun s : IPNet * ip * NetworkConf => (s.1.1, s.2)) <$> served).

(** The client is in one of them. *)
Context (bIP : ip) (k0 : IPNet) (v0 : ip) (x0 : NetworkConf).
Hypothesis client_served : (k0, v0, x0) ∈ served.
Hypothesis client_inside : Contains k0 bIP = true.
Hypothesis client_once : forall s, s ∈ served -> Contains s.1.1 bIP = true -> s.1.1 = k0.

Lemma served_inj s : s ∈ served -> IPNetString ip6s s.1.1 = IPNetString ip6s k0 -> s = (k0, v0, x0).
Proof.
  intros Hs E. apply list_elem_of_lookup in Hs as [i Hi]. apply list_elem_of_lookup in client_served as [j Hj].
  assert (i = j); [|congruence]. eapply (NoDup_lookup _ _ _ _ served_once); rewrite list_lookup_fmap.
  - rewrite Hi. reflexivity.
  - rewrite Hj. cbn. by rewrite E.
Qed.

Lemma found_type : exists w, List.find (fun wx : IPNet * NetworkConf => bool_decide (IPNetString ip6s k0 = IPNetString ip6s wx.1)) (NetworkType pf) = Some (w, x0).
Proof.
  destruct (List.find _ (NetworkType pf)) as [[w x]|] eqn:E.
  - apply find_some in E as [Hin E%bool_decide_eq_true]. apply list_elem_of_In in Hin. rewrite types in Hin.
    apply list_elem_of_fmap in Hin as (s & [= -> ->] & Hs). cbn in E. rewrite (served_inj s Hs (eq_sym E)). by eexists.
  - exfalso. assert (Hin : (k0, x0) ∈ NetworkType pf).
    { rewrite types. apply list_elem_of_fmap. by exists (k0, v0, x0). }
    apply list_elem_of_In in Hin. eapply find_none in E; [|exact Hin]. by rewrite bool_decide_eq_true_2 in E.
Qed.

(** What a network with the client answers. *)
Definition portal_address : go ip := if decide (nc_NextHop x0 <> EmptyString) then Ret (To4 v0) else internal_portal pf.

(** One turn of the loop. *)
Lemma portal_A_turn s nets A found : s ∈ served ->
  portal_A ip6 ip6s pf ((IPNetString ip6s s.1.1, s.1.2) :: nets) bIP A found =
  if decide (s.1.1 = k0) then (a <-! portal_address ;; portal_A ip6 ip6s pf nets bIP a true)%go
  else if found then Ret A else portal_A ip6 ip6s pf nets bIP [] found.
Proof.
  intros Hs. cbn [portal_A]. rewrite Forall_forall in served_ipv4.
  destruct (ipv4_network_text ip6 ip6s s.1.1 (served_ipv4 s Hs)) as (a & k' & -> & Hc & Ht). rewrite Hc, Ht.
  case_decide as E.
  - rewrite E, client_inside. destruct found_type as [w ->]. by rewrite (served_inj s Hs) by (by rewrite E).
  - destruct (Contains s.1.1 bIP) eqn:Ec; [|done]. by apply client_once in Ec.
Qed.

Lemma portal_A_found a nets : portal_address = Ret a -> (forall nv, nv ∈ nets -> nv ∈ Network pf) ->
  portal_A ip6 ip6s pf nets bIP a true = Ret a.
Proof.
  intros Ha. induction nets as [|[n v] nets IH]; intros Hin; [done|].
  assert (Hs := Hin (n, v) ltac:(by left)). rewrite networks in Hs. apply list_elem_of_fmap in Hs as (s & [= -> ->] & Hs).
  rewrite portal_A_turn by done. case_decide; [|done]. rewrite Ha. cbn. apply IH. intros nv Hnv. apply Hin. by right.
Qed.

Lemma portal_A_search nets : (forall nv, nv ∈ nets -> nv ∈ Network pf) -> (IPNetString ip6s k0, v0) ∈ nets ->
  portal_A ip6 ip6s pf nets bIP [] false = portal_address.
Proof.
  induction nets as [|[n v] nets IH]; intros Hin H0; [by apply elem_of_nil in H0|].
  assert (Hs := Hin (n, v) ltac:(by left)). rewrite networks in Hs. apply list_elem_of_fmap in Hs as (s & [= -> ->] & Hs).
  rewrite portal_A_turn by done. case_decide as E.
  - destruct portal_address as [a|] eqn:Ea; [|done]. cbn. apply portal_A_found; [done|]. intros nv Hnv. apply Hin. by right.
  - apply IH; [intros nv Hnv; apply Hin; by right|]. apply elem_of_cons in H0 as [[= E' _]|H0]; [|done].
    exfalso. apply E. by rewrite (served_inj s Hs).
Qed.

(** In whatever order the maps are iterated, a client of exactly one of the
    served networks gets the address of this server in its network if the
    network is routed, and the address of the portal otherwise. *)
Theorem portal_address_any_order :
  portal_A ip6 ip6s pf (Network pf) bIP [] false = portal_address.
Proof.
  apply portal_A_search; [done|]. rewrite networks. apply list_elem_of_fmap. by exists (k0, v0, x0).
Qed.
End Portal.

(** *** Passthroughs and errors *)

Section More.
Context {C : Type -> Type} {TC : TimedCache C} {TL : TimedCacheLaws C}.
Context (api : string -> jv -> error).

(** A port that was opened for an address is not opened again for an hour,
    and one that could not be opened is tried again at once. *)
Theorem opened_once_per_hour zone x port local now now' s s' e :
  now <= now' <= now + ipsetExpiration ->
  SetPassthrough (C := C) api now zone x port local s = (s', Ret e) ->
  tc_get now (zone +:+ ":" +:+ x +:+ ":" +:+ port +:+ ":" +:+ (if local then "1" else "0")) (IpsetCache s) = None ->
  match e with
  | None => SetPassthrough (C := C) api now' zone x port local s' = (s', Ret None)
  | Some _ => IpsetCache s' = IpsetCache s
  end.
Proof.
  intros Hn Hs Hc. unfold SetPassthrough in Hs. unfold gst_bind at 1, gst_get at 1 in Hs. rewrite Hc in Hs.
  set (path := "/api/v1/ipset/" +:+ _) in Hs. set (body := JMap _) in Hs. unfold gst_bind at 1, emit, gst_do in Hs.
  destruct (api path body) as [err|]; [by injection Hs as <- <-|].
  unfold gst_bind, gst_get, set_ipset, gst_do, gst_ret in Hs. cbn in Hs. injection Hs as <- <-.
  unfold SetPassthrough, gst_bind at 1, gst_get at 1. cbn [IpsetCache].
  rewrite tc_get_set by (unfold ipsetExpiration; lia). rewrite !decide_True by (done || lia). reflexivity.
Qed.
End More.

Section Errors.
Context {C : Type -> Type} {TC : TimedCache C}.
Context (rr_String : rr -> string) (NewRR : string -> option rr) (pffilter : string -> jv -> jv + string) (pf : pfdns) (now : Z).

(** A reply of the filter without an answer makes the server panic: the
    empty text holds no record, for which NewRR gives nil. *)
Theorem reply_without_answer_panics q mac category Type_ sec s :
  NewRR EmptyString = None ->
  tc_get now (MakeKeyCache mac category sec (QName q)) (DNSFilter s) = None ->
  (forall T p, exists m, pffilter T p = inl (JMap m) /\ Forall (fun kv => kv.1 <> "answer") m) ->
  (dns_filter (C := C) rr_String NewRR pffilter pf now q mac category Type_ sec s).2 = Panic nil_panic.
Proof.
  intros Hr Hc Hf. unfold dns_filter, gst_bind at 1, gst_get at 1. rewrite Hc. cbn [fmap option_fmap option_map].
  unfold ask_filter. set (params := JMap _). destruct (Hf Type_ params) as (m & Em & Hm).
  unfold gst_bind at 1, emit, gst_do. rewrite Em. unfold filter_response.
  destruct (List.find _ m) as [kv|] eqn:E.
  - apply find_some in E as [Hin E%bool_decide_eq_true]. rewrite Forall_forall in Hm. by destruct (Hm kv (proj2 (list_elem_of_In _ _) Hin)).
  - unfold gst_bind, gst_lift, gst_get, set_filter, gst_do, serve_record. cbn. by rewrite Hr.
Qed.
End Errors.

(** An expression that does not compile makes every query panic that no earlier
    entry matches. *)
Lemma bad_passthrough_panics pre ports post e :
  (forall k v, (k, v) ∈ pre -> exists r, k = Some r /\ MatchString r e = false) ->
  first_match (app pre ((None, ports) :: post)) e = Panic nil_panic.
Proof.
  induction pre as [|[k v] pre IH]; intros H; [done|]. destruct (H k v ltac:(by left)) as (r & -> & Hr).
  cbn [app first_match rgx_match go_bind]. rewrite Hr. apply IH. intros k' v' Hin. apply (H k' v'). by right.
Qed.

(** A network of another type has the type of those before it. *)
Lemma other_type_is_inherited pre k v Type_ :
  Forall (fun t => nc_Type v <> t) ["inlinel2"; "inlinel3"; "vlan-isolation"; "vlan-registration"; "dns-enforcement"] ->
  type_after (app pre [(k, v)]) Type_ = type_after pre Type_.
Proof.
  intros H. rewrite !Forall_cons in H. destruct H as (H1 & H2 & H3 & H4 & H5 & _).
  unfold type_after. rewrite fold_left_app. cbn [fold_left snd]. unfold network_type. rewrite !decide_False by naive_solver. done.
Qed.

(** Networks are never taken out of the map. *)
Lemma vip_loop_keeps ip6 ip6s lock turns n Network key :
  is_Some (Network !! key) -> is_Some ((vip_loop ip6 ip6s lock n turns Network).1 !! key).
Proof.
  revert n Network. induction turns as [|t turns IH]; intros n Network H; [done|]. cbn [vip_loop].
  destruct (lock n); [|done]. apply IH. destruct t as [[[NetIP VIP] k] c]. unfold vip_turn.
  assert (Hi : forall k' v (N : gmap string ip), is_Some (N !! key) -> is_Some (<[k' := v]> N !! key)).
  { intros k' v N HN. apply lookup_insert_is_Some. destruct (decide (k' = key)); auto. }
  destruct (serves_network ip6 NetIP c), (reg_network ip6 NetIP c); auto.
Qed.

(** *** A concrete server *)

Abbreviation demo_cache := (fun V => gmap string (V * Z)).

Definition inline_net : IPNet * NetworkConf :=
  (network16 10 0 0 0 8, mkNet "inlinel2" EmptyString EmptyString EmptyString "255.0.0.0" EmptyString EmptyString).
Definition other_net : IPNet * NetworkConf :=
  (network16 172 16 0 0 16, mkNet "other" "172.16.0.1" EmptyString EmptyString "255.255.0.0" EmptyString EmptyString).

Definition demo_pf (types : list (IPNet * NetworkConf)) : pfdns :=
  mkPfdns [192; 0; 2; 1] [] [] [] [("10.0.0.0/8", IPv4 10 0 0 1); ("172.16.0.0/16", IPv4 10 0 0 1)] types
    (PortalFQDNInit (fun _ => []) (fun s => Some (dotted_lit (drop_str 2 s))) "pf" "example.com" []) false [] false.

Definition demo_query (client name : string) : query := mkQuery client (client +:+ ":53") name "A" 1 1.

Definition demo_state : state (C := demo_cache) := mkState [] ∅ ∅.

(** All clients are known and registered, and the filter does not answer. *)
Definition demo_serve (types : list (IPNet * NetworkConf)) (q : query) : state (C := demo_cache) * go unit :=
  ServeDNS (fun _ => []) (fun _ => EmptyString) (fun _ => EmptyString) (fun _ => None) (fun _ => inr EmptyString)
    (fun _ => Some "m") (fun _ => None) (fun _ => Some 0) (fun _ _ => Some ("reg", "guest")) (fun _ _ => None) (fun _ _ => inr EmptyString)
    true (demo_pf types) 0 q demo_state.


(** What is done with a query can depend on the order in which the map of
    the networks is iterated: the type of a network is kept for those after it
    whose own type is none of the known ones, so that a client of such a network
    resolves its query when an inline network comes first, and gets the address
    of the portal when it does not. *)
Theorem network_order_decides :
  out (demo_serve [inline_net; other_net] (demo_query "172.16.0.9" "example.org.")).1 = [NextServeDNS] /\
  WriteMsg [RR_A (mkHdr "example.org." TypeA 1 15) [10; 0; 0; 1]] ∈
    out (demo_serve [other_net; inline_net] (demo_query "172.16.0.9" "example.org.")).1.
Proof. split; [vm_compute; reflexivity|]. apply list_elem_of_In. right. left. vm_compute. reflexivity. Qed.

Lemma remembered_failure_is_asked_again_witness : exists params,
  FilterDns "registration" params ∈ out (dns_filter (C := demo_cache) (fun _ => EmptyString) (fun _ => None) (fun _ _ => inr EmptyString) (demo_pf []) 0
    (demo_query "10.1.1.1" "a.") "m" "guest" "registration" false (mkState [] {["mguestfalsea." := ("null", 5)]} ∅)).1.
Proof.
  apply (remembered_failure_is_asked_again (C := demo_cache) (fun _ => EmptyString) (fun _ => None) (fun _ _ => inr EmptyString) (demo_pf []) 0
    (demo_query "10.1.1.1" "a.") "m" "guest" "registration" false (mkState [] {["mguestfalsea." := ("null", 5)]} ∅) 5).
  vm_compute. reflexivity.
Defined.

(** The network of the client and another one. *)
Definition demo_served : list (IPNet * ip * NetworkConf) :=
  [(inline_net.1, IPv4 10 0 0 1, inline_net.2); (other_net.1, IPv4 10 0 0 1, other_net.2)].

Lemma demo_served_ipv4 : Forall (fun s => ipv4_network s.1.1) demo_served.
Proof.
  repeat constructor.
  - exists 10, 0, 0, 0, 8. unfold is_byte. split_and!; [lia..|reflexivity|reflexivity].
  - exists 172, 16, 0, 0, 16. unfold is_byte. split_and!; [lia..|reflexivity|reflexivity].
Qed.

Lemma demo_served_once : NoDup ((fun s : IPNet * ip * NetworkConf => IPNetString (fun _ => EmptyString) s.1.1) <$> demo_served).
Proof. apply (bool_decide_unpack _). vm_compute. exact I. Qed.

Lemma demo_client_once s : s ∈ demo_served -> Contains s.1.1 [172; 16; 0; 9] = true -> s.1.1 = other_net.1.
Proof.
  intros [->|[->|H]%elem_of_cons]%elem_of_cons; [intros H; vm_compute in H; discriminate H|done|by apply elem_of_nil in H].
Qed.

Lemma portal_address_any_order_witness :
  portal_A (fun _ => []) (fun _ => EmptyString) (demo_pf [other_net; inline_net]) (Network (demo_pf [other_net; inline_net])) [172; 16; 0; 9] [] false = Ret [10; 0; 0; 1].
Proof.
  etrans.
  - apply (portal_address_any_order (fun _ => []) (fun _ => EmptyString) (demo_pf [other_net; inline_net]) demo_served demo_served_ipv4 demo_served_once
      (Permutation_refl _) (perm_swap _ _ []) [172; 16; 0; 9] other_net.1 (IPv4 10 0 0 1) other_net.2).
    + by apply list_elem_of_In; right; left.
    + vm_compute. reflexivity.
    + exact demo_client_once.
  - vm_compute. reflexivity.
Defined.

Lemma opened_once_per_hour_witness :
  SetPassthrough (C := demo_cache) (fun _ _ => None) 7 "passthrough" "192.0.2.7" "tcp:443" false
    (mkState [ApiPost "/api/v1/ipset/passthrough?local=0" (JMap [("ip", JStr "192.0.2.7"); ("port", JStr "tcp:443")])] ∅
       {["passthrough:192.0.2.7:tcp:443:0" := (1, ipsetExpiration)]}) =
  (mkState [ApiPost "/api/v1/ipset/passthrough?local=0" (JMap [("ip", JStr "192.0.2.7"); ("port", JStr "tcp:443")])] ∅
       {["passthrough:192.0.2.7:tcp:443:0" := (1, ipsetExpiration)]}, Ret None).
Proof.
  apply (opened_once_per_hour (C := demo_cache) (fun _ _ => None) "passthrough" "192.0.2.7" "tcp:443" false 0 7 demo_state _ None).
  - unfold ipsetExpiration. lia.
  - vm_compute. reflexivity.
  - vm_compute. reflexivity.
Defined.

Lemma reply_without_answer_panics_witness :
  (dns_filter (C := demo_cache) (fun _ => EmptyString) (fun _ => None) (fun _ _ => inl (JMap [])) (demo_pf []) 0
    (demo_query "10.1.1.1" "a.") "m" "guest" "registration" false demo_state).2 = Panic nil_panic.
Proof.
  apply (reply_without_answer_panics (C := demo_cache) (fun _ => EmptyString) (fun _ => None) (fun _ _ => inl (JMap [])) (demo_pf []) 0
    (demo_query "10.1.1.1" "a.") "m" "guest" "registration" false demo_state).
  - reflexivity.
  - vm_compute. reflexivity.
  - intros T p. exists []. split; [reflexivity|constructor].
Defined.

(** Names are compared as they are sent. *)
Lemma portal_name_is_case_sensitive :
  portal_name (PortalFQDN (demo_pf [])) [10; 0; 0; 5] "pf.example.com." = Ret true /\
  portal_name (PortalFQDN (demo_pf [])) [10; 0; 0; 5] "PF.example.com." = Ret false.
Proof. split; vm_compute; reflexivity. Qed.

(** A wildcard passthrough is not anchored. *)
Lemma wildcard_matches_inside r h pre post : takes r h post ∅ ∅ ->
  first_match [(Some r, ["tcp:443"])] (pre +:+ h +:+ post) = Ret (Some ["tcp:443"]).
Proof. intros H. cbn [first_match rgx_match go_bind]. by rewrite (MatchString_inside r pre (h +:+ post) (MatchString_takes _ _ _ _ H)). Qed.
