(* ===== verification/DnsName.v ===== *)
(** Domain names and resource records of the zones that the DNS server keeps
    (src/go/coredns/plugin/file/tree/less.go): the functions of the DNS library
    that the zone code calls, as a class with their documented behaviour, and the
    canonical order of names.

    The library is not part of the repository.  Its functions are the fields of
    [DnsLib]; [DnsLaws] states what its documentation says of them in terms of
    the labels of a name, each label with the dot that ends it.  [plain_lib]
    shows that the laws can hold: it is the library on names without escapes. *)
From S2P Require Import Prelude.
From Stdlib Require Import ZArith Lia Ascii.
From stdpp Require Import base gmap strings list.

Open Scope Z_scope.

(** ** Resource records *)

Inductive rdata :=
  | NS (Ns : string)
  | SOA (Ns Mbox : string) (Serial Refresh Retry Expire : Z)
  | CNAME (Target : string)
  | DNAME (Target : string)
  | MX (Mx : string)
  | SRV (Target : string)
  | RRSIG (TypeCovered : Z)
  | Data (text : string).

Record RR := mkRR { rr_Name : string; rr_Type : Z; rr_Ttl : Z; rr_Data : rdata }.

#[export] Instance rdata_eq_dec : EqDecision rdata.
Proof. solve_decision. Defined.
#[export] Instance RR_eq_dec : EqDecision RR.
Proof. solve_decision. Defined.

Definition TypeA : Z := 1.
Definition TypeNS : Z := 2.
Definition TypeCNAME : Z := 5.
Definition TypeSOA : Z := 6.
Definition TypeMX : Z := 15.
Definition TypeAAAA : Z := 28.
Definition TypeSRV : Z := 33.
Definition TypeDNAME : Z := 39.
Definition TypeDS : Z := 43.
Definition TypeRRSIG : Z := 46.
Definition TypeNSEC : Z := 47.
Definition TypeNSEC3 : Z := 50.
Definition TypeNSEC3PARAM : Z := 51.

(** [l[i:j]] *)
Definition slice {A : Type} (i j : Z) (l : list A) : list A :=
  take (Z.to_nat j - Z.to_nat i) (drop (Z.to_nat i) l).

(** [s[i:]] *)
Definition str_from (i : Z) (s : string) : string := drop_str (Z.to_nat i) s.

(** [s[i:]] with the check of its bounds *)
Definition go_from (i : Z) (s : string) : go string :=
  if decide (0 <= i <= Z.of_nat (String.length s)) then Ret (str_from i s) else Panic "slice bounds out of range".

(** ** The DNS library *)

Class DnsLib : Type := {
  PrevLabel : string -> Z -> Z * bool;
  NextLabel : string -> Z -> Z * bool;
  IsSubDomain : string -> string -> bool;
  SplitDomainName : string -> list string;
  CountLabel : string -> Z;
  Fqdn : string -> string;
  NameString : string -> string
}.

Definition join_labels (l : list string) : string := foldr String.append EmptyString l.

(** The documented behaviour: [PrevLabel s n] is the start of the n-th label from
    the right, with whether the start of the name was overshot; [NextLabel s i]
    the start of the label after the one that [i] is in, with whether the end of
    the name was reached; a subdomain ends with the labels of its parent, which
    are compared without case, and every name is below the root, whose name has
    no labels for [CountLabel] and [SplitDomainName]. *)
Class DnsLaws `{DnsLib} : Type := {
  labels : string -> list string;
  labels_join s : join_labels (labels s) = s;
  labels_nonempty s : Forall (fun l => l <> EmptyString) (labels s);
  PrevLabel_law s n : 1 <= n ->
    PrevLabel s n =
      if decide (n <= Z.of_nat (length (labels s)))
      then (Z.of_nat (String.length (join_labels (take (length (labels s) - Z.to_nat n) (labels s)))), false)
      else (0, true);
  NextLabel_law l x k i : labels (join_labels (app l (x :: k))) = app l (x :: k) ->
    Z.of_nat (String.length (join_labels l)) <= i < Z.of_nat (String.length (join_labels (app l [x]))) ->
    NextLabel (join_labels (app l (x :: k))) i =
      (Z.of_nat (String.length (join_labels (app l [x]))), bool_decide (k = []));
  NextLabel_past s i : Z.of_nat (String.length s) <= i -> (NextLabel s i).2 = true;
  IsSubDomain_law p c : IsSubDomain p c = true <->
    p = "."%string \/ (p = EmptyString /\ c = EmptyString) \/
    (p <> EmptyString /\ c <> EmptyString /\ exists l, ToLower <$> labels c = app l (ToLower <$> labels p));
  Fqdn_idem s : Fqdn (Fqdn s) = Fqdn s;
  CountLabel_law s : CountLabel s =
    if decide (s = "."%string) then 0 else if decide (s = EmptyString) then 1 else Z.of_nat (length (labels s));
  SplitDomainName_law s : length (SplitDomainName s) = if decide (s = "."%string) then 0%nat else length (labels s)
}.

(** ** The canonical order *)

(** Lexicographic comparison: a proper prefix comes first. *)
Fixpoint lex {A : Type} (c : A -> A -> Z) (l k : list A) : Z :=
  match l, k with
  | [], [] => 0
  | [], _ :: _ => -1
  | _ :: _, [] => 1
  | x :: l', y :: k' => if decide (c x y = 0) then lex c l' k' else c x y
  end.

(** [bytes.Compare] *)
Definition Compare : list Z -> list Z -> Z := lex (fun x y => Z.sgn (x - y)).

Definition isDigit (b : Z) : bool := bool_decide (48 <= b) && bool_decide (b <= 57).

Definition dddToByte (a b c : Z) : Z := u8 (u8 (u8 ((a - 48) * 100) + (b - 48) * 10) + (c - 48)).

(** One pass over the bytes: an escape [\DDD] at [i] becomes its byte and the
    bytes after it, up to [lb], move three places to the left.  The bytes behind
    stay: the slice of the caller keeps its length. *)
Fixpoint doDDD_loop (fuel : nat) (i lb : nat) (b : list Z) : list Z :=
  match fuel with
  | O => b
  | S fuel' =>
      if decide (i < lb)%nat then
        match drop i b with
        | e :: d1 :: d2 :: d3 :: _ =>
            if bool_decide (i + 3 < lb)%nat && bool_decide (e = 92) && isDigit d1 && isDigit d2 && isDigit d3
            then doDDD_loop fuel' (S i) (lb - 3)
                   (app (take i b) (dddToByte d1 d2 d3 :: app (drop (i + 4) (take lb b)) (drop (lb - 3) b)))
            else doDDD_loop fuel' (S i) lb b
        | _ => doDDD_loop fuel' (S i) lb b
        end
      else b
  end.

Definition doDDD (b : list Z) : list Z := doDDD_loop (S (length b)) 0 (length b) b.

Section Order.
Context `{DnsLib}.

(** The labels from the right: [i] counts them, [aj] and [bj] are the ends of
    the labels that are compared. *)
Fixpoint less_loop (fuel : nat) (a b : string) (i aj bj : Z) : Z :=
  match fuel with
  | O => 0
  | S fuel' =>
      let '(ai, oka) := PrevLabel a i in
      let '(bi, okb) := PrevLabel b i in
      if oka && okb then 0
      else
        let ab := doDDD (slice ai aj (bytes_of_string a)) in
        let bb := doDDD (slice bi bj (bytes_of_string b)) in
        let res := Compare ab bb in
        if decide (res <> 0) then res
        else less_loop fuel' a b (i + 1) ai bi
  end.

Definition less (a b : string) : Z :=
  less_loop (S (S (String.length a))) a b 1 (Z.of_nat (String.length a)) (Z.of_nat (String.length b)).

End Order.

(** ** Lexicographic comparison is an order *)

(** A comparison: the sign of an order that tells all elements apart. *)
Class Comparison {A : Type} (c : A -> A -> Z) : Prop := {
  cmp_zero x y : c x y = 0 <-> x = y;
  cmp_flip x y : c y x = - c x y;
  cmp_trans x y z : c x y < 0 -> c y z < 0 -> c x z < 0
}.

#[export] Instance Comparison_sgn : Comparison (fun x y : Z => Z.sgn (x - y)).
Proof. split; intros; lia. Qed.

Lemma cmp_refl {A : Type} (c : A -> A -> Z) `{!Comparison c} x : c x x = 0.
Proof. by apply cmp_zero. Qed.

Section Lex.
Context {A : Type} (c : A -> A -> Z) `{!Comparison c}.

Lemma lex_zero l k : lex c l k = 0 <-> l = k.
Proof.
  revert k. induction l as [|x l IH]; intros [|y k]; cbn [lex]; [done|split; [lia|done]|split; [lia|done]|].
  case_decide as Hc.
  - apply cmp_zero in Hc as ->. rewrite IH. split; [by intros ->|by intros [= ->]].
  - split; [done|]. intros [= -> ->]. by rewrite cmp_refl in Hc.
Qed.

Lemma lex_flip l k : lex c k l = - lex c l k.
Proof.
  revert k. induction l as [|x l IH]; intros [|y k]; cbn [lex]; try done.
  rewrite (cmp_flip x y). destruct (decide (c x y = 0)) as [Hc|Hc].
  - rewrite decide_True by lia. apply IH.
  - by rewrite decide_False by lia.
Qed.

Lemma lex_trans l k m : lex c l k < 0 -> lex c k m < 0 -> lex c l m < 0.
Proof.
  revert k m. induction l as [|x l IH]; intros [|y k] [|z m]; cbn [lex]; try lia.
  destruct (decide (c x y = 0)) as [E1|E1].
  - apply cmp_zero in E1 as ->. case_decide as E2; [apply IH|done].
  - destruct (decide (c y z = 0)) as [E2|E2].
    + apply cmp_zero in E2 as ->. by rewrite decide_False.
    + intros H1 H2. pose proof (cmp_trans x y z H1 H2). rewrite decide_False by lia. done.
Qed.

#[export] Instance Comparison_lex : Comparison (lex c).
Proof. split; [apply lex_zero|apply lex_flip|apply lex_trans]. Qed.

(** What extends a list comes after it, and nothing that does not extend it
    comes between. *)
Lemma lex_app l k : k <> [] -> lex c l (app l k) < 0.
Proof.
  intros Hk. induction l as [|x l IH]; [by destruct k|]. cbn [app lex]. by rewrite (cmp_refl c), decide_True.
Qed.

Lemma lex_prefix_interval l k m : lex c l k < 0 -> lex c k (app l m) <= 0 -> exists m', k = app l m'.
Proof.
  revert k. induction l as [|x l IH]; intros [|y k]; cbn [app lex]; try lia; [by eauto|].
  rewrite (cmp_flip (c := c) x y). destruct (decide (c x y = 0)) as [E|E].
  - apply cmp_zero in E as ->. rewrite (cmp_refl c), decide_True by done. intros H1 H2.
    destruct (IH _ H1 H2) as [m' ->]. by exists m'.
  - rewrite decide_False by lia. lia.
Qed.

End Lex.

#[export] Instance Comparison_Compare : Comparison Compare.
Proof. apply Comparison_lex. apply _. Qed.

(** ** Names are compared by their keys *)

Section Names.
Context `{L : DnsLaws}.

Definition label_bytes (s : string) : list (list Z) := bytes_of_string <$> labels s.

(** The labels from the right, as they are compared. *)
Definition key (s : string) : list (list Z) := doDDD <$> reverse (label_bytes s).

End Names.

Lemma bytes_of_string_app s t : bytes_of_string (s +:+ t) = app (bytes_of_string s) (bytes_of_string t).
Proof.
  induction s as [|x s IH]; [done|].
  change (bytes_of_string (String x (s +:+ t)) = app (bytes_of_string (String x s)) (bytes_of_string t)).
  cbn [bytes_of_string app]. by rewrite IH.
Qed.

Lemma length_bytes_of_string s : length (bytes_of_string s) = String.length s.
Proof. induction s as [|x s IH]; cbn; [done|]. by rewrite IH. Qed.

Lemma bytes_join l : bytes_of_string (join_labels l) = concat (bytes_of_string <$> l).
Proof. induction l as [|x l IH]; [done|]. cbn [join_labels foldr]. rewrite bytes_of_string_app. cbn. by f_equal. Qed.

Lemma length_join l : String.length (join_labels l) = length (concat (bytes_of_string <$> l)).
Proof. by rewrite <- bytes_join, length_bytes_of_string. Qed.

Lemma length_doDDD_loop fuel i lb b : (lb <= length b)%nat -> length (doDDD_loop fuel i lb b) = length b.
Proof.
  revert i lb b. induction fuel as [|fuel IH]; intros i lb b Hl; [done|]. cbn [doDDD_loop].
  case_decide; [|done]. destruct (drop i b) as [|e [|d1 [|d2 [|d3 r]]]] eqn:E; try (by apply IH).
  destruct (bool_decide (i + 3 < lb)%nat) eqn:Hb; cbn [andb]; [|by apply IH]. apply bool_decide_eq_true_1 in Hb.
  destruct (bool_decide (e = 92) && isDigit d1 && isDigit d2 && isDigit d3); [|by apply IH].
  assert (Hn : length (app (take i b) (dddToByte d1 d2 d3 :: app (drop (i + 4) (take lb b)) (drop (lb - 3) b))) = length b).
  { rewrite length_app, length_cons, length_app, !length_drop, !length_take. lia. }
  rewrite IH by lia. done.
Qed.

Lemma length_doDDD b : length (doDDD b) = length b.
Proof. by apply length_doDDD_loop. Qed.

(** Labels without escapes are compared as they are. *)
Lemma doDDD_plain b : 92 ∉ b -> doDDD b = b.
Proof.
  unfold doDDD. generalize (length b) at 2. generalize (S (length b)). generalize 0%nat.
  intros i fuel. revert i. induction fuel as [|fuel IH]; intros i lb Hb; [done|]. cbn [doDDD_loop].
  case_decide; [|done]. destruct (drop i b) as [|e [|d1 [|d2 [|d3 r]]]] eqn:E; try (by apply IH).
  rewrite (bool_decide_eq_false_2 (e = 92)); [rewrite andb_false_r; by apply IH|].
  intros ->. apply Hb. rewrite <- (take_drop i b), E. set_solver.
Qed.

Section LessSpec.
Context `{L : DnsLaws}.

Lemma label_bytes_concat s : concat (label_bytes s) = bytes_of_string s.
Proof. unfold label_bytes. by rewrite <- bytes_join, labels_join. Qed.

Lemma length_label_bytes s : length (label_bytes s) = length (labels s).
Proof. apply length_fmap. Qed.

Lemma label_bytes_nonempty s : Forall (fun l => l <> []) (label_bytes s).
Proof.
  unfold label_bytes. apply Forall_fmap. eapply Forall_impl; [apply labels_nonempty|].
  intros x Hx. cbn. by destruct x.
Qed.

(** The offset of the [n]-th label from the right. *)
Definition offset (s : string) (n : nat) : Z :=
  Z.of_nat (length (concat (take (length (label_bytes s) - n) (label_bytes s)))).

Lemma PrevLabel_offset s n : (1 <= n)%nat ->
  PrevLabel s (Z.of_nat n) = (offset s n, bool_decide (length (label_bytes s) < n)%nat).
Proof.
  intros Hn. rewrite PrevLabel_law by lia. unfold offset. rewrite length_label_bytes, Nat2Z.id.
  case_decide.
  - rewrite bool_decide_eq_false_2 by lia. rewrite length_join. unfold label_bytes. by rewrite fmap_take.
  - rewrite bool_decide_eq_true_2 by lia. by replace (length (labels s) - n)%nat with 0%nat by lia.
Qed.

Lemma offset_0 s : offset s 0 = Z.of_nat (String.length s).
Proof. unfold offset. rewrite Nat.sub_0_r, firstn_all, label_bytes_concat. by rewrite length_bytes_of_string. Qed.

Lemma slice_concat {A} (l : list (list A)) n m : (n <= m)%nat ->
  slice (Z.of_nat (length (concat (take n l)))) (Z.of_nat (length (concat (take m l)))) (concat l) =
  concat (drop n (take m l)).
Proof.
  intros Hnm. unfold slice. rewrite !Nat2Z.id.
  assert (Ht : take m l = app (take n l) (drop n (take m l))).
  { rewrite <- (take_drop n (take m l)) at 1. by rewrite take_take, Nat.min_l by lia. }
  assert (Hl : concat l = app (concat (take n l)) (app (concat (drop n (take m l))) (concat (drop m l)))).
  { rewrite app_assoc, <- concat_app, <- Ht, <- concat_app. by rewrite take_drop. }
  rewrite Hl, drop_app_length. rewrite Ht at 1. rewrite concat_app, length_app, Nat.add_comm, Nat.add_sub.
  by rewrite take_app_length.
Qed.

Lemma slice_label s n :
  slice (offset s (S n)) (offset s n) (bytes_of_string s) = default [] (reverse (label_bytes s) !! n).
Proof.
  rewrite <- label_bytes_concat. unfold offset. rewrite slice_concat by lia. set (l := label_bytes s).
  destruct (decide (n < length l)%nat) as [Hn|Hn].
  - rewrite reverse_lookup by done. destruct (lookup_lt_is_Some_2 l (length l - S n)) as [x Hx]; [lia|]. rewrite Hx.
    replace (length l - n)%nat with (S (length l - S n)) by lia. rewrite (take_S_r _ _ _ Hx).
    rewrite drop_app_length'; [|rewrite length_take; lia]. cbn. by rewrite app_nil_r.
  - rewrite (lookup_ge_None_2 (reverse l)) by (rewrite length_reverse; lia).
    replace (length l - n)%nat with 0%nat by lia. by rewrite take_0, drop_nil.
Qed.

Lemma key_lookup s n : key s !! n = doDDD <$> (reverse (label_bytes s) !! n).
Proof. apply list_lookup_fmap. Qed.

Lemma length_key s : length (key s) = length (label_bytes s).
Proof. unfold key. by rewrite length_fmap, length_reverse. Qed.

Lemma key_nonempty s n x : key s !! n = Some x -> x <> [].
Proof.
  rewrite key_lookup. intros (l & Hl & ->)%fmap_Some Hx.
  apply list_elem_of_lookup_2 in Hl. rewrite elem_of_reverse in Hl.
  pose proof (label_bytes_nonempty s) as Hf. rewrite Forall_forall in Hf. specialize (Hf _ Hl).
  pose proof (length_doDDD l) as Hd. rewrite Hx in Hd. by destruct l.
Qed.

Lemma less_loop_spec fuel a b n : (n <= length (key a))%nat -> (length (key a) < fuel + n)%nat ->
  less_loop fuel a b (Z.of_nat (S n)) (offset a n) (offset b n) = lex Compare (drop n (key a)) (drop n (key b)).
Proof.
  revert n. induction fuel as [|fuel IH]; intros n Hn Hf; [lia|]. cbn [less_loop].
  rewrite !PrevLabel_offset, !slice_label by lia.
  rewrite <- !length_key.
  destruct (key a !! n) as [x|] eqn:Ex; destruct (key b !! n) as [y|] eqn:Ey.
  - rewrite (drop_S _ _ _ Ex), (drop_S _ _ _ Ey).
    apply lookup_lt_Some in Ex as Hx. rewrite (bool_decide_eq_false_2 (_ < _)%nat) by lia. cbn [andb lex].
    rewrite key_lookup in Ex, Ey. apply fmap_Some in Ex as (u & -> & ->), Ey as (v & -> & ->). cbn [from_option id].
    destruct (decide (Compare (doDDD u) (doDDD v) = 0)) as [Hc|Hc]; [|by rewrite decide_True].
    rewrite decide_False by lia. replace (Z.of_nat (S n) + 1) with (Z.of_nat (S (S n))) by lia. apply IH; lia.
  - apply lookup_lt_Some in Ex as Hx. apply lookup_ge_None_1 in Ey as Hy.
    rewrite (drop_S _ _ _ Ex), (drop_ge (key b)) by lia. apply key_nonempty in Ex as Hne.
    rewrite (bool_decide_eq_false_2 (length (key a) < _)%nat) by lia. cbn [andb lex].
    rewrite key_lookup in Ex, Ey. apply fmap_Some in Ex as (u & -> & ->). apply fmap_None in Ey as ->. cbn [from_option id].
    by destruct (doDDD u).
  - apply lookup_lt_Some in Ey as Hy. apply lookup_ge_None_1 in Ex as Hx.
    rewrite (drop_S _ _ _ Ey), (drop_ge (key a)) by lia. apply key_nonempty in Ey as Hne.
    rewrite (bool_decide_eq_false_2 (length (key b) < _)%nat), andb_false_r by lia. cbn [lex].
    rewrite key_lookup in Ex, Ey. apply fmap_Some in Ey as (u & -> & ->). apply fmap_None in Ex as ->. cbn [from_option id].
    by destruct (doDDD u).
  - apply lookup_ge_None_1 in Ex, Ey. rewrite !drop_ge, !bool_decide_eq_true_2 by lia. done.
Qed.

Lemma length_concat_ge {A} (l : list (list A)) : Forall (fun x => x <> []) l -> (length l <= length (concat l))%nat.
Proof. induction 1 as [|x l Hx _ IH]; [done|]. cbn. rewrite length_app. destruct x; [done|]. cbn. lia. Qed.

(** [less] compares the labels from the right; it always finds an answer. *)
Lemma less_spec a b : less a b = lex Compare (key a) (key b).
Proof.
  unfold less. rewrite <- !offset_0. rewrite (less_loop_spec _ a b 0); [done|lia|].
  rewrite length_key. pose proof (length_concat_ge _ (label_bytes_nonempty a)) as Hl.
  rewrite label_bytes_concat, length_bytes_of_string in Hl. lia.
Qed.

Lemma less_zero a b : less a b = 0 <-> key a = key b.
Proof. rewrite less_spec. apply (lex_zero _). Qed.

Lemma less_flip a b : less b a = - less a b.
Proof. rewrite !less_spec. apply (lex_flip _). Qed.

Lemma less_trans a b c : less a b < 0 -> less b c < 0 -> less a c < 0.
Proof. rewrite !less_spec. apply (lex_trans _). Qed.

Lemma less_eq_l a b c : less a b = 0 -> less a c = less b c.
Proof. rewrite less_zero, !less_spec. by intros ->. Qed.

Lemma less_refl a : less a a = 0.
Proof. by apply less_zero. Qed.

End LessSpec.

Lemma join_labels_app l k : join_labels (app l k) = (join_labels l +:+ join_labels k)%string.
Proof.
  induction l as [|x l IH]; [done|]. cbn [app join_labels foldr] in *.
  rewrite str_app_assoc. f_equal. exact IH.
Qed.

(** Every offset of a name is in one of its labels. *)
Lemma label_at l i : 0 <= i < Z.of_nat (String.length (join_labels l)) -> exists l1 x l2, l = app l1 (x :: l2) /\
  Z.of_nat (String.length (join_labels l1)) <= i < Z.of_nat (String.length (join_labels (app l1 [x]))).
Proof.
  revert i. induction l as [|y l IH]; intros i Hi; [cbn in Hi; lia|].
  change (join_labels (y :: l)) with (y +:+ join_labels l)%string in Hi. rewrite str_length_app in Hi.
  destruct (decide (i < Z.of_nat (String.length y))) as [Hy|Hy].
  - exists [], y, l. split; [done|]. cbn. rewrite str_app_nil_r. lia.
  - destruct (IH (i - Z.of_nat (String.length y)) ltac:(lia)) as (l1 & x & l2 & -> & Hx). exists (y :: l1), x, l2. split; [done|].
    cbn [app]. change (join_labels (y :: ?l)) with (y +:+ join_labels l)%string. rewrite !str_length_app. lia.
Qed.

(** A next label that is not past the end is further right. *)
Lemma NextLabel_forward `{L : DnsLaws} s i j : 0 <= i -> NextLabel s i = (j, false) -> i < j < Z.of_nat (String.length s).
Proof.
  intros Hi Hn. destruct (decide (Z.of_nat (String.length s) <= i)) as [Hp|Hp].
  { pose proof (NextLabel_past s i Hp) as Ht. by rewrite Hn in Ht. }
  destruct (label_at (labels s) i) as (l1 & x & l2 & Hl & Hx); [rewrite labels_join; lia|].
  pose proof (NextLabel_law l1 x l2 i) as Hlaw. rewrite <- Hl, labels_join, Hn in Hlaw.
  specialize (Hlaw eq_refl Hx). injection Hlaw as -> Hk. symmetry in Hk. apply bool_decide_eq_false in Hk.
  split; [lia|]. pose proof (labels_nonempty s) as Hne. rewrite Hl in Hne.
  assert (Hs : String.length s = String.length (join_labels (app l1 (x :: l2)))) by (by rewrite <- Hl, labels_join). rewrite Hs.
  destruct l2 as [|y l2]; [done|]. rewrite !Forall_app, !Forall_cons in Hne. destruct Hne as (_ & _ & Hy & _).
  rewrite !join_labels_app, !str_length_app. cbn [join_labels foldr]. rewrite !str_length_app. destruct y; [done|]. cbn. lia.
Qed.

(** ** Subdomains in the canonical order *)

(** A name in lower case without escapes. *)
Definition plain_name (s : string) : Prop := ToLower s = s /\ no_char "\" s = true.

Lemma ToLower_app s t : ToLower (s +:+ t) = (ToLower s +:+ ToLower t)%string.
Proof.
  induction s as [|c s IH]; [done|].
  change (String (ascii_lower c) (ToLower (s +:+ t)) = String (ascii_lower c) (ToLower s +:+ ToLower t)). by rewrite IH.
Qed.

Lemma str_app_inj s1 s2 t1 t2 : String.length s1 = String.length s2 -> (s1 +:+ t1 = s2 +:+ t2)%string -> s1 = s2 /\ t1 = t2.
Proof.
  revert s2. induction s1 as [|c s1 IH]; intros [|d s2] Hl Hs; try done.
  change (String c (s1 +:+ t1) = String d (s2 +:+ t2)) in Hs. injection Hs as -> Hs. injection Hl as Hl.
  by destruct (IH _ Hl Hs) as [-> ->].
Qed.

Lemma length_ToLower s : String.length (ToLower s) = String.length s.
Proof. induction s as [|c s IH]; cbn; [done|]. by rewrite IH. Qed.

Lemma plain_labels l : plain_name (join_labels l) -> Forall plain_name l.
Proof.
  induction l as [|x l IH]; intros [Hl He]; [constructor|]. cbn [join_labels foldr] in *.
  rewrite ToLower_app in Hl. apply str_app_inj in Hl as [Hx Hl]; [|by rewrite length_ToLower].
  rewrite no_char_app in He. apply andb_true_iff in He as [He1 He2].
  constructor; [done|]. by apply IH.
Qed.

#[export] Instance bytes_of_string_inj : Inj (=) (=) bytes_of_string.
Proof.
  intros s t. revert t. induction s as [|c s IH]; intros [|d t] H; try done. cbn in H. injection H as Hc Hs.
  f_equal; [|by apply IH]. apply Nat2Z.inj in Hc.
  by rewrite <- (Ascii.ascii_nat_embedding c), Hc, Ascii.ascii_nat_embedding.
Qed.

Lemma no_char_bytes s : no_char "\" s = true -> 92 ∉ bytes_of_string s.
Proof.
  induction s as [|c s IH]; cbn [no_char bytes_of_string]; [set_solver|].
  rewrite andb_true_iff, bool_decide_eq_true. intros [Hc Hs]. rewrite not_elem_of_cons. split; [|by apply IH].
  intros E. apply Hc. rewrite <- (Ascii.ascii_nat_embedding c). by replace (nat_of_ascii c) with 92%nat by lia.
Qed.

Section Sub.
Context `{L : DnsLaws}.

Lemma labels_root : labels "." = ["."%string].
Proof.
  pose proof (labels_join ".") as Hj. pose proof (labels_nonempty ".") as Hn. destruct (labels ".") as [|x l]; [done|].
  inversion Hn as [|? ? Hx Hl]; subst. destruct x as [|c [|c' x]]; [done| |done]. cbn in Hj. injection Hj as -> Hj.
  destruct l as [|y l]; [done|]. inversion Hl; subst. by destruct y.
Qed.

Lemma lower_root x : ToLower x = "."%string -> x = "."%string.
Proof.
  destruct x as [|c [|c' x]]; [done| |done]. intros E. cbn in E. injection E as E. f_equal.
  by destruct c as [[] [] [] [] [] [] [] []].
Qed.

Lemma PrevLabel_bounds s n : 1 <= n -> 0 <= (PrevLabel s n).1 <= Z.of_nat (String.length s).
Proof.
  intros Hn. rewrite PrevLabel_law by done. case_decide; cbn [fst]; [|lia].
  pose proof (f_equal String.length (labels_join s)) as Hs.
  rewrite <- (take_drop (length (labels s) - Z.to_nat n) (labels s)), join_labels_app, str_length_app in Hs. lia.
Qed.

Lemma plain_key s : plain_name s -> key s = reverse (label_bytes s).
Proof.
  intros Hs. unfold key. rewrite <- (list_fmap_id (reverse _)) at 2. apply list_fmap_ext. intros i x Hx.
  apply list_elem_of_lookup_2 in Hx. rewrite elem_of_reverse in Hx. unfold label_bytes in Hx.
  apply list_elem_of_fmap in Hx as (l & -> & Hl). rewrite <- (labels_join s) in Hs.
  apply plain_labels in Hs. rewrite Forall_forall in Hs. apply doDDD_plain, no_char_bytes. by apply Hs.
Qed.

Lemma plain_labels_lower s : plain_name s -> ToLower <$> labels s = labels s.
Proof.
  intros Hs. rewrite <- (labels_join s) in Hs. apply plain_labels in Hs. induction Hs as [|x l [Hx _] _ IH]; [done|].
  cbn. by rewrite Hx, IH.
Qed.

(** A name that is neither empty nor the name of the root. *)
Definition below_root (s : string) : Prop := s <> EmptyString /\ s <> "."%string.

(** Subdomains are the names whose key extends the key of the parent. *)
Lemma subdomain_key p c : below_root p -> plain_name p -> plain_name c ->
  (IsSubDomain p c = true <-> exists m, key c = app (key p) m).
Proof.
  intros [Hp0 Hpr] Hp Hc. rewrite IsSubDomain_law, !plain_labels_lower, !plain_key by done. unfold label_bytes.
  rewrite <- !fmap_reverse. split.
  - intros [?|[[? ?]|(_ & _ & l & ->)]]; [done|done|]. rewrite reverse_app, fmap_app. by eexists.
  - intros [m Hm]. right. right. split; [done|]. split.
    { intros ->. apply Hp0. rewrite <- (labels_join p). pose proof (labels_join EmptyString) as He.
      pose proof (labels_nonempty EmptyString) as Hn. destruct (labels EmptyString) as [|x l]; cycle 1.
      { inversion Hn; subst. cbn in He. by destruct x. }
      cbn in Hm. destruct (labels p) as [|y l]; [done|]. rewrite reverse_cons, fmap_app in Hm. cbn in Hm.
      by destruct (bytes_of_string <$> reverse l). }
    apply (f_equal reverse) in Hm. rewrite reverse_app, <- !fmap_reverse, !reverse_involutive in Hm.
    apply fmap_app_inv in Hm as (l1 & l2 & _ & H2 & ->). exists l1. f_equal.
    by apply (inj (fmap (M := list) bytes_of_string)).
Qed.

(** A name and its subdomains are an interval of the order that starts with it. *)
Lemma subdomain_interval p c d : below_root p -> plain_name p -> plain_name c -> plain_name d ->
  less p c < 0 -> less c d <= 0 -> IsSubDomain p d = true -> IsSubDomain p c = true.
Proof.
  intros Hr Hp Hc Hd. rewrite !less_spec, !subdomain_key by done. intros H1 H2 [m Hm]. rewrite Hm in H2.
  by eapply (lex_prefix_interval _).
Qed.

Lemma subdomain_after p c : below_root p -> plain_name p -> plain_name c -> IsSubDomain p c = true -> less p c <= 0.
Proof.
  intros Hr Hp Hc. rewrite subdomain_key, less_spec by done. intros [[|x m] ->].
  - rewrite app_nil_r, (cmp_refl _). lia.
  - pose proof (lex_app Compare (key p) (x :: m) ltac:(done)). lia.
Qed.

End Sub.

(** ** The library on names without escapes *)

Fixpoint split_labels (s : string) : list string :=
  match s with
  | EmptyString => []
  | String c s' =>
      if decide (c = "."%char) then "."%string :: split_labels s'
      else match split_labels s' with
           | [] => [String c EmptyString]
           | x :: l => String c x :: l
           end
  end.

Fixpoint next_label (l : list string) (off i : Z) : Z * bool :=
  match l with
  | [] => (off, true)
  | x :: l' =>
      let e := off + Z.of_nat (String.length x) in
      if decide (i < e) then (e, bool_decide (l' = [])) else next_label l' e i
  end.

Definition strip_dot (l : string) : string :=
  if HasSuffix l "." then String.substring 0 (String.length l - 1) l else l.

Definition plain_lib : DnsLib := {|
  PrevLabel s n :=
    if decide (n <= Z.of_nat (length (split_labels s)))
    then (Z.of_nat (String.length (join_labels (take (length (split_labels s) - Z.to_nat n) (split_labels s)))), false)
    else (0, true);
  NextLabel s i := next_label (split_labels s) 0 i;
  IsSubDomain p c := bool_decide (p = "."%string \/ (p = EmptyString /\ c = EmptyString) \/
    (p <> EmptyString /\ c <> EmptyString /\ (ToLower <$> split_labels p) `suffix_of` (ToLower <$> split_labels c)));
  SplitDomainName s := if decide (s = "."%string) then [] else strip_dot <$> split_labels s;
  CountLabel s := if decide (s = "."%string) then 0 else if decide (s = EmptyString) then 1 else Z.of_nat (length (split_labels s));
  Fqdn s := if HasSuffix s "." then s else (s +:+ ".")%string;
  NameString s := s
|}.

Lemma join_split_labels s : join_labels (split_labels s) = s.
Proof.
  induction s as [|c s IH]; [done|]. cbn [split_labels]. case_decide as Hc.
  - subst. cbn [join_labels foldr]. change (foldr _ _ (split_labels s)) with (join_labels (split_labels s)). by rewrite IH.
  - destruct (split_labels s) as [|x l]; cbn in *; by rewrite <- IH.
Qed.

Lemma split_labels_nonempty s : Forall (fun l => l <> EmptyString) (split_labels s).
Proof.
  induction s as [|c s IH]; [constructor|]. cbn [split_labels]. case_decide; [by constructor|].
  destruct IH; repeat constructor; done.
Qed.

Lemma next_label_spec l x k off i :
  off + Z.of_nat (String.length (join_labels l)) <= i < off + Z.of_nat (String.length (join_labels (app l [x]))) ->
  next_label (app l (x :: k)) off i = (off + Z.of_nat (String.length (join_labels (app l [x]))), bool_decide (k = [])).
Proof.
  revert off. induction l as [|y l IH]; intros off Hi; cbn [app next_label].
  - cbn [app join_labels foldr] in *. rewrite str_app_nil_r in *. by rewrite decide_True by lia.
  - cbn [app] in Hi. change (join_labels (y :: ?l)) with (y +:+ join_labels l)%string in *. rewrite !str_length_app in *.
    rewrite decide_False by lia. rewrite IH by lia. f_equal. lia.
Qed.

Lemma next_label_past l off i : off + Z.of_nat (String.length (join_labels l)) <= i -> (next_label l off i).2 = true.
Proof.
  revert off. induction l as [|y l IH]; intros off Hi; [done|]. cbn [next_label].
  change (join_labels (y :: l)) with (y +:+ join_labels l)%string in Hi. rewrite str_length_app in Hi.
  rewrite decide_False by lia. apply IH. lia.
Qed.

Lemma HasSuffix_app s p : HasSuffix (s +:+ p) p = true.
Proof.
  unfold HasSuffix. rewrite str_length_app. rewrite bool_decide_eq_true_2 by lia. apply bool_decide_eq_true.
  replace (String.length s + String.length p - String.length p)%nat with (String.length s) by lia. apply drop_str_app.
Qed.

Definition plain_laws : @DnsLaws plain_lib.
Proof.
  refine (@Build_DnsLaws plain_lib split_labels join_split_labels split_labels_nonempty _ _ _ _ _ _ _).
  - done.
  - intros l x k i Hl Hi. cbn. rewrite Hl. by apply (next_label_spec l x k 0 i).
  - intros s i Hi. cbn. apply next_label_past. by rewrite join_split_labels.
  - intros p c. cbn. by rewrite bool_decide_eq_true.
  - intros s. cbn. destruct (HasSuffix s ".") eqn:E; [by rewrite E|]. by rewrite HasSuffix_app.
  - done.
  - intros s. cbn. case_decide; [done|]. by rewrite length_fmap.
Defined.
