(* ===== verification/DnsTree.v ===== *)
(** The tree that keeps the records of a DNS zone
    (src/go/coredns/plugin/file/tree): a left-leaning red-black tree in which
    every node holds the records of one owner name, ordered as [less] orders
    names.  The mode of the tree is the constant bu23, so the branches of the
    other mode are not taken.

    A node is a tree value, [Nil] the nil pointer; rotations, [flipColors] and
    the descents that follow a nil pointer panic.  The reads of a child are all
    behind a test that the parent exists.  An element remembers its name the
    first time [Name] is called; since the first caller sees one record only, the
    name is the one of the record the element was made for, and the model writes
    the memory where it can be seen: before a record is added to an element and
    before its records are deleted.  A map is iterated in the order of
    [map_to_list]. *)
From S2P Require Import Prelude DnsName.
From Stdlib Require Import ZArith Lia Ascii.
From stdpp Require Import base gmap strings list sorting.

Open Scope Z_scope.

Definition nil_pointer : string := "nil pointer dereference".

(** ** Elements *)

Record elem := mkElem { e_m : gmap Z (list RR); e_name : string }.

Definition newElem (rr : RR) : elem := mkElem {[rr_Type rr := [rr]]} EmptyString.

(** The records of a type, empty when there are none. *)
Definition Type_ (e : elem) (qtype : Z) : list RR := default [] (e_m e !! qtype).

Definition Types (e : elem) : list Z := (map_to_list (e_m e)).*1.

Definition with_name (qname : string) (rr : RR) : RR := mkRR qname (rr_Type rr) (rr_Ttl rr) (rr_Data rr).

Definition TypeForWildcard (e : elem) (qtype : Z) (qname : string) : list RR := with_name qname <$> Type_ e qtype.

Definition All_ (e : elem) : list RR := concat (map_to_list (e_m e)).*2.

Definition Name (e : elem) : go string :=
  if decide (e_name e <> EmptyString) then Ret (e_name e)
  else match map_to_list (e_m e) with
       | (_, rr :: _) :: _ => Ret (rr_Name rr)
       | (_, []) :: _ => Panic "index out of range"
       | [] => Ret EmptyString
       end.

(** What [Name] leaves in the element. *)
Definition memo (e : elem) (name : string) : elem := mkElem (e_m e) name.

Definition Elem_Empty (e : elem) : bool := bool_decide (e_m e = ∅).

Definition Elem_Insert (e : elem) (rr : RR) : elem :=
  mkElem (<[rr_Type rr := app (Type_ e (rr_Type rr)) [rr]]> (e_m e)) (e_name e).

Definition Elem_Delete (e : elem) (rr : RR) : elem := mkElem (delete (rr_Type rr) (e_m e)) (e_name e).

(** ** Nodes *)

Definition Color : Type := bool.
Abbreviation red := false (only parsing).
Abbreviation black := true (only parsing).

Inductive node :=
  | Nil
  | Node (e : option elem) (l r : node) (c : Color).

Record Tree := mkTree { Root : node; Count : Z }.

Definition color (n : node) : Color := match n with Nil => black | Node _ _ _ c => c end.
Definition Left (n : node) : node := match n with Nil => Nil | Node _ l _ _ => l end.
Definition Right (n : node) : node := match n with Nil => Nil | Node _ _ r _ => r end.
Definition is_red (n : node) : bool := negb (color n).

Definition rotateLeft (n : node) : go node :=
  match n with
  | Node e l (Node re rl rr _) c => Ret (Node re (Node e l rl red) rr c)
  | _ => Panic nil_pointer
  end.

Definition rotateRight (n : node) : go node :=
  match n with
  | Node e (Node le ll lr _) r c => Ret (Node le ll (Node e lr r red) c)
  | _ => Panic nil_pointer
  end.

Definition flipColors (n : node) : go node :=
  match n with
  | Node e (Node le ll lr lc) (Node re rl rr rc) c =>
      Ret (Node e (Node le ll lr (negb lc)) (Node re rl rr (negb rc)) (negb c))
  | _ => Panic nil_pointer
  end.

(** The last two steps of an insertion and of a deletion. *)
Definition split4 (n : node) : go node :=
  (n1 <-! (if is_red (Left n) && is_red (Left (Left n)) then rotateRight n else Ret n) ;;
   if is_red (Left n1) && is_red (Right n1) then flipColors n1 else Ret n1)%go.

Definition fixUp (n : node) : go node :=
  (n1 <-! (if is_red (Right n) then rotateLeft n else Ret n) ;; split4 n1)%go.

(** [n.Left = f(n.Left)] and [n.Right = f(n.Right)] *)
Definition on_left (f : node -> go (node * Z)) (n : node) : go (node * Z) :=
  match n with
  | Node e l r c => (x <-! f l ;; Ret (Node e x.1 r c, x.2))%go
  | Nil => Panic nil_pointer
  end.

Definition on_right (f : node -> go (node * Z)) (n : node) : go (node * Z) :=
  match n with
  | Node e l r c => (x <-! f r ;; Ret (Node e l x.1 c, x.2))%go
  | Nil => Panic nil_pointer
  end.

Definition set_right (n r : node) : node := match n with Node e l _ c => Node e l r c | Nil => Nil end.

Definition moveRedLeft (n : node) : go node :=
  (n1 <-! flipColors n ;;
   if is_red (Left (Right n1)) then
     r <-! rotateRight (Right n1) ;;
     n2 <-! rotateLeft (set_right n1 r) ;;
     flipColors n2
   else Ret n1)%go.

Definition moveRedRight (n : node) : go node :=
  (n1 <-! flipColors n ;;
   if is_red (Left (Left n1)) then n2 <-! rotateRight n1 ;; flipColors n2
   else Ret n1)%go.

Definition blacken (n : node) : node := match n with Node e l r _ => Node e l r black | Nil => Nil end.

Definition is_nil (n : node) : bool := match n with Nil => true | _ => false end.

Fixpoint node_min (n : node) : go node :=
  match n with
  | Nil => Panic nil_pointer
  | Node _ Nil _ _ => Ret n
  | Node _ l _ _ => node_min l
  end.

Fixpoint node_max (n : node) : go node :=
  match n with
  | Nil => Panic nil_pointer
  | Node _ _ Nil _ => Ret n
  | Node _ _ r _ => node_max r
  end.

Fixpoint node_size (n : node) : nat :=
  match n with Nil => 0 | Node _ l r _ => S (node_size l + node_size r) end.

(** The descents go to a child of the node that the rotations leave: the fuel is
    the size of the tree. *)
Fixpoint deleteMin_loop (fuel : nat) (n : node) : go (node * Z) :=
  match fuel with
  | O => Panic nil_pointer
  | S fuel' =>
      match n with
      | Nil => Panic nil_pointer
      | Node _ Nil _ _ => Ret (Nil, -1)
      | Node _ l _ _ =>
          (n1 <-! (if negb (is_red l) && negb (is_red (Left l)) then moveRedLeft n else Ret n) ;;
           nd <-! on_left (deleteMin_loop fuel') n1 ;;
           root <-! fixUp nd.1 ;; Ret (root, nd.2))%go
      end
  end.

Definition deleteMin (n : node) : go (node * Z) := deleteMin_loop (S (node_size n)) n.

Fixpoint deleteMax_loop (fuel : nat) (n : node) : go (node * Z) :=
  match fuel with
  | O => Panic nil_pointer
  | S fuel' =>
      match n with
      | Nil => Panic nil_pointer
      | Node _ l _ _ =>
          (n1 <-! (if is_red l then rotateRight n else Ret n) ;;
           if is_nil (Right n1) then Ret (Nil, -1)
           else
             n2 <-! (if negb (is_red (Right n1)) && negb (is_red (Left (Right n1))) then moveRedRight n1 else Ret n1) ;;
             nd <-! on_right (deleteMax_loop fuel') n2 ;;
             root <-! fixUp nd.1 ;; Ret (root, nd.2))%go
      end
  end.

Definition deleteMax (n : node) : go (node * Z) := deleteMax_loop (S (node_size n)) n.

Section Names.
Context `{DnsLib}.

Definition Less (e : option elem) (name : string) : go Z :=
  match e with
  | None => Panic nil_pointer
  | Some e => (n <-! Name e ;; Ret (less name n))%go
  end.

Fixpoint search (n : node) (qname : string) : go node :=
  match n with
  | Nil => Ret Nil
  | Node e l r _ =>
      (c <-! Less e qname ;;
       if decide (c = 0) then Ret n
       else if decide (c < 0) then search l qname
       else search r qname)%go
  end.

Fixpoint node_insert (rr : RR) (n : node) : go (node * Z) :=
  match n with
  | Nil => Ret (Node (Some (newElem rr)) Nil Nil red, 1)
  | Node None l r c => Ret (Node (Some (newElem rr)) l r c, 1)
  | Node (Some e) l r c =>
      (nm <-! Name e ;;
       let d := less (rr_Name rr) nm in
       nd <-! (if decide (d = 0) then Ret (Node (Some (Elem_Insert (memo e nm) rr)) l r c, 0)
               else if decide (d < 0) then x <-! node_insert rr l ;; Ret (Node (Some e) x.1 r c, x.2)
               else x <-! node_insert rr r ;; Ret (Node (Some e) l x.1 c, x.2)) ;;
       n1 <-! (if is_red (Right nd.1) && negb (is_red (Left nd.1)) then rotateLeft nd.1 else Ret nd.1) ;;
       root <-! split4 n1 ;; Ret (root, nd.2))%go
  end.

Definition elem_of_node (n : node) : option elem := match n with Node e _ _ _ => e | Nil => None end.
Definition set_elem (n : node) (e : option elem) : node := match n with Node _ l r c => Node e l r c | Nil => Nil end.

(** The deletion of the node that matches a name. *)
Fixpoint delete_loop (fuel : nat) (name : string) (n : node) : go (node * Z) :=
  match fuel with
  | O => Panic nil_pointer
  | S fuel' =>
      (c <-! Less (elem_of_node n) name ;;
       nd <-! (if decide (c < 0) then
                 if is_nil (Left n) then Ret (Some n, 0)
                 else
                   n1 <-! (if negb (is_red (Left n)) && negb (is_red (Left (Left n))) then moveRedLeft n else Ret n) ;;
                   x <-! on_left (delete_loop fuel' name) n1 ;; Ret (Some x.1, x.2)
               else
                 n1 <-! (if is_red (Left n) then rotateRight n else Ret n) ;;
                 if is_nil (Right n1) then
                   c1 <-! Less (elem_of_node n1) name ;;
                   if decide (c1 = 0) then Ret (None, -1) else Ret (Some n1, 0)
                 else
                   n2 <-! (if negb (is_red (Right n1)) && negb (is_red (Left (Right n1))) then moveRedRight n1 else Ret n1) ;;
                   c2 <-! Less (elem_of_node n2) name ;;
                   if decide (c2 = 0) then
                     m <-! node_min (Right n2) ;;
                     x <-! on_right deleteMin (set_elem n2 (elem_of_node m)) ;; Ret (Some x.1, x.2)
                   else
                     x <-! on_right (delete_loop fuel' name) n2 ;; Ret (Some x.1, x.2)) ;;
       match nd with
       | (None, d) => Ret (Nil, d)
       | (Some n', d) => root <-! fixUp n' ;; Ret (root, d)
       end)%go
  end.

Definition node_delete (name : string) (n : node) : go (node * Z) := delete_loop (S (node_size n)) name n.

(** The greatest name at or before [qname], and the smallest at or after it. *)
Fixpoint node_floor (n : node) (qname : string) : go node :=
  match n with
  | Nil => Ret Nil
  | Node e l r _ =>
      (c <-! Less e qname ;;
       if decide (c = 0) then Ret n
       else if decide (c <= 0) then node_floor l qname
       else x <-! node_floor r qname ;; if is_nil x then Ret n else Ret x)%go
  end.

Fixpoint node_ceil (n : node) (qname : string) : go node :=
  match n with
  | Nil => Ret Nil
  | Node e l r _ =>
      (c <-! Less e qname ;;
       if decide (c = 0) then Ret n
       else if decide (c > 0) then node_ceil r qname
       else x <-! node_ceil l qname ;; if is_nil x then Ret n else Ret x)%go
  end.

(** ** Trees *)

Definition Len (t : Tree) : Z := Count t.

Definition Search (t : Tree) (qname : string) : go (option elem * bool) :=
  (n <-! search (Root t) qname ;; Ret (elem_of_node n, negb (is_nil n)))%go.

Definition Tree_Insert (t : Tree) (rr : RR) : go Tree :=
  (x <-! node_insert rr (Root t) ;; Ret (mkTree (blacken x.1) (Count t + x.2)))%go.

Definition DeleteMin (t : Tree) : go Tree :=
  if is_nil (Root t) then Ret t
  else (x <-! deleteMin (Root t) ;; Ret (mkTree (blacken x.1) (Count t + x.2)))%go.

Definition DeleteMax (t : Tree) : go Tree :=
  if is_nil (Root t) then Ret t
  else (x <-! deleteMax (Root t) ;; Ret (mkTree (blacken x.1) (Count t + x.2)))%go.

Definition deleteNode (t : Tree) (rr : RR) : go Tree :=
  if is_nil (Root t) then Ret t
  else (x <-! node_delete (rr_Name rr) (Root t) ;; Ret (mkTree (blacken x.1) (Count t + x.2)))%go.

(** The element that [search] finds is changed in place. *)
Fixpoint set_found (n : node) (qname : string) (e' : elem) : go node :=
  match n with
  | Nil => Ret Nil
  | Node e l r cl =>
      (c <-! Less e qname ;;
       if decide (c = 0) then Ret (Node (Some e') l r cl)
       else if decide (c < 0) then x <-! set_found l qname e' ;; Ret (Node e x r cl)
       else x <-! set_found r qname e' ;; Ret (Node e l x cl))%go
  end.

Definition Tree_Delete (t : Tree) (rr : RR) : go Tree :=
  if is_nil (Root t) then Ret t
  else (x <-! Search t (rr_Name rr) ;;
        match x.1 with
        | None => Ret t
        | Some el =>
            nm <-! Name el ;;
            let el' := Elem_Delete (memo el nm) rr in
            root <-! set_found (Root t) (rr_Name rr) el' ;;
            let t' := mkTree root (Count t) in
            if Elem_Empty el' then deleteNode t' rr else Ret t'
        end)%go.

Definition Min (t : Tree) : go (option elem) :=
  if is_nil (Root t) then Ret None else (n <-! node_min (Root t) ;; Ret (elem_of_node n))%go.

Definition Max (t : Tree) : go (option elem) :=
  if is_nil (Root t) then Ret None else (n <-! node_max (Root t) ;; Ret (elem_of_node n))%go.

Definition Prev (t : Tree) (qname : string) : go (option elem * bool) :=
  (n <-! node_floor (Root t) qname ;; if is_nil n then Ret (None, false) else Ret (elem_of_node n, true))%go.

Definition Next (t : Tree) (qname : string) : go (option elem * bool) :=
  (n <-! node_ceil (Root t) qname ;; if is_nil n then Ret (None, false) else Ret (elem_of_node n, true))%go.

(** ** Walks *)

Fixpoint all (n : node) (found : list (option elem)) : list (option elem) :=
  match n with
  | Nil => found
  | Node e l r _ => all r (app (all l found) [e])
  end.

Definition All (t : Tree) : list (option elem) := all (Root t) [].

(** [fn] may fail, which ends the walk, and changes a state of its caller. *)
Fixpoint walk {St : Type} (fn : elem -> St -> go (St * error)) (n : node) (s : St) : go (St * error) :=
  match n with
  | Nil => Ret (s, None)
  | Node e l r _ =>
      (x <-! walk fn l s ;;
       match x.2 with
       | Some err => Ret (x.1, Some err)
       | None =>
           match e with
           | None => Panic nil_pointer
           | Some e =>
               y <-! fn e x.1 ;;
               match y.2 with
               | Some err => Ret (y.1, Some err)
               | None => walk fn r y.1
               end
           end
       end)%go
  end.

Definition Walk {St : Type} (t : Tree) (fn : elem -> St -> go (St * error)) (s : St) : go (St * error) := walk fn (Root t) s.

(** Whether the name is at or below a delegation seen so far: the offsets
    [i], [i + 1], ... of the name are tried, each for the label after it. *)
Fixpoint below (fuel : nat) (ns : gset string) (name : string) (i : Z) : bool :=
  match fuel with
  | O => false
  | S fuel' =>
      let '(j, end_) := NextLabel name i in
      if end_ then false
      else if decide (str_from j name ∈ ns) then true
      else below fuel' ns name (i + 1)
  end.

Fixpoint authwalk {St : Type} (fn : elem -> bool -> St -> go (St * error)) (n : node) (ns : gset string) (s : St) :
    go (gset string * (St * error)) :=
  match n with
  | Nil => Ret (ns, (s, None))
  | Node e l r _ =>
      (x <-! authwalk fn l ns s ;;
       match x.2.2 with
       | Some err => Ret x
       | None =>
           match e with
           | None => Panic nil_pointer
           | Some e =>
               name <-! Name e ;;
               let ns1 := if decide (is_Some (e_m e !! TypeNS)) then {[name]} ∪ x.1 else x.1 in
               let auth := negb (below (S (String.length name)) ns1 name 0) in
               y <-! fn e auth x.2.1 ;;
               match y.2 with
               | Some err => Ret (ns1, y)
               | None => authwalk fn r ns1 y.1
               end
           end
       end)%go
  end.

Definition AuthWalk {St : Type} (t : Tree) (fn : elem -> bool -> St -> go (St * error)) (s : St) : go (St * error) :=
  (x <-! authwalk fn (Root t) ∅ s ;; Ret x.2)%go.

(** The signatures that cover a type. *)
Definition SubTypeSignature (rrs : list RR) (subtype : Z) : list RR :=
  filter (fun rr => rr_Data rr = RRSIG subtype) rrs.

(** The addresses of a name server. *)
Definition searchGlue (t : Tree) (name : string) (do_ : bool) : go (list RR) :=
  (x <-! Search t name ;;
   match x.1 with
   | Some e =>
       if x.2 : bool then
         let sigs ty := if do_ then SubTypeSignature (Type_ e TypeRRSIG) ty else [] in
         Ret (app (app (Type_ e TypeA) (sigs TypeA)) (app (Type_ e TypeAAAA) (sigs TypeAAAA)))
       else Ret []
   | None => Ret []
   end)%go.

Fixpoint Glue (t : Tree) (nsrrs : list RR) (do_ : bool) : go (list RR) :=
  match nsrrs with
  | [] => Ret []
  | rr :: l =>
      (g <-! match rr_Data rr with
             | NS target => if IsSubDomain (rr_Name rr) target then searchGlue t target do_ else Ret []
             | _ => Ret []
             end ;;
       gs <-! Glue t l do_ ;; Ret (app g gs))%go
  end.

End Names.

(** ** The elements in order *)

Fixpoint elems (n : node) : list (option elem) :=
  match n with
  | Nil => []
  | Node e l r _ => app (elems l) (e :: elems r)
  end.

Lemma node_size_elems n : node_size n = length (elems n).
Proof. induction n as [|e l IHl r IHr c]; cbn; [done|]. rewrite length_app. cbn. lia. Qed.

(** Takes a computation that returned apart, one bind at a time. *)
Ltac inv_go H x Hx := apply go_bind_Ret in H as (x & Hx & H).

Lemma rotateLeft_elems n n' : rotateLeft n = Ret n' -> elems n' = elems n.
Proof. destruct n as [|e l [|re rl rr rc] c]; intros [= <-]. cbn. by rewrite <- app_assoc. Qed.

Lemma rotateRight_elems n n' : rotateRight n = Ret n' -> elems n' = elems n.
Proof. destruct n as [|e [|le ll lr lc] r c]; intros [= <-]. cbn. by rewrite <- app_assoc. Qed.

Lemma flipColors_elems n n' : flipColors n = Ret n' -> elems n' = elems n.
Proof. destruct n as [|e [|le ll lr lc] [|re rl rr rc] c]; by intros [= <-]. Qed.

Lemma blacken_elems n : elems (blacken n) = elems n.
Proof. by destruct n. Qed.

Lemma split4_elems n n' : split4 n = Ret n' -> elems n' = elems n.
Proof.
  unfold split4. intros H. inv_go H n1 H1.
  assert (elems n1 = elems n) as <-.
  { destruct (is_red (Left n) && is_red (Left (Left n))); [by apply rotateRight_elems|by injection H1 as ->]. }
  destruct (is_red (Left n1) && is_red (Right n1)); [by apply flipColors_elems|by injection H as ->].
Qed.

Lemma fixUp_elems n n' : fixUp n = Ret n' -> elems n' = elems n.
Proof.
  unfold fixUp. intros H. inv_go H n1 H1. rewrite (split4_elems _ _ H).
  destruct (is_red (Right n)); [by apply rotateLeft_elems|by injection H1 as ->].
Qed.

(** ** Balance *)

(** A left-leaning red-black tree of a black height: the root is red or black, a
    red node has black children, and the right child is black. *)
Inductive llrb : Color -> nat -> node -> Prop :=
  | llrb_nil : llrb black 0 Nil
  | llrb_black e l r c h : llrb c h l -> llrb black h r -> llrb black (S h) (Node e l r black)
  | llrb_red e l r h : llrb black h l -> llrb black h r -> llrb red h (Node e l r red).

Create HintDb llrb discriminated.
#[local] Hint Constructors llrb : llrb.

(** The nodes that a deletion goes through: one with black children, which is red
    unless it is the root, one that leans left and one that leans right. *)
Definition node2 (c : Color) (h : nat) (n : node) : Prop :=
  exists e l r, n = Node e l r c /\ llrb black h l /\ llrb black h r.
Definition black3 (h : nat) (n : node) : Prop :=
  exists e l r, n = Node e l r black /\ llrb red h l /\ llrb black h r.
Definition black3r (h : nat) (n : node) : Prop :=
  exists e l r, n = Node e l r black /\ llrb black h l /\ llrb red h r.

(** What is left of a node with black children: for the root, after it is made
    black. *)
Definition res (c : Color) (h : nat) (n : node) : Prop :=
  if c then exists h', llrb black h' (blacken n) else exists c', llrb c' h n.

Lemma llrb_color c h n : llrb c h n -> color n = c.
Proof. by destruct 1. Qed.

Lemma llrb_is_red c h n : llrb c h n -> is_red n = negb c.
Proof. unfold is_red. by intros ->%llrb_color. Qed.

Lemma node2_red h n : llrb red h n <-> node2 red h n.
Proof.
  split.
  - inversion 1; subst. by eexists _, _, _.
  - intros (e & l & r & -> & ? & ?). by constructor.
Qed.

Lemma llrb_black_inv h n : llrb black (S h) n -> node2 black h n \/ black3 h n.
Proof.
  inversion 1 as [|e l r c h' Hl Hr|]; subst. destruct c; [left|right]; by eexists _, _, _.
Qed.

Lemma black3_llrb h n : black3 h n -> llrb black (S h) n.
Proof. intros (e & l & r & -> & ? & ?). by econstructor. Qed.

Lemma fixUp_id e l r c : is_red r = false -> is_red l && is_red (Left l) = false -> fixUp (Node e l r c) = Ret (Node e l r c).
Proof. intros Hr Hl. unfold fixUp, split4. cbn [Left Right]. rewrite Hr. cbn [go_bind Left Right]. by rewrite Hl; cbn [go_bind Left Right]; rewrite Hr, andb_false_r. Qed.

(** Computes with the colours that are known. *)
Ltac colours := repeat (progress cbn [is_red color Left Right negb andb go_bind fst snd] || erewrite llrb_is_red by eassumption).

Lemma fix_left c h e l r : llrb c h l -> llrb black h r -> fixUp (Node e l r black) = Ret (Node e l r black).
Proof.
  intros Hl Hr. apply fixUp_id; [by colours|]. inversion Hl; subst; by colours.
Qed.

Lemma fix_node2 c h e l r : llrb black h l -> llrb black h r -> fixUp (Node e l r c) = Ret (Node e l r c).
Proof. intros Hl Hr. apply fixUp_id; [by colours|]. by rewrite (llrb_is_red _ _ _ Hl). Qed.

Lemma fix_right c h e l r : llrb black h l -> llrb c h r ->
  exists n', fixUp (Node e l r black) = Ret n' /\ llrb black (S h) n'.
Proof.
  intros Hl Hr. inversion Hr; subst.
  1, 2: erewrite fix_node2 by eauto with llrb; eauto with llrb.
  unfold fixUp, split4. cbn. colours. eauto 6 with llrb.
Qed.

Lemma fix_four c c1 c2 h e l r : llrb c1 h l -> llrb c2 h r -> (c1 = red \/ c2 = red) ->
  exists n', fixUp (Node e l r (negb c)) = Ret n' /\ res c (S h) n'.
Proof.
  intros Hl Hr Hc. destruct c1, c2; [by destruct Hc| | |].
  - inversion Hr; subst. unfold fixUp, split4. cbn. colours. eexists. split; [done|].
    destruct c; cbn; eauto 6 with llrb.
  - inversion Hl; subst. erewrite fixUp_id by (by colours). eexists. split; [done|].
    destruct c; cbn; eauto 6 with llrb.
  - inversion Hl; inversion Hr; subst. unfold fixUp, split4. cbn. eexists. split; [done|].
    destruct c; cbn; eauto 8 with llrb.
Qed.

Lemma moveRedLeft_elems n n' : moveRedLeft n = Ret n' -> elems n' = elems n.
Proof.
  unfold moveRedLeft. intros H. inv_go H n1 H1. rewrite <- (flipColors_elems _ _ H1). clear H1.
  destruct (is_red (Left (Right n1))); [|by injection H as ->].
  inv_go H r Hr. inv_go H n2 H2. apply rotateRight_elems in Hr. apply rotateLeft_elems in H2.
  rewrite (flipColors_elems _ _ H), H2. destruct n1 as [|e l r' c]; [done|]. cbn in *. by rewrite Hr.
Qed.

Lemma moveRedRight_elems n n' : moveRedRight n = Ret n' -> elems n' = elems n.
Proof.
  unfold moveRedRight. intros H. inv_go H n1 H1. rewrite <- (flipColors_elems _ _ H1). clear H1.
  destruct (is_red (Left (Left n1))); [|by injection H as ->].
  inv_go H n2 H2. by rewrite (flipColors_elems _ _ H), (rotateRight_elems _ _ H2).
Qed.

(** A move makes the child that is entered red, or lets it lean. *)
Lemma moveRedLeft_spec c h e l r : node2 black h l -> llrb black (S h) r ->
  exists e1 l1 r1 c1, moveRedLeft (Node e l r c) = Ret (Node e1 l1 r1 c1) /\ e ∈ app (elems l1) [e1] /\
    (c1 = negb c /\ llrb red h l1 /\ llrb red h r1 \/ c1 = c /\ black3 h l1 /\ llrb black (S h) r1).
Proof.
  intros (le & ll & lr & -> & Hll & Hlr) Hr. unfold moveRedLeft.
  destruct (llrb_black_inv _ _ Hr) as [(re & rl & rr & -> & Hrl & Hrr)|(re & rl & rr & -> & Hrl & Hrr)]; cbn.
  - colours. eexists _, _, _, _. split; [done|]. split; [set_solver|]. left. split_and!; eauto with llrb.
  - inversion Hrl; subst. cbn. rewrite negb_involutive. eexists _, _, _, _. split; [done|]. split; [set_solver|]. right.
    split; [done|]. split; [eexists _, _, _; eauto with llrb|eauto with llrb].
Qed.

Lemma moveRedRight_spec c h e l r : llrb black (S h) l -> node2 black h r ->
  exists e1 l1 r1 c1, moveRedRight (Node e l r c) = Ret (Node e1 l1 r1 c1) /\
    (c1 = negb c /\ e1 = e /\ llrb red h l1 /\ llrb red h r1 \/
     c1 = c /\ elem_of_node r1 = e /\ llrb black (S h) l1 /\ black3r h r1).
Proof.
  intros Hl (re & rl & rr & -> & Hrl & Hrr). unfold moveRedRight.
  destruct (llrb_black_inv _ _ Hl) as [(le & ll & lr & -> & Hll & Hlr)|(le & ll & lr & -> & Hll & Hlr)]; cbn.
  - colours. eexists _, _, _, _. split; [done|]. left. split_and!; eauto with llrb.
  - inversion Hll; subst. cbn. rewrite negb_involutive. eexists _, _, _, _. split; [done|]. right. cbn.
    split; [done|]. split; [done|]. split; [eauto with llrb|eexists _, _, _; eauto with llrb].
Qed.

(** The smallest element is deleted: shape and elements. *)
Definition deletes (f : node -> go (node * Z)) (post : node -> Prop) (n : node) (spec : list (option elem) -> Prop) : Prop :=
  exists n', f n = Ret (n', Z.of_nat (length (elems n')) - Z.of_nat (length (elems n))) /\ post n' /\ spec (elems n').

Lemma deletes_left f post post' e l r c spec : deletes f post l spec ->
  (forall l', post l' -> exists n', fixUp (Node e l' r c) = Ret n' /\ post' n') ->
  exists n', (nd <-! on_left f (Node e l r c) ;; root <-! fixUp nd.1 ;; Ret (root, nd.2))%go =
    Ret (n', Z.of_nat (length (elems n')) - Z.of_nat (length (app (elems l) (e :: elems r)))) /\
    post' n' /\ exists l', elems n' = app l' (e :: elems r) /\ spec l'.
Proof.
  intros (l' & Hf & Hp & Hs) Hfix. destruct (Hfix l' Hp) as (n' & Hn & Hp'). exists n'. cbn [on_left]. rewrite Hf. cbn [go_bind fst snd].
  rewrite Hn. cbn [go_bind]. apply fixUp_elems in Hn. cbn in Hn. rewrite Hn, !length_app. split; [do 2 f_equal; lia|]. eauto.
Qed.

Lemma deletes_right f post post' e l r c spec : deletes f post r spec ->
  (forall r', post r' -> exists n', fixUp (Node e l r' c) = Ret n' /\ post' n') ->
  exists n', (nd <-! on_right f (Node e l r c) ;; root <-! fixUp nd.1 ;; Ret (root, nd.2))%go =
    Ret (n', Z.of_nat (length (elems n')) - Z.of_nat (length (app (elems l) (e :: elems r)))) /\
    post' n' /\ exists r', elems n' = app (elems l) (e :: r') /\ spec r'.
Proof.
  intros (r' & Hf & Hp & Hs) Hfix. destruct (Hfix r' Hp) as (n' & Hn & Hp'). exists n'. cbn [on_right]. rewrite Hf. cbn [go_bind fst snd].
  rewrite Hn. cbn [go_bind]. apply fixUp_elems in Hn. cbn in Hn. rewrite Hn, !length_app. cbn [length]. split; [do 2 f_equal; lia|]. eauto.
Qed.

(** The fix-ups after a descent, by the shape of the node. *)
Lemma fixed_res c h e l r : llrb black h l -> llrb black h r -> exists n', fixUp (Node e l r c) = Ret n' /\ res c h n'.
Proof.
  intros Hl Hr. eexists. split; [by eapply fix_node2|]. destruct c; cbn; eauto with llrb.
Qed.

Lemma fixed_left c h e l r : llrb c h l -> llrb black h r -> exists n', fixUp (Node e l r black) = Ret n' /\ llrb black (S h) n'.
Proof. intros Hl Hr. eexists. split; [by eapply fix_left|]. eauto with llrb. Qed.

Lemma deleteMin_step fuel e l r c e1 l1 r1 c1 post post' : is_nil l = false ->
  (if negb (is_red l) && negb (is_red (Left l)) then moveRedLeft (Node e l r c) else Ret (Node e l r c)) = Ret (Node e1 l1 r1 c1) ->
  elems (Node e1 l1 r1 c1) = elems (Node e l r c) ->
  deletes (deleteMin_loop fuel) post l1 (fun k => exists x, elems l1 = x :: k) ->
  (forall l', post l' -> exists n', fixUp (Node e1 l' r1 c1) = Ret n' /\ post' n') ->
  deletes (deleteMin_loop (S fuel)) post' (Node e l r c) (fun k => exists x, elems (Node e l r c) = x :: k).
Proof.
  intros Hl Hm He Hd Hfix. destruct (deletes_left _ _ _ e1 l1 r1 c1 _ Hd Hfix) as (n' & Hn & Hp & l' & Hel & x & Hx).
  exists n'. rewrite <- He. cbn [elems]. split; [|split; [done|]].
  - destruct l; [done|]. cbn [deleteMin_loop]. rewrite Hm. exact Hn.
  - exists x. by rewrite Hel, Hx.
Qed.

Lemma deleteMin_shape fuel n : (node_size n < fuel)%nat ->
  (forall c h, node2 c h n -> deletes (deleteMin_loop fuel) (res c h) n (fun l => exists e, elems n = e :: l)) /\
  (forall h, black3 h n -> deletes (deleteMin_loop fuel) (llrb black (S h)) n (fun l => exists e, elems n = e :: l)).
Proof.
  revert n. induction fuel as [|fuel IH]; intros n Hf; [lia|]. rewrite node_size_elems in Hf.
  assert (IH2 : forall h n, llrb red h n -> (length (elems n) < fuel)%nat ->
     deletes (deleteMin_loop fuel) (res red h) n (fun l => exists e, elems n = e :: l)).
  { intros h m Hm Hs. apply (IH m); [rewrite node_size_elems; lia|]. by apply node2_red. }
  assert (IH3 : forall h n, black3 h n -> (length (elems n) < fuel)%nat ->
     deletes (deleteMin_loop fuel) (llrb black (S h)) n (fun l => exists e, elems n = e :: l)).
  { intros h m Hm Hs. by apply (IH m ltac:(rewrite node_size_elems; lia)). }
  clear IH. split.
  - intros c h (e & l & r & -> & Hl & Hr). destruct h as [|h].
    { inversion Hl; inversion Hr; subst. exists Nil. cbn. split; [done|]. split; [|eauto]. destruct c; cbn; eauto with llrb. }
    destruct (llrb_black_inv _ _ Hl) as [H2|H3].
    + destruct (moveRedLeft_spec c h e l r H2 Hr) as (e1 & l1 & r1 & c1 & Hm & _ & Hc).
      pose proof (moveRedLeft_elems _ _ Hm) as He.
      assert (Hs : (length (elems l1) < fuel)%nat).
      { rewrite <- He in Hf. cbn in Hf. rewrite length_app in Hf. cbn in Hf. lia. }
      destruct H2 as (le & ll & lr & -> & Hll & Hlr).
      destruct Hc as [(-> & Hl1 & Hr1)|(-> & Hl1 & Hr1)].
      * eapply deleteMin_step; [done| |done|by apply (IH2 h)|]; [colours; exact Hm|]. intros l' [c' Hl']. by eapply fix_four; eauto.
      * eapply deleteMin_step; [done| |done|by apply (IH3 h)|]; [colours; exact Hm|]. intros l' Hl'. by apply fixed_res.
    + assert (Hs : (length (elems l) < fuel)%nat) by (cbn in Hf; rewrite length_app in Hf; cbn in Hf; lia).
      pose proof H3 as (le & ll & lr & -> & Hll & Hlr).
      eapply deleteMin_step; [done|colours; reflexivity|done|by apply (IH3 h)|]. intros l' Hl'. by apply fixed_res.
  - intros h (e & l & r & -> & Hl & Hr).
    assert (Hs : (length (elems l) < fuel)%nat) by (cbn in Hf; rewrite length_app in Hf; cbn in Hf; lia).
    inversion Hl; subst. eapply deleteMin_step; [done|reflexivity|done|by apply (IH2 h)|].
    intros l' [c' Hl']. by eapply fixed_left.
Qed.

(** The greatest element is deleted. *)
Lemma deleteMax_step fuel e l r c n1 e2 l2 r2 c2 post post' :
  (if is_red l then rotateRight (Node e l r c) else Ret (Node e l r c)) = Ret n1 -> is_nil (Right n1) = false ->
  (if negb (is_red (Right n1)) && negb (is_red (Left (Right n1))) then moveRedRight n1 else Ret n1) = Ret (Node e2 l2 r2 c2) ->
  deletes (deleteMax_loop fuel) post r2 (fun k => exists x, elems r2 = app k [x]) ->
  (forall r', post r' -> exists n', fixUp (Node e2 l2 r' c2) = Ret n' /\ post' n') ->
  deletes (deleteMax_loop (S fuel)) post' (Node e l r c) (fun k => exists x, elems (Node e l r c) = app k [x]).
Proof.
  intros H1 Hn1 H2 Hd Hfix. destruct (deletes_right _ _ _ e2 l2 r2 c2 _ Hd Hfix) as (n' & Hn & Hp & r' & Her & x & Hx).
  assert (He : elems (Node e l r c) = elems (Node e2 l2 r2 c2)).
  { assert (elems (Node e2 l2 r2 c2) = elems n1) as ->.
    { destruct (negb _ && negb _); [by apply moveRedRight_elems|by injection H2 as ->]. }
    destruct (is_red l); [symmetry; by apply rotateRight_elems|by injection H1 as ->]. }
  exists n'. rewrite He. split; [|split; [done|]].
  - cbn [deleteMax_loop]. rewrite H1. cbn [go_bind]. rewrite Hn1, H2. exact Hn.
  - exists x. cbn [elems]. by rewrite Her, Hx, <- app_assoc.
Qed.

Lemma deleteMax_shape fuel n : (node_size n < fuel)%nat ->
  (forall c h, node2 c h n -> deletes (deleteMax_loop fuel) (res c h) n (fun l => exists e, elems n = app l [e])) /\
  (forall h, black3 h n \/ black3r h n ->
     deletes (deleteMax_loop fuel) (llrb black (S h)) n (fun l => exists e, elems n = app l [e])).
Proof.
  revert n. induction fuel as [|fuel IH]; intros n Hf; [lia|].
  assert (IH2 : forall h n, llrb red h n -> (node_size n < fuel)%nat ->
     deletes (deleteMax_loop fuel) (res red h) n (fun l => exists e, elems n = app l [e])).
  { intros h m Hm Hs. apply (IH m); [done|]. by apply node2_red. }
  assert (IH3 : forall h n, black3 h n \/ black3r h n -> (node_size n < fuel)%nat ->
     deletes (deleteMax_loop fuel) (llrb black (S h)) n (fun l => exists e, elems n = app l [e])).
  { intros h m Hm Hs. by apply (IH m). }
  clear IH. split.
  - intros c h (e & l & r & -> & Hl & Hr). destruct h as [|h].
    { inversion Hl; inversion Hr; subst. exists Nil. cbn. split; [done|]. split; [|by exists e]. destruct c; cbn; eauto with llrb. }
    assert (Hrl : (if is_red l then rotateRight (Node e l r c) else Ret (Node e l r c)) = Ret (Node e l r c)) by (by colours).
    destruct (llrb_black_inv _ _ Hr) as [H2|H3].
    + destruct (moveRedRight_spec c h e l r Hl H2) as (e1 & l1 & r1 & c1 & Hm & Hc).
      assert (Hs : (node_size r1 < fuel)%nat).
      { apply moveRedRight_elems in Hm. rewrite !node_size_elems in *. rewrite <- Hm in Hf. cbn in Hf. rewrite length_app in Hf. cbn in Hf. lia. }
      destruct H2 as (re & rl & rr & -> & Hrl' & Hrr).
      destruct Hc as [(-> & -> & Hl1 & Hr1)|(-> & _ & Hl1 & Hr1)].
      * eapply deleteMax_step; [exact Hrl|done| |by apply (IH2 h)|]; [colours; exact Hm|]. intros r' [c' Hr']. by eapply fix_four; eauto.
      * eapply deleteMax_step; [exact Hrl|done| |by apply (IH3 h); [right|]|]; [colours; exact Hm|]. intros r' Hr'. by apply fixed_res.
    + assert (Hs : (node_size r < fuel)%nat) by (cbn in Hf; lia). pose proof H3 as (re & rl & rr & -> & Hrl' & Hrr).
      eapply deleteMax_step; [exact Hrl|done|colours; reflexivity|by apply (IH3 h); [left|]|]. intros r' Hr'. by apply fixed_res.
  - intros h [(e & l & r & -> & Hl & Hr)|(e & l & r & -> & Hl & Hr)].
    + inversion Hl; subst. eapply deleteMax_step; [reflexivity|reflexivity|reflexivity|apply (IH2 h); [by constructor|]|].
      * cbn in *. lia.
      * intros r' [c' Hr']. by eapply fix_right.
    + assert (Hs : (node_size r < fuel)%nat) by (cbn in Hf; lia). inversion Hr; subst.
      eapply deleteMax_step; [by colours|reflexivity|reflexivity|by apply (IH2 h)|]. intros r' [c' Hr']. by eapply fix_right.
Qed.

(** ** Elements and their names *)

Section Order.
Context `{DnsLib}.

Definition name_of (e : elem) : string := match Name e with Ret s => s | Panic _ => EmptyString end.

(** The element is there and its name can be read. *)
Definition named (o : option elem) : Prop := exists e, o = Some e /\ Name e = Ret (name_of e).

(** Where a name is relative to an element. *)
Definition cmp (name : string) (o : option elem) : Z :=
  match o with Some e => less name (name_of e) | None => 0 end.

(** The elements after one that the name does not exceed are all greater. *)
Definition in_order (name : string) : list (option elem) -> Prop :=
  StronglySorted (fun a b => cmp name a <= 0 -> cmp name b < 0).

Definition other_than (name : string) (l : list (option elem)) : list (option elem) := filter (fun o => cmp name o <> 0) l.

Lemma Less_cmp o name : named o -> Less o name = Ret (cmp name o).
Proof. intros (e & -> & He). cbn. by rewrite He. Qed.

Lemma other_than_id name l : (forall o, o ∈ l -> cmp name o <> 0) -> other_than name l = l.
Proof. apply filter_all. Qed.

Lemma in_order_node name l e r : in_order name (app l (e :: r)) ->
  in_order name l /\ in_order name r /\
  (cmp name e <= 0 -> forall o, o ∈ r -> cmp name o < 0) /\ (0 <= cmp name e -> forall o, o ∈ l -> 0 < cmp name o).
Proof.
  unfold in_order. rewrite StronglySorted_app, StronglySorted_cons. intros (Hlr & Hl & Hr & Hr'). split_and!; [done..| |].
  - intros He o Ho. rewrite Forall_forall in Hr. by apply Hr.
  - intros He o Ho. assert (~ cmp name o <= 0); [|lia]. intros Hc.
    pose proof (Hlr o e Ho ltac:(left) Hc). lia.
Qed.

Lemma node_min_head n x k : elems n = x :: k -> exists m, node_min n = Ret m /\ elem_of_node m = x.
Proof.
  revert k. induction n as [|e l IHl r IHr c]; intros k Hk; [done|]. cbn [elems node_min] in *.
  destruct l as [|le ll lr lc]; [injection Hk as -> _; by eexists|].
  destruct (elems (Node le ll lr lc)) as [|y k'] eqn:E; [by cbn in E; destruct (elems ll)|].
  injection Hk as -> _. by apply (IHl k').
Qed.

Lemma delete_left_step fuel name e l r c e1 l1 r1 c1 post post' : named e -> in_order name (elems (Node e l r c)) ->
  cmp name e < 0 -> is_nil l = false ->
  (if negb (is_red l) && negb (is_red (Left l)) then moveRedLeft (Node e l r c) else Ret (Node e l r c)) = Ret (Node e1 l1 r1 c1) ->
  elems (Node e1 l1 r1 c1) = elems (Node e l r c) -> e ∈ app (elems l1) [e1] ->
  deletes (delete_loop fuel name) post l1 (fun k => k = other_than name (elems l1)) ->
  (forall l', post l' -> exists n', fixUp (Node e1 l' r1 c1) = Ret n' /\ post' n') ->
  deletes (delete_loop (S fuel) name) post' (Node e l r c) (fun k => k = other_than name (elems (Node e l r c))).
Proof.
  intros Hn Ho Hc Hl Hm He Hin Hd Hfix. rewrite <- He in Ho. cbn [elems] in Ho.
  destruct (in_order_node _ _ _ _ Ho) as (_ & _ & Hr & Hl').
  assert (Hc1 : cmp name e1 < 0).
  { rewrite elem_of_app, list_elem_of_singleton in Hin. destruct Hin as [Hin| <-]; [|done].
    destruct (decide (0 <= cmp name e1)) as [H1|H1]; [|lia]. pose proof (Hl' H1 _ Hin). lia. }
  destruct (deletes_left _ _ _ e1 l1 r1 c1 _ Hd Hfix) as (n' & Hn' & Hp & l' & Hel & ->).
  exists n'. rewrite <- He. cbn [elems]. split; [|split; [done|]].
  - cbn [delete_loop elem_of_node Left]. rewrite Less_cmp by done. cbn [go_bind]. rewrite decide_True, Hl, Hm by done.
    cbn [go_bind]. destruct (on_left _ _) as [[x d]|]; [|done]. exact Hn'.
  - rewrite Hel. unfold other_than. rewrite filter_app, filter_cons_True by lia. do 2 f_equal. symmetry. apply other_than_id.
    intros o Ho'. specialize (Hr ltac:(lia) o Ho'). lia.
Qed.

Lemma delete_right_step fuel name e l r c n1 e2 l2 r2 c2 post post' :
  Forall named (elems (Node e l r c)) -> in_order name (elems (Node e l r c)) -> 0 <= cmp name e ->
  (if is_red l then rotateRight (Node e l r c) else Ret (Node e l r c)) = Ret n1 -> is_nil (Right n1) = false ->
  (if negb (is_red (Right n1)) && negb (is_red (Left (Right n1))) then moveRedRight n1 else Ret n1) = Ret (Node e2 l2 r2 c2) ->
  e ∈ e2 :: elems r2 ->
  (cmp name e2 <> 0 -> deletes (delete_loop fuel name) post r2 (fun k => k = other_than name (elems r2))) ->
  (cmp name e2 = 0 -> deletes deleteMin post r2 (fun k => exists x, elems r2 = x :: k)) ->
  (forall e' r', post r' -> exists n', fixUp (Node e' l2 r' c2) = Ret n' /\ post' n') ->
  deletes (delete_loop (S fuel) name) post' (Node e l r c) (fun k => k = other_than name (elems (Node e l r c))).
Proof.
  intros Hn Ho Hc H1 Hn1 H2 Hin Hd Hmin Hfix.
  assert (He : elems (Node e l r c) = elems (Node e2 l2 r2 c2)).
  { assert (elems (Node e2 l2 r2 c2) = elems n1) as ->.
    { destruct (negb _ && negb _); [by apply moveRedRight_elems|by injection H2 as ->]. }
    destruct (is_red l); [symmetry; by apply rotateRight_elems|by injection H1 as ->]. }
  assert (Hne : named e) by (cbn in Hn; rewrite Forall_app, Forall_cons in Hn; by apply Hn).
  rewrite He in *. cbn [elems] in Ho, Hn. destruct (in_order_node _ _ _ _ Ho) as (_ & _ & Hr & Hl).
  assert (Hc2 : 0 <= cmp name e2).
  { rewrite elem_of_cons in Hin. destruct Hin as [->|Hin]; [done|].
    destruct (decide (cmp name e2 <= 0)) as [H0|H0]; [|lia]. pose proof (Hr H0 _ Hin). lia. }
  assert (Hne2 : named e2) by (rewrite Forall_app, Forall_cons in Hn; by apply Hn).
  assert (Hl2 : other_than name (elems l2) = elems l2).
  { apply other_than_id. intros o Ho'. specialize (Hl Hc2 o Ho'). lia. }
  unfold deletes. cbn [delete_loop elem_of_node Left]. rewrite Less_cmp by done. cbn [go_bind]. rewrite decide_False by lia.
  rewrite H1. cbn [go_bind]. rewrite Hn1, H2. cbn [go_bind elem_of_node]. rewrite Less_cmp by done. cbn [go_bind].
  rewrite He. cbn [elems]. unfold other_than in *. rewrite filter_app, Hl2. case_decide as E2.
  - destruct (Hmin E2) as (r' & Hr' & Hp & x & Hx). cbn [Right]. destruct (node_min_head _ _ _ Hx) as (m & -> & Hm). cbn [go_bind].
    cbn [set_elem on_right Right]. rewrite Hr', Hm. cbn [go_bind fst snd].
    destruct (Hfix x r' Hp) as (n' & Hn' & Hp'). rewrite Hn'. cbn [go_bind]. exists n'.
    apply fixUp_elems in Hn'. cbn in Hn'. rewrite Hn', Hx, !length_app. cbn [length]. split; [do 2 f_equal; lia|]. split; [done|].
    rewrite filter_cons_False by lia. f_equal. symmetry. apply (other_than_id name (x :: elems r')). intros o Ho'.
    rewrite <- Hx in Ho'. specialize (Hr ltac:(lia) o Ho'). lia.
  - destruct (deletes_right _ _ _ e2 l2 r2 c2 _ (Hd E2) (Hfix e2)) as (n' & Hn' & Hp & r' & Her & ->).
    exists n'. split; [|split; [done|]].
    + destruct (on_right _ _) as [[y d]|]; [|done]. exact Hn'.
    + rewrite Her, filter_cons_True by done. done.
Qed.

Lemma elems_sub name n1 n e l r c : elems n = elems n1 -> n1 = Node e l r c ->
  Forall named (elems n) -> in_order name (elems n) ->
  (Forall named (elems l) /\ in_order name (elems l)) /\ (Forall named (elems r) /\ in_order name (elems r)) /\
  (node_size l < node_size n)%nat /\ (node_size r < node_size n)%nat.
Proof.
  intros He -> Hn Ho. rewrite !node_size_elems, He in *. cbn in *. rewrite length_app. cbn.
  destruct (in_order_node _ _ _ _ Ho) as (? & ? & _ & _). rewrite Forall_app, Forall_cons in Hn.
  destruct Hn as (? & ? & ?). split_and!; [done..| |]; lia.
Qed.

Lemma deleteMin_res c h n : node2 c h n -> deletes deleteMin (res c h) n (fun l => exists e, elems n = e :: l).
Proof. apply deleteMin_shape. lia. Qed.

Lemma deleteMin_black3 h n : black3 h n -> deletes deleteMin (llrb black (S h)) n (fun l => exists e, elems n = e :: l).
Proof. apply deleteMin_shape. lia. Qed.

(** Deletion by name, for the root and for the nodes below it. *)
Definition delete_ok (fuel : nat) (name : string) (n : node) (post : node -> Prop) : Prop :=
  deletes (delete_loop fuel name) post n (fun k => k = other_than name (elems n)).

Definition delete_hyp (fuel : nat) (name : string) : Prop :=
  forall n, (node_size n < fuel)%nat -> Forall named (elems n) -> in_order name (elems n) ->
  (forall c h, node2 c h n -> delete_ok fuel name n (res c h)) /\
  (forall h, black3 h n \/ black3r h n /\ 0 <= cmp name (elem_of_node n) -> delete_ok fuel name n (llrb black (S h))).

Lemma delete_node2_left fuel name c h e l r : delete_hyp fuel name -> (node_size (Node e l r c) < S fuel)%nat ->
  Forall named (elems (Node e l r c)) -> in_order name (elems (Node e l r c)) -> cmp name e < 0 ->
  llrb black (S h) l -> llrb black (S h) r -> delete_ok (S fuel) name (Node e l r c) (res c (S h)).
Proof.
  intros IH Hf Hn Ho Hc Hl Hr. assert (Hne : named e) by (cbn in Hn; rewrite Forall_app, Forall_cons in Hn; by apply Hn).
  destruct (llrb_black_inv _ _ Hl) as [H2|H3].
  - destruct (moveRedLeft_spec c h e l r H2 Hr) as (e1 & l1 & r1 & c1 & Hm & Hin & Hc1).
    pose proof (moveRedLeft_elems _ _ Hm) as He.
    destruct (elems_sub name _ _ e1 l1 r1 c1 (eq_sym He) eq_refl Hn Ho) as ([Hn1 Ho1] & _ & Hs & _).
    destruct H2 as (le & ll & lr & -> & Hll & Hlr). destruct (IH l1 ltac:(lia) Hn1 Ho1) as [IH2 IH3].
    destruct Hc1 as [(-> & Hl1 & Hr1)|(-> & Hl1 & Hr1)].
    + eapply delete_left_step; [done|done|done|done|colours; exact Hm|done|done|by apply (IH2 red h), node2_red|].
      intros l' [c' Hl']. by eapply fix_four; eauto.
    + eapply delete_left_step; [done|done|done|done|colours; exact Hm|done|done|by apply (IH3 h); left|].
      intros l' Hl'. by apply fixed_res.
  - destruct (elems_sub name _ _ e l r c eq_refl eq_refl Hn Ho) as ([Hn1 Ho1] & _ & Hs & _).
    destruct (IH l ltac:(lia) Hn1 Ho1) as [IH2 IH3].
    pose proof H3 as (le & ll & lr & -> & Hll & Hlr).
    eapply delete_left_step; [done|done|done|done|colours; reflexivity|done| |by apply (IH3 h); left|];
      [rewrite elem_of_app; right; by left|]. intros l' Hl'. by apply fixed_res.
Qed.

Lemma delete_node2_right fuel name c h e l r : delete_hyp fuel name -> (node_size (Node e l r c) < S fuel)%nat ->
  Forall named (elems (Node e l r c)) -> in_order name (elems (Node e l r c)) -> 0 <= cmp name e ->
  llrb black (S h) l -> llrb black (S h) r -> delete_ok (S fuel) name (Node e l r c) (res c (S h)).
Proof.
  intros IH Hf Hn Ho Hc Hl Hr.
  assert (Hrl : (if is_red l then rotateRight (Node e l r c) else Ret (Node e l r c)) = Ret (Node e l r c)) by (by colours).
  destruct (llrb_black_inv _ _ Hr) as [H2|H3].
  - destruct (moveRedRight_spec c h e l r Hl H2) as (e1 & l1 & r1 & c1 & Hm & Hc1).
    pose proof (moveRedRight_elems _ _ Hm) as He.
    destruct (elems_sub name _ _ e1 l1 r1 c1 (eq_sym He) eq_refl Hn Ho) as (_ & [Hn1 Ho1] & _ & Hs).
    destruct H2 as (re & rl & rr & -> & Hrl' & Hrr). destruct (IH r1 ltac:(lia) Hn1 Ho1) as [IH2 IH3].
    destruct Hc1 as [(-> & -> & Hl1 & Hr1)|(-> & Hin & Hl1 & Hr1)].
    + eapply delete_right_step; [done|done|done|exact Hrl|done|colours; exact Hm|by left|intros _; by apply (IH2 red h), node2_red|
        intros _; by apply deleteMin_res, node2_red|]. intros e' r' [c' Hr']. by eapply fix_four; eauto.
    + assert (Hine : e ∈ elems r1).
      { destruct Hr1 as (re1 & rl1 & rr1 & -> & _). cbn in *. subst. rewrite elem_of_app. right. by left. }
      eapply delete_right_step; [done|done|done|exact Hrl|done|colours; exact Hm|by right| | |].
      * intros _. apply (IH3 h). right. by rewrite Hin.
      * intros E1. exfalso. rewrite <- He in Ho. cbn in Ho. destruct (in_order_node _ _ _ _ Ho) as (_ & _ & Hlt & _).
        specialize (Hlt ltac:(lia) e Hine). lia.
      * intros e' r' Hr'. by apply fixed_res.
  - destruct (elems_sub name _ _ e l r c eq_refl eq_refl Hn Ho) as (_ & [Hn1 Ho1] & _ & Hs).
    destruct (IH r ltac:(lia) Hn1 Ho1) as [IH2 IH3].
    pose proof H3 as (re & rl & rr & -> & Hrl' & Hrr).
    eapply delete_right_step; [done|done|done|exact Hrl|done|colours; reflexivity|by left|intros _; by apply (IH3 h); left|
      intros _; by apply deleteMin_black3|]. intros e' r' Hr'. by apply fixed_res.
Qed.

Lemma delete_black3 fuel name h n : delete_hyp fuel name -> (node_size n < S fuel)%nat ->
  Forall named (elems n) -> in_order name (elems n) -> black3 h n -> delete_ok (S fuel) name n (llrb black (S h)).
Proof.
  intros IH Hf Hn Ho (e & l & r & -> & Hl & Hr).
  assert (Hne : named e) by (cbn in Hn; rewrite Forall_app, Forall_cons in Hn; by apply Hn).
  inversion Hl as [| |le ll lr h' Hll Hlr]; subst. destruct (decide (cmp name e < 0)) as [Hc|Hc].
  - destruct (elems_sub name _ _ e (Node le ll lr red) r black eq_refl eq_refl Hn Ho) as ([Hn1 Ho1] & _ & Hs & _).
    destruct (IH (Node le ll lr red) ltac:(lia) Hn1 Ho1) as [IH2 _].
    eapply delete_left_step; [done|done|done|done|reflexivity|done| |by apply (IH2 red h), node2_red|];
      [rewrite elem_of_app; right; by left|]. intros l' [c' Hl']. by eapply fixed_left.
  - assert (He : elems (Node e (Node le ll lr red) r black) = elems (Node le ll (Node e lr r red) black)) by (cbn; by rewrite <- app_assoc).
    destruct (elems_sub name _ _ le ll (Node e lr r red) black He eq_refl Hn Ho) as (_ & [Hn1 Ho1] & _ & Hs).
    assert (H2 : node2 red h (Node e lr r red)) by (by eexists _, _, _).
    eapply delete_right_step; [done|done|lia|reflexivity|reflexivity|reflexivity| |intros _; by apply (proj1 (IH (Node e lr r red) ltac:(lia) Hn1 Ho1))|
      intros _; by apply deleteMin_res|].
    + right. cbn. rewrite elem_of_app. right. by left.
    + intros e' r' [c' Hr']. by eapply fix_right.
Qed.

Lemma delete_black3r fuel name h n : delete_hyp fuel name -> (node_size n < S fuel)%nat ->
  Forall named (elems n) -> in_order name (elems n) -> black3r h n -> 0 <= cmp name (elem_of_node n) ->
  delete_ok (S fuel) name n (llrb black (S h)).
Proof.
  intros IH Hf Hn Ho (e & l & r & -> & Hl & Hr) Hc. cbn [elem_of_node] in Hc.
  destruct (elems_sub name _ _ e l r black eq_refl eq_refl Hn Ho) as (_ & [Hn1 Ho1] & _ & Hs).
  inversion Hr; subst.
  eapply delete_right_step; [done|done|done|by colours|reflexivity|reflexivity|by left| | |].
  - intros _. apply (proj1 (IH (Node e0 l0 r0 red) ltac:(lia) Hn1 Ho1) red h). by apply node2_red.
  - intros _. by apply deleteMin_res, node2_red.
  - intros e' r' [c' Hr']. by eapply fix_right.
Qed.

Lemma delete_leaf fuel name c e : named e -> delete_ok (S fuel) name (Node e Nil Nil c) (res c 0).
Proof.
  intros Hne. unfold delete_ok, deletes. cbn. rewrite Less_cmp by done. cbn. unfold other_than.
  destruct (decide (cmp name e < 0)) as [H0|H0].
  - cbn. exists (Node e Nil Nil c). split; [reflexivity|]. split; [destruct c; cbn; eauto with llrb|]. cbn. case_decide; [done|lia].
  - cbn. case_decide as H1.
    + exists Nil. split; [done|]. split; [destruct c; cbn; eauto with llrb|]. cbn. case_decide; [lia|done].
    + cbn. exists (Node e Nil Nil c). split; [reflexivity|]. split; [destruct c; cbn; eauto with llrb|]. cbn. by case_decide.
Qed.

Lemma delete_shape fuel name : delete_hyp fuel name.
Proof.
  induction fuel as [|fuel IH]; intros n Hf Hn Ho; [lia|]. split.
  - intros c h (e & l & r & -> & Hl & Hr). destruct h as [|h].
    + inversion Hl; inversion Hr; subst. apply delete_leaf. cbn in Hn. by apply Forall_singleton.
    + destruct (decide (cmp name e < 0)); [by apply delete_node2_left|apply delete_node2_right; try done; lia].
  - intros h [H3|[H3 Hc]]; [by apply delete_black3|by apply delete_black3r].
Qed.
End Order.

(** ** Insertion *)

Section Insertion.
Context `{DnsLib}.

(** The insertion of a record into the elements in order. *)
Fixpoint ins (rr : RR) (k : list elem) : list elem :=
  match k with
  | [] => [newElem rr]
  | e :: k' =>
      if decide (less (rr_Name rr) (name_of e) = 0) then Elem_Insert (memo e (name_of e)) rr :: k'
      else if decide (less (rr_Name rr) (name_of e) < 0) then newElem rr :: e :: k'
      else e :: ins rr k'
  end.

Lemma ins_app_lt rr k1 e k2 : less (rr_Name rr) (name_of e) < 0 -> ins rr (app k1 (e :: k2)) = app (ins rr k1) (e :: k2).
Proof.
  intros He. induction k1 as [|x k1 IH]; cbn [app ins].
  - rewrite decide_False, decide_True by lia. done.
  - case_decide; [done|]. case_decide; [done|]. cbn. by rewrite IH.
Qed.

Lemma ins_app_gt rr k1 k2 : Forall (fun e => 0 < less (rr_Name rr) (name_of e)) k1 -> ins rr (app k1 k2) = app k1 (ins rr k2).
Proof.
  induction 1 as [|x k1 Hx _ IH]; [done|]. cbn [app ins]. rewrite !decide_False by lia. by rewrite IH.
Qed.

(** A red node whose left child is red: what the insertion into a red node can leave. *)
Definition red_red (h : nat) (n : node) : Prop := exists e l r, n = Node e l r red /\ llrb red h l /\ llrb black h r.

Definition rebalance (nd : node * Z) : go (node * Z) :=
  (n1 <-! (if is_red (Right nd.1) && negb (is_red (Left nd.1)) then rotateLeft nd.1 else Ret nd.1) ;;
   root <-! split4 n1 ;; Ret (root, nd.2))%go.

Lemma rebalance_elems n d n' d' : rebalance (n, d) = Ret (n', d') -> elems n' = elems n /\ d' = d.
Proof.
  unfold rebalance. intros Hx. inv_go Hx n1 H1. inv_go Hx root H2. injection Hx as <- <-. split; [|done].
  rewrite (split4_elems _ _ H2). destruct (_ && _); [by apply rotateLeft_elems|by injection H1 as ->].
Qed.

(** Rebalancing when one child may have become red, or red with a red left child. *)
Lemma rebalance_black_left h e l r d : (exists c, llrb c h l) \/ red_red h l -> llrb black h r ->
  exists n', rebalance (Node e l r black, d) = Ret (n', d) /\ exists c, llrb c (S h) n'.
Proof.
  intros [[c Hl]|(le & ll & lr & -> & Hll & Hlr)] Hr; unfold rebalance, split4; colours.
  - assert (E : negb c && is_red (Left l) = false) by (inversion Hl; subst; by colours). rewrite E. colours. rewrite andb_false_r.
    eexists. split; [done|]. eauto with llrb.
  - inversion Hll; subst. cbn. colours. eexists. split; [done|]. exists red. eauto with llrb.
Qed.

Lemma rebalance_black_right h e l r c d : llrb c h l -> (exists c, llrb c h r) ->
  exists n', rebalance (Node e l r black, d) = Ret (n', d) /\ exists c, llrb c (S h) n'.
Proof.
  intros Hl [c' Hr]. destruct c'; [by eapply rebalance_black_left; eauto|].
  inversion Hr; subst. unfold rebalance, split4. destruct c; cbn; colours.
  - eexists. split; [done|]. exists black. eauto with llrb.
  - inversion Hl; subst. cbn. colours. eexists. split; [done|]. exists red. eauto with llrb.
Qed.

Lemma rebalance_red h e l r c1 c2 d : llrb c1 h l -> llrb c2 h r -> c1 = black \/ c2 = black ->
  exists n', rebalance (Node e l r red, d) = Ret (n', d) /\ (llrb red h n' \/ red_red h n').
Proof.
  intros Hl Hr Hc. unfold rebalance, split4. destruct c1, c2; [| | |by destruct Hc]; colours.
  - eexists. split; [done|]. left. eauto with llrb.
  - inversion Hr; subst. cbn. colours. eexists. split; [done|]. right. eexists _, _, _. split_and!; eauto with llrb.
  - inversion Hl; subst. cbn. colours. eexists. split; [done|]. right. eexists _, _, _. split_and!; eauto with llrb.
Qed.

Lemma insert_shape rr n : Forall named (elems n) ->
  (forall h, llrb black h n -> exists n' d, node_insert rr n = Ret (n', d) /\ exists c, llrb c h n') /\
  (forall h, llrb red h n -> exists n' d, node_insert rr n = Ret (n', d) /\ (llrb red h n' \/ red_red h n')).
Proof.
  induction n as [|o l IHl r IHr c]; intros Hn.
  { split; intros h Hh; inversion Hh; subst. cbn. eexists _, _. split; [done|]. exists red. eauto with llrb. }
  cbn in Hn. rewrite Forall_app, Forall_cons in Hn. destruct Hn as (Hnl & (e & -> & He) & Hnr).
  destruct (IHl Hnl) as [IHlb IHlr]. destruct (IHr Hnr) as [IHrb IHrr]. clear IHl IHr.
  cbn [node_insert]. rewrite He. cbn [go_bind]. set (d := less _ _). split; intros h Hh; inversion Hh; subst.
  - match goal with HL : llrb ?c0 ?h0 l |- _ => assert (HL' : exists n' d, node_insert rr l = Ret (n', d) /\ ((exists c, llrb c h0 n') \/ red_red h0 n')) end.
    { destruct c0; [destruct (IHlb _ ltac:(eassumption)) as (? & ? & ? & ?)|destruct (IHlr _ ltac:(eassumption)) as (? & ? & ? & [?|?])]; eauto 8. }
    case_decide; [|case_decide].
    + destruct (rebalance_black_left h0 (Some (Elem_Insert (memo e (name_of e)) rr)) l r 0 ltac:(eauto) ltac:(done)) as (n' & E & Hn').
      eexists _, _. split; [exact E|done].
    + destruct HL' as (l' & dl & El & Hl'). rewrite El. cbn [go_bind fst snd].
      destruct (rebalance_black_left h0 (Some e) l' r dl Hl' ltac:(done)) as (n' & E & Hn'). eexists _, _. split; [exact E|done].
    + destruct (IHrb _ ltac:(eassumption)) as (r' & dr & Er & Hr'). rewrite Er. cbn [go_bind fst snd].
      destruct (rebalance_black_right h0 (Some e) l r' c0 dr ltac:(done) Hr') as (n' & E & Hn'). eexists _, _. split; [exact E|done].
  - case_decide; [|case_decide].
    + destruct (rebalance_red h (Some (Elem_Insert (memo e (name_of e)) rr)) l r black black 0 ltac:(done) ltac:(done) ltac:(by left)) as (n' & E & Hn').
      eexists _, _. split; [exact E|done].
    + destruct (IHlb _ ltac:(eassumption)) as (l' & dl & El & cl & Hl'). rewrite El. cbn [go_bind fst snd].
      destruct (rebalance_red h (Some e) l' r cl black dl Hl' ltac:(done) ltac:(by right)) as (n' & E & Hn'). eexists _, _. split; [exact E|done].
    + destruct (IHrb _ ltac:(eassumption)) as (r' & dr & Er & cr & Hr'). rewrite Er. cbn [go_bind fst snd].
      destruct (rebalance_red h (Some e) l r' black cr dr ltac:(done) Hr' ltac:(by left)) as (n' & E & Hn'). eexists _, _. split; [exact E|done].
Qed.

Lemma insert_elems rr n n' d k : elems n = Some <$> k -> Forall named (elems n) -> in_order (rr_Name rr) (elems n) ->
  node_insert rr n = Ret (n', d) -> elems n' = Some <$> ins rr k /\ d = Z.of_nat (length (ins rr k)) - Z.of_nat (length k).
Proof.
  revert n' d k. induction n as [|o l IHl r IHr c]; intros n' d k Hk Hn Ho Hi.
  { destruct k; [|done]. cbn in *. by injection Hi as <- <-. }
  cbn [elems] in *. symmetry in Hk. apply fmap_app_inv in Hk as (k1 & k2' & E1 & E2 & ->).
  destruct k2' as [|e k2]; [done|]. cbn in E2. injection E2 as -> E2.
  destruct (in_order_node _ _ _ _ Ho) as (Hol & Hor & Hlt & Hgt). rewrite Forall_app, Forall_cons in Hn. destruct Hn as (Hnl & He & Hnr).
  destruct He as (e' & [= <-] & He). cbn [node_insert] in Hi. rewrite He in Hi. cbn [go_bind] in Hi. cbn [cmp] in Hlt, Hgt.
  assert (Hk1 : 0 <= less (rr_Name rr) (name_of e) -> Forall (fun e => 0 < less (rr_Name rr) (name_of e)) k1).
  { intros Hle. rewrite Forall_forall. intros x Hx. apply (Hgt Hle (Some x)). rewrite E1. by apply list_elem_of_fmap_2. }
  rewrite !length_app. cbn [length].
  case_decide as D0; [|case_decide as D1].
  - apply rebalance_elems in Hi as [-> ->]. cbn [elems fst snd]. rewrite ins_app_gt by (apply Hk1; lia). cbn [ins].
    rewrite decide_True, fmap_app, E1, E2, length_app by done. cbn. split; [done|lia].
  - rewrite ins_app_lt by done. inv_go Hi nd Hnd. inv_go Hnd x Hx. injection Hnd as <-. destruct x as [l' dl].
    apply rebalance_elems in Hi as [-> ->]. cbn [elems fst snd].
    destruct (IHl l' dl k1 E1 Hnl Hol Hx) as [-> ->]. rewrite fmap_app, length_app, E2. cbn. split; [done|lia].
  - rewrite ins_app_gt by (apply Hk1; lia). cbn [ins]. rewrite !decide_False by done.
    inv_go Hi nd Hnd. inv_go Hnd x Hx. injection Hnd as <-. destruct x as [r' dr].
    apply rebalance_elems in Hi as [-> ->]. cbn [elems fst snd].
    destruct (IHr r' dr k2 E2 Hnr Hor Hx) as [-> ->]. rewrite fmap_app, length_app, E1. cbn. split; [done|lia].
Qed.
End Insertion.

(** ** The tree as a sorted list of elements *)

Section Refine.
Context `{L : DnsLaws}.

Definition sorted (k : list elem) : Prop := StronglySorted (fun a b => less (name_of a) (name_of b) < 0) k.

(** The element of a name. *)
Definition lookup_name (q : string) (k : list elem) : option elem := head (filter (fun e => less q (name_of e) = 0) k).

(** An element has records of its name only, and none of its lists is empty. *)
Definition wf_elem (e : elem) : Prop :=
  forall t rrs, e_m e !! t = Some rrs -> rrs <> [] /\ Forall (fun rr => rr_Type rr = t /\ less (rr_Name rr) (name_of e) = 0) rrs.

Lemma less_sym0 a b : less a b = 0 -> less b a = 0.
Proof. rewrite (less_flip a b). lia. Qed.

Lemma less_eq_r a b c : less a b = 0 -> less c a = less c b.
Proof. intros Hab. rewrite (less_flip a c), (less_flip b c). by rewrite (less_eq_l a b c). Qed.

Lemma less_empty s : less s EmptyString = 0 -> s = EmptyString.
Proof.
  rewrite less_zero. intros Hk.
  assert (labels EmptyString = []) as He.
  { pose proof (labels_join EmptyString) as Hj. pose proof (labels_nonempty EmptyString) as Hn.
    destruct (labels EmptyString) as [|[|a x] l]; [done|by inversion Hn|done]. }
  apply (f_equal length) in Hk. rewrite !length_key, !length_label_bytes, He in Hk. cbn in Hk.
  rewrite <- (labels_join s). by destruct (labels s).
Qed.

Lemma Name_named e : (forall t rrs, e_m e !! t = Some rrs -> rrs <> []) -> Name e = Ret (name_of e).
Proof.
  intros Hm. unfold name_of, Name. case_decide; [done|].
  destruct (map_to_list (e_m e)) as [|[t [|rr rrs]] l] eqn:E; [done| |done].
  exfalso. apply (Hm t []); [|done]. apply elem_of_map_to_list. rewrite E. by left.
Qed.

Lemma wf_named e : wf_elem e -> named (Some e).
Proof. intros Hw. exists e. split; [done|]. apply Name_named. intros t rrs Hr. by destruct (Hw t rrs Hr). Qed.

(** The remembered name is the name of all records of the element. *)
Lemma name_of_memo e s :
  e_name e = s -> (forall t rrs, e_m e !! t = Some rrs -> rrs <> [] /\ Forall (fun rr => less (rr_Name rr) s = 0) rrs) -> name_of e = s.
Proof.
  intros Hs Hm. unfold name_of, Name. case_decide as Hd; [done|]. assert (s = EmptyString) as -> by (destruct s; [done|congruence]).
  destruct (map_to_list (e_m e)) as [|[t [|rr rrs]] l] eqn:E; [done|done|].
  assert (Ht : e_m e !! t = Some (rr :: rrs)) by (apply elem_of_map_to_list; rewrite E; left).
  destruct (Hm t _ Ht) as [_ Hf]. inversion Hf; subst. by apply less_empty.
Qed.

Lemma wf_newElem rr : wf_elem (newElem rr) /\ name_of (newElem rr) = rr_Name rr.
Proof.
  assert (Hn : name_of (newElem rr) = rr_Name rr) by (unfold name_of, Name, newElem; cbn; by rewrite map_to_list_singleton).
  split; [|done]. intros t rrs. cbn. rewrite Hn. intros [<- <-]%lookup_singleton_Some. split; [done|]. constructor; [|done].
  split; [done|apply less_refl].
Qed.

Lemma wf_Elem_Insert e rr : wf_elem e -> less (rr_Name rr) (name_of e) = 0 ->
  wf_elem (Elem_Insert (memo e (name_of e)) rr) /\ name_of (Elem_Insert (memo e (name_of e)) rr) = name_of e.
Proof.
  intros Hw Hl.
  assert (Hm : forall t rrs, e_m (Elem_Insert (memo e (name_of e)) rr) !! t = Some rrs ->
            rrs <> [] /\ Forall (fun rr => rr_Type rr = t /\ less (rr_Name rr) (name_of e) = 0) rrs).
  { intros t rrs. cbn. rewrite lookup_insert. case_decide as Ht; [|apply Hw]. intros [= <-]. split; [by destruct (Type_ _ _)|].
    subst t. apply Forall_app. split; [|by repeat constructor].
    unfold Type_. cbn. destruct (e_m e !! rr_Type rr) as [rrs|] eqn:E; [by apply (Hw _ _ E)|constructor]. }
  assert (Hn : name_of (Elem_Insert (memo e (name_of e)) rr) = name_of e).
  { apply name_of_memo; [done|]. intros t rrs Hr. destruct (Hm t rrs Hr) as [? Hf]. split; [done|].
    eapply Forall_impl; [exact Hf|]. by intros x [_ ?]. }
  split; [|done]. intros t rrs Hr. rewrite Hn. by apply Hm.
Qed.

Lemma wf_Elem_Delete e rr : wf_elem e ->
  wf_elem (Elem_Delete (memo e (name_of e)) rr) /\ name_of (Elem_Delete (memo e (name_of e)) rr) = name_of e.
Proof.
  intros Hw.
  assert (Hm : forall t rrs, e_m (Elem_Delete (memo e (name_of e)) rr) !! t = Some rrs -> e_m e !! t = Some rrs).
  { intros t rrs. cbn. by intros [_ ?]%lookup_delete_Some. }
  assert (Hn : name_of (Elem_Delete (memo e (name_of e)) rr) = name_of e).
  { apply name_of_memo; [done|]. intros t rrs Hr. destruct (Hw t rrs (Hm _ _ Hr)) as [? Hf]. split; [done|].
    eapply Forall_impl; [exact Hf|]. by intros x [_ ?]. }
  split; [|done]. intros t rrs Hr. rewrite Hn. by apply Hw, Hm.
Qed.

Lemma sorted_in_order q k : sorted k -> in_order q (Some <$> k).
Proof.
  apply StronglySorted_fmap. intros a b Hab Ha. cbn [cmp] in *.
  destruct (decide (less q (name_of a) = 0)) as [E|E]; [by rewrite (less_eq_l _ _ _ E)|].
  apply (less_trans _ (name_of a)); lia.
Qed.

Lemma other_than_fmap q k : other_than q (Some <$> k) = Some <$> filter (fun e => less q (name_of e) <> 0) k.
Proof.
  unfold other_than. induction k as [|e k IH]; [done|]. rewrite fmap_cons, !filter_cons. cbn [cmp].
  case_decide; [|done]. cbn. by rewrite IH.
Qed.

Lemma lookup_name_app q k1 e k2 : in_order q (Some <$> app k1 (e :: k2)) ->
  lookup_name q (app k1 (e :: k2)) =
    if decide (less q (name_of e) = 0) then Some e
    else if decide (less q (name_of e) < 0) then lookup_name q k1 else lookup_name q k2.
Proof.
  rewrite fmap_app, fmap_cons. intros (_ & _ & Hlt & Hgt)%in_order_node. cbn [cmp] in *. unfold lookup_name. rewrite filter_app, filter_cons.
  assert (Hnone : forall l, (forall o, o ∈ Some <$> l -> cmp q o <> 0) -> filter (fun e => less q (name_of e) = 0) l = []).
  { intros l Hl. apply filter_none. intros x Hx. apply (Hl (Some x)). by apply list_elem_of_fmap_2. }
  case_decide as D0; [|case_decide as D1].
  - rewrite (Hnone k1); [done|]. intros o Ho. specialize (Hgt ltac:(lia) o Ho). lia.
  - rewrite (Hnone k2), app_nil_r; [done|]. intros o Ho. specialize (Hlt ltac:(lia) o Ho). lia.
  - rewrite (Hnone k1); [done|]. intros o Ho. specialize (Hgt ltac:(lia) o Ho). lia.
Qed.

Lemma lookup_name_ext q q' k : less q q' = 0 -> lookup_name q k = lookup_name q' k.
Proof. intros Hq. unfold lookup_name. f_equal. apply list_filter_iff. intros e. by rewrite (less_eq_l _ _ _ Hq). Qed.

Lemma lookup_name_Some q k e : lookup_name q k = Some e -> e ∈ k /\ less q (name_of e) = 0.
Proof. intros Hl%head_Some_elem_of. apply list_elem_of_filter in Hl. tauto. Qed.

Lemma lookup_name_None q k : lookup_name q k = None -> forall e, e ∈ k -> less q (name_of e) <> 0.
Proof.
  unfold lookup_name. intros Hl%head_None e He E. exact (filter_nil_not_elem_of _ _ _ Hl E He).
Qed.

(** The tree holds the elements [k] in order. *)
Record tree_inv (n : node) (k : list elem) : Prop := {
  inv_elems : elems n = Some <$> k;
  inv_wf : Forall wf_elem k;
  inv_sorted : sorted k
}.

Lemma inv_named n k : tree_inv n k -> Forall named (elems n).
Proof. intros [-> Hw _]. apply Forall_fmap. eapply Forall_impl; [exact Hw|]. intros e. apply wf_named. Qed.

Lemma inv_in_order n k q : tree_inv n k -> in_order q (elems n).
Proof. intros [-> _ Hs]. by apply sorted_in_order. Qed.

Lemma tree_inv_node o l r c k : tree_inv (Node o l r c) k ->
  exists e kl kr, o = Some e /\ Name e = Ret (name_of e) /\ k = app kl (e :: kr) /\ tree_inv l kl /\ tree_inv r kr /\
    (forall q, in_order q (Some <$> app kl (e :: kr))).
Proof.
  intros Hi. pose proof (fun q => inv_in_order _ _ q Hi) as Ho. destruct Hi as [He Hw Hs]. cbn [elems] in He. symmetry in He.
  apply fmap_app_inv in He as (kl & k' & E1 & E2 & ->). destruct k' as [|e kr]; [done|]. cbn in E2. injection E2 as -> E2.
  unfold sorted in *. rewrite StronglySorted_app, StronglySorted_cons in Hs. rewrite Forall_app, Forall_cons in Hw.
  destruct Hs as (_ & Hsl & _ & Hsr). destruct Hw as (Hwl & Hwe & Hwr). exists e, kl, kr.
  destruct (wf_named e Hwe) as (e' & [= <-] & Hn). split_and!; [done..| |].
  - by constructor.
  - intros q. specialize (Ho q). cbn [elems] in Ho. by rewrite fmap_app, fmap_cons, <- E1, <- E2.
Qed.

(** Walks to a name: the three cases of [Less] at a node. *)
Lemma search_spec n k q : tree_inv n k ->
  exists m, search n q = Ret m /\ elem_of_node m = lookup_name q k /\ is_nil m = bool_decide (lookup_name q k = None).
Proof.
  revert k. induction n as [|o l IHl r IHr c]; intros k Hi.
  { destruct Hi as [He _ _]. destruct k; [|done]. by exists Nil. }
  destruct (tree_inv_node _ _ _ _ _ Hi) as (e & kl & kr & -> & Hn & -> & Hl & Hr & Ho).
  cbn [search Less]. rewrite Hn. cbn [go_bind]. rewrite lookup_name_app by done.
  case_decide; [by eexists|]. case_decide; [by apply IHl|by apply IHr].
Qed.

Definition replace_name (q : string) (e' : elem) (k : list elem) : list elem :=
  (fun e => if decide (less q (name_of e) = 0) then e' else e) <$> k.

Lemma set_found_spec n k q e' : tree_inv n k -> exists n', set_found n q e' = Ret n' /\
  elems n' = Some <$> replace_name q e' k /\
  (forall c h, llrb c h n -> llrb c h n').
Proof.
  revert k. induction n as [|o l IHl r IHr c]; intros k Hi.
  { destruct Hi as [He _ _]. destruct k; [|done]. by exists Nil. }
  destruct (tree_inv_node _ _ _ _ _ Hi) as (e & kl & kr & -> & Hn & -> & Hl & Hr & Ho).
  specialize (Ho q). rewrite fmap_app, fmap_cons in Ho. apply in_order_node in Ho as (_ & _ & Hlt & Hgt). cbn [cmp] in Hlt, Hgt.
  assert (Hid : forall k0, (forall o, o ∈ Some <$> k0 -> cmp q o <> 0) ->
            replace_name q e' k0 = k0).
  { intros k0 Hk0. unfold replace_name. rewrite <- (list_fmap_id k0) at 2. apply list_fmap_ext. intros i x Hx. apply list_elem_of_lookup_2 in Hx.
    rewrite decide_False; [done|]. apply (Hk0 (Some x)). by apply list_elem_of_fmap_2. }
  assert (Hre : replace_name q e' (app kl (e :: kr)) =
            app (replace_name q e' kl) ((if decide (less q (name_of e) = 0) then e' else e) :: replace_name q e' kr)).
  { unfold replace_name. by rewrite fmap_app, fmap_cons. }
  cbn [set_found Less]. rewrite Hn, Hre. cbn [go_bind]. rewrite fmap_app, fmap_cons. clear Hre.
  case_decide as D0; [|case_decide as D1].
  - eexists. split; [done|]. rewrite (Hid kl), (Hid kr).
    2: intros o Ho; specialize (Hlt ltac:(lia) o Ho); lia.
    2: intros o Ho; specialize (Hgt ltac:(lia) o Ho); lia.
    cbn [elems]. rewrite (inv_elems _ _ Hl), (inv_elems _ _ Hr). split; [done|]. intros c' h Hll; inversion Hll; subst; eauto with llrb.
  - destruct (IHl kl Hl) as (l' & -> & He & Hs). eexists. split; [done|]. rewrite (Hid kr).
    2: intros o Ho; specialize (Hlt ltac:(lia) o Ho); lia.
    cbn [elems]. rewrite He, (inv_elems _ _ Hr). split; [done|]. intros c' h Hll; inversion Hll; subst; eauto with llrb.
  - destruct (IHr kr Hr) as (r' & -> & He & Hs). eexists. split; [done|]. rewrite (Hid kl).
    2: intros o Ho; specialize (Hgt ltac:(lia) o Ho); lia.
    cbn [elems]. rewrite He, (inv_elems _ _ Hl). split; [done|]. intros c' h Hll; inversion Hll; subst; eauto with llrb.
Qed.

(** *** The list after an insertion and a deletion *)

Lemma ins_names rr k : Forall wf_elem k -> Forall wf_elem (ins rr k) /\
  forall P : string -> Prop, P (rr_Name rr) -> Forall (fun e => P (name_of e)) k -> Forall (fun e => P (name_of e)) (ins rr k).
Proof.
  destruct (wf_newElem rr) as [Hwn Hnn]. induction 1 as [|e k He Hk [IH1 IH2]]; cbn [ins].
  { split; [by constructor|]. intros P HP _. constructor; [by rewrite Hnn|constructor]. }
  case_decide as D0; [|case_decide].
  - destruct (wf_Elem_Insert e rr He D0) as [Hw Hn]. split; [by constructor|]. intros P HP Hf. inversion Hf; subst.
    constructor; [by rewrite Hn|done].
  - split; [by constructor; [|constructor]|]. intros P HP Hf. constructor; [by rewrite Hnn|done].
  - split; [by constructor|]. intros P HP Hf. inversion Hf; subst. constructor; [done|by apply IH2].
Qed.

Lemma ins_sorted rr k : Forall wf_elem k -> sorted k -> sorted (ins rr k).
Proof.
  intros Hw Hs. destruct (wf_newElem rr) as [_ Hnn]. unfold sorted in *. induction Hs as [|e k Hs IH Hf]; cbn [ins].
  { repeat constructor. }
  inversion Hw as [|? ? He Hk]; subst. case_decide as D0; [|case_decide as D1].
  - destruct (wf_Elem_Insert e rr He D0) as [_ Hn]. constructor; [done|]. by rewrite Hn.
  - constructor; [by constructor|]. rewrite Hnn. constructor; [done|]. eapply Forall_impl; [exact Hf|].
    intros b Hb. by apply (less_trans _ (name_of e)).
  - constructor; [by apply IH|]. apply (proj2 (ins_names rr k Hk) (fun s => less (name_of e) s < 0)); [|done].
    rewrite (less_flip (rr_Name rr)). lia.
Qed.

Lemma lookup_name_cons q e k : lookup_name q (e :: k) = if decide (less q (name_of e) = 0) then Some e else lookup_name q k.
Proof. unfold lookup_name. rewrite filter_cons. by case_decide. Qed.

Lemma lookup_all_after q k : Forall (fun e => less q (name_of e) < 0) k -> lookup_name q k = None.
Proof. induction 1 as [|e k He _ IH]; [done|]. rewrite lookup_name_cons, decide_False by lia. done. Qed.

Definition add_to (o : option elem) (rr : RR) : elem :=
  match o with Some e => Elem_Insert (memo e (name_of e)) rr | None => newElem rr end.

Lemma lookup_ins q rr k : Forall wf_elem k -> sorted k ->
  lookup_name q (ins rr k) = if decide (less q (rr_Name rr) = 0) then Some (add_to (lookup_name (rr_Name rr) k) rr) else lookup_name q k.
Proof.
  intros Hw Hs. destruct (wf_newElem rr) as [_ Hnn]. unfold sorted in *. induction Hs as [|e k Hs IH Hf]; cbn [ins].
  { by rewrite lookup_name_cons, Hnn. }
  inversion Hw as [|? ? He Hk]; subst. destruct (decide (less (rr_Name rr) (name_of e) = 0)) as [D0|D0]; [|destruct (decide (less (rr_Name rr) (name_of e) < 0)) as [D1|D1]].
  - destruct (wf_Elem_Insert e rr He D0) as [_ Hn]. rewrite !lookup_name_cons, Hn, (decide_True _ _ D0). cbn [add_to].
    rewrite (less_eq_r _ _ q D0). by destruct (decide (less q (name_of e) = 0)).
  - rewrite lookup_name_cons, Hnn. destruct (decide (less q (rr_Name rr) = 0)) as [Dq|Dq]; [|done]. f_equal. symmetry. rewrite lookup_all_after; [done|].
    constructor; [done|]. eapply Forall_impl; [exact Hf|]. intros b Hb. by apply (less_trans _ (name_of e)).
  - rewrite !lookup_name_cons, IH, (decide_False (P := less (rr_Name rr) _ = 0)) by done.
    destruct (decide (less q (name_of e) = 0)) as [De|De]; [|done]. rewrite decide_False; [done|].
    intros Dq. apply D0. rewrite <- (less_eq_l q); [done|done].
Qed.

(** The one element that matches a name splits the list. *)
Lemma split_name q k e : sorted k -> lookup_name q k = Some e ->
  exists k1 k2, k = app k1 (e :: k2) /\ Forall (fun x => less q (name_of x) <> 0) k1 /\ Forall (fun x => less q (name_of x) <> 0) k2 /\
    forall e', replace_name q e' k = app k1 (e' :: k2).
Proof.
  intros Hs Hl. destruct (lookup_name_Some _ _ _ Hl) as [(k1 & k2 & ->)%list_elem_of_split He].
  pose proof (sorted_in_order q _ Hs) as Ho. rewrite fmap_app, fmap_cons in Ho. apply in_order_node in Ho as (_ & _ & Hlt & Hgt). cbn [cmp] in *.
  assert (H1 : Forall (fun x => less q (name_of x) <> 0) k1).
  { apply Forall_forall. intros x Hx. specialize (Hgt ltac:(lia) (Some x) ltac:(by apply list_elem_of_fmap_2)). cbn [cmp] in Hgt. lia. }
  assert (H2 : Forall (fun x => less q (name_of x) <> 0) k2).
  { apply Forall_forall. intros x Hx. specialize (Hlt ltac:(lia) (Some x) ltac:(by apply list_elem_of_fmap_2)). cbn [cmp] in Hlt. lia. }
  exists k1, k2. split_and!; [done..|]. intros e'. unfold replace_name. rewrite fmap_app, fmap_cons, decide_True by done.
  assert (Hid : forall k0, Forall (fun x => less q (name_of x) <> 0) k0 -> replace_name q e' k0 = k0).
  { induction 1 as [|x k0 Hx _ IH]; [done|]. unfold replace_name in *. by rewrite fmap_cons, decide_False, IH. }
  by f_equal; [apply Hid|f_equal; apply Hid].
Qed.

Lemma filter_others q k : Forall (fun x => less q (name_of x) <> 0) k -> filter (fun x => less q (name_of x) <> 0) k = k.
Proof. rewrite Forall_forall. apply filter_all. Qed.

Lemma lookup_replaced q q' k1 e e' k2 : less q (name_of e) = 0 -> name_of e' = name_of e ->
  Forall (fun x => less q (name_of x) <> 0) k1 -> Forall (fun x => less q (name_of x) <> 0) k2 ->
  lookup_name q' (app k1 (e' :: k2)) = (if decide (less q' q = 0) then Some e' else lookup_name q' (app k1 (e :: k2))) /\
  lookup_name q' (app k1 k2) = (if decide (less q' q = 0) then None else lookup_name q' (app k1 (e :: k2))).
Proof.
  intros He Hn H1 H2.
  assert (Hq : less q' q = 0 <-> less q' (name_of e) = 0) by (by rewrite (less_eq_r q (name_of e) q' He)).
  induction H1 as [|x k1 Hx _ IH]; cbn [app]; rewrite ?lookup_name_cons, ?Hn.
  - destruct (decide (less q' q = 0)) as [D|D].
    + rewrite decide_True by tauto. split; [done|]. rewrite (lookup_name_ext q' q) by done. unfold lookup_name.
      rewrite filter_none; [done|]. by apply Forall_forall.
    + by rewrite !decide_False by tauto.
  - destruct (decide (less q' q = 0)) as [D|D]; [|by rewrite (proj1 IH), (proj2 IH)].
    assert (less q' (name_of x) <> 0) by (by rewrite (less_eq_l _ _ _ D)). rewrite !decide_False by done. exact IH.
Qed.

Lemma sorted_replaced k1 e e' k2 : name_of e' = name_of e -> sorted (app k1 (e :: k2)) -> sorted (app k1 (e' :: k2)) /\ sorted (app k1 k2).
Proof.
  unfold sorted. intros Hn. rewrite !StronglySorted_app, !StronglySorted_cons, Hn. intros (H1 & H2 & H3 & H4). split_and!; try done.
  - intros x y Hx. rewrite elem_of_cons. intros [->|Hy]; [rewrite Hn|]; apply H1; try done; [left|by right].
  - intros x y Hx Hy. apply H1; [done|by right].
Qed.

(** *** The operations of the tree *)

Record tree_ok (t : Tree) (k : list elem) : Prop := {
  ok_inv : tree_inv (Root t) k;
  ok_balanced : exists h, llrb black h (Root t);
  ok_count : Count t = Z.of_nat (length k);
  ok_live : Forall (fun e => e_m e <> ∅) k
}.

Lemma tree_ok_empty : tree_ok (mkTree Nil 0) [].
Proof. split; [by repeat constructor|eexists; constructor|done|constructor]. Qed.

Lemma Insert_ok t k rr : tree_ok t k -> exists t', Tree_Insert t rr = Ret t' /\ tree_ok t' (ins rr k).
Proof.
  intros [Hi [h Hh] Hc Hl]. pose proof (inv_named _ _ Hi) as Hn. pose proof (inv_in_order _ _ (rr_Name rr) Hi) as Ho.
  destruct (insert_shape rr (Root t) Hn) as [Hb _]. destruct (Hb h Hh) as (n' & d & Hr & c & Hn').
  destruct (insert_elems rr _ _ _ k (inv_elems _ _ Hi) Hn Ho Hr) as [He ->].
  unfold Tree_Insert. rewrite Hr. cbn [go_bind fst snd]. eexists. split; [done|]. destruct Hi as [_ Hw Hs]. split; cbn [Root Count].
  - split; [by rewrite blacken_elems|by apply ins_names|by apply ins_sorted].
  - inversion Hn'; subst; cbn; eauto with llrb.
  - lia.
  - clear -Hl. assert (Hi : forall e, e_m (Elem_Insert e rr) <> ∅) by (intros; apply insert_non_empty).
    assert (Hnew : e_m (newElem rr) <> ∅) by apply insert_non_empty.
    induction Hl; cbn [ins]; [by repeat constructor|]. case_decide; [by constructor|]. case_decide; by repeat constructor.
Qed.

(** The deletion of the records of a type from the elements in order. *)
Definition del (rr : RR) (k : list elem) : list elem :=
  match lookup_name (rr_Name rr) k with
  | None => k
  | Some e =>
      let e' := Elem_Delete (memo e (name_of e)) rr in
      if Elem_Empty e' then filter (fun x => less (rr_Name rr) (name_of x) <> 0) k else replace_name (rr_Name rr) e' k
  end.

Lemma deleteNode_ok n k h q : tree_inv n k -> llrb black h n -> n <> Nil ->
  exists n', node_delete q n = Ret (n', Z.of_nat (length (elems n')) - Z.of_nat (length (elems n))) /\
    elems n' = Some <$> filter (fun x => less q (name_of x) <> 0) k /\ exists h', llrb black h' (blacken n').
Proof.
  intros Hi Hh Hne. pose proof (inv_named _ _ Hi) as Hn. pose proof (inv_in_order _ _ q Hi) as Ho.
  destruct (delete_shape (S (node_size n)) q n ltac:(lia) Hn Ho) as [H2 H3].
  destruct h as [|h]; [by inversion Hh; subst|].
  assert (exists n', node_delete q n = Ret (n', Z.of_nat (length (elems n')) - Z.of_nat (length (elems n))) /\
    (exists h', llrb black h' (blacken n')) /\ elems n' = other_than q (elems n)) as (n' & Hr & Hb & He).
  { destruct (llrb_black_inv _ _ Hh) as [Hn2|Hn3].
    - destruct (H2 _ _ Hn2) as (n' & Hr & Hb & He). eauto.
    - destruct (H3 h (or_introl Hn3)) as (n' & Hr & Hb & He). exists n'. split_and!; [done| |done].
      exists (S h). inversion Hb; subst; cbn; eauto with llrb. }
  exists n'. split; [done|]. split; [|done]. by rewrite He, (inv_elems _ _ Hi), other_than_fmap.
Qed.

Lemma Delete_ok t k rr : tree_ok t k -> exists t', Tree_Delete t rr = Ret t' /\ tree_ok t' (del rr k).
Proof.
  intros Hok. pose proof Hok as [Hi [h Hh] Hc Hl]. unfold Tree_Delete, del.
  destruct (Root t) as [|o l r c] eqn:Er.
  { destruct Hi as [He _ _]. destruct k; [|done]. cbn. eauto. }
  rewrite <- Er in *. assert (is_nil (Root t) = false) as -> by (by rewrite Er).
  unfold Search. destruct (search_spec _ _ (rr_Name rr) Hi) as (m & -> & Hm & _). cbn [go_bind fst]. rewrite Hm.
  destruct (lookup_name (rr_Name rr) k) as [e|] eqn:Ek; [|eauto].
  pose proof Hi as [He Hw Hs]. destruct (lookup_name_Some _ _ _ Ek) as [Hin Heq]. rewrite Forall_forall in Hw.
  destruct (wf_named e (Hw e Hin)) as (e0 & [= <-] & ->). cbn [go_bind]. set (e' := Elem_Delete _ _).
  destruct (wf_Elem_Delete e rr (Hw e Hin)) as [Hwe' Hne']. fold e' in Hwe', Hne'.
  destruct (set_found_spec _ _ (rr_Name rr) e' Hi) as (n1 & -> & He1 & Hb1). cbn [go_bind].
  destruct (split_name _ _ _ Hs Ek) as (k1 & k2 & -> & Hk1 & Hk2 & Hrep). rewrite Hrep in *.
  destruct (sorted_replaced _ _ _ _ Hne' Hs) as [Hs1 Hs2].
  assert (Hw1 : Forall wf_elem (app k1 (e' :: k2))).
  { rewrite <- Forall_forall in Hw. rewrite Forall_app, Forall_cons in *. tauto. }
  assert (Hi1 : tree_inv n1 (app k1 (e' :: k2))) by (by split).
  assert (Hf : forall x, less (rr_Name rr) (name_of x) = 0 ->
            filter (fun x => less (rr_Name rr) (name_of x) <> 0) (app k1 (x :: k2)) = app k1 k2).
  { intros x Hx. rewrite filter_app, filter_cons_False by lia. by rewrite !filter_others. }
  rewrite Hf by done. rewrite length_app in Hc. cbn [length] in Hc. unfold Elem_Empty. case_bool_decide as Hem.
  - assert (n1 <> Nil) as Hn1. { intros ->. destruct Hi1 as [Hx _ _]. cbn in Hx. by destruct k1. }
    destruct (deleteNode_ok n1 _ h (rr_Name rr) Hi1 (Hb1 _ _ Hh) Hn1) as (n' & Hr & Hel & Hb). unfold deleteNode. cbn [Root Count].
    assert (is_nil n1 = false) as -> by (by destruct n1). rewrite Hr. cbn [go_bind fst snd]. eexists. split; [done|].
    rewrite Hf in Hel by congruence. rewrite Forall_app, !Forall_cons in *. split; cbn [Root Count].
    + split; [by rewrite blacken_elems|rewrite Forall_app; tauto|done].
    + done.
    + rewrite Hel, He1, !length_fmap, !length_app. cbn [length]. lia.
    + rewrite Forall_app. tauto.
  - eexists. split; [done|]. split; cbn [Root Count]; [done|eauto|rewrite length_app; cbn [length]; lia|].
    rewrite Forall_app, !Forall_cons in *. tauto.
Qed.

(** *** Neighbours *)

Lemma ceil_spec n k q : tree_inv n k -> exists m, node_ceil n q = Ret m /\
  elem_of_node m = head (filter (fun e => less q (name_of e) <= 0) k) /\
  is_nil m = bool_decide (head (filter (fun e => less q (name_of e) <= 0) k) = None).
Proof.
  revert k. induction n as [|o l IHl r IHr c]; intros k Hi.
  { destruct Hi as [He _ _]. destruct k; [|done]. by exists Nil. }
  destruct (tree_inv_node _ _ _ _ _ Hi) as (e & kl & kr & -> & Hn & -> & Hl & Hr & Ho).
  specialize (Ho q). rewrite fmap_app, fmap_cons in Ho. apply in_order_node in Ho as (_ & _ & _ & Hgt). cbn [cmp] in Hgt.
  assert (Hkl : 0 <= less q (name_of e) -> filter (fun e => less q (name_of e) <= 0) kl = []).
  { intros Hle. apply filter_none. intros x Hx. specialize (Hgt Hle (Some x) ltac:(by apply list_elem_of_fmap_2)). cbn [cmp] in Hgt. lia. }
  cbn [node_ceil Less]. rewrite Hn. cbn [go_bind]. rewrite filter_app, filter_cons.
  destruct (decide (less q (name_of e) = 0)) as [D0|D0]; [|destruct (decide (less q (name_of e) > 0)) as [D1|D1]].
  - rewrite Hkl, decide_True by lia. by eexists.
  - rewrite Hkl, decide_False by lia. by apply IHr.
  - destruct (IHl kl Hl) as (m & -> & Hm & Hb). cbn [go_bind]. rewrite Hb, decide_True by lia.
    destruct (filter _ kl) as [|x k0]; cbn in *; [by eexists|by exists m].
Qed.

Lemma floor_spec n k q : tree_inv n k -> exists m, node_floor n q = Ret m /\
  elem_of_node m = last (filter (fun e => 0 <= less q (name_of e)) k) /\
  is_nil m = bool_decide (last (filter (fun e => 0 <= less q (name_of e)) k) = None).
Proof.
  revert k. induction n as [|o l IHl r IHr c]; intros k Hi.
  { destruct Hi as [He _ _]. destruct k; [|done]. by exists Nil. }
  destruct (tree_inv_node _ _ _ _ _ Hi) as (e & kl & kr & -> & Hn & -> & Hl & Hr & Ho).
  specialize (Ho q). rewrite fmap_app, fmap_cons in Ho. apply in_order_node in Ho as (_ & _ & Hlt & _). cbn [cmp] in Hlt.
  assert (Hkr : less q (name_of e) <= 0 -> filter (fun e => 0 <= less q (name_of e)) kr = []).
  { intros Hle. apply filter_none. intros x Hx. specialize (Hlt Hle (Some x) ltac:(by apply list_elem_of_fmap_2)). cbn [cmp] in Hlt. lia. }
  cbn [node_floor Less]. rewrite Hn. cbn [go_bind]. rewrite filter_app, filter_cons.
  destruct (decide (less q (name_of e) = 0)) as [D0|D0]; [|destruct (decide (less q (name_of e) <= 0)) as [D1|D1]].
  - rewrite Hkr, decide_True, last_snoc by lia. by eexists.
  - rewrite Hkr, decide_False, app_nil_r by lia. by apply IHl.
  - destruct (IHr kr Hr) as (m & -> & Hm & Hb). cbn [go_bind]. rewrite Hb, decide_True by lia.
    destruct (filter _ kr) as [|x k0].
    + cbn in *. rewrite last_snoc. by eexists.
    + rewrite last_app_cons, last_cons_cons. destruct (last (x :: k0)) as [y|] eqn:El; [by exists m|by apply last_None in El].
Qed.

(** *** Height *)

Fixpoint height (n : node) : nat := match n with Nil => 0 | Node _ l r _ => S (Nat.max (height l) (height r)) end.

Lemma llrb_height c h n : llrb c h n -> (height n <= 2 * h + (if c then 0 else 1))%nat /\ (2 ^ h <= S (node_size n))%nat.
Proof.
  induction 1 as [|e l r c h Hl [IHl1 IHl2] Hr [IHr1 IHr2]|e l r h Hl [IHl1 IHl2] Hr [IHr1 IHr2]]; cbn [height node_size].
  - cbn. lia.
  - rewrite Nat.pow_succ_r'. destruct c; lia.
  - split; lia.
Qed.

(** ** The records of a tree *)

Inductive tree_op := OInsert (rr : RR) | ODelete (rr : RR).

Definition run_op (t : Tree) (o : tree_op) : go Tree :=
  match o with OInsert rr => Tree_Insert t rr | ODelete rr => Tree_Delete t rr end.

Fixpoint run_ops (ops : list tree_op) (t : Tree) : go Tree :=
  match ops with
  | [] => Ret t
  | o :: ops' => (t' <-! run_op t o ;; run_ops ops' t')%go
  end.

(** The specification: a list of records, from which all of one name and type
    can be taken. *)
Definition spec_op (rs : list RR) (o : tree_op) : list RR :=
  match o with
  | OInsert rr => app rs [rr]
  | ODelete rr => filter (fun x => ~ (less (rr_Name rr) (rr_Name x) = 0 /\ rr_Type x = rr_Type rr)) rs
  end.

Definition records (ops : list tree_op) : list RR := fold_left spec_op ops [].

Definition of_type (q : string) (ty : Z) (rs : list RR) : list RR :=
  filter (fun rr => less q (rr_Name rr) = 0 /\ rr_Type rr = ty) rs.

(** What a search finds. *)
Definition answer (o : option elem) (ty : Z) : list RR := match o with Some e => Type_ e ty | None => [] end.

Definition holds (k : list elem) (rs : list RR) : Prop := forall q ty, answer (lookup_name q k) ty = of_type q ty rs.

Lemma add_to_type o rr ty : answer (Some (add_to o rr)) ty = app (answer o ty) (if decide (rr_Type rr = ty) then [rr] else []).
Proof.
  destruct o as [e|]; unfold answer, Type_; cbn [add_to Elem_Insert newElem e_m memo].
  - rewrite lookup_insert. destruct (decide (rr_Type rr = ty)) as [->|]; [done|]. by rewrite app_nil_r.
  - rewrite lookup_singleton. by destruct (decide (rr_Type rr = ty)).
Qed.

Lemma holds_insert k rs rr : Forall wf_elem k -> sorted k -> holds k rs -> holds (ins rr k) (spec_op rs (OInsert rr)).
Proof.
  intros Hw Hs Hh q ty. rewrite lookup_ins by done. unfold of_type. cbn [spec_op]. rewrite filter_app, filter_cons, filter_nil.
  fold (of_type q ty rs). rewrite <- Hh. destruct (decide (less q (rr_Name rr) = 0)) as [D|D].
  - rewrite add_to_type, (lookup_name_ext q _ k D). f_equal. destruct (decide (rr_Type rr = ty)).
    + by rewrite decide_True.
    + rewrite decide_False; [done|tauto].
  - rewrite (decide_False (P := less q _ = 0 /\ _)), app_nil_r; [done|tauto].
Qed.

Lemma holds_delete k rs rr : sorted k -> Forall wf_elem k -> holds k rs -> holds (del rr k) (spec_op rs (ODelete rr)).
Proof.
  intros Hs Hw Hh q ty. unfold of_type. cbn [spec_op]. rewrite list_filter_filter.
  assert (Hspec : filter (fun x => (less q (rr_Name x) = 0 /\ rr_Type x = ty) /\ ~ (less (rr_Name rr) (rr_Name x) = 0 /\ rr_Type x = rr_Type rr)) rs =
            if decide (less q (rr_Name rr) = 0 /\ ty = rr_Type rr) then [] else of_type q ty rs).
  { destruct (decide (less q (rr_Name rr) = 0 /\ ty = rr_Type rr)) as [[D ->]|D].
    - apply filter_none. intros x _ [[Hx Ht] Hn]. apply Hn. split; [|done]. by rewrite <- (less_eq_l _ _ _ D).
    - apply list_filter_iff. intros x. split; [tauto|]. intros [Hx Ht]. split; [done|]. intros [Hx' Ht']. apply D. split; [|congruence].
      rewrite (less_eq_r _ _ q Hx'). done. }
  rewrite Hspec, <- Hh. clear Hspec. unfold del.
  destruct (lookup_name (rr_Name rr) k) as [e|] eqn:Ek.
  - destruct (lookup_name_Some _ _ _ Ek) as [Hin Heq]. rewrite Forall_forall in Hw.
    destruct (wf_Elem_Delete e rr (Hw e Hin)) as [_ Hne']. set (e' := Elem_Delete _ _) in *.
    destruct (split_name _ _ _ Hs Ek) as (k1 & k2 & -> & Hk1 & Hk2 & Hrep).
    destruct (lookup_replaced (rr_Name rr) q k1 e e' k2 Heq Hne' Hk1 Hk2) as [Hl1 Hl2].
    assert (Hty : less q (rr_Name rr) = 0 -> answer (Some e') ty = if decide (ty = rr_Type rr) then [] else answer (lookup_name q (app k1 (e :: k2))) ty).
    { intros D. rewrite (lookup_name_ext q _ _ D), Ek. unfold answer, Type_. cbn. destruct (decide (ty = rr_Type rr)) as [->|].
      - by rewrite lookup_delete_eq. - by rewrite lookup_delete_ne. }
    unfold Elem_Empty. case_bool_decide as Hem.
    + rewrite filter_app, filter_cons_False, !filter_others, Hl2 by (done || lia). destruct (decide (less q (rr_Name rr) = 0)) as [D|D].
      * specialize (Hty D). unfold answer at 1, Type_ in Hty. rewrite Hem, lookup_empty in Hty. cbn in Hty.
        destruct (decide (ty = rr_Type rr)); [by rewrite decide_True|]. rewrite decide_False by tauto. done.
      * by rewrite decide_False by tauto.
    + rewrite Hrep, Hl1. destruct (decide (less q (rr_Name rr) = 0)) as [D|D].
      * rewrite Hty by done. destruct (decide (ty = rr_Type rr)); [by rewrite decide_True|]. by rewrite decide_False by tauto.
      * by rewrite decide_False by tauto.
  - destruct (decide (less q (rr_Name rr) = 0 /\ ty = rr_Type rr)) as [[D ->]|D]; [|done]. by rewrite (lookup_name_ext q _ _ D), Ek.
Qed.

Lemma run_ops_ok ops t k rs : tree_ok t k -> holds k rs ->
  exists t' k', run_ops ops t = Ret t' /\ tree_ok t' k' /\ holds k' (fold_left spec_op ops rs).
Proof.
  revert t k rs. induction ops as [|o ops IH]; intros t k rs Hok Hh; [eauto 6|]. cbn [run_ops fold_left].
  pose proof Hok as [[_ Hw Hs] _ _ _]. destruct o as [rr|rr]; cbn [run_op].
  - destruct (Insert_ok t k rr Hok) as (t' & -> & Hok'). cbn [go_bind]. apply (IH _ _ _ Hok'). by apply holds_insert.
  - destruct (Delete_ok t k rr Hok) as (t' & -> & Hok'). cbn [go_bind]. apply (IH _ _ _ Hok'). by apply holds_delete.
Qed.

Lemma run_records ops : exists t k, run_ops ops (mkTree Nil 0) = Ret t /\ tree_ok t k /\ holds k (records ops).
Proof. by apply (run_ops_ok ops _ [] [] tree_ok_empty). Qed.

Lemma Search_ok t k q : tree_ok t k -> Search t q = Ret (lookup_name q k, bool_decide (lookup_name q k <> None)).
Proof.
  intros [Hi _ _ _]. unfold Search. destruct (search_spec _ _ q Hi) as (m & -> & Hm & Hb). cbn [go_bind]. rewrite Hm, Hb.
  by rewrite <- bool_decide_not.
Qed.

Lemma all_elems n found : all n found = app found (elems n).
Proof.
  revert found. induction n as [|e l IHl r IHr c]; intros found; cbn [all elems]; [by rewrite app_nil_r|].
  by rewrite IHr, IHl, <- !app_assoc.
Qed.

(** ** Theorems *)

(** C16.  After any sequence of insertions and deletions, none of which panics, a
    search for a name and a type finds the records of that name and type that
    were inserted and not deleted since, in the order of their insertion. *)
Theorem tree_keeps_records ops : exists t, run_ops ops (mkTree Nil 0) = Ret t /\
  forall q, exists o found, Search t q = Ret (o, found) /\
    (found = false <-> o = None) /\ forall ty, answer o ty = of_type q ty (records ops).
Proof.
  destruct (run_records ops) as (t & k & Hr & Hok & Hh). exists t. split; [done|]. intros q.
  eexists _, _. split; [by apply Search_ok|]. split; [|intros ty; apply Hh].
  rewrite bool_decide_eq_false. split; [apply dec_stable|intros E Hn; by apply Hn].
Qed.

(** After any sequence of insertions and deletions the elements are in the
    strict canonical order of their names, the counter of the tree is their
    number, none is empty, and the square of the number of elements plus one
    bounds two to the height of the tree. *)
Theorem tree_is_balanced ops t : run_ops ops (mkTree Nil 0) = Ret t ->
  exists k, All t = Some <$> k /\ sorted k /\ Len t = Z.of_nat (length k) /\ Forall (fun e => Elem_Empty e = false) k /\
    2 ^ Z.of_nat (height (Root t)) <= (Len t + 1) ^ 2.
Proof.
  intros Hr. destruct (run_records ops) as (t' & k & Hr' & [Hi [h Hh] Hc Hl] & _). rewrite Hr in Hr'. injection Hr' as <-.
  exists k. destruct Hi as [He Hw Hs]. unfold All, Len. rewrite all_elems. split_and!; [done..| |].
  - eapply Forall_impl; [exact Hl|]. intros e Hm. unfold Elem_Empty. by apply bool_decide_eq_false.
  - destruct (llrb_height _ _ _ Hh) as [H1 H2]. rewrite Hc.
    assert (Hk : length k = node_size (Root t)) by (rewrite node_size_elems, He; by rewrite length_fmap). rewrite Hk.
    apply Z.le_trans with (2 ^ (2 * Z.of_nat h)); [apply Z.pow_le_mono_r; lia|].
    rewrite Z.mul_comm, Z.pow_mul_r by lia. apply Z.pow_le_mono_l.
    split; [lia|]. pose proof (Nat2Z.inj_pow 2 h) as Hp. change (Z.of_nat 2) with 2 in Hp. lia.
Qed.

(** The neighbours of a name: [Next] finds the first element at or after it,
    [Prev] the last element at or before it. *)
Theorem neighbours_of_a_name ops t q : run_ops ops (mkTree Nil 0) = Ret t ->
  exists k, All t = Some <$> k /\
    Next t q = Ret (let o := head (filter (fun e => less q (name_of e) <= 0) k) in (o, bool_decide (o <> None))) /\
    Prev t q = Ret (let o := last (filter (fun e => 0 <= less q (name_of e)) k) in (o, bool_decide (o <> None))).
Proof.
  intros Hr. destruct (run_records ops) as (t' & k & Hr' & [Hi _ _ _] & _). rewrite Hr in Hr'. injection Hr' as <-.
  exists k. unfold All. rewrite all_elems. split; [by apply inv_elems|]. unfold Next, Prev.
  destruct (ceil_spec _ _ q Hi) as (m & -> & Hm & Hb). destruct (floor_spec _ _ q Hi) as (m' & -> & Hm' & Hb').
  cbn [go_bind]. rewrite Hm, Hm', Hb, Hb'. split.
  - by destruct (head _).
  - by destruct (last _).
Qed.

(** The least and the greatest element can be deleted. *)
Lemma delete_least_and_greatest t k : tree_ok t k -> k <> [] ->
  (exists t', DeleteMin t = Ret t' /\ All t' = Some <$> tail k /\ Count t' = Count t - 1 /\ exists h, llrb black h (Root t')) /\
  (exists t' e, DeleteMax t = Ret t' /\ Some <$> k = app (All t') [e] /\ Count t' = Count t - 1 /\ exists h, llrb black h (Root t')).
Proof.
  intros [Hi [h Hh] _ _] Hne. unfold DeleteMin, DeleteMax, All. pose proof (inv_elems _ _ Hi) as Hk.
  assert (is_nil (Root t) = false) as -> by (destruct (Root t); [by destruct k|done]).
  destruct h as [|h]; [assert (Root t = Nil) as HN by (by inversion Hh); rewrite HN in Hk; by destruct k|].
  assert (Hmin : deletes deleteMin (fun n => exists h, llrb black h (blacken n)) (Root t) (fun l => exists e, elems (Root t) = e :: l)).
  { destruct (llrb_black_inv _ _ Hh) as [H2|H3]; [by apply (deleteMin_res black h)|].
    destruct (deleteMin_black3 h _ H3) as (n' & ? & Hb & ?). exists n'. split_and!; [done| |done]. exists (S h). by inversion Hb; subst. }
  assert (Hmax : deletes deleteMax (fun n => exists h, llrb black h (blacken n)) (Root t) (fun l => exists e, elems (Root t) = app l [e])).
  { destruct (deleteMax_shape (S (node_size (Root t))) (Root t) ltac:(lia)) as [Hd2 Hd3].
    destruct (llrb_black_inv _ _ Hh) as [H2|H3]; [by apply (Hd2 black h)|].
    destruct (Hd3 h (or_introl H3)) as (n' & ? & Hb & ?). exists n'. split_and!; [done| |done]. exists (S h). by inversion Hb; subst. }
  destruct Hmin as (n1 & -> & Hb1 & e1 & He1). destruct Hmax as (n2 & -> & Hb2 & e2 & He2). cbn [go_bind fst snd]. split.
  - eexists. split; [done|]. cbn [Root Count]. rewrite all_elems, blacken_elems. split_and!; [|rewrite He1; cbn [length]; lia|done].
    rewrite Hk in He1. destruct k; [done|]. cbn in *. by injection He1.
  - eexists _, _. split; [done|]. cbn [Root Count]. rewrite all_elems, blacken_elems.
    split_and!; [by rewrite <- Hk, He2|rewrite He2, length_app; cbn [length]; lia|done].
Qed.

End Refine.

(** ** Examples *)

Definition demo_rr (name : string) (ty : Z) : RR := mkRR name ty 300 (Data "192.0.2.1").
Definition demo_ops : list tree_op :=
  [OInsert (demo_rr "b.example." 1); OInsert (demo_rr "a.example." 1); OInsert (demo_rr "c.example." 1); OInsert (demo_rr "a.example." 28);
   ODelete (demo_rr "b.example." 1); ODelete (demo_rr "a.example." 1)].

Lemma tree_keeps_records_witness : exists t, @run_ops plain_lib demo_ops (mkTree Nil 0) = Ret t /\
  exists o found, @Search plain_lib t "a.example." = Ret (o, found) /\ answer o 28 = [demo_rr "a.example." 28].
Proof.
  destruct (@tree_keeps_records plain_lib plain_laws demo_ops) as (t & Ht & Hs). exists t. split; [exact Ht|].
  destruct (Hs "a.example."%string) as (o & f & Ho & _ & Ha). exists o, f. split; [exact Ho|]. rewrite Ha. vm_compute. reflexivity.
Defined.

Definition demo_tree : Tree := match @run_ops plain_lib demo_ops (mkTree Nil 0) with Ret t => t | Panic _ => mkTree Nil 0 end.

Lemma tree_is_balanced_witness : Len demo_tree = 2 /\ 2 ^ Z.of_nat (height (Root demo_tree)) <= (Len demo_tree + 1) ^ 2.
Proof.
  split; [vm_compute; reflexivity|].
  destruct (@tree_is_balanced plain_lib plain_laws demo_ops demo_tree) as (k & _ & _ & _ & _ & Hb); [vm_compute; reflexivity|exact Hb].
Defined.

Lemma neighbours_of_a_name_witness : exists k, All demo_tree = Some <$> k /\
  @Next plain_lib demo_tree "b.example." =
    Ret (let o := head (filter (fun e => @less plain_lib "b.example." (name_of e) <= 0) k) in (o, bool_decide (o <> None))).
Proof.
  destruct (@neighbours_of_a_name plain_lib plain_laws demo_ops demo_tree "b.example.") as (k & Hk & Hn & _); [vm_compute; reflexivity|].
  exists k. split; [exact Hk|exact Hn].
Defined.

(** An escape does not compare equal to the character it stands for: the bytes
    behind the escape stay in the label. *)
Example escape_is_another_name : @less plain_lib "\097." "a." = 1.
Proof. vm_compute. reflexivity. Qed.
