(* ===== verification/DnsZone.v ===== *)
(** The zones of the DNS server (src/go/coredns/plugin/file): their records, the
    lookup that answers a query, the requests that reach it, and the transfer of a
    zone between servers (src/go/coredns/plugin/transfer).

    A zone is a value: the lock that its readers and writers take is not modelled,
    and a slice that [append] extends is a new list.  The lookup of a name outside
    of the zone through the server itself is the argument [Upstream]. *)
From S2P Require Import Prelude DnsName DnsTree.
From Stdlib Require Import ZArith Lia Ascii.
From stdpp Require Import base gmap strings list sorting.

Open Scope Z_scope.

(** ** Zones *)

Record Apex := mkApex { a_SOA : option RR; a_NS : list RR; a_SIGSOA : list RR; a_SIGNS : list RR }.

Record Zone := mkZone {
  origin : string; origLen : Z; file : string; z_Tree : Tree; z_Apex : Apex; Expired : bool; TransferFrom : list string
}.

Definition set_tree (z : Zone) (t : Tree) : Zone :=
  mkZone (origin z) (origLen z) (file z) t (z_Apex z) (Expired z) (TransferFrom z).
Definition set_apex (z : Zone) (a : Apex) : Zone :=
  mkZone (origin z) (origLen z) (file z) (z_Tree z) a (Expired z) (TransferFrom z).

Definition set_data (rr : RR) (d : rdata) : RR := mkRR (rr_Name rr) (rr_Type rr) (rr_Ttl rr) d.

(** The answer of a lookup. *)
Inductive Result := Success | NameError | Delegation | NoData | ServerFailure.

Record sections := mkSections { Answer : list RR; Ns : list RR; Extra : list RR; z_Result : Result }.

(** A request: the name of the question as it was sent, its type, the DO bit, the
    opcode, the address of the client, and the records of the authority section. *)
Record request := mkReq { q_Name : string; q_Type : Z; q_Do : bool; q_Opcode : Z; q_IP : string; q_Ns : list RR }.

Definition RcodeSuccess : Z := 0.
Definition RcodeServerFailure : Z := 2.
Definition RcodeNameError : Z := 3.
Definition RcodeRefused : Z := 5.
Definition OpcodeNotify : Z := 4.
Definition TypeIXFR : Z := 251.
Definition TypeAXFR : Z := 252.

(** A reply that was written. *)
Record reply := mkReply { m_Rcode : Z; m_Authoritative : bool; m_Answer : list RR; m_Ns : list RR; m_Extra : list RR }.

Definition soa (a : Apex) (do_ : bool) : list RR :=
  app (option_list (a_SOA a)) (if do_ then a_SIGSOA a else []).

Definition ns (a : Apex) (do_ : bool) : list RR := app (a_NS a) (if do_ then a_SIGNS a else []).

Definition typeFromElem (e : elem) (tp : Z) (do_ : bool) : list RR :=
  app (Type_ e tp) (if do_ then SubTypeSignature (Type_ e TypeRRSIG) tp else []).

Definition CNAMEForType (rrs : list RR) (qtype : Z) : list RR := filter (fun rr => rr_Type rr = qtype) rrs.

Section Zones.
Context `{DnsLib}.

(** [state.Name()] *)
Definition req_Name (r : request) : string := ToLower (NameString (q_Name r)).

Definition NewZone (name file : string) : Zone :=
  mkZone (Fqdn name) (CountLabel (Fqdn name)) (PathClean file) (mkTree Nil 0) (mkApex None [] [] []) false [].

Definition CopyWithoutApex (z : Zone) : Zone :=
  let z1 := NewZone (origin z) (file z) in
  mkZone (origin z1) (origLen z1) (file z1) (z_Tree z1) (z_Apex z1) (Expired z) (TransferFrom z).

Definition Copy (z : Zone) : Zone := set_apex (CopyWithoutApex z) (z_Apex z).

Definition assert_panic {A : Type} : go A := Panic type_panic.

Definition insert_tree (z : Zone) (r : RR) : go (Zone * error) :=
  (t <-! Tree_Insert (z_Tree z) r ;; Ret (set_tree z t, None))%go.

Definition Zone_Insert (z : Zone) (r0 : RR) : go (Zone * error) :=
  let r := with_name (ToLower (rr_Name r0)) r0 in
  let a := z_Apex z in
  let h := rr_Type r in
  if decide (h = TypeNS) then
    match rr_Data r with
    | NS n =>
        let r := set_data r (NS (ToLower n)) in
        if decide (rr_Name r = origin z) then
          Ret (set_apex z (mkApex (a_SOA a) (app (a_NS a) [r]) (a_SIGSOA a) (a_SIGNS a)), None)
        else insert_tree z r
    | _ => assert_panic
    end
  else if decide (h = TypeSOA) then
    match rr_Data r with
    | SOA n m serial refresh retry expire =>
        let r := set_data r (SOA (ToLower n) (ToLower m) serial refresh retry expire) in
        Ret (set_apex z (mkApex (Some r) (a_NS a) (a_SIGSOA a) (a_SIGNS a)), None)
    | _ => assert_panic
    end
  else if decide (h = TypeNSEC3 \/ h = TypeNSEC3PARAM) then
    Ret (z, Some ("NSEC3 zone is not supported, dropping RR: " +:+ rr_Name r +:+ " for zone: " +:+ origin z)%string)
  else if decide (h = TypeRRSIG) then
    match rr_Data r with
    | RRSIG t =>
        if decide (t = TypeSOA) then Ret (set_apex z (mkApex (a_SOA a) (a_NS a) (app (a_SIGSOA a) [r]) (a_SIGNS a)), None)
        else if decide (t = TypeNS /\ rr_Name r = origin z) then
          Ret (set_apex z (mkApex (a_SOA a) (a_NS a) (a_SIGSOA a) (app (a_SIGNS a) [r])), None)
        else insert_tree z r
    | _ => assert_panic
    end
  else if decide (h = TypeCNAME) then
    match rr_Data r with CNAME t => insert_tree z (set_data r (CNAME (ToLower t))) | _ => assert_panic end
  else if decide (h = TypeMX) then
    match rr_Data r with MX t => insert_tree z (set_data r (MX (ToLower t))) | _ => assert_panic end
  else if decide (h = TypeSRV) then
    match rr_Data r with SRV t => insert_tree z (set_data r (SRV (ToLower t))) | _ => assert_panic end
  else insert_tree z r.

Definition ApexIfDefined (z : Zone) : list RR * error :=
  let a := z_Apex z in
  match a_SOA a with
  | None => ([], Some "no SOA"%string)
  | Some s => (s :: app (a_SIGSOA a) (app (a_NS a) (a_SIGNS a)), None)
  end.

Definition SOASerialIfDefined (z : Zone) : Z :=
  match a_SOA (z_Apex z) with
  | Some (mkRR _ _ _ (SOA _ _ serial _ _ _)) => serial
  | _ => -1
  end.

(** ** Names *)

(** Whether one of the labels [lo .. lo + n - 1] from the right is past the start. *)
Fixpoint overshoots (qname : string) (lo : Z) (n : nat) : bool :=
  match n with
  | O => false
  | S n' => if (PrevLabel qname lo).2 then true else overshoots qname (lo + 1) n'
  end.

Definition nameFromRight (z : Zone) (qname : string) (i : Z) : go (string * bool) :=
  if decide (i <= 0) then Ret (origin z, false)
  else if overshoots qname 1 (Z.to_nat (origLen z)) then Ret (qname, true)
  else if overshoots qname (1 + origLen z) (Z.to_nat i) then Ret (qname, true)
  else (name <-! go_from (PrevLabel qname (i + origLen z)).1 qname ;; Ret (name, false))%go.

Definition replaceWithAsteriskLabel (qname : string) : go string :=
  let '(i, shot) := NextLabel qname 0 in
  if shot then Ret EmptyString else (rest <-! go_from i qname ;; Ret ("*." +:+ rest)%string)%go.

Definition Join (l : list string) : string :=
  match last l with
  | Some "."%string => (StrJoin (take (length l - 1) l) "." +:+ ".")%string
  | _ => Fqdn (StrJoin l ".")
  end.

(** [labels[0:n]] *)
Definition go_upto (n : Z) (labels : list string) : go (list string) :=
  if decide (0 <= n <= Z.of_nat (length labels)) then Ret (take (Z.to_nat n) labels) else Panic "slice bounds out of range".

Definition substituteDNAME (qname owner target : string) : go string :=
  if IsSubDomain owner qname && bool_decide (qname <> owner) then
    let labels := SplitDomainName qname in
    (front <-! go_upto (Z.of_nat (length labels) - CountLabel owner) labels ;;
     Ret (Join (app front (SplitDomainName target))))%go
  else Ret EmptyString.

Definition synthesizeCNAME (qname : string) (owner target : string) (ttl : Z) : go (option RR) :=
  (t <-! substituteDNAME qname owner target ;;
   Ret (if decide (t = EmptyString) then None else Some (mkRR qname TypeCNAME ttl (CNAME t))))%go.

(** The names above [qname] are tried; the second call of NextLabel starts at the
    offset of the label before. *)
Fixpoint closest_loop (fuel : nat) (z : Zone) (qname : string) (offset : Z) (end_ : bool) : go (option elem * bool) :=
  match fuel with
  | O => Panic "no fuel"
  | S fuel' =>
      if end_ then Search (z_Tree z) (origin z)
      else
        (x <-! Search (z_Tree z) qname ;;
         match x.1 with
         | Some e => Ret (Some e, true)
         | None =>
             qname <-! go_from offset qname ;;
             let '(offset, end_) := NextLabel qname offset in
             closest_loop fuel' z qname offset end_
         end)%go
  end.

Definition ClosestEncloser (z : Zone) (qname : string) : go (option elem * bool) :=
  let '(offset, end_) := NextLabel qname 0 in
  closest_loop (S (String.length qname)) z qname offset end_.

(** ** The lookup *)

Section Lookup.
Context (Upstream : string -> Z -> option (list RR)) (z : Zone) (r : request).

(** An error or a missing message gives no records. *)
Definition doLookup (target : string) (qtype : Z) : list RR := default [] (Upstream target qtype).

Definition sigs_of (e : elem) (ty : Z) : list RR := if q_Do r then SubTypeSignature (Type_ e TypeRRSIG) ty else [].

Definition cname_target (rrs : list RR) : go string :=
  match rrs with
  | [] => Panic "index out of range"
  | rr :: _ => match rr_Data rr with CNAME t => Ret t | _ => assert_panic end
  end.

Definition external (rrs : list RR) : sections := mkSections rrs (ns (z_Apex z) (q_Do r)) [] Success.

(** A chain of CNAME records inside the zone is followed for at most nine. *)
Fixpoint chase (left_ : nat) (e : elem) (rrs : list RR) : go sections :=
  match Type_ e TypeCNAME with
  | [] =>
      let targets := CNAMEForType (All_ e) (q_Type r) in
      Ret (external (app rrs (match targets with [] => [] | _ => app targets (sigs_of e (q_Type r)) end)))
  | cname =>
      let rrs := app rrs (app cname (sigs_of e TypeCNAME)) in
      (target <-! cname_target cname ;;
       x <-! Search (z_Tree z) target ;;
       match x.1 with
       | None => Ret (external (app rrs (doLookup target (q_Type r))))
       | Some e' => match left_ with O => Ret (external rrs) | S l => chase l e' rrs end
       end)%go
  end.

Definition externalLookup (e : elem) (rrs : list RR) : go sections :=
  let rrs := app rrs (sigs_of e TypeCNAME) in
  (target <-! cname_target rrs ;;
   x <-! Search (z_Tree z) target ;;
   match x.1 with
   | None => Ret (external (app rrs (doLookup target (q_Type r))))
   | Some e' => chase 8 e' rrs
   end)%go.

Definition additional_name (rr : RR) : string :=
  match rr_Data rr with SRV t => t | MX t => t | _ => EmptyString end.

Fixpoint additionalProcessing (answer : list RR) : go (list RR) :=
  match answer with
  | [] => Ret []
  | rr :: l =>
      let name := additional_name rr in
      (here <-! (if bool_decide (name = EmptyString) || negb (IsSubDomain (origin z) name) then Ret []
                 else
                   x <-! Search (z_Tree z) name ;;
                   match x.1 with
                   | None => Ret []
                   | Some e =>
                       let addrs ty := match Type_ e ty with [] => [] | a => app a (sigs_of e ty) end in
                       Ret (app (addrs TypeA) (addrs TypeAAAA))
                   end) ;;
       rest <-! additionalProcessing l ;; Ret (app here rest))%go
  end.

(** The records of a DNAME at an ancestor, with the synthesized CNAME. *)
Definition dname_answer (e : elem) : go (option sections) :=
  match Type_ e TypeDNAME with
  | [] => Ret None
  | dname :: _ =>
      match rr_Data dname with
      | DNAME target =>
          (c <-! synthesizeCNAME (req_Name r) (rr_Name dname) target (rr_Ttl dname) ;;
           match c with
           | None => Ret None
           | Some cname =>
               x <-! externalLookup e [cname] ;;
               Ret (Some (mkSections (app (app (Type_ e TypeDNAME) (sigs_of e TypeDNAME)) (Answer x)) (Ns x) (Extra x) (z_Result x)))
           end)%go
      | _ => assert_panic
      end
  end.

(** A delegation: the name servers and their glue. *)
Definition referral (e : elem) : go sections :=
  let nsrrs := Type_ e TypeNS in
  (glue <-! Glue (z_Tree z) nsrrs (q_Do r) ;;
   Ret (mkSections [] (app nsrrs (if q_Do r then typeFromElem e TypeDS true else [])) glue Delegation))%go.

(** The names from the origin to [qname]: [inl] is an answer, [inr] the element of
    the last name that was tried and the last wildcard that was seen. *)
Fixpoint lookup_loop (fuel : nat) (qname : string) (i : Z) (found wild : option elem) :
    go (sections + option elem * option elem) :=
  match fuel with
  | O => Panic "no fuel"
  | S fuel' =>
      (p <-! nameFromRight z qname i ;;
       let '(parts, shot) := p in
       if shot : bool then Ret (inr (found, wild))
       else
         x <-! Search (z_Tree z) parts ;;
         match x.1 with
         | None =>
             wildcard <-! replaceWithAsteriskLabel parts ;;
             y <-! Search (z_Tree z) wildcard ;;
             lookup_loop fuel' qname (i + 1) None (match y.1 with Some w => Some w | None => wild end)
         | Some e =>
             d <-! dname_answer e ;;
             match d with
             | Some a => Ret (inl a)
             | None =>
                 match Type_ e TypeNS with
                 | [] => lookup_loop fuel' qname (i + 1) (Some e) wild
                 | _ =>
                     n <-! Name e ;;
                     if bool_decide (q_Type r = TypeDS) && bool_decide (n = qname)
                     then lookup_loop fuel' qname (i + 1) (Some e) wild
                     else a <-! referral e ;; Ret (inl a)
                 end
             end
         end)%go
  end.

(** The whole name was found. *)
Definition answer_found (e : elem) : go sections :=
  let ap := z_Apex z in
  if decide (Type_ e TypeCNAME <> [] /\ q_Type r <> TypeCNAME) then externalLookup e (Type_ e TypeCNAME)
  else
    match Type_ e (q_Type r) with
    | [] => Ret (mkSections [] (app (soa ap (q_Do r)) (if q_Do r then typeFromElem e TypeNSEC true else [])) [] NoData)
    | rrs =>
        (extra <-! additionalProcessing rrs ;;
         Ret (mkSections (app rrs (sigs_of e (q_Type r))) (ns ap (q_Do r)) extra Success))%go
    end.

(** Records that prove that a name does not exist: the NSEC records of the name
    before it. *)
Definition nsec_before (name : string) : go (option elem) := (x <-! Prev (z_Tree z) name ;; Ret (if x.2 : bool then x.1 else None))%go.

(** The name was not found but a wildcard was. *)
Definition answer_wild (qname : string) (w : elem) : go sections :=
  let ap := z_Apex z in
  if decide (TypeForWildcard w TypeCNAME qname <> []) then externalLookup w (TypeForWildcard w TypeCNAME qname)
  else
    match TypeForWildcard w (q_Type r) qname with
    | [] => Ret (mkSections [] (app (soa ap (q_Do r)) (if q_Do r then typeFromElem w TypeNSEC true else [])) [] Success)
    | rrs =>
        if q_Do r then
          (deny <-! nsec_before qname ;;
           Ret (mkSections (app rrs (SubTypeSignature (TypeForWildcard w TypeRRSIG qname) (q_Type r)))
                  (app (ns ap true) (match deny with Some d => typeFromElem d TypeNSEC true | None => [] end)) [] Success))%go
        else Ret (mkSections rrs (ns ap false) [] Success)
    end.

(** The denial of the wildcard at the closest encloser. *)
Definition wildcard_denial (qname denied : string) : go (list RR) :=
  (ce <-! ClosestEncloser z qname ;;
   match ce.1 with
   | Some c =>
       if ce.2 : bool then
         n <-! Name c ;;
         ss <-! nsec_before ("*." +:+ n) ;;
         match ss with
         | None => Ret []
         | Some x => m <-! Name x ;; Ret (if decide (m <> denied) then typeFromElem x TypeNSEC true else [])
         end
       else Ret []
   | None => if ce.2 : bool then Panic nil_pointer else Ret []
   end)%go.

(** Neither the name nor a wildcard was found. *)
Definition answer_missing (qname : string) : go sections :=
  let ap := z_Apex z in
  (x <-! Next (z_Tree z) qname ;;
   sub <-! match x.1 with
           | Some e => if x.2 : bool then n <-! Name e ;; Ret (IsSubDomain qname n) else Ret false
           | None => Ret false
           end ;;
   let rcode := if sub : bool then Success else NameError in
   nsecs <-! (if q_Do r then
                deny <-! nsec_before qname ;;
                match deny with
                | None => Ret []
                | Some d =>
                    denied <-! Name d ;;
                    more <-! (if sub then Ret [] else wildcard_denial qname denied) ;;
                    Ret (app (typeFromElem d TypeNSEC true) more)
                end
              else Ret []) ;;
   Ret (mkSections [] (app (soa ap (q_Do r)) nsecs) [] rcode))%go.

Definition Lookup (qname : string) : go sections :=
  let ap := z_Apex z in
  let qtype := q_Type r in
  let do_ := q_Do r in
  match a_SOA ap with
  | None => Ret (mkSections [] [] [] ServerFailure)
  | Some _ =>
      if decide (qname = origin z /\ qtype = TypeSOA) then Ret (mkSections (soa ap do_) (ns ap do_) [] Success)
      else if decide (qname = origin z /\ qtype = TypeNS) then
        (glue <-! Glue (z_Tree z) (ns ap do_) do_ ;; Ret (mkSections (ns ap do_) [] glue Success))%go
      else
        (x <-! lookup_loop (S (S (String.length qname))) qname 0 None None ;;
         match x with
         | inl a => Ret a
         | inr (Some e, _) => answer_found e
         | inr (None, Some w) => answer_wild qname w
         | inr (None, None) => answer_missing qname
         end)%go
  end.
End Lookup.
End Zones.

(** ** Loading a zone *)

Section Loading.
Context `{DnsLib}.

(** The records of a parser or of a transfer, until one is refused. *)
Fixpoint insert_all (z : Zone) (rrs : list RR) : go (Zone * error) :=
  match rrs with
  | [] => Ret (z, None)
  | rr :: l =>
      (x <-! Zone_Insert z rr ;;
       match x.2 with
       | Some err => Ret (x.1, Some err)
       | None => insert_all x.1 l
       end)%go
  end.

(** The parser gives records until the end of the file or its first error: [zp]
    is the records and that error.  [Parse] asks for the error only after a
    record. *)
Fixpoint parse_loop (z : Zone) (rrs : list RR) (serial : Z) (seenSOA : bool) : go (option Zone * error) :=
  match rrs with
  | [] => if seenSOA then Ret (Some z, None) else Ret (None, Some "no SOA record"%string)
  | rr :: l =>
      let is_soa := match rr_Data rr with SOA _ _ s _ _ _ => Some s | _ => None end in
      match seenSOA, is_soa with
      | false, Some s =>
          if bool_decide (0 <= serial) && bool_decide (s = u32 serial) then Ret (None, Some "no change in SOA serial"%string)
          else
            (x <-! Zone_Insert z rr ;;
             match x.2 with Some err => Ret (None, Some err) | None => parse_loop x.1 l serial true end)%go
      | _, _ =>
          (x <-! Zone_Insert z rr ;;
           match x.2 with Some err => Ret (None, Some err) | None => parse_loop x.1 l serial seenSOA end)%go
      end
  end.

Definition Parse (zp : list RR * error) (orig fileName : string) (serial : Z) : go (option Zone * error) :=
  parse_loop (NewZone orig fileName) zp.1 serial false.

(** One tick of the reload: [content] is the file, [None] when it cannot be
    opened; the apex and the tree are replaced together. *)
Definition Reload (z : Zone) (content : option (list RR * error)) : go Zone :=
  match content with
  | None => Ret z
  | Some zp =>
      (x <-! Parse zp (origin z) (file z) (SOASerialIfDefined z) ;;
       match x with
       | (Some zone, None) => Ret (set_apex (set_tree z (z_Tree zone)) (z_Apex zone))
       | _ => Ret z
       end)%go
  end.

(** ** Transfers *)

(** What a primary sends: the records of the apex, of the tree in order, and the
    SOA record again; one SOA record when the serial of the request is its own. *)
Definition Transfer (z : Zone) (serial : Z) : go (list (list RR) * error) :=
  match ApexIfDefined z with
  | (_, Some err) => Ret ([], Some err)
  | ([], None) => Panic "index out of range"
  | (s :: rest, None) =>
      if decide (serial <> 0 /\ SOASerialIfDefined z = serial) then Ret ([[s]], None)
      else
        (x <-! Walk (z_Tree z) (fun e ch => Ret (app ch [All_ e], None)) [s :: rest] ;;
         Ret (app x.1 [[s]], None))%go
  end.

(** A transfer from a primary that answers: the envelopes and, at the end, the
    error that interrupts them. *)
Definition envelopes : Type := list (list RR) * error.

Fixpoint receive (z1 : Zone) (env : list (list RR)) : go (Zone * error) :=
  match env with
  | [] => Ret (z1, None)
  | rrs :: l =>
      (x <-! insert_all z1 rrs ;;
       match x.2 with Some err => Ret x | None => receive x.1 l end)%go
  end.

(** The primaries in turn: [inr] is a transfer that cannot be set up.  The zone
    that receives the records is the same for all of them. *)
Fixpoint transfer_loop (z1 : Zone) (Err : error) (primaries : list (envelopes + string)) : go (Zone * error) :=
  match primaries with
  | [] => Ret (z1, Err)
  | inr err :: l => transfer_loop z1 (Some err) l
  | inl (env, env_err) :: l =>
      (x <-! receive z1 env ;;
       match x.2, env_err with
       | Some err, _ => transfer_loop x.1 (Some err) l
       | None, Some err => transfer_loop x.1 (Some err) l
       | None, None => Ret (x.1, None)
       end)%go
  end.

Definition TransferIn (z : Zone) (primaries : list (envelopes + string)) : go (Zone * error) :=
  match primaries with
  | [] => Ret (z, None)
  | _ =>
      (x <-! transfer_loop (CopyWithoutApex z) None primaries ;;
       match x.2 with
       | Some err => Ret (z, Some err)
       | None => Ret (mkZone (origin z) (origLen z) (file z) (z_Tree x.1) (z_Apex x.1) false (TransferFrom z), None)
       end)%go
  end.

(** Serial numbers are compared as RFC 1982 says. *)
Definition MaxSerialIncrement : Z := 2147483647.

Definition serial_less (a b : Z) : bool :=
  if decide (a < b) then bool_decide (u32 (b - a) <= MaxSerialIncrement) else bool_decide (u32 (a - b) > MaxSerialIncrement).

(** The answers of the primaries to a query for the SOA record: [None] is an error
    or an rcode other than success. *)
Fixpoint primary_serial (answers : list (option (list RR))) : option Z :=
  match answers with
  | [] => None
  | None :: l => primary_serial l
  | Some rrs :: l =>
      match omap (fun rr => if decide (rr_Type rr = TypeSOA) then match rr_Data rr with SOA _ _ s _ _ _ => Some s | _ => None end else None) rrs with
      | s :: _ => Some s
      | [] => primary_serial l
      end
  end.

Definition shouldTransfer (z : Zone) (answers : list (option (list RR))) : bool :=
  match primary_serial answers with
  | None => false
  | Some serial =>
      match a_SOA (z_Apex z) with
      | None => true
      | Some _ => serial_less (SOASerialIfDefined z) (u32 serial)
      end
  end.

(** ** Serving *)

Fixpoint Matches_loop (zones : list string) (qname zone : string) : string :=
  match zones with
  | [] => zone
  | zname :: l =>
      Matches_loop l qname
        (if IsSubDomain zname qname && bool_decide (String.length zone < String.length zname)%nat then zname else zone)
  end.

Definition Matches (zones : list string) (qname : string) : string := Matches_loop zones qname EmptyString.

Record File := mkFile { f_Names : list string; f_Z : gmap string Zone }.

(** What a request led to: handed to the next plugin, or an rcode, with the reply
    that was written. *)
Inductive served := NextOrFailure | Rcode (rcode : Z) (written : option reply).

(** Whether a notification comes from one of the primaries; [SplitHost] is the
    host of an address with a port. *)
Definition isNotify (SplitHost : string -> option string) (z : Zone) (r : request) : bool :=
  bool_decide (q_Opcode r = OpcodeNotify) && existsb (fun f => bool_decide (SplitHost f = Some (q_IP r))) (TransferFrom z).

(** [serials] and [primaries] are what the primaries of the zone answer when a
    notification makes the server ask them. *)
Definition ServeDNS (Upstream : string -> Z -> option (list RR)) (SplitHost : string -> option string)
    (serials : list (option (list RR))) (primaries : list (envelopes + string)) (f : File) (r : request) : go (File * served) :=
  let qname := req_Name r in
  let zone := Matches (f_Names f) qname in
  if decide (zone = EmptyString) then Ret (f, NextOrFailure)
  else
    match f_Z f !! zone with
    | None => Ret (f, Rcode RcodeServerFailure None)
    | Some z =>
        if decide (q_Opcode r = OpcodeNotify) then
          if isNotify SplitHost z r then
            let m := mkReply RcodeSuccess true [] [] [] in
            (z' <-! (if shouldTransfer z serials then x <-! TransferIn z primaries ;; Ret x.1 else Ret z) ;;
             Ret (mkFile (f_Names f) (<[zone := z']> (f_Z f)), Rcode RcodeSuccess (Some m)))%go
          else Ret (f, Rcode RcodeSuccess None)
        else if Expired z then Ret (f, Rcode RcodeServerFailure None)
        else
          (x <-! Lookup Upstream z r qname ;;
           let m rcode auth := mkReply rcode auth (Answer x) (Ns x) (Extra x) in
           Ret (f, match z_Result x with
                   | Success | NoData => Rcode RcodeSuccess (Some (m RcodeSuccess true))
                   | NameError => Rcode RcodeSuccess (Some (m RcodeNameError true))
                   | Delegation => Rcode RcodeSuccess (Some (m RcodeSuccess false))
                   | ServerFailure => Rcode RcodeServerFailure None
                   end))%go
    end.

(** *** The transfer plugin *)

Record xfr := mkXfr { x_Zones : list string; x_to : list string }.

Definition allowed (SplitHost : string -> option string) (x : xfr) (r : request) : bool :=
  (fix go l := match l with
               | [] => false
               | h :: l' =>
                   if decide (h = "*"%string) then true
                   else match SplitHost h with
                        | None => false
                        | Some to => if decide (to = q_IP r) then true else go l'
                        end
               end) (x_to x).

(** [z > zone] compares the texts of the zones. *)
Definition str_gt (a b : string) : bool := bool_decide (0 < Compare (bytes_of_string a) (bytes_of_string b)).

Fixpoint longestMatch_loop (xfrs : list xfr) (name : string) (x : option xfr) (zone : string) : option xfr :=
  match xfrs with
  | [] => x
  | y :: l =>
      let z := Matches (x_Zones y) name in
      if bool_decide (z <> EmptyString) && str_gt z zone then longestMatch_loop l name (Some y) z
      else longestMatch_loop l name x zone
  end.

Definition longestMatch (xfrs : list xfr) (name : string) : option xfr := longestMatch_loop xfrs name None EmptyString.

(** The records are sent when more than 500 are waiting: what was sent and what
    is still waiting. *)
Fixpoint batches (recs : list (list RR)) (rrs : list RR) : list (list RR) * list RR :=
  match recs with
  | [] => ([], rrs)
  | l :: recs' =>
      let rrs := app rrs l in
      if decide (500 < length rrs)%nat then let x := batches recs' [] in (rrs :: x.1, x.2)
      else batches recs' rrs
  end.

Definition ErrNotAuthoritative : string := "not authoritative for zone".

Definition File_Transfer (f : File) (zone : string) (serial : Z) : go (list (list RR) * error) :=
  match f_Z f !! zone with
  | None => Ret ([], Some ErrNotAuthoritative)
  | Some z => Transfer z serial
  end.

(** The first plugin that is authoritative for the zone. *)
Fixpoint first_transfer (ts : list (string -> Z -> go (list (list RR) * error))) (zone : string) (serial : Z) :
    go (option (list (list RR) + string)) :=
  match ts with
  | [] => Ret None
  | t :: ts' =>
      (x <-! t zone serial ;;
       match x.2 with
       | None => Ret (Some (inl x.1))
       | Some err => if decide (err = ErrNotAuthoritative) then first_transfer ts' zone serial else Ret (Some (inr err))
       end)%go
  end.

Inductive transferred := TNext | TRcode (rcode : Z) | TRefused | TSent (messages : list (list RR)).

Definition is_SOA (rr : RR) : bool := match rr_Data rr with SOA _ _ _ _ _ _ => true | _ => false end.

(** The messages of a transfer: the envelopes, the last one being what is still
    waiting.  One waiting record after a SOA record is sent as a plain reply. *)
Definition send_all (recs : list (list RR)) : go (list (list RR)) :=
  if existsb (fun l => match l with [] => true | _ => false end) recs then Panic "index out of range"
  else
    let '(sent, waiting) := batches recs [] in
    let soa := find is_SOA (omap head recs) in
    match waiting, soa with
    | [_], Some s => Ret (app sent [[s]])
    | [], _ => Ret sent
    | _, _ => Ret (app sent [waiting])
    end.

Definition Transfer_ServeDNS (SplitHost : string -> option string)
    (ts : list (string -> Z -> go (list (list RR) * error))) (xfrs : list xfr) (r : request) : go transferred :=
  let qname := NameString (q_Name r) in
  if decide (q_Type r <> TypeAXFR /\ q_Type r <> TypeIXFR) then Ret TNext
  else
    match longestMatch xfrs qname with
    | None => Ret TNext
    | Some x =>
        if negb (allowed SplitHost x r) then Ret TRefused
        else
          let serial := if decide (q_Type r = TypeIXFR) then
                          match q_Ns r with [mkRR _ _ _ (SOA _ _ s _ _ _)] => Some s | _ => None end
                        else Some 0 in
          match serial with
          | None => Ret (TRcode RcodeServerFailure)
          | Some serial =>
              (o <-! first_transfer ts qname serial ;;
               match o with
               | None => Ret TNext
               | Some (inr _) => Ret (TRcode RcodeServerFailure)
               | Some (inl recs) => msgs <-! send_all recs ;; Ret (TSent msgs)
               end)%go
          end
    end.
End Loading.

(** ** What a computation that may panic returns *)

(** The computation does not panic, and its result satisfies [P]. *)
Definition returns {A : Type} (P : A -> Prop) (c : go A) : Prop := exists a, c = Ret a /\ P a.

Lemma returns_ret {A} (P : A -> Prop) a : P a -> returns P (Ret a).
Proof. intros Ha. by exists a. Qed.

Lemma returns_bind {A B} (P : A -> Prop) (Q : B -> Prop) c k :
  returns P c -> (forall a, P a -> returns Q (k a)) -> returns Q (go_bind c k).
Proof. intros (a & -> & Ha) Hk. cbn. by apply Hk. Qed.

Lemma returns_impl {A} (P Q : A -> Prop) c : returns P c -> (forall a, P a -> Q a) -> returns Q c.
Proof. intros (a & -> & Ha) HPQ. exists a. auto. Qed.

(** ** The records of a zone *)

Section Sound.
Context `{L : DnsLaws}.

(** A record whose data is of the type of its header, as the parser makes them. *)
Definition typed (rr : RR) : Prop :=
  (rr_Type rr = TypeNS -> exists n, rr_Data rr = NS n) /\
  (rr_Type rr = TypeSOA -> exists a b c d e f, rr_Data rr = SOA a b c d e f) /\
  (rr_Type rr = TypeRRSIG -> exists t, rr_Data rr = RRSIG t) /\
  (rr_Type rr = TypeCNAME -> exists t, rr_Data rr = CNAME t) /\
  (rr_Type rr = TypeDNAME -> exists t, rr_Data rr = DNAME t) /\
  (rr_Type rr = TypeMX -> exists t, rr_Data rr = MX t) /\
  (rr_Type rr = TypeSRV -> exists t, rr_Data rr = SRV t).

(** The tree of the zone holds the elements [k], which are the records [rs]. *)
Record zone_ok (z : Zone) (k : list elem) (rs : list RR) : Prop := {
  zk_tree : tree_ok (z_Tree z) k;
  zk_holds : holds k rs;
  zk_typed : Forall typed rs
}.

Lemma lookup_self k e : sorted k -> e ∈ k -> lookup_name (name_of e) k = Some e.
Proof.
  intros Hs (k1 & k2 & ->)%list_elem_of_split. rewrite lookup_name_app by (by apply sorted_in_order).
  by rewrite less_refl, decide_True.
Qed.

Lemma elem_record z k rs e ty rr : zone_ok z k rs -> e ∈ k -> rr ∈ Type_ e ty ->
  rr ∈ rs /\ rr_Type rr = ty /\ less (name_of e) (rr_Name rr) = 0 /\ typed rr.
Proof.
  intros [Hok Hh Ht] He Hrr. pose proof Hok as [[_ _ Hs] _ _ _]. specialize (Hh (name_of e) ty).
  rewrite (lookup_self _ _ Hs He) in Hh. cbn [answer] in Hh. rewrite Hh in Hrr. unfold of_type in Hrr.
  apply list_elem_of_filter in Hrr as [[Hn Hty] Hrr]. rewrite Forall_forall in Ht. auto.
Qed.

Lemma record_elem z k rs rr : zone_ok z k rs -> rr ∈ rs ->
  exists e, e ∈ k /\ rr ∈ Type_ e (rr_Type rr) /\ less (rr_Name rr) (name_of e) = 0.
Proof.
  intros [_ Hh _] Hrr. specialize (Hh (rr_Name rr) (rr_Type rr)).
  assert (Hin : rr ∈ of_type (rr_Name rr) (rr_Type rr) rs).
  { apply list_elem_of_filter. split; [|done]. split; [apply less_refl|done]. }
  rewrite <- Hh in Hin. destruct (lookup_name (rr_Name rr) k) as [e|] eqn:E; [|by apply not_elem_of_nil in Hin].
  destruct (lookup_name_Some _ _ _ E). by exists e.
Qed.

(** *** The operations of the tree return *)

Lemma Search_returns z k rs q : zone_ok z k rs ->
  returns (fun x => x.1 = lookup_name q k /\ x.2 = bool_decide (x.1 <> None) /\ (forall e, x.1 = Some e -> e ∈ k)) (Search (z_Tree z) q).
Proof.
  intros [Hok _ _]. rewrite (Search_ok _ _ q Hok). apply returns_ret. cbn. split; [done|]. split; [done|].
  intros e He. by apply lookup_name_Some in He as [? _].
Qed.

Lemma Name_returns z k rs e : zone_ok z k rs -> e ∈ k -> Name e = Ret (name_of e).
Proof.
  intros [[[_ Hw _] _ _ _] _ _] He. rewrite Forall_forall in Hw. by destruct (wf_named e (Hw e He)) as (? & [= <-] & ?).
Qed.

Lemma Next_returns z k rs q : zone_ok z k rs ->
  Next (z_Tree z) q = Ret (let o := head (filter (fun e => less q (name_of e) <= 0) k) in (o, bool_decide (o <> None))).
Proof.
  intros [[Hi _ _ _] _ _]. unfold Next. destruct (ceil_spec _ _ q Hi) as (m & -> & Hm & Hb). cbn [go_bind]. rewrite Hm, Hb.
  by destruct (head _).
Qed.

Lemma nsec_before_returns z k rs q : zone_ok z k rs -> returns (fun o => forall e, o = Some e -> e ∈ k) (nsec_before z q).
Proof.
  intros [[Hi _ _ _] _ _]. unfold nsec_before, Prev. destruct (floor_spec _ _ q Hi) as (m & -> & Hm & Hb). cbn [go_bind]. rewrite Hm, Hb.
  destruct (last _) as [e|] eqn:El; cbn; apply returns_ret; [|done]. intros e' [= <-].
  apply last_Some_elem_of, list_elem_of_filter in El. tauto.
Qed.

(** *** Where the records of an answer come from *)

Section Provenance.
Context (Upstream : string -> Z -> option (list RR)) (z : Zone) (r : request) (k : list elem) (rs : list RR) (Hz : zone_ok z k rs).
Context (qname : string).

(** A record of the apex or of the tree, a record of a wildcard with the name of
    the query, a record that the server resolved outside of the zone, or the CNAME
    record of a DNAME record. *)
Definition prov (rr : RR) : Prop :=
  rr ∈ rs \/ rr ∈ soa (z_Apex z) true \/ rr ∈ ns (z_Apex z) true \/
  (exists r0, r0 ∈ rs /\ rr = with_name qname r0) \/
  (exists t, rr ∈ doLookup Upstream t (q_Type r)) \/
  (exists d target, d ∈ rs /\ rr_Data d = DNAME target /\
     synthesizeCNAME (req_Name r) (rr_Name d) target (rr_Ttl d) = Ret (Some rr)).

Definition sound (s : sections) : Prop := Forall prov (Answer s) /\ Forall prov (Ns s) /\ Forall prov (Extra s).

Lemma prov_Type e ty : e ∈ k -> Forall prov (Type_ e ty).
Proof. intros He. apply Forall_forall. intros rr Hrr. left. by eapply elem_record. Qed.

Lemma prov_SubType l ty : Forall prov l -> Forall prov (SubTypeSignature l ty).
Proof. unfold SubTypeSignature. apply Forall_filtered. Qed.

Lemma prov_sigs e ty : e ∈ k -> Forall prov (sigs_of r e ty).
Proof. intros He. unfold sigs_of. destruct (q_Do r); [|constructor]. by apply prov_SubType, prov_Type. Qed.

Lemma prov_typeFromElem e ty do_ : e ∈ k -> Forall prov (typeFromElem e ty do_).
Proof.
  intros He. unfold typeFromElem. apply Forall_app. split; [by apply prov_Type|].
  destruct do_; [|constructor]. by apply prov_SubType, prov_Type.
Qed.

Lemma prov_ns do_ : Forall prov (ns (z_Apex z) do_).
Proof.
  apply Forall_forall. intros rr Hrr. right. right. left. unfold ns in *. rewrite elem_of_app in *.
  destruct Hrr as [?|Hrr]; [by left|right]. by destruct do_; [|apply not_elem_of_nil in Hrr].
Qed.

Lemma prov_soa do_ : Forall prov (soa (z_Apex z) do_).
Proof.
  apply Forall_forall. intros rr Hrr. right. left. unfold soa in *. rewrite elem_of_app in *.
  destruct Hrr as [?|Hrr]; [by left|right]. by destruct do_; [|apply not_elem_of_nil in Hrr].
Qed.

Lemma prov_All e : e ∈ k -> Forall prov (All_ e).
Proof.
  intros He. apply Forall_forall. intros rr Hrr. unfold All_ in Hrr. apply list_elem_of_In, in_concat in Hrr as (l & Hl%list_elem_of_In & Hrr%list_elem_of_In).
  apply list_elem_of_fmap in Hl as ([ty l'] & -> & Hl%elem_of_map_to_list).
  pose proof (prov_Type e ty He) as Hp. rewrite Forall_forall in Hp. apply Hp. unfold Type_. by rewrite Hl.
Qed.

Lemma prov_CNAMEForType e ty : e ∈ k -> Forall prov (CNAMEForType (All_ e) ty).
Proof. intros He. apply Forall_filtered. by apply prov_All. Qed.

Lemma prov_doLookup t : Forall prov (doLookup Upstream t (q_Type r)).
Proof. apply Forall_forall. intros rr Hrr. do 4 right. left. eauto. Qed.

Lemma prov_wild e ty : e ∈ k -> Forall prov (TypeForWildcard e ty qname).
Proof.
  intros He. apply Forall_forall. intros rr Hrr. apply list_elem_of_fmap in Hrr as (r0 & -> & Hr0).
  do 3 right. left. exists r0. split; [|done]. by eapply elem_record.
Qed.

Lemma prov_nil : Forall prov [].
Proof. constructor. Qed.

Create HintDb prov discriminated.
Hint Resolve prov_Type prov_SubType prov_sigs prov_typeFromElem prov_ns prov_soa prov_CNAMEForType prov_doLookup prov_wild prov_nil : prov.

Ltac prov := repeat (rewrite Forall_app; split); auto with prov.

Definition sound_success (s : sections) : Prop := sound s /\ z_Result s = Success.

Lemma sound_external rrs : Forall prov rrs -> sound_success (external z r rrs).
Proof. intros Hr. split; [|done]. split_and!; cbn [Answer Ns Extra external]; prov. Qed.

Lemma search_then {B} q (f : option elem * bool -> go B) (Q : B -> Prop) :
  (forall o, (forall e, o = Some e -> e ∈ k) -> o = lookup_name q k -> returns Q (f (o, bool_decide (o <> None)))) -> returns Q (go_bind (Search (z_Tree z) q) f).
Proof.
  intros Hf. eapply returns_bind; [by eapply Search_returns|]. intros [o b] (Ho & Hb & He). cbn in *. subst b. by apply Hf.
Qed.

Lemma cname_head e l : e ∈ k -> Type_ e TypeCNAME = l -> l <> [] -> exists t, forall x, cname_target (app l x) = Ret t.
Proof.
  intros He Hl Hne. destruct l as [|rr l]; [done|].
  destruct (elem_record z k rs e TypeCNAME rr Hz He) as (_ & Ht & _ & (_ & _ & _ & Hc & _)); [rewrite Hl; left|].
  destruct (Hc Ht) as [t Hd]. exists t. intros x. cbn. by rewrite Hd.
Qed.

Lemma chase_sound n e rrs : e ∈ k -> Forall prov rrs -> returns sound_success (chase Upstream z r n e rrs).
Proof.
  revert e rrs. induction n as [|n IH]; intros e rrs He Hr; cbn [chase]; destruct (Type_ e TypeCNAME) as [|c cs] eqn:Ec.
  1, 3: apply returns_ret, sound_external; destruct (CNAMEForType (All_ e) (q_Type r)) eqn:Et; prov; rewrite <- Et; prov.
  - destruct (cname_head e (c :: cs) He Ec ltac:(done)) as [t Ht]. specialize (Ht []). rewrite app_nil_r in Ht. rewrite Ht. cbn [go_bind].
    apply search_then. intros o Ho _. cbn [fst]. destruct o as [e'|]; apply returns_ret, sound_external; rewrite <- Ec; prov.
  - destruct (cname_head e (c :: cs) He Ec ltac:(done)) as [t Ht]. specialize (Ht []). rewrite app_nil_r in Ht. rewrite Ht. cbn [go_bind].
    apply search_then. intros o Ho _. cbn [fst]. destruct o as [e'|].
    + apply IH; [by apply Ho|]. rewrite <- Ec. prov.
    + apply returns_ret, sound_external. rewrite <- Ec. prov.
Qed.

Lemma externalLookup_sound e rrs t : e ∈ k -> Forall prov rrs -> (forall x, cname_target (app rrs x) = Ret t) ->
  returns sound_success (externalLookup Upstream z r e rrs).
Proof.
  intros He Hr Ht. unfold externalLookup. rewrite Ht. cbn [go_bind]. apply search_then. intros o Ho _. cbn [fst]. destruct o as [e'|].
  - apply chase_sound; [by apply Ho|]. prov.
  - apply returns_ret, sound_external. prov.
Qed.

Lemma additional_sound l : returns (Forall prov) (additionalProcessing z r l).
Proof.
  induction l as [|rr l IH]; cbn [additionalProcessing]; [by apply returns_ret|].
  eapply returns_bind with (P := Forall prov).
  - destruct (_ || _); [by apply returns_ret|]. apply search_then. intros [e|] Ho _; cbn [fst]; apply returns_ret; [|done].
    specialize (Ho e eq_refl). apply Forall_app. split; [destruct (Type_ e TypeA) eqn:E|destruct (Type_ e TypeAAAA) eqn:E]; try done; rewrite <- E; prov.
  - intros here Hh. eapply returns_bind; [exact IH|]. intros rest Hr. apply returns_ret. prov.
Qed.

Lemma Glue_sound l do_ : returns (Forall prov) (Glue (z_Tree z) l do_).
Proof.
  induction l as [|rr l IH]; cbn [Glue]; [by apply returns_ret|].
  eapply returns_bind with (P := Forall prov).
  - destruct (rr_Data rr); try by apply returns_ret. destruct (IsSubDomain _ _); [|by apply returns_ret].
    unfold searchGlue. apply search_then. intros [e|] Ho _; cbn [fst snd]; [|by apply returns_ret]. specialize (Ho e eq_refl).
    rewrite bool_decide_eq_true_2 by done. apply returns_ret. destruct do_; prov.
  - intros g Hg. eapply returns_bind; [exact IH|]. intros gs Hgs. apply returns_ret. prov.
Qed.

Lemma referral_sound e : e ∈ k -> returns (fun s => sound s /\ z_Result s = Delegation) (referral z r e).
Proof.
  intros He. unfold referral. eapply returns_bind; [apply Glue_sound|]. intros g Hg. apply returns_ret. split; [|done].
  split_and!; cbn [Answer Ns Extra external]; prov. destruct (q_Do r); prov.
Qed.

(** The slice of the labels is in range: a name below the owner has its labels. *)
Lemma synthesize_returns q owner target ttl :
  returns (fun o => forall c, o = Some c -> exists t, rr_Data c = CNAME t) (synthesizeCNAME q owner target ttl).
Proof.
  unfold synthesizeCNAME. eapply returns_bind with (P := fun _ => True); cycle 1.
  { intros t _. apply returns_ret. intros c. case_decide; [done|]. intros [= <-]. by eexists. }
  unfold substituteDNAME. destruct (IsSubDomain owner q) eqn:Es; [|by apply returns_ret].
  apply IsSubDomain_law in Es. case_bool_decide as Hne; [|by apply returns_ret]. cbn [andb]. unfold go_upto.
  rewrite decide_True; [by apply returns_ret|]. rewrite SplitDomainName_law, CountLabel_law.
  destruct Es as [->|[[-> ->]|(Ho & Hq & l & Hl)]]; [|done|].
  { rewrite (decide_True (P := "."%string = "."%string)) by done. lia. }
  pose proof Hl as Hl'. apply (f_equal length) in Hl. rewrite length_app, !length_fmap in Hl.
  destruct (decide (owner = "."%string)) as [_|Hr]; [lia|]. rewrite (decide_False (P := owner = EmptyString)) by done.
  assert (H0 : labels owner <> []) by (intros E; apply Ho; by rewrite <- (labels_join owner), E).
  destruct (labels owner) as [|x lo] eqn:Elo; [done|]. case_decide as Hqr.
  - subst q. exfalso. rewrite labels_root in Hl'. apply Hr. rewrite <- (labels_join owner), Elo.
    destruct l as [|y [|z' l]]; [|by destruct lo|done]. injection Hl' as Hx Hlo.
    destruct lo; [|done]. cbn. rewrite str_app_nil_r. by apply lower_root.
  - lia.
Qed.

Lemma dname_sound e : e ∈ k -> returns (fun o => forall s, o = Some s -> sound_success s /\ Type_ e TypeDNAME <> []) (dname_answer Upstream z r e).
Proof.
  intros He. unfold dname_answer. destruct (Type_ e TypeDNAME) as [|d ds] eqn:Ed; [by apply returns_ret|].
  destruct (elem_record z k rs e TypeDNAME d Hz He) as (Hin & Ht & _ & (_ & _ & _ & _ & Hd & _)); [rewrite Ed; left|].
  assert (Hds : Forall prov (d :: ds)) by (rewrite <- Ed; prov). destruct (Hd Ht) as [t Htd]. rewrite Htd. destruct (synthesize_returns (req_Name r) (rr_Name d) t (rr_Ttl d)) as (o & Ec & Ho). rewrite Ec.
  cbn [go_bind]. destruct o as [c|]; [|by apply returns_ret].
  destruct (Ho c eq_refl) as [t' Hc]. eapply returns_bind; [apply (externalLookup_sound e [c] t' He)|].
  - constructor; [|done]. do 5 right. by exists d, t.
  - intros x. cbn. by rewrite Hc.
  - intros x ((Ha & Hn & Hx) & Hs). apply returns_ret. intros s [= <-]. split; [|done]. split; [|done]. split_and!; cbn [Answer Ns Extra external]; prov. inversion Hds; subst. constructor; prov.
Qed.

(** *** The loop over the names ends *)

Lemma overshoots_spec q lo n : 1 <= lo ->
  overshoots q lo n = bool_decide ((0 < n)%nat /\ Z.of_nat (length (labels q)) < lo + Z.of_nat n - 1).
Proof.
  revert lo. induction n as [|n IH]; intros lo Hlo; cbn [overshoots].
  { rewrite bool_decide_eq_false_2; [done|lia]. }
  rewrite PrevLabel_law by done. destruct (decide (lo <= Z.of_nat (length (labels q)))) as [Hd|Hd]; cbn [snd].
  - rewrite IH by lia. apply bool_decide_ext. lia.
  - rewrite bool_decide_eq_true_2; [done|lia].
Qed.

Lemma nameFromRight_shot i : 1 <= i -> 0 <= origLen z -> Z.of_nat (length (labels qname)) < i ->
  nameFromRight z qname i = Ret (qname, true).
Proof.
  intros Hi Hl Hn. unfold nameFromRight. rewrite decide_False by lia. destruct (overshoots qname 1 _); [done|].
  rewrite (overshoots_spec qname (1 + origLen z)) by lia. rewrite bool_decide_eq_true_2; [done|lia].
Qed.

Lemma nameFromRight_returns i : 0 <= i -> 0 <= origLen z -> returns (fun _ => True) (nameFromRight z qname i).
Proof.
  intros Hi Hl. unfold nameFromRight. case_decide; [by apply returns_ret|]. repeat (case_match; [by apply returns_ret|]).
  unfold go_from. rewrite decide_True by (apply PrevLabel_bounds; lia). by apply returns_ret.
Qed.

Lemma asterisk_returns q : returns (fun _ => True) (replaceWithAsteriskLabel q).
Proof.
  unfold replaceWithAsteriskLabel. destruct (NextLabel q 0) as [o e] eqn:En. destruct e; [by apply returns_ret|].
  apply NextLabel_forward in En; [|lia]. unfold go_from. rewrite decide_True by lia. by apply returns_ret.
Qed.

Lemma length_labels_le : (length (labels qname) <= String.length qname)%nat.
Proof.
  rewrite <- length_label_bytes, <- length_bytes_of_string, <- label_bytes_concat. apply length_concat_ge, label_bytes_nonempty.
Qed.

Definition tried (x : sections + option elem * option elem) : Prop :=
  match x with
  | inl s => sound s /\ z_Result s <> NameError
  | inr (f, w) => (forall e, f = Some e -> e ∈ k) /\ (forall e, w = Some e -> e ∈ k)
  end.

Lemma lookup_loop_sound fuel i found wild : 0 <= origLen z -> 0 <= i <= Z.of_nat (length (labels qname)) + 1 ->
  (length (labels qname) + 2 <= fuel + Z.to_nat i)%nat ->
  (forall e, found = Some e -> e ∈ k) -> (forall e, wild = Some e -> e ∈ k) ->
  returns tried (lookup_loop Upstream z r fuel qname i found wild).
Proof.
  intros Hl. revert i found wild. induction fuel as [|fuel IH]; intros i found wild Hi Hf Hfo Hw; [lia|]. cbn [lookup_loop].
  destruct (nameFromRight_returns i ltac:(lia) Hl) as ([parts shot] & En & _). rewrite En. cbn [go_bind].
  destruct shot; [by apply returns_ret|].
  assert (Hi' : i <= Z.of_nat (length (labels qname))).
  { destruct (decide (i <= Z.of_nat (length (labels qname)))); [done|].
    rewrite (nameFromRight_shot i) in En by lia. discriminate. }
  apply search_then. intros [e|] Ho _; cbn [fst].
  - specialize (Ho e eq_refl). eapply returns_bind; [by apply dname_sound|]. intros [a|] Ha.
    { apply returns_ret. destruct (Ha a eq_refl) as [[Hs Hr] _]. cbn. rewrite Hr. by split. }
    assert (Hgo : returns tried (lookup_loop Upstream z r fuel qname (i + 1) (Some e) wild)).
    { apply IH; [lia|lia| |done]. by intros e' [= <-]. }
    destruct (Type_ e TypeNS) as [|n ns']; [done|]. rewrite (Name_returns z k rs e Hz Ho). cbn [go_bind].
    destruct (_ && _); [done|]. eapply returns_bind; [by apply referral_sound|]. intros s [Hs Hr]. apply returns_ret. cbn. by rewrite Hr.
  - eapply returns_bind; [apply asterisk_returns|]. intros a _.
    apply search_then. intros [w|] Hw' _; cbn [fst]; apply IH; try lia; try done.
Qed.

Lemma answer_found_sound e : e ∈ k -> returns (fun s => sound s /\ z_Result s <> NameError) (answer_found Upstream z r e).
Proof.
  intros He. unfold answer_found. case_decide as Hc.
  - destruct (cname_head e _ He eq_refl (proj1 Hc)) as [t Ht].
    eapply returns_impl; [by eapply externalLookup_sound; [done|prov|]|]. intros s [Hs Hr]. rewrite Hr. by split.
  - destruct (Type_ e (q_Type r)) as [|rr rrs] eqn:E.
    + apply returns_ret. split; [|done]. split_and!; cbn [Answer Ns Extra external]; prov. destruct (q_Do r); prov.
    + eapply returns_bind; [apply additional_sound|]. intros x Hx. apply returns_ret. split; [|done].
      rewrite <- E. split_and!; cbn [Answer Ns Extra external]; prov.
Qed.

Lemma answer_wild_sound w : w ∈ k -> returns (fun s => sound s /\ z_Result s <> NameError) (answer_wild Upstream z r qname w).
Proof.
  intros He. unfold answer_wild. case_decide as Hc.
  - assert (Ht : exists t, forall x, cname_target (app (TypeForWildcard w TypeCNAME qname) x) = Ret t).
    { unfold TypeForWildcard in *. destruct (Type_ w TypeCNAME) as [|c cs] eqn:E; [done|].
      destruct (elem_record z k rs w TypeCNAME c Hz He) as (_ & Ht & _ & (_ & _ & _ & Hd & _)); [rewrite E; left|].
      destruct (Hd Ht) as [t Htd]. exists t. intros x. cbn. by rewrite Htd. }
    destruct Ht as [t Ht]. eapply returns_impl; [by eapply externalLookup_sound; [done|prov|]|]. intros s [Hs Hr]. rewrite Hr. by split.
  - destruct (TypeForWildcard w (q_Type r) qname) as [|rr rrs] eqn:E.
    + apply returns_ret. split; [|done]. split_and!; cbn [Answer Ns Extra external]; prov. destruct (q_Do r); prov.
    + assert (Hrr : Forall prov (rr :: rrs)) by (rewrite <- E; prov). destruct (q_Do r).
      * eapply returns_bind; [by eapply nsec_before_returns|]. intros deny Hd. apply returns_ret. split; [|done].
        split_and!; cbn [Answer Ns Extra]; prov. destruct deny as [d|]; prov.
      * apply returns_ret. split; [|done]. split_and!; cbn [Answer Ns Extra]; prov.
Qed.

Lemma closest_returns fuel q offset end_ : (String.length q < fuel)%nat -> (end_ = false -> 0 < offset <= Z.of_nat (String.length q)) ->
  returns (fun x => x.2 = bool_decide (x.1 <> None) /\ forall e, x.1 = Some e -> e ∈ k) (closest_loop fuel z q offset end_).
Proof.
  revert q offset end_. induction fuel as [|fuel IH]; intros q offset end_ Hf Ho; [lia|]. cbn [closest_loop].
  destruct end_; [eapply returns_impl; [by eapply Search_returns|]; by intros x (_ & ? & ?)|]. specialize (Ho eq_refl).
  apply search_then. intros [e|] He _; cbn [fst].
  - apply returns_ret. split; [reflexivity|done].
  - assert (Hlen : (String.length (str_from offset q) + Z.to_nat offset = String.length q)%nat).
    { unfold str_from. assert (Hd : forall n s, (n <= String.length s)%nat -> (String.length (drop_str n s) + n = String.length s)%nat).
      { induction n as [|n IHn]; intros [|c s] Hs; cbn in *; try lia. specialize (IHn s ltac:(lia)). lia. }
      apply Hd. lia. }
    unfold go_from. rewrite decide_True by lia. cbn [go_bind].
    destruct (NextLabel (str_from offset q) offset) as [o2 e2] eqn:En. apply IH; [lia|].
    intros ->. apply NextLabel_forward in En; [lia|lia].
Qed.

Lemma ClosestEncloser_returns q : returns (fun x => x.2 = bool_decide (x.1 <> None) /\ forall e, x.1 = Some e -> e ∈ k) (ClosestEncloser z q).
Proof.
  unfold ClosestEncloser. destruct (NextLabel q 0) as [o e] eqn:En. apply closest_returns; [lia|].
  intros ->. apply NextLabel_forward in En; lia.
Qed.

Lemma denial_sound q n : returns (Forall prov) (wildcard_denial z q n).
Proof.
  unfold wildcard_denial. eapply returns_bind; [apply ClosestEncloser_returns|]. intros [[c|] b] [Hb Hc]; cbn in *; subst b.
  - rewrite (Name_returns z k rs c Hz (Hc c eq_refl)). cbn [go_bind].
    eapply returns_bind; [by eapply nsec_before_returns|]. intros [x|] Hx; [|by apply returns_ret].
    rewrite (Name_returns z k rs x Hz (Hx x eq_refl)). cbn [go_bind]. apply returns_ret. case_decide; prov.
  - by apply returns_ret.
Qed.

(** *** Names that do not exist *)

(** The first element at or after the name. *)
Definition next_elem : option elem := head (filter (fun e => less qname (name_of e) <= 0) k).

(** Whether the zone has names at or below the name. *)
Definition exists_below : bool := match next_elem with Some e => IsSubDomain qname (name_of e) | None => false end.

Lemma answer_missing_sound : returns (fun s => sound s /\ Answer s = [] /\ z_Result s = if exists_below then Success else NameError)
  (answer_missing z r qname).
Proof.
  unfold answer_missing, exists_below. rewrite (Next_returns z k rs qname Hz). fold next_elem. cbn [go_bind fst snd].
  eapply returns_bind with (P := fun b => b = match next_elem with Some e => IsSubDomain qname (name_of e) | None => false end).
  { destruct next_elem as [e|] eqn:E; [|by apply returns_ret]. rewrite bool_decide_eq_true_2 by done.
    apply head_Some_elem_of, list_elem_of_filter in E as [_ E]. rewrite (Name_returns z k rs e Hz E). by apply returns_ret. }
  intros sub ->. set (sub := match next_elem with Some _ => _ | None => _ end).
  eapply returns_bind with (P := Forall prov).
  - destruct (q_Do r); [|by apply returns_ret]. eapply returns_bind; [by eapply nsec_before_returns|].
    intros [d|] Hd; [|by apply returns_ret]. rewrite (Name_returns z k rs d Hz (Hd d eq_refl)). cbn [go_bind].
    eapply returns_bind with (P := Forall prov); [destruct sub; [by apply returns_ret|apply denial_sound]|].
    intros more Hm. apply returns_ret. prov.
  - intros nsecs Hn. apply returns_ret. split; [|by destruct sub]. split_and!; cbn [Answer Ns Extra]; prov.
Qed.

Lemma next_elem_below : below_root qname -> plain_name qname -> Forall (fun e => plain_name (name_of e)) k ->
  (exists e, e ∈ k /\ IsSubDomain qname (name_of e) = true) -> exists_below = true.
Proof.
  intros Hb Hq Hp (e & He & Hs). rewrite Forall_forall in Hp. unfold exists_below, next_elem.
  pose proof (subdomain_after _ _ Hb Hq (Hp e He) Hs) as Hle. destruct Hz as [[[_ _ Hsort] _ _ _] _ _].
  assert (Hin : e ∈ filter (fun e => less qname (name_of e) <= 0) k) by (by apply list_elem_of_filter).
  destruct (filter _ k) as [|h l] eqn:E; [by apply not_elem_of_nil in Hin|]. cbn [head].
  assert (Hh : h ∈ filter (fun e => less qname (name_of e) <= 0) k) by (rewrite E; left).
  apply list_elem_of_filter in Hh as [Hh Hhk].
  assert (Hhe : less (name_of h) (name_of e) <= 0).
  { rewrite elem_of_cons in Hin. destruct Hin as [->|Hin]; [rewrite less_refl; lia|].
    assert (Hss : StronglySorted (fun a b => less (name_of a) (name_of b) < 0) (h :: l)).
    { rewrite <- E. clear -Hsort. unfold sorted in Hsort. induction Hsort as [|x k Hs IH Hf]; [constructor|].
      rewrite filter_cons. case_decide; [|done]. constructor; [done|]. by apply Forall_filtered. }
    rewrite StronglySorted_cons, Forall_forall in Hss. destruct Hss as [Hss _]. specialize (Hss e Hin). lia. }
  destruct (decide (less qname (name_of h) = 0)) as [E0|E0].
  - apply subdomain_key; [done|done|by apply Hp|]. exists []. rewrite app_nil_r. symmetry. by apply less_zero.
  - eapply (subdomain_interval qname (name_of h) (name_of e)); auto. lia.
Qed.

(** *** The whole lookup *)

Lemma Lookup_returns : 0 <= origLen z ->
  returns (fun s => sound s /\ (z_Result s = NameError -> Answer s = [] /\ exists_below = false)) (Lookup Upstream z r qname).
Proof.
  intros Hl. unfold Lookup. destruct (a_SOA (z_Apex z)) as [soa_rr|] eqn:Es.
  2: { apply returns_ret. split; [|done]. split_and!; cbn [Answer Ns Extra]; prov. }
  case_decide; [apply returns_ret; split; [split_and!; cbn [Answer Ns Extra]; prov|done]|].
  case_decide.
  { eapply returns_bind; [apply Glue_sound|]. intros g Hg. apply returns_ret. split; [|done]. split_and!; cbn [Answer Ns Extra]; prov. }
  eapply returns_bind.
  { apply lookup_loop_sound; [done|lia| |done|done]. pose proof length_labels_le. lia. }
  intros [s|[[e|] w]]; cbn [tried].
  - intros [Hs Hr]. apply returns_ret. by split.
  - intros [He _]. eapply returns_impl; [by apply answer_found_sound, He|]. intros s [Hs Hr]. by split.
  - intros [_ Hw]. destruct w as [w|].
    + eapply returns_impl; [by apply answer_wild_sound, Hw|]. intros s [Hs Hr]. by split.
    + eapply returns_impl; [apply answer_missing_sound|]. intros s (Hs & Ha & Hr). split; [done|].
      rewrite Hr. destruct exists_below; [done|]. by split.
Qed.
End Provenance.

(** ** What a loaded zone holds *)

(** The record as it is stored: its names in lower case. *)
Definition norm_data (d : rdata) : rdata :=
  match d with
  | NS n => NS (ToLower n)
  | SOA n m a b c d => SOA (ToLower n) (ToLower m) a b c d
  | CNAME t => CNAME (ToLower t)
  | MX t => MX (ToLower t)
  | SRV t => SRV (ToLower t)
  | d => d
  end.

Definition has_norm (rr : RR) : bool :=
  bool_decide (rr_Type rr ∈ [TypeNS; TypeSOA; TypeCNAME; TypeMX; TypeSRV]).

Definition norm (rr : RR) : RR :=
  mkRR (ToLower (rr_Name rr)) (rr_Type rr) (rr_Ttl rr) (if has_norm rr then norm_data (rr_Data rr) else rr_Data rr).

Inductive place := InTree | InNS | InSOA | InSIGSOA | InSIGNS | Refused.

#[export] Instance place_eq_dec : EqDecision place.
Proof. solve_decision. Defined.

Definition place_of (orig : string) (rr : RR) : place :=
  if decide (rr_Type rr = TypeNS) then if decide (rr_Name rr = orig) then InNS else InTree
  else if decide (rr_Type rr = TypeSOA) then InSOA
  else if decide (rr_Type rr = TypeNSEC3 \/ rr_Type rr = TypeNSEC3PARAM) then Refused
  else if decide (rr_Type rr = TypeRRSIG) then
    match rr_Data rr with
    | RRSIG t => if decide (t = TypeSOA) then InSIGSOA else if decide (t = TypeNS /\ rr_Name rr = orig) then InSIGNS else InTree
    | _ => InTree
    end
  else InTree.

Definition apex_add (a : Apex) (p : place) (rr : RR) : Apex :=
  match p with
  | InNS => mkApex (a_SOA a) (app (a_NS a) [rr]) (a_SIGSOA a) (a_SIGNS a)
  | InSOA => mkApex (Some rr) (a_NS a) (a_SIGSOA a) (a_SIGNS a)
  | InSIGSOA => mkApex (a_SOA a) (a_NS a) (app (a_SIGSOA a) [rr]) (a_SIGNS a)
  | InSIGNS => mkApex (a_SOA a) (a_NS a) (a_SIGSOA a) (app (a_SIGNS a) [rr])
  | _ => a
  end.

(** One insertion, by the place of the record. *)
Lemma Zone_Insert_spec z r : typed r ->
  Zone_Insert z r =
    match place_of (origin z) (norm r) with
    | InTree => insert_tree z (norm r)
    | Refused => Ret (z, Some ("NSEC3 zone is not supported, dropping RR: " +:+ ToLower (rr_Name r) +:+ " for zone: " +:+ origin z)%string)
    | p => Ret (set_apex z (apex_add (z_Apex z) p (norm r)), None)
    end.
Proof.
  destruct r as [nm ty ttl d]. intros (Hns & Hsoa & Hsig & Hcn & _ & Hmx & Hsrv). cbn in *.
  unfold Zone_Insert, norm, place_of, has_norm, set_data, with_name. cbn [rr_Name rr_Type rr_Ttl rr_Data].
  destruct (decide (ty = TypeNS)) as [->|H1].
  { destruct (Hns eq_refl) as [n ->]. cbn. by destruct (decide (ToLower nm = origin z)). }
  destruct (decide (ty = TypeSOA)) as [->|H2].
  { destruct (Hsoa eq_refl) as (a & b & c & e & f & g & ->). done. }
  destruct (decide (ty = TypeNSEC3 \/ ty = TypeNSEC3PARAM)) as [H3|H3]; [done|].
  destruct (decide (ty = TypeRRSIG)) as [->|H4].
  { destruct (Hsig eq_refl) as [t ->]. destruct (bool_decide (TypeRRSIG ∈ _)); cbn; (destruct (decide (t = TypeSOA)); [done|]; by destruct (decide _)). }
  destruct (decide (ty = TypeCNAME)) as [->|H5]; [by destruct (Hcn eq_refl) as [t ->]|].
  destruct (decide (ty = TypeMX)) as [->|H6]; [by destruct (Hmx eq_refl) as [t ->]|].
  destruct (decide (ty = TypeSRV)) as [->|H7]; [by destruct (Hsrv eq_refl) as [t ->]|].
  rewrite bool_decide_eq_false_2; [done|]. set_solver.
Qed.

Lemma ascii_lower_idem c : ascii_lower (ascii_lower c) = ascii_lower c.
Proof. destruct c as [[] [] [] [] [] [] [] []]; reflexivity. Qed.

Lemma ToLower_idem s : ToLower (ToLower s) = ToLower s.
Proof. induction s as [|c s IH]; [done|]. cbn [ToLower]. by rewrite ascii_lower_idem, IH. Qed.

Lemma norm_idem rr : norm (norm rr) = norm rr.
Proof.
  unfold norm, has_norm. cbn. rewrite ToLower_idem. f_equal. case_bool_decide; [|done].
  destruct (rr_Data rr); cbn; by rewrite ?ToLower_idem.
Qed.

Lemma no_char_lower s : no_char "\" (ToLower s) = no_char "\" s.
Proof.
  induction s as [|c s IH]; [done|]. cbn [ToLower no_char]. rewrite IH. f_equal. apply bool_decide_ext.
  destruct c as [[] [] [] [] [] [] [] []]; done.
Qed.

Lemma norm_typed rr : typed rr -> typed (norm rr).
Proof.
  intros (H1 & H2 & H3 & H4 & H5 & H6 & H7). unfold typed, norm. cbn. split_and!; intros Ht.
  - destruct (H1 Ht) as [? ->]. destruct (has_norm rr); by eexists.
  - destruct (H2 Ht) as (? & ? & ? & ? & ? & ? & ->). destruct (has_norm rr); by eexists _, _, _, _, _, _.
  - destruct (H3 Ht) as [? ->]. destruct (has_norm rr); by eexists.
  - destruct (H4 Ht) as [? ->]. destruct (has_norm rr); by eexists.
  - destruct (H5 Ht) as [? ->]. destruct (has_norm rr); by eexists.
  - destruct (H6 Ht) as [? ->]. destruct (has_norm rr); by eexists.
  - destruct (H7 Ht) as [? ->]. destruct (has_norm rr); by eexists.
Qed.

(** The records of the tree and the apex after a load. *)
Definition tree_records (orig : string) (rrs : list RR) : list RR := filter (fun rr => place_of orig rr = InTree) (norm <$> rrs).

Definition apex_after (orig : string) (a : Apex) (rrs : list RR) : Apex :=
  fold_left (fun a rr => apex_add a (place_of orig rr) rr) (norm <$> rrs) a.

Lemma tree_records_cons orig rr l :
  tree_records orig (rr :: l) = app (if decide (place_of orig (norm rr) = InTree) then [norm rr] else []) (tree_records orig l).
Proof. unfold tree_records. rewrite fmap_cons, filter_cons. by case_decide. Qed.

(** What a zone keeps of itself while records are inserted. *)
Definition same_zone (z z' : Zone) : Prop :=
  origin z' = origin z /\ origLen z' = origLen z /\ file z' = file z /\ Expired z' = Expired z /\ TransferFrom z' = TransferFrom z.

Lemma insert_tree_ok z k rs rr : zone_ok z k rs -> typed rr ->
  exists z', insert_tree z rr = Ret (z', None) /\ zone_ok z' (ins rr k) (app rs [rr]) /\ z_Apex z' = z_Apex z /\ same_zone z z'.
Proof.
  intros [Hok Hh Ht] Hr. unfold insert_tree. destruct (Insert_ok _ _ rr Hok) as (t' & -> & Hok'). cbn [go_bind].
  eexists. split; [done|]. pose proof Hok as [[_ Hw Hs] _ _ _]. split; [|by repeat split]. split; cbn [z_Tree set_tree].
  - done.
  - by apply holds_insert.
  - apply Forall_app. split; [done|]. by apply Forall_singleton.
Qed.

Lemma insert_all_inv rrs z z' k rs : zone_ok z k rs -> Forall typed rrs -> insert_all z rrs = Ret (z', None) ->
  exists k', zone_ok z' k' (app rs (tree_records (origin z) rrs)) /\ z_Apex z' = apex_after (origin z) (z_Apex z) rrs /\ same_zone z z' /\
    forall P : string -> Prop, Forall (fun e => P (name_of e)) k -> Forall (fun rr => P (ToLower (rr_Name rr))) rrs ->
      Forall (fun e => P (name_of e)) k'.
Proof.
  revert z k rs. induction rrs as [|rr l IH]; intros z k rs Hz Ht Hi.
  { injection Hi as <-. exists k. rewrite app_nil_r. split_and!; try done. }
  inversion Ht as [|? ? Hr Hl]; subst. cbn [insert_all] in Hi. rewrite Zone_Insert_spec in Hi by done.
  rewrite tree_records_cons. unfold apex_after in *. rewrite fmap_cons. cbn [fold_left].
  assert (Hap : forall p, p <> InTree -> p <> Refused -> place_of (origin z) (norm rr) = p ->
            insert_all (set_apex z (apex_add (z_Apex z) p (norm rr))) l = Ret (z', None) ->
            exists k', zone_ok z' k' (app rs (tree_records (origin z) l)) /\
              z_Apex z' = fold_left (fun a rr => apex_add a (place_of (origin z) rr) rr) (norm <$> l) (apex_add (z_Apex z) p (norm rr)) /\
              same_zone z z' /\ forall P : string -> Prop, Forall (fun e => P (name_of e)) k ->
                Forall (fun rr => P (ToLower (rr_Name rr))) (rr :: l) -> Forall (fun e => P (name_of e)) k').
  { intros p _ _ _ Hi'. destruct (IH (set_apex z (apex_add (z_Apex z) p (norm rr))) k rs) as (k' & Hz' & Ha & Hs & HP); [by destruct Hz; split|done|exact Hi'|].
    exists k'. split_and!; try done. intros P Hk Hf. inversion Hf; subst. by apply HP. }
  destruct (place_of (origin z) (norm rr)) eqn:Ep.
  1: { destruct (insert_tree_ok z k rs (norm rr) Hz (norm_typed _ Hr)) as (z1 & Hz1 & Hok1 & Ha1 & Hs1). rewrite Hz1 in Hi. cbn [go_bind fst snd] in Hi.
       destruct (IH _ _ _ Hok1 Hl Hi) as (k' & Hz' & Ha & Hs & HP). destruct Hs1 as (Ho & ? & ? & ? & ?), Hs as (? & ? & ? & ? & ?).
       rewrite Ho, Ha1 in *. exists k'. rewrite decide_True, app_assoc by done. split_and!; try done; [split_and!; congruence|].
       intros P Hk Hf. inversion Hf; subst. apply HP; [|done]. destruct Hz as [[[_ Hw _] _ _ _] _ _]. by apply ins_names. }
  1, 2, 3, 4: rewrite decide_False by done; eapply Hap; by eauto.
  done.
Qed.

Lemma NewZone_ok name f : zone_ok (NewZone name f) [] [].
Proof. split; [apply tree_ok_empty|by intros q ty|constructor]. Qed.

Lemma CountLabel_nonneg s : 0 <= CountLabel s.
Proof. rewrite CountLabel_law. repeat case_decide; lia. Qed.

(** The zone after a load from its beginning. *)
Lemma loaded name f rrs z : Forall typed rrs -> insert_all (NewZone name f) rrs = Ret (z, None) ->
  exists k, zone_ok z k (tree_records (origin z) rrs) /\ z_Apex z = apex_after (origin z) (mkApex None [] [] []) rrs /\
    origin z = Fqdn name /\ 0 <= origLen z /\
    (Forall (fun rr => no_char "\" (rr_Name rr) = true) rrs -> Forall (fun e => plain_name (name_of e)) k).
Proof.
  intros Ht Hi. destruct (insert_all_inv rrs _ z [] [] (NewZone_ok name f) Ht Hi) as (k & Hz & Ha & (Ho & Hl & _) & HP).
  exists k. rewrite Ho. split_and!; [exact Hz|exact Ha|done|rewrite Hl; apply CountLabel_nonneg|].
  intros Hn. apply (HP plain_name); [constructor|]. eapply Forall_impl; [exact Hn|]. intros rr Hrr. split; [apply ToLower_idem|].
  by rewrite no_char_lower.
Qed.

(** *** Delegations *)

Section Delegations.
Context (Upstream : string -> Z -> option (list RR)) (z : Zone) (r : request) (k : list elem) (rs : list RR) (Hz : zone_ok z k rs).
Context (qname : string) (Hdname : Forall (fun rr => rr_Type rr <> TypeDNAME) rs) (Hds : q_Type r <> TypeDS).

Definition refers (s : sections) : Prop :=
  z_Result s = Delegation /\ Answer s = [] /\ exists rr, rr ∈ Ns s /\ rr ∈ rs /\ rr_Type rr = TypeNS.

Lemma no_dname e : e ∈ k -> dname_answer Upstream z r e = Ret None.
Proof.
  intros He. unfold dname_answer. destruct (Type_ e TypeDNAME) as [|d ds] eqn:E; [done|]. exfalso.
  destruct (elem_record z k rs e TypeDNAME d Hz He) as (Hin & Ht & _); [rewrite E; left|]. rewrite Forall_forall in Hdname.
  by apply (Hdname d Hin).
Qed.

Lemma referral_refers e : e ∈ k -> Type_ e TypeNS <> [] -> returns refers (referral z r e).
Proof.
  intros He Hn. unfold referral. eapply returns_bind; [by eapply Glue_sound with (r := r) (qname := EmptyString) (Upstream := Upstream)|]. intros g _. apply returns_ret.
  split; [done|]. split; [done|]. destruct (Type_ e TypeNS) as [|rr l] eqn:E; [done|]. exists rr. cbn [Ns]. split; [left|].
  destruct (elem_record z k rs e TypeNS rr Hz He) as (Hin & Ht & _); [rewrite E; left|done].
Qed.

Lemma nameFromRight_inside i : 0 < i -> 0 <= origLen z -> i + origLen z <= Z.of_nat (length (labels qname)) ->
  nameFromRight z qname i = Ret (str_from (PrevLabel qname (i + origLen z)).1 qname, false).
Proof.
  intros Hi Hl Hn. unfold nameFromRight. rewrite decide_False by lia. rewrite !overshoots_spec by lia.
  rewrite !bool_decide_eq_false_2 by lia. unfold go_from. rewrite decide_True by (apply PrevLabel_bounds; lia). done.
Qed.

Lemma lookup_loop_refers fuel i n found wild rr : 0 <= origLen z -> 0 <= i -> i + origLen z <= n -> origLen z < n <= Z.of_nat (length (labels qname)) ->
  (Z.to_nat (n - origLen z - i) < fuel)%nat -> rr ∈ rs -> rr_Type rr = TypeNS -> less (str_from (PrevLabel qname n).1 qname) (rr_Name rr) = 0 ->
  returns (fun x => exists s, x = inl s /\ refers s) (lookup_loop Upstream z r fuel qname i found wild).
Proof.
  intros Hl. revert i found wild. induction fuel as [|fuel IH]; intros i found wild Hi Hin Hn Hf Hrr Hty Hcut; [lia|]. cbn [lookup_loop].
  destruct (nameFromRight_returns z qname i Hi Hl) as ([parts shot] & En & _). rewrite En. cbn [go_bind].
  assert (Hshot : shot = false).
  { destruct (decide (i = 0)) as [->|]; [by injection En as _ <-|]. rewrite nameFromRight_inside in En by lia. by injection En as _ <-. }
  subst shot.
  assert (Hnext : forall o w, i + origLen z < n -> returns (fun x => exists s, x = inl s /\ refers s) (lookup_loop Upstream z r fuel qname (i + 1) o w)).
  { intros o w Hlt. apply IH; try done; lia. }
  destruct (record_elem z k rs rr Hz Hrr) as (e0 & He0 & Hr0 & Hn0). rewrite Hty in Hr0.
  assert (Hhit : i + origLen z = n -> lookup_name parts k = Some e0).
  { intros E. rewrite nameFromRight_inside in En by lia. rewrite E in En. injection En as <-.
    rewrite (lookup_name_ext _ (name_of e0)); [|by rewrite <- (less_eq_r _ _ _ Hn0)]. apply lookup_self; [by destruct Hz as [[[]]]|done]. }
  eapply search_then; [exact Hz|]. intros o Ho Hlk. cbn [fst]. destruct o as [e|].
  - specialize (Ho e eq_refl). rewrite no_dname by done. cbn [go_bind]. destruct (Type_ e TypeNS) as [|x l] eqn:E.
    + apply Hnext. destruct (decide (i + origLen z = n)) as [Eq|]; [|lia]. exfalso. specialize (Hhit Eq).
      rewrite Hhit in Hlk. injection Hlk as ->. rewrite E in Hr0. by apply not_elem_of_nil in Hr0.
    + rewrite (Name_returns z k rs e Hz Ho). cbn [go_bind]. rewrite bool_decide_eq_false_2 by done. cbn [andb].
      eapply returns_bind; [apply referral_refers; [done|by rewrite E]|]. intros s Hs. apply returns_ret. eauto.
  - eapply returns_bind; [apply asterisk_returns|]. intros a _. eapply search_then; [exact Hz|]. intros o' _ _. cbn [fst]. apply Hnext.
    destruct (decide (i + origLen z = n)) as [Eq|]; [|lia]. exfalso. specialize (Hhit Eq). by rewrite Hhit in Hlk.
Qed.
End Delegations.

(** *** Transfers *)

Lemma of_type_app q ty l1 l2 : of_type q ty (app l1 l2) = app (of_type q ty l1) (of_type q ty l2).
Proof. apply filter_app. Qed.

Lemma of_type_lists nm q ty (l : list (Z * list RR)) : NoDup l.*1 ->
  Forall (fun x => Forall (fun rr => rr_Type rr = x.1 /\ less (rr_Name rr) nm = 0) x.2) l ->
  of_type q ty (concat l.*2) = if decide (less q nm = 0) then default [] (list_to_map (M := gmap Z (list RR)) l !! ty) else [].
Proof.
  induction l as [|[t rrs] l IH]; intros Hnd Hf; [by case_decide|]. inversion Hnd as [|? ? Hni Hnd']; subst. inversion Hf as [|? ? Hr Hf']; subst.
  cbn [fmap list_fmap concat fst snd] in *. rewrite of_type_app, IH by done. cbn [list_to_map foldr curry].
  assert (Hh : of_type q ty rrs = if decide (less q nm = 0 /\ t = ty) then rrs else []).
  { destruct (decide (less q nm = 0 /\ t = ty)) as [[D ->]|D].
    - apply filter_all. intros rr Hrr. rewrite Forall_forall in Hr. destruct (Hr rr Hrr) as [? E]. split; [|done]. by rewrite (less_eq_r _ _ q E).
    - apply filter_none. intros rr Hrr [E1 E2]. rewrite Forall_forall in Hr. destruct (Hr rr Hrr) as [? E]. apply D.
      rewrite <- (less_eq_r _ _ q E). split; congruence. }
  rewrite Hh. destruct (decide (less q nm = 0)) as [D|D]; [|by rewrite decide_False by tauto].
  destruct (decide (t = ty)) as [->|Hne].
  - rewrite decide_True by done. rewrite lookup_insert_eq. rewrite (not_elem_of_list_to_map_1 l) by done. cbn. by rewrite app_nil_r.
  - rewrite decide_False by tauto. by rewrite lookup_insert_ne.
Qed.

Lemma of_type_All e q ty : wf_elem e -> of_type q ty (All_ e) = if decide (less q (name_of e) = 0) then Type_ e ty else [].
Proof.
  intros Hw. unfold All_. rewrite (of_type_lists (name_of e)).
  - by rewrite list_to_map_to_list.
  - apply NoDup_fst_map_to_list.
  - apply Forall_forall. intros [t rrs] Hin%elem_of_map_to_list. by destruct (Hw t rrs Hin).
Qed.

(** The records of the elements, one after the other. *)
Lemma holds_all k : Forall wf_elem k -> sorted k -> holds k (concat (All_ <$> k)).
Proof.
  intros Hw Hs q ty. unfold sorted in Hs. induction Hs as [|e k Hs IH Hf]; [done|]. inversion Hw as [|? ? He Hk]; subst.
  rewrite lookup_name_cons, fmap_cons. cbn [concat]. rewrite of_type_app, of_type_All, <- IH by done.
  destruct (decide (less q (name_of e) = 0)) as [D|D]; [|done]. rewrite lookup_all_after; [cbn; by rewrite app_nil_r|].
  eapply Forall_impl; [exact Hf|]. intros b Hb. by rewrite (less_eq_l _ _ _ D).
Qed.

Lemma walk_all n k ch : tree_inv n k ->
  walk (fun e ch => Ret (app ch [All_ e], None)) n ch = Ret (app ch (All_ <$> k), None).
Proof.
  revert k ch. induction n as [|o l IHl r IHr c]; intros k ch Hi.
  { destruct Hi as [He _ _]. destruct k; [|done]. cbn. by rewrite app_nil_r. }
  destruct (tree_inv_node _ _ _ _ _ Hi) as (e & kl & kr & -> & Hn & -> & Hl & Hr & _).
  cbn [walk]. rewrite (IHl kl) by done. cbn [go_bind fst snd]. rewrite (IHr kr) by done. f_equal. f_equal.
  rewrite fmap_app, fmap_cons, <- !app_assoc. done.
Qed.

Lemma insert_all_app z l1 l2 : insert_all z (app l1 l2) =
  (x <-! insert_all z l1 ;; match x.2 with Some err => Ret x | None => insert_all x.1 l2 end)%go.
Proof.
  revert z. induction l1 as [|rr l1 IH]; intros z; [done|]. cbn [app insert_all]. destruct (Zone_Insert z rr) as [[z1 [err|]]|]; cbn; try done.
Qed.

Lemma receive_concat z env : receive z env = insert_all z (concat env).
Proof.
  revert z. induction env as [|rrs l IH]; intros z; [done|]. cbn [receive concat]. rewrite insert_all_app.
  destruct (insert_all z rrs) as [[z1 [err|]]|]; cbn; try done.
Qed.

Lemma insert_all_ok rrs z k rs : zone_ok z k rs -> Forall typed rrs -> Forall (fun rr => place_of (origin z) (norm rr) <> Refused) rrs ->
  exists z', insert_all z rrs = Ret (z', None).
Proof.
  revert z k rs. induction rrs as [|rr l IH]; intros z k rs Hz Ht Hp; [by eexists|].
  inversion Ht as [|? ? Hr Hl]; subst. inversion Hp as [|? ? Hpr Hpl]; subst. cbn [insert_all]. rewrite Zone_Insert_spec by done.
  destruct (place_of (origin z) (norm rr)); try done.
  1: { destruct (insert_tree_ok z k rs (norm rr) Hz (norm_typed _ Hr)) as (z1 & -> & Hz1 & _ & (Ho & _)). cbn [go_bind fst snd].
       apply (IH z1 _ _ Hz1 Hl). by rewrite Ho. }
  all: cbn [go_bind fst snd]; apply (IH _ k rs); [by destruct Hz; split|done|done].
Qed.

(** The records of an apex are in their places. *)
Definition stored (orig : string) (p : place) (rr : RR) : Prop := place_of orig rr = p /\ norm rr = rr /\ typed rr.

Definition apex_wf (orig : string) (a : Apex) : Prop :=
  Forall (stored orig InSOA) (option_list (a_SOA a)) /\ Forall (stored orig InNS) (a_NS a) /\
  Forall (stored orig InSIGSOA) (a_SIGSOA a) /\ Forall (stored orig InSIGNS) (a_SIGNS a).

Lemma apex_after_wf orig a rrs : apex_wf orig a -> Forall typed rrs -> apex_wf orig (apex_after orig a rrs).
Proof.
  intros Ha Ht. unfold apex_after. revert a Ha. induction Ht as [|rr l Hr _ IH]; intros a Ha; [done|]. rewrite fmap_cons. cbn [fold_left].
  apply IH. destruct Ha as (H1 & H2 & H3 & H4).
  assert (Hs : stored orig (place_of orig (norm rr)) (norm rr)) by (split_and!; [done|apply norm_idem|by apply norm_typed]).
  unfold apex_wf. revert Hs. destruct (place_of orig (norm rr)); intros Hs; cbn; rewrite ?Forall_app, ?Forall_singleton; tauto.
Qed.

Definition add_all (orig : string) (rrs : list RR) (a : Apex) : Apex := fold_left (fun a rr => apex_add a (place_of orig rr) rr) rrs a.

Lemma add_all_app orig l1 l2 a : add_all orig (app l1 l2) a = add_all orig l2 (add_all orig l1 a).
Proof. apply fold_left_app. Qed.

Lemma add_all_place orig p rrs a : Forall (stored orig p) rrs -> p <> InSOA ->
  add_all orig rrs a =
    match p with
    | InNS => mkApex (a_SOA a) (app (a_NS a) rrs) (a_SIGSOA a) (a_SIGNS a)
    | InSIGSOA => mkApex (a_SOA a) (a_NS a) (app (a_SIGSOA a) rrs) (a_SIGNS a)
    | InSIGNS => mkApex (a_SOA a) (a_NS a) (a_SIGSOA a) (app (a_SIGNS a) rrs)
    | _ => a
    end.
Proof.
  intros Hf Hp. revert a. induction Hf as [|rr l (Hpl & _) _ IH]; intros a.
  { destruct a, p; cbn; rewrite ?app_nil_r; done. }
  unfold add_all in *. cbn [fold_left]. rewrite Hpl, IH. destruct p; cbn; rewrite <- ?app_assoc; done.
Qed.

(** The apex that the records of a transfer make. *)
Lemma add_all_transfer orig a s l : apex_wf orig a -> a_SOA a = Some s -> Forall (stored orig InTree) l ->
  add_all orig (app (s :: app (a_SIGSOA a) (app (a_NS a) (a_SIGNS a))) (app l [s])) (mkApex None [] [] []) = a.
Proof.
  intros (H1 & H2 & H3 & H4) Hs Hl. rewrite Hs in H1. cbn in H1. rewrite Forall_singleton in H1.
  change (s :: app (a_SIGSOA a) (app (a_NS a) (a_SIGNS a))) with (app [s] (app (a_SIGSOA a) (app (a_NS a) (a_SIGNS a)))).
  rewrite !add_all_app. unfold add_all at 6. cbn [fold_left]. rewrite (proj1 H1). cbn [apex_add].
  rewrite (add_all_place orig InSIGSOA (a_SIGSOA a)), (add_all_place orig InNS (a_NS a)), (add_all_place orig InSIGNS (a_SIGNS a)),
    (add_all_place orig InTree l) by done.
  cbn. rewrite (proj1 H1). cbn. destruct a; cbn in *. by subst.
Qed.

(** The records of a transfer are stored as they are, and those of the tree are
    the ones that go back into a tree. *)
Lemma transfer_wf orig a s l : apex_wf orig a -> a_SOA a = Some s -> Forall (stored orig InTree) l ->
  let recs := app (s :: app (a_SIGSOA a) (app (a_NS a) (a_SIGNS a))) (app l [s]) in
  Forall (fun rr => norm rr = rr /\ typed rr /\ place_of orig rr <> Refused) recs /\ filter (fun rr => place_of orig rr = InTree) recs = l.
Proof.
  intros (H1 & H2 & H3 & H4) Hs Hl. rewrite Hs in H1. cbn in H1. rewrite Forall_singleton in H1.
  assert (Himp : forall p l, p <> Refused -> Forall (stored orig p) l -> Forall (fun rr => norm rr = rr /\ typed rr /\ place_of orig rr <> Refused) l).
  { intros p l0 Hp Hl0. eapply Forall_impl; [exact Hl0|]. intros rr (Hpl & Hno & Hty). rewrite Hpl. by split_and!. }
  assert (Hone := Himp InSOA [s] ltac:(done) ltac:(by apply Forall_singleton)). cbn zeta. split.
  - rewrite Forall_app, Forall_cons, !Forall_app. rewrite Forall_singleton in Hone. split_and!; [apply Hone..| | | | |by apply Forall_singleton];
      by eapply Himp; [|eassumption].
  - assert (Hno : forall p l, p <> InTree -> Forall (stored orig p) l -> filter (fun rr => place_of orig rr = InTree) l = []).
    { intros p l0 Hp Hl0. apply filter_none. intros rr Hrr. rewrite Forall_forall in Hl0. by rewrite (proj1 (Hl0 rr Hrr)). }
    change (s :: app (a_SIGSOA a) (app (a_NS a) (a_SIGNS a))) with (app [s] (app (a_SIGSOA a) (app (a_NS a) (a_SIGNS a)))).
    rewrite !filter_app, (Hno InSOA [s]), (Hno InSIGSOA), (Hno InNS), (Hno InSIGNS), !app_nil_r by (done || by apply Forall_singleton).
    cbn. rewrite ?app_nil_r. apply filter_all. intros rr Hrr. rewrite Forall_forall in Hl. by destruct (Hl rr Hrr).
Qed.

(** A zone that was loaded, with its SOA record. *)
Lemma transfer_records name f rrs z s : Forall typed rrs -> insert_all (NewZone name f) rrs = Ret (z, None) -> a_SOA (z_Apex z) = Some s ->
  exists env k, Transfer z 0 = Ret (env, None) /\ zone_ok z k (tree_records (origin z) rrs) /\
    concat env = app (s :: app (a_SIGSOA (z_Apex z)) (app (a_NS (z_Apex z)) (a_SIGNS (z_Apex z)))) (app (concat (All_ <$> k)) [s]) /\
    Forall (stored (origin z) InTree) (concat (All_ <$> k)) /\ apex_wf (origin z) (z_Apex z).
Proof.
  intros Ht Hi Hs. destruct (loaded name f rrs z Ht Hi) as (k & Hz & Ha & _).
  unfold Transfer, ApexIfDefined, Walk. rewrite Hs. rewrite decide_False by tauto.
  rewrite (walk_all _ k) by (by destruct Hz as [[]]). cbn [go_bind fst]. eexists _, k. split; [done|]. split; [done|]. split_and!.
  - rewrite concat_app. cbn [concat app]. rewrite ?app_nil_r, <- ?app_assoc. done.
  - apply Forall_forall. intros rr Hrr. apply list_elem_of_In, in_concat in Hrr as (l & Hl%list_elem_of_In & Hrr%list_elem_of_In).
    apply list_elem_of_fmap in Hl as (e & -> & He). unfold All_ in Hrr.
    apply list_elem_of_In, in_concat in Hrr as (l & Hl%list_elem_of_In & Hrr%list_elem_of_In).
    apply list_elem_of_fmap in Hl as ([ty l'] & -> & Hl%elem_of_map_to_list).
    destruct (elem_record z k _ e ty rr Hz He) as (Hin & _ & _ & Hty); [unfold Type_; by rewrite Hl|].
    unfold tree_records in Hin. apply list_elem_of_filter in Hin as [Hp Hin]. apply list_elem_of_fmap in Hin as (rr0 & -> & _).
    split_and!; [done|apply norm_idem|done].
  - rewrite Ha. by apply apex_after_wf; [repeat constructor|].
Qed.

(** ** Theorems *)

(** C17.  A lookup in a zone that was loaded always returns, whatever the query is (no
    index or slice of a name is out of range, and the loops end), and
    every record of its answer is a record of the zone, a record of a wildcard of
    the zone with the name of the query, the CNAME record that a DNAME record of
    the zone stands for, or was resolved by the server outside of the zone. *)
Theorem lookup_answers_from_the_zone name f rrs z Upstream r qname :
  Forall typed rrs -> insert_all (NewZone name f) rrs = Ret (z, None) ->
  exists s, Lookup Upstream z r qname = Ret s /\ sound Upstream z r (tree_records (origin z) rrs) qname s.
Proof.
  intros Ht Hi. destruct (loaded name f rrs z Ht Hi) as (k & Hz & _ & _ & Hl & _).
  destruct (Lookup_returns Upstream z r k _ Hz qname Hl) as (s & Hs & Hp & _). eauto.
Qed.

(** C18.  A name error is honest: let the owner names of a loaded zone have no
    backslash, and let the name of a query be in lower case, without a backslash
    and neither empty nor the root.  When the lookup answers that the name does not
    exist, the tree of the zone, which holds all records but SOA records, the NS
    records of the origin and their signatures, has no record whose owner is the
    name or a name below it, and the answer section is empty. *)
Theorem name_error_denies_absent_names name f rrs z Upstream r qname s :
  Forall typed rrs -> Forall (fun rr => no_char "\" (rr_Name rr) = true) rrs ->
  below_root qname -> plain_name qname -> insert_all (NewZone name f) rrs = Ret (z, None) -> Lookup Upstream z r qname = Ret s -> z_Result s = NameError ->
  Answer s = [] /\ Forall (fun rr => IsSubDomain qname (rr_Name rr) = false) (tree_records (origin z) rrs).
Proof.
  intros Ht Hn Hbr Hq Hi Hlk Hr. destruct (loaded name f rrs z Ht Hi) as (k & Hz & _ & _ & Hl & Hp). specialize (Hp Hn).
  destruct (Lookup_returns Upstream z r k _ Hz qname Hl) as (s' & Hs & _ & He). rewrite Hlk in Hs. injection Hs as <-.
  destruct (He Hr) as [Ha Hb]. split; [done|]. apply Forall_forall. intros rr Hrr. apply not_true_is_false. intros Hsub.
  destruct (record_elem z k _ rr Hz Hrr) as (e & Hek & _ & Heq). rewrite <- not_true_iff_false in Hb. apply Hb.
  apply (next_elem_below z k _ Hz qname Hbr Hq Hp). exists e. split; [done|]. rewrite Forall_forall in Hp.
  unfold tree_records in Hrr. apply list_elem_of_filter in Hrr as [_ Hrr]. apply list_elem_of_fmap in Hrr as (rr0 & -> & Hrr0).
  rewrite Forall_forall in Hn. assert (Hpl : plain_name (rr_Name (norm rr0))).
  { split; [apply ToLower_idem|]. cbn. rewrite no_char_lower. by apply Hn. }
  apply subdomain_key; [done|done|by apply Hp|]. apply subdomain_key in Hsub as [m Hm]; [|done|done|done].
  exists m. rewrite <- Hm. symmetry. by apply less_zero.
Qed.

(** Names at or below a zone cut are never answered with authority: if the zone
    has NS records at one of the names from the origin, exclusive, to the name of
    the query, the lookup answers with a referral to name servers of the zone and
    an empty answer section (queries for DS records, which belong to the parent,
    and zones with DNAME records apart). *)
Theorem delegated_names_are_referred name f rrs z Upstream r qname n rr :
  Forall typed rrs -> insert_all (NewZone name f) rrs = Ret (z, None) -> a_SOA (z_Apex z) <> None ->
  Forall (fun rr => rr_Type rr <> TypeDNAME) rrs -> q_Type r <> TypeDS -> qname <> origin z ->
  rr ∈ tree_records (origin z) rrs -> rr_Type rr = TypeNS ->
  origLen z < n <= Z.of_nat (length (labels qname)) -> less (str_from (PrevLabel qname n).1 qname) (rr_Name rr) = 0 ->
  exists s, Lookup Upstream z r qname = Ret s /\ refers (tree_records (origin z) rrs) s.
Proof.
  intros Ht Hi Hsoa Hd Hds Hq Hrr Hty Hn Hcut. destruct (loaded name f rrs z Ht Hi) as (k & Hz & _ & _ & Hl & _).
  assert (Hd' : Forall (fun rr => rr_Type rr <> TypeDNAME) (tree_records (origin z) rrs)).
  { apply Forall_filtered, Forall_fmap. by eapply Forall_impl; [exact Hd|]. }
  unfold Lookup. destruct (a_SOA (z_Apex z)); [|done]. rewrite !decide_False by tauto.
  assert (Hloop := lookup_loop_refers Upstream z r k _ Hz qname Hd' Hds (S (S (String.length qname))) 0 n None None rr Hl
            ltac:(lia) ltac:(lia) Hn ltac:(pose proof (length_labels_le qname); lia) Hrr Hty Hcut).
  destruct Hloop as (x & -> & s & -> & Hs). cbn [go_bind]. eauto.
Qed.

(** C19.  A transfer is faithful: when a secondary server with the same origin receives
    what a primary with a loaded zone sends, in any division into messages, its
    zone has the same apex and, for every name and type, the same records in the
    same order. *)
Theorem transfer_copies_the_zone name f rrs z z2 s env msgs :
  Forall typed rrs -> insert_all (NewZone name f) rrs = Ret (z, None) -> a_SOA (z_Apex z) = Some s -> origin z2 = origin z ->
  Transfer z 0 = Ret (env, None) -> concat msgs = concat env ->
  exists z', TransferIn z2 [inl (msgs, None)] = Ret (z', None) /\ z_Apex z' = z_Apex z /\ Expired z' = false /\
    forall q, exists o b o' b', Search (z_Tree z) q = Ret (o, b) /\ Search (z_Tree z') q = Ret (o', b') /\
      forall ty, answer o' ty = answer o ty.
Proof.
  intros Ht Hi Hs Ho Htr Hm. destruct (transfer_records name f rrs z s Ht Hi Hs) as (env' & k & He & Hz & Hc & Hst & Ha).
  rewrite Htr in He. injection He as <-. rewrite <- Hm in Hc. destruct (loaded name f rrs z Ht Hi) as (_ & _ & _ & Hoz & _).
  set (z1 := CopyWithoutApex z2). assert (Ho1 : origin z1 = origin z).
  { unfold z1, CopyWithoutApex, NewZone. cbn. rewrite Ho, Hoz. apply Fqdn_idem. }
  destruct (transfer_wf (origin z) (z_Apex z) s _ Ha Hs Hst) as [Hall Hfl]. rewrite <- Hc in Hall, Hfl.
  assert (Hz1 : zone_ok z1 [] []) by (split; [apply tree_ok_empty|by intros q ty|constructor]).
  assert (Hnorm : norm <$> concat msgs = concat msgs).
  { clear -Hall. induction Hall as [|x l (Hx & _) _ IH]; [done|]. rewrite fmap_cons. by rewrite Hx, IH. }
  destruct (insert_all_ok (concat msgs) z1 [] [] Hz1) as [z1' Hi1].
  { eapply Forall_impl; [exact Hall|]. by intros rr (_ & ? & _). }
  { eapply Forall_impl; [exact Hall|]. intros rr (Hx & _ & Hp). by rewrite Hx, Ho1. }
  destruct (insert_all_inv (concat msgs) z1 z1' [] [] Hz1) as (k' & Hz' & Ha' & _); [eapply Forall_impl; [exact Hall|]; by intros rr (_ & ? & _)|done|].
  unfold TransferIn. cbn [transfer_loop]. fold z1. rewrite receive_concat, Hi1. cbn [go_bind fst snd]. eexists. split; [done|].
  cbn [z_Apex z_Tree Expired]. split_and!; [|done|].
  - rewrite Ha', Ho1. unfold apex_after. rewrite Hnorm, Hc. by apply add_all_transfer.
  - intros q. destruct Hz as [Hok Hh _]. destruct Hz' as [Hok' Hh' _]. eexists _, _, _, _.
    split; [by apply Search_ok|]. split; [by apply Search_ok|]. intros ty. rewrite Hh'. cbn [app].
    assert (Htr' : tree_records (origin z1) (concat msgs) = concat (All_ <$> k)) by (unfold tree_records; by rewrite Hnorm, Ho1).
    rewrite Htr'. symmetry. destruct Hok as [[_ Hw Hso] _ _ _]. by apply holds_all.
Qed.
End Sound.

(** ** Serial numbers *)

(** The comparison of serial numbers is RFC 1982 arithmetic: a serial is smaller
    when the distance to the other one, modulo 2^32, is below 2^31.  At the
    distance 2^31, where the RFC leaves the answer open, the smaller number is the
    greater serial, so that of two different serials exactly one is smaller. *)
Theorem serials_follow_rfc1982 a b : is_u 32 a -> is_u 32 b ->
  (serial_less a b = true <-> 0 < u32 (b - a) < 2 ^ 31 \/ u32 (b - a) = 2 ^ 31 /\ b < a) /\
  (a <> b -> serial_less a b = negb (serial_less b a)) /\ serial_less a a = false.
Proof.
  unfold is_u, serial_less, MaxSerialIncrement, wrapU. intros Ha Hb.
  assert (Hm : forall x y, 0 <= x < 2 ^ 32 -> 0 <= y < 2 ^ 32 -> (y - x) `mod` 2 ^ 32 = if decide (x <= y) then y - x else y - x + 2 ^ 32).
  { intros x y Hx Hy. case_decide; [by rewrite Z.mod_small by lia|].
    rewrite <- (Z.mod_add _ 1), Z.mod_small by lia. lia. }
  rewrite !Hm by done. split_and!.
  - repeat case_decide; rewrite ?bool_decide_eq_true; lia.
  - intros Hne. repeat case_decide; try lia; repeat case_bool_decide; try lia; done.
  - repeat case_decide; try lia; case_bool_decide; [lia|done].
Qed.

Lemma serials_follow_rfc1982_witness : serial_less 4294967295 0 = true /\ serial_less 0 4294967295 = false.
Proof.
  destruct (serials_follow_rfc1982 4294967295 0 ltac:(unfold is_u; lia) ltac:(unfold is_u; lia)) as (H1 & H2 & _).
  assert (H : serial_less 4294967295 0 = true) by (apply H1; left; vm_compute; split; reflexivity).
  split; [exact H|]. specialize (H2 ltac:(lia)). rewrite H in H2. destruct (serial_less 0 4294967295); [discriminate|reflexivity].
Defined.

(** The division of a transfer into messages loses nothing. *)
Lemma batches_concat recs rrs : app (concat (batches recs rrs).1) (batches recs rrs).2 = app rrs (concat recs).
Proof.
  revert rrs. induction recs as [|l recs IH]; intros rrs; cbn [batches concat]; [by rewrite app_nil_r|].
  case_decide; cbn [fst snd concat]; [|by rewrite IH, app_assoc].
  by rewrite <- app_assoc, IH, <- app_assoc.
Qed.

(** ** Examples *)

Module Demo.
#[local] Existing Instance plain_lib.
#[local] Existing Instance plain_laws.

Definition soa_rr : RR := mkRR "example.org." TypeSOA 300 (SOA "ns.example.org." "root.example.org." 7 3600 600 86400).
Definition ns_rr : RR := mkRR "example.org." TypeNS 300 (NS "ns.example.org.").
Definition a_rr (name : string) : RR := mkRR name TypeA 300 (Data "192.0.2.1").
Definition cut_rr : RR := mkRR "sub.example.org." TypeNS 300 (NS "ns.sub.example.org.").
Definition zone_rrs : list RR := [soa_rr; ns_rr; a_rr "www.example.org."; cut_rr; a_rr "ns.sub.example.org."].

Definition load (rrs : list RR) : Zone :=
  match insert_all (NewZone "example.org." "db") rrs with Ret (z, _) => z | Panic _ => NewZone "example.org." "db" end.
Definition no_upstream : string -> Z -> option (list RR) := fun _ _ => None.
Definition query (name : string) (ty : Z) : request := mkReq name ty false 0 "192.0.2.9" [].
Definition look (rrs : list RR) (name : string) (ty : Z) : go sections := Lookup no_upstream (load rrs) (query name ty) name.

Lemma typed_A name : typed (a_rr name).
Proof. repeat split; discriminate. Qed.

Lemma zone_typed : Forall typed zone_rrs.
Proof.
  constructor; [|constructor; [|constructor; [apply typed_A|constructor; [|constructor; [apply typed_A|constructor]]]]].
  - split_and!; try discriminate. intros _. eexists _, _, _, _, _, _. reflexivity.
  - split_and!; try discriminate. intros _. eexists. reflexivity.
  - split_and!; try discriminate. intros _. eexists. reflexivity.
Qed.

Lemma zone_loads : insert_all (NewZone "example.org." "db") zone_rrs = Ret (load zone_rrs, None).
Proof. vm_compute. reflexivity. Qed.

Lemma lookup_answers_from_the_zone_witness : exists s, look zone_rrs "www.example.org." TypeA = Ret s /\
  sound no_upstream (load zone_rrs) (query "www.example.org." TypeA) (tree_records (origin (load zone_rrs)) zone_rrs) "www.example.org." s.
Proof. exact (lookup_answers_from_the_zone "example.org." "db" zone_rrs _ _ _ "www.example.org." zone_typed zone_loads). Defined.

Lemma name_error_denies_absent_names_witness :
  Forall (fun rr => IsSubDomain "ftp.example.org." (rr_Name rr) = false) (tree_records (origin (load zone_rrs)) zone_rrs).
Proof.
  destruct (look zone_rrs "ftp.example.org." TypeA) as [s|] eqn:E; [|vm_compute in E; discriminate].
  apply (name_error_denies_absent_names "example.org." "db" zone_rrs _ no_upstream (query "ftp.example.org." TypeA) "ftp.example.org." s).
  - exact zone_typed.
  - repeat constructor.
  - split; discriminate.
  - split; reflexivity.
  - exact zone_loads.
  - exact E.
  - vm_compute in E. injection E as <-. reflexivity.
Defined.

Lemma delegated_names_are_referred_witness : exists s, look zone_rrs "host.sub.example.org." TypeA = Ret s /\
  refers (tree_records (origin (load zone_rrs)) zone_rrs) s.
Proof.
  apply (delegated_names_are_referred "example.org." "db" zone_rrs _ _ _ "host.sub.example.org." 3 cut_rr zone_typed zone_loads).
  - vm_compute. discriminate.
  - repeat constructor; discriminate.
  - discriminate.
  - vm_compute. discriminate.
  - vm_compute. set_solver.
  - reflexivity.
  - vm_compute. split; [reflexivity|discriminate].
  - vm_compute. reflexivity.
Defined.

Definition sent : list (list RR) := match Transfer (load zone_rrs) 0 with Ret (env, _) => env | Panic _ => [] end.

Lemma transfer_copies_the_zone_witness : exists z',
  TransferIn (NewZone "example.org." "copy") [inl ([concat sent], None)] = Ret (z', None) /\ z_Apex z' = z_Apex (load zone_rrs).
Proof.
  destruct (transfer_copies_the_zone "example.org." "db" zone_rrs (load zone_rrs) (NewZone "example.org." "copy") soa_rr sent [concat sent])
    as (z' & Hz & Ha & _).
  - exact zone_typed.
  - exact zone_loads.
  - vm_compute. reflexivity.
  - vm_compute. reflexivity.
  - vm_compute. reflexivity.
  - cbn. apply app_nil_r.
  - exists z'. split; [exact Hz|exact Ha].
Defined.

(** The apex is not in the tree when it has SOA and NS records only: in a zone
    with nothing else a query for its own name is answered with a name error. *)
Example apex_name_error : z_Result <$> (match look [soa_rr; ns_rr] "example.org." TypeA with Ret s => Some s | _ => None end) = Some NameError.
Proof. vm_compute. reflexivity. Qed.

(** A wildcard answers for names below a name that exists only because of the
    names below it. *)
Definition wild_rrs : list RR := [soa_rr; ns_rr; a_rr "*.example.org."; a_rr "x.b.example.org."].
Example wildcard_crosses_empty_name :
  Answer <$> (match look wild_rrs "a.b.example.org." TypeA with Ret s => Some s | _ => None end) = Some [a_rr "a.b.example.org."].
Proof. vm_compute. reflexivity. Qed.

(** The closest encloser of a long name below [bb.example.org.] is that name, but
    the second step looks for a label from an offset of the name before. *)
Definition deep_rrs : list RR := [soa_rr; ns_rr; a_rr "bb.example.org."; a_rr "example.org."].
Example closest_encloser_skips :
  (match ClosestEncloser (load deep_rrs) "aaaaaaaaaaaaaaaa.bb.example.org." with Ret (Some e, _) => name_of e | _ => EmptyString end) = "example.org."%string.
Proof. vm_compute. reflexivity. Qed.

(** The records of a transfer that failed half way stay for the next primary. *)
Example failed_transfer_leaves_records :
  (match TransferIn (NewZone "example.org." "copy") [inl ([[soa_rr; a_rr "www.example.org."]], Some "reset"%string); inl ([[soa_rr; a_rr "www.example.org."]], None)] with
   | Ret (z, None) => match Search (z_Tree z) "www.example.org." with Ret (o, _) => answer o TypeA | _ => [] end
   | _ => []
   end) = [a_rr "www.example.org."; a_rr "www.example.org."].
Proof. vm_compute. reflexivity. Qed.

(** The rules of the parent zone decide about the transfer of the child. *)
Definition parent_rule : xfr := mkXfr ["example.org."%string] ["*"%string].
Definition child_rule : xfr := mkXfr ["child.example.org."%string] ["192.0.2.53:53"%string].
Example parent_rule_wins : longestMatch [child_rule; parent_rule] "child.example.org." = Some parent_rule.
Proof. vm_compute. reflexivity. Qed.
End Demo.

(** The error of the parser at the end of the records is never asked for: the zone
    is loaded with the records before it. *)
Lemma parse_error_is_ignored `{DnsLib} rrs err orig fileName serial :
  Parse (rrs, Some err) orig fileName serial = Parse (rrs, None) orig fileName serial.
Proof. done. Qed.
