(* ===== verification/PkiSql.v ===== *)
(** The statements of the public key infrastructure (src/go/caddy/pfpki/sql and
    the decoding of a query in src/go/caddy/pfpki/types): how the fields, the
    order, the page and the conditions of a request become the parts of a SQL
    statement.

    [class] is what reflection gives of the struct of a table: the json tags of
    its fields in order, the empty text for a field without a tag.  The names of
    the columns are ASCII text. *)
From S2P Require Import Prelude Regex.
From Stdlib Require Import ZArith Lia Ascii.
From stdpp Require Import base gmap strings list.

Open Scope Z_scope.

(** ** Requests *)

(** The nil slice of values is [None]. *)
Inductive Search := mkSearch (Field Op : string) (Value : jv) (Values : option (list Search)).

Record Vars := mkVars { Cursor : Z; Limit : Z; Fields : list string; Sort : list string; Query : Search }.

Record Where := mkWhere { w_Query : string; w_Values : list jv }.

Record Sql := mkSql { sql_Select : string; sql_Order : string; sql_Offset : Z; sql_Limit : Z; sql_Where : Where }.

Definition no_where : Where := mkWhere EmptyString [].
Definition no_sql : Sql := mkSql EmptyString EmptyString 0 0 no_where.

(** DecodeUrlQuery: the lists of a query string are split at commas; [decoded] is
    what the decoder of the query filled in, and its error. *)
Definition split_items (l : list string) : list string := f ← l; (fun item => Trim item " ") <$> Split f ",".

Definition DecodeUrlQuery (decoded : Vars * error) : Vars * error :=
  match decoded with
  | (v, Some err) => (v, Some err)
  | (v, None) => (mkVars (Cursor v) (Limit v) (split_items (Fields v)) (split_items (Sort v)) (Query v), None)
  end.

(** ** Columns *)

Definition tag_name (jsonTag : string) : string :=
  match cut_at "," jsonTag with
  | Some (EmptyString, _) | None => jsonTag
  | Some (name, _) => name
  end.

Definition SqlFields (class : list string) : list string :=
  "id"%string :: (tag_name <$> filter (fun tag => tag <> EmptyString /\ tag <> "-"%string) class).

Definition quote (field : string) : string := ("`" +:+ field +:+ "`")%string.

Definition same_fold (a b : string) : bool := bool_decide (ToLower a = ToLower b).

(** The first column with the name, and the columns without it. *)
Fixpoint pop_field (field : string) (classFields : list string) : option (string * list string) :=
  match classFields with
  | [] => None
  | c :: l =>
      if same_fold c field then Some (c, l)
      else match pop_field field l with Some (x, l') => Some (x, c :: l') | None => None end
  end.

Definition unknown_field (field : string) : error := Some ("Unknown field `" +:+ field +:+ "`")%string.
Definition unknown_operator (op : string) : error := Some ("Unknown operator `" +:+ op +:+ "`")%string.

Section Class.
Context (class : list string).

Fixpoint select_loop (fields classFields selectFields : list string) : string * error :=
  match fields with
  | [] => (StrJoin selectFields ",", None)
  | field :: rest =>
      if bool_decide (ToLower field = "id"%string) then select_loop rest classFields (app selectFields [quote "id"])
      else
        match pop_field field classFields with
        | Some (classField, classFields') => select_loop rest classFields' (app selectFields [quote classField])
        | None => (EmptyString, unknown_field field)
        end
  end.

Definition SqlSelect (vars : Vars) : string * error :=
  match Fields vars with
  | [] => (StrJoin (quote <$> SqlFields class) ",", None)
  | fields => select_loop fields (SqlFields class) []
  end.

Definition matches (r : re) (s : string) : bool := bool_decide (re_find r s <> None).

Definition sort_parts (sort : string) : string * string :=
  match Split sort " " with
  | field :: dir :: _ => (field, if matches (fold_lit "desc") dir then "DESC"%string else "ASC"%string)
  | [field] => (field, "ASC"%string)
  | [] => (EmptyString, "ASC"%string)
  end.

Fixpoint order_loop (sorts classFields orderFields : list string) : string * error :=
  match sorts with
  | [] => (StrJoin orderFields ",", None)
  | sort :: rest =>
      let '(field, order) := sort_parts sort in
      if bool_decide (ToLower field = "id"%string) then order_loop rest classFields (app orderFields [(quote "id" +:+ " " +:+ order)%string])
      else
        match pop_field field classFields with
        | Some (classField, classFields') => order_loop rest classFields' (app orderFields [(quote classField +:+ " " +:+ order)%string])
        | None => (EmptyString, unknown_field field)
        end
  end.

Definition SqlOrder (vars : Vars) : string * error :=
  order_loop (match Sort vars with [] => ["id ASC"%string] | l => l end) (SqlFields class) [].

Definition SqlOffset (vars : Vars) : Z := if decide (Cursor vars < 0) then 0 else Cursor vars.

Definition SqlLimit (vars : Vars) : Z := if decide (Limit vars <= 0) then 100 else Limit vars.

(** ** Conditions *)

(** reflect.DeepEqual(search, Search{}) *)
Definition is_zero_search (s : Search) : bool :=
  match s with mkSearch EmptyString EmptyString JNil None => true | _ => false end.

Definition as_string (v : jv) : go string := match v with JStr s => Ret s | _ => Panic type_panic end.

(** The condition on one column. *)
Definition column_where (field op : string) (v : jv) : go (Where * error) :=
  match pop_field field (SqlFields class) with
  | None => Ret (no_where, unknown_field field)
  | Some (f, _) =>
      let compare sign := Ret (mkWhere (quote f +:+ sign) [v], None) in
      let like pattern := (s <-! as_string v ;; Ret (mkWhere (quote f +:+ " LIKE ?") [JStr (pattern s)], None))%go in
      if match v with JStr EmptyString => true | _ => false end then Ret (no_where, None)
      else
        let o := ToLower op in
        if decide (o = "equals") then compare " = ?"
        else if decide (o = "not_equals") then compare " != ?"
        else if decide (o = "starts_with") then like (fun s => s +:+ "%")
        else if decide (o = "ends_with") then like (fun s => "%" +:+ s)
        else if decide (o = "contains") then like (fun s => "%" +:+ s +:+ "%")
        else if decide (o = "greater_than") then compare " > ?"
        else if decide (o = "greater_than_equals") then compare " >= ?"
        else if decide (o = "less_than") then compare " < ?"
        else if decide (o = "less_than_equals") then compare " <= ?"
        else Ret (no_where, unknown_operator op)
  end%string.

Definition and_or : re := Alt (fold_lit "and") (fold_lit "or").

(** Several conditions: [children] and [values] are those of the conditions that
    are not empty. *)
Definition combine_where (op : string) (children : list string) (values : list jv) : Where * error :=
  match children with
  | [] => (mkWhere "1=1" values, None)
  | _ =>
      if decide (ToLower op = "and") then (mkWhere ("(" +:+ StrJoin children " AND " +:+ ")") values, None)
      else if decide (ToLower op = "or") then (mkWhere ("(" +:+ StrJoin children " OR " +:+ ")") values, None)
      else (no_where, unknown_operator op)
  end%string.

(** The loop over the values of a search, whose conditions [where_of] gives. *)
Fixpoint where_loop (where_of : Search -> go (Where * error)) (op : string) (l : list Search)
    (children : list string) (values : list jv) : go (Where * error) :=
  match l with
  | [] => Ret (combine_where op children values)
  | value :: rest =>
      (x <-! where_of value ;;
       match x.2 with
       | Some err => Ret (no_where, Some err)
       | None =>
           if decide (w_Query x.1 = EmptyString) then where_loop where_of op rest children values
           else where_loop where_of op rest (app children [w_Query x.1]) (app values (w_Values x.1))
       end)%go
  end.

Fixpoint SqlWhere (search : Search) : go (Where * error) :=
  match search with
  | mkSearch field op v values =>
      if is_zero_search search then Ret (no_where, None)
      else
        match values with
        | Some [value] => (x <-! SqlWhere value ;; Ret (x.1, None))%go
        | Some ((_ :: _ :: _) as l) =>
            if bool_decide (op <> EmptyString) && matches and_or op then where_loop SqlWhere op l [] []
            else Ret (no_where, None)
        | _ => column_where field op v
        end
  end.

Definition Vars_Sql (vars : Vars) : go (Sql * error) :=
  match SqlSelect vars with
  | (_, Some err) => Ret (no_sql, Some err)
  | (select, None) =>
      match SqlOrder vars with
      | (_, Some err) => Ret (no_sql, Some err)
      | (order, None) =>
          (x <-! SqlWhere (Query vars) ;;
           match x with
           | (_, Some err) => Ret (no_sql, Some err)
           | (where_, None) => Ret (mkSql select order (SqlOffset vars) (SqlLimit vars) where_, None)
           end)%go
      end
  end.

End Class.

(** ** What a statement can say

    The conditions on the columns of a table, with the values of their
    placeholders. *)
Inductive cond :=
  | CTrue
  | CAtom (column sign : string) (v : jv)
  | CAnd (l : list cond)
  | COr (l : list cond).

Fixpoint render (c : cond) : string :=
  match c with
  | CTrue => "1=1"
  | CAtom column sign _ => quote column +:+ sign
  | CAnd l => "(" +:+ StrJoin (render <$> l) " AND " +:+ ")"
  | COr l => "(" +:+ StrJoin (render <$> l) " OR " +:+ ")"
  end%string.

Fixpoint cond_values (c : cond) : list jv :=
  match c with
  | CTrue => []
  | CAtom _ _ v => [v]
  | CAnd l | COr l => concat (cond_values <$> l)
  end.

Definition signs : list string := [" = ?"; " != ?"; " LIKE ?"; " > ?"; " >= ?"; " < ?"; " <= ?"]%string.

Inductive cond_ok (columns : list string) : cond -> Prop :=
  | ok_true : cond_ok columns CTrue
  | ok_atom column sign v : column ∈ columns -> sign ∈ signs -> cond_ok columns (CAtom column sign v)
  | ok_and l : l <> [] -> Forall (cond_ok columns) l -> cond_ok columns (CAnd l)
  | ok_or l : l <> [] -> Forall (cond_ok columns) l -> cond_ok columns (COr l).

Definition rendered (columns : list string) (w : Where) : Prop :=
  w = no_where \/ exists c, cond_ok columns c /\ w = mkWhere (render c) (cond_values c).

(** Induction on the values of a search. *)
Lemma Search_ind' (P : Search -> Prop)
  (Hleaf : forall f op v, P (mkSearch f op v None))
  (Hnode : forall f op v l, Forall P l -> P (mkSearch f op v (Some l))) : forall s, P s.
Proof.
  fix IH 1. intros [f op v [l|]]; [|apply Hleaf]. apply Hnode. induction l as [|x l IHl]; constructor; [apply IH|exact IHl].
Qed.

Section Statements.
Context (class : list string).

Lemma pop_field_elem field l c l' : pop_field field l = Some (c, l') -> c ∈ l /\ l' ⊆ l.
Proof.
  revert c l'. induction l as [|x l IH]; intros c l'; cbn; [done|]. destruct (same_fold x field).
  - intros [= -> ->]. set_solver.
  - destruct (pop_field field l) as [[y l1]|]; [|done]. intros [= -> <-]. destruct (IH c l1 eq_refl). set_solver.
Qed.

Lemma select_loop_columns fields cfs sel text :
  (forall c, c ∈ cfs -> c ∈ SqlFields class) -> (exists cs, sel = quote <$> cs /\ cs ⊆ SqlFields class) ->
  select_loop fields cfs sel = (text, None) -> exists cs, text = StrJoin (quote <$> cs) "," /\ cs ⊆ SqlFields class.
Proof.
  revert cfs sel. induction fields as [|f fields IH]; intros cfs sel Hc (cs & -> & Hcs); cbn.
  - intros [= <-]. eauto.
  - case_bool_decide.
    + apply IH; [done|]. exists (app cs ["id"%string]). rewrite fmap_app. split; [done|]. unfold SqlFields. set_solver.
    + destruct (pop_field f cfs) as [[c cfs']|] eqn:E; [|done]. apply pop_field_elem in E as [Hin Hsub].
      apply IH; [intros x Hx; by apply Hc, Hsub|]. exists (app cs [c]). rewrite fmap_app. split; [done|].
      intros x [Hx|Hx%list_elem_of_singleton]%elem_of_app; [by apply Hcs|]. subst. by apply Hc.
Qed.

Definition order_of (o : string * bool) : string := (quote o.1 +:+ " " +:+ (if o.2 then "DESC" else "ASC"))%string.

Lemma sort_parts_order sort : exists b : bool, (sort_parts sort).2 = (if b then "DESC" else "ASC")%string.
Proof.
  unfold sort_parts. destruct (Split sort " ") as [|f [|d l]]; try by exists false.
  exists (matches (fold_lit "desc") d). cbn [snd]. by destruct (matches _ d).
Qed.

Lemma order_loop_columns sorts cfs ord text :
  (forall c, c ∈ cfs -> c ∈ SqlFields class) -> (exists os, ord = order_of <$> os /\ os.*1 ⊆ SqlFields class) ->
  order_loop sorts cfs ord = (text, None) -> exists os, text = StrJoin (order_of <$> os) "," /\ os.*1 ⊆ SqlFields class.
Proof.
  revert cfs ord. induction sorts as [|s sorts IH]; intros cfs ord Hc (os & -> & Hos); cbn [order_loop].
  - intros [= <-]. eauto.
  - destruct (sort_parts_order s) as [b Hb]. destruct (sort_parts s) as [f o]. cbn in Hb. subst o. case_bool_decide.
    + apply IH; [done|]. exists (app os [("id"%string, b)]). rewrite !fmap_app. split; [done|]. unfold SqlFields. set_solver.
    + destruct (pop_field f cfs) as [[c cfs']|] eqn:E; [|done]. apply pop_field_elem in E as [Hin Hsub].
      apply IH; [intros x Hx; by apply Hc, Hsub|]. exists (app os [(c, b)]). rewrite !fmap_app. split; [done|].
      intros x [Hx|Hx%list_elem_of_singleton]%elem_of_app; [by apply Hos|]. cbn in Hx. subst. by apply Hc.
Qed.

Lemma column_where_rendered f op v w : column_where class f op v = Ret (w, None) -> rendered (SqlFields class) w.
Proof.
  unfold column_where. destruct (pop_field f (SqlFields class)) as [[c l]|] eqn:E; [|done].
  apply pop_field_elem in E as [Hin _]. destruct (match v with JStr EmptyString => true | _ => false end).
  { intros [= <-]. by left. }
  assert (Hatom : forall sign x, sign ∈ signs -> rendered (SqlFields class) (mkWhere (quote c +:+ sign)%string [x])).
  { intros sign x Hs. right. exists (CAtom c sign x). split; [by constructor|done]. }
  repeat case_decide; destruct v; cbn; try discriminate; intros [=]; subst w; apply Hatom; apply list_elem_of_In; cbn; tauto.
Qed.

(** Conditions that were collected. *)
Definition collected (children : list string) (values : list jv) (cs : list cond) : Prop :=
  children = render <$> cs /\ values = concat (cond_values <$> cs) /\ Forall (cond_ok (SqlFields class)) cs.

Lemma combine_rendered op children values cs w :
  collected children values cs -> combine_where op children values = (w, None) -> rendered (SqlFields class) w.
Proof.
  intros (-> & -> & Hok). destruct cs as [|c cs]; cbn [fmap list_fmap combine_where].
  - intros [= <-]. right. exists CTrue. split; [constructor|done].
  - repeat case_decide; intros [= <-]; right; [exists (CAnd (c :: cs))|exists (COr (c :: cs))]; (split; [by constructor|done]).
Qed.

Lemma where_loop_rendered f op l children values cs w :
  Forall (fun s => forall w, f s = Ret (w, None) -> rendered (SqlFields class) w) l ->
  collected children values cs -> where_loop f op l children values = Ret (w, None) -> rendered (SqlFields class) w.
Proof.
  intros Hl. revert children values cs. induction Hl as [|s l Hs Hl IH]; intros children values cs Hc; cbn [where_loop].
  - intros [=]. by eapply combine_rendered.
  - destruct (f s) as [[ws [err|]]|] eqn:E; cbn; [done| |done]. case_decide as Hq; [by eapply IH|].
    destruct (Hs ws eq_refl) as [-> | (c & Hok & ->)]; [done|]. apply (IH _ _ (app cs [c])).
    destruct Hc as (-> & -> & Hf). unfold collected. rewrite !fmap_app, concat_app. cbn. rewrite app_nil_r.
    split_and!; [done|done|]. apply Forall_app. by rewrite Forall_singleton.
Qed.

Lemma where_loop_error f op l children values w err :
  where_loop f op l children values = Ret (w, err) -> err = None \/ w = no_where.
Proof.
  revert children values. induction l as [|s l IH]; intros children values; cbn [where_loop].
  - intros [= E]. revert E. unfold combine_where. destruct children; [intros [= <- <-]; by left|].
    repeat case_decide; intros [= <- <-]; auto.
  - destruct (f s) as [[ws [e|]]|]; cbn; [intros [= <- <-]; by right| |done]. case_decide; apply IH.
Qed.

Lemma SqlWhere_error s w err : SqlWhere class s = Ret (w, err) -> err = None \/ w = no_where.
Proof.
  destruct s as [f op v vals]. cbn [SqlWhere]. destruct (is_zero_search _); [intros [= <- <-]; by left|].
  assert (Hcol : column_where class f op v = Ret (w, err) -> err = None \/ w = no_where).
  { unfold column_where. destruct (pop_field _ _) as [[c l]|]; [|intros [= <- <-]; by right].
    destruct (match v with JStr EmptyString => true | _ => false end); [intros [= <- <-]; by left|].
    repeat case_decide; destruct v; cbn; try done; intros [= <- <-]; auto. }
  destruct vals as [[|x [|y l]]|]; [done| | |done].
  - destruct (SqlWhere class x); cbn; [|done]. intros [= <- <-]. by left.
  - destruct (_ && _); [apply where_loop_error|intros [= <- <-]; by left].
Qed.

Lemma where_rendered s w : SqlWhere class s = Ret (w, None) -> rendered (SqlFields class) w.
Proof.
  revert w. induction s as [f op v|f op v l IH] using Search_ind'; intros w; cbn [SqlWhere].
  - destruct (is_zero_search _); [intros [= <-]; by left|apply column_where_rendered].
  - destruct (is_zero_search _); [intros [= <-]; by left|]. destruct l as [|x [|y l]]; [apply column_where_rendered| |].
    + destruct (SqlWhere class x) as [[wx e]|] eqn:E; cbn; [|done]. intros [= <-]. rewrite Forall_singleton in IH.
      destruct (SqlWhere_error _ _ _ E) as [-> | ->]; [by apply IH|by left].
    + destruct (_ && _); [|intros [= <-]; by left].
      intros Hl. eapply (where_loop_rendered _ _ _ _ _ []); [exact IH| |exact Hl]. by split_and!.
Qed.

(** C26.  A statement is made of the columns of its table only: the text of a request
    never becomes text of the statement, and the values that it is sent with are
    those of its placeholders, in their order; the page is never negative. *)
Theorem statement_names_own_columns vars s : Vars_Sql class vars = Ret (s, None) ->
  (exists cs, sql_Select s = StrJoin (quote <$> cs) "," /\ cs ⊆ SqlFields class) /\
  (exists os, sql_Order s = StrJoin (order_of <$> os) "," /\ os.*1 ⊆ SqlFields class) /\
  rendered (SqlFields class) (sql_Where s) /\ 0 <= sql_Offset s /\ 0 < sql_Limit s.
Proof.
  unfold Vars_Sql. destruct (SqlSelect class vars) as [sel [e|]] eqn:Es; [done|]. destruct (SqlOrder class vars) as [ord [e|]] eqn:Eo; [done|].
  destruct (SqlWhere class (Query vars)) as [[w [e|]]|] eqn:Ew; cbn; [done| |done]. intros [= <-]. cbn. split_and!.
  - unfold SqlSelect in Es. destruct (Fields vars) as [|f fs]; [injection Es as <-; by exists (SqlFields class)|].
    refine (select_loop_columns _ _ _ _ (fun _ H => H) _ Es). exists []. split; [done|set_solver].
  - unfold SqlOrder in Eo. refine (order_loop_columns _ _ _ _ (fun _ H => H) _ Eo). exists []. split; [done|set_solver].
  - by eapply where_rendered.
  - unfold SqlOffset. case_decide; lia.
  - unfold SqlLimit. case_decide; lia.
Qed.
(** ** What a search means

    The sign and the value of an operator. *)
Definition op_sign (op : string) (v : jv) : option (string * jv) :=
  let o := ToLower op in
  if decide (o = "equals") then Some (" = ?", v)
  else if decide (o = "not_equals") then Some (" != ?", v)
  else if decide (o = "greater_than") then Some (" > ?", v)
  else if decide (o = "greater_than_equals") then Some (" >= ?", v)
  else if decide (o = "less_than") then Some (" < ?", v)
  else if decide (o = "less_than_equals") then Some (" <= ?", v)
  else
    match v with
    | JStr s =>
        if decide (o = "starts_with") then Some (" LIKE ?", JStr (s +:+ "%"))
        else if decide (o = "ends_with") then Some (" LIKE ?", JStr ("%" +:+ s))
        else if decide (o = "contains") then Some (" LIKE ?", JStr ("%" +:+ s +:+ "%"))
        else None
    | _ => None
    end%string.

Definition column (field : string) : option string := fst <$> pop_field field (SqlFields class).

(** A search whose leaves compare a column of the table with a value, and whose
    other searches are connected by and or by or. *)
Fixpoint well_formed (s : Search) : bool :=
  match s with
  | mkSearch field op v None =>
      bool_decide (column field <> None) && bool_decide (op_sign op v <> None) && match v with JStr EmptyString => false | _ => true end
  | mkSearch _ op _ (Some l) =>
      bool_decide (l <> []) && bool_decide (ToLower op ∈ ["and"; "or"]%string) && forallb well_formed l
  end.

Section Meaning.
(** Whether a row of the table satisfies a comparison. *)
Context (row : string -> string -> jv -> bool).

Fixpoint holds (s : Search) : bool :=
  match s with
  | mkSearch field op v None =>
      match column field, op_sign op v with
      | Some c, Some (sign, v') => row c sign v'
      | _, _ => false
      end
  | mkSearch _ op _ (Some l) => if decide (ToLower op = "and"%string) then forallb holds l else existsb holds l
  end.

Fixpoint satisfies (c : cond) : bool :=
  match c with
  | CTrue => true
  | CAtom c sign v => row c sign v
  | CAnd l => forallb satisfies l
  | COr l => existsb satisfies l
  end.
End Meaning.

Definition condition_of (s : Search) (c : cond) : Prop :=
  SqlWhere class s = Ret (mkWhere (render c) (cond_values c), None) /\ forall row, satisfies row c = holds row s.

Lemma render_not_empty c : render c <> EmptyString.
Proof. by destruct c. Qed.

Lemma lower_cases c x : ascii_lower c = x -> c = x \/ c = Ascii.ascii_of_nat (Ascii.nat_of_ascii x - 32).
Proof. intros <-. destruct c as [[] [] [] [] [] [] [] []]; vm_compute; auto. Qed.

Lemma and_or_matches op : ToLower op ∈ ["and"; "or"]%string -> bool_decide (op <> EmptyString) && matches and_or op = true.
Proof.
  intros H. apply list_elem_of_In in H as [H|[H|[]]]; destruct op as [|a [|b [|c [|d op]]]]; try discriminate H.
  - injection H as Ha Hb Hc. symmetry in Ha, Hb, Hc.
    apply lower_cases in Ha as [-> | ->], Hb as [-> | ->], Hc as [-> | ->]; vm_compute; reflexivity.
  - injection H as Ha Hb. symmetry in Ha, Hb. apply lower_cases in Ha as [-> | ->], Hb as [-> | ->]; vm_compute; reflexivity.
Qed.

Lemma column_where_sign f op v c sign v' :
  column f = Some c -> op_sign op v = Some (sign, v') -> match v with JStr EmptyString => false | _ => true end = true ->
  column_where class f op v = Ret (mkWhere (quote c +:+ sign)%string [v'], None).
Proof.
  unfold column, column_where, op_sign. destruct (pop_field f (SqlFields class)) as [[c' l]|]; [|done]. intros [= ->] Ho Hv.
  destruct (match v with JStr EmptyString => true | _ => false end) eqn:E; [by destruct v as [| | |[]| |]|]. revert Ho.
  repeat case_decide; try congruence; try (intros [= <- <-]; reflexivity); destruct v; intros [= <- <-]; reflexivity.
Qed.

Lemma loop_conditions f op l children values cs :
  Forall2 (fun s c => f s = Ret (mkWhere (render c) (cond_values c), None)) l cs ->
  where_loop f op l children values =
    Ret (combine_where op (app children (render <$> cs)) (app values (concat (cond_values <$> cs)))).
Proof.
  intros H. revert children values. induction H as [|s c l cs Hs H IH]; intros children values; cbn [where_loop fmap list_fmap].
  - cbn. by rewrite !app_nil_r.
  - rewrite Hs. cbn [go_bind snd fst w_Query w_Values]. destruct (decide _) as [E|_]; [by apply render_not_empty in E|].
    rewrite IH, <- !app_assoc. done.
Qed.

Lemma forallb_conditions row (l : list Search) cs :
  Forall2 (fun s c => satisfies row c = holds row s) l cs -> forallb (satisfies row) cs = forallb (holds row) l.
Proof. induction 1 as [|s c l cs E _ IH]; cbn; [done|]. by rewrite E, IH. Qed.

Lemma existsb_conditions row (l : list Search) cs :
  Forall2 (fun s c => satisfies row c = holds row s) l cs -> existsb (satisfies row) cs = existsb (holds row) l.
Proof. induction 1 as [|s c l cs E _ IH]; cbn; [done|]. by rewrite E, IH. Qed.

(** The condition of several searches. *)
Definition connect (op : string) (cs : list cond) : cond :=
  match cs with
  | [c] => c
  | _ => if decide (ToLower op = "and"%string) then CAnd cs else COr cs
  end.

Lemma node_condition f op v l cs : l <> [] -> ToLower op ∈ ["and"; "or"]%string -> Forall2 condition_of l cs ->
  condition_of (mkSearch f op v (Some l)) (connect op cs).
Proof.
  intros Hl Hop Hc.
  assert (Hw : Forall2 (fun s c => SqlWhere class s = Ret (mkWhere (render c) (cond_values c), None)) l cs)
    by (eapply Forall2_impl; [exact Hc|by intros s c [? _]]).
  assert (Hs : forall row, Forall2 (fun s c => satisfies row c = holds row s) l cs)
    by (intros row; eapply Forall2_impl; [exact Hc|by intros s c [_ ?]]).
  split.
  - cbn [SqlWhere]. replace (is_zero_search _) with false by (by destruct f, op, v).
    destruct Hw as [|s c l1 cs1 Hs0 [|s' c' l cs Hs1 Hw]]; [done| |].
    + cbn. by rewrite Hs0.
    + rewrite and_or_matches by done. rewrite (loop_conditions _ _ _ _ _ (c :: c' :: cs)) by (by constructor; [|constructor]).
      unfold combine_where, connect. cbn [app fmap list_fmap]. repeat case_decide; try done. by set_solver.
  - intros row. specialize (Hs row). cbn [holds]. destruct Hs as [|s c l1 cs1 E [|s' c' l cs E' Hs]]; [done| |].
    + cbn. rewrite E. case_decide; by rewrite ?andb_true_r, ?orb_false_r.
    + unfold connect. case_decide; [apply (forallb_conditions row)|apply (existsb_conditions row)]; by constructor; [|constructor].
Qed.

(** A search of well-formed comparisons, connected by and and or to any depth, is
    compiled without an error or a panic to the condition that it means, with its
    values in the order of the placeholders. *)
Theorem search_means_its_condition s : well_formed s = true ->
  exists c, SqlWhere class s = Ret (mkWhere (render c) (cond_values c), None) /\ forall row, satisfies row c = holds row s.
Proof.
  induction s as [f op v|f op v l IH] using Search_ind'; cbn [well_formed]; rewrite !andb_true_iff, ?bool_decide_eq_true.
  - intros [[Hf Ho] Hv]. destruct (column f) as [c|] eqn:Ef; [|done]. destruct (op_sign op v) as [[sign v']|] eqn:Eo; [|done].
    exists (CAtom c sign v'). split; [|intros row; cbn [holds satisfies]; by rewrite Ef, Eo]. cbn [SqlWhere].
    destruct (is_zero_search _) eqn:E; [by destruct f, op, v|]. by apply column_where_sign.
  - intros [[Hl Hop] Hall]. assert (Hcs : exists cs, Forall2 condition_of l cs).
    { clear Hl. induction IH as [|s l Hs _ IHl]; [by exists []|]. cbn in Hall. apply andb_true_iff in Hall as [H1 H2].
      destruct (Hs H1) as [c Hc], (IHl H2) as [cs Hcs]. exists (c :: cs). by constructor. }
    destruct Hcs as [cs Hcs]. exists (connect op cs). by apply (node_condition f op v l cs).
Qed.
End Statements.

(** ** Examples *)

Module PkiSqlDemo.
Definition tags : list string := [EmptyString; "cn,omitempty"; "mail,omitempty"; "-"; "serial_number,omitempty"]%string.
Definition leaf (field op value : string) : Search := mkSearch field op (JStr value) None.
Definition both : Search := mkSearch EmptyString "AND" JNil (Some [leaf "CN" "equals" "a' OR 1=1"; leaf "mail" "contains" "x"]).

Lemma search_means_its_condition_witness : exists c,
  SqlWhere tags both = Ret (mkWhere (render c) (cond_values c), None) /\ forall row, satisfies row c = holds tags row both.
Proof. apply (search_means_its_condition tags both). vm_compute. reflexivity. Defined.

Definition vars : Vars := mkVars 0 0 ["cn"; "ID"]%string ["mail desc"]%string both.
Definition stmt : Sql := mkSql "`cn`,`id`" "`mail` DESC" 0 100 (mkWhere "(`cn` = ? AND `mail` LIKE ?)" [JStr "a' OR 1=1"; JStr "%x%"]).

Lemma statement_names_own_columns_witness : Vars_Sql tags vars = Ret (stmt, None) /\ rendered (SqlFields tags) (sql_Where stmt).
Proof.
  assert (H : Vars_Sql tags vars = Ret (stmt, None)) by (vm_compute; reflexivity). split; [exact H|].
  apply (statement_names_own_columns tags vars stmt H).
Defined.

(** The error of a search with one value is dropped, and the statement has no
    condition: every row matches. *)
Example one_value_error_dropped :
  SqlWhere tags (leaf "password" "equals" "x") = Ret (no_where, unknown_field "password") /\
  SqlWhere tags (mkSearch EmptyString "and" JNil (Some [leaf "password" "equals" "x"])) = Ret (no_where, None).
Proof. split; vm_compute; reflexivity. Qed.

(** Another connective than and or or is no error either. *)
Example other_connective_ignored :
  SqlWhere tags (mkSearch EmptyString "not" JNil (Some [leaf "cn" "equals" "x"; leaf "cn" "equals" "y"])) = Ret (no_where, None).
Proof. vm_compute. reflexivity. Qed.

(** A pattern that is not a text panics. *)
Example number_pattern_panics : SqlWhere tags (mkSearch "cn" "contains" (JNum 5) None) = Panic type_panic.
Proof. vm_compute. reflexivity. Qed.
End PkiSqlDemo.
