(* ===== verification/Ocsp.v ===== *)
(** The messages of the status protocol (src/go/caddy/pfpki/ocsp): requests and
    responses, and the choice of the signature.

    The encoding (encoding/asn1) is the class [Asn1], keys, hashes and signatures
    (crypto/x509) the class [Keys]; times are seconds. *)
From S2P Require Import Prelude.
From Stdlib Require Import ZArith Lia.
From stdpp Require Import base gmap strings list.

Open Scope Z_scope.

Abbreviation res A := (A + string)%type.
Abbreviation oid := (list Z).

(** ** Algorithms *)

Inductive PublicKeyAlgorithm := RSA | DSA | ECDSA.

Definition MD5 : Z := 2.
Definition SHA1 : Z := 3.
Definition SHA256 : Z := 5.
Definition SHA384 : Z := 6.
Definition SHA512 : Z := 7.

Definition hashOIDs : list (Z * oid) :=
  [(SHA1, [1; 3; 14; 3; 2; 26]); (SHA256, [2; 16; 840; 1; 101; 3; 4; 2; 1]); (SHA384, [2; 16; 840; 1; 101; 3; 4; 2; 2]);
   (SHA512, [2; 16; 840; 1; 101; 3; 4; 2; 3])].

(** The algorithm, its identifier, the kind of its key and its hash. *)
Definition signatureAlgorithmDetails : list (Z * oid * PublicKeyAlgorithm * Z) :=
  [(1, [1; 2; 840; 113549; 1; 1; 2], RSA, 0); (2, [1; 2; 840; 113549; 1; 1; 4], RSA, MD5);
   (3, [1; 2; 840; 113549; 1; 1; 5], RSA, SHA1); (4, [1; 2; 840; 113549; 1; 1; 11], RSA, SHA256);
   (5, [1; 2; 840; 113549; 1; 1; 12], RSA, SHA384); (6, [1; 2; 840; 113549; 1; 1; 13], RSA, SHA512);
   (7, [1; 2; 840; 10040; 4; 3], DSA, SHA1); (8, [2; 16; 840; 1; 101; 3; 4; 3; 2], DSA, SHA256);
   (9, [1; 2; 840; 10045; 4; 1], ECDSA, SHA1); (10, [1; 2; 840; 10045; 4; 3; 2], ECDSA, SHA256);
   (11, [1; 2; 840; 10045; 4; 3; 3], ECDSA, SHA384); (12, [1; 2; 840; 10045; 4; 3; 4], ECDSA, SHA512)].

(** A public key: the curve of an ECDSA key by its size. *)
Inductive public := RSAKey | ECDSAKey (curve : Z) | OtherKey.

Definition default_signature (pub : public) : res (PublicKeyAlgorithm * Z * oid) :=
  match pub with
  | RSAKey => inl (RSA, SHA256, [1; 2; 840; 113549; 1; 1; 11])
  | ECDSAKey c =>
      if decide (c = 224 \/ c = 256) then inl (ECDSA, SHA256, [1; 2; 840; 10045; 4; 3; 2])
      else if decide (c = 384) then inl (ECDSA, SHA384, [1; 2; 840; 10045; 4; 3; 3])
      else if decide (c = 521) then inl (ECDSA, SHA512, [1; 2; 840; 10045; 4; 3; 4])
      else inr "x509: unknown elliptic curve"%string
  | OtherKey => inr "x509: only RSA and ECDSA keys supported"%string
  end.

(** The hash and the identifier of the signature. *)
Definition signingParamsForPublicKey (pub : public) (requestedSigAlgo : Z) : res (Z * oid) :=
  match default_signature pub with
  | inr e => inr e
  | inl (pubType, hash, alg) =>
      if decide (requestedSigAlgo = 0) then inl (hash, alg)
      else
        match List.find (fun d => bool_decide (d.1.1.1 = requestedSigAlgo)) signatureAlgorithmDetails with
        | None => inr "x509: unknown SignatureAlgorithm"%string
        | Some (_, o, pubKeyAlgo, h) =>
            match pubKeyAlgo, pubType with
            | RSA, RSA | ECDSA, ECDSA | DSA, DSA =>
                if decide (h = 0) then inr "x509: cannot sign with hash function requested"%string else inl (h, o)
            | _, _ => inr "x509: requested SignatureAlgorithm does not match private key type"%string
            end
        end
  end.

Definition getSignatureAlgorithmFromOID (o : oid) : Z :=
  match List.find (fun d => bool_decide (o = d.1.1.2)) signatureAlgorithmDetails with Some d => d.1.1.1 | None => 0 end.

Definition getHashAlgorithmFromOID (target : oid) : Z :=
  match List.find (fun h => bool_decide (h.2 = target)) hashOIDs with Some h => h.1 | None => 0 end.

Definition getOIDFromHashAlgorithm (target : Z) : option oid :=
  snd <$> List.find (fun h => bool_decide (h.1 = target)) hashOIDs.

(** ** Messages *)

Record certID := mkCertID { HashAlgorithm : oid; NameHash : string; id_IssuerKeyHash : string; id_SerialNumber : Z }.

Record extension := mkExt { ext_Id : oid; Critical : bool; ext_Value : string }.

Record tbsRequest := mkTbsRequest { RequestList : list certID; ExtensionList : list extension }.

Record Request := mkRequest { q_HashAlgorithm : Z; q_IssuerNameHash : string; q_IssuerKeyHash : string; q_SerialNumber : Z }.

(** The response about one certificate: [revokedInfo] is the time and the reason. *)
Record singleResponse := mkSingle {
  CertID : certID; s_Good : bool; s_Revoked : Z * Z; s_Unknown : bool; s_ThisUpdate : Z; s_NextUpdate : Z; SingleExtensions : list extension
}.

Record responseData (D : Type) := mkData {
  RawResponderName : D; d_ProducedAt : Z; Responses : list singleResponse; ResponseExtensions : list extension
}.

Arguments mkData {D}.
Arguments RawResponderName {D}.
Arguments d_ProducedAt {D}.
Arguments Responses {D}.
Arguments ResponseExtensions {D}.

(** [b_Raw] is the encoding of the data, which the decoder keeps and the encoder
    computes; [Der] are encoded values. *)
Record basicResponse (Der : Type) := mkBasic {
  b_Raw : option Der; TBSResponseData : responseData Der; b_SignatureAlgorithm : oid; b_Signature : string; Certificates : list Der
}.
Arguments mkBasic {Der}.
Arguments b_Raw {Der}.
Arguments TBSResponseData {Der}.
Arguments b_SignatureAlgorithm {Der}.
Arguments b_Signature {Der}.
Arguments Certificates {Der}.

Record responseASN1 (Der : Type) := mkResp { r_Status : Z; ResponseType : oid; r_Response : Der }.
Arguments mkResp {Der}.
Arguments r_Status {Der}.
Arguments ResponseType {Der}.
Arguments r_Response {Der}.

Definition Success : Z := 0.
Definition idPKIXOCSPBasic : oid := [1; 3; 6; 1; 5; 5; 7; 48; 1; 1].

(** ResponseStatus.String *)
Definition ResponseStatus_String (r : Z) : string :=
  if decide (r = 0) then "success" else if decide (r = 1) then "malformed" else if decide (r = 2) then "internal error"
  else if decide (r = 3) then "try later" else if decide (r = 5) then "signature required" else if decide (r = 6) then "unauthorized"
  else ("unknown OCSP status: " +:+ Itoa r)%string.

Definition Good : Z := 0.
Definition Revoked : Z := 1.
Definition Unknown : Z := 2.
Definition Unspecified : Z := 0.

(** A decoder also gives the bytes that follow the value. *)
Class Asn1 : Type := {
  Der : Type;
  marshal_request : tbsRequest -> res Der;
  unmarshal_request : Der -> res (tbsRequest * string);
  marshal_data : responseData Der -> res Der;
  marshal_basic : basicResponse Der -> res Der;
  unmarshal_basic : Der -> res (basicResponse Der * string);
  marshal_response : responseASN1 Der -> res Der;
  unmarshal_response : Der -> res (responseASN1 Der * string)
}.

Class Keys `{Asn1} : Type := {
  Certificate : Type;
  Signer : Type;
  Public : Signer -> public;
  spki_key : Certificate -> res Der;
  RawSubject : Certificate -> Der;
  cert_Raw : Certificate -> Der;
  cert_Serial : Certificate -> Z;
  ParseCertificate : Der -> res Certificate;
  Available : Z -> bool;
  Hash : Z -> Der -> string;
  Sign : Signer -> string -> Z -> res string;
  CheckSignature : Certificate -> Z -> option Der -> string -> error;
  embedded_check : Certificate -> Certificate -> error;
  minute : Z
}.

Section Messages.
Context `{Keys}.

Definition Marshal (req : Request) : res Der :=
  match getOIDFromHashAlgorithm (q_HashAlgorithm req) with
  | None => inr "Unknown hash algorithm"%string
  | Some hashAlg => marshal_request (mkTbsRequest [mkCertID hashAlg (q_IssuerNameHash req) (q_IssuerKeyHash req) (q_SerialNumber req)] [])
  end.

Definition ParseRequest (bytes : Der) : res (Request * list extension) :=
  match unmarshal_request bytes with
  | inr e => inr e
  | inl (req, rest) =>
      if decide (rest <> EmptyString) then inr "trailing data in OCSP request"%string
      else
        match RequestList req with
        | [] => inr "OCSP request contains no request body"%string
        | inner :: _ =>
            let hashFunc := getHashAlgorithmFromOID (HashAlgorithm inner) in
            if decide (hashFunc = 0) then inr "OCSP request uses unknown hash function"%string
            else inl (mkRequest hashFunc (NameHash inner) (id_IssuerKeyHash inner) (id_SerialNumber inner), ExtensionList req)
        end
  end.

(** [opts] is the hash of the options, 0 for the default. *)
Definition CreateRequest (cert issuer : Certificate) (opts : Z) : res Der :=
  let hashFunc := if decide (opts = 0) then SHA1 else opts in
  match getOIDFromHashAlgorithm hashFunc with
  | None => inr "x509: cannot verify signature: algorithm unimplemented"%string
  | Some _ =>
      if Available hashFunc then
        match spki_key issuer with
        | inr e => inr e
        | inl key => Marshal (mkRequest hashFunc (Hash hashFunc (RawSubject issuer)) (Hash hashFunc key) (cert_Serial cert))
        end
      else inr "x509: cannot verify signature: algorithm unimplemented"%string
  end.

(** What CreateResponse takes of a template. *)
Record Template := mkTemplate {
  t_Status : Z; t_SerialNumber : Z; t_ThisUpdate : Z; t_NextUpdate : Z; t_RevokedAt : Z; t_RevocationReason : Z;
  t_Certificate : option Certificate; t_SignatureAlgorithm : Z; t_IssuerHash : Z; t_Extensions : list extension;
  t_ExtraExtensions : list extension
}.

(** What ParseResponse gives. *)
Record Response := mkResponse {
  p_Status : Z; p_SerialNumber : Z; p_ProducedAt : Z; p_ThisUpdate : Z; p_NextUpdate : Z; p_RevokedAt : Z; p_RevocationReason : Z;
  p_Certificate : option Certificate; p_TBSResponseData : option Der; p_Signature : string; p_SignatureAlgorithm : Z; p_IssuerHash : Z;
  p_Extensions : list extension
}.

Definition inner_response (id : certID) (t : Template) : singleResponse :=
  mkSingle id (bool_decide (t_Status t = Good))
    (if decide (t_Status t = Revoked) then (t_RevokedAt t, t_RevocationReason t) else (0, 0))
    (bool_decide (t_Status t = Unknown)) (t_ThisUpdate t) (t_NextUpdate t) (t_ExtraExtensions t).

Definition CreateResponse (issuer responderCert : Certificate) (t : Template) (priv : Signer) : res Der :=
  match spki_key issuer with
  | inr e => inr e
  | inl key =>
      let hash := if decide (t_IssuerHash t = 0) then SHA1 else t_IssuerHash t in
      match getOIDFromHashAlgorithm hash with
      | None => inr "unsupported issuer hash algorithm"%string
      | Some hashOID =>
          if Available hash then
            let id := mkCertID hashOID (Hash hash (RawSubject issuer)) (Hash hash key) (t_SerialNumber t) in
            let data := mkData (RawSubject responderCert) minute [inner_response id t] (t_Extensions t) in
            match marshal_data data with
            | inr e => inr e
            | inl der =>
                match signingParamsForPublicKey (Public priv) (t_SignatureAlgorithm t) with
                | inr e => inr e
                | inl (hashFunc, alg) =>
                    match Sign priv (Hash hashFunc der) hashFunc with
                    | inr e => inr e
                    | inl signature =>
                        let certs := match t_Certificate t with Some c => [cert_Raw c] | None => [] end in
                        match marshal_basic (mkBasic None data alg signature certs) with
                        | inr e => inr e
                        | inl basic => marshal_response (mkResp Success idPKIXOCSPBasic basic)
                        end
                    end
                end
            end
          else inr "issuer hash algorithm not linked into binary"%string
      end
  end.

(** The signature by the certificate of the response, and that certificate by its
    issuer; by the issuer when there is none. *)
Definition check_certificates (certs : list Der) (alg : Z) (raw : option Der) (signature : string) (issuer : option Certificate) :
    res (option Certificate) :=
  match certs with
  | c :: _ =>
      match ParseCertificate c with
      | inr e => inr e
      | inl cert =>
          match CheckSignature cert alg raw signature with
          | Some _ => inr "bad OCSP signature"%string
          | None =>
              match issuer with
              | Some i => match embedded_check i cert with Some _ => inr "bad signature on embedded certificate"%string | None => inl (Some cert) end
              | None => inl (Some cert)
              end
          end
      end
  | [] =>
      match issuer with
      | Some i => match CheckSignature i alg raw signature with Some _ => inr "bad OCSP signature"%string | None => inl None end
      | None => inl None
      end
  end.

(** The first response, or that about the certificate; a response of zeros when
    there is none. *)
Definition zero_response : singleResponse := mkSingle (mkCertID [] EmptyString EmptyString 0) false (0, 0) false 0 0 [].

Definition pick_response (cert : option Certificate) (l : list singleResponse) : singleResponse :=
  default zero_response
    (List.find (fun r => match cert with None => true | Some c => bool_decide (cert_Serial c = id_SerialNumber (CertID r)) end) l).

Definition response_of (b : basicResponse Der) (certificate : option Certificate) (r : singleResponse) : res Response :=
  if existsb Critical (SingleExtensions r) then inr "unsupported critical extension"%string
  else
    let hash := getHashAlgorithmFromOID (HashAlgorithm (CertID r)) in
    if decide (hash = 0) then inr "unsupported issuer hash algorithm"%string
    else
      let '(status, (revokedAt, reason)) :=
        if s_Good r then (Good, (0, 0)) else if s_Unknown r then (Unknown, (0, 0)) else (Revoked, s_Revoked r) in
      inl (mkResponse status (id_SerialNumber (CertID r)) (d_ProducedAt (TBSResponseData b)) (s_ThisUpdate r) (s_NextUpdate r) revokedAt
             reason certificate (b_Raw b) (b_Signature b) (getSignatureAlgorithmFromOID (b_SignatureAlgorithm b)) hash (SingleExtensions r)).

Definition ParseResponseForCert (bytes : Der) (cert issuer : option Certificate) : res Response :=
  match unmarshal_response bytes with
  | inr e => inr e
  | inl (resp, rest) =>
      if decide (rest <> EmptyString) then inr "trailing data in OCSP response"%string
      else if decide (r_Status resp <> Success) then inr ("ocsp: error from server: " +:+ ResponseStatus_String (r_Status resp))%string
      else if decide (ResponseType resp <> idPKIXOCSPBasic) then inr "bad OCSP response type"%string
      else
        match unmarshal_basic (r_Response resp) with
        | inr e => inr e
        | inl (b, _) =>
            if decide (1 < length (Certificates b))%nat then inr "OCSP response contains bad number of certificates"%string
            else
              let n := length (Responses (TBSResponseData b)) in
              if decide (n = 0%nat \/ cert = None /\ (1 < n)%nat) then inr "OCSP response contains bad number of responses"%string
              else
                match check_certificates (Certificates b) (getSignatureAlgorithmFromOID (b_SignatureAlgorithm b)) (b_Raw b) (b_Signature b) issuer with
                | inr e => inr e
                | inl certificate => response_of b certificate (pick_response cert (Responses (TBSResponseData b)))
                end
        end
  end.

Definition ParseResponse (bytes : Der) (issuer : option Certificate) : res Response := ParseResponseForCert bytes None issuer.

End Messages.

(** ** Round trips *)

Definition key_kind (pub : public) : option PublicKeyAlgorithm :=
  match pub with RSAKey => Some RSA | ECDSAKey _ => Some ECDSA | OtherKey => None end.

(** What is encoded is decoded, with the bytes of the data of a response; a
    certificate is parsed from its bytes, and the signature of a key over one of the
    SHA hashes holds for its certificate (MD2 and MD5 are refused as insecure). *)
Class MessageLaws `{Keys} : Type := {
  signs : Signer -> Certificate -> Prop;
  request_law r s : marshal_request r = inl s -> unmarshal_request s = inl (r, EmptyString);
  basic_law b s raw : marshal_basic b = inl s -> marshal_data (TBSResponseData b) = inl raw ->
    unmarshal_basic s = inl (mkBasic (Some raw) (TBSResponseData b) (b_SignatureAlgorithm b) (b_Signature b) (Certificates b), EmptyString);
  response_law r s : marshal_response r = inl s -> unmarshal_response s = inl (r, EmptyString);
  parse_law c : ParseCertificate (cert_Raw c) = inl c;
  sign_law priv c a o k h data sig : signs priv c -> (a, o, k, h) ∈ signatureAlgorithmDetails -> key_kind (Public priv) = Some k ->
    h ∈ [SHA1; SHA256; SHA384; SHA512] -> Sign priv (Hash h data) h = inl sig -> CheckSignature c a (Some data) sig = None
}.

Definition MD5WithRSA : Z := 2.

Lemma signing_algorithm pub req h o : signingParamsForPublicKey pub req = inl (h, o) ->
  exists a k, (a, o, k, h) ∈ signatureAlgorithmDetails /\ key_kind pub = Some k /\ getSignatureAlgorithmFromOID o = a /\
    (req <> MD5WithRSA -> h ∈ [SHA1; SHA256; SHA384; SHA512]).
Proof.
  unfold signingParamsForPublicKey. destruct (default_signature pub) as [[[k h0] o0]|e] eqn:E; [|done].
  assert (Hk : key_kind pub = Some k /\ h0 ∈ [SHA1; SHA256; SHA384; SHA512] /\
    exists a, (a, o0, k, h0) ∈ signatureAlgorithmDetails /\ getSignatureAlgorithmFromOID o0 = a).
  { unfold default_signature in E. destruct pub as [|c|]; [injection E as <- <- <-| |done].
    - split; [done|]. split; [apply list_elem_of_In; cbn; tauto|]. eexists. split; [apply list_elem_of_In; cbn; tauto|done].
    - repeat case_decide; simplify_eq; (split; [done|]); (split; [apply list_elem_of_In; cbn; tauto|]);
        eexists; (split; [apply list_elem_of_In; cbn; tauto|done]). }
  destruct Hk as (Hk & Hh & a0 & Ha & Hg). case_decide; [intros [= <- <-]; exists a0, k; by split_and!|].
  destruct (List.find _ _) as [[[[a o1] k1] h1]|] eqn:Ef; [|done]. apply List.find_some in Ef as [Hin Hreq%bool_decide_eq_true]. cbn in Hreq.
  intros Hr. assert (k1 = k /\ h1 = h /\ o1 = o /\ h <> 0) as (-> & -> & -> & Hnz) by (destruct k1, k; try done; case_decide; by simplify_eq).
  exists a, k. split_and!; [by apply list_elem_of_In|done| |]; subst req; clear -Hin Hnz.
  - repeat (destruct Hin as [Hin|Hin]; [injection Hin as <- <- _ _; reflexivity|]). destruct Hin.
  - intros Hne. unfold MD5WithRSA in Hne. apply list_elem_of_In.
    repeat (destruct Hin as [Hin|Hin]; [injection Hin as <- <- _ <-; first [done|cbn; tauto]|]). destruct Hin.
Qed.

Lemma hash_roundtrip h o : getOIDFromHashAlgorithm h = Some o -> getHashAlgorithmFromOID o = h /\ h <> 0.
Proof.
  unfold getOIDFromHashAlgorithm. destruct (List.find _ _) as [[h' o']|] eqn:E; [|done]. intros [= <-].
  apply List.find_some in E as [Hin Heq%bool_decide_eq_true]. cbn in Heq. subst h'.
  repeat (destruct Hin as [Hin|Hin]; [injection Hin as <- <-; by split|]). destruct Hin.
Qed.

Section RoundTrips.
Context `{MessageLaws}.

(** A request is read as it was written. *)
Lemma request_roundtrip req s : Marshal req = inl s -> ParseRequest s = inl (req, []).
Proof.
  unfold Marshal, ParseRequest. destruct (getOIDFromHashAlgorithm _) as [o|] eqn:E; [|done]. intros Hm.
  apply hash_roundtrip in E as [E Hne]. rewrite (request_law _ _ Hm). rewrite decide_False by (by intros Hn). cbn [RequestList HashAlgorithm].
  rewrite E, decide_False by done. by destruct req.
Qed.

(** A response with a signature that is not over an MD5 hash is read as it was
    written by whoever trusts its certificate: the
    status, the serial number, the times, the hash of the issuer, and the time
    and the reason of a revocation. *)
Theorem response_roundtrip issuer responder t priv c s :
  signs priv c -> t_SignatureAlgorithm t <> MD5WithRSA -> t_Certificate t = Some c -> t_Status t ∈ [Good; Revoked; Unknown] -> existsb Critical (t_ExtraExtensions t) = false ->
  CreateResponse issuer responder t priv = inl s ->
  exists r, ParseResponse s None = inl r /\ p_Status r = t_Status t /\ p_SerialNumber r = t_SerialNumber t /\
    p_ThisUpdate r = t_ThisUpdate t /\ p_NextUpdate r = t_NextUpdate t /\ p_Certificate r = Some c /\
    p_IssuerHash r = (if decide (t_IssuerHash t = 0) then SHA1 else t_IssuerHash t) /\
    (t_Status t = Revoked -> p_RevokedAt r = t_RevokedAt t /\ p_RevocationReason r = t_RevocationReason t).
Proof.
  intros Hsig Hmd Hc Hst Hcrit. unfold CreateResponse. destruct (spki_key issuer) as [key|]; [|done].
  destruct (getOIDFromHashAlgorithm _) as [hashOID|] eqn:Eo; [|done]. apply hash_roundtrip in Eo as [Eo Hne].
  destruct (Available _); [|done]. destruct (marshal_data _) as [der|] eqn:Ed; [|done].
  destruct (signingParamsForPublicKey _ _) as [[h o]|] eqn:Es; [|done]. apply signing_algorithm in Es as (a & k & Hdet & Hk & Ha & Hsha).
  destruct (Sign priv _ h) as [sig|] eqn:Esig; [|done]. destruct (marshal_basic _) as [basic|] eqn:Eb; [|done]. intros Hr.
  unfold ParseResponse, ParseResponseForCert. rewrite (response_law _ _ Hr). rewrite (decide_False (P := EmptyString <> EmptyString)) by tauto.
  cbn [r_Status ResponseType r_Response]. rewrite !decide_False by tauto. rewrite (basic_law _ _ der Eb Ed), Hc.
  cbn [TBSResponseData b_SignatureAlgorithm b_Signature Certificates Responses length b_Raw]. rewrite decide_False by lia.
  rewrite decide_False by (intros [?|[_ ?]]; lia). unfold check_certificates. rewrite parse_law, Ha.
  rewrite (sign_law priv c a o k h der sig) by auto. unfold pick_response. cbn [List.find default from_option id].
  unfold response_of. cbn [inner_response SingleExtensions CertID HashAlgorithm s_Good s_Unknown s_Revoked]. rewrite Hcrit, Eo, decide_False by done.
  apply list_elem_of_In in Hst as [Hst|[Hst|[Hst|[]]]]; rewrite <- Hst; eexists; (split; [reflexivity|]); split_and!; done.
Qed.
End RoundTrips.

(** ** An example *)

Module OcspDemo.
Inductive der :=
  | DBytes (s : string)
  | DRequest (r : tbsRequest)
  | DData (d : responseData der)
  | DBasic (b : basicResponse der)
  | DResponse (r : responseASN1 der).

#[local] Instance demo_asn1 : Asn1 := {|
  Der := der;
  marshal_request r := inl (DRequest r);
  unmarshal_request d := match d with DRequest r => inl (r, EmptyString) | _ => inr "asn1"%string end;
  marshal_data d := inl (DData d);
  marshal_basic b := inl (DBasic b);
  unmarshal_basic d :=
    match d with
    | DBasic b => inl (mkBasic (Some (DData (TBSResponseData b))) (TBSResponseData b) (b_SignatureAlgorithm b) (b_Signature b) (Certificates b), EmptyString)
    | _ => inr "asn1"%string
    end;
  marshal_response r := inl (DResponse r);
  unmarshal_response d := match d with DResponse r => inl (r, EmptyString) | _ => inr "asn1"%string end
|}.

#[local] Instance demo_keys : Keys := {|
  Certificate := string; Signer := unit; Public _ := RSAKey; spki_key c := inl (DBytes c); RawSubject c := DBytes c; cert_Raw c := DBytes c;
  cert_Serial _ := 1; ParseCertificate d := match d with DBytes s => inl s | _ => inr "x509"%string end; Available _ := true;
  Hash _ _ := "hash"%string; Sign _ _ _ := inl "sig"%string; CheckSignature _ _ _ _ := None; embedded_check _ _ := None; minute := 60
|}.

#[local] Instance demo_laws : MessageLaws.
Proof. refine {| signs := fun _ _ => True |}; cbn; intros; simplify_eq; reflexivity. Defined.

Definition ca : @Certificate demo_asn1 demo_keys := "ca"%string.
Definition signer : @Signer demo_asn1 demo_keys := tt.
Definition revoked_template : @Template demo_asn1 demo_keys := mkTemplate Revoked 2 100 200 90 1 (Some ca) 0 SHA256 [] [].

Lemma response_roundtrip_witness : exists s r, CreateResponse ca ca revoked_template signer = inl s /\
  ParseResponse s None = inl r /\ p_Status r = Revoked /\ p_RevocationReason r = 1.
Proof.
  destruct (CreateResponse ca ca revoked_template signer) as [s|e] eqn:E; [|vm_compute in E; discriminate].
  destruct (response_roundtrip ca ca revoked_template signer ca s) as (r & Hr & Hs & _ & _ & _ & _ & _ & Hv).
  - exact I.
  - discriminate.
  - reflexivity.
  - right. left.
  - reflexivity.
  - exact E.
  - exists s, r. split; [reflexivity|]. split; [exact Hr|]. split; [exact Hs|]. apply Hv. reflexivity.
Defined.
End OcspDemo.
