(* ===== verification/Pki.v ===== *)
(** The public key infrastructure (src/go/caddy/pfpki): authorities, profiles,
    certificates and revoked certificates in the database (models), the keys and
    names of a certificate (certutils, scep), and the status of a certificate
    (ocspresponder).

    The object relational mapper is the class [Gorm]: one operation per query of
    the source, over a type of databases.  What the theorems rely on of it is the
    class [GormLaws], in terms of the rows of the tables.  Keys, signatures and
    encodings are the class [Crypto].  A result is a value or the text of an
    error. *)
From S2P Require Import Prelude NetIP PkiSql.
From Stdlib Require Import ZArith Lia Ascii.
From stdpp Require Import base gmap strings list sorting.

Open Scope Z_scope.

Abbreviation res A := (A + string)%type.

Notation "x <-? m 'catch' h ;; k" := (match m with inl x => k | inr e => h e end)
  (at level 100, m at next level, h at next level, right associativity) : go_scope.

(** ** Tables *)

(** The columns of a name that all tables have. *)
Record Address := mkAddr {
  Mail : string; Organisation : string; OrganisationalUnit : string; Country : string; State : string;
  Locality : string; StreetAddress : string; PostalCode : string
}.

Record CA := mkCA {
  ca_ID : Z; ca_Cn : string; ca_Addr : Address; ca_KeyType : option Z; ca_KeySize : Z; ca_Digest : Z;
  ca_KeyUsage : option string; ca_ExtendedKeyUsage : option string; ca_Days : Z; ca_Key : string; ca_Cert : string;
  IssuerKeyHash : string; IssuerNameHash : string; ca_OCSPUrl : string
}.

Definition CA_tags : list string :=
  [EmptyString; EmptyString; EmptyString; "cn,omitempty"; "mail,omitempty"; "organisation,omitempty"; "organisational_unit,omitempty";
   "country,omitempty"; "state,omitempty"; "locality,omitempty"; "street_address,omitempty"; "postal_code,omitempty";
   "key_type,omitempty,string"; "key_size,omitempty,string"; "digest,omitempty,string"; "key_usage,omitempty";
   "extended_key_usage,omitempty"; "days,omitempty,string"; "-"; "cert,omitempty"; "issuer_key_hash,omitempty";
   "issuer_name_hash,omitempty"; "ocsp_url,omitempty"; EmptyString; EmptyString]%string.

Record Profile := mkProfile {
  p_ID : Z; p_Name : string; p_Addr : Address; p_CaID : Z; p_CaName : string; p_Validity : Z; p_KeyType : option Z; p_KeySize : Z;
  p_Digest : Z; p_KeyUsage : option string; p_ExtendedKeyUsage : option string; p_OCSPUrl : string; P12MailPassword : Z;
  P12MailSubject : string; P12MailFrom : string; P12MailHeader : string; P12MailFooter : string; SCEPEnabled : Z;
  SCEPChallengePassword : string; SCEPDaysBeforeRenewal : Z; CloudEnabled : Z; CloudService : string
}.

Definition Profile_tags : list string :=
  [EmptyString; EmptyString; EmptyString; "name"; "mail,omitempty"; "organisation,omitempty"; "organisational_unit,omitempty";
   "country,omitempty"; "state,omitempty"; "locality,omitempty"; "street_address,omitempty"; "postal_code,omitempty"; "-";
   "ca_id,omitempty,string"; "ca_name,omitempty"; "validity,omitempty,string"; "key_type,omitempty,string"; "key_size,omitempty,string";
   "digest,omitempty,string"; "key_usage,omitempty"; "extended_key_usage,omitempty"; "ocsp_url,omitempty";
   "p12_mail_password,omitempty,string"; "p12_mail_subject,omitempty"; "p12_mail_from,omitempty"; "p12_mail_header,omitempty";
   "p12_mail_footer,omitempty"; "scep_enabled,omitempty,string"; "scep_challenge_password,omitempty";
   "scep_days_before_renewal,omitempty,string"; "cloud_enabled,omitempty,string"; "cloud_service,omitempty"]%string.

Record Cert := mkCert {
  c_ID : Z; c_Cn : string; c_Addr : Address; c_CaID : Z; c_CaName : string; c_Key : string; c_Cert : string; c_ProfileID : Z;
  c_ProfileName : string; c_ValidUntil : Z; c_Date : Z; c_SerialNumber : string; c_DNSNames : string; c_IPAddresses : string
}.

Definition Cert_tags : list string :=
  [EmptyString; EmptyString; EmptyString; "cn,omitempty"; "mail,omitempty"; "-"; "ca_id,omitempty"; "ca_name,omitempty";
   "street_address,omitempty"; "organisation,omitempty"; "organisational_unit,omitempty"; "country,omitempty"; "state,omitempty";
   "locality,omitempty"; "postal_code,omitempty"; "-"; "cert,omitempty"; "-"; "profile_id,omitempty,string"; "profile_name,omitempty";
   "valid_until,omitempty"; "date,omitempty"; "serial_number,omitempty"; "dns_names,omitempty"; "ip_addresses,omitempty"]%string.

(** A revoked certificate has the columns of a certificate and two more. *)
Record RevokedCert := mkRevoked { r_row : Cert; r_Revoked : Z; r_CRLReason : Z }.

Definition RevokedCert_tags : list string := app Cert_tags ["revoked,omitempty"; "crl_reason,omitempty"]%string.

(** types.Info: what a handler answers. *)
Inductive entries :=
  | ENone
  | ECAs (l : list CA)
  | EProfiles (l : list Profile)
  | ECerts (l : list Cert)
  | ERevoked (l : list RevokedCert).

Record Info := mkInfo {
  Status : Z; Password : string; i_Error : string; ContentType : string; Raw : string; Entries : entries;
  NextCursor : Z; PrevCursor : Z; TotalCount : Z
}.

Definition no_info : Info := mkInfo 0 EmptyString EmptyString EmptyString EmptyString ENone 0 0 0.
Definition info_err (e : string) : Info := mkInfo 0 EmptyString e EmptyString EmptyString ENone 0 0 0.
Definition info_entries (x : entries) : Info := mkInfo 0 EmptyString EmptyString EmptyString EmptyString x 0 0 0.

Definition database_error : string := "A database error occured. See log for details.".
Definition index_panic : string := "runtime error: index out of range".
Definition nil_dereference : string := "runtime error: invalid memory address or nil pointer dereference".

(** ** The mapper *)

(** [First] and [Find] on a row fail when there is no row; the text of a condition
    that a client sends is an argument of the query.  [last_cert] is
    [Last(&cert).Related(&ca)]; [first_cert] is [First(&cert, val)]. *)
Class Gorm (DB : Type) : Type := {
  first_profile : DB -> Z -> res Profile;
  profiles_named : DB -> string -> res (list Profile);
  profile_by_name : DB -> string -> res Profile;
  scep_profiles : DB -> list Profile;
  first_ca : DB -> Z -> res CA;
  any_ca : DB -> res CA;
  last_ca : DB -> res CA;
  ca_by_name_hash : DB -> string -> res CA;
  ca_by_key_hash : DB -> CA -> string -> res CA;
  last_cert : DB -> CA -> res Cert;
  first_cert : DB -> Cert -> string -> res Cert;
  cert_by_id : DB -> string -> res Cert;
  cert_by_cn : DB -> string -> res Cert;
  cert_by_serial : DB -> string -> Z -> res Cert;
  revoked_by_serial : DB -> string -> Z -> res RevokedCert;
  cert_ca : DB -> Cert -> res CA;
  cert_profile : DB -> Cert -> res Profile;
  create_ca : DB -> CA -> DB * error;
  create_profile : DB -> Profile -> DB * error;
  update_profile : DB -> Profile -> DB * error;
  create_cert : DB -> CA -> Profile -> Cert -> DB * error;
  create_revoked : DB -> CA -> Profile -> RevokedCert -> DB * error;
  delete_cert : DB -> Cert -> DB * error;
  all_cas : DB -> list CA;
  save_ca : DB -> CA -> DB;
  cas_by : DB -> string -> string -> list CA;
  profiles_by : DB -> string -> string -> list Profile;
  certs_by : DB -> string -> string -> list Cert;
  revoked_by : DB -> string -> string -> list RevokedCert;
  count_cas : DB -> Where -> Z;
  count_profiles : DB -> Where -> Z;
  count_certs : DB -> Where -> Z;
  find_cas : DB -> Sql -> list CA;
  find_profiles : DB -> Sql -> list Profile;
  find_certs : DB -> Sql -> list Cert;
  find_revoked : DB -> Sql -> list RevokedCert
}.

(** ** Certificates *)

Record Subject := mkSubject {
  CommonName : string; s_Organization : list string; s_OrganizationalUnit : list string; s_Country : list string;
  s_Province : list string; s_Locality : list string; s_StreetAddress : list string; s_PostalCode : list string
}.

Record Template := mkTemplate {
  t_SerialNumber : Z; t_Subject : Subject; t_NotBefore : Z; t_NotAfter : Z; t_IsCA : bool; t_SignatureAlgorithm : Z;
  t_ExtKeyUsage : list Z; t_KeyUsage : Z; t_OCSPServer : list string; t_EmailAddresses : list string; t_DNSNames : list string;
  t_IPAddresses : list ip; t_SubjectKeyId : string; t_AuthorityKeyId : string
}.

(** Keys, signatures, encodings and the clock.  [sign] takes the certificate of
    the authority, [None] for one that signs itself. *)
Class Crypto : Type := {
  PubKey : Type;
  PrivKey : Type;
  X509 : Type;
  rsa_key : Z -> res (string * PubKey * PrivKey);
  ecdsa_key : Z -> res (string * PubKey * PrivKey);
  dsa_key : Z -> res (string * PubKey * PrivKey);
  CalculateSKID : option PubKey -> res string;
  sign : Template -> option X509 -> option PubKey -> option PrivKey -> res string;
  pem_encode : string -> string;
  key_pair : string -> string -> res (string * PrivKey);
  parse_cert : string -> res X509;
  raw_issuer_hash : X509 -> string;
  pem_certs : string -> list X509;
  cert_key : X509 -> PubKey;
  not_after : X509 -> Z;
  hex : string -> string;
  pkcs12 : PrivKey -> X509 -> list X509 -> string -> res string;
  load_key : string -> res PrivKey;
  parse_rsa_key : string -> res PrivKey;
  random_password : string;
  AddDays : Z -> Z -> Z;
  ip6 : string -> ip;
  now : Z
}.

Definition KEY_UNSUPPORTED : Z := -1.
Definition KEY_ECDSA : Z := 0.
Definition KEY_RSA : Z := 1.
Definition KEY_DSA : Z := 2.

Definition Extkeyusage (ExtendedKeyUsage : list string) : list Z :=
  (fun use => (Atoi use).1) <$> filter (fun use => use <> EmptyString) ExtendedKeyUsage.

Definition Keyusage (KeyUsage : list string) : Z :=
  fold_left (fun keyUsage use => Z.lor keyUsage (Atoi use).1) KeyUsage 0.

Definition rsa_size : string := "invalid private key size, should be at least 2048".
Definition ecdsa_size : string := "invalid private key size, should be 256 or 384 or 521".
Definition dsa_size : string := "invalid private key size, should be 1024 or 2048 or 3072".

(** A list of at most one text. *)
Definition one (s : string) : list string := if decide (s = EmptyString) then [] else [s].

Definition subject (cn : string) (a : Address) : Subject :=
  mkSubject cn (one (Organisation a)) (one (OrganisationalUnit a)) (one (Country a)) (one (State a)) (one (Locality a))
    (one (StreetAddress a)) (one (PostalCode a)).

(** The value of the certificate, of the profile when it has none. *)
Definition prefer (own profile : string) : string := if decide (own = EmptyString) then profile else own.

(** The mail is not taken from the profile. *)
Definition merge_address (c prof : Address) : Address :=
  mkAddr (Mail c) (prefer (Organisation c) (Organisation prof)) (prefer (OrganisationalUnit c) (OrganisationalUnit prof))
    (prefer (Country c) (Country prof)) (prefer (State c) (State prof)) (prefer (Locality c) (Locality prof))
    (prefer (StreetAddress c) (StreetAddress prof)) (prefer (PostalCode c) (PostalCode prof)).

Definition split_or_nil (s : string) : list string := if decide (s = EmptyString) then [] else Split s ",".

Section Models.
Context {DB : Type} `{Gorm DB} `{Crypto}.

Definition fail (db : DB) (e : string) : DB * go (Info * error) := (db, Ret (info_err e, Some e)).
Definition fail_db (db : DB) (e : string) : DB * go (Info * error) := (db, Ret (info_err e, Some database_error)).

Definition GenerateKey (keytype size : Z) : res (string * option PubKey * option PrivKey) :=
  let keys (r : res (string * PubKey * PrivKey)) :=
    match r with inl (out, pub, key) => inl (out, Some pub, Some key) | inr e => inr e end in
  if decide (keytype = KEY_RSA) then if decide (size < 2048) then inr rsa_size else keys (rsa_key size)
  else if decide (keytype = KEY_ECDSA) then if decide (size ∈ [256; 384; 521]) then keys (ecdsa_key size) else inr ecdsa_size
  else if decide (keytype = KEY_DSA) then if decide (size ∈ [1024; 2048; 3072]) then keys (dsa_key size) else inr dsa_size
  else inl (EmptyString, None, None).

(** [big.NewInt(int64(cert.ID + 1))], or 1 when the query fails. *)
Definition serial_after (last : res Z) : Z := match last with inl id => wrapS 64 (wrapU 64 (id + 1)) | inr _ => 1 end.

Definition last_id (db : DB) (ca : CA) : res Z := match last_cert db ca with inl c => inl (c_ID c) | inr e => inr e end.

(** ** Authorities *)

Definition CA_New (c : CA) : gst DB (Info * error) := fun db =>
  (match ca_KeyType c with
   | None => (db, Panic nil_dereference)
   | Some kt =>
       k <-? GenerateKey kt (ca_KeySize c) catch fail db ;;
       skid <-? CalculateSKID k.1.2 catch fail db ;;
       let SerialNumber := serial_after (match last_ca db with inl x => inl (ca_ID x) | inr e => inr e end) in
       match ca_ExtendedKeyUsage c, ca_KeyUsage c with
       | Some eku, Some ku =>
           let ca := mkTemplate SerialNumber (subject (ca_Cn c) (ca_Addr c)) now (AddDays now (ca_Days c)) true (ca_Digest c)
                       (Extkeyusage (Split eku "|")) (Keyusage (Split ku "|")) (one (ca_OCSPUrl c)) [Mail (ca_Addr c)] [] [] skid skid in
           let signed := if decide (kt ∈ [KEY_RSA; KEY_ECDSA; KEY_DSA]) then sign ca None k.1.2 k.2 else inl EmptyString in
           caBytes <-? signed catch (fun e => (db, Ret (no_info, Some e))) ;;
           let cert := pem_encode caBytes in
           catls <-? key_pair cert k.1.1 catch fail db ;;
           cacert <-? parse_cert catls.1 catch fail db ;;
           let row := mkCA 0 (ca_Cn c) (ca_Addr c) (ca_KeyType c) (ca_KeySize c) (ca_Digest c) (ca_KeyUsage c) (ca_ExtendedKeyUsage c)
                        (ca_Days c) k.1.1 cert (hex skid) (hex (raw_issuer_hash cacert)) (ca_OCSPUrl c) in
           match create_ca db row with
           | (db', Some e) => fail_db db' e
           | (db', None) => (db', Ret (info_entries (ECAs (cas_by db' "cn" (ca_Cn c))), None))
           end
       | _, _ => (db, Panic nil_dereference)
       end
   end)%go.

Definition set_hashes (v : CA) (keyHash nameHash : string) : CA :=
  mkCA (ca_ID v) (ca_Cn v) (ca_Addr v) (ca_KeyType v) (ca_KeySize v) (ca_Digest v) (ca_KeyUsage v) (ca_ExtendedKeyUsage v)
    (ca_Days v) (ca_Key v) (ca_Cert v) keyHash nameHash (ca_OCSPUrl v).

(** The hash of the last certificate of the text, the empty text without one or
    when it fails. *)
Definition skid_of (cert : string) : string :=
  fold_left (fun _ c => match CalculateSKID (Some (cert_key c)) with inl s => s | inr _ => EmptyString end) (pem_certs cert) EmptyString.

Fixpoint fix_loop (cadb : list CA) (db : DB) : DB * go (Info * error) :=
  match cadb with
  | [] => (db, Ret (no_info, None))
  | v :: rest =>
      (if decide (IssuerNameHash v = EmptyString) then
         catls <-? key_pair (ca_Cert v) (ca_Key v) catch fail db ;;
         cacert <-? parse_cert catls.1 catch fail db ;;
         fix_loop rest (save_ca db (set_hashes v (hex (skid_of (ca_Cert v))) (hex (raw_issuer_hash cacert))))
       else fix_loop rest db)%go
  end.

Definition CA_Fix : gst DB (Info * error) := fun db => fix_loop (all_cas db) db.

(** ** Profiles *)

Definition check_key (kt size : Z) : error :=
  if decide (kt = KEY_RSA) then if decide (size < 2048) then Some rsa_size else None
  else if decide (kt = KEY_ECDSA) then if decide (size = 256 \/ size = 384 \/ size = 521) then None else Some ecdsa_size
  else if decide (kt = KEY_DSA) then if decide (size = 1024 \/ size = 2048 \/ size = 3072) then None else Some dsa_size
  else Some "KeyType unsupported"%string.

Definition with_ca (p : Profile) (ca : CA) : Profile :=
  mkProfile 0 (p_Name p) (p_Addr p) (p_CaID p) (ca_Cn ca) (p_Validity p) (p_KeyType p) (p_KeySize p) (p_Digest p) (p_KeyUsage p)
    (p_ExtendedKeyUsage p) (p_OCSPUrl p) (P12MailPassword p) (P12MailSubject p) (P12MailFrom p) (P12MailHeader p) (P12MailFooter p)
    (SCEPEnabled p) (SCEPChallengePassword p) (SCEPDaysBeforeRenewal p) (CloudEnabled p) (CloudService p).

Definition Profile_New (p : Profile) : gst DB (Info * error) := fun db =>
  (match p_KeyType p with
   | None => (db, Panic nil_dereference)
   | Some kt =>
       match check_key kt (p_KeySize p) with
       | Some e => (db, Ret (if decide (kt ∈ [KEY_RSA; KEY_ECDSA; KEY_DSA]) then info_err e else no_info, Some e))
       | None =>
           ca <-? first_ca db (p_CaID p) catch fail db ;;
           match create_profile db (with_ca p ca) with
           | (db', Some e) => fail_db db' e
           | (db', None) => (db', Ret (info_entries (EProfiles (profiles_by db' "name" (p_Name p))), None))
           end
       end
   end)%go.

Definition Profile_Update (p : Profile) : gst DB (Info * error) := fun db =>
  match update_profile db p with
  | (db', Some e) => fail_db db' e
  | (db', None) => (db', Ret (info_entries (EProfiles (profiles_by db' "name" (p_Name p))), None))
  end.

(** ** Certificates *)

(** The name of the certificate; a failure of the signature is not looked at. *)
Definition Cert_New (c : Cert) : gst DB (Info * error) := fun db =>
  (prof <-? first_profile db (c_ProfileID c) catch fail_db db ;;
   ca <-? first_ca db (p_CaID prof) catch fail_db db ;;
   catls <-? key_pair (ca_Cert ca) (ca_Key ca) catch fail db ;;
   cacert <-? parse_cert catls.1 catch fail db ;;
   let SerialNumber := serial_after (last_id db ca) in
   match p_KeyType prof with
   | None => (db, Panic nil_dereference)
   | Some kt =>
       k <-? GenerateKey kt (p_KeySize prof) catch fail db ;;
       skid <-? CalculateSKID k.1.2 catch fail db ;;
       let addr := merge_address (c_Addr c) (p_Addr prof) in
       match p_ExtendedKeyUsage prof, p_KeyUsage prof with
       | Some eku, Some ku =>
           let cert := mkTemplate SerialNumber (subject (c_Cn c) addr) now (AddDays now (p_Validity prof)) false 0
                         (Extkeyusage (Split eku "|")) (Keyusage (Split ku "|")) (one (p_OCSPUrl prof)) (split_or_nil (Mail addr))
                         (split_or_nil (c_DNSNames c)) (ParseIP ip6 <$> split_or_nil (c_IPAddresses c)) skid EmptyString in
           let certByte := match sign cert (Some cacert) k.1.2 (Some catls.2) with inl b => b | inr _ => EmptyString end in
           let row := mkCert 0 (c_Cn c) addr 0 (ca_Cn ca) k.1.1 (pem_encode certByte) 0 (p_Name prof) (t_NotAfter cert) 0
                        (Itoa SerialNumber) (c_DNSNames c) (c_IPAddresses c) in
           match create_cert db ca prof row with
           | (db', Some e) => fail_db db' e
           | (db', None) => (db', Ret (info_entries (ECerts (certs_by db' "cn" (c_Cn c))), None))
           end
       | _, _ => (db, Panic nil_dereference)
       end
   end)%go.

(** The postal code of a revoked certificate is its locality. *)
Definition revoked_address (a : Address) : Address :=
  mkAddr (Mail a) (Organisation a) (OrganisationalUnit a) (Country a) (State a) (Locality a) (StreetAddress a) (Locality a).

Definition revoked_row (cert : Cert) (reason : Z) : RevokedCert :=
  mkRevoked (mkCert 0 (c_Cn cert) (revoked_address (c_Addr cert)) (c_CaID cert) (c_CaName cert) (c_Key cert) (c_Cert cert)
               (c_ProfileID cert) (c_ProfileName cert) (c_ValidUntil cert) (c_Date cert) (c_SerialNumber cert) (c_DNSNames cert)
               (c_IPAddresses cert)) now reason.

(** [id] and [reason] are the parameters of the request. *)
Definition Revoke (id reason : string) : gst DB (Info * error) := fun db =>
  (cert <-? cert_by_id db id catch fail db ;;
   ca <-? cert_ca db cert catch fail db ;;
   profile <-? cert_profile db cert catch fail db ;;
   match Atoi reason with
   | (_, true) => fail db "Reason unsupported"
   | (intreason, false) =>
       match create_revoked db ca profile (revoked_row cert intreason) with
       | (db1, Some e) => fail db1 e
       | (db1, None) =>
           match delete_cert db1 cert with
           | (db2, Some e) => fail db2 e
           | (db2, None) => (db2, Ret (no_info, None))
           end
       end
   end)%go.

(** ** The store of the SCEP server *)

(** The profile of the request, and its name for the later calls. *)
Definition FindSCEPProfile (db : DB) (options : list string) : go (Profile + string) :=
  match options with
  | name :: _ =>
      match profiles_named db name with
      | inl (p :: _) => Ret (inl p)
      | inl [] => Ret (inr "Unknow profile."%string)
      | inr _ => Ret (inr database_error)
      end
  | [] => match scep_profiles db with p :: _ => Ret (inl p) | [] => Panic index_panic end
  end.

Definition no_addr : Address := mkAddr EmptyString EmptyString EmptyString EmptyString EmptyString EmptyString EmptyString EmptyString.
Definition no_ca : CA :=
  mkCA 0 EmptyString no_addr None 0 0 None None 0 EmptyString EmptyString EmptyString EmptyString EmptyString.

(** The authority of the profile, or the first one. *)
Definition scep_ca (db : DB) (prof : Profile) : CA :=
  match first_ca db (p_CaID prof) with
  | inl ca => ca
  | inr _ => match any_ca db with inl ca => ca | inr _ => no_ca end
  end.

(** The certificate and the key of the authority: the errors of the first two
    steps are overwritten. *)
Definition CA_CA (db : DB) (options : list string) : go (res (option X509 * res PrivKey)) :=
  (x <-! FindSCEPProfile db options ;;
   match x with
   | inr e => Ret (inr e)
   | inl prof =>
       let ca := scep_ca db prof in
       match key_pair (ca_Cert ca) (ca_Key ca) with
       | inr _ => Panic index_panic
       | inl catls =>
           let cacert := match parse_cert catls.1 with inl c => Some c | inr _ => None end in
           Ret (inl (cacert, load_key (ca_Key ca)))
       end
   end)%go.

(** The certificate that the server signed: its attributes by name, its serial
    number, its text and its end. *)
Record Signed := mkSigned { sg_attr : string -> string; sg_Serial : Z; sg_Raw : string; sg_NotAfter : Z }.

(** The postal code is the mail address. *)
Definition signed_address (f : string -> string) : Address :=
  mkAddr (f "emailAddress"%string) (f "O"%string) (f "OU"%string) (f "C"%string) (f "ST"%string) (f "L"%string) (f "streetAddress"%string)
    (f "emailAddress"%string).

Definition Put (cn : string) (crt : Signed) (options : list string) : gst DB error := fun db =>
  match FindSCEPProfile db options with
  | Panic m => (db, Panic m)
  | Ret (inr e) => (db, Ret (Some e))
  | Ret (inl prof) =>
      let ca := scep_ca db prof in
      let row := mkCert 0 cn (signed_address (sg_attr crt)) 0 (ca_Cn ca) EmptyString (pem_encode (sg_Raw crt)) 0 (p_Name prof)
                   (sg_NotAfter crt) 0 (Itoa (sg_Serial crt)) EmptyString EmptyString in
      match create_cert db ca prof row with
      | (db', Some _) => (db', Ret (Some database_error))
      | (db', None) => (db', Ret None)
      end
  end.

Definition Serial (db : DB) (options : list string) : go (res Z) :=
  (x <-! FindSCEPProfile db options ;;
   match x with
   | inr e => Ret (inr e)
   | inl prof => Ret (inl (serial_after (last_id db (scep_ca db prof))))
   end)%go.

Definition two_weeks : Z := 14 * 24 * 3600.
Definition Superseded : Z := 4.

Definition expires_soon (cert : X509) : bool := bool_decide (not_after cert - two_weeks < now).

(** A certificate with the name that ends within two weeks is revoked, whatever
    the revocation answers. *)
Definition HasCN (cn : string) : gst DB (bool * error) := fun db =>
  match cert_by_cn db cn with
  | inr _ => (db, Ret (true, None))
  | inl certif =>
      if existsb expires_soon (pem_certs (c_Cert certif)) then
        match Revoke (Itoa (c_ID certif)) (Itoa Superseded) db with
        | (db', Ret _) => (db', Ret (true, None))
        | (db', Panic m) => (db', Panic m)
        end
      else (db, Ret (false, Some "Certificate with this CN already exist"%string))
  end.

Definition GetProfileByName (db : DB) (name : string) : go Profile :=
  match profiles_named db name with inl (p :: _) => Ret p | _ => Panic index_panic end.

(** [validate] asks the service of the cloud about the request, and fails also
    when the service cannot be created. *)
Definition CA_Verify (validate : string -> error) (db : DB) (SCEPAssociateProfile : string) : go (bool * error) :=
  (prof <-! GetProfileByName db SCEPAssociateProfile ;;
   if decide (CloudEnabled prof = 1) then
     match validate (CloudService prof) with
     | Some e => Ret (false, Some e)
     | None => Ret (true, None)
     end
   else Ret (true, None))%go.

(** ** Lists of rows *)

Definition CA_GetByID (db : DB) (id : option string) : Info :=
  info_entries (ECAs (match id with Some v => cas_by db "id" v | None => [] end)).

Definition Profile_GetByID (db : DB) (id : option string) : Info :=
  info_entries (EProfiles (match id with Some v => profiles_by db "id" v | None => [] end)).

(** A name that is given decides after the id. *)
Definition Cert_GetByID (db : DB) (id cn : option string) : Info :=
  info_entries (ECerts (match cn, id with Some v, _ => certs_by db "cn" v | None, Some v => certs_by db "id" v | None, None => [] end)).

Definition Revoked_GetByID (db : DB) (id : option string) : Info :=
  info_entries (ERevoked (match id with Some v => revoked_by db "id" v | None => [] end)).

(** A page of a table with [count] rows. *)
Definition paginated (class : list string) (vars : Vars) (count : Z) (err_of : string -> string) (find : Sql -> entries) : go (Info * error) :=
  let page e x := mkInfo 0 EmptyString e EmptyString EmptyString x (Cursor vars + Limit vars) (Cursor vars) count in
  if decide (Cursor vars < count) then
    (x <-! Vars_Sql class vars ;;
     match x with
     | (_, Some e) => Ret (page e ENone, Some (err_of e))
     | (sql, None) => Ret (page EmptyString (find sql), None)
     end)%go
  else Ret (page EmptyString ENone, None).

Definition CA_Paginated (db : DB) (vars : Vars) : go (Info * error) :=
  paginated CA_tags vars (count_cas db no_where) (fun _ => database_error) (fun sql => ECAs (find_cas db sql)).
Definition Profile_Paginated (db : DB) (vars : Vars) : go (Info * error) :=
  paginated Profile_tags vars (count_profiles db no_where) (fun _ => database_error) (fun sql => EProfiles (find_profiles db sql)).
Definition Cert_Paginated (db : DB) (vars : Vars) : go (Info * error) :=
  paginated Cert_tags vars (count_certs db no_where) (fun _ => database_error) (fun sql => ECerts (find_certs db sql)).

(** The rows of the table of certificates are counted, not those of the revoked
    ones. *)
Definition Revoked_Paginated (db : DB) (vars : Vars) : go (Info * error) :=
  paginated RevokedCert_tags vars (count_certs db no_where) (fun e => e) (fun sql => ERevoked (find_revoked db sql)).

(** A search, whose rows [count] counts. *)
Definition searched (class : list string) (vars : Vars) (count : Where -> Z) (err_of : string -> string) (find : Sql -> entries) : go (Info * error) :=
  (x <-! Vars_Sql class vars ;;
   match x with
   | (_, Some e) => Ret (info_err e, Some (err_of e))
   | (sql, None) =>
       let n := count (sql_Where sql) in
       Ret (mkInfo 0 EmptyString EmptyString EmptyString EmptyString (if decide (Cursor vars < n) then find sql else ENone)
              (Cursor vars + Limit vars) (Cursor vars) n, None)
   end)%go.

Definition CA_Search (db : DB) (vars : Vars) : go (Info * error) :=
  searched CA_tags vars (count_cas db) (fun _ => database_error) (fun sql => ECAs (find_cas db sql)).
Definition Profile_Search (db : DB) (vars : Vars) : go (Info * error) :=
  searched Profile_tags vars (count_profiles db) (fun _ => database_error) (fun sql => EProfiles (find_profiles db sql)).
Definition Cert_Search (db : DB) (vars : Vars) : go (Info * error) :=
  searched Cert_tags vars (count_certs db) (fun _ => database_error) (fun sql => ECerts (find_certs db sql)).
Definition Revoked_Search (db : DB) (vars : Vars) : go (Info * error) :=
  searched RevokedCert_tags vars (count_certs db) (fun e => e) (fun sql => ERevoked (find_revoked db sql)).

(** ** Download and mail *)

Record Alerting := mkAlerting { FromAddr : string; SMTPVerifySSL : string }.

Record Message := mkMessage {
  m_From : string; m_To : string; m_Subject : string; m_Header : string; m_Footer : string; m_Password : string;
  m_File : string; m_Attachment : string; m_SkipVerify : bool
}.

(** The header decides about the default of the footer, too. *)
Definition message (alerting : Alerting) (cert : Cert) (profile : Profile) (file password : string) : Message :=
  let default_text := bool_decide (P12MailHeader profile = EmptyString) in
  mkMessage (prefer (P12MailFrom profile) (FromAddr alerting)) (Mail (c_Addr cert)) (P12MailSubject profile)
    (if default_text then "msg_header"%string else P12MailHeader profile)
    (if default_text then "msg_footer"%string else P12MailFooter profile)
    (if decide (P12MailPassword profile = 1) then password else EmptyString)
    (c_Cn cert +:+ ".p12")%string file (bool_decide (SMTPVerifySSL alerting = "disabled"%string)).

Definition info_password (password e : string) : Info := mkInfo 0 password e EmptyString EmptyString ENone 0 0 0.

(** [catalog] is the error of reading the translations, [lang] whether the language
    of the configuration is one, [send] the error of sending. *)
Definition email (catalog : error) (lang : bool) (send : Message -> error) (alerting : Alerting) (cert : Cert) (profile : Profile)
    (file password : string) : go (Info * error) :=
  match catalog with
  | Some e => Ret (info_err e, Some e)
  | None =>
      if lang then
        let m := message alerting cert profile file password in
        match send m with
        | Some e => Ret (info_password (m_Password m) e, Some e)
        | None => Ret (info_password (m_Password m) EmptyString, None)
        end
      else Panic "language: tag is not well-formed"
  end.

Definition no_cert : Cert :=
  mkCert 0 EmptyString no_addr 0 EmptyString EmptyString EmptyString 0 EmptyString 0 0 EmptyString EmptyString EmptyString.

Definition Download (mail : Cert -> Profile -> string -> string -> go (Info * error)) (id cn password : option string) (db : DB) :
    go (Info * error) :=
  let fail e := Ret (info_err e, Some e) in
  let fail_db e := Ret (info_err e, Some database_error) in
  (cert1 <-? match cn with Some v => cert_by_cn db v | None => inl no_cert end catch fail_db ;;
   cert <-? match id with Some v => first_cert db cert1 v | None => inl cert1 end catch fail_db ;;
   ca <-? cert_ca db cert catch fail_db ;;
   certtls <-? key_pair (c_Cert cert) (c_Key cert) catch fail ;;
   prof <-? profile_by_name db (c_ProfileName cert) catch fail_db ;;
   certificate <-? parse_cert certtls.1 catch fail ;;
   catls <-? key_pair (ca_Cert ca) (ca_Key ca) catch fail ;;
   cacert <-? parse_cert catls.1 catch fail ;;
   let pass := default random_password password in
   let p12 := pkcs12 certtls.2 certificate [cacert] pass in
   let file := match p12 with inl f => f | inr _ => EmptyString end in
   match password with
   | Some _ =>
       Ret (mkInfo 0 pass EmptyString "application/x-pkcs12" file ENone 0 0 0, match p12 with inl _ => None | inr e => Some e end)
   | None => mail cert prof file pass
   end)%go.

(** ** The status of a certificate *)

Inductive cert_status := StatusValid | StatusRevoked | StatusExpired.

Record IndexEntry := mkEntry {
  e_Status : cert_status; e_Serial : Z; e_IssueTime : Z; e_RevocationTime : Z; e_Reason : Z; e_DistinguishedName : string
}.

Definition getCertificateStatus (db : DB) (serial : Z) (ca : CA) : option IndexEntry :=
  match cert_by_serial db (Itoa serial) (ca_ID ca) with
  | inl cert =>
      Some (mkEntry (if decide (now > c_ValidUntil cert) then StatusExpired else StatusValid) serial (c_Date cert) (c_ValidUntil cert) 0
              (c_Cn cert))
  | inr _ =>
      match revoked_by_serial db (Itoa serial) (ca_ID ca) with
      | inl r => Some (mkEntry StatusRevoked serial (c_Date (r_row r)) (r_Revoked r) (r_CRLReason r) (c_Cn (r_row r)))
      | inr _ => None
      end
  end.

Definition verifyIssuer (db : DB) (nameHash keyHash : string) : res CA :=
  match ca_by_name_hash db (hex nameHash) with
  | inr _ => inr "Unable to find Issuer name"%string
  | inl ca => match ca_by_key_hash db ca (hex keyHash) with inr _ => inr "Unable to find Key name"%string | inl ca' => inl ca' end
  end.

End Models.

(** ** What the mapper promises

    The rows of the two tables in the order of their creation, and the next value
    of the automatic key of the certificates.  A row that is created gets the key
    and the keys of its authority and profile; [reachable] is a database that
    answers.  [Last(&cert).Related(&ca)] reads the authority of the last
    certificate into [ca], whose key is a condition of the query, too: it fails
    when there is no certificate and when the last one is of another authority.  A
    condition that is given as a row leaves out its empty columns. *)
Definition stored (c : Cert) (id ca prof : Z) : Cert :=
  mkCert id (c_Cn c) (c_Addr c) ca (c_CaName c) (c_Key c) (c_Cert c) prof (c_ProfileName c) (c_ValidUntil c) (c_Date c)
    (c_SerialNumber c) (c_DNSNames c) (c_IPAddresses c).

Definition stored_revoked (r : RevokedCert) (id : Z) : RevokedCert :=
  mkRevoked (stored (r_row r) id (c_CaID (r_row r)) (c_ProfileID (r_row r))) (r_Revoked r) (r_CRLReason r).

Definition has_serial (s : string) (ca : Z) (c : Cert) : Prop := c_SerialNumber c = s /\ c_CaID c = ca.

(** An authority as it was read from the database. *)
Definition read_ca `{Gorm DB} (db : DB) (ca : CA) : Prop := (exists id, first_ca db id = inl ca) \/ any_ca db = inl ca.

(** The row with the greatest key. *)
Definition newest (l : list Cert) (c : Cert) : Prop := c ∈ l /\ forall c', c' ∈ l -> c_ID c' <= c_ID c.

Class GormLaws (DB : Type) `{Gorm DB} : Type := {
  cert_rows : DB -> list Cert;
  revoked_rows : DB -> list RevokedCert;
  ca_rows : DB -> list CA;
  next_id : DB -> Z;
  reachable : DB -> Prop;
  ids_used db c : c ∈ cert_rows db -> 0 < c_ID c < next_id db;
  id_range db : 0 < next_id db <= 2 ^ 32;
  last_cert_row db ca c : last_cert db ca = inl c -> newest (cert_rows db) c /\ (ca_ID ca <> 0 -> c_CaID c = ca_ID ca);
  last_cert_fails db ca e : reachable db -> read_ca db ca -> last_cert db ca = inr e ->
    cert_rows db = [] \/ exists c, newest (cert_rows db) c /\ c_CaID c <> ca_ID ca;
  cert_by_id_row db id c : cert_by_id db id = inl c -> c ∈ cert_rows db;
  create_cert_rows db ca prof c db' : create_cert db ca prof c = (db', None) ->
    cert_rows db' = app (cert_rows db) [stored c (next_id db) (ca_ID ca) (p_ID prof)] /\ revoked_rows db' = revoked_rows db;
  create_cert_error db ca prof c db' e : create_cert db ca prof c = (db', Some e) ->
    cert_rows db' = cert_rows db /\ revoked_rows db' = revoked_rows db;
  create_revoked_rows db ca prof r db' err : create_revoked db ca prof r = (db', err) ->
    cert_rows db' = cert_rows db /\ next_id db' = next_id db /\
    (err = None -> exists id, revoked_rows db' = app (revoked_rows db) [stored_revoked r id]);
  delete_cert_rows db c db' : delete_cert db c = (db', None) ->
    cert_rows db' = filter (fun x => c_ID x <> c_ID c) (cert_rows db) /\ revoked_rows db' = revoked_rows db /\ next_id db' = next_id db;
  delete_cert_error db c db' e : delete_cert db c = (db', Some e) -> cert_rows db' = cert_rows db /\ next_id db' = next_id db;
  cert_by_serial_row db s ca c : cert_by_serial db s ca = inl c -> c ∈ cert_rows db /\ has_serial s ca c;
  revoked_by_serial_none db s ca e : reachable db -> revoked_by_serial db s ca = inr e ->
    Forall (fun r => ~ has_serial s ca (r_row r)) (revoked_rows db);
  cert_by_serial_none db s ca e : reachable db -> cert_by_serial db s ca = inr e -> Forall (fun c => ~ has_serial s ca c) (cert_rows db);
  revoked_by_serial_row db s ca r : revoked_by_serial db s ca = inl r -> r ∈ revoked_rows db /\ has_serial s ca (r_row r);
  ca_keys db a b : a ∈ ca_rows db -> b ∈ ca_rows db -> 0 < ca_ID a /\ (ca_ID a = ca_ID b -> a = b);
  ca_by_name_hash_row db h ca : ca_by_name_hash db h = inl ca -> ca ∈ ca_rows db /\ (h <> EmptyString -> IssuerNameHash ca = h);
  ca_by_key_hash_row db ca h ca' : ca_by_key_hash db ca h = inl ca' ->
    ca' ∈ ca_rows db /\ (ca_ID ca <> 0 -> ca_ID ca' = ca_ID ca) /\ (h <> EmptyString -> IssuerKeyHash ca' = h)
}.

Section Serials.
Context {DB : Type} `{GormLaws DB} `{Crypto}.

(** The database answers, and has the authority [A] and no other. *)
Definition alone (A : Z) (db : DB) : Prop :=
  reachable db /\ (exists ca, any_ca db = inl ca) /\ forall ca, read_ca db ca -> ca_ID ca = A.

(** The requests: a certificate is issued by the interface; the SCEP server asks for
    a serial number, and puts the certificate that it signed with it or gives it
    up; a certificate is revoked, or replaced.  The second component is the serial
    number that the SCEP server has asked for: no other certificate is issued
    before it is put. *)
Inductive pki_step (A : Z) : DB * option Z -> DB * option Z -> Prop :=
  | step_new c db db' r : alone A db -> Cert_New c db = (db', r) -> pki_step A (db, None) (db', None)
  | step_serial options n db : alone A db -> Serial db options = Ret (inl n) -> pki_step A (db, None) (db, Some n)
  | step_put options cn crt db db' r :
      alone A db -> Put cn crt options db = (db', r) -> pki_step A (db, Some (sg_Serial crt)) (db', None)
  | step_give_up db n : pki_step A (db, Some n) (db, None)
  | step_revoke id reason db db' r o : Revoke id reason db = (db', r) -> pki_step A (db, o) (db', o)
  | step_replace cn db db' r o : HasCN cn db = (db', r) -> pki_step A (db, o) (db', o).

(** A certificate has a serial number of at most its own key, and later ones have
    greater serial numbers. *)
Definition numbered (c : Cert) (n : Z) : Prop := c_SerialNumber c = Itoa n /\ 0 < n <= c_ID c.
Definition later (a b : Cert) : Prop := exists n m, numbered a n /\ numbered b m /\ n < m.
Definition serials_ok (l : list Cert) : Prop := Forall (fun c => exists n, numbered c n) l /\ StronglySorted later l.

Lemma serials_filter P `{!forall x, Decision (P x)} l : serials_ok l -> serials_ok (filter P l).
Proof.
  intros [Hf Hs]. split; [by apply Forall_filtered|by apply StronglySorted_filtered].
Qed.

Lemma serials_snoc l c n : serials_ok l -> numbered c n -> (forall x, x ∈ l -> c_ID x < n) -> serials_ok (app l [c]).
Proof.
  intros [Hf Hs] Hn Hlt. split; [apply Forall_app; split; [done|]; rewrite Forall_singleton; eauto|].
  induction Hs as [|x l Hs IH Hx]; cbn; [by repeat constructor|]. inversion Hf as [|? ? (m & Hm) Hf']; subst.
  constructor; [apply IH; [done|]; intros y Hy; apply Hlt; by right|]. apply Forall_app. split; [done|]. rewrite Forall_singleton.
  exists m, n. split_and!; [done|done|]. specialize (Hlt x ltac:(left)). destruct Hm as [_ Hm]. lia.
Qed.

(** The serial number [n] is above the keys of the certificates and not above the
    next key. *)
Definition fresh (db : DB) (n : Z) : Prop := 0 < n <= next_id db /\ forall x, x ∈ cert_rows db -> c_ID x < n.

Definition inv (A : Z) (st : DB * option Z) : Prop :=
  serials_ok (cert_rows st.1) /\ Forall (fun c => c_CaID c = A) (cert_rows st.1) /\ forall n, st.2 = Some n -> fresh st.1 n.

Lemma serial_fresh A db ca : alone A db -> read_ca db ca -> Forall (fun c => c_CaID c = A) (cert_rows db) ->
  fresh db (serial_after (last_id db ca)).
Proof.
  intros (Hr & _ & Ha) Hca Hall. assert (Hid := id_range db). unfold last_id. destruct (last_cert db ca) as [x|e] eqn:E; cbn [serial_after].
  - apply last_cert_row in E as [[Hx Hmax] _]. assert (Hu := ids_used _ _ Hx).
    rewrite (wrapU_small 64), (wrapS_small 64) by (unfold is_u, is_s; lia).
    split; [lia|]. intros y Hy. specialize (Hmax y Hy). lia.
  - apply last_cert_fails in E as [E|(x & [Hx _] & Hne)]; [|exfalso|done|done].
    + split; [lia|]. rewrite E. intros y Hy. by apply not_elem_of_nil in Hy.
    + rewrite Forall_forall in Hall. by rewrite (Hall x Hx), (Ha ca Hca) in Hne.
Qed.

(** What the operations do to the rows. *)
Definition issued (db db' : DB) (n : Z) : Prop :=
  cert_rows db' = cert_rows db \/ exists ca prof row, read_ca db ca /\
    c_SerialNumber row = Itoa n /\ cert_rows db' = app (cert_rows db) [stored row (next_id db) (ca_ID ca) (p_ID prof)].

Definition removed (db db' : DB) : Prop :=
  next_id db' = next_id db /\
  (cert_rows db' = cert_rows db \/ exists c, cert_rows db' = filter (fun x => c_ID x <> c_ID c) (cert_rows db)).

Lemma issued_inv A db db' n : alone A db -> inv A (db, None) -> fresh db n -> issued db db' n -> inv A (db', None).
Proof.
  intros (_ & _ & Ha) (Hok & Hall & _) [Hn Hlt] [E|(ca & prof & row & Hca & Hs & E)]; unfold inv; cbn in *; rewrite E; [by split_and!|].
  split_and!; [|apply Forall_app; split; [done|]; rewrite Forall_singleton; by apply Ha|done].
  apply (serials_snoc _ _ n); [done| |done]. split; [done|cbn; lia].
Qed.

Lemma removed_inv A db db' o : inv A (db, o) -> removed db db' -> inv A (db', o).
Proof.
  intros (Hok & Hall & Ho) [Hid Hr]. unfold inv, fresh in *; cbn in *. rewrite Hid. destruct Hr as [->|[c ->]]; [done|].
  split_and!; [by apply serials_filter|by apply Forall_filtered|]. intros n Hn. destruct (Ho n Hn) as [Hle Hlt]. split; [done|].
  intros x [_ Hx]%list_elem_of_filter. by apply Hlt.
Qed.

Lemma step_new_rows A c db db' r : alone A db -> Forall (fun c => c_CaID c = A) (cert_rows db) -> Cert_New c db = (db', r) ->
  exists n, fresh db n /\ issued db db' n.
Proof.
  intros Ha Hall E.
  assert (Hn : (exists ca, any_ca db = inl ca)) by apply Ha. destruct Hn as [ca0 Hca0].
  assert (Hsame : cert_rows db' = cert_rows db -> exists n, fresh db n /\ issued db db' n).
  { intros E'. exists (serial_after (last_id db ca0)). split; [apply (serial_fresh A); [done|by right|done]|by left]. }
  unfold Cert_New, fail_db, fail in E. destruct (first_profile _ _) as [prof|]; [|simplify_eq; auto].
  destruct (first_ca _ _) as [ca|] eqn:Eca; [|simplify_eq; auto].
  assert (Hca : read_ca db ca) by (left; by eexists).
  repeat case_match; simplify_eq; auto.
  all: match goal with
       | H : create_cert _ _ _ _ = (_, Some _) |- _ => apply Hsame; by eapply create_cert_error
       | H : create_cert _ ?ca ?prof ?row = _ |- _ =>
           exists (serial_after (last_id db ca)); split; [by apply (serial_fresh A)|right; exists ca, prof, row];
           apply create_cert_rows in H as [H _]; by split_and!
       end.
Qed.

Lemma scep_ca_read A db prof : alone A db -> read_ca db (scep_ca db prof).
Proof.
  intros (_ & [ca Hca] & _). unfold scep_ca. destruct (first_ca db (p_CaID prof)) eqn:E; [left; by eexists|].
  rewrite Hca. by right.
Qed.

Lemma serial_is_fresh A options db n : alone A db -> Forall (fun c => c_CaID c = A) (cert_rows db) ->
  Serial db options = Ret (inl n) -> fresh db n.
Proof.
  intros Ha Hall. unfold Serial. destruct (FindSCEPProfile db options) as [[prof|e]|m]; cbn; [|done|done]. intros [= <-].
  apply (serial_fresh A); [done|by eapply scep_ca_read|done].
Qed.

Lemma step_put_rows A options cn crt db db' r : alone A db -> Put cn crt options db = (db', r) -> issued db db' (sg_Serial crt).
Proof.
  intros Ha. unfold Put. destruct (FindSCEPProfile db options) as [[prof|e]|m]; [|intros [= <- _]; by left|intros [= <- _]; by left].
  destruct (create_cert _ _ _ _) as [db1 [e|]] eqn:E; intros [= <- <-].
  - left. by eapply create_cert_error.
  - right. eexists _, _, _. split; [by eapply scep_ca_read|]. split; [|by eapply create_cert_rows]. done.
Qed.

Lemma step_revoke_rows id reason db db' r : Revoke id reason db = (db', r) -> removed db db'.
Proof.
  unfold Revoke, fail, removed. repeat case_match; intros; simplify_eq; auto.
  all: match goal with H : create_revoked _ _ _ _ = _ |- _ => apply create_revoked_rows in H as (Hc & Hi & _); rewrite <- Hc, <- Hi end.
  - auto.
  - match goal with H : delete_cert _ _ = _ |- _ => apply delete_cert_error in H as [-> ->] end. auto.
  - match goal with H : delete_cert _ _ = _ |- _ => apply delete_cert_rows in H as (-> & _ & ->) end. split; [done|]. right. by eexists.
Qed.

Lemma step_replace_rows cn db db' r : HasCN cn db = (db', r) -> removed db db'.
Proof.
  unfold HasCN. destruct (cert_by_cn db cn) as [certif|e]; [|intros [= <- _]; by split; auto].
  destruct (existsb _ _); [|intros [= <- _]; by split; auto].
  destruct (Revoke _ _ db) as [db1 [x|m]] eqn:E; intros [= <- _]; by eapply step_revoke_rows.
Qed.

Lemma step_inv A st st' : pki_step A st st' -> inv A st -> inv A st'.
Proof.
  intros Hs Hi. destruct Hs as [c db db' r Ha E|options n db Ha E|options cn crt db db' r Ha E|db n|id reason db db' r o E|cn db db' r o E].
  - pose proof Hi as (_ & Hall & _). destruct (step_new_rows A c db db' r Ha Hall E) as (n & Hn & Hi'). by eapply issued_inv.
  - destruct Hi as (Hok & Hall & _). split_and!; [done|done|]. intros m [= <-]. by eapply serial_is_fresh.
  - destruct Hi as (Hok & Hall & Hf). eapply issued_inv; [done|by split_and!|by apply Hf|by eapply step_put_rows].
  - destruct Hi as (Hok & Hall & _). by split_and!.
  - eapply removed_inv; [done|by eapply step_revoke_rows].
  - eapply removed_inv; [done|by eapply step_replace_rows].
Qed.

(** C20.  With a database that answers and has one authority, and when no other
    certificate is issued between the serial number that the SCEP server asks for
    and the certificate that it puts, the certificates that are not revoked have
    distinct serial numbers, however certificates are issued, revoked and
    replaced. *)
Theorem live_serials_are_distinct A db st : cert_rows db = [] -> rtc (pki_step A) (db, None) st ->
  NoDup (c_SerialNumber <$> cert_rows st.1).
Proof.
  intros He Hr. assert (Hok : inv A st).
  { assert (Hok0 : inv A (db, None)) by (unfold inv; cbn; rewrite He; split_and!; [split; constructor|constructor|done]).
    induction Hr as [st|st st1 st' Hs _ IH]; [done|]. by apply IH, (step_inv A st). }
  destruct Hok as ([_ Hs] & _). induction Hs as [|c l _ IH Hc]; [constructor|]. cbn. constructor; [|done].
  intros (x & Hx & Hin)%list_elem_of_fmap. rewrite Forall_forall in Hc. destruct (Hc x Hin) as (n & m & [Hn _] & [Hm _] & Hlt).
  rewrite Hn, Hm in Hx. apply (inj stdpp.pretty.pretty) in Hx. lia.
Qed.

(** C21.  When a revocation succeeds the certificate leaves the table of certificates
    and is in that of the revoked ones with the reason; if no other certificate of
    the authority had its serial number and the database answers, the status of the
    serial number is then that of a revoked one. *)
Theorem revoked_certificate_is_reported id reason db db' info : Revoke id reason db = (db', Ret (info, None)) ->
  exists cert, cert ∈ cert_rows db /\ cert ∉ cert_rows db' /\
    (exists r, r ∈ revoked_rows db' /\ has_serial (c_SerialNumber cert) (c_CaID cert) (r_row r) /\ (r_CRLReason r, false) = Atoi reason) /\
    forall n ca, c_SerialNumber cert = Itoa n -> c_CaID cert = ca_ID ca -> reachable db' ->
      (forall c, c ∈ cert_rows db -> has_serial (c_SerialNumber cert) (c_CaID cert) c -> c = cert) ->
      exists e, getCertificateStatus db' n ca = Some e /\ e_Status e = StatusRevoked.
Proof.
  unfold Revoke, fail. destruct (cert_by_id db id) as [cert|] eqn:Eid; [|done]. destruct (cert_ca db cert) as [ca0|]; [|done].
  destruct (cert_profile db cert) as [prof|]; [|done]. destruct (Atoi reason) as [n0 []]; [done|].
  destruct (create_revoked _ _ _ _) as [db1 [e|]] eqn:Er; [done|]. destruct (delete_cert db1 cert) as [db2 [e|]] eqn:Ed; [done|].
  intros [= -> _]. apply create_revoked_rows in Er as (Hc1 & _ & Hr1). destruct (Hr1 eq_refl) as [rid Hr]. apply delete_cert_rows in Ed as (Hc2 & Hr2 & _).
  rewrite Hc1 in Hc2. rewrite Hr in Hr2. apply cert_by_id_row in Eid. exists cert. split_and!; [done| | |].
  - rewrite Hc2. intros [[]%(fun H => H eq_refl) _]%list_elem_of_filter.
  - eexists. split; [rewrite Hr2; apply elem_of_app; right; left|]. done.
  - intros n ca Hn Hca Hup Huniq. unfold getCertificateStatus. destruct (cert_by_serial _ _ _) as [x|e] eqn:Es.
    + exfalso. apply cert_by_serial_row in Es as [Hx Hs]. rewrite <- Hn, <- Hca in Hs. rewrite Hc2 in Hx.
      apply list_elem_of_filter in Hx as [Hne Hx]. by rewrite (Huniq x Hx Hs) in Hne.
    + destruct (revoked_by_serial _ _ _) as [x|e'] eqn:Ev; [eauto|]. exfalso. apply revoked_by_serial_none in Ev; [|done].
      rewrite Hr2, Forall_app, Forall_singleton in Ev. destruct Ev as [_ Ev]. apply Ev. split; [done|]. by rewrite <- Hca.
Qed.

(** The authority of a status request. *)
Lemma issuer_found db nameHash keyHash ca : verifyIssuer db nameHash keyHash = inl ca ->
  ca ∈ ca_rows db /\ (hex nameHash <> EmptyString -> IssuerNameHash ca = hex nameHash) /\
  (hex keyHash <> EmptyString -> IssuerKeyHash ca = hex keyHash).
Proof.
  unfold verifyIssuer. destruct (ca_by_name_hash _ _) as [ca0|] eqn:E0; [|done]. destruct (ca_by_key_hash _ _ _) as [ca1|] eqn:E1; [|done].
  intros [= <-]. apply ca_by_name_hash_row in E0 as [Hin0 Hn]. apply ca_by_key_hash_row in E1 as (Hin1 & Hid & Hk).
  destruct (ca_keys db ca0 ca1 Hin0 Hin1) as [Hpos Heq]. rewrite <- Heq by (rewrite Hid; [done|lia]). split_and!; [done|done|].
  rewrite Heq; [done|]. rewrite Hid; [done|lia].
Qed.
End Serials.

(** ** A database in memory

    The keys of the certificates are the places of a list of slots; a row that is
    deleted leaves its slot empty.  A full table refuses rows. *)
Module MemPki.
Record MemDB := mkMem { m_cas : list CA; m_profiles : list Profile; m_slots : list (option Cert); m_revoked : list RevokedCert }.

Fixpoint rows_from (id : Z) (slots : list (option Cert)) : list Cert :=
  match slots with
  | [] => []
  | o :: l =>
      if decide (2 ^ 32 <= id) then []
      else app (match o with Some c => [stored c id (c_CaID c) (c_ProfileID c)] | None => [] end) (rows_from (id + 1) l)
  end.

Definition rows (db : MemDB) : list Cert := rows_from 1 (m_slots db).
Definition next (db : MemDB) : Z := Z.min (1 + Z.of_nat (length (m_slots db))) (2 ^ 32).

Definition not_found : string := "record not found".
Definition found {A} (l : list A) : res A := match l with x :: _ => inl x | [] => inr not_found end.
Definition where_ {A} (p : A -> bool) (l : list A) : list A := List.filter p l.
Definition same (a b : string) : bool := bool_decide (a = b).

Fixpoint clear (id key : Z) (slots : list (option Cert)) : list (option Cert) :=
  match slots with
  | [] => []
  | o :: l => (if decide (id = key) then None else o) :: clear (id + 1) key l
  end.

Definition set_ca_id (c : CA) (id : Z) : CA :=
  mkCA id (ca_Cn c) (ca_Addr c) (ca_KeyType c) (ca_KeySize c) (ca_Digest c) (ca_KeyUsage c) (ca_ExtendedKeyUsage c) (ca_Days c) (ca_Key c)
    (ca_Cert c) (IssuerKeyHash c) (IssuerNameHash c) (ca_OCSPUrl c).
Definition cas (db : MemDB) : list CA := imap (fun i c => set_ca_id c (Z.of_nat i + 1)) (m_cas db).

(** An empty text is no condition. *)
Definition same_or_empty (a b : string) : bool := same b EmptyString || same a b.

Definition put_slots (db : MemDB) (l : list (option Cert)) : MemDB := mkMem (m_cas db) (m_profiles db) l (m_revoked db).

#[local] Instance mem_gorm : Gorm MemDB := {|
  first_profile db id := found (where_ (fun p => bool_decide (p_ID p = id)) (m_profiles db));
  profiles_named db n := inl (where_ (fun p => same (p_Name p) n) (m_profiles db));
  profile_by_name db n := found (where_ (fun p => same (p_Name p) n) (m_profiles db));
  scep_profiles db := where_ (fun p => bool_decide (SCEPEnabled p = 1)) (m_profiles db);
  first_ca db id := found (where_ (fun c => bool_decide (ca_ID c = id)) (cas db));
  any_ca db := found (cas db);
  last_ca db := found (reverse (cas db));
  ca_by_name_hash db h := found (where_ (fun c => same_or_empty (IssuerNameHash c) h) (cas db));
  ca_by_key_hash db ca h := found (where_ (fun c => bool_decide (ca_ID c = ca_ID ca) && same_or_empty (IssuerKeyHash c) h) (cas db));
  last_cert db ca :=
    match last (rows db) with
    | Some c => if decide (ca_ID ca = 0 \/ c_CaID c = ca_ID ca) then inl c else inr not_found
    | None => inr not_found
    end;
  first_cert db _ v := found (where_ (fun c => same (Itoa (c_ID c)) v) (rows db));
  cert_by_id db v := found (where_ (fun c => same (Itoa (c_ID c)) v) (rows db));
  cert_by_cn db v := found (where_ (fun c => same (c_Cn c) v) (rows db));
  cert_by_serial db s ca := found (where_ (fun c => same (c_SerialNumber c) s && bool_decide (c_CaID c = ca)) (rows db));
  revoked_by_serial db s ca := found (where_ (fun r => same (c_SerialNumber (r_row r)) s && bool_decide (c_CaID (r_row r) = ca)) (m_revoked db));
  cert_ca db c := found (where_ (fun x => bool_decide (ca_ID x = c_CaID c)) (cas db));
  cert_profile db c := found (where_ (fun x => bool_decide (p_ID x = c_ProfileID c)) (m_profiles db));
  create_ca db c := (mkMem (app (m_cas db) [c]) (m_profiles db) (m_slots db) (m_revoked db), None);
  create_profile db p := (mkMem (m_cas db) (app (m_profiles db) [p]) (m_slots db) (m_revoked db), None);
  update_profile db _ := (db, None);
  create_cert db ca prof c :=
    if decide (2 ^ 32 <= 1 + Z.of_nat (length (m_slots db))) then (db, Some "table is full"%string)
    else (put_slots db (app (m_slots db) [Some (stored c 0 (ca_ID ca) (p_ID prof))]), None);
  create_revoked db _ _ r :=
    (mkMem (m_cas db) (m_profiles db) (m_slots db) (app (m_revoked db) [stored_revoked r (1 + Z.of_nat (length (m_revoked db)))]), None);
  delete_cert db c := (put_slots db (clear 1 (c_ID c) (m_slots db)), None);
  all_cas db := cas db;
  save_ca db _ := db;
  cas_by db _ v := where_ (fun c => same (ca_Cn c) v) (cas db);
  profiles_by db _ v := where_ (fun p => same (p_Name p) v) (m_profiles db);
  certs_by db _ v := where_ (fun c => same (c_Cn c) v) (rows db);
  revoked_by db _ v := where_ (fun c => same (c_Cn (r_row c)) v) (m_revoked db);
  count_cas db _ := Z.of_nat (length (m_cas db));
  count_profiles db _ := Z.of_nat (length (m_profiles db));
  count_certs db _ := Z.of_nat (length (rows db));
  find_cas db _ := cas db;
  find_profiles db _ := m_profiles db;
  find_certs db _ := rows db;
  find_revoked db _ := m_revoked db
|}.

Lemma rows_from_ids id slots c : 0 < id -> c ∈ rows_from id slots -> id <= c_ID c < Z.min (id + Z.of_nat (length slots)) (2 ^ 32).
Proof.
  revert id. induction slots as [|o l IH]; intros id Hid; cbn [rows_from length]; [set_solver|].
  case_decide; [set_solver|]. intros [Hc|Hc]%elem_of_app.
  - destruct o; [|set_solver]. apply list_elem_of_singleton in Hc as ->. cbn. lia.
  - specialize (IH (id + 1) ltac:(lia) Hc). lia.
Qed.

Lemma rows_from_app id slots o : 0 < id -> id + Z.of_nat (length slots) < 2 ^ 32 ->
  rows_from id (app slots [Some o]) = app (rows_from id slots) [stored o (id + Z.of_nat (length slots)) (c_CaID o) (c_ProfileID o)].
Proof.
  revert id. induction slots as [|o' l IH]; intros id Hid Hlt; cbn [rows_from app length] in *.
  - rewrite decide_False by lia. cbn. by rewrite Z.add_0_r.
  - rewrite !decide_False by lia. rewrite IH by lia. rewrite app_assoc. do 3 f_equal. lia.
Qed.

Lemma rows_from_clear id key slots : 0 < id -> rows_from id (clear id key slots) = filter (fun x => c_ID x <> key) (rows_from id slots).
Proof.
  revert id. induction slots as [|o l IH]; intros id Hid; cbn [rows_from clear]; [done|].
  destruct (decide (2 ^ 32 <= id)); [done|]. rewrite IH by lia. rewrite filter_app. f_equal.
  destruct (decide (id = key)) as [->|Hne]; destruct o as [c|]; [by rewrite filter_cons_False by (cbn; tauto)|done|by rewrite filter_cons_True by (cbn; tauto)|done].
Qed.

Lemma rows_sorted id slots : 0 < id -> StronglySorted (fun a b => c_ID a < c_ID b) (rows_from id slots).
Proof.
  revert id. induction slots as [|o l IH]; intros id Hid; cbn [rows_from]; [constructor|]. case_decide; [constructor|].
  specialize (IH (id + 1) ltac:(lia)). destruct o; [|done]. cbn. constructor; [done|]. apply Forall_forall. intros x Hx.
  apply rows_from_ids in Hx; [|lia]. cbn. lia.
Qed.

Lemma found_elem {A} (p : A -> bool) l x : found (where_ p l) = inl x -> x ∈ l /\ p x = true.
Proof.
  unfold found, where_. destruct (List.filter p l) as [|y k] eqn:E; [done|]. intros [= ->].
  assert (Hin : List.In x (List.filter p l)) by (rewrite E; by left). apply filter_In in Hin as [Hin Hp]. by rewrite list_elem_of_In.
Qed.

Lemma found_none {A} (p : A -> bool) l e : found (where_ p l) = inr e -> Forall (fun x => p x = false) l.
Proof.
  unfold found, where_. destruct (List.filter p l) as [|y k] eqn:E; [|done]. intros _. apply Forall_forall. intros x Hx%list_elem_of_In.
  destruct (p x) eqn:Ep; [|done]. assert (Hin : List.In x (List.filter p l)) by (by apply filter_In). by rewrite E in Hin.
Qed.

Lemma last_sorted (l : list Cert) c : StronglySorted (fun a b => c_ID a < c_ID b) l -> last l = Some c ->
  c ∈ l /\ forall c', c' ∈ l -> c_ID c' <= c_ID c.
Proof.
  induction 1 as [|x l Hs IH Hx]; [done|]. destruct l as [|y l]; cbn [last].
  - intros [= <-]. split; [left|]. intros c' ->%list_elem_of_singleton. lia.
  - intros Hl. destruct (IH Hl) as [Hin Hmax]. split; [by right|]. intros c' [->|Hc]%elem_of_cons; [|by apply Hmax].
    rewrite Forall_forall in Hx. specialize (Hx c Hin). cbn in Hx. lia.
Qed.

Lemma length_clear id key slots : length (clear id key slots) = length slots.
Proof. revert id. induction slots as [|o l IH]; intros id; cbn; [done|]. by rewrite IH. Qed.

#[local] Instance mem_laws : GormLaws MemDB.
Proof.
  refine {| cert_rows := rows; revoked_rows := m_revoked; ca_rows := cas; next_id := next; reachable := fun _ => True |}.
  - intros db c Hc. apply rows_from_ids in Hc; [unfold next; lia|lia].
  - intros db. unfold next. lia.
  - intros db ca c. cbn. destruct (last (rows db)) eqn:E; [|done]. case_decide; [|done]. intros [= ->].
    split; [apply last_sorted; [by apply rows_sorted|done]|tauto].
  - intros db ca e _ _. cbn. destruct (last (rows db)) as [c|] eqn:E; [|intros _; left; by apply last_None in E].
    case_decide; [done|]. intros _. right. exists c. split; [apply last_sorted; [by apply rows_sorted|done]|tauto].
  - intros db id c Hf. by apply found_elem in Hf as [? _].
  - intros db ca prof c db'. cbn. case_decide; [done|]. intros [= <-]. split; [|done]. unfold rows, next. cbn.
    rewrite rows_from_app by lia. by rewrite Z.min_l by lia.
  - intros db ca prof c db' e. cbn. case_decide; [|done]. by intros [= <- _].
  - intros db ca prof r db' err [= <- <-]. split_and!; [done|done|]. intros _. by eexists.
  - intros db c db' [= <-]. split_and!; [unfold rows; cbn; by apply rows_from_clear|done|]. unfold next. cbn. by rewrite length_clear.
  - intros db c db' e. done.
  - intros db s ca c Hf. apply found_elem in Hf as [Hin Hp]. unfold same, has_serial in *.
    rewrite andb_true_iff, !bool_decide_eq_true in Hp. done.
  - intros db s ca e _ Hf. apply found_none in Hf. eapply Forall_impl; [exact Hf|]. intros r Hr [Hs Hc].
    unfold same in Hr. rewrite !bool_decide_true in Hr by done. done.
  - intros db s ca e _ Hf. apply found_none in Hf. eapply Forall_impl; [exact Hf|]. intros r Hr [Hs Hc].
    unfold same in Hr. rewrite !bool_decide_true in Hr by done. done.
  - intros db s ca c Hf. apply found_elem in Hf as [Hin Hp]. unfold same, has_serial in *.
    rewrite andb_true_iff, !bool_decide_eq_true in Hp. done.
  - intros db a b Ha Hb. apply elem_of_lookup_imap in Ha as (i & x & -> & Hi), Hb as (j & y & -> & Hj). cbn. split; [lia|].
    intros E. assert (i = j) as -> by lia. congruence.
  - intros db h ca Hf. apply found_elem in Hf as [Hin Hp]. split; [done|]. intros Hh. unfold same_or_empty, same in Hp.
    rewrite orb_true_iff, !bool_decide_eq_true in Hp. by destruct Hp.
  - intros db ca h ca' Hf. apply found_elem in Hf as [Hin Hp]. unfold same_or_empty, same in Hp.
    rewrite andb_true_iff, orb_true_iff, !bool_decide_eq_true in Hp. destruct Hp as [Hid Hp]. split_and!; [done|done|]. intros Hh. by destruct Hp.
Defined.

(** ** Examples *)

Definition key_of (size : Z) : res (string * string * string) := inl ("key"%string, "pub"%string, "priv"%string).

#[local] Instance demo_crypto : Crypto := {|
  PubKey := string; PrivKey := string; X509 := string;
  rsa_key := key_of; ecdsa_key := key_of; dsa_key := key_of;
  CalculateSKID o := match o with Some k => inl k | None => inr "unsupported key"%string end;
  sign t _ _ _ := inl (CommonName (t_Subject t));
  pem_encode b := b; key_pair a b := inl (a, b); parse_cert c := inl c; raw_issuer_hash c := c; pem_certs c := [c]; cert_key c := c;
  not_after _ := 1000; hex x := x; pkcs12 _ c _ _ := inl c; load_key k := inl k; parse_rsa_key k := inl k;
  random_password := "secret"%string; AddDays t d := t + 86400 * d; ip6 _ := []; now := 1000
|}.

Definition demo_ca : CA := mkCA 1 "ca" no_addr (Some KEY_RSA) 2048 4 (Some "1"%string) (Some "2"%string) 3650 "k" "c" "kh" "nh" EmptyString.
Definition demo_profile : Profile :=
  mkProfile 1 "prof" no_addr 1 "ca" 365 (Some KEY_RSA) 2048 4 (Some "1|4"%string) (Some "2"%string) EmptyString 0 EmptyString EmptyString
    EmptyString EmptyString 1 EmptyString 14 0 EmptyString.
Definition db0 : MemDB := mkMem [demo_ca] [demo_profile] [] [].
Definition ask (cn : string) : Cert :=
  mkCert 0 cn (mkAddr "a@b.org" EmptyString EmptyString EmptyString EmptyString "Nice" EmptyString "06000") 0 EmptyString EmptyString EmptyString 1 EmptyString 0 0 EmptyString EmptyString
    EmptyString.

Definition db1 : MemDB := (Cert_New (ask "alice") db0).1.
Definition db2 : MemDB := (Cert_New (ask "bob") db1).1.
Definition db3 : MemDB := (Revoke "2" "1" db2).1.
Definition db4 : MemDB := (Cert_New (ask "carol") db3).1.

Definition status (db : MemDB) (n : Z) : option cert_status := e_Status <$> getCertificateStatus db n demo_ca.

Definition by_scep (n : Z) : Signed := mkSigned (fun _ => EmptyString) n "raw" 2000.
Definition db6 : MemDB := (Put "dave" (by_scep 4) [] db4).1.

Lemma one_authority db : m_cas db = [demo_ca] -> alone 1 db.
Proof.
  intros E. assert (Ec : cas db = [demo_ca]) by (unfold cas; by rewrite E).
  split; [exact I|]. split; [exists demo_ca; cbn; by rewrite Ec|]. intros ca [[id Hca]|Hca]; cbn in Hca; rewrite Ec in Hca.
  - apply found_elem in Hca as [->%list_elem_of_singleton _]. done.
  - by injection Hca as <-.
Qed.

Lemma live_serials_are_distinct_witness : rtc (pki_step 1) (db0, None) (db6, None) /\ NoDup (c_SerialNumber <$> rows db6).
Proof.
  assert (Hr : rtc (pki_step 1) (db0, None) (db6, None)).
  { apply (rtc_l _ _ (db1, None)); [apply (step_new _ (ask "alice") _ _ (Cert_New (ask "alice") db0).2); [by apply one_authority|vm_compute; reflexivity]|].
    apply (rtc_l _ _ (db2, None)); [apply (step_new _ (ask "bob") _ _ (Cert_New (ask "bob") db1).2); [by apply one_authority|vm_compute; reflexivity]|].
    apply (rtc_l _ _ (db3, None)); [apply (step_revoke _ "2" "1" _ _ (Revoke "2" "1" db2).2); vm_compute; reflexivity|].
    apply (rtc_l _ _ (db4, None)); [apply (step_new _ (ask "carol") _ _ (Cert_New (ask "carol") db3).2); [by apply one_authority|vm_compute; reflexivity]|].
    apply (rtc_l _ _ (db4, Some 4)); [apply (step_serial _ []); [by apply one_authority|vm_compute; reflexivity]|].
    apply rtc_once, (step_put _ [] "dave" (by_scep 4) _ _ (Put "dave" (by_scep 4) [] db4).2); [by apply one_authority|vm_compute; reflexivity]. }
  split; [exact Hr|]. exact (live_serials_are_distinct 1 db0 (db6, None) (ltac:(reflexivity) : rows db0 = []) Hr).
Defined.

(** With two authorities that issue in turn, each one gives the serial number 1
    again: two live certificates of the first authority have it. *)
Definition other_ca : CA := mkCA 2 "ca2" no_addr (Some KEY_RSA) 2048 4 (Some "1"%string) (Some "2"%string) 3650 "k" "c" "kh" "nh2" EmptyString.
Definition other_profile : Profile :=
  mkProfile 2 "prof2" no_addr 2 "ca2" 365 (Some KEY_RSA) 2048 4 (Some "1|4"%string) (Some "2"%string) EmptyString 0 EmptyString EmptyString
    EmptyString EmptyString 1 EmptyString 14 0 EmptyString.
Definition ask2 (cn : string) : Cert :=
  mkCert 0 cn no_addr 0 EmptyString EmptyString EmptyString 2 EmptyString 0 0 EmptyString EmptyString EmptyString.
Definition two_cas : MemDB := mkMem [demo_ca; other_ca] [demo_profile; other_profile] [] [].
Definition in_turn : MemDB := (Cert_New (ask "carol") (Cert_New (ask2 "bob") (Cert_New (ask "alice") two_cas).1).1).1.
Example two_authorities_share_serials :
  (fun c => (c_Cn c, c_CaID c, c_SerialNumber c)) <$> rows in_turn = [("alice", 1, "1"); ("bob", 2, "1"); ("carol", 1, "1")]%string.
Proof. vm_compute. reflexivity. Qed.

(** Two requests that the SCEP server handles at the same time get the same serial
    number. *)
Example requests_at_once_share_serials :
  Serial db0 [] = Ret (inl 1) /\
  c_SerialNumber <$> rows (Put "bob" (by_scep 1) [] (Put "alice" (by_scep 1) [] db0).1).1 = ["1"; "1"]%string.
Proof. vm_compute. split; reflexivity. Qed.

Lemma revoked_certificate_is_reported_witness : exists e, getCertificateStatus db3 2 demo_ca = Some e /\ e_Status e = StatusRevoked.
Proof.
  assert (H : Revoke "2" "1" db2 = (db3, Ret (no_info, None))) by (vm_compute; reflexivity).
  destruct (revoked_certificate_is_reported "2" "1" db2 db3 no_info H) as (cert & Hin & Hnot & _ & Hst).
  assert (Hall : cert_rows db2 = [stored (r_row (mkRevoked (List.nth 0 (rows db2) no_cert) 0 0)) 1 1 1; List.nth 1 (rows db2) no_cert])
    by (vm_compute; reflexivity).
  rewrite Hall in Hin. apply elem_of_cons in Hin as [-> | ->%list_elem_of_singleton].
  - exfalso. apply Hnot. vm_compute. left.
  - apply Hst; [vm_compute; reflexivity|vm_compute; reflexivity|exact I|]. intros c Hc Hs. rewrite Hall in Hc.
    apply elem_of_cons in Hc as [-> | ->%list_elem_of_singleton]; [|reflexivity]. exfalso. destruct Hs as [Hs _]. vm_compute in Hs. discriminate.
Defined.

(** The serial number after the newest certificate is used again once that is
    revoked: the certificate of carol gets the number of the revoked one, whose
    status is then that of a valid certificate. *)
Example revoked_serial_is_valid_again :
  status db2 2 = Some StatusValid /\ status db3 2 = Some StatusRevoked /\ status db4 2 = Some StatusValid /\
  (c_SerialNumber <$> rows db4) = ["1"; "2"]%string /\ ((fun r => c_SerialNumber (r_row r)) <$> m_revoked db4) = ["2"%string].
Proof. vm_compute. repeat split; reflexivity. Qed.

(** The postal code of a revoked certificate is lost. *)
Example revoked_postal_code : ((fun r => PostalCode (c_Addr (r_row r))) <$> m_revoked db3) = ["Nice"%string].
Proof. vm_compute. reflexivity. Qed.

(** Once all certificates are revoked the list of revoked certificates is empty. *)
Definition page : Vars := mkVars 0 10 [] [] (mkSearch EmptyString EmptyString JNil None).
Definition db5 : MemDB := (Revoke "1" "1" (Revoke "3" "1" db4).1).1.
Example revoked_list_is_empty :
  (match Revoked_Paginated db5 page with Ret (i, None) => (Entries i, TotalCount i) | _ => (ENone, -1) end) = (ENone, 0) /\
  length (m_revoked db5) = 3%nat.
Proof. vm_compute. split; reflexivity. Qed.

(** Without a limit in the request a page has one hundred rows, but the next
    cursor is the cursor of the request. *)
Example next_cursor_stays :
  (match Cert_Paginated db4 (mkVars 0 0 [] [] (mkSearch EmptyString EmptyString JNil None)) with Ret (i, None) => NextCursor i | _ => -1 end) = 0.
Proof. vm_compute. reflexivity. Qed.

(** A footer without a header is replaced by the default text. *)
Example footer_needs_header profile alerting cert file password : P12MailHeader profile = EmptyString ->
  m_Footer (message alerting cert profile file password) = "msg_footer"%string.
Proof. intros Hh. unfold message. cbn. by rewrite bool_decide_true. Qed.
End MemPki.

(** A profile is created only with a size of key that keys are generated for. *)
Lemma profile_keys_are_generated `{Crypto} kt size : check_key kt size = None ->
  GenerateKey kt size = match (if decide (kt = KEY_RSA) then rsa_key size else if decide (kt = KEY_ECDSA) then ecdsa_key size else dsa_key size) with
                        | inl (out, pub, key) => inl (out, Some pub, Some key)
                        | inr e => inr e
                        end.
Proof. unfold check_key, GenerateKey. repeat case_decide; try done; set_solver. Qed.
