(* ===== verification/PkiService.v ===== *)
(** The service of the public key infrastructure: the OCSP responder
    (src/go/caddy/pfpki/ocspresponder), the handlers of the API
    (src/go/caddy/pfpki/handlers) and what the SCEP server is set up with
    (src/go/caddy/pfpki/scep).

    A handler gets the parts of a request that it looks at, decoded or with the
    error of their decoding. *)
From S2P Require Import Prelude PkiSql Ocsp Pki.
From Stdlib Require Import ZArith Lia Ascii.
From stdpp Require Import base gmap strings list.

Open Scope Z_scope.

(** ** The OCSP responder *)

Definition nonce_oid : oid := [1; 3; 6; 1; 5; 5; 7; 48; 1; 2].

Definition checkForNonceExtension (exts : list extension) : option extension :=
  List.find (fun ext => bool_decide (ext_Id ext = nonce_oid)) exts.

Definition nonce_used : string := "This nonce has already been used".

(** The nonces that were seen: [None] is the nil slice, which becomes a slice of
    ten empty ones. *)
Definition check_nonce (NonceList : option (list string)) (nonce : option extension) : res (list string) :=
  let l := default (replicate 10 EmptyString) NonceList in
  match nonce with
  | None => inl l
  | Some ext => if decide (ext_Value ext ∈ l) then inr nonce_used else inl (app l [ext_Value ext])
  end.

Section Responder.
Context {DB : Type} `{Gorm DB} `{Crypto} `{Keys}.

(** The certificate of the authority, the certificate of its key pair and its
    key as a signer, from the texts of the table. *)
Context (ParseCertFile : string -> res Certificate) (key_cert : string -> string -> res Certificate) (signer : string -> option Signer).

Definition day : Z := 86400.

(** The status of the entry: an expired certificate is not told from a good one. *)
Definition ocsp_status (ent : IndexEntry) : Z * Z * Z :=
  match e_Status ent with
  | StatusRevoked => (Revoked, e_RevocationTime ent, e_Reason ent)
  | _ => (Good, 0, Unspecified)
  end.

(** The entry is used although there may be none. *)
Definition Verify (rawreq : Der) (NonceList : option (list string)) (db : DB) : option (list string) * go (res Der) :=
  match ParseRequest rawreq with
  | inr e => (NonceList, Ret (inr e))
  | inl (req, exts) =>
      match verifyIssuer db (q_IssuerNameHash req) (q_IssuerKeyHash req) with
      | inr e => (NonceList, Ret (inr e))
      | inl ca =>
          match getCertificateStatus db (q_SerialNumber req) ca with
          | None => (NonceList, Panic nil_dereference)
          | Some ent =>
              let '(status, revokedAt, reason) := ocsp_status ent in
              match ParseCertFile (ca_Cert ca), key_cert (ca_Cert ca) (ca_Key ca), signer (ca_Key ca) with
              | inr e, _, _ | _, inr e, _ => (NonceList, Ret (inr e))
              | _, _, None => (NonceList, Ret (inr "Could not make key a signer"%string))
              | inl cacert, inl keyi, Some key =>
                  match check_nonce NonceList (checkForNonceExtension exts) with
                  | inr e => (Some (default (replicate 10 EmptyString) NonceList), Ret (inr e))
                  | inl nonces =>
                      let rtemplate := Ocsp.mkTemplate status (q_SerialNumber req) (now - day) (now + day) revokedAt reason (Some keyi) 0
                                         (q_HashAlgorithm req) exts [] in
                      (Some nonces, Ret (CreateResponse cacert cacert rtemplate key))
                  end
              end
          end
      end
  end.

(** ** Answers *)

Record http_reply := mkReply { h_Code : Z; h_ContentType : string; h_Der : option Der }.

Definition ocsp_type : string := "application/ocsp-request".

(** ManageOcsp: [path] is the decoded path of a GET request, which starts with the
    route; the responder is a new one for each request. *)
Definition ManageOcsp (contentType method : string) (body : Der) (path : res Der) (db : DB) : go http_reply :=
  let bad := Ret (mkReply 400 EmptyString None) in
  if decide (contentType <> ocsp_type) then bad
  else
    match (if decide (method = "POST"%string) then Some body
           else if decide (method = "GET"%string) then match path with inl d => Some d | inr _ => None end else None) with
    | None => bad
    | Some b =>
        (x <-! (Verify b None db).2 ;;
         match x with
         | inr _ => Ret (mkReply 400 "application/ocsp-response" None)
         | inl der => Ret (mkReply 200 "application/ocsp-response" (Some der))
         end)%go
    end.
End Responder.

(** ** Handlers *)

Record Errors := mkErrors { er_Message : string; er_Status : Z }.
Definition no_errors : Errors := mkErrors EmptyString 0.

(** What is written: the error, the file of a certificate, or the information. *)
Inductive body := BError (e : Errors) | BFile (raw : string) | BInfo (i : Info).
Record answer := mkAnswer { a_Code : Z; a_Body : body }.

(** The status of the information is not the status of the answer. *)
Definition manageAnswer (i : Info) (e : Errors) : answer :=
  if decide (er_Status e <> 0) then mkAnswer (er_Status e) (BError e)
  else if decide (ContentType i = "application/x-pkcs12"%string) then mkAnswer 200 (BFile (Raw i))
  else
    mkAnswer 200 (BInfo (mkInfo (Status i) (Password i) (i_Error i) "application/json; charset=UTF-8" (Raw i) (Entries i) (NextCursor i)
                           (PrevCursor i) (TotalCount i))).

Definition set_status (i : Info) (code : Z) : Info :=
  mkInfo code (Password i) (i_Error i) (ContentType i) (Raw i) (Entries i) (NextCursor i) (PrevCursor i) (TotalCount i).

Definition with_error (e : error) (code : Z) (old : Errors) : Errors := match e with Some m => mkErrors m code | None => old end.

Definition not_supported (method : string) : Errors := mkErrors ("Method " +:+ method +:+ " not supported")%string 405.

Section Handlers.
Context {DB : Type} `{Gorm DB} `{Crypto}.

(** An operation of a model: its error replaces an error of the request. *)
Definition finish (old : Errors) (ok failed : Z) (op : gst DB (Info * error)) : gst DB answer :=
  (x <-- op ;; gst_ret (manageAnswer (set_status x.1 ok) (with_error x.2 failed old)))%go.

Definition read_op (f : DB -> go (Info * error)) : gst DB (Info * error) := fun db => (db, f db).

Definition refuse (method : string) : gst DB answer := gst_ret (manageAnswer no_info (not_supported method)).

(** The body of a search; the page of a list. *)
Definition search_with (vars : Vars * error) (search : DB -> Vars -> go (Info * error)) : gst DB answer :=
  finish (with_error vars.2 500 no_errors) 200 404 (read_op (fun db => search db vars.1)).

Definition list_with (decoded : Vars * error) (page : DB -> Vars -> go (Info * error)) : gst DB answer :=
  let vars := DecodeUrlQuery decoded in
  finish (with_error vars.2 500 no_errors) 200 500 (read_op (fun db => page db vars.1)).

(** The body of a request that creates or changes a row: what was decoded of it
    and the error. *)
Definition save_with {A} (decoded : A * error) (ok : Z) (op : A -> gst DB (Info * error)) : gst DB answer :=
  finish (with_error decoded.2 500 no_errors) ok 422 (op decoded.1).

Definition show_with (info : DB -> Info) : gst DB answer := finish no_errors 200 404 (read_op (fun db => Ret (info db, None))).

(** Another method than POST is answered with 200: only the information has the
    status. *)
Definition SearchCA (method : string) (vars : Vars * error) : gst DB answer :=
  if decide (method = "POST"%string) then search_with vars CA_Search else gst_ret (manageAnswer (set_status no_info 405) no_errors).

Definition GetSetCA (method : string) (query : Vars * error) (o : CA * error) : gst DB answer :=
  if decide (method = "GET"%string) then list_with query CA_Paginated
  else if decide (method = "POST"%string) then save_with o 201 CA_New
  else refuse method.

Definition GetCAByID (method : string) (id : option string) : gst DB answer :=
  if decide (method = "GET"%string) then show_with (fun db => CA_GetByID db id) else refuse method.

Definition FixCA : gst DB answer := finish no_errors 200 404 CA_Fix.

Definition GetSetProfile (method : string) (query : Vars * error) (o : Profile * error) : gst DB answer :=
  if decide (method = "GET"%string) then list_with query Profile_Paginated
  else if decide (method = "POST"%string) then save_with o 201 Profile_New
  else refuse method.

Definition SearchProfile (method : string) (vars : Vars * error) : gst DB answer :=
  if decide (method = "POST"%string) then search_with vars Profile_Search else refuse method.

Definition GetProfileByID (method : string) (id : option string) (o : Profile * error) : gst DB answer :=
  if decide (method = "GET"%string) then show_with (fun db => Profile_GetByID db id)
  else if decide (method = "PATCH"%string) then save_with o 200 Profile_Update
  else refuse method.

Definition GetSetCert (method : string) (query : Vars * error) (o : Cert * error) : gst DB answer :=
  if decide (method = "GET"%string) then list_with query Cert_Paginated
  else if decide (method = "POST"%string) then save_with o 201 Cert_New
  else refuse method.

Definition SearchCert (method : string) (vars : Vars * error) : gst DB answer :=
  if decide (method = "POST"%string) then search_with vars Cert_Search else refuse method.

Definition GetCertByID (method : string) (id cn : option string) : gst DB answer :=
  if decide (method = "GET"%string) then show_with (fun db => Cert_GetByID db id cn) else refuse method.

(** ^[0-9]+$ *)
Fixpoint all_digits (s : string) : bool :=
  match s with EmptyString => true | String c s' => bool_decide (digit c <> None) && all_digits s' end.

Definition is_number (s : string) : bool := bool_decide (s <> EmptyString) && all_digits s.

(** A number is an id, another text the name of a certificate. *)
Definition id_or_cn (id cn : option string) : option string * option string :=
  if is_number (default EmptyString id) then (id, None) else (None, Some (default EmptyString id)).

Context (mail : Cert -> Profile -> string -> string -> go (Info * error)).

Definition DownloadCert (method : string) (id cn password : option string) : gst DB answer :=
  let '(id, cn) := id_or_cn id cn in
  if decide (method = "GET"%string) then finish no_errors 200 404 (read_op (Download mail id cn password)) else refuse method.

Definition EmailCert (method : string) (id cn password : option string) : gst DB answer :=
  if decide (method = "GET"%string) then finish no_errors 200 404 (read_op (Download mail id cn password)) else refuse method.

(** The name is not used by the revocation. *)
Definition RevokeCert (method : string) (id cn reason : option string) : gst DB answer :=
  let '(id, cn) := id_or_cn id cn in
  if decide (method = "DELETE"%string) then finish no_errors 200 422 (Revoke (default EmptyString id) (default EmptyString reason))
  else refuse method.

Definition GetRevoked (method : string) (query : Vars * error) : gst DB answer :=
  if decide (method = "GET"%string) then list_with query Revoked_Paginated else refuse method.

Definition SearchRevoked (method : string) (vars : Vars * error) : gst DB answer :=
  if decide (method = "POST"%string) then search_with vars Revoked_Search else refuse method.

Definition GetRevokedByID (method : string) (id : option string) : gst DB answer :=
  if decide (method = "GET"%string) then show_with (fun db => Revoked_GetByID db id) else refuse method.
End Handlers.

(** ** The SCEP server *)

Definition attribute (name value : string) (m : gmap string string) : gmap string string :=
  if decide (value = EmptyString) then m else <[name := value]> m.

Definition ProfileAttributes (prof : Profile) : go (gmap string string) :=
  match p_ExtendedKeyUsage prof, p_KeyUsage prof with
  | Some eku, Some ku =>
      let a := p_Addr prof in
      Ret (attribute "Mail" (Mail a) (attribute "OCSPUrl" (p_OCSPUrl prof) (attribute "KeyUsage" ku (attribute "ExtendedKeyUsage" eku
        (attribute "PostalCode" (PostalCode a) (attribute "StreetAddress" (StreetAddress a) (attribute "Locality" (Locality a)
        (attribute "State" (State a) (attribute "Country" (Country a) (attribute "OrganizationalUnit" (OrganisationalUnit a)
        (attribute "Organization" (Organisation a) ∅)))))))))))
  | _, _ => Panic nil_dereference
  end.

(** What the requests of a profile are signed with: [None] is the challenge of a
    profile whose requests the cloud validates. *)
Record signer_config := mkSigner {
  AllowRenewalDays : Z; ValidityDays : Z; sc_Profile : string; Attributes : gmap string string; Challenge : option string
}.

Section Scep.
Context {DB : Type} `{Gorm DB} `{Crypto}.

(** [cloud] is the error of creating the service of the cloud; [None] is a request
    that is not answered. *)
Definition ScepHandler (cloud : string -> error) (id : string) (db : DB) : go (option signer_config) :=
  (ca <-! CA_CA db [id] ;;
   match ca with
   | inr _ | inl (_, inr _) => Ret None
   | inl (_, inl _) =>
       x <-! FindSCEPProfile db [id] ;;
       match x with
       | inr _ => Panic index_panic
       | inl prof =>
           if decide (CloudEnabled prof = 1) then
             match cloud (CloudService prof) with
             | Some _ => Ret None
             | None =>
                 attrs <-! ProfileAttributes prof ;;
                 Ret (Some (mkSigner (SCEPDaysBeforeRenewal prof) (p_Validity prof) id attrs None))
             end
           else
             attrs <-! ProfileAttributes prof ;;
             Ret (Some (mkSigner (SCEPDaysBeforeRenewal prof) (p_Validity prof) id attrs (Some (SCEPChallengePassword prof))))
       end
   end)%go.
End Scep.

(** The attributes of a name: the names that certutils knows, and their values. *)
Definition oid_names : list (string * string) :=
  [("2.5.4.3", "CN"); ("2.5.4.4", "SN"); ("2.5.4.5", "serialNumber"); ("2.5.4.6", "C"); ("2.5.4.7", "L"); ("2.5.4.8", "ST");
   ("2.5.4.9", "streetAddress"); ("2.5.4.10", "O"); ("2.5.4.11", "OU"); ("2.5.4.12", "title"); ("2.5.4.17", "postalCode"); ("2.5.4.42", "GN");
   ("2.5.4.43", "initials"); ("2.5.4.44", "generationQualifier"); ("2.5.4.46", "dnQualifier"); ("2.5.4.65", "pseudonym");
   ("0.9.2342.19200300.100.1.25", "DC"); ("1.2.840.113549.1.9.1", "emailAddress"); ("0.9.2342.19200300.100.1.1", "userid")]%string.

(** The parts of the name in order, [None] for a value that is not a text. *)
Definition GetDNFromCert (namespace : list (list (string * option string))) : gmap string string :=
  fold_left (fun m i =>
    match i.2, List.find (fun o => bool_decide (o.1 = i.1)) oid_names with
    | Some v, Some (_, name) => <[name := v]> m
    | _, _ => m
    end) (concat namespace) (list_to_map ((fun o => (o.2, EmptyString)) <$> oid_names)).

(** ** What a client reads *)

Section Client.
Context {DB : Type} `{GormLaws DB} `{Crypto} `{MessageLaws}.
Context (ParseCertFile : string -> res Certificate) (key_cert : string -> string -> res Certificate) (signer : string -> option Signer).

Lemma ParseRequest_hash raw req exts : ParseRequest raw = inl (req, exts) -> q_HashAlgorithm req <> 0.
Proof.
  unfold ParseRequest. destruct (unmarshal_request raw) as [[r rest]|]; [|done]. case_decide; [done|].
  destruct (RequestList r) as [|c l]; [done|]. destruct (decide _); [done|]. by intros [= <- _].
Qed.

(** Once the certificate and the key of the authority are read and the nonce is
    new, the answer is a signed response. *)
Definition signed_answer (ca : CA) (exts : list extension) (nonces : option (list string)) (x : res Der) : Prop :=
  forall cacert keyi key ns, ParseCertFile (ca_Cert ca) = inl cacert -> key_cert (ca_Cert ca) (ca_Key ca) = inl keyi ->
    signer (ca_Key ca) = Some key -> check_nonce nonces (checkForNonceExtension exts) = inl ns ->
    exists t, x = CreateResponse cacert cacert t key.

(** The response, as a client reads it, is about the certificate of the request. *)
Definition client_reads (req : Request) (der : Der) (r : Response) : Prop :=
  ParseResponse der None = inl r /\ p_SerialNumber r = q_SerialNumber req /\ p_IssuerHash r = q_HashAlgorithm req.

Context (Hkey : forall c k cert sk, key_cert c k = inl cert -> signer k = Some sk -> signs sk cert).

Lemma entry_answered raw nonces db req exts ca ent :
  ParseRequest raw = inl (req, exts) -> verifyIssuer db (q_IssuerNameHash req) (q_IssuerKeyHash req) = inl ca ->
  getCertificateStatus db (q_SerialNumber req) ca = Some ent ->
  exists x, (Verify ParseCertFile key_cert signer raw nonces db).2 = Ret x /\ signed_answer ca exts nonces x /\
    forall der, x = inl der -> exists r, client_reads req der r /\
      match e_Status ent with
      | StatusRevoked => p_Status r = Revoked /\ p_RevokedAt r = e_RevocationTime ent /\ p_RevocationReason r = e_Reason ent
      | _ => p_Status r = Good
      end.
Proof.
  intros Ep Ei Eg. unfold Verify, signed_answer. rewrite Ep, Ei, Eg. destruct (ocsp_status ent) as [[status at_] reason] eqn:Es.
  destruct (ParseCertFile _) as [cacert|]; [|by eexists]. destruct (key_cert _ _) as [keyi|] eqn:Ek; [|by eexists].
  destruct (signer _) as [key|] eqn:Ek2; [|by eexists]. destruct (check_nonce _ _) as [ns|]; [|by eexists].
  eexists. split; [reflexivity|]. split; [intros ? ? ? ? [= <-] _ [= <-] _; by eexists|]. intros der Hc.
  assert (Hh := ParseRequest_hash _ _ _ Ep).
  edestruct response_roundtrip with (6 := Hc) as (r & Hr & Hst & Hsn & _ & _ & _ & Hih & Hrev); cbn in *.
  { exact (Hkey _ _ _ _ Ek Ek2). }
  { discriminate. }
  { reflexivity. }
  { unfold ocsp_status in Es. apply list_elem_of_In. destruct (e_Status ent); simplify_eq; cbn; tauto. }
  { reflexivity. }
  exists r. rewrite decide_False in Hih by done. split; [done|]. unfold ocsp_status in Es.
  destruct (e_Status ent); injection Es as <- <- <-; [done| |done]. split; [done|]. by apply Hrev.
Qed.

(** C22.  The responder says of a certificate what the tables say.  For a request whose
    authority is found by its hashes, in a database that answers: if the table of
    certificates has the serial number for the authority the responder does not
    panic, and its response, as a client reads it, says good; if only the table of
    revoked certificates has it, the response says revoked, with the time and the
    reason of such a row; if neither has it the responder panics.  The response is
    only missing when the certificate or key of the authority cannot be read, the
    nonce was used, or it cannot be encoded and signed.  Keys sign for the
    certificate of their pair. *)
Theorem responder_answers_status raw nonces db req exts ca :
  reachable db -> ParseRequest raw = inl (req, exts) -> verifyIssuer db (q_IssuerNameHash req) (q_IssuerKeyHash req) = inl ca ->
  let listed := has_serial (Itoa (q_SerialNumber req)) (ca_ID ca) in
  let out := (Verify ParseCertFile key_cert signer raw nonces db).2 in
  (ca ∈ ca_rows db /\ (hex (q_IssuerNameHash req) <> EmptyString -> IssuerNameHash ca = hex (q_IssuerNameHash req)) /\
   (hex (q_IssuerKeyHash req) <> EmptyString -> IssuerKeyHash ca = hex (q_IssuerKeyHash req))) /\
  (Exists listed (cert_rows db) -> exists x, out = Ret x /\ signed_answer ca exts nonces x /\
     forall der, x = inl der -> exists r, client_reads req der r /\ p_Status r = Good) /\
  (~ Exists listed (cert_rows db) -> Exists (fun v => listed (r_row v)) (revoked_rows db) ->
     exists x, out = Ret x /\ signed_answer ca exts nonces x /\
     forall der, x = inl der -> exists r v, client_reads req der r /\ p_Status r = Revoked /\
       v ∈ revoked_rows db /\ listed (r_row v) /\ p_RevokedAt r = r_Revoked v /\ p_RevocationReason r = r_CRLReason v) /\
  (~ Exists listed (cert_rows db) -> ~ Exists (fun v => listed (r_row v)) (revoked_rows db) -> out = Panic nil_dereference).
Proof.
  intros Hup Ep Ei listed out. split; [by apply issuer_found|].
  assert (Hans := fun ent => entry_answered raw nonces db req exts ca ent Ep Ei).
  unfold getCertificateStatus in Hans. destruct (cert_by_serial _ _ _) as [c|e] eqn:Ec.
  - apply cert_by_serial_row in Ec as [Hc Hs]. assert (Hex : Exists listed (cert_rows db)) by (apply Exists_exists; eauto).
    split_and!; [intros _|done|done]. destruct (Hans _ eq_refl) as (x & Hx & Hsig & Hr). exists x. split_and!; [done|done|].
    intros der ->. destruct (Hr der eq_refl) as (r & Hrd & Hst). exists r. split; [done|]. cbn in Hst. by case_decide.
  - pose proof Ec as Ec'. apply cert_by_serial_none in Ec; [|done]. split; [intros (c & Hc & Hl)%Exists_exists; rewrite Forall_forall in Ec; by apply Ec in Hc|].
    destruct (revoked_by_serial _ _ _) as [v|e'] eqn:Ev.
    + apply revoked_by_serial_row in Ev as [Hv Hl]. split; [intros _ _|intros _ []; apply Exists_exists; eauto].
      destruct (Hans _ eq_refl) as (x & Hx & Hsig & Hr). exists x. split_and!; [done|done|]. intros der ->.
      destruct (Hr der eq_refl) as (r & Hrd & Hst & Hat & Hre). exists r, v. by split_and!.
    + pose proof Ev as Ev'. apply revoked_by_serial_none in Ev; [|done]. split; [intros _ (v & Hv & Hl)%Exists_exists; rewrite Forall_forall in Ev; by apply Ev in Hv|].
      intros _ _. unfold out, Verify. rewrite Ep, Ei. unfold getCertificateStatus. by rewrite Ec', Ev'.
Qed.
End Client.

(** The text of an id that a download hands to the mapper consists of digits, and a
    certificate is looked for by its id or by its name, never by both. *)
Lemma download_id_is_number id cn : let '(id', cn') := id_or_cn id cn in
  (forall v, id' = Some v -> is_number v = true) /\ (id' = None <-> cn' <> None).
Proof.
  unfold id_or_cn. destruct id as [v|]; cbn; [destruct (is_number v) eqn:E|]; cbn.
  - split; [by intros ? [= <-]|]. by split.
  - split; [done|]. by split.
  - split; [done|]. by split.
Qed.

Module PkiServiceDemo.
#[local] Existing Instance MemPki.mem_gorm.
#[local] Existing Instance MemPki.mem_laws.
#[local] Existing Instance MemPki.demo_crypto.
#[local] Existing Instance OcspDemo.demo_asn1.
#[local] Existing Instance OcspDemo.demo_keys.
#[local] Existing Instance OcspDemo.demo_laws.

Definition cert_file (s : string) : res (@Certificate OcspDemo.demo_asn1 OcspDemo.demo_keys) := inl s.
Definition cert_of (c k : string) : res (@Certificate OcspDemo.demo_asn1 OcspDemo.demo_keys) := inl c.
Definition signer_of (k : string) : option (@Signer OcspDemo.demo_asn1 OcspDemo.demo_keys) := Some tt.

Definition status_request (n : Z) : OcspDemo.der :=
  OcspDemo.DRequest (mkTbsRequest [mkCertID [1; 3; 14; 3; 2; 26] "nh" "kh" n] []).
Definition asked (n : Z) (db : MemPki.MemDB) : option (list string) * go (res OcspDemo.der) :=
  Verify cert_file cert_of signer_of (status_request n) None db.

Lemma demo_signs c k cert sk : cert_of c k = inl cert -> signer_of k = Some sk -> signs sk cert.
Proof. intros _ _. exact I. Qed.

Definition asked_for (n : Z) : Request := mkRequest SHA1 "nh" "kh" n.

Lemma request_parsed : ParseRequest (status_request 2) = inl (asked_for 2, []).
Proof. vm_compute. reflexivity. Qed.

Lemma answers : reachable MemPki.db3.
Proof. exact I. Qed.

Lemma issuer_parsed : verifyIssuer MemPki.db3 (q_IssuerNameHash (asked_for 2)) (q_IssuerKeyHash (asked_for 2)) = inl MemPki.demo_ca.
Proof. vm_compute. reflexivity. Qed.

Lemma not_live : ~ Exists (has_serial (Itoa 2) 1) (MemPki.rows MemPki.db3).
Proof.
  intros (c & Hc & [Hs _])%Exists_exists. vm_compute in Hc. apply list_elem_of_In in Hc as [<-|[]]. vm_compute in Hs. discriminate.
Qed.

Lemma in_revoked : Exists (fun v => has_serial (Itoa 2) 1 (r_row v)) (MemPki.m_revoked MemPki.db3).
Proof. vm_compute. left. split; reflexivity. Qed.

Lemma responder_answers_status_witness :
  exists x, (asked 2 MemPki.db3).2 = Ret x /\ forall der, x = inl der -> exists r, client_reads (asked_for 2) der r /\ p_Status r = Revoked.
Proof.
  destruct (responder_answers_status cert_file cert_of signer_of demo_signs (status_request 2) None MemPki.db3 (asked_for 2) [] MemPki.demo_ca
              answers request_parsed issuer_parsed) as (_ & _ & Hrev & _).
  destruct (Hrev not_live in_revoked) as (x & Hx & _ & Hr). exists x. split; [exact Hx|]. intros der Hd.
  destruct (Hr der Hd) as (r & v & Hc & Hs & _). exists r. split; [exact Hc|exact Hs].
Defined.

(** The response is there. *)
Example revoked_response : match (asked 2 MemPki.db3).2 with Ret (inl _) => true | _ => false end = true.
Proof. vm_compute. reflexivity. Qed.

(** A number that was never issued. *)
Example unknown_serial : (asked 9 MemPki.db3).2 = Panic nil_dereference.
Proof. vm_compute. reflexivity. Qed.

(** An empty nonce counts as used. *)
Example empty_nonce : check_nonce None (Some (mkExt nonce_oid false EmptyString)) = inr nonce_used.
Proof. vm_compute. reflexivity. Qed.

(** A certificate cannot be revoked by its name. *)
Example revoke_by_name :
  (RevokeCert "DELETE" (Some "bob"%string) None (Some "1"%string) MemPki.db2).1 = MemPki.db2 /\
  a_Code (match (RevokeCert "DELETE" (Some "bob"%string) None (Some "1"%string) MemPki.db2).2 with Ret a => a | Panic _ => mkAnswer 0 (BFile EmptyString) end) = 422.
Proof. vm_compute. split; reflexivity. Qed.

(** A body that is not JSON is refused only after it was used: the key type that it
    does not have is dereferenced. *)
Example bad_body_panics :
  (GetSetCA "POST" (MemPki.page, None) (no_ca, Some "invalid character"%string) MemPki.db0).2 = Panic nil_dereference.
Proof. vm_compute. reflexivity. Qed.
End PkiServiceDemo.
