(* ===== verification/Caddyfile.v ===== *)
(** The configuration files of the web server and of the name server
    (src/go/caddy/caddy/caddyfile): the lexer, the dispenser of tokens that the
    setup functions of the plugins use, the parser of server blocks with
    environment variables, imports and snippets, and the conversions from and
    to JSON.

    The environment and the files are arguments.  Texts are UTF-8; a reader
    never fails but at its end.  The loops of the parser take fuel, because an
    import that imports itself and a variable that refers to itself do not
    terminate; [Looping] marks a loop that the fuel did not suffice for. *)
From S2P Require Import Prelude GoText.
From Stdlib Require Import ZArith Lia Ascii.
From stdpp Require Import base gmap strings list sorting.

Open Scope string_scope.
Open Scope Z_scope.

(** ** The lexer (lexer.go) *)

Record Token := mkToken { t_File : string; t_Line : Z; t_Text : string }.

Record lexer := mkLexer { reader : list Z; l_token : Token; l_line : Z }.

Definition NL : Z := 10.
Definition CR : Z := 13.
Definition QUOTE : Z := 34.
Definition HASH : Z := 35.
Definition BACKSLASH : Z := 92.

Definition makeToken (l : lexer) (val : list Z) : lexer :=
  mkLexer (reader l) (mkToken (t_File (l_token l)) (t_Line (l_token l)) (string_of_runes val)) (l_line l).

(** The loop of next over the runes [rd] that are left. *)
Fixpoint next_loop (rd : list Z) (tok : Token) (line : Z) (val : list Z) (comment quoted escaped : bool)
    : lexer * bool :=
  match rd with
  | [] =>
      match val with
      | [] => (mkLexer [] tok line, false)
      | _ => (makeToken (mkLexer [] tok line) val, true)
      end
  | ch :: rd' =>
      if quoted then
        if negb escaped && (ch =? BACKSLASH) then next_loop rd' tok line val comment quoted true
        else if negb escaped && (ch =? QUOTE) then (makeToken (mkLexer rd' tok line) val, true)
        else
          let line' := if ch =? NL then line + 1 else line in
          let val' := if escaped && negb (ch =? QUOTE) then (val ++ [BACKSLASH])%list else val in
          next_loop rd' tok line' (val' ++ [ch])%list comment quoted false
      else if IsSpace ch then
        if ch =? CR then next_loop rd' tok line val comment quoted escaped
        else
          let line' := if ch =? NL then line + 1 else line in
          let comment' := if ch =? NL then false else comment in
          match val with
          | [] => next_loop rd' tok line' val comment' quoted escaped
          | _ => (makeToken (mkLexer rd' tok line') val, true)
          end
      else
        let comment' := if ch =? HASH then true else comment in
        if comment' then next_loop rd' tok line val comment' quoted escaped
        else
          match val with
          | [] =>
              let tok' := mkToken EmptyString line EmptyString in
              if ch =? QUOTE then next_loop rd' tok' line val comment' true escaped
              else next_loop rd' tok' line [ch] comment' quoted escaped
          | _ => next_loop rd' tok line (val ++ [ch])%list comment' quoted escaped
          end
  end.

Definition lexer_next (l : lexer) : lexer * bool := next_loop (reader l) (l_token l) (l_line l) [] false false false.

(** load: None for an input without a rune. *)
Definition BOM : Z := 65279.
Definition load (input : string) : option lexer :=
  match runes input with
  | [] => None
  | ch :: rd => Some (mkLexer (if ch =? BOM then rd else ch :: rd) (mkToken EmptyString 0 EmptyString) 1)
  end.

Fixpoint lex_loop (fuel : nat) (l : lexer) : list Token :=
  match fuel with
  | O => []
  | S fuel' =>
      match lexer_next l with
      | (l', true) => l_token l' :: lex_loop fuel' l'
      | (_, false) => []
      end
  end.

(** A token takes a rune at least. *)
Definition lex (l : lexer) : list Token := lex_loop (S (length (reader l))) l.

Definition allTokens (input : string) : list Token + string :=
  match load input with Some l => inl (lex l) | None => inr "EOF" end.

(** ** The dispenser (dispenser.go) *)

Record Dispenser := mkDispenser { d_filename : string; tokens : list Token; cursor : Z; nesting : Z }.

Definition NewDispenserTokens (filename : string) (toks : list Token) : Dispenser := mkDispenser filename toks (-1) 0.

Definition NewDispenser (filename input : string) : Dispenser :=
  NewDispenserTokens filename (match allTokens input with inl toks => toks | inr _ => [] end).

Definition move (k : Z) (d : Dispenser) : Dispenser := mkDispenser (d_filename d) (tokens d) (cursor d + k) (nesting d).
Definition nest (k : Z) (d : Dispenser) : Dispenser := mkDispenser (d_filename d) (tokens d) (cursor d) (nesting d + k).

Definition len (d : Dispenser) : Z := Z.of_nat (length (tokens d)).
Definition token_at (d : Dispenser) (i : Z) : option Token := if 0 <=? i then tokens d !! Z.to_nat i else None.
Definition current (d : Dispenser) : option Token := token_at d (cursor d).

Definition Val (d : Dispenser) : string := match current d with Some t => t_Text t | None => EmptyString end.
Definition Line (d : Dispenser) : Z := match current d with Some t => t_Line t | None => 0 end.
Definition File (d : Dispenser) : string :=
  match current d with
  | Some t => if decide (t_File t = EmptyString) then d_filename d else t_File t
  | None => d_filename d
  end.

Definition newline : Ascii.ascii := "010"%char.
Definition line_breaks (t : Token) : Z := Z.of_nat (count_char newline (t_Text t)).

(** Whether the token [b] after the token [a] is on the same line or on a later
    one *)
Definition same_line (a b : Token) : bool :=
  bool_decide (t_File a = t_File b) && (t_Line a + line_breaks a =? t_Line b).
Definition later_line (a b : Token) : bool :=
  negb (bool_decide (t_File a = t_File b)) || (t_Line a + line_breaks a <? t_Line b).

Definition Next (d : Dispenser) : Dispenser * bool :=
  if cursor d <? len d - 1 then (move 1 d, true) else (d, false).

Definition next_if (on : Token -> Token -> bool) (d : Dispenser) : Dispenser * bool :=
  if cursor d <? 0 then (move 1 d, true)
  else match current d, token_at d (cursor d + 1) with
       | Some a, Some b => if on a b then (move 1 d, true) else (d, false)
       | _, _ => (d, false)
       end.

Definition NextArg : Dispenser -> Dispenser * bool := next_if same_line.
Definition NextLine : Dispenser -> Dispenser * bool := next_if later_line.

Definition NextBlock (d : Dispenser) : Dispenser * bool :=
  if 0 <? nesting d then
    let '(d1, _) := Next d in
    if decide (Val d1 = "}") then (nest (-1) d1, false) else (d1, true)
  else
    let '(d1, ok) := NextArg d in
    if negb ok then (d1, false)
    else if decide (Val d1 = "{") then
      let '(d2, _) := Next d1 in
      if decide (Val d2 = "}") then (d2, false) else (nest 1 d2, true)
    else (move (-1) d1, false).

(** Args: the values of the targets that are set. *)
Fixpoint Args (targets : nat) (d : Dispenser) : Dispenser * list string * bool :=
  match targets with
  | O => (d, [], true)
  | S n =>
      let '(d1, ok) := NextArg d in
      if ok then let '(d2, vals, enough) := Args n d1 in (d2, Val d1 :: vals, enough)
      else (d1, [], false)
  end.

(** RemainingArgs: there are at most as many arguments as tokens. *)
Fixpoint remaining_loop (fuel : nat) (d : Dispenser) : Dispenser * list string :=
  match fuel with
  | O => (d, [])
  | S fuel' =>
      let '(d1, ok) := NextArg d in
      if negb ok then (d1, [])
      else if decide (Val d1 = "{") then (move (-1) d1, [])
      else let '(d2, args) := remaining_loop fuel' d1 in (d2, Val d1 :: args)
  end.

Definition RemainingArgs (d : Dispenser) : Dispenser * list string := remaining_loop (S (length (tokens d))) d.

Definition Err (d : Dispenser) (msg : string) : string :=
  File d +:+ ":" +:+ Itoa (Line d) +:+ " - Error during parsing: " +:+ msg.
Definition ArgErr (d : Dispenser) : string :=
  if decide (Val d = "{") then Err d "Unexpected token '{', expecting argument"
  else Err d ("Wrong argument count or unexpected line ending after '" +:+ Val d +:+ "'").
Definition SyntaxErr (d : Dispenser) (expected : string) : string :=
  File d +:+ ":" +:+ Itoa (Line d) +:+ " - Syntax error: Unexpected token '" +:+ Val d +:+ "', expecting '" +:+
  expected +:+ "'".
Definition EOFErr (d : Dispenser) : string := Err d "Unexpected EOF".

Definition isNewLine (d : Dispenser) : bool :=
  if cursor d <? 1 then true
  else match token_at d (cursor d - 1), current d with
       | Some a, Some b => later_line a b
       | _, _ => false
       end.

(** ** The parser (parse.go) *)

Record ServerBlock := mkServerBlock { Keys : list string; b_Tokens : gmap string (list Token) }.

Record parser := mkParser {
  disp : Dispenser;
  block : ServerBlock;
  validDirectives : option (list string);      (* None for nil *)
  eof : bool;
  definedSnippets : gmap string (list Token)   (* empty for nil *)
}.

Definition set_disp (d : Dispenser) (p : parser) : parser :=
  mkParser d (block p) (validDirectives p) (eof p) (definedSnippets p).
Definition set_block (b : ServerBlock) (p : parser) : parser :=
  mkParser (disp p) b (validDirectives p) (eof p) (definedSnippets p).

(** What an operation of the parser comes to *)
Inductive outcome (A : Type) : Type :=
  | Done (a : A)
  | Failed (err : string)
  | Panicked (why : string)
  | Looping.
Arguments Done {A} _.
Arguments Failed {A} _.
Arguments Panicked {A} _.
Arguments Looping {A}.

Definition pm (A : Type) : Type := parser -> parser * outcome A.
Definition pm_ret {A : Type} (a : A) : pm A := fun p => (p, Done a).
Definition pm_bind {A B : Type} (m : pm A) (k : A -> pm B) : pm B :=
  fun p =>
    match m p with
    | (p', Done a) => k a p'
    | (p', Failed e) => (p', Failed e)
    | (p', Panicked w) => (p', Panicked w)
    | (p', Looping) => (p', Looping)
    end.
Notation "x <~ m ;; k" := (pm_bind m (fun x => k)) (at level 100, m at next level, right associativity) : go_scope.
Notation "m ~;; k" := (pm_bind m (fun _ => k)) (at level 100, right associativity) : go_scope.

Definition pm_loop {A : Type} : pm A := fun p => (p, Looping).
Definition fail {A : Type} (err : Dispenser -> string) : pm A := fun p => (p, Failed (err (disp p))).
Definition ask {A : Type} (f : parser -> A) : pm A := fun p => (p, Done (f p)).
Definition on_disp {A : Type} (f : Dispenser -> Dispenser * A) : pm A :=
  fun p => let '(d, a) := f (disp p) in (set_disp d p, Done a).
Definition step (k : Z) : pm unit := on_disp (fun d => (move k d, tt)).
Definition on_block (f : ServerBlock -> ServerBlock) : pm unit := fun p => (set_block (f (block p)) p, Done tt).
Definition or_loop {A : Type} (o : option A) : pm A := fun p => (p, match o with Some a => Done a | None => Looping end).

(** p.tokens[p.cursor] *)
Definition this_token : pm Token :=
  fun p => (p, match current (disp p) with Some t => Done t | None => Panicked "index out of range" end).

Definition add_token (dir : string) (t : Token) : pm unit :=
  on_block (fun b => mkServerBlock (Keys b) (<[dir := (default [] (b_Tokens b !! dir) ++ [t])%list]> (b_Tokens b))).

(** A file that is opened: os.Open fails, Stat fails, a directory, or the content *)
Inductive file := OpenError (e : string) | StatError (e : string) | Directory | Content (s : string).

Section Parser.
Context (Getenv : string -> string).
Context (Getwd : string + string) (Glob : string -> list string + string) (Open : string -> file).
Context (fuel : nat).
Local Open Scope go_scope.

(** The text between two markers is the name of a variable. *)
Fixpoint replace_refs (n : nat) (s refStart refEnd : string) : option string :=
  match n with
  | O => None
  | S n' =>
      match StrIndex s refStart with
      | None => Some s
      | Some index =>
          match StrIndex (drop_str index s) refEnd with
          | None => Some s
          | Some off =>
              let endIndex := (off + index)%nat in
              if decide (index + String.length refStart < endIndex)%nat then
                let ref := take_str (endIndex + String.length refEnd - index) (drop_str index s) in
                let name := take_str (String.length ref - String.length refEnd - String.length refStart)
                              (drop_str (String.length refStart) ref) in
                replace_refs n' (StrReplace s ref (Getenv name)) refStart refEnd
              else Some s
          end
      end
  end.

Definition replaceEnvReferences : string -> string -> string -> option string := replace_refs fuel.

Definition replaceEnvVars (s : string) : option string :=
  match replaceEnvReferences s "{%" "%}" with
  | Some s' => replaceEnvReferences s' "{$" "}"
  | None => None
  end.

(** filepath.Abs *)
Definition Abs (path : string) : string + string :=
  if IsAbs path then inl (PathClean path)
  else match Getwd with inl wd => inl (PathJoin [wd; path]) | inr e => inr e end.

Definition openCurlyBrace (d : Dispenser) : option string := if decide (Val d = "{") then None else Some (SyntaxErr d "{").
Definition closeCurlyBrace (d : Dispenser) : option string := if decide (Val d = "}") then None else Some (SyntaxErr d "}").

Definition validDirective (p : parser) (dir : string) : bool :=
  match validDirectives p with None => true | Some l => existsb (fun d => bool_decide (d = dir)) l end.

Definition isSnippet (b : ServerBlock) : option string :=
  match Keys b with
  | [k] => if HasPrefix k "(" && HasSuffix k ")" then Some (TrimSuffix (drop_str 1 k) ")") else None
  | _ => None
  end.

(** doSingleImport *)
Definition doSingleImport (importFile : string) : pm (list Token) :=
  match Open importFile with
  | OpenError e | StatError e => fail (fun d => Err d ("Could not import " +:+ importFile +:+ ": " +:+ e))
  | Directory => fail (fun d => Err d ("Could not import " +:+ importFile +:+ ": is a directory"))
  | Content s =>
      match allTokens s with
      | inr e => fail (fun d => Err d ("Could not read tokens while importing " +:+ importFile +:+ ": " +:+ e))
      | inl toks =>
          match Abs importFile with
          | inr e => fail (fun d => Err d ("Failed to get absolute path of file: " +:+ d_filename d +:+ ": " +:+ e))
          | inl filename => pm_ret (map (fun t => mkToken filename (t_Line t) (t_Text t)) toks)
          end
      end
  end.

Fixpoint import_files (matches : list string) : pm (list Token) :=
  match matches with
  | [] => pm_ret []
  | m :: rest => toks <~ doSingleImport m ;; more <~ import_files rest ;; pm_ret (toks ++ more)%list
  end.

(** The files that an import names *)
Definition import_matches (importPattern : string) : pm (list string) :=
  d <~ ask disp ;;
  match Abs (File d) with
  | inr e => fail (fun d => Err d ("Failed to get absolute path of file: " +:+ d_filename d +:+ ": " +:+ e))
  | inl absFile =>
      let globPattern := if IsAbs importPattern then importPattern else PathJoin [PathDir absFile; importPattern] in
      if bool_decide (1 < count_char "*" globPattern)%nat || bool_decide (1 < count_char "?" globPattern)%nat ||
         (negb (no_char "[" globPattern) && negb (no_char "]" globPattern)) then
        fail (fun d => Err d ("Glob pattern may only contain one wildcard (*), but has others: " +:+ globPattern))
      else
        match Glob globPattern with
        | inr e => fail (fun d => Err d ("Failed to use import pattern " +:+ importPattern +:+ ": " +:+ e))
        | inl [] => if ContainsAny globPattern "*?[]" then pm_ret []
                    else fail (fun d => Err d ("File to import not found: " +:+ importPattern))
        | inl matches => pm_ret matches
        end
  end.

(** The tokens before and after the import directive and its argument stay. *)
Definition splice (imported : list Token) (d : Dispenser) : Dispenser :=
  mkDispenser (d_filename d)
    (take (Z.to_nat (cursor d - 1)) (tokens d) ++ imported ++ drop (Z.to_nat (cursor d + 1)) (tokens d))%list
    (cursor d - 1) (nesting d).

Definition doImport : pm unit :=
  ok <~ on_disp NextArg ;;
  if negb ok then fail ArgErr
  else
    v <~ ask (fun p => Val (disp p)) ;;
    importPattern <~ or_loop (replaceEnvVars v) ;;
    if decide (importPattern = EmptyString) then fail (fun d => Err d "Import requires a non-empty filepath")
    else
      more <~ on_disp NextArg ;;
      if more : bool then fail (fun d => Err d "Import takes only one argument (glob pattern or file)")
      else
        snippet <~ ask (fun p => definedSnippets p !! importPattern) ;;
        imported <~ match snippet with
                    | Some toks => pm_ret toks
                    | None => matches <~ import_matches importPattern ;; import_files matches
                    end ;;
        on_disp (fun d => (splice imported d, tt)).

(** The address without a trailing comma, and whether it had one *)
Definition cut_comma (tkn : string) : string * bool :=
  if HasSuffix tkn "," then (take_str (String.length tkn - 1) tkn, true) else (tkn, false).

Definition set_eof : pm unit :=
  fun p => (mkParser (disp p) (block p) (validDirectives p) true (definedSnippets p), Done tt).

Fixpoint addresses (n : nat) (expectingAnother : bool) : pm unit :=
  match n with
  | O => pm_loop
  | S n' =>
      v <~ ask (fun p => Val (disp p)) ;;
      tkn <~ or_loop (replaceEnvVars v) ;;
      nl <~ ask (fun p => isNewLine (disp p)) ;;
      if decide (tkn = "import" /\ nl = true) then doImport ~;; addresses n' expectingAnother
      else if decide (tkn = "{") then
        if expectingAnother
        then fail (fun d => Err d ("Expected another address but had '" +:+ tkn +:+ "' - check for extra comma"))
        else pm_ret tt
      else
        another <~ (if decide (tkn = EmptyString) then pm_ret expectingAnother
                    else let '(key, comma) := cut_comma tkn in
                         on_block (fun b => mkServerBlock (Keys b ++ [key])%list (b_Tokens b)) ~;; pm_ret comma) ;;
        hasNext <~ on_disp Next ;;
        if another && negb hasNext then fail EOFErr
        else if negb hasNext then set_eof
        else
          nl <~ ask (fun p => isNewLine (disp p)) ;;
          if negb another && nl then pm_ret tt else addresses n' another
  end.

(** The variables of the current token are replaced, and it is added to the
    tokens of the directive. *)
Definition set_text (t : Token) : pm unit :=
  on_disp (fun d => (mkDispenser (d_filename d) (<[Z.to_nat (cursor d) := t]> (tokens d)) (cursor d) (nesting d), tt)).

Definition keep_token (dir : string) : pm unit :=
  t <~ this_token ;;
  text <~ or_loop (replaceEnvVars (t_Text t)) ;;
  let t' := mkToken (t_File t) (t_Line t) text in
  set_text t' ~;; add_token dir t'.

(** The loop of directive over the tokens that belong to it *)
Fixpoint directive_loop (n : nat) (dir : string) (depth : Z) : pm unit :=
  match n with
  | O => pm_loop
  | S n' =>
      ok <~ on_disp Next ;;
      if negb ok then (if 0 <? depth then fail EOFErr else pm_ret tt)
      else
        v <~ ask (fun p => Val (disp p)) ;;
        nl <~ ask (fun p => isNewLine (disp p)) ;;
        if decide (v = "{") then keep_token dir ~;; directive_loop n' dir (depth + 1)
        else if nl && (depth =? 0) then step (-1)
        else if decide (v = "}") then
          if 0 <? depth then keep_token dir ~;; directive_loop n' dir (depth - 1)
          else fail (fun d => Err d "Unexpected '}' because no matching opening brace")
        else if bool_decide (v = "import") && nl then doImport ~;; step (-1) ~;; directive_loop n' dir depth
        else keep_token dir ~;; directive_loop n' dir depth
  end.

Definition directive : pm unit :=
  v <~ ask (fun p => Val (disp p)) ;;
  dir <~ or_loop (replaceEnvVars v) ;;
  valid <~ ask (fun p => validDirective p dir) ;;
  if negb valid then fail (fun d => Err d ("Unknown directive '" +:+ dir +:+ "'"))
  else t <~ this_token ;; add_token dir t ~;; directive_loop fuel dir 0.

Fixpoint directives (n : nat) : pm unit :=
  match n with
  | O => pm_loop
  | S n' =>
      ok <~ on_disp Next ;;
      if negb ok then pm_ret tt
      else
        v <~ ask (fun p => Val (disp p)) ;;
        if decide (v = "}") then pm_ret tt
        else if decide (v = "import") then doImport ~;; step (-1) ~;; directives n'
        else directive ~;; directives n'
  end.

Definition blockContents : pm unit :=
  errOpen <~ ask (fun p => openCurlyBrace (disp p)) ;;
  match errOpen with
  | Some _ => step (-1) ~;; directives fuel
  | None =>
      directives fuel ~;;
      errClose <~ ask (fun p => closeCurlyBrace (disp p)) ;;
      match errClose with Some e => fail (fun _ => e) | None => pm_ret tt end
  end.

Fixpoint snippet_loop (n : nat) (count : Z) : pm (list Token) :=
  match n with
  | O => pm_loop
  | S n' =>
      ok <~ on_disp Next ;;
      if negb ok then fail (fun d => SyntaxErr d "}")
      else
        v <~ ask (fun p => Val (disp p)) ;;
        let count' := if decide (v = "}") then count - 1 else count in
        if decide (v = "}" /\ count' = 0) then pm_ret []
        else
          t <~ this_token ;;
          rest <~ snippet_loop n' (if decide (v = "{") then count' + 1 else count') ;;
          pm_ret (t :: rest)
  end.

Definition snippetTokens : pm (list Token) :=
  errOpen <~ ask (fun p => openCurlyBrace (disp p)) ;;
  match errOpen with Some e => fail (fun _ => e) | None => snippet_loop fuel 1 end.

Definition define_snippet (name : string) (toks : list Token) : pm unit :=
  fun p => (mkParser (disp p) (mkServerBlock [] (b_Tokens (block p))) (validDirectives p) (eof p)
              (<[name := toks]> (definedSnippets p)), Done tt).

Definition begin_ : pm unit :=
  n <~ ask (fun p => length (tokens (disp p))) ;;
  if decide (n = O) then pm_ret tt
  else
    addresses fuel false ~;;
    ended <~ ask eof ;;
    if ended : bool then pm_ret tt
    else
      b <~ ask block ;;
      match isSnippet b with
      | Some name =>
          found <~ ask (fun p => definedSnippets p !! name) ;;
          match found with
          | Some _ => fail (fun d => Err d ("redeclaration of previously declared snippet " +:+ name))
          | None => toks <~ snippetTokens ;; define_snippet name toks
          end
      | None => blockContents
      end.

Definition parseOne : pm unit := on_block (fun _ => mkServerBlock [] ∅) ~;; begin_.

(** parseAll: the blocks read so far and the error *)
Fixpoint parseAll (n : nat) (p : parser) : outcome (list ServerBlock * option string) :=
  match n with
  | O => Looping
  | S n' =>
      match Next (disp p) with
      | (_, false) => Done ([], None)
      | (d, true) =>
          match parseOne (set_disp d p) with
          | (p', Done _) =>
              match parseAll n' p' with
              | Done (blocks, err) => Done (match Keys (block p') with [] => blocks | _ => block p' :: blocks end, err)
              | other => other
              end
          | (_, Failed e) => Done ([], Some e)
          | (_, Panicked w) => Panicked w
          | (_, Looping) => Looping
          end
      end
  end.

Definition Parse (filename input : string) (valid : option (list string)) : outcome (list ServerBlock * option string) :=
  parseAll fuel (mkParser (NewDispenser filename input) (mkServerBlock [] ∅) valid false ∅).

(** ** JSON (json.go) *)

Record EncodedServerBlock := mkEncoded { e_Keys : list string; e_Body : list (list jv) }.

(** constructLine after its first value, and constructBlock *)
Fixpoint construct_line (n : nat) (d : Dispenser) : option (Dispenser * list jv) :=
  match n with
  | O => None
  | S n' =>
      let '(d1, ok) := NextArg d in
      if negb ok then Some (d1, [])
      else
        match (if decide (Val d1 = "{") then
                 match construct_block n' d1 with Some (d2, b) => Some (d2, JArr b) | None => None end
               else Some (d1, JStr (Val d1))) with
        | Some (d2, v) =>
            match construct_line n' d2 with Some (d3, args) => Some (d3, v :: args) | None => None end
        | None => None
        end
  end
with construct_block (n : nat) (d : Dispenser) : option (Dispenser * list jv) :=
  match n with
  | O => None
  | S n' =>
      let '(d1, ok) := Next d in
      if negb ok then Some (d1, [])
      else if decide (Val d1 = "}") then Some (d1, [])
      else
        match construct_line n' d1 with
        | Some (d2, args) =>
            match construct_block n' d2 with
            | Some (d3, rest) => Some (d3, JArr (JStr (Val d1) :: args) :: rest)
            | None => None
            end
        | None => None
        end
  end.

Definition constructLine (d : Dispenser) : option (Dispenser * list jv) :=
  match construct_line fuel d with Some (d', args) => Some (d', JStr (Val d) :: args) | None => None end.

(** The lines of one directive *)
Fixpoint construct_lines (n : nat) (d : Dispenser) : option (list (list jv)) :=
  match n with
  | O => None
  | S n' =>
      let '(d1, ok) := Next d in
      if negb ok then Some []
      else match constructLine d1 with
           | Some (d2, line) => match construct_lines n' d2 with Some ls => Some (line :: ls) | None => None end
           | None => None
           end
  end.

(** make with the number of directives as length, then append *)
Definition directive_names (sb : ServerBlock) : list string :=
  merge_sort String.le (replicate (size (b_Tokens sb)) EmptyString ++ (map_to_list (b_Tokens sb)).*1)%list.

Definition encode_block (sb : ServerBlock) : option EncodedServerBlock :=
  bodies ← mapM (fun dir => construct_lines fuel (NewDispenserTokens "Caddyfile" (default [] (b_Tokens sb !! dir))))
              (directive_names sb);
  Some (mkEncoded (Keys sb) (concat bodies)).

Definition ToJSON (caddyfile : string) : outcome (list EncodedServerBlock) :=
  match Parse "Caddyfile" caddyfile None with
  | Done (serverBlocks, None) => match mapM encode_block serverBlocks with Some j => Done j | None => Looping end
  | Done (_, Some e) => Failed e
  | Failed e => Failed e
  | Panicked w => Panicked w
  | Looping => Looping
  end.
End Parser.

Section FromJSON.
(** fmt.Sprintf of a float64 with %v *)
Context (FormatFloat : Z -> string).

Definition nl_str : string := String newline EmptyString.
Definition tab_str : string := String "009"%char EmptyString.
Definition dquote : string := String "034"%char EmptyString.
Definition escaped_quote : string := String "092"%char dquote.
Definition special : string := dquote +:+ " " +:+ nl_str +:+ tab_str +:+ String "013"%char EmptyString.

(** jsonToText of a value that encoding/json decodes: the value v of a list is
    followed by a blank unless it is the last one or a list. *)
Fixpoint jsonToText (scope : jv) (depth : nat) : string :=
  match scope with
  | JStr val =>
      if ContainsAny val special then dquote +:+ StrReplace val dquote escaped_quote +:+ dquote else val
  | JNum z => FormatFloat z
  | JBool b => if b then "true" else "false"
  | JArr l =>
      (fix values (l : list jv) : string :=
         match l with
         | [] => EmptyString
         | v :: rest =>
             match v with
             | JArr blk =>
                 "{" +:+ nl_str +:+
                 (fix lines (blk : list jv) : string :=
                    match blk with
                    | [] => EmptyString
                    | arg :: blk' => StrRepeat tab_str depth +:+ jsonToText arg (S depth) +:+ nl_str +:+ lines blk'
                    end) blk +:+
                 StrRepeat tab_str (pred depth) +:+ "}" +:+ values rest
             | _ => jsonToText v depth +:+ match rest with [] => EmptyString | _ => " " end +:+ values rest
             end
         end) l
  | JNil | JMap _ => EmptyString
  end.

(** jsonToText of the body of a block *)
Definition body_text (body : list (list jv)) : string :=
  " {" +:+ nl_str +:+
  String.concat EmptyString (map (fun arg => tab_str +:+ jsonToText (JArr arg) 2 +:+ nl_str) body) +:+ "}".

Fixpoint FromJSON (j : list EncodedServerBlock) : string :=
  match j with
  | [] => EmptyString
  | [sb] => StrJoin (e_Keys sb) ", " +:+ body_text (e_Body sb)
  | sb :: rest => StrJoin (e_Keys sb) ", " +:+ body_text (e_Body sb) +:+ nl_str +:+ nl_str +:+ FromJSON rest
  end.
End FromJSON.

(** ** The lexer reads what is written

    A word is a list of runes; it is written in quotes, a line is its words with
    a blank after each, and a document is its lines. *)

Definition word : Type := list Z.

Definition escape (w : word) : list Z := concat (map (fun r => if r =? QUOTE then [BACKSLASH; QUOTE] else [r]) w).
Definition write_word (w : word) : list Z := (QUOTE :: escape w ++ [QUOTE; 32])%list.
Definition write_line (ws : list word) : list Z := (concat (map write_word ws) ++ [NL])%list.
Definition write (ls : list (list word)) : list Z := concat (map write_line ls).

(** A word that can be written: its runes are runes and none is a backslash. *)
Definition writable (w : word) : bool := forallb (fun r => valid_rune r && negb (r =? BACKSLASH)) w.

Definition breaks (w : word) : Z := Z.of_nat (length (List.filter (fun r => r =? NL) w)).

(** The tokens of a line and of a document, with the number of their line *)
Fixpoint place_line (line : Z) (ws : list word) : list Token * Z :=
  match ws with
  | [] => ([], line)
  | w :: ws' => let '(toks, line') := place_line (line + breaks w) ws' in
                (mkToken EmptyString line (string_of_runes w) :: toks, line')
  end.

Fixpoint place (line : Z) (ls : list (list word)) : list Token :=
  match ls with
  | [] => []
  | ws :: ls' => let '(toks, line') := place_line line ws in (toks ++ place (line' + 1) ls')%list
  end.

Lemma next_quoted w rest tok line acc :
  writable w = true ->
  next_loop (escape w ++ QUOTE :: rest) tok line acc false true false =
    (makeToken (mkLexer rest tok (line + breaks w)) (acc ++ w)%list, true).
Proof.
  revert line acc. induction w as [|r w IH]; intros line acc Hw.
  - cbn. rewrite app_nil_r. unfold breaks. cbn. by rewrite Z.add_0_r.
  - cbn [writable forallb] in Hw. apply andb_true_iff in Hw as [[_ Hb%negb_true_iff]%andb_true_iff Hw].
    assert (Hline : (if r =? NL then line + 1 else line) + breaks w = line + breaks (r :: w)).
    { unfold breaks. cbn [List.filter]. destruct (r =? NL); cbn [length]; lia. }
    unfold escape. cbn [map concat]. fold (escape w). destruct (r =? QUOTE) eqn:Hq.
    + apply Z.eqb_eq in Hq as ->. cbn [app next_loop negb andb BACKSLASH QUOTE Z.eqb Pos.eqb].
      change (34 =? NL) with false. rewrite IH by done. rewrite <- Hline, <- app_assoc. done.
    + cbn [app next_loop]. rewrite Hb, Hq. cbn [negb andb]. rewrite IH by done. by rewrite Hline, <- app_assoc.
Qed.

(** The next token of a written word *)
Lemma next_word w rest tok line :
  writable w = true ->
  next_loop (write_word w ++ rest) tok line [] false false false =
    (mkLexer (32 :: rest) (mkToken EmptyString line (string_of_runes w)) (line + breaks w), true).
Proof.
  intros Hw. unfold write_word. cbn [app next_loop]. change (IsSpace QUOTE) with false. change (QUOTE =? HASH) with false.
  rewrite <- app_assoc. cbn [app]. change (QUOTE =? QUOTE) with true. cbv iota. by rewrite next_quoted.
Qed.

(** The blank before a word and the ends of lines are skipped. *)
Lemma next_blank rest tok line :
  next_loop (32 :: rest) tok line [] false false false = next_loop rest tok line [] false false false.
Proof. done. Qed.

Lemma next_newline rest tok line :
  next_loop (NL :: rest) tok line [] false false false = next_loop rest tok (line + 1) [] false false false.
Proof. done. Qed.

Lemma lex_blank fuel rest tok line : lex_loop fuel (mkLexer (32 :: rest) tok line) = lex_loop fuel (mkLexer rest tok line).
Proof. by destruct fuel. Qed.

Lemma lex_newline fuel rest tok line : lex_loop fuel (mkLexer (NL :: rest) tok line) = lex_loop fuel (mkLexer rest tok (line + 1)).
Proof. by destruct fuel. Qed.

Lemma lex_words fuel ws rest tok line k :
  forallb writable ws = true ->
  (forall tok', lex_loop fuel (mkLexer rest tok' (place_line line ws).2) = k) ->
  lex_loop (length ws + fuel) (mkLexer (concat (map write_word ws) ++ rest) tok line) = ((place_line line ws).1 ++ k)%list.
Proof.
  revert tok line. induction ws as [|w ws IH]; intros tok line Hw Hk; [apply Hk|].
  cbn [forallb] in Hw. apply andb_true_iff in Hw as [Hw Hws]. cbn [place_line] in *.
  specialize (IH (mkToken EmptyString line (string_of_runes w)) (line + breaks w) Hws).
  destruct (place_line (line + breaks w) ws) as [toks line']. cbn [fst snd] in *.
  cbn [map concat length Nat.add lex_loop]. unfold lexer_next. cbn [reader l_token l_line].
  rewrite <- app_assoc, next_word by done. cbn [l_token app]. f_equal. rewrite lex_blank. by apply IH.
Qed.

Definition words_of (ls : list (list word)) : nat := length (concat ls).

Lemma lex_lines fuel ls tok line :
  forallb (forallb writable) ls = true ->
  lex_loop (words_of ls + S fuel) (mkLexer (write ls) tok line) = place line ls.
Proof.
  revert tok line. induction ls as [|ws ls IH]; intros tok line Hw; [done|].
  cbn [forallb] in Hw. apply andb_true_iff in Hw as [Hws Hls].
  unfold words_of. cbn [concat]. rewrite length_app, <- Nat.add_assoc.
  unfold write. cbn [map concat]. unfold write_line. rewrite <- app_assoc. cbn [place].
  pose proof (lex_words (length (concat ls) + S fuel) ws ([NL] ++ concat (map write_line ls)) tok line) as Hlex.
  destruct (place_line line ws) as [toks line']. apply Hlex; [done|]. intros tok'. cbn [app snd]. rewrite lex_newline.
  by apply IH.
Qed.

Lemma write_long ls : (words_of ls <= length (write ls))%nat.
Proof.
  induction ls as [|ws ls IH]; [done|]. unfold words_of, write in *. cbn [concat map]. rewrite !length_app.
  assert (H : forall l : list word, (length l <= length (concat (map write_word l)))%nat).
  { induction l as [|w l IHl]; [done|]. cbn [map concat length]. rewrite length_app. unfold write_word at 1.
    cbn [length]. lia. }
  unfold write_line at 1. rewrite length_app. specialize (H ws). lia.
Qed.

Lemma lex_write ls tok : forallb (forallb writable) ls = true -> lex (mkLexer (write ls) tok 1) = place 1 ls.
Proof.
  intros H. unfold lex. cbn [reader]. pose proof (write_long ls) as Hl.
  replace (S (length (write ls))) with (words_of ls + S (length (write ls) - words_of ls))%nat by lia.
  by apply lex_lines.
Qed.

Lemma write_valid ls : forallb (forallb writable) ls = true -> forallb valid_rune (write ls) = true.
Proof.
  rewrite !forallb_forall. intros H r Hr. unfold write in Hr. rewrite in_concat in Hr. destruct Hr as (l & Hl & Hr).
  apply in_map_iff in Hl as (ws & <- & Hws). specialize (H ws Hws). rewrite forallb_forall in H.
  unfold write_line in Hr. apply in_app_iff in Hr as [Hr | [<- | []]]; [|done].
  apply in_concat in Hr as (l & Hl & Hr). apply in_map_iff in Hl as (w & <- & Hw). specialize (H w Hw).
  unfold writable in H. rewrite forallb_forall in H. unfold write_word in Hr.
  destruct Hr as [<- | Hr]; [done|]. apply in_app_iff in Hr as [Hr | [<- | [<- | []]]]; [|done..].
  apply in_concat in Hr as (l & Hl & Hr). apply in_map_iff in Hl as (x & <- & Hx). specialize (H x Hx).
  apply andb_true_iff in H as [Hv _]. destruct (x =? QUOTE); cbn in Hr; destruct Hr as [<- | Hr]; try done.
  destruct Hr as [<- | []]; done.
Qed.

(** The tokens of a document that is written and read again *)
Lemma allTokens_write ls :
  ls <> [] -> forallb (forallb writable) ls = true -> allTokens (string_of_runes (write ls)) = inl (place 1 ls).
Proof.
  intros Hne H. unfold allTokens, load. rewrite runes_string by (by apply write_valid).
  destruct (write ls) as [|ch rd] eqn:E.
  - exfalso. destruct ls as [|ws ls]; [done|]. unfold write, write_line in E. cbn [map concat] in E.
    destruct (concat (map write_word ws)); discriminate E.
  - assert (Hb : ch <> BOM).
    { destruct ls as [|[|w ws] ls]; [done|..]; injection E as <- _; done. }
    apply Z.eqb_neq in Hb. rewrite Hb, <- E. by rewrite lex_write.
Qed.

(** ** Tokens and lines

    A document as the stream of its words, each with whether it starts a line. *)

Definition text : word -> string := string_of_runes.
Definition flow_line (ws : list word) : list (bool * string) :=
  match ws with [] => [] | w :: ws' => (true, text w) :: map (fun x => (false, text x)) ws' end.
Definition flow (ls : list (list word)) : list (bool * string) := concat (map flow_line ls).

(** Tokens that have the texts and the lines of a stream *)
Definition follows (prev : option Token) (t : Token) (nl : bool) : Prop :=
  match prev with None => nl = true | Some a => later_line a t = nl /\ same_line a t = negb nl end.

Fixpoint flows (prev : option Token) (toks : list Token) (fl : list (bool * string)) : Prop :=
  match toks, fl with
  | [], [] => True
  | t :: toks', (nl, w) :: fl' => t_Text t = w /\ follows prev t nl /\ flows (Some t) toks' fl'
  | _, _ => False
  end.

Lemma count_char_app c s t : count_char c (s +:+ t) = (count_char c s + count_char c t)%nat.
Proof.
  induction s as [|d s IH]; [done|]. change (String d s +:+ t) with (String d (s +:+ t)). cbn [count_char].
  case_decide; rewrite IH; done.
Qed.

Lemma newline_byte b l :
  0 <= b < 256 ->
  count_char newline (string_of_bytes (b :: l)) =
    ((if (b =? NL)%Z then 1 else 0) + count_char newline (string_of_bytes l))%nat.
Proof.
  intros Hb. cbn [string_of_bytes count_char]. change (Ascii.ascii_of_nat (Z.to_nat b)) with (char b).
  pose proof (code_char b Hb) as Hc. destruct (Z.eqb_spec b NL) as [->|Hne].
  - by rewrite decide_True.
  - rewrite decide_False; [done|]. intros H. apply Hne. by rewrite <- Hc, H.
Qed.

Lemma newline_rune r : count_char newline (string_of_bytes (EncodeRune r)) = (if (r =? NL)%Z then 1 else 0)%nat.
Proof.
  unfold EncodeRune. destruct (valid_rune r) eqn:Hv.
  - assert (Hr : 0 <= r <= 1114111). { unfold valid_rune in Hv. apply orb_true_iff in Hv as [Hv|Hv]; apply in_range_iff in Hv; lia. }
    unfold EncodeValid. destruct (split_six r) as (a & m & Er & Hm & Ea1 & Ea2).
    replace (r / 4096) with (r / 64 / 64) by (rewrite Z.div_div; [done|lia|lia]).
    replace (r / 262144) with (r / 64 / 64 / 64) by (rewrite !Z.div_div; [done|lia..]). rewrite Ea1, Ea2.
    destruct (split_six a) as (b & m1 & Eb & Hm1 & -> & ->). destruct (split_six b) as (c & m2 & Ec & Hm2 & -> & ->).
    unfold NL. destruct (Z.ltb_spec r 128); [|destruct (Z.ltb_spec r 2048); [|destruct (Z.ltb_spec r 65536)]].
    all: rewrite !newline_byte by lia; unfold NL.
    all: repeat match goal with |- context [?x =? 10] => destruct (Z.eqb_spec x 10) end; try lia; done.
  - cbn. destruct (Z.eqb_spec r NL) as [->|]; done.
Qed.

Lemma line_breaks_text file line w : line_breaks (mkToken file line (text w)) = breaks w.
Proof.
  unfold line_breaks, breaks, text. cbn [t_Text]. f_equal. induction w as [|r w IH]; [done|].
  cbn [string_of_runes List.filter]. rewrite count_char_app, newline_rune, IH. by destruct (r =? NL).
Qed.

(** The last token of a line ends where the line ends. *)
Definition ends_at (prev : option Token) (line : Z) : Prop :=
  match prev with None => True | Some a => t_File a = EmptyString /\ t_Line a + line_breaks a = line end.
Definition ends_before (prev : option Token) (line : Z) : Prop :=
  match prev with None => True | Some a => t_File a = EmptyString /\ t_Line a + line_breaks a < line end.

Lemma place_line_rest a line ws toks line' :
  t_File a = EmptyString -> t_Line a + line_breaks a = line -> place_line line ws = (toks, line') ->
  flows (Some a) toks (map (fun x => (false, text x)) ws) /\ ends_at (Some (default a (last toks))) line'.
Proof.
  revert a line toks. induction ws as [|w ws IH]; intros a line toks Hf Hl H; cbn [place_line] in H.
  - injection H as <- <-. done.
  - destruct (place_line (line + breaks w) ws) as [toks1 line1] eqn:E. injection H as <- <-.
    destruct (IH (mkToken EmptyString line (text w)) (line + breaks w) toks1) as [H1 H2]; [done| |done|].
    { by rewrite line_breaks_text. }
    cbn [map flows]. split.
    + split; [done|]. split; [|exact H1]. unfold follows, later_line, same_line. cbn [t_File t_Line].
      rewrite Hf, Hl, bool_decide_true by done. split; [by rewrite Z.ltb_irrefl | by rewrite Z.eqb_refl].
    + rewrite last_cons. destruct (last toks1); exact H2.
Qed.

Lemma flows_app prev toks1 toks2 fl1 fl2 :
  flows prev toks1 fl1 -> flows (match last toks1 with Some t => Some t | None => prev end) toks2 fl2 ->
  flows prev (toks1 ++ toks2) (fl1 ++ fl2).
Proof.
  revert prev fl1. induction toks1 as [|t toks1 IH]; intros prev fl1 H1 H2; destruct fl1 as [|[nl w] fl1]; try done.
  cbn [flows app] in *. destruct H1 as (Ht & Hf & H1). split; [done|]. split; [done|]. apply IH; [done|].
  rewrite last_cons in H2. by destruct (last toks1).
Qed.

Lemma place_flows prev line ls :
  ends_before prev line -> Forall (fun ws => ws <> []) ls -> flows prev (place line ls) (flow ls).
Proof.
  revert prev line. induction ls as [|ws ls IH]; intros prev line Hp Hne; [done|].
  inversion_clear Hne as [|? ? Hws Hls]. destruct ws as [|w ws]; [done|]. unfold flow. cbn [map concat place place_line].
  destruct (place_line (line + breaks w) ws) as [toks line'] eqn:E.
  set (a := mkToken EmptyString line (string_of_runes w)).
  destruct (place_line_rest a (line + breaks w) ws toks line') as [H1 H2]; [done | | done |].
  { unfold a. by rewrite line_breaks_text. }
  apply flows_app.
  - cbn [flow_line flows]. split; [done|]. split; [|done].
    destruct prev as [b|]; [|done]. destruct Hp as [Hf Hl]. unfold follows, later_line, same_line. cbn [t_File t_Line a].
    rewrite Hf, bool_decide_true by done. split.
    + apply Z.ltb_lt in Hl. by rewrite Hl.
    + apply Z.eqb_neq. lia.
  - rewrite last_cons. destruct (last toks) as [t|]; (apply IH; [|done]); destruct H2 as [Hf Hl]; cbn [from_option id] in Hf, Hl.
    + split; [done | lia].
    + clearbody a. split; [done | lia].
Qed.

(** ** The dispenser at a place between two lists of tokens *)

Definition zip (file : string) (before rest : list Token) (nst : Z) : Dispenser :=
  mkDispenser file (before ++ rest) (Z.of_nat (length before) - 1) nst.

Section Zip.
Context (file : string) (nst : Z).
Implicit Types (before rest : list Token) (a t : Token).

Lemma zip_length before rest : len (zip file before rest nst) = Z.of_nat (length before + length rest).
Proof. unfold len. cbn. by rewrite length_app. Qed.

Lemma Next_zip before t rest :
  Next (zip file before (t :: rest) nst) = (zip file (before ++ [t]) rest nst, true).
Proof.
  unfold Next. rewrite zip_length. cbn [cursor zip length]. rewrite (proj2 (Z.ltb_lt _ _)) by lia.
  unfold move, zip. cbn. rewrite <- app_assoc, length_app. cbn. repeat f_equal. lia.
Qed.

Lemma Next_end before : Next (zip file before [] nst) = (zip file before [] nst, false).
Proof. unfold Next. rewrite zip_length. cbn [cursor zip length]. by rewrite (proj2 (Z.ltb_ge _ _)) by lia. Qed.

Lemma move_back before t rest : move (-1) (zip file (before ++ [t]) rest nst) = zip file before (t :: rest) nst.
Proof. unfold move, zip. cbn. rewrite <- app_assoc, length_app. cbn. f_equal. lia. Qed.

Lemma token_zip before t rest i :
  i = Z.of_nat (length before) -> token_at (zip file (before ++ [t]) rest nst) i = Some t.
Proof.
  intros ->. unfold token_at. rewrite (proj2 (Z.leb_le _ _)) by lia. cbn [tokens zip]. rewrite Nat2Z.id, <- app_assoc.
  by apply list_lookup_middle.
Qed.

Lemma current_zip before t rest : current (zip file (before ++ [t]) rest nst) = Some t.
Proof. unfold current. apply token_zip. cbn. rewrite length_app. cbn. lia. Qed.

Lemma Val_zip before t rest : Val (zip file (before ++ [t]) rest nst) = t_Text t.
Proof. unfold Val. by rewrite current_zip. Qed.

Lemma isNewLine_zip before t rest :
  isNewLine (zip file (before ++ [t]) rest nst) = match last before with Some a => later_line a t | None => true end.
Proof.
  unfold isNewLine. destruct before as [|b before _] using rev_ind; [done|]. rewrite last_snoc.
  cbn [cursor zip]. rewrite !length_app. cbn [length]. rewrite (proj2 (Z.ltb_ge _ _)) by lia.
  rewrite current_zip.
  assert (Ht : token_at (zip file ((before ++ [b]) ++ [t]) rest nst) (Z.of_nat (length before + 1 + 1) - 1 - 1) = Some b).
  { unfold token_at. rewrite (proj2 (Z.leb_le _ _)) by lia. cbn [tokens zip]. rewrite <- !app_assoc.
    apply list_lookup_middle. lia. }
  by rewrite Ht.
Qed.

Lemma follows_newline before t rest nl :
  follows (last before) t nl -> isNewLine (zip file (before ++ [t]) rest nst) = nl.
Proof. rewrite isNewLine_zip. unfold follows. destruct (last before); [by intros [? _] | done]. Qed.

Lemma NextArg_zip before a t rest :
  NextArg (zip file (before ++ [a]) (t :: rest) nst) =
    if same_line a t then (zip file ((before ++ [a]) ++ [t]) rest nst, true)
    else (zip file (before ++ [a]) (t :: rest) nst, false).
Proof.
  unfold NextArg, next_if. cbn [cursor zip]. rewrite (proj2 (Z.ltb_ge _ _)) by (rewrite length_app; cbn; lia).
  rewrite current_zip.
  assert (Ht : token_at (zip file (before ++ [a]) (t :: rest) nst) (Z.of_nat (length (before ++ [a])) - 1 + 1) = Some t).
  { unfold token_at. rewrite (proj2 (Z.leb_le _ _)) by lia. cbn [tokens zip]. apply list_lookup_middle. lia. }
  rewrite Ht. case_match; [|done]. f_equal. unfold move, zip. cbn. rewrite <- !app_assoc, !length_app. cbn. f_equal. lia.
Qed.

Lemma NextArg_end before a : NextArg (zip file (before ++ [a]) [] nst) = (zip file (before ++ [a]) [] nst, false).
Proof.
  unfold NextArg, next_if. cbn [cursor zip]. rewrite (proj2 (Z.ltb_ge _ _)) by (rewrite length_app; cbn; lia).
  rewrite current_zip.
  assert (Ht : token_at (zip file (before ++ [a]) [] nst) (Z.of_nat (length (before ++ [a])) - 1 + 1) = None).
  { unfold token_at. rewrite (proj2 (Z.leb_le _ _)) by lia. cbn [tokens zip]. apply lookup_ge_None_2.
    rewrite !length_app. cbn. lia. }
  by rewrite Ht.
Qed.
End Zip.

(** ** The parser reads what is written *)

Lemma flows_split prev toks fl1 fl2 :
  flows prev toks (fl1 ++ fl2) ->
  exists toks1 toks2, toks = (toks1 ++ toks2)%list /\ flows prev toks1 fl1 /\
    flows (match last toks1 with Some t => Some t | None => prev end) toks2 fl2.
Proof.
  revert prev toks. induction fl1 as [|[nl w] fl1 IH]; intros prev toks H; [by exists [], toks|].
  destruct toks as [|t toks]; [done|]. cbn [flows app] in H. destruct H as (Ht & Hf & H).
  destruct (IH _ _ H) as (toks1 & toks2 & -> & H1 & H2). exists (t :: toks1), toks2. split; [done|]. split; [done|].
  rewrite last_cons. by destruct (last toks1).
Qed.

Lemma flows_texts prev toks fl : flows prev toks fl -> map t_Text toks = fl.*2.
Proof.
  revert prev fl. induction toks as [|t toks IH]; intros prev [|[nl w] fl] H; try done. cbn in *.
  destruct H as (-> & _ & H). f_equal. by eapply IH.
Qed.

Lemma flows_length prev toks fl : flows prev toks fl -> length toks = length fl.
Proof. intros H%flows_texts. by rewrite <- (length_map t_Text), H, length_map. Qed.

(** Words that refer to no variable *)
Definition plain (w : string) : bool :=
  bool_decide (StrIndex w "{%" = None) && bool_decide (StrIndex w "{$" = None).

(** The words after the name of a directive: braces match, and the directive
    goes on over the ends of lines only inside of braces. *)
Fixpoint scoped (depth : Z) (fl : list (bool * string)) : bool :=
  match fl with
  | [] => depth =? 0
  | (nl, w) :: fl' =>
      if decide (w = "{") then scoped (depth + 1) fl'
      else if nl && (depth =? 0) then false
      else if decide (w = "}") then (0 <? depth) && scoped (depth - 1) fl'
      else negb (bool_decide (w = "import") && nl) && scoped depth fl'
  end.

Definition add_to (dir : string) (m : gmap string (list Token)) (t : Token) : gmap string (list Token) :=
  <[dir := (default [] (m !! dir) ++ [t])%list]> m.

Lemma add_to_texts dir m t dir' :
  map t_Text (default [] (add_to dir m t !! dir')) =
    (map t_Text (default [] (m !! dir')) ++ if decide (dir = dir') then [t_Text t] else [])%list.
Proof.
  unfold add_to. case_decide as H; [subst dir'; rewrite lookup_insert_eq | rewrite lookup_insert_ne by done].
  - cbn. by rewrite map_app.
  - by rewrite app_nil_r.
Qed.

Lemma add_all_texts dir toks m dir' :
  map t_Text (default [] (fold_left (add_to dir) toks m !! dir')) =
    (map t_Text (default [] (m !! dir')) ++ if decide (dir = dir') then map t_Text toks else [])%list.
Proof.
  revert m. induction toks as [|t toks IH]; intros m; cbn [fold_left map].
  - case_decide; by rewrite app_nil_r.
  - rewrite IH, add_to_texts, <- app_assoc. f_equal. by case_decide.
Qed.

(** A directive of a block: a name at the start of a line and its words *)
Definition valid_name (valid : option (list string)) (name : string) : bool :=
  match valid with None => true | Some l => existsb (fun d => bool_decide (d = name)) l end.

Definition dir_ok (valid : option (list string)) (fl : list (bool * string)) : bool :=
  match fl with
  | (true, name) :: flb =>
      negb (bool_decide (name ∈ ["{"; "}"; "import"])) && plain name && valid_name valid name &&
      scoped 0 flb && forallb (fun x => plain x.2) flb
  | _ => false
  end.

Lemma dir_ok_first valid fl :
  dir_ok valid fl = true -> exists name flb, fl = (true, name) :: flb /\ name <> "{".
Proof.
  destruct fl as [|[[] name] flb]; try done. cbn. rewrite !andb_true_iff. intros ((((H%negb_true_iff & _) & _) & _) & _).
  apply bool_decide_eq_false in H. exists name, flb. split; [done|]. intros ->. apply H. by left.
Qed.

(** The words of the directives of a name *)
Definition dir_texts (dir : string) (F : list (list (bool * string))) : list string :=
  concat (map (fun fl => match fl with (_, name) :: _ => if decide (name = dir) then fl.*2 else [] | [] => [] end) F).

(** The keys of a block: the first word and what follows it on its line or
    after a comma *)
Definition key_ok (w : string) : bool := plain w && negb (bool_decide (w ∈ [EmptyString; "{"; "import"])).

Fixpoint heads_ok (another : bool) (fl : list (bool * string)) : bool :=
  match fl with
  | [] => negb another
  | (nl, w) :: fl' => (another || negb nl) && key_ok w && heads_ok (cut_comma w).2 fl'
  end.

Definition keys_ok (fl : list (bool * string)) : bool :=
  match fl with [] => false | (_, w) :: fl' => key_ok w && heads_ok (cut_comma w).2 fl' end.

Section Grammar.
Context (Getenv : string -> string) (Getwd : string + string) (Glob : string -> list string + string) (Open : string -> file).
Context (fuel : nat).
Implicit Types (p : parser).

Lemma replace_plain w : (0 < fuel)%nat -> plain w = true -> replaceEnvVars Getenv fuel w = Some w.
Proof.
  intros Hf [H1 H2]%andb_true_iff. apply bool_decide_eq_true in H1, H2.
  unfold replaceEnvVars, replaceEnvReferences. destruct fuel; [lia|]. cbn [replace_refs]. rewrite H1. cbn [replace_refs]. by rewrite H2.
Qed.

(** The parser at a place, with the tokens of its block *)
Definition at_place p (d : Dispenser) (b : ServerBlock) : parser :=
  mkParser d b (validDirectives p) (eof p) (definedSnippets p).

Lemma at_place_idem p d b d' b' : at_place (at_place p d b) d' b' = at_place p d' b'.
Proof. done. Qed.

Lemma keep_token_ok file nst dir before t rest p keys m :
  (0 < fuel)%nat -> disp p = zip file (before ++ [t]) rest nst -> block p = mkServerBlock keys m -> plain (t_Text t) = true ->
  keep_token Getenv fuel dir p = (at_place p (disp p) (mkServerBlock keys (add_to dir m t)), Done tt).
Proof.
  intros Hf Hd Hb Hp. unfold keep_token, pm_bind, this_token, or_loop, set_text, on_disp, add_token, on_block.
  rewrite Hd, current_zip, replace_plain by done. cbn [disp set_disp block]. rewrite Hb. unfold at_place, set_block, set_disp.
  cbn. unfold add_to. destruct t as [tf tl tt]. cbn. repeat f_equal.
  rewrite list_insert_id; [done|]. rewrite <- app_assoc. apply list_lookup_middle. rewrite length_app. cbn. lia.
Qed.

(** Where a directive ends: at the end of the input or at a token of another
    line that opens no block. *)
Definition ends_directive (prev : option Token) (rest : list Token) : Prop :=
  match rest with
  | [] => True
  | t :: _ => follows prev t true /\ t_Text t <> "{"
  end.

Lemma directive_loop_ok file nst n dir depth body before rest flb p keys m :
  (0 < fuel)%nat -> before <> [] ->
  disp p = zip file before (body ++ rest) nst -> block p = mkServerBlock keys m ->
  flows (last before) body flb -> scoped depth flb = true -> forallb (fun x => plain x.2) flb = true ->
  ends_directive (last (before ++ body)) rest -> (length body < n)%nat ->
  directive_loop Getenv Getwd Glob Open fuel n dir depth p =
    (at_place p (zip file (before ++ body) rest nst) (mkServerBlock keys (fold_left (add_to dir) body m)), Done tt).
Proof.
  intros Hfuel. revert depth body before flb p m. induction n as [|n IH]; intros depth body before flb p m Hbef Hd Hb Hfl Hs Hp He Hn; [lia|].
  destruct flb as [|[nl w] flb].
  - destruct body; [|done]. cbn [app] in *. rewrite app_nil_r in *. cbn [scoped] in Hs. apply Z.eqb_eq in Hs as ->.
    cbn [directive_loop]. unfold pm_bind, on_disp. rewrite Hd. destruct rest as [|t rest].
    + rewrite Next_end. cbn. unfold pm_ret, set_disp, at_place. by rewrite Hb.
    + rewrite Next_zip. cbn [negb]. destruct He as [Hnl Hne]. unfold ask. cbn [disp set_disp].
      rewrite Val_zip, decide_False by done. rewrite (follows_newline _ _ _ _ _ _ Hnl). cbn [andb Z.eqb].
      unfold step, on_disp. cbn [disp set_disp]. rewrite move_back. unfold at_place, set_disp. cbn. by rewrite Hb.
  - destruct body as [|t body]; [done|]. cbn [flows] in Hfl. destruct Hfl as (Ht & Hnl & Hfl).
    cbn [forallb] in Hp. apply andb_true_iff in Hp as [Hpw Hp]. cbn [snd] in Hpw.
    assert (Hkeep : forall depth', scoped depth' flb = true ->
      directive_loop Getenv Getwd Glob Open fuel n dir depth'
        (at_place p (zip file (before ++ [t]) (body ++ rest) nst) (mkServerBlock keys (add_to dir m t))) =
      (at_place p (zip file (before ++ t :: body) rest nst) (mkServerBlock keys (fold_left (add_to dir) (t :: body) m)), Done tt)).
    { intros depth' Hs'. rewrite (IH depth' body (before ++ [t])%list flb _ (add_to dir m t)); try done.
      - rewrite <- app_assoc. by rewrite at_place_idem.
      - by destruct before.
      - by rewrite last_snoc.
      - rewrite <- app_assoc. done.
      - cbn in Hn. lia. }
    cbn [directive_loop]. unfold pm_bind at 1, on_disp at 1. rewrite Hd. cbn [app]. rewrite Next_zip. cbn [negb].
    unfold pm_bind at 1, ask at 1. cbn [disp set_disp]. rewrite Val_zip, Ht.
    unfold pm_bind at 1, ask at 1. cbn [disp set_disp]. rewrite (follows_newline _ _ _ _ _ _ Hnl).
    assert (Hk : keep_token Getenv fuel dir (set_disp (zip file (before ++ [t]) (body ++ rest) nst) p) =
      (at_place p (zip file (before ++ [t]) (body ++ rest) nst) (mkServerBlock keys (add_to dir m t)), Done tt)).
    { erewrite keep_token_ok; [|done|done|exact Hb|by rewrite Ht]. done. }
    cbn [scoped] in Hs. destruct (decide (w = "{")); [unfold pm_bind; rewrite Hk; by apply Hkeep|].
    destruct (nl && (depth =? 0)); [done|]. destruct (decide (w = "}")).
    + apply andb_true_iff in Hs as [Hpos Hs]. rewrite Hpos. unfold pm_bind. rewrite Hk. by apply Hkeep.
    + apply andb_true_iff in Hs as [Himp%negb_true_iff Hs]. rewrite Himp. unfold pm_bind. rewrite Hk. by apply Hkeep.
Qed.

Lemma directive_ok file nst name before t body rest flb p keys m :
  (length body < fuel)%nat ->
  disp p = zip file (before ++ [t]) (body ++ rest) nst -> block p = mkServerBlock keys m ->
  t_Text t = name -> plain name = true -> validDirective p name = true ->
  flows (Some t) body flb -> scoped 0 flb = true -> forallb (fun x => plain x.2) flb = true ->
  ends_directive (last (before ++ t :: body)) rest ->
  directive Getenv Getwd Glob Open fuel p =
    (at_place p (zip file (before ++ t :: body) rest nst) (mkServerBlock keys (fold_left (add_to name) (t :: body) m)), Done tt).
Proof.
  intros Hf Hd Hb Ht Hp Hv Hfl Hs Hps He. unfold directive, pm_bind, ask, or_loop, this_token.
  rewrite Hd, Val_zip, Ht, replace_plain by (lia || done). cbn [disp]. rewrite Hv. cbn [negb]. rewrite Hd, current_zip.
  unfold add_token, on_block. rewrite Hb. cbn [Keys b_Tokens].
  rewrite (directive_loop_ok file nst fuel name 0 body (before ++ [t]) rest flb _ keys (add_to name m t)); try done.
  - by rewrite <- app_assoc.
  - lia.
  - by destruct before.
  - by rewrite last_snoc.
  - by rewrite <- app_assoc.
Qed.

Lemma last_app_cons {A : Type} (l l' : list A) x : last (l ++ x :: l') = last (x :: l').
Proof. rewrite last_app, last_cons. by destruct (last l'). Qed.

Lemma directives_ok file nst valid F toks before p keys m n flr :
  (length toks < fuel)%nat -> (length F < n)%nat -> before <> [] ->
  disp p = zip file before toks nst -> block p = mkServerBlock keys m -> validDirectives p = valid ->
  forallb (dir_ok valid) F = true ->
  flows (last before) toks (concat F ++ (true, "}") :: flr) ->
  exists toks1 c toks2 m',
    toks = (toks1 ++ c :: toks2)%list /\ t_Text c = "}" /\ flows (Some c) toks2 flr /\
    directives Getenv Getwd Glob Open fuel n p =
      (at_place p (zip file ((before ++ toks1) ++ [c]) toks2 nst) (mkServerBlock keys m'), Done tt) /\
    forall dir, map t_Text (default [] (m' !! dir)) = (map t_Text (default [] (m !! dir)) ++ dir_texts dir F)%list.
Proof.
  revert toks before p m n. induction F as [|fl F IH]; intros toks before p m n Hfuel Hn Hbef Hd Hb Hv HF Hfl;
    (destruct n as [|n]; [lia|]).
  - cbn [concat app] in Hfl. destruct toks as [|c toks]; [done|]. cbn [flows] in Hfl. destruct Hfl as (Hc & _ & Hfl).
    exists [], c, toks, m. split; [done|]. split; [done|]. split; [done|]. split.
    + cbn [directives]. unfold pm_bind, on_disp, ask. rewrite Hd, Next_zip. cbn [negb disp set_disp].
      rewrite Val_zip, Hc, decide_True by done. rewrite app_nil_r. unfold pm_ret, at_place, set_disp. by rewrite Hb.
    + intros dir. cbn. by rewrite app_nil_r.
  - cbn [forallb] in HF. apply andb_true_iff in HF as [Hdir HF].
    destruct fl as [|[[] name] flb]; try done. unfold dir_ok in Hdir. rewrite !andb_true_iff in Hdir.
    destruct Hdir as ((((Hname%negb_true_iff & Hpn) & Hvn) & Hsc) & Hpl). apply bool_decide_eq_false in Hname.
    cbn [concat] in Hfl. rewrite <- app_assoc in Hfl. destruct toks as [|t toks]; [done|].
    cbn [app flows] in Hfl. destruct Hfl as (Ht & Hnl & Hfl).
    destruct (flows_split _ _ _ _ Hfl) as (body & rest & -> & Hbody & Hrest).
    assert (Hlast : last (before ++ t :: body) = match last body with Some x => Some x | None => Some t end).
    { rewrite last_app_cons, last_cons. by destruct (last body). }
    assert (Hends : ends_directive (last (before ++ t :: body)) rest).
    { rewrite Hlast. destruct rest as [|u rest]; [done|]. destruct F as [|fl2 F].
      - destruct Hrest as (Hu & Hr & _). split; [done | by rewrite Hu].
      - cbn [forallb] in HF. apply andb_true_iff in HF as [H2 _]. apply dir_ok_first in H2 as (w & flb2 & -> & Hw).
        destruct Hrest as (Hu & Hr & _). split; [done | by rewrite Hu]. }
    cbn [length] in Hfuel. rewrite length_app in Hfuel.
    pose proof (directive_ok file nst name before t body rest flb (set_disp (zip file (before ++ [t]) (body ++ rest) nst) p) keys m)
      as Hone.
    destruct (IH rest (before ++ t :: body)%list
                (at_place p (zip file (before ++ t :: body) rest nst) (mkServerBlock keys (fold_left (add_to name) (t :: body) m)))
                (fold_left (add_to name) (t :: body) m) n) as (toks1 & c & toks2 & m' & -> & Hc & Hflr & Hrun & Htexts); try done.
    + lia.
    + cbn in Hn. lia.
    + by destruct before.
    + rewrite Hlast. by destruct (last body).
    + exists (t :: body ++ toks1)%list, c, toks2, m'. split; [by cbn; rewrite <- app_assoc|]. split; [done|]. split; [done|]. split.
      * cbn [directives]. unfold pm_bind at 1, on_disp. rewrite Hd, Next_zip. cbn [negb]. unfold pm_bind at 1, ask.
        cbn [disp set_disp]. rewrite Val_zip, Ht.
        rewrite decide_False by (intros ->; apply Hname; set_solver). rewrite decide_False by (intros ->; apply Hname; set_solver).
        unfold pm_bind. rewrite Hone; try done; [|lia|by unfold validDirective; cbn; rewrite Hv].
        etransitivity; [exact Hrun|]. by rewrite <- (app_assoc before (t :: body) toks1).
      * intros dir. rewrite Htexts, add_all_texts, <- app_assoc. f_equal. unfold dir_texts. cbn [map concat].
        case_decide; [|done]. f_equal. cbn. rewrite Ht. f_equal. by eapply flows_texts.
Qed.

Definition keys_of (hl : list (bool * string)) : list string := map (fun x => (cut_comma x.2).1) hl.

Lemma addresses_ok file nst hl nlb w t toks before p keys m n ex flr :
  (0 < fuel)%nat -> (S (length hl) < n)%nat ->
  disp p = zip file (before ++ [t]) toks nst -> block p = mkServerBlock keys m ->
  t_Text t = w -> key_ok w = true -> heads_ok (cut_comma w).2 hl = true ->
  flows (Some t) toks (hl ++ (nlb, "{") :: flr) ->
  exists toks1 o toks2,
    toks = (toks1 ++ o :: toks2)%list /\ t_Text o = "{" /\ flows (Some o) toks2 flr /\
    addresses Getenv Getwd Glob Open fuel n ex p =
      (at_place p (zip file ((before ++ t :: toks1) ++ [o]) toks2 nst)
         (mkServerBlock (keys ++ (cut_comma w).1 :: keys_of hl) m), Done tt).
Proof.
  intros Hfuel. revert w t toks before p keys n ex.
  induction hl as [|[nl w2] hl IH]; intros w t toks before p keys n ex Hn Hd Hb Ht Hk Hh Hfl.
  all: destruct n as [|n]; [lia|]; destruct toks as [|u toks]; [done|].
  all: pose proof Hk as Hk0; unfold key_ok in Hk; apply andb_true_iff in Hk as [Hp Hin%negb_true_iff];
    apply bool_decide_eq_false in Hin.
  all: assert (H1 : w <> EmptyString) by (intros ->; apply Hin; by left);
    assert (H2 : w <> "{") by (intros ->; apply Hin; set_solver);
    assert (H3 : w <> "import") by (intros ->; apply Hin; set_solver).
  all: cbn [addresses]; unfold pm_bind at 1, ask at 1; rewrite Hd, Val_zip, Ht;
    unfold pm_bind at 1, or_loop at 1; rewrite replace_plain by done;
    unfold pm_bind at 1, ask at 1; rewrite decide_False by (by intros [? _]); rewrite !decide_False by done;
    destruct (cut_comma w) as [key comma] eqn:Ec; cbn [fst snd] in *.
  all: unfold pm_bind at 1; unfold pm_bind at 1; unfold on_block; rewrite Hb; cbn [Keys b_Tokens pm_ret];
    unfold pm_bind at 1, on_disp; cbn [disp set_block]; rewrite Hd, Next_zip; cbn [negb]; rewrite andb_false_r;
    unfold pm_bind at 1, ask at 1; cbn [disp set_disp]; cbn [app flows] in Hfl; destruct Hfl as (Hu & Hnl & Hfl);
    rewrite (follows_newline file nst (before ++ [t]) u toks _) by (rewrite last_snoc; exact Hnl).
  - cbn [heads_ok] in Hh. apply negb_true_iff in Hh as ->. cbn [negb andb].
    exists [], u, toks. split; [done|]. split; [done|]. split; [done|]. destruct nlb; [done|].
    destruct n as [|n]; [cbn in Hn; lia|]. cbn [addresses]. unfold pm_bind, ask, or_loop. cbn [disp set_disp].
    rewrite Val_zip, Hu, replace_plain by done. by rewrite decide_False by (by intros [? _]).
  - cbn [heads_ok] in Hh. rewrite !andb_true_iff in Hh. destruct Hh as ((Hc & Hk2) & Hh).
    replace (negb comma && nl) with false by (by destruct comma, nl).
    destruct (IH w2 u toks (before ++ [t])%list
                (set_disp (zip file ((before ++ [t]) ++ [u]) toks nst) (set_block (mkServerBlock (keys ++ [key]) m) p))
                (keys ++ [key])%list n comma) as (toks1 & o & toks2 & -> & Ho & Hflr & Hrun); try done.
    { cbn in Hn. lia. }
    exists (u :: toks1), o, toks2. split; [done|]. split; [done|]. split; [done|]. etransitivity; [exact Hrun|].
    unfold at_place. cbn [validDirectives eof definedSnippets set_disp set_block keys_of map snd].
    by rewrite <- !app_assoc.
Qed.

Lemma parseOne_ok file nst valid hl F t toks before p flr :
  (S (length toks) < fuel)%nat ->
  disp p = zip file (before ++ [t]) toks nst -> validDirectives p = valid -> eof p = false ->
  keys_ok ((true, t_Text t) :: hl) = true -> isSnippet (mkServerBlock (keys_of ((true, t_Text t) :: hl)) ∅) = None ->
  forallb (dir_ok valid) F = true ->
  flows (Some t) toks (hl ++ (false, "{") :: concat F ++ (true, "}") :: flr) ->
  exists toks1 c toks2 m,
    toks = (toks1 ++ c :: toks2)%list /\ flows (Some c) toks2 flr /\
    parseOne Getenv Getwd Glob Open fuel p =
      (at_place p (zip file ((before ++ t :: toks1) ++ [c]) toks2 nst)
         (mkServerBlock (keys_of ((true, t_Text t) :: hl)) m), Done tt) /\
    forall dir, map t_Text (default [] (m !! dir)) = dir_texts dir F.
Proof.
  intros Hfuel Hd Hv He Hk Hs HF Hfl. pose proof (flows_length _ _ _ Hfl) as Hlen. rewrite !length_app in Hlen. cbn in Hlen.
  cbn [keys_ok] in Hk. apply andb_true_iff in Hk as [Hk Hh].
  set (p0 := set_block (mkServerBlock [] ∅) p).
  destruct (addresses_ok file nst hl false (t_Text t) t toks before p0 [] ∅ fuel false
              (concat F ++ (true, "}") :: flr)) as (toks1 & o & toks2 & -> & Ho & Hfl2 & Haddr); try done; [lia..|].
  cbn [app] in Haddr.
  set (keys := keys_of ((true, t_Text t) :: hl)) in *. set (before2 := ((before ++ t :: toks1) ++ [o])%list) in *.
  change ((cut_comma (t_Text t)).1 :: keys_of hl) with keys in Haddr. clearbody keys.
  rewrite length_app in Hfuel. cbn in Hfuel.
  assert (HFlen : (length F < fuel)%nat).
  { apply flows_length in Hfl2. rewrite length_app in Hfl2. cbn in Hfl2.
    enough (length F <= length (concat F))%nat by lia. revert HF. clear. induction F as [|fl F IH]; [done|].
    cbn. intros [Hd HF]%andb_true_iff. destruct (dir_ok_first _ _ Hd) as (? & ? & -> & _). specialize (IH HF).
    cbn. rewrite length_app. lia. }
  destruct (directives_ok file nst valid F toks2 before2 (at_place p0 (zip file before2 toks2 nst) (mkServerBlock keys ∅))
              keys ∅ fuel flr) as (toks3 & c & toks4 & m & -> & Hc & Hflr & Hdirs & Htexts); try done.
  - lia.
  - unfold before2. by destruct (before ++ t :: toks1)%list.
  - unfold before2. by rewrite last_snoc.
  - exists (toks1 ++ o :: toks3)%list, c, toks4, m. split; [by rewrite <- app_assoc|]. split; [done|]. split; [|exact Htexts].
    unfold parseOne, begin_, pm_bind, on_block, ask. cbn [disp set_block]. rewrite Hd. cbn [tokens zip].
    rewrite decide_False by (rewrite !length_app; cbn; lia).
    change (set_block {| Keys := []; b_Tokens := ∅ |} p) with p0. cbn [disp] in Haddr. rewrite Haddr.
    cbn [eof at_place p0 set_block block]. rewrite He.
    change (block (at_place p0 (zip file before2 (toks3 ++ c :: toks4) nst) (mkServerBlock keys ∅))) with (mkServerBlock keys ∅).
    rewrite Hs. unfold blockContents, pm_bind, ask, openCurlyBrace, closeCurlyBrace.
    cbn [disp at_place]. rewrite decide_True by (unfold before2; by rewrite Val_zip).
    rewrite Hdirs. cbn [disp at_place]. rewrite decide_True by (by rewrite Val_zip). unfold pm_ret, at_place.
    cbn [validDirectives eof definedSnippets p0 set_block]. unfold before2.
    rewrite <- !app_assoc. cbn [app]. by rewrite <- !app_assoc.
Qed.

Definition block_ok (valid : option (list string)) (B : list (bool * string) * list (list (bool * string))) : bool :=
  match B.1 with
  | (true, _) :: _ => keys_ok B.1 && bool_decide (isSnippet (mkServerBlock (keys_of B.1) ∅) = None) && forallb (dir_ok valid) B.2
  | _ => false
  end.

Definition block_flow (B : list (bool * string) * list (list (bool * string))) : list (bool * string) :=
  (B.1 ++ (false, "{") :: concat B.2 ++ [(true, "}")])%list.

Definition reads (b : ServerBlock) (B : list (bool * string) * list (list (bool * string))) : Prop :=
  Keys b = keys_of B.1 /\ forall dir, map t_Text (default [] (b_Tokens b !! dir)) = dir_texts dir B.2.

Lemma parseAll_ok file nst valid Bs toks before p n :
  (S (length toks) < fuel)%nat -> (length Bs < n)%nat ->
  disp p = zip file before toks nst -> validDirectives p = valid -> eof p = false ->
  forallb (block_ok valid) Bs = true -> flows (last before) toks (concat (map block_flow Bs)) ->
  exists blocks, parseAll Getenv Getwd Glob Open fuel n p = Done (blocks, None) /\ Forall2 reads blocks Bs.
Proof.
  revert toks before p n. induction Bs as [|[hl F] Bs IH]; intros toks before p n Hfuel Hn Hd Hv He HB Hfl;
    (destruct n as [|n]; [lia|]); cbn [parseAll]; rewrite Hd.
  - destruct toks; [|done]. rewrite Next_end. by exists [].
  - cbn [forallb] in HB. apply andb_true_iff in HB as [HB HBs]. unfold block_ok in HB. cbn [fst snd] in HB.
    destruct hl as [|[[] w] hl]; [done| |done]. rewrite !andb_true_iff in HB. destruct HB as ((Hk & Hs) & HF).
    apply bool_decide_eq_true in Hs. cbn [map concat] in Hfl. unfold block_flow in Hfl. cbn [fst snd app] in Hfl.
    rewrite <- app_assoc in Hfl. cbn [app] in Hfl. rewrite <- app_assoc in Hfl. cbn [app] in Hfl.
    destruct toks as [|t toks]; [done|]. cbn [flows] in Hfl. destruct Hfl as (<- & Hnl & Hfl). rewrite Next_zip.
    cbn [length] in Hfuel.
    destruct (parseOne_ok file nst valid hl F t toks before (set_disp (zip file (before ++ [t]) toks nst) p)
                (concat (map block_flow Bs))) as (toks1 & c & toks2 & m & -> & Hfl2 & Hone & Htexts); try done; [lia|].
    rewrite Hone. rewrite length_app in Hfuel. cbn [length] in *.
    destruct (IH toks2 ((before ++ t :: toks1) ++ [c])%list
                (at_place (set_disp (zip file (before ++ [t]) (toks1 ++ c :: toks2) nst) p)
                   (zip file ((before ++ t :: toks1) ++ [c]) toks2 nst)
                   (mkServerBlock (keys_of ((true, t_Text t) :: hl)) m)) n) as (blocks & Hrun & Hreads); try done; [lia|lia| |].
    { by rewrite last_snoc. }
    rewrite Hrun. eexists. split; [reflexivity|]. cbn [block at_place Keys keys_of map]. constructor; [|done]. by split.
Qed.
End Grammar.

(** ** Documents *)

Definition OPEN : word := [123].
Definition CLOSE : word := [125].

(** A server block of a document: the keys on a line, and its directives, each a
    list of lines *)
Record source_block := mkSource { s_keys : list word; s_dirs : list (list (list word)) }.

Definition lines_of (b : source_block) : list (list word) :=
  ((s_keys b ++ [OPEN]) :: concat (s_dirs b) ++ [[CLOSE]])%list.
Definition document (bs : list source_block) : list (list word) := concat (map lines_of bs).

(** Well-formed blocks: words that can be written, keys that are keys, and
    directives that are valid and whose braces match *)
Definition wf_block (valid : option (list string)) (b : source_block) : bool :=
  forallb writable (s_keys b) &&
  forallb (forallb (fun l => bool_decide (l <> []) && forallb writable l)) (s_dirs b) &&
  block_ok valid (flow_line (s_keys b), map flow (s_dirs b)).

(** What the parser is to find: the keys without their commas, and for each name
    the words of the directives of that name in their order *)
Definition source_keys (b : source_block) : list string := map (fun k => (cut_comma (text k)).1) (s_keys b).
Definition source_words (dir : string) (b : source_block) : list string :=
  concat (map (fun ls => if decide (head (map text (concat ls)) = Some dir) then map text (concat ls) else []) (s_dirs b)).

Lemma flow_app ls ls' : flow (ls ++ ls') = (flow ls ++ flow ls')%list.
Proof. unfold flow. by rewrite map_app, concat_app. Qed.

Lemma flow_concat lss : flow (concat lss) = concat (map flow lss).
Proof. induction lss as [|ls lss IH]; [done|]. cbn [concat map]. by rewrite flow_app, IH. Qed.

Lemma flow_lines_of b :
  s_keys b <> [] -> flow (lines_of b) = block_flow (flow_line (s_keys b), map flow (s_dirs b)).
Proof.
  intros Hk. unfold lines_of, block_flow. cbn [fst snd]. change ((?x :: ?l)) with ([x] ++ l)%list at 1.
  rewrite !flow_app, flow_concat. change (flow [[CLOSE]]) with [(true, "}")]. unfold flow at 1. cbn [map concat].
  rewrite app_nil_r. destruct (s_keys b) as [|k ks]; [done|]. cbn [flow_line app]. rewrite map_app. cbn [map].
  rewrite <- app_assoc. done.
Qed.

Lemma flow_document bs :
  Forall (fun b => s_keys b <> []) bs ->
  flow (document bs) = concat (map block_flow (map (fun b => (flow_line (s_keys b), map flow (s_dirs b))) bs)).
Proof.
  unfold document. induction 1 as [|b bs Hb _ IH]; [done|]. cbn [map concat]. by rewrite flow_app, flow_lines_of, IH.
Qed.

Lemma flow_texts ls : (flow ls).*2 = map text (concat ls).
Proof.
  unfold flow. induction ls as [|ws ls IH]; [done|]. cbn [map concat]. rewrite fmap_app, IH, map_app. f_equal.
  destruct ws as [|w ws]; [done|]. cbn. f_equal. induction ws as [|x ws IHw]; [done|]. cbn. by f_equal.
Qed.

Lemma flow_head ls : Forall (fun l => l <> []) ls ->
  match flow ls with (_, name) :: _ => Some name | [] => None end = head (map text (concat ls)).
Proof. intros H. destruct ls as [|[|w ws] ls]; [done| |done]. inversion_clear H. done. Qed.

Lemma place_length line ls : length (place line ls) = words_of ls.
Proof.
  assert (Hl : forall ws line, length (place_line line ws).1 = length ws).
  { induction ws as [|w ws IH]; intros l; [done|]. cbn [place_line]. specialize (IH (l + breaks w)).
    destruct (place_line (l + breaks w) ws). cbn in *. by rewrite IH. }
  revert line. induction ls as [|ws ls IH]; intros line; [done|]. unfold words_of in *. cbn [place concat].
  specialize (Hl ws line). destruct (place_line line ws) as [toks line']. rewrite !length_app, IH. cbn in Hl. by rewrite Hl.
Qed.

Lemma wf_keys valid b : wf_block valid b = true -> s_keys b <> [].
Proof. unfold wf_block, block_ok. rewrite !andb_true_iff. cbn. intros [_ H] E. by rewrite E in H. Qed.

Lemma wf_lines valid b : wf_block valid b = true ->
  Forall (fun l => l <> []) (lines_of b) /\ forallb (forallb writable) (lines_of b) = true.
Proof.
  intros Hwf. pose proof (wf_keys _ _ Hwf) as Hk. unfold wf_block in Hwf. rewrite !andb_true_iff in Hwf.
  destruct Hwf as ((Hw & Hd) & _). rewrite forallb_forall in Hd.
  assert (Hd' : forall l, In l (concat (s_dirs b)) -> l <> [] /\ forallb writable l = true).
  { intros l (ls & Hls & Hl)%in_concat. specialize (Hd ls Hls). rewrite forallb_forall in Hd.
    specialize (Hd l Hl). apply andb_true_iff in Hd as [H1 H2]. by apply bool_decide_eq_true in H1. }
  unfold lines_of. split.
  - constructor; [by destruct (s_keys b)|]. apply Forall_app. split; [|by repeat constructor].
    apply Forall_forall. intros l Hl. apply Hd'. by apply list_elem_of_In.
  - change (?x :: ?l) with ([x] ++ l)%list. rewrite !forallb_app. change (forallb (forallb writable) [[CLOSE]]) with true.
    rewrite andb_true_r. apply andb_true_iff. split; [cbn [forallb]; by rewrite forallb_app, Hw|]. apply forallb_forall. intros l Hl. by apply Hd'.
Qed.

Lemma wf_document valid bs : forallb (wf_block valid) bs = true ->
  Forall (fun l => l <> []) (document bs) /\ forallb (forallb writable) (document bs) = true /\
  Forall (fun b => s_keys b <> []) bs.
Proof.
  unfold document. induction bs as [|b bs IH]; [done|]. cbn [forallb map concat]. intros [Hb Hbs]%andb_true_iff.
  destruct (wf_lines _ _ Hb) as [H1 H2], (IH Hbs) as (H3 & H4 & H5). split; [by apply Forall_app|].
  split; [by rewrite forallb_app, H2, H4|]. constructor; [by eapply wf_keys | done].
Qed.

Lemma dir_texts_words valid b dir :
  wf_block valid b = true -> dir_texts dir (map flow (s_dirs b)) = source_words dir b.
Proof.
  intros Hwf. unfold wf_block in Hwf. rewrite !andb_true_iff in Hwf. destruct Hwf as ((_ & Hd) & _).
  unfold dir_texts, source_words. rewrite map_map. f_equal. apply map_ext_in. intros ls Hls.
  rewrite forallb_forall in Hd. specialize (Hd ls Hls). rewrite forallb_forall in Hd.
  assert (Hne : Forall (fun l => l <> []) ls).
  { apply Forall_forall. intros l Hl. apply list_elem_of_In in Hl. specialize (Hd l Hl).
    apply andb_true_iff in Hd as [H1 _]. by apply bool_decide_eq_true in H1. }
  pose proof (flow_head ls Hne) as Hh. rewrite <- flow_texts. rewrite <- flow_texts in Hh. rewrite <- Hh.
  destruct (flow ls) as [|[nl name] fl]; [by case_decide|]. do 2 case_decide; try done; congruence.
Qed.

Lemma Forall2_impl_in_r {A B : Type} (P Q : A -> B -> Prop) l k :
  Forall2 P l k -> (forall x y, y ∈ k -> P x y -> Q x y) -> Forall2 Q l k.
Proof.
  induction 1 as [|x y l k Hxy _ IH]; intros H; constructor; [apply H; [by left | done]|].
  apply IH. intros x' y' Hin. apply H. by right.
Qed.

(** ** Theorems *)

(** C23.  Well-formed server blocks, written with every word in quotes, are read
    back by Parse: it returns as many blocks, with the keys without their commas,
    and under each name the words of the directives of that name, in their order,
    their nested blocks included. *)
Theorem parse_reads_what_is_written Getenv Getwd Glob Open fuel filename valid bs :
  bs <> [] -> forallb (wf_block valid) bs = true -> (S (words_of (document bs)) < fuel)%nat ->
  exists blocks,
    Parse Getenv Getwd Glob Open fuel filename (string_of_runes (write (document bs))) valid = Done (blocks, None) /\
    Forall2 (fun b src => Keys b = source_keys src /\
                          forall dir, map t_Text (default [] (b_Tokens b !! dir)) = source_words dir src) blocks bs.
Proof.
  intros Hne Hwf Hf. destruct (wf_document _ _ Hwf) as (Hlines & Hwr & Hkeys).
  assert (Hdoc : document bs <> []). { destruct bs; [done|]. unfold document, lines_of. done. }
  unfold Parse, NewDispenser. rewrite allTokens_write by done.
  pose proof (place_flows None 1 (document bs) I Hlines) as Hfl. rewrite flow_document in Hfl by done.
  pose proof (place_length 1 (document bs)) as Hlen.
  set (Bs := map (fun b => (flow_line (s_keys b), map flow (s_dirs b))) bs) in *.
  assert (HBs : (length Bs <= words_of (document bs))%nat).
  { unfold Bs. rewrite length_map. clear -Hkeys. unfold words_of, document. induction Hkeys as [|b bs Hb _ IH]; [done|].
    cbn [map concat length]. unfold lines_of at 1. cbn [app concat]. rewrite concat_app, !length_app. cbn. lia. }
  destruct (parseAll_ok Getenv Getwd Glob Open fuel filename 0 valid Bs (place 1 (document bs)) []
              (mkParser (NewDispenserTokens filename (place 1 (document bs))) (mkServerBlock [] ∅) valid false ∅) fuel)
    as (blocks & Hrun & Hreads); try done; try lia.
  - unfold Bs. rewrite forallb_forall. intros B (b & <- & Hb)%in_map_iff. rewrite forallb_forall in Hwf.
    specialize (Hwf b Hb). unfold wf_block in Hwf. by apply andb_true_iff in Hwf as [_ ?].
  - exists blocks. split; [exact Hrun|]. rewrite forallb_forall in Hwf.
    assert (Hr : Forall2 (fun b src => reads b (flow_line (s_keys src), map flow (s_dirs src))) blocks bs).
    { exact (proj1 (Forall2_fmap_r (fun src => (flow_line (s_keys src), map flow (s_dirs src))) _ _ _) Hreads). }
    eapply Forall2_impl_in_r; [exact Hr|]. intros b src Hin [Hk Ht]. apply list_elem_of_In in Hin.
    specialize (Hwf src Hin). split.
    + rewrite Hk. cbn [fst]. unfold source_keys, keys_of. destruct (s_keys src) as [|k ks]; [done|]. cbn. f_equal.
      rewrite map_map. done.
    + intros dir. rewrite Ht. cbn [snd]. by eapply dir_texts_words.
Qed.

(** ** Variables *)

Lemma StrIndex_prefix s sub i : StrIndex s sub = Some i -> HasPrefix (drop_str i s) sub = true.
Proof.
  revert i. induction s as [|c s IH]; intros i H; cbn [StrIndex] in H; destruct (HasPrefix _ sub) eqn:E in H; simplify_eq; try done.
  destruct (StrIndex s sub) as [j|] eqn:Ej; [|done]. injection H as <-. cbn [drop_str]. by apply IH.
Qed.

Lemma prefix_take s t n : HasPrefix s t = true -> (String.length t <= n)%nat -> HasPrefix (take_str n s) t = true.
Proof.
  revert s n. induction t as [|c t IH]; intros s n H Hn; [by destruct (take_str n s)|].
  destruct s as [|d s]; [done|]. destruct n as [|n]; [cbn in Hn; lia|]. cbn in *. apply andb_true_iff in H as [H1 H2].
  apply andb_true_iff. split; [done|]. apply IH; [done|lia].
Qed.

(** Replacing a text that starts with a brace by one without braces removes
    braces. *)
Lemma replace_braces_le k old new s :
  HasPrefix old "{" = true -> no_char "{" new = true ->
  (count_char "{" (replace_skip k old new s) <= count_char "{" s)%nat.
Proof.
  intros Ho Hn. assert (H0 : count_char "{" new = O).
  { clear -Hn. induction new as [|c new IH]; [done|]. cbn in *. apply andb_true_iff in Hn as [H1%bool_decide_eq_true H2].
    rewrite decide_False by done. by apply IH. }
  revert k. induction s as [|c s IH]; intros k; [done|]. cbn [replace_skip]. destruct k as [|k].
  - destruct (HasPrefix (String c s) old) eqn:E.
    + rewrite count_char_app, H0. cbn [Nat.add count_char]. specialize (IH (pred (String.length old))). case_decide; lia.
    + cbn [count_char]. specialize (IH O). case_decide; lia.
  - cbn [count_char]. specialize (IH k). case_decide; lia.
Qed.

Lemma HasPrefix_one c d s : HasPrefix (String d s) (String c EmptyString) = bool_decide (c = d).
Proof. cbn. destruct s; by rewrite andb_true_r. Qed.

Lemma HasPrefix_brace s old : HasPrefix s old = true -> HasPrefix old "{" = true -> HasPrefix s "{" = true.
Proof.
  destruct old as [|c old]; [by destruct s|]. destruct s as [|d s]; [done|]. rewrite !HasPrefix_one.
  cbn [HasPrefix]. rewrite andb_true_iff, !bool_decide_eq_true. by intros [-> _] ->.
Qed.

Lemma replace_braces_lt old new s i :
  HasPrefix old "{" = true -> no_char "{" new = true -> HasPrefix (drop_str i s) old = true ->
  (count_char "{" (StrReplace s old new) < count_char "{" s)%nat.
Proof.
  intros Ho Hn. unfold StrReplace. assert (H0 : count_char "{" new = O).
  { clear -Hn. induction new as [|c new IH]; [done|]. cbn in *. apply andb_true_iff in Hn as [H1%bool_decide_eq_true H2].
    rewrite decide_False by done. by apply IH. }
  revert i. induction s as [|c s IH]; intros i Hi.
  - destruct old; [done|]. by destruct i.
  - cbn [replace_skip]. destruct (HasPrefix (String c s) old) eqn:E.
    + rewrite count_char_app, H0. cbn [Nat.add count_char].
      pose proof (HasPrefix_brace _ _ E Ho) as Hb. rewrite HasPrefix_one, bool_decide_eq_true in Hb. subst c.
      rewrite decide_True by done. pose proof (replace_braces_le (pred (String.length old)) old new s Ho Hn). lia.
    + destruct i as [|i]; [cbn [drop_str] in Hi; congruence|]. cbn [drop_str] in Hi. specialize (IH i Hi). cbn [count_char].
      case_decide; lia.
Qed.

Lemma replace_refs_terminates Getenv n s refStart refEnd :
  (forall name, no_char "{" (Getenv name) = true) -> HasPrefix refStart "{" = true ->
  (count_char "{" s < n)%nat ->
  exists s', replace_refs Getenv n s refStart refEnd = Some s' /\ (count_char "{" s' <= count_char "{" s)%nat.
Proof.
  intros Henv Hstart. revert s. induction n as [|n IH]; intros s Hn; [lia|]. cbn [replace_refs].
  destruct (StrIndex s refStart) as [index|] eqn:Ei; [|eauto]. apply StrIndex_prefix in Ei.
  destruct (StrIndex (drop_str index s) refEnd) as [off|]; [|eauto]. case_decide as Hlt; [|eauto].
  set (ref := take_str _ (drop_str index s)).
  assert (Href : HasPrefix ref "{" = true).
  { apply (HasPrefix_brace _ refStart); [|done]. apply prefix_take; [done|lia]. }
  set (name := take_str _ (drop_str _ ref)).
  pose proof (replace_braces_lt ref (Getenv name) s index Href (Henv name)) as Hdec.
  assert (Hocc : HasPrefix (drop_str index s) ref = true).
  { unfold ref. generalize (off + index + String.length refEnd - index)%nat. generalize (drop_str index s). clear.
    induction s as [|c s IH]; intros [|n]; cbn; try done. rewrite bool_decide_true by done. apply IH. }
  specialize (Hdec Hocc). destruct (IH (StrReplace s ref (Getenv name))) as (s' & Hs' & Hle); [lia|].
  exists s'. split; [exact Hs'|lia].
Qed.

(** When no variable of the environment has a brace in its value, replacing
    the variables of a text terminates: as many rounds as the text has opening
    braces suffice. *)
Theorem variables_are_replaced Getenv fuel s :
  (forall name, no_char "{" (Getenv name) = true) -> (count_char "{" s < fuel)%nat ->
  exists s', replaceEnvVars Getenv fuel s = Some s'.
Proof.
  intros Henv Hf. unfold replaceEnvVars, replaceEnvReferences.
  destruct (replace_refs_terminates Getenv fuel s "{%" "%}" Henv eq_refl Hf) as (s1 & -> & Hle).
  destruct (replace_refs_terminates Getenv fuel s1 "{$" "}" Henv eq_refl) as (s2 & -> & _); [lia|]. by exists s2.
Qed.

(** A variable whose value refers to itself is replaced for ever. *)
Lemma self_reference_loops fuel :
  replaceEnvVars (fun name => if decide (name = "A") then "{$A}" else EmptyString) fuel "{$A}" = None.
Proof.
  unfold replaceEnvVars, replaceEnvReferences. destruct fuel as [|n]; [done|]. cbn [replace_refs StrIndex].
  change (StrIndex "{$A}" "{%") with (@None nat). cbv iota. induction n as [|n IH]; [done|]. exact IH.
Qed.

(** ** Imports and arguments *)

(** An import of a snippet is replaced by the tokens of the snippet, and the
    next token is the first of them. *)
Lemma snippet_is_imported Getenv Getwd Glob Open fuel file nst before imp arg rest p toks :
  (0 < fuel)%nat -> disp p = zip file (before ++ [imp]) (arg :: rest) nst ->
  same_line imp arg = true -> plain (t_Text arg) = true -> t_Text arg <> EmptyString ->
  (match rest with [] => True | t :: _ => same_line arg t = false end) ->
  definedSnippets p !! t_Text arg = Some toks ->
  doImport Getenv Getwd Glob Open fuel p =
    (set_disp (mkDispenser file (before ++ toks ++ rest) (Z.of_nat (length before)) nst) p, Done tt).
Proof.
  intros Hf Hd Hs Hp Hne Hr Hsn. unfold doImport, pm_bind, on_disp, ask, or_loop. rewrite Hd, NextArg_zip, Hs. cbn [negb disp set_disp].
  rewrite Val_zip, replace_plain by done. rewrite decide_False by done.
  assert (Harg : NextArg (zip file ((before ++ [imp]) ++ [arg]) rest nst) = (zip file ((before ++ [imp]) ++ [arg]) rest nst, false)).
  { destruct rest as [|t rest]; [apply NextArg_end|]. by rewrite NextArg_zip, Hr. }
  cbn [disp set_disp]. rewrite Harg. cbn [definedSnippets set_disp]. rewrite Hsn. unfold pm_ret. cbn [disp set_disp]. f_equal. unfold splice, zip, set_disp.
  cbn [cursor tokens d_filename nesting]. rewrite !length_app. cbn [length].
  replace (Z.to_nat (Z.of_nat (length before + 1 + 1) - 1 - 1)) with (length before) by lia.
  replace (Z.to_nat (Z.of_nat (length before + 1 + 1) - 1 + 1)) with (length ((before ++ [imp]) ++ [arg])%list)
    by (rewrite !length_app; cbn; lia).
  rewrite drop_app_length, <- !app_assoc, take_app_length. f_equal. f_equal. lia.
Qed.

(** The loop of a setup function that reads its arguments line by line:
    for c.Next() { name, args := c.Val(), c.RemainingArgs() } *)
Fixpoint read_lines (n : nat) (d : Dispenser) : list (list string) :=
  match n with
  | O => []
  | S n' =>
      match Next d with
      | (_, false) => []
      | (d1, true) => let '(d2, args) := RemainingArgs d1 in (Val d1 :: args) :: read_lines n' d2
      end
  end.

Lemma remaining_ok file nst n before toks rest fl :
  before <> [] -> (length toks < n)%nat -> flows (last before) toks (map (fun w => (false, w)) fl) -> "{" ∉ fl ->
  (match rest with [] => True | t :: _ => follows (last (before ++ toks)) t true end) ->
  remaining_loop n (zip file before (toks ++ rest) nst) = (zip file (before ++ toks) rest nst, fl).
Proof.
  revert before toks fl. induction n as [|n IH]; intros before toks fl Hb Hn Hfl Hin Hr; [lia|].
  destruct before as [|a before _] using rev_ind; [done|]. rewrite last_snoc in Hfl. cbn [remaining_loop].
  destruct fl as [|w fl], toks as [|t toks]; try done.
  - cbn [app]. rewrite app_nil_r in *. destruct rest as [|t rest]; [by rewrite NextArg_end|].
    rewrite NextArg_zip. rewrite last_snoc in Hr. destruct Hr as [_ ->]. done.
  - cbn [map flows app] in *. destruct Hfl as (Ht & [_ Hs] & Hfl). rewrite NextArg_zip, Hs. cbn [negb].
    rewrite Val_zip, Ht, decide_False by set_solver.
    rewrite (IH ((before ++ [a]) ++ [t])%list toks fl).
    + by rewrite <- (app_assoc _ [t] toks).
    + by destruct (before ++ [a])%list.
    + cbn in Hn. lia.
    + by rewrite last_snoc.
    + set_solver.
    + by rewrite <- (app_assoc _ [t] toks).
Qed.

Lemma read_lines_ok file nst n before toks ls :
  (length ls < n)%nat -> Forall (fun l => l <> [] /\ Forall (fun w => text w <> "{") l) ls ->
  flows (last before) toks (flow ls) -> read_lines n (zip file before toks nst) = map (map text) ls.
Proof.
  revert before toks n. induction ls as [|ws ls IH]; intros before toks n Hn Hls Hfl; (destruct n as [|n]; [lia|]).
  - destruct toks; [|done]. cbn [read_lines]. by rewrite Next_end.
  - inversion_clear Hls as [|? ? [Hne Hbr] Hls']. destruct ws as [|w ws]; [done|]. unfold flow in Hfl. cbn [map concat flow_line app] in Hfl.
    destruct toks as [|t toks]; [done|]. cbn [flows] in Hfl. destruct Hfl as (Ht & _ & Hfl).
    destruct (flows_split _ _ _ _ Hfl) as (args & rest & -> & Hargs & Hrest).
    assert (Hlast : last ((before ++ [t]) ++ args) = match last args with Some x => Some x | None => Some t end).
    { rewrite <- app_assoc. cbn [app]. rewrite last_app_cons, last_cons. by destruct (last args). }
    cbn [read_lines]. rewrite Next_zip. unfold RemainingArgs.
    rewrite (remaining_ok file nst _ (before ++ [t]) args rest (map text ws)).
    + rewrite Val_zip, Ht. cbn [map]. f_equal. apply IH; [cbn in Hn; lia | done |]. by rewrite Hlast.
    + by destruct before.
    + cbn [tokens zip]. rewrite !length_app. lia.
    + rewrite last_snoc, map_map. exact Hargs.
    + inversion_clear Hbr as [|? ? _ Hbr']. intros (wd & Hx & Hin)%list_elem_of_fmap.
      eapply Forall_forall in Hbr'; [|exact Hin]. by apply Hbr'.
    + destruct rest as [|u rest]; [done|]. rewrite Hlast. destruct ls as [|[|v vs] ls]; cbn in Hrest; [done| |].
      * inversion_clear Hls' as [|? ? [? _] _]. done.
      * by destruct Hrest as (_ & Hu & _).
Qed.

(** A setup function that reads line by line gets the words that are written
    on each line: lines are told apart also when quoted words contain line
    breaks. *)
Theorem arguments_are_the_words_of_a_line filename ls :
  ls <> [] -> forallb (forallb writable) ls = true ->
  Forall (fun l => l <> [] /\ Forall (fun w => text w <> "{") l) ls ->
  read_lines (S (length ls)) (NewDispenser filename (string_of_runes (write ls))) = map (map text) ls.
Proof.
  intros Hne Hw Hls. unfold NewDispenser. rewrite allTokens_write by done.
  apply (read_lines_ok filename 0 _ [] (place 1 ls)); [lia | done |]. apply place_flows; [done|].
  eapply Forall_impl; [exact Hls|]. by intros l [? _].
Qed.

(** ** Examples *)
Module CaddyfileDemo.
Definition no_env (_ : string) : string := EmptyString.
Definition cwd : string + string := inl "/etc".
Definition no_glob (_ : string) : list string + string := inl [].
Definition no_file (_ : string) : file := OpenError "no such file or directory".

Definition lines (l : list (list string)) : list (list word) := map (map runes) l.
Definition site : source_block :=
  mkSource (map runes ["example.com,"; "www.example.com"])
    [lines [["log"; "/var/log/a"]]; lines [["proxy"; "/"; "{"]; ["header"; "a b"]; ["}"]]; lines [["log"; "stdout"]]].
Definition bare : source_block := mkSource [runes ":80"] [].
Definition directives_of : option (list string) := Some ["log"; "proxy"].

Lemma parse_reads_what_is_written_witness :
  forallb (wf_block directives_of) [site; bare] = true /\
  exists blocks,
    Parse no_env cwd no_glob no_file 100 "Caddyfile" (string_of_runes (write (document [site; bare]))) directives_of =
      Done (blocks, None) /\
    Forall2 (fun b src => Keys b = source_keys src /\
                          forall dir, map t_Text (default [] (b_Tokens b !! dir)) = source_words dir src) blocks [site; bare].
Proof.
  assert (H : forallb (wf_block directives_of) [site; bare] = true) by (vm_compute; reflexivity).
  split; [exact H|]. apply (parse_reads_what_is_written no_env cwd no_glob no_file 100 "Caddyfile" directives_of [site; bare]).
  - discriminate.
  - exact H.
  - vm_compute. lia.
Defined.

(** What that is for the first block *)
Example site_words :
  source_keys site = ["example.com"; "www.example.com"] /\
  source_words "log" site = ["log"; "/var/log/a"; "log"; "stdout"] /\
  source_words "proxy" site = ["proxy"; "/"; "{"; "header"; "a b"; "}"].
Proof. vm_compute. done. Qed.

Lemma variables_are_replaced_witness :
  (forall name, no_char "{" (no_env name) = true) /\ (count_char "{" "{$HOST}:{$PORT}" < 3)%nat /\
  exists s, replaceEnvVars no_env 3 "{$HOST}:{$PORT}" = Some s.
Proof.
  assert (H1 : forall name, no_char "{" (no_env name) = true) by reflexivity.
  assert (H2 : (count_char "{" "{$HOST}:{$PORT}" < 3)%nat) by (vm_compute; lia).
  split; [exact H1|]. split; [exact H2|]. exact (variables_are_replaced no_env 3 "{$HOST}:{$PORT}" H1 H2).
Defined.

Lemma arguments_are_the_words_of_a_line_witness :
  read_lines 3 (NewDispenser "f" (string_of_runes (write (lines [["log"; "a" +:+ nl_str +:+ "b"; "c"]; ["errors"]])))) =
    [["log"; "a" +:+ nl_str +:+ "b"; "c"]; ["errors"]].
Proof.
  pose proof (arguments_are_the_words_of_a_line "f" (lines [["log"; "a" +:+ nl_str +:+ "b"; "c"]; ["errors"]])) as H.
  etransitivity; [apply H | vm_compute; reflexivity].
  - discriminate.
  - vm_compute. reflexivity.
  - repeat constructor; vm_compute; discriminate.
Defined.

(** A comment that follows a word directly ends at the next blank. *)
Example comment_after_word : map t_Text (lex (mkLexer (runes "root /srv#see the docs") (mkToken EmptyString 0 EmptyString) 1)) =
  ["root"; "/srv"; "the"; "docs"].
Proof. vm_compute. reflexivity. Qed.

(** The lines of a directive without a name are repeated for every directive. *)
Definition quoted (s : string) : string := dquote +:+ s +:+ dquote.
Example nameless_directive_repeated :
  ToJSON no_env cwd no_glob no_file 50 ("host {" +:+ nl_str +:+ quoted EmptyString +:+ " x" +:+ nl_str +:+ "log y" +:+ nl_str +:+ "}") =
    Done [mkEncoded ["host"] [[JStr EmptyString; JStr "x"]; [JStr EmptyString; JStr "x"]; [JStr EmptyString; JStr "x"];
                              [JStr "log"; JStr "y"]]].
Proof. vm_compute. reflexivity. Qed.

(** A value that starts with a number sign becomes a comment in the text. *)
Example number_sign_is_lost :
  ToJSON no_env cwd no_glob no_file 50 (FromJSON Itoa [mkEncoded ["host"] [[JStr "redir"; JStr "#top"; JStr "x"]]]) =
    Done [mkEncoded ["host"] [[JStr "redir"]]].
Proof. vm_compute. reflexivity. Qed.

(** An empty file cannot be imported. *)
Example empty_import_fails :
  Parse no_env cwd (fun p => inl [p]) (fun _ => Content EmptyString) 50 "Caddyfile" "import x" None =
    Done ([], Some "Caddyfile:1 - Error during parsing: Could not read tokens while importing /etc/x: EOF").
Proof. vm_compute. reflexivity. Qed.

(** The line break in the value of a variable hides the end of the line: the
    next directive becomes part of this one. *)
Example line_break_in_variable :
  exists b,
    Parse (fun _ => "/" +:+ nl_str) cwd no_glob no_file 50 "Caddyfile"
      ("host {" +:+ nl_str +:+ "root {$R}" +:+ nl_str +:+ "log x" +:+ nl_str +:+ "}") None = Done ([b], None) /\
    map t_Text (default [] (b_Tokens b !! "root")) = ["root"; "/" +:+ nl_str; "log"; "x"] /\ b_Tokens b !! "log" = None.
Proof. eexists. split; [vm_compute; reflexivity|]. split; vm_compute; reflexivity. Qed.
End CaddyfileDemo.
