(* ===== verification/ForwardProxy.v ===== *)
(** The forward proxy plugin of the web server (src/go/caddy/forwardproxy): its
    configuration, the checks a request goes through, the request that is sent
    on, the answer that is given back, and the copying of a stream.

    Connections, the transport and the parser of URLs are arguments; what the
    plugin does to the outside is a list of events. *)
From S2P Require Import Prelude GoText NetUrl GoHttp Caddyfile.
From Stdlib Require Import ZArith Lia Ascii.
From stdpp Require Import base gmap strings list.

Open Scope string_scope.
Open Scope Z_scope.

(** ** Data *)

Record ForwardProxy := mkForwardProxy {
  authRequired : bool;
  authCredentials : list string;
  hideIP : bool;
  whitelistedPorts : list Z;
  probeResistDomain : string;
  pacFilePath : string;
  probeResistEnabled : bool;
  dialTimeout : Z;               (* nanoseconds *)
  ResponseHeaderTimeout : Z;     (* of the transport *)
  hostname : string;
  port : string
}.

Record request := mkRequest {
  r_Method : string; r_Host : string; r_RequestURI : string; r_URL : URL;
  r_ProtoMajor : Z; r_ProtoMinor : Z; r_RemoteAddr : string; r_Header : header
}.

Record out_request := mkOutRequest { o_Method : string; o_URL : URL; o_Header : header }.
Record response := mkResponse { p_StatusCode : Z; p_ProtoMajor : Z; p_ProtoMinor : Z; p_Header : header }.

(** What the plugin does *)
Inductive event :=
  | Dialed (addr : string) (timeout : Z)
  | Sent (r : out_request)
  | ToTarget (b : list Z)                 (* bytes of the client read before *)
  | Established                           (* 200 to the client *)
  | Streamed
  | HiddenPage (authenticated : bool)
  | PacFile (hostname port : string)
  | NextHandler
  | SetHeader (k v : string)
  | WriteHeader (code : Z)
  | Forwarded (h : header) (code : Z).

(** ** Checks *)

Definition connectPortIsAllowed (fp : ForwardProxy) (p : string) : bool :=
  let '(portInt, err) := Atoi p in
  if err : bool then false
  else if (portInt <=? 0) || (65535 <? portInt) then false
  else match whitelistedPorts fp with
       | [] => true
       | l => existsb (fun q => q =? portInt) l
       end.

Definition checkCredentials (fp : ForwardProxy) (r : request) : error :=
  match Split (Header_Get "Proxy-Authorization" (r_Header r)) " " with
  | [kind; value] =>
      if negb (bool_decide (ToLower kind = "basic")) then Some "Auth type is not supported"
      else if existsb (fun creds => bool_decide (creds = value)) (authCredentials fp) then None
      else Some "Invalid credentials"
  | _ => Some "Proxy-Authorization is required! Expected format: <type> <credentials>"
  end.

Definition isSubdomain (s domain : string) : bool :=
  bool_decide (s = domain) || HasSuffix s ("." +:+ domain).

Definition stripPort (address : string) : string :=
  let portIdx := LastIndex address ":" in
  let ipv6Idx := LastIndex address "]" in
  if ipv6Idx <? portIdx then take_str (Z.to_nat portIdx) address else address.

Definition shouldServePacFile (fp : ForwardProxy) (r : request) : bool :=
  bool_decide (pacFilePath fp <> EmptyString) && bool_decide (Path (r_URL r) = pacFilePath fp).

(** ** Headers that are not passed on *)

Definition hopByHopHeaders : list string :=
  ["Keep-Alive"; "Proxy-Authenticate"; "Proxy-Authorization"; "Upgrade"; "Connection"; "Proxy-Connection"; "Te"; "Trailer";
   "Transfer-Encoding"].

Definition removeHopByHop (h : header) : header :=
  let named := fold_left (fun acc k => Header_Del (TrimSpace k) acc) (Split (Header_Get "Connection" h) ",") h in
  fold_left (fun acc k => Header_Del k acc) hopByHopHeaders named.

Section Serve.
(** http.NewRequest: the URL of the request, or an error *)
Context (NewRequest : string -> string -> URL + string).
(** net.DialTimeout and the round trip of the transport *)
Context (DialTimeout : string -> error) (RoundTrip : out_request -> response + option response * string).
(** The response writer: whether it can be hijacked and flushed, what Hijack,
    Peek and the write of the answer return, and the buffered bytes *)
Record writer := mkWriter {
  w_hijacker : bool; w_hijack_err : error; w_buffered : list Z; w_peek_err : error; w_write_err : error; w_flusher : bool;
  w_Header : header
}.
(** The errors of the two copies of dualStream, in the order they end, and of
    the copy of an answer *)
Context (streams : error * error) (copied : error).

Definition dualStream : error := match streams with (Some e, _) => Some e | (None, e) => e end.

Definition StatusOK : Z := 200.
Definition StatusBadRequest : Z := 400.
Definition StatusForbidden : Z := 403.
Definition StatusProxyAuthRequired : Z := 407.
Definition StatusInternalServerError : Z := 500.
Definition StatusBadGateway : Z := 502.
Definition StatusHTTPVersionNotSupported : Z := 505.

(** The events, and the status and the error that are returned *)
Definition answer : Type := list event * Z * error.

Definition serveHijack (w : writer) : answer :=
  if negb (w_hijacker w) then ([], StatusInternalServerError, Some "ResponseWriter does not implement Hijacker")
  else match w_hijack_err w with
       | Some e => ([], StatusInternalServerError, Some ("failed to hijack: " +:+ e))
       | None =>
           match w_buffered w, w_peek_err w with
           | _ :: _, Some e => ([], StatusBadGateway, Some e)
           | b, _ =>
               let sent := match b with [] => [] | _ => [ToTarget b] end in
               match w_write_err w with
               | Some e => (sent, StatusInternalServerError, Some ("failed to send response to client: " +:+ e))
               | None => ((sent ++ [Established; Streamed])%list, 0, dualStream)
               end
           end
       end.

Definition serveHiddenPage (authErr : error) : answer :=
  match authErr with
  | Some e => ([SetHeader "Proxy-Authenticate" "Basic"; WriteHeader StatusProxyAuthRequired; HiddenPage false], 0, Some e)
  | None => ([HiddenPage true], 0, None)
  end.

Definition generateForwardRequest (fp : ForwardProxy) (r : request) : out_request + string :=
  if decide (r_RequestURI r = EmptyString) then inr "malformed request: empty URI"
  else
    let strUrl := if HasPrefix (r_RequestURI r) "/" then r_Host r +:+ r_RequestURI r else r_RequestURI r in
    let strUrl := if StrContains strUrl "://" then strUrl else "http://" +:+ strUrl in
    match NewRequest (r_Method r) strUrl with
    | inr e => inr ("failed to create NewRequest: " +:+ e)
    | inl u =>
        let h := removeHopByHop (add_all (map_to_list (r_Header r)) ∅) in
        let h := if hideIP fp then h
                 else Header_Add "Forwarded" ("for=" +:+ String "034" (r_RemoteAddr r +:+ String "034" EmptyString)) h in
        let h := Header_Add "Via" (Itoa (r_ProtoMajor r) +:+ "." +:+ Itoa (r_ProtoMinor r) +:+ " caddy") h in
        inl (mkOutRequest (r_Method r) u h)
    end.

Definition forwardResponse (w : writer) (res : response) : answer :=
  let h := Header_Del "Server" (w_Header w) in
  let h := Header_Add "Via" (Itoa (p_ProtoMajor res) +:+ "." +:+ Itoa (p_ProtoMinor res) +:+ " caddy") h in
  let h := removeHopByHop (add_all (map_to_list (p_Header res)) h) in
  ([Forwarded h (p_StatusCode res)], 0, copied).

Definition andThen (ev : list event) (a : answer) : answer := ((ev ++ a.1.1)%list, a.1.2, a.2).

(** The part of ServeHTTP for CONNECT *)
Definition serve_connect (fp : ForwardProxy) (w : writer) (r : request) : answer :=
  if (r_ProtoMajor r =? 2) &&
     (bool_decide (Scheme (r_URL r) <> EmptyString) || bool_decide (Path (r_URL r) <> EmptyString)) then
    ([], StatusBadRequest, Some "CONNECT request has :scheme or/and :path pseudo-header fields")
  else if negb (connectPortIsAllowed fp (Port (r_URL r))) then
    ([], StatusForbidden, Some ("CONNECT port not allowed for " +:+ URLString (r_URL r)))
  else
    let addr := Hostname (r_URL r) +:+ ":" +:+ Port (r_URL r) in
    let dialed := [Dialed addr (dialTimeout fp)] in
    match DialTimeout addr with
    | Some e => (dialed, StatusBadGateway, Some ("Dial " +:+ URLString (r_URL r) +:+ " failed: " +:+ e))
    | None =>
        if r_ProtoMajor r =? 1 then andThen dialed (serveHijack w)
        else if w_flusher w then ((dialed ++ [WriteHeader StatusOK; Streamed])%list, 0, dualStream)
        else (dialed, StatusInternalServerError, Some "ResponseWriter doesn't implement Flusher()")
    end.

(** The part for the other methods *)
Definition serve_forward (fp : ForwardProxy) (w : writer) (r : request) : answer :=
  match generateForwardRequest fp r with
  | inr e => ([], StatusBadRequest, Some e)
  | inl out =>
      match RoundTrip out with
      | inr (res, e) =>
          let code := match res with Some res => if p_StatusCode res =? 0 then StatusBadGateway else p_StatusCode res
                                | None => StatusBadGateway end in
          ([Sent out], code, Some ("failed to do RoundTrip(): " +:+ e))
      | inl res => andThen [Sent out] (forwardResponse w res)
      end
  end.

Definition ServeHTTP (next : Z * error) (fp : ForwardProxy) (w : writer) (r : request) : answer :=
  let authErr := if authRequired fp then checkCredentials fp r else None in
  if probeResistEnabled fp && bool_decide (probeResistDomain fp <> EmptyString) &&
     bool_decide (stripPort (r_Host r) = probeResistDomain fp) then serveHiddenPage authErr
  else if isSubdomain (stripPort (r_Host r)) (hostname fp) &&
          (negb (bool_decide (r_Method r = "CONNECT")) || match authErr with Some _ => true | None => false end) then
    if shouldServePacFile fp r then ([PacFile (hostname fp) (port fp)], 0, None)
    else ([NextHandler], next.1, next.2)
  else
    match authErr with
    | Some e =>
        if probeResistEnabled fp then ([], 0, Some e)
        else ([SetHeader "Proxy-Authenticate" "Basic"], StatusProxyAuthRequired, Some e)
    | None =>
        if negb (r_ProtoMajor r =? 1) && negb (r_ProtoMajor r =? 2) then
          ([], StatusHTTPVersionNotSupported, Some ("Unsupported HTTP major version: " +:+ Itoa (r_ProtoMajor r)))
        else if decide (r_Method r = "CONNECT") then serve_connect fp w r
        else serve_forward fp w r
    end.
End Serve.

(** ** Configuration (setup.go) *)

Definition second : Z := 10 ^ 9.

(** The zero of the plugin for a site *)
Definition new_proxy (host sitePort : string) : ForwardProxy :=
  mkForwardProxy false [] false [] EmptyString EmptyString false (20 * second) 0 host sitePort.

Definition set_auth (creds : string) (fp : ForwardProxy) : ForwardProxy :=
  mkForwardProxy true (authCredentials fp ++ [creds]) (hideIP fp) (whitelistedPorts fp) (probeResistDomain fp) (pacFilePath fp)
    (probeResistEnabled fp) (dialTimeout fp) (ResponseHeaderTimeout fp) (hostname fp) (port fp).
Definition set_hide (fp : ForwardProxy) : ForwardProxy :=
  mkForwardProxy (authRequired fp) (authCredentials fp) true (whitelistedPorts fp) (probeResistDomain fp) (pacFilePath fp)
    (probeResistEnabled fp) (dialTimeout fp) (ResponseHeaderTimeout fp) (hostname fp) (port fp).
Definition set_ports (ports : list Z) (fp : ForwardProxy) : ForwardProxy :=
  mkForwardProxy (authRequired fp) (authCredentials fp) (hideIP fp) ports (probeResistDomain fp) (pacFilePath fp)
    (probeResistEnabled fp) (dialTimeout fp) (ResponseHeaderTimeout fp) (hostname fp) (port fp).
Definition set_probe (domain : string) (fp : ForwardProxy) : ForwardProxy :=
  mkForwardProxy (authRequired fp) (authCredentials fp) (hideIP fp) (whitelistedPorts fp) domain (pacFilePath fp)
    true (dialTimeout fp) (ResponseHeaderTimeout fp) (hostname fp) (port fp).
Definition set_pac (path : string) (fp : ForwardProxy) : ForwardProxy :=
  mkForwardProxy (authRequired fp) (authCredentials fp) (hideIP fp) (whitelistedPorts fp) (probeResistDomain fp) path
    (probeResistEnabled fp) (dialTimeout fp) (ResponseHeaderTimeout fp) (hostname fp) (port fp).
Definition set_timeouts (dial resp : Z) (fp : ForwardProxy) : ForwardProxy :=
  mkForwardProxy (authRequired fp) (authCredentials fp) (hideIP fp) (whitelistedPorts fp) (probeResistDomain fp) (pacFilePath fp)
    (probeResistEnabled fp) dial resp (hostname fp) (port fp).

(** The ports of an argument list: the first one that is no port is an error. *)
Fixpoint parse_ports (args : list string) : list Z + string :=
  match args with
  | [] => inl []
  | p :: rest =>
      let '(intPort, err) := Atoi p in
      if (intPort <=? 0) || (65535 <? intPort) || err then
        inr ("Parse error: ports are expected to be space-separated and in 0-65535 range. Got: " +:+ p)
      else match parse_ports rest with inl l => inl (intPort :: l) | inr e => inr e end
  end.

(** A number of seconds as a duration *)
Definition parse_timeout (d : Dispenser) (name : string) (args : list string) : Z + string :=
  match args with
  | [a] =>
      let '(timeout, err) := Atoi a in
      if err : bool then inr (ArgErr d)
      else if timeout <? 0 then inr ("Parse error: " +:+ name +:+ " cannot be negative.")
      else inl (wrapS 64 (second * timeout))
  | _ => inr (ArgErr d)
  end.

(** One subdirective with its arguments *)
Definition subdirective (d : Dispenser) (name : string) (args : list string) (fp : ForwardProxy) : ForwardProxy + string :=
  if decide (name = "basicauth") then
    match args with
    | [user; pass] =>
        if decide (user = EmptyString) then inr "Parse error: empty usernames are not allowed"
        else if negb (no_char ":" user) then inr "Parse error: character ':' in usernames is not allowed"
        else inl (set_auth (base64 (bytes_of_string (user +:+ ":" +:+ pass))) fp)
    | _ => inr (ArgErr d)
    end
  else if decide (name = "ports") then
    match args with
    | [] => inr (ArgErr d)
    | _ => match whitelistedPorts fp with
           | _ :: _ => inr "Parse error: ports subdirective specified twice"
           | [] => match parse_ports args with inl l => inl (set_ports l fp) | inr e => inr e end
           end
    end
  else if decide (name = "hide_ip") then
    match args with [] => inl (set_hide fp) | _ => inr (ArgErr d) end
  else if decide (name = "probe_resistance") then
    match args with
    | [] => inl (set_probe (probeResistDomain fp) fp)
    | [domain] => inl (set_probe domain fp)
    | _ => inr (ArgErr d)
    end
  else if decide (name = "serve_pac") then
    match args with
    | _ :: _ :: _ => inr (ArgErr d)
    | _ =>
        if decide (pacFilePath fp <> EmptyString) then inr "Parse error: serve_pac subdirective specified twice"
        else inl (set_pac (match args with
                           | [path] => if HasPrefix path "/" then path else "/" +:+ path
                           | _ => "/proxy.pac"
                           end) fp)
    end
  else if decide (name = "response_timeout") then
    match parse_timeout d name args with inl t => inl (set_timeouts (dialTimeout fp) t fp) | inr e => inr e end
  else if decide (name = "dial_timeout") then
    match parse_timeout d name args with inl t => inl (set_timeouts t (ResponseHeaderTimeout fp) fp) | inr e => inr e end
  else inr (ArgErr d).

(** for c.NextBlock() *)
Fixpoint setup_loop (n : nat) (d : Dispenser) (fp : ForwardProxy) : outcome ForwardProxy :=
  match n with
  | O => Looping
  | S n' =>
      match NextBlock d with
      | (_, false) => Done fp
      | (d1, true) =>
          let '(d2, args) := RemainingArgs d1 in
          match subdirective d2 (Val d1) args fp with
          | inl fp' => setup_loop n' d2 fp'
          | inr e => Failed e
          end
      end
  end.

Definition setup (n : nat) (host sitePort : string) (d : Dispenser) : outcome ForwardProxy :=
  let '(d1, _) := Next d in
  match RemainingArgs d1 with
  | (d2, _ :: _) => Failed (ArgErr d2)
  | (d2, []) =>
      match setup_loop n d2 (new_proxy host sitePort) with
      | Done fp =>
          if probeResistEnabled fp && negb (authRequired fp)
          then Failed "Parse error: probing resistance requires authentication" else Done fp
      | other => other
      end
  end.

(** ** Copying (flushingIoCopy)

    A reader is the list of what its reads return, a writer the list of what
    its writes return; a destination that cannot be flushed is left to io.CopyBuffer,
    which does the same without the flushes. *)

Definition EOF : string := "EOF".
Definition ErrShortWrite : string := "short write".

Inductive io_event := Wrote (b : list Z) | Flushed.

Fixpoint copy_loop (flush : bool) (reads : list (list Z * error)) (writes : list (Z * error)) (written : Z)
    : option (list io_event * Z * error) :=
  match reads with
  | [] => None
  | (data, er) :: reads' =>
      let stop := match er with Some e => Some (if decide (e = EOF) then None else Some e) | None => None end in
      match data with
      | [] =>
          match stop with Some err => Some ([], written, err) | None => copy_loop flush reads' writes written end
      | _ =>
          match writes with
          | [] => None
          | (nw, ew) :: writes' =>
              let written' := if 0 <? nw then written + nw else written in
              let out := Wrote data :: if flush then [Flushed] else [] in
              match ew with
              | Some e => Some (out, written', Some e)
              | None =>
                  if negb (Z.of_nat (length data) =? nw) then Some (out, written', Some ErrShortWrite)
                  else match stop with
                       | Some err => Some (out, written', err)
                       | None =>
                           match copy_loop flush reads' writes' written' with
                           | Some (ev, n, err) => Some ((out ++ ev)%list, n, err)
                           | None => None
                           end
                       end
              end
          end
      end
  end.

Definition flushingIoCopy (flusher : bool) (reads : list (list Z * error)) (writes : list (Z * error))
    : option (list io_event * Z * error) := copy_loop flusher reads writes 0.

(** ** Lemmas *)

Lemma hop_by_hop_removed h k : k ∈ hopByHopHeaders -> removeHopByHop h !! k = None.
Proof.
  intros Hk. unfold removeHopByHop. apply delete_all_lookup. left.
  change (map CanonicalHeaderKey hopByHopHeaders) with hopByHopHeaders. exact Hk.
Qed.

(** A request that may use the proxy *)
Definition authorized (fp : ForwardProxy) (r : request) : Prop :=
  authRequired fp = true ->
  exists kind value, Split (Header_Get "Proxy-Authorization" (r_Header r)) " " = [kind; value] /\
    ToLower kind = "basic" /\ value ∈ authCredentials fp.

Lemma credentials_checked fp r : checkCredentials fp r = None -> 
  exists kind value, Split (Header_Get "Proxy-Authorization" (r_Header r)) " " = [kind; value] /\
    ToLower kind = "basic" /\ value ∈ authCredentials fp.
Proof.
  unfold checkCredentials. destruct (Split _ _) as [|kind [|value [|]]]; try done.
  destruct (bool_decide (ToLower kind = "basic")) eqn:E; [|done]. cbn [negb]. apply bool_decide_eq_true in E.
  destruct (existsb _ _) eqn:Ex; [|done]. intros _. apply existsb_exists in Ex as (c & Hin & Hc%bool_decide_eq_true). subst c.
  exists kind, value. split; [done|]. split; [done|]. by apply list_elem_of_In.
Qed.

Definition port_allowed (fp : ForwardProxy) (p : string) : Prop :=
  exists n, Atoi p = (n, false) /\ 0 < n <= 65535 /\ (whitelistedPorts fp = [] \/ n ∈ whitelistedPorts fp).

Lemma port_checked fp p : connectPortIsAllowed fp p = true -> port_allowed fp p.
Proof.
  unfold connectPortIsAllowed, port_allowed. destruct (Atoi p) as [n err]. destruct err; [done|].
  destruct (n <=? 0) eqn:E1; [done|]. destruct (65535 <? n) eqn:E2; [done|]. cbn [orb].
  apply Z.leb_gt in E1. apply Z.ltb_ge in E2. intros H. exists n. split; [done|]. split; [lia|].
  destruct (whitelistedPorts fp) as [|q l]; [by left|]. right. apply existsb_exists in H as (x & Hin & ->%Z.eqb_eq).
  by apply list_elem_of_In.
Qed.

(** What every event of an answer has to satisfy *)
Definition event_ok (fp : ForwardProxy) (r : request) (e : event) : Prop :=
  match e with
  | Dialed addr _ =>
      authorized fp r /\ r_Method r = "CONNECT" /\ addr = Hostname (r_URL r) +:+ ":" +:+ Port (r_URL r) /\
      port_allowed fp (Port (r_URL r))
  | Sent out => authorized fp r /\ forall k, k ∈ hopByHopHeaders -> o_Header out !! k = None
  | ToTarget _ | Established | Streamed => authorized fp r /\ r_Method r = "CONNECT"
  | Forwarded h _ => authorized fp r /\ forall k, k ∈ hopByHopHeaders -> h !! k = None
  | HiddenPage true => authorized fp r
  | _ => True
  end.

Section ServeLemmas.
Context (NewRequest : string -> string -> URL + string) (DialTimeout : string -> error).
Context (RoundTrip : out_request -> response + option response * string) (streams : error * error) (copied : error).

Lemma hop_ok k v h :
  CanonicalHeaderKey k ∉ hopByHopHeaders -> (forall x, x ∈ hopByHopHeaders -> h !! x = None) ->
  forall x, x ∈ hopByHopHeaders -> Header_Add k v h !! x = None.
Proof. intros Hk Hh x Hx. rewrite header_add_other; [by apply Hh|]. by intros <-. Qed.

Lemma not_hop k : CanonicalHeaderKey k ∈ hopByHopHeaders -> List.existsb (String.eqb (CanonicalHeaderKey k)) hopByHopHeaders = true.
Proof. intros H. apply existsb_exists. exists (CanonicalHeaderKey k). split; [by apply list_elem_of_In | apply String.eqb_refl]. Qed.

Lemma generated_ok fp r out :
  generateForwardRequest NewRequest fp r = inl out -> forall k, k ∈ hopByHopHeaders -> o_Header out !! k = None.
Proof.
  unfold generateForwardRequest. case_decide; [done|]. destruct (NewRequest _ _) as [u|]; [|done]. intros [= <-]. cbn [o_Header].
  apply hop_ok; [by intros H1%not_hop|]. destruct (hideIP fp); [apply hop_by_hop_removed|].
  apply hop_ok; [by intros H1%not_hop | apply hop_by_hop_removed].
Qed.

Lemma hijack_ok fp w r :
  authorized fp r -> r_Method r = "CONNECT" -> Forall (event_ok fp r) (serveHijack streams w).1.1.
Proof. intros Ha Hm. unfold serveHijack. repeat case_match; cbn [fst app]; by repeat (constructor; [done|]). Qed.

Lemma connect_ok fp w r :
  authorized fp r -> r_Method r = "CONNECT" ->
  Forall (event_ok fp r) (serve_connect DialTimeout streams fp w r).1.1.
Proof.
  intros Ha Hm. unfold serve_connect. case_match; [constructor|].
  destruct (connectPortIsAllowed fp (Port (r_URL r))) eqn:Hp; [|constructor]. cbn [negb]. apply port_checked in Hp.
  assert (Hd : event_ok fp r (Dialed (Hostname (r_URL r) +:+ ":" +:+ Port (r_URL r)) (dialTimeout fp))) by done.
  destruct (DialTimeout _); [by apply Forall_singleton|]. case_match.
  - unfold andThen. cbn [fst app]. constructor; [done|]. by apply hijack_ok.
  - case_match; [|by apply Forall_singleton]. cbn [fst app]. by repeat (constructor; [done|]).
Qed.

Lemma forward_ok fp w r : authorized fp r -> Forall (event_ok fp r) (serve_forward NewRequest RoundTrip copied fp w r).1.1.
Proof.
  intros Ha. unfold serve_forward. destruct (generateForwardRequest _ fp r) as [out|] eqn:Eg; [|constructor].
  assert (Hs : event_ok fp r (Sent out)) by (split; [done | by eapply generated_ok]).
  destruct (RoundTrip out) as [res|[res e]]; [|by apply Forall_singleton].
  unfold andThen, forwardResponse. cbn [fst app]. constructor; [done|]. apply Forall_singleton. split; [done|].
  apply hop_by_hop_removed.
Qed.

(** C24.  When the proxy requires credentials it connects to a server, or sends a
    request on, only for a client whose credentials are among the configured ones.
    For CONNECT it connects only to the host and port of the request, and only if
    the port is allowed (the port of a request that is sent on is not restricted).
    Neither the requests it sends on nor the answers it gives back have one of the
    nine headers of [hopByHopHeaders], of which Proxy-Authorization is one; of the
    headers that Connection headers name nothing is said. *)
Theorem nothing_leaves_unless_allowed next fp w r e :
  e ∈ (ServeHTTP NewRequest DialTimeout RoundTrip streams copied next fp w r).1.1 -> event_ok fp r e.
Proof.
  revert e. apply Forall_forall. unfold ServeHTTP.
  assert (Hauth : (if authRequired fp then checkCredentials fp r else None) = None -> authorized fp r).
  { intros H Hr. rewrite Hr in H. by apply credentials_checked. }
  set (authErr := if authRequired fp then checkCredentials fp r else None) in *.
  clearbody authErr. destruct (probeResistEnabled fp && _ && _).
  { destruct authErr; cbn [serveHiddenPage fst]; repeat (constructor; [done || by apply Hauth|]); constructor. }
  destruct (isSubdomain _ _ && _); [destruct (shouldServePacFile fp r); by apply Forall_singleton|].
  destruct authErr as [e|]; [destruct (probeResistEnabled fp); [constructor | by apply Forall_singleton]|].
  destruct (negb _ && negb _); [constructor|].
  case_decide; [apply connect_ok; [by apply Hauth|done] | apply forward_ok; by apply Hauth].
Qed.
End ServeLemmas.

(** ** The configuration *)

Definition credential (c : string) : Prop :=
  exists user pass, c = base64 (bytes_of_string (user +:+ ":" +:+ pass)) /\ user <> EmptyString /\ no_char ":" user = true.

Record config_ok (host sitePort : string) (fp : ForwardProxy) : Prop := mkConfigOk {
  ok_site : hostname fp = host /\ port fp = sitePort;
  ok_auth : authRequired fp = true <-> authCredentials fp <> [];
  ok_credentials : Forall credential (authCredentials fp);
  ok_ports : Forall (fun p => 0 < p <= 65535) (whitelistedPorts fp);
  ok_pac : pacFilePath fp = EmptyString \/ HasPrefix (pacFilePath fp) "/" = true;
  ok_timeouts : is_s 64 (dialTimeout fp) /\ is_s 64 (ResponseHeaderTimeout fp)
}.

Lemma parse_ports_ok args l : parse_ports args = inl l -> Forall (fun p => 0 < p <= 65535) l.
Proof.
  revert l. induction args as [|a args IH]; intros l H; cbn [parse_ports] in H; [injection H as <-; constructor|].
  destruct (Atoi a) as [n err]. destruct (n <=? 0) eqn:E1; [done|]. destruct (65535 <? n) eqn:E2; [done|].
  destruct err; [done|]. destruct (parse_ports args) as [l'|]; [|done]. injection H as <-.
  apply Z.leb_gt in E1. apply Z.ltb_ge in E2. constructor; [lia|]. by apply IH.
Qed.

Lemma parse_timeout_ok d name args t : parse_timeout d name args = inl t -> is_s 64 t.
Proof.
  unfold parse_timeout. repeat case_match; try done. intros [= <-]. unfold is_s, wrapS.
  match goal with |- context [?x `mod` ?y] => pose proof (Z.mod_pos_bound x y ltac:(done)) end. lia.
Qed.

Lemma subdirective_ok host sitePort d name args fp fp' :
  subdirective d name args fp = inl fp' -> config_ok host sitePort fp -> config_ok host sitePort fp'.
Proof.
  intros H [Hsite Ha Hc Hp Hpac Ht]. unfold subdirective in H.
  case_decide as E1.
  { destruct args as [|user [|pass [|]]]; try done. case_decide; [done|]. destruct (no_char ":" user) eqn:Hu; [|done].
    cbn [negb] in H. injection H as <-. constructor; cbn; try done.
    - split; [by destruct (authCredentials fp)|done].
    - apply Forall_app. split; [done|]. apply Forall_singleton. by exists user, pass. }
  case_decide as E2.
  { destruct args as [|a args]; [done|]. destruct (whitelistedPorts fp); [|done].
    destruct (parse_ports (a :: args)) as [l|] eqn:E; [|done]. injection H as <-. constructor; cbn; try done.
    by eapply parse_ports_ok. }
  case_decide as E3. { destruct args; [|done]. by injection H as <-. }
  case_decide as E4. { destruct args as [|x [|]]; try done; by injection H as <-. }
  case_decide as E5.
  { destruct args as [|x [|]]; try done; case_decide; try done; injection H as <-; constructor; cbn; try done; right; [done|].
    destruct (HasPrefix x "/") eqn:E; [exact E | apply HasPrefix_app]. }
  case_decide as E6. { destruct (parse_timeout _ _ _) eqn:E; [|done]. injection H as <-. apply parse_timeout_ok in E. constructor; try done. by destruct Ht. }
  case_decide as E7; [|done]. destruct (parse_timeout _ _ _) eqn:E; [|done]. injection H as <-. apply parse_timeout_ok in E.
  constructor; try done. by destruct Ht.
Qed.

Lemma setup_loop_ok host sitePort n d fp fp' :
  setup_loop n d fp = Done fp' -> config_ok host sitePort fp -> config_ok host sitePort fp'.
Proof.
  revert d fp. induction n as [|n IH]; intros d fp H Hok; cbn [setup_loop] in H; [done|].
  destruct (NextBlock d) as [d1 []]; [|by injection H as <-]. destruct (RemainingArgs d1) as [d2 args].
  destruct (subdirective d2 (Val d1) args fp) as [fp1|] eqn:E; [|done]. eapply IH; [exact H|]. by eapply subdirective_ok.
Qed.

(** Whatever the configuration says, a proxy that is set up asks for
    credentials exactly when credentials are configured, each of them the
    encoding of a user name without a colon and a password; its ports are ports,
    its timeouts fit in 64 bits, the path of its proxy file is absolute, and it
    hides itself only when it asks for credentials. *)
Theorem configuration_is_consistent n host sitePort d fp :
  setup n host sitePort d = Done fp ->
  config_ok host sitePort fp /\ (probeResistEnabled fp = true -> authRequired fp = true).
Proof.
  unfold setup. destruct (Next d) as [d1 ok]. destruct (RemainingArgs d1) as [d2 []]; [|done].
  destruct (setup_loop n d2 (new_proxy host sitePort)) as [fp1| | |] eqn:E; try done.
  destruct (probeResistEnabled fp1 && negb (authRequired fp1)) eqn:Ep; [done|]. intros [= <-].
  assert (H0 : config_ok host sitePort (new_proxy host sitePort)).
  { constructor; cbn; try done; try by constructor. }
  split; [by eapply setup_loop_ok|].
  intros Hp. rewrite Hp in Ep. cbn in Ep. by apply negb_false_iff in Ep.
Qed.

(** ** Copying *)

Definition bytes_of (ev : list io_event) : list Z :=
  concat (map (fun e => match e with Wrote b => b | Flushed => [] end) ev).

(** The writes that accept everything the reads return *)
Fixpoint accepts (reads : list (list Z * error)) (writes : list (Z * error)) : Prop :=
  match reads with
  | [] => True
  | ([], _) :: reads' => accepts reads' writes
  | (data, _) :: reads' =>
      match writes with (nw, None) :: writes' => nw = Z.of_nat (length data) /\ accepts reads' writes' | _ => False end
  end.

Lemma copy_loop_ok flush chunks last writes written :
  accepts (map (fun c => (c, None)) chunks ++ [(last, Some EOF)]) writes ->
  exists ev, copy_loop flush (map (fun c => (c, None)) chunks ++ [(last, Some EOF)]) writes written =
    Some (ev, written + Z.of_nat (length (concat chunks ++ last)), None) /\ bytes_of ev = (concat chunks ++ last)%list.
Proof.
  revert writes written. induction chunks as [|c chunks IH]; intros writes written H; cbn [map app concat] in *.
  - cbn [copy_loop]. rewrite decide_True by done. destruct last as [|b last].
    + exists []. cbn. by rewrite Z.add_0_r.
    + cbn [accepts] in H. destruct writes as [|[nw []] writes]; try done. destruct H as [-> _].
      rewrite Z.eqb_refl. cbn [negb]. rewrite (proj2 (Z.ltb_lt 0 _)) by (cbn; lia). eexists. split; [done|].
      unfold bytes_of. destruct flush; cbn; by rewrite ?app_nil_r.
  - cbn [copy_loop accepts] in *. destruct c as [|b c]; [by apply IH|].
    destruct writes as [|[nw []] writes]; try done. destruct H as [-> H].
    rewrite Z.eqb_refl. cbn [negb]. rewrite (proj2 (Z.ltb_lt 0 _)) by (cbn; lia).
    destruct (IH writes (written + Z.of_nat (length (b :: c))) H) as (ev & -> & Hb). eexists. split.
    + f_equal. f_equal. f_equal. rewrite !length_app. lia.
    + unfold bytes_of in *. rewrite map_app, concat_app, Hb. destruct flush; cbn; by rewrite ?app_nil_r, <- ?app_assoc.
Qed.

(** A stream that ends is copied completely: when every write accepts what
    it is given, the bytes written are the bytes read, their number is returned,
    and the end of the stream is no error. *)
Theorem stream_is_copied flusher chunks last writes :
  accepts (map (fun c => (c, None)) chunks ++ [(last, Some EOF)]) writes ->
  exists ev, flushingIoCopy flusher (map (fun c => (c, None)) chunks ++ [(last, Some EOF)]) writes =
    Some (ev, Z.of_nat (length (concat chunks ++ last)), None) /\ bytes_of ev = (concat chunks ++ last)%list.
Proof. intros H. destruct (copy_loop_ok flusher chunks last writes 0 H) as (ev & He & Hb). exists ev. by rewrite Z.add_0_l in He. Qed.

(** ** Examples *)
Module ForwardProxyDemo.
Definition config : string :=
  "forwardproxy {" +:+ nl_str +:+ "basicauth joe secret" +:+ nl_str +:+ "ports 443 8443" +:+ nl_str +:+ "hide_ip" +:+ nl_str +:+ "}".

Definition proxy : ForwardProxy :=
  mkForwardProxy true ["am9lOnNlY3JldA=="] true [443; 8443] EmptyString EmptyString false (20 * second) 0 "pf.example.com" "8080".

Lemma configuration_is_consistent_witness :
  setup 10 "pf.example.com" "8080" (NewDispenser "Caddyfile" config) = Done proxy /\
  config_ok "pf.example.com" "8080" proxy.
Proof.
  assert (H : setup 10 "pf.example.com" "8080" (NewDispenser "Caddyfile" config) = Done proxy) by (vm_compute; reflexivity).
  split; [exact H|]. exact (proj1 (configuration_is_consistent 10 "pf.example.com" "8080" _ proxy H)).
Defined.

Definition headers : header :=
  {["Proxy-Authorization" := ["Basic am9lOnNlY3JldA=="]; "Connection" := ["X-Secret, close"]; "X-Secret" := ["1"]; "Accept" := ["*/*"]]}.
Definition target (host : string) : URL := set_Host host zeroURL.
Definition get : request :=
  mkRequest "GET" "www.example.com" "http://www.example.com/" (target "www.example.com") 1 1 "10.0.0.1:4000" headers.
Definition connect (host : string) : request := mkRequest "CONNECT" host host (target host) 1 1 "10.0.0.1:4000" headers.
Definition new_request (_ _ : string) : URL + string := inl (target "www.example.com").
Definition dial (_ : string) : error := None.
Definition trip (_ : out_request) : response + option response * string := inl (mkResponse 200 1 1 {["Keep-Alive" := ["5"]]}).
Definition demo_writer : writer := mkWriter true None [] None None true ∅.
Definition serve (fp : ForwardProxy) (r : request) : answer :=
  ServeHTTP new_request dial trip (None, None) None (404, None) fp demo_writer r.

Definition sent : out_request :=
  mkOutRequest "GET" (target "www.example.com") {["Accept" := ["*/*"]; "Via" := ["1.1 caddy"]]}.

Lemma nothing_leaves_unless_allowed_witness :
  Sent sent ∈ (serve proxy get).1.1 /\ event_ok proxy get (Sent sent) /\
  Dialed "www.example.com:443" (20 * second) ∈ (serve proxy (connect "www.example.com:443")).1.1 /\
  port_allowed proxy "443".
Proof.
  assert (H1 : Sent sent ∈ (serve proxy get).1.1) by (apply list_elem_of_In; vm_compute; by left).
  assert (H2 : Dialed "www.example.com:443" (20 * second) ∈ (serve proxy (connect "www.example.com:443")).1.1)
    by (apply list_elem_of_In; vm_compute; by left).
  split; [exact H1|].
  split; [exact (nothing_leaves_unless_allowed new_request dial trip (None, None) None (404, None) proxy demo_writer get _ H1)|].
  split; [exact H2|].
  exact (proj2 (proj2 (proj2 (nothing_leaves_unless_allowed new_request dial trip (None, None) None (404, None) proxy demo_writer _ _ H2)))).
Defined.

Lemma stream_is_copied_witness :
  exists ev, flushingIoCopy true [([1; 2], None); ([], None); ([3], Some EOF)] [(2, None); (1, None)] = Some (ev, 3, None) /\
    bytes_of ev = [1; 2; 3].
Proof. apply (stream_is_copied true [[1; 2]; []] [3] [(2, None); (1, None)]). cbn. done. Defined.

(** The brackets of an IPv6 address are dropped from the address that is dialed. *)
Example ipv6_address : (serve proxy (connect "[2001:db8::1]:443")).1.1 = [Dialed "2001:db8::1:443" (20 * second); Established; Streamed].
Proof. vm_compute. reflexivity. Qed.

(** A site without a name takes the hosts that end in a dot for its own. *)
Definition nameless : ForwardProxy := new_proxy EmptyString "8080".
Example trailing_dot_is_not_proxied :
  (serve nameless (mkRequest "GET" "www.example.com." "http://www.example.com./" (target "www.example.com.") 1 1 "10.0.0.1:4000" ∅)).1.1 =
    [NextHandler].
Proof. vm_compute. reflexivity. Qed.

(** CONNECT without credentials is passed on although the proxy does not hide. *)
Example connect_is_passed_on :
  probeResistEnabled proxy = false /\
  (serve proxy (mkRequest "CONNECT" "pf.example.com:443" EmptyString (target "pf.example.com:443") 1 1 "10.0.0.1:4000" ∅)).1.1 = [NextHandler].
Proof. vm_compute. done. Qed.

(** Only the first Connection header is looked at. *)
Example second_connection_header :
  removeHopByHop {["Connection" := ["close"; "X-Secret"]; "X-Secret" := ["1"]]} = {["X-Secret" := ["1"]]}.
Proof. vm_compute. reflexivity. Qed.
End ForwardProxyDemo.
