(* ===== verification/ApiClient.v ===== *)
(** The client of the unified API (src/go/unifiedapiclient/client.go), the
    handler it talks to (src/go/caddy/api-aaa/api-aaa.go) and their composition.

    A client is a function of the server, which is any function from a request
    and its state to an answer; the handler, with the gate and the tokens of
    Aaa.v, is such a function.  JSON is an argument: the encodings of the
    bodies and their decoders. *)
From S2P Require Import Prelude NetIP DhcpWire TimedCache Aaa.
From Stdlib Require Import ZArith Lia Ascii.
From stdpp Require Import base gmap strings list.

Open Scope string_scope.
Open Scope Z_scope.

(** ** The client (client.go) *)

Definition API_LOGIN_PATH : string := "/api/v1/login".
Definition UnsetTenantId : Z := -1.

Record Client := mkClient {
  c_Username : string; c_Password : string; c_Host : string; c_Port : string; c_token : string; c_tenantId : Z
}.

Definition New (username password proto host port : string) : Client :=
  mkClient username password host port EmptyString UnsetTenantId.

Definition set_token (token : string) (c : Client) : Client :=
  mkClient (c_Username c) (c_Password c) (c_Host c) (c_Port c) token (c_tenantId c).
Definition SetTenantId (tenantId : Z) (c : Client) : Client :=
  mkClient (c_Username c) (c_Password c) (c_Host c) (c_Port c) (c_token c) tenantId.
Definition ResetTenantId : Client -> Client := SetTenantId UnsetTenantId.

Record http_request := mkHttp { h_Uri : string; h_Req : Req; h_Body : string }.
Record http_reply := mkReply { StatusCode : Z; Body : string }.

(** ErrorReply: the status and the message *)
Record ErrorReply := mkErrorReply { Status : Z; Message : string }.

Definition NewErrorReply (status : Z) (msg : string) : ErrorReply := mkErrorReply status msg.

(** What a call comes to.  [NilError] is an error that is a nil pointer to an
    ErrorReply: it is not nil, and it cannot be asked for its message. *)
Inductive result (A : Type) : Type :=
  | Answer (a : A)
  | ErrorIs (e : ErrorReply)
  | NilError
  | Panics (why : string)
  | Looping.
Arguments Answer {A} _.
Arguments ErrorIs {A} _.
Arguments NilError {A}.
Arguments Panics {A} _.
Arguments Looping {A}.

Definition nil_deref : string := "invalid memory address or nil pointer dereference".

Section Client.
Context {St : Type}.
(** httpClient.Do: the answer or the error of the transport *)
Context (Do : http_request -> St -> St * (http_reply + string)).
(** The error of http.NewRequest for a method and a URI *)
Context (NewRequestErr : string -> string -> error).
(** json.Marshal of the login, and the decoders of its answer and of an error;
    a body that is null makes the pointer to the error nil *)
Context (LoginBody : string -> string -> string).
Context (DecodeToken : string -> string + string) (DecodeError : Z -> string -> option ErrorReply + string).

Definition buildRequest (c : Client) (method path body : string) : go http_request :=
  let uri := "https://" +:+ c_Host c +:+ ":" +:+ c_Port c +:+ path in
  match NewRequestErr method uri with
  | Some e => Panic e
  | None =>
      let r := mkReq method path ∅ in
      let r := if decide (c_token c = EmptyString) then r else Header_Set "Authorization" ("Bearer " +:+ c_token c) r in
      let r := if decide (c_tenantId c = UnsetTenantId) then r else Header_Set tenant_header (Itoa (c_tenantId c)) r in
      Ret (mkHttp uri r body)
  end.

Definition not_standard : string :=
  "Error body doesn't follow the Unified API standard, couldn't extract the error message from it.".

(** CallWithStringBody; login is its call of itself.  The depth of the calls is
    bounded by [n]. *)
Fixpoint CallWithStringBody (n : nat) (A : Type) (decode : string -> A + string) (method path body : string)
    (c : Client) (s : St) : Client * St * result A :=
  match n with
  | O => (c, s, Looping)
  | S n' =>
      match buildRequest c method path body with
      | Panic w => (c, s, Panics w)
      | Ret r =>
          match Do r s with
          | (s1, inr e) => (c, s1, ErrorIs (NewErrorReply 0 e))
          | (s1, inl resp) =>
              if StatusCode resp <? 400 then
                (c, s1, match decode (Body resp) with inl a => Answer a | inr e => ErrorIs (NewErrorReply 0 e) end)
              else if (StatusCode resp =? 401) && negb (bool_decide (path = API_LOGIN_PATH)) then
                match CallWithStringBody n' string DecodeToken "POST" API_LOGIN_PATH (LoginBody (c_Username c) (c_Password c)) c s1 with
                | (c2, s2, Answer token) => CallWithStringBody n' A decode method path body (set_token token c2) s2
                | (c2, s2, ErrorIs e) => (c2, s2, ErrorIs (NewErrorReply (StatusCode resp) (Message e)))
                | (c2, s2, NilError) => (c2, s2, Panics nil_deref)
                | (c2, s2, Panics w) => (c2, s2, Panics w)
                | (c2, s2, Looping) => (c2, s2, Looping)
                end
              else
                (c, s1, match DecodeError (StatusCode resp) (Body resp) with
                        | inr _ => ErrorIs (NewErrorReply (StatusCode resp) not_standard)
                        | inl None => NilError
                        | inl (Some e) => ErrorIs e
                        end)
          end
      end
  end.

Definition Call (n : nat) (A : Type) (decode : string -> A + string) (method path : string) (c : Client) (s : St) :
    Client * St * result A := CallWithStringBody n A decode method path EmptyString c s.

(** CallWithBody: json.Marshal of the payload or its error *)
Definition CallWithBody (n : nat) (A : Type) (decode : string -> A + string) (method path : string) (payload : string + string)
    (c : Client) (s : St) : Client * St * result A :=
  match payload with
  | inr e => (c, s, Panics e)
  | inl data => CallWithStringBody n A decode method path data c s
  end.

Definition login (n : nat) (c : Client) (s : St) : Client * St * result unit :=
  match CallWithStringBody n string DecodeToken "POST" API_LOGIN_PATH (LoginBody (c_Username c) (c_Password c)) c s with
  | (c2, s2, Answer token) => (set_token token c2, s2, Answer tt)
  | (c2, s2, ErrorIs e) => (c2, s2, ErrorIs e)
  | (c2, s2, NilError) => (c2, s2, NilError)
  | (c2, s2, Panics w) => (c2, s2, Panics w)
  | (c2, s2, Looping) => (c2, s2, Looping)
  end.

(** CallSimpleHtml: the body as it is; [ReadAll] is its reader. *)
Fixpoint CallSimpleHtml (n : nat) (ReadAll : string -> string + string) (method path body : string) (c : Client) (s : St) :
    Client * St * result string :=
  match n with
  | O => (c, s, Looping)
  | S n' =>
      match buildRequest c method path body with
      | Panic w => (c, s, Panics w)
      | Ret r =>
          match Do r s with
          | (s1, inr e) => (c, s1, ErrorIs (NewErrorReply 0 e))
          | (s1, inl resp) =>
              if StatusCode resp <? 400 then
                (c, s1, match ReadAll (Body resp) with inl a => Answer a | inr e => ErrorIs (NewErrorReply 0 e) end)
              else if (StatusCode resp =? 401) && negb (bool_decide (path = API_LOGIN_PATH)) then
                match login n' c s1 with
                | (c2, s2, Answer _) => CallSimpleHtml n' ReadAll method path body c2 s2
                | (c2, s2, ErrorIs e) => (c2, s2, ErrorIs e)
                | (c2, s2, NilError) => (c2, s2, NilError)
                | (c2, s2, Panics w) => (c2, s2, Panics w)
                | (c2, s2, Looping) => (c2, s2, Looping)
                end
              else
                (c, s1, match DecodeError 0 (Body resp) with
                        | inr _ => ErrorIs (NewErrorReply 0 not_standard)
                        | inl None => Panics nil_deref
                        | inl (Some e) => ErrorIs (NewErrorReply 0 (Message e))
                        end)
          end
      end
  end.
End Client.

(** ** The handler (api-aaa.go) *)

Section Handler.
Context {C : Type -> Type} {T : TimedCache C}.
Context (multipleTenants : bool) (roleActions : string -> gset string) (iter : gset string -> list string).

(** The state: the tokens, the users of the webservices backend, and the state
    of the handlers behind the gate *)
Context {App : Type}.
Record gate := mkGate { g_tokens : MemTokenBackend (C := C); g_webusers : gmap string string; g_app : App }.

(** The other backends, before and after that of the webservices user, and the
    user in the configuration *)
Context (systemBackends pfBackends : list (string -> string -> bool * option TokenInfo * error)).
Context (webservices : string * string).
(** The next handler *)
Context (Next : Req -> string -> App -> App * http_reply).
(** The decoder of a login, and the text of an answer: json.Marshal of a value,
    written by Fprintf *)
Context (DecodeLogin : string -> (string * string) + string) (render : jv -> string).
(** The clock and the random bytes *)
Context (now : Z) (rnd : list Z * error).
(** The parameter no-expiration-extension of the query is given *)
Context (no_extension : Req -> bool).

Definition message (code : Z) (msg : string) : http_reply := mkReply code (render (JMap [("message", JStr msg)])).

(** The backends in the order they are added *)
Definition backends (g : gate) : list (string -> string -> bool * option TokenInfo * error) :=
  (systemBackends ++ MemAuthenticate (g_webusers g) {["ALL"]} :: pfBackends)%list.

Definition set_tokens (m : MemTokenBackend) (g : gate) : gate := mkGate m (g_webusers g) (g_app g).

Definition internal_error : string := "An internal error has occured, please check server side logs for details.".

(** handleLogin; a panic after the status is written keeps the status. *)
Definition handleLogin (body : string) (g : gate) : gate * go http_reply :=
  match DecodeLogin body with
  | inr e => (g, Ret (mkReply 400 (e +:+ String "010"%char EmptyString)))
  | inl (username, password) =>
      match Login now rnd (backends g) username password (g_tokens g) with
      | Panic w => (g, Panic w)
      | Ret (m, (true, token, _)) => (set_tokens m g, Ret (mkReply 200 (render (JMap [("token", JStr token)]))))
      | Ret (m, (false, _, Some e)) => (set_tokens m g, Ret (message 401 e))
      | Ret (m, (false, _, None)) => (set_tokens m g, Ret (mkReply 401 (internal_error +:+ String "010"%char EmptyString)))
      end
  end.

Definition no_token_info : string :=
  "Couldn't find any information for the current token. Either it is invalid or it has expired.".

Definition tenant_json (t : Tenant) : jv :=
  JMap [("name", JStr (t_Name t)); ("portal_domain_name", JStr (t_Portal t)); ("domain_name", JStr (t_Domain t)); ("id", JNum (t_Id t))].

(** PrettyTokenInfo *)
Definition pretty_info (ti : TokenInfo) (expires : Z) : jv :=
  JMap [("admin_actions", JArr (JStr <$> iter (AdminActions multipleTenants roleActions ti)));
        ("admin_roles", JArr (JStr <$> iter (AdminRoles ti)));
        ("tenant", tenant_json (ti_Tenant ti)); ("username", JStr (Username ti)); ("expires_at", JNum expires)].

Definition handleTokenInfo (r : Req) (g : gate) : gate * http_reply :=
  let m := if no_extension r then g_tokens g else TouchTokenInfo now (tokenFromRequest r) (g_tokens g) in
  match TokenInfoForToken now (tokenFromRequest r) m with
  | (Some ti, expires) => (set_tokens m g, mkReply 200 (render (JMap [("item", pretty_info ti expires)])))
  | (None, _) => (set_tokens m g, message 404 no_token_info)
  end.

(** The message of an answer of HandleAAA *)
Definition refusal (code : Z) (r : Req) (m : MemTokenBackend) : string :=
  if negb (TokenIsValid now (tokenFromRequest r) m) then "Invalid token. Login again using /api/v1/login"
  else default EmptyString (BearerRequestIsAuthorized multipleTenants roleActions iter now
                              (TouchTokenInfo now (tokenFromRequest r) m) r).2.2.

(** ServeHTTP; a panic becomes an answer *)
Definition ServeHTTP (hr : http_request) (g : gate) : gate * http_reply :=
  let r := h_Req hr in
  let g := if decide (webservices.1 = EmptyString) then g
           else mkGate (g_tokens g) (SetUser webservices.1 webservices.2 (g_webusers g)) (g_app g) in
  if decide (r_Method r = "POST" /\ r_Path r = API_LOGIN_PATH) then
    match handleLogin (h_Body hr) g with
    | (g', Ret reply) => (g', reply)
    | (g', Panic _) => (g', mkReply 500 (internal_error +:+ String "010"%char EmptyString))
    end
  else if decide (r_Method r = "GET" /\ r_Path r = "/api/v1/token_info") then handleTokenInfo r g
  else
    match HandleAAA multipleTenants roleActions iter now now now (g_tokens g) r with
    | (m, r', None) => let '(app, reply) := Next r' (h_Body hr) (g_app g) in (mkGate m (g_webusers g) app, reply)
    | (m, _, Some code) => (set_tokens m g, message code (refusal code r (g_tokens g)))
    end.

(** The handler as the server of a client: no request is lost. *)
Definition serve (hr : http_request) (g : gate) : gate * (http_reply + string) :=
  let '(g', reply) := ServeHTTP hr g in (g', inl reply).
End Handler.

(** ** Lemmas *)

(** The request that a client builds *)
Definition uri_of (c : Client) (path : string) : string := "https://" +:+ c_Host c +:+ ":" +:+ c_Port c +:+ path.

Definition request_of (c : Client) (method path body : string) : http_request :=
  let r := mkReq method path ∅ in
  let r := if decide (c_token c = EmptyString) then r else Header_Set "Authorization" ("Bearer " +:+ c_token c) r in
  let r := if decide (c_tenantId c = UnsetTenantId) then r else Header_Set tenant_header (Itoa (c_tenantId c)) r in
  mkHttp (uri_of c path) r body.

Lemma request_of_token c method path body : tokenFromRequest (h_Req (request_of c method path body)) = c_token c.
Proof.
  unfold tokenFromRequest, request_of. cbn [h_Req]. destruct (decide (c_tenantId c = UnsetTenantId)).
  - case_decide as H; [by rewrite H|]. rewrite Header_Get_eq. apply TrimPrefix_app.
  - rewrite Header_Get_ne by done. case_decide as H; [by rewrite H|]. rewrite Header_Get_eq. apply TrimPrefix_app.
Qed.

Lemma request_of_fields c method path body :
  r_Method (h_Req (request_of c method path body)) = method /\ r_Path (h_Req (request_of c method path body)) = path.
Proof. unfold request_of. cbn [h_Req]. by repeat case_decide. Qed.

Section ClientLemmas.
Context {St : Type} (Do : http_request -> St -> St * (http_reply + string)) (NewRequestErr : string -> string -> error).
Context (LoginBody : string -> string -> string).
Context (DecodeToken : string -> string + string) (DecodeError : Z -> string -> option ErrorReply + string).
(** The method and the URIs of the client are well formed. *)
Definition requests_ok (c : Client) (method path : string) : Prop :=
  NewRequestErr method (uri_of c path) = None /\ NewRequestErr "POST" (uri_of c API_LOGIN_PATH) = None.
Local Abbreviation call := (CallWithStringBody Do NewRequestErr LoginBody DecodeToken DecodeError).

Lemma build_ok c method path body :
  NewRequestErr method (uri_of c path) = None -> buildRequest NewRequestErr c method path body = Ret (request_of c method path body).
Proof. intros Hn. unfold buildRequest. fold (uri_of c path). by rewrite Hn. Qed.

(** An answer that is not 401 is the result of the call. *)
Lemma call_answered n A decode method path body c s s1 resp a :
  requests_ok c method path ->
  Do (request_of c method path body) s = (s1, inl resp) -> StatusCode resp < 400 -> decode (Body resp) = inl a ->
  call (S n) A decode method path body c s = (c, s1, Answer a).
Proof.
  intros [Hr _] HD Hs Ha. cbn [CallWithStringBody]. rewrite build_ok, HD, (proj2 (Z.ltb_lt _ _)) by done. by rewrite Ha.
Qed.

(** After a 401 the client logs in and repeats its request with the token. *)
Lemma call_logs_in n A decode method path body c s s1 s2 resp rlogin token :
  requests_ok c method path -> path <> API_LOGIN_PATH ->
  Do (request_of c method path body) s = (s1, inl resp) -> StatusCode resp = 401 ->
  Do (request_of c "POST" API_LOGIN_PATH (LoginBody (c_Username c) (c_Password c))) s1 = (s2, inl rlogin) ->
  StatusCode rlogin < 400 -> DecodeToken (Body rlogin) = inl token ->
  call (S (S n)) A decode method path body c s = call (S n) A decode method path body (set_token token c) s2.
Proof.
  intros [Hr Hrl] Hp HD Hs HL Hls Ht. cbn [CallWithStringBody]. rewrite build_ok, HD, Hs by done.
  change (401 <? 400) with false. change (401 =? 401) with true. rewrite bool_decide_false by done. cbn [andb negb].
  rewrite build_ok, HL, (proj2 (Z.ltb_lt _ _)) by done. by rewrite Ht.
Qed.

(** A server that grants every login and refuses every other request keeps the
    client busy for ever. *)
Lemma refused_for_ever n A decode method path body token c s :
  requests_ok c method path -> path <> API_LOGIN_PATH ->
  (forall r s, exists s' resp, Do r s = (s', inl resp) /\
     (if decide (r_Path (h_Req r) = API_LOGIN_PATH) then StatusCode resp < 400 /\ DecodeToken (Body resp) = inl token
      else StatusCode resp = 401)) ->
  exists c' s', call n A decode method path body c s = (c', s', Looping).
Proof.
  intros Hreq Hp Hserver. revert c s Hreq. induction n as [|n IH]; intros c s Hreq; [by exists c, s|].
  destruct (Hserver (request_of c method path body) s) as (s1 & resp & HD & Hr).
  rewrite (proj2 (request_of_fields _ _ _ _)), decide_False in Hr by done.
  destruct (Hserver (request_of c "POST" API_LOGIN_PATH (LoginBody (c_Username c) (c_Password c))) s1) as (s2 & rl & HL & Hl).
  rewrite (proj2 (request_of_fields _ _ _ _)), decide_True in Hl by done. destruct Hl as [Hl1 Hl2].
  destruct n as [|n].
  - cbn [CallWithStringBody]. rewrite build_ok, HD, Hr by apply Hreq. change (401 <? 400) with false. change (401 =? 401) with true.
    rewrite bool_decide_false by done. by exists c, s1.
  - rewrite (call_logs_in _ _ _ _ _ _ _ _ _ _ _ _ _ Hreq Hp HD Hr HL Hl1 Hl2). by apply IH.
Qed.
End ClientLemmas.

(** ** The client and the handler *)

Section Composition.
Context {C : Type -> Type} `{TimedCacheLaws C} {App : Type}.
Context (multipleTenants : bool) (roleActions : string -> gset string) (iter : gset string -> list string).
Context (systemBackends pfBackends : list (string -> string -> bool * option TokenInfo * error)) (webservices : string * string).
Context (Next : Req -> string -> App -> App * http_reply).
Context (DecodeLogin : string -> (string * string) + string) (render : jv -> string) (now : Z) (b : list Z).
Context (no_extension : Req -> bool).
Context (NewRequestErr : string -> string -> error) (LoginBody : string -> string -> string).
Context (DecodeToken : string -> string + string) (DecodeError : Z -> string -> option ErrorReply + string).
(** There are 32 random bytes, and their digits are read back from the answer. *)
Context (random_ok : length b = 32%nat).
Context (token_roundtrip : DecodeToken (render (JMap [("token", JStr (hex b))])) = inl (hex b)).

Local Abbreviation server := (serve (C := C) multipleTenants roleActions iter systemBackends pfBackends webservices Next
  DecodeLogin render now (b, None) no_extension).
Local Abbreviation call := (CallWithStringBody server NewRequestErr LoginBody DecodeToken DecodeError).

(** The state after the user of the webservices is reloaded *)
Definition reloaded (g : gate (C := C) (App := App)) : gate :=
  if decide (webservices.1 = EmptyString) then g
  else mkGate (g_tokens g) (SetUser webservices.1 webservices.2 (g_webusers g)) (g_app g).

Lemma reloaded_tokens g : g_tokens (reloaded g) = g_tokens g /\ g_app (reloaded g) = g_app g.
Proof. unfold reloaded. by case_decide. Qed.

Lemma reloaded_set_tokens m g : reloaded (set_tokens m (reloaded g)) = set_tokens m (reloaded g).
Proof.
  unfold reloaded, set_tokens. case_decide; [done|]. cbn. unfold SetUser. by rewrite insert_insert_eq.
Qed.

(** A request that the gate lets in for a token *)
Definition authorized_for (ti : TokenInfo) (method path : string) : Prop :=
  satisfied (needed_action method path) (AdminActions multipleTenants roleActions ti) /\
  t_Id (ti_Tenant ti) <> AccessNoTenants /\ namespace_ok multipleTenants method path ti.

Lemma touched_info token ti m :
  0 < expiration m -> (TokenInfoForToken now token m).1 = Some ti ->
  (TokenInfoForToken now token (TouchTokenInfo now token m)).1 = Some ti.
Proof.
  intros He Hi. unfold TouchTokenInfo. rewrite Hi. unfold TokenInfoForToken in *. cbn.
  rewrite tc_get_set, decide_True, decide_True by (done || lia).
  destruct (tc_get now token (store m)) as [[ti0 e]|]; [|done]. repeat (case_decide; simplify_eq/=); done.
Qed.

Lemma gate_lets_in m r ti :
  IsPathPublic (r_Path r) = false -> 0 < expiration m -> Header_Get tenant_header r = EmptyString ->
  (TokenInfoForToken now (tokenFromRequest r) m).1 = Some ti -> authorized_for ti (r_Method r) (r_Path r) ->
  exists m' r', HandleAAA multipleTenants roleActions iter now now now m r = (m', r', None) /\
    granted multipleTenants roleActions iter ti (t_Id (ti_Tenant ti)) r r' /\
    (TokenInfoForToken now (tokenFromRequest r) m').1 = Some ti.
Proof.
  intros Hpub He Hx Hi (Hsat & Hno & Hns). unfold HandleAAA. rewrite Hpub.
  assert (Hv : TokenIsValid now (tokenFromRequest r) m = true).
  { unfold TokenIsValid. unfold TokenInfoForToken in Hi. by destruct (tc_get now (tokenFromRequest r) (store m)). }
  rewrite Hv. cbn [negb]. unfold BearerRequestIsAuthorized. rewrite touched_info with (ti := ti) by done. rewrite Hx.
  assert (Hfin : forall r0 tid, r_Method r0 = r_Method r -> r_Path r0 = r_Path r -> tid = t_Id (ti_Tenant ti) ->
    exists r', with_identity multipleTenants roleActions iter ti r0 tid = (r', (true, None)) /\
      granted multipleTenants roleActions iter ti (t_Id (ti_Tenant ti)) r r').
  { intros r0 tid Hm Hp ->. unfold with_identity. cbn [Header_Set r_Method r_Path].
    assert (Ha : IsAuthorized multipleTenants roleActions (r_Method r0) (r_Path r0) (t_Id (ti_Tenant ti)) (Some ti) = (true, None)).
    { apply IsAuthorized_spec. rewrite Hm, Hp. split; [done|]. split; [|done]. split; [done|by right]. }
    eexists. split; [by rewrite Ha|]. apply (identity_granted multipleTenants roleActions iter ti r r0 _ _ None); [done..|].
    unfold with_identity. cbn [Header_Set r_Method r_Path]. by rewrite Ha. }
  destruct (decide _) as [[Hall _]|].
  - destruct (Hfin r 0 eq_refl eq_refl) as (r' & Hr & Hg); [by rewrite Hall|]. apply pair_equal_spec in Hr as [Hr1 Hr2]. cbv zeta.
    rewrite Hr2, Hr1. eexists _, _. split; [done|]. split; [done|]. by apply touched_info.
  - rewrite decide_True by done.
    destruct (Hfin (Header_Set tenant_header (Itoa (t_Id (ti_Tenant ti))) r) _ eq_refl eq_refl eq_refl) as (r' & Hr & Hg).
    apply pair_equal_spec in Hr as [Hr1 Hr2]. cbv zeta. rewrite Hr2, Hr1.
    eexists _, _. split; [done|]. split; [done|]. by apply touched_info.
Qed.

Lemma login_settings backends username password m m' auth token err :
  Login now (b, None) backends username password m = Ret (m', (auth, token, err)) ->
  expiration m' = expiration m /\ (auth = true -> token = hex b).
Proof.
  induction backends as [|be bes IH]; cbn [Login]; [by intros [= <- <- _ _]|].
  destruct (be username password) as [[[] [ti|]] e]; try done. unfold GenerateToken.
  rewrite decide_False by (rewrite random_ok; tauto). by intros [= <- <- <- _].
Qed.

(** The path is one of those behind the gate. *)
Definition behind_gate (method path : string) : Prop :=
  IsPathPublic path = false /\ path <> API_LOGIN_PATH /\ ~ (method = "GET" /\ path = "/api/v1/token_info").

Lemma serve_gate g method path body c :
  behind_gate method path ->
  server (request_of c method path body) g =
    match HandleAAA multipleTenants roleActions iter now now now (g_tokens g) (h_Req (request_of c method path body)) with
    | (m, r', None) => let '(app, reply) := Next r' body (g_app g) in (mkGate m (g_webusers (reloaded g)) app, inl reply)
    | (m, _, Some code) =>
        (set_tokens m (reloaded g),
         inl (message render code (refusal multipleTenants roleActions iter now code (h_Req (request_of c method path body)) (g_tokens g))))
    end.
Proof.
  intros (Hpub & Hl & Ht). unfold serve, ServeHTTP. fold (reloaded g).
  destruct (request_of_fields c method path body) as [Hm Hp]. rewrite Hm, Hp.
  rewrite decide_False by (by intros [_ ?]). rewrite decide_False by done.
  destruct (reloaded_tokens g) as [-> ->]. change (h_Body (request_of c method path body)) with body.
  destruct (HandleAAA _ _ _ _ _ _ _ _) as [[m r'] [code|]]; [done|]. by destruct (Next r' body (g_app g)).
Qed.

(** C29.  A client whose token is no longer valid gets its request through.  Let the
    client have no tenant set, its requests be well formed, and its request be one
    that the gate guards; let some backend accept its credentials, every backend
    that accepts them give a token info whose roles and tenant allow the request,
    and the handler behind the gate answer every request with a status below 400
    and a body that the client decodes.  Then the client logs in once, repeats the
    request, and its answer is that of the handler, which sees the request with the
    identity of the user. *)
Theorem client_gets_through A decode method path body c g :
  requests_ok NewRequestErr c method path -> behind_gate method path -> c_tenantId c = UnsetTenantId ->
  DecodeLogin (LoginBody (c_Username c) (c_Password c)) = inl (c_Username c, c_Password c) ->
  TokenIsValid now (c_token c) (g_tokens g) = false -> 0 < expiration (g_tokens g) -> 0 <= maxExpiration (g_tokens g) ->
  Forall (fun be => (be (c_Username c) (c_Password c)).1.1 = true -> is_Some (be (c_Username c) (c_Password c)).1.2)
    (backends systemBackends pfBackends (reloaded g)) ->
  Exists (fun be => (be (c_Username c) (c_Password c)).1.1 = true) (backends systemBackends pfBackends (reloaded g)) ->
  (forall be ti e, be ∈ backends systemBackends pfBackends (reloaded g) -> be (c_Username c) (c_Password c) = (true, Some ti, e) ->
     authorized_for (mkTokenInfo (AdminRoles ti) (ti_Tenant ti) (c_Username c) now) method path) ->
  (forall r', exists app' reply a, Next r' body (g_app g) = (app', reply) /\ StatusCode reply < 400 /\ decode (Body reply) = inl a) ->
  exists c' g' a ti r r' reply,
    call 2 A decode method path body c g = (c', g', Answer a) /\
    r_Method r = method /\ r_Path r = path /\ c_token c' = tokenFromRequest r /\
    (TokenInfoForToken now (c_token c') (g_tokens g')).1 = Some ti /\ Username ti = c_Username c /\
    granted multipleTenants roleActions iter ti (t_Id (ti_Tenant ti)) r r' /\
    Next r' body (g_app g) = (g_app g', reply) /\ decode (Body reply) = inl a.
Proof.
  intros Hreq Hgate Hten login_roundtrip Hinv Hexp Hmax Hwf Hacc Hauth Hnext.
  pose proof (serve_gate g method path body c Hgate) as H1.
  unfold HandleAAA in H1. rewrite (proj2 (request_of_fields _ _ _ _)) in H1. rewrite (proj1 Hgate), request_of_token, Hinv in H1. cbn [negb] in H1.
  set (g1 := set_tokens (g_tokens g) (reloaded g)) in *.
  assert (Hg1 : reloaded g1 = g1) by apply reloaded_set_tokens.
  destruct (login_stores_token now b (backends systemBackends pfBackends (reloaded g)) (c_Username c) (c_Password c) (g_tokens g))
    as (m & auth & token & err & HL & Hiff & Hok & _); [done..|].
  assert (Ha : auth = true) by (by apply Hiff). destruct (Hok Ha) as (Hlen & be & ti & Hbe & Hres & Hinfo). subst auth.
  set (ti' := mkTokenInfo (AdminRoles ti) (ti_Tenant ti) (c_Username c) now) in *.
  assert (H2 : server (request_of c "POST" API_LOGIN_PATH (LoginBody (c_Username c) (c_Password c))) g1 =
    (set_tokens m g1, inl (mkReply 200 (render (JMap [("token", JStr token)]))))).
  { unfold serve, ServeHTTP. fold (reloaded g1). rewrite Hg1.
    destruct (request_of_fields c "POST" API_LOGIN_PATH (LoginBody (c_Username c) (c_Password c))) as [-> ->].
    rewrite decide_True by done. unfold handleLogin. cbn [h_Body request_of]. rewrite login_roundtrip.
    change (g_tokens g1) with (g_tokens g). change (backends systemBackends pfBackends g1) with (backends systemBackends pfBackends (reloaded g)).
    by rewrite HL. }
  destruct (login_settings _ _ _ _ _ _ _ _ HL) as [Hset Htok]. specialize (Htok eq_refl). subst token.
  set (c1 := set_token (hex b) c). set (g2 := set_tokens m g1) in *.
  destruct (gate_lets_in m (h_Req (request_of c1 method path body)) ti') as (m' & r' & Hgate' & Hgr & Hti). 
  { by rewrite (proj2 (request_of_fields _ _ _ _)), (proj1 Hgate). }
  { by rewrite Hset. }
  { unfold request_of, c1. cbn. rewrite Hten, decide_True by done. case_decide; [done|]. by rewrite Header_Get_ne. }
  { by rewrite request_of_token. }
  { destruct (request_of_fields c1 method path body) as [-> ->]. by eapply Hauth. }
  destruct (Hnext r') as (app' & reply & a & HN & Hst & Hdec).
  pose proof (serve_gate g2 method path body c1 Hgate) as H3. change (g_tokens g2) with m in H3. rewrite Hgate' in H3.
  change (g_app g2) with (g_app (reloaded g)) in H3. rewrite (proj2 (reloaded_tokens g)), HN in H3.
  eexists c1, _, a, ti', (h_Req (request_of c1 method path body)), r', reply. split.
  - etransitivity; [eapply call_logs_in; [done | apply Hgate | exact H1 | done | exact H2 | done | exact token_roundtrip]|].
    eapply call_answered; [exact Hreq | exact H3 | done | exact Hdec].
  - destruct (request_of_fields c1 method path body) as [-> ->]. rewrite request_of_token in *. split_and!; done || exact Hgr.
Qed.
End Composition.

(** ** A client, the handler and one user *)
Module ApiClientDemo.
Definition store0 : Type -> Type := fun V => gmap string (V * Z).
Definition actions (role : string) : gset string := if decide (role = "ALL") then {[ "NODES_READ" ]} else ∅.
Definition system := [MemAuthenticate {[ "alice" := "secret" ]} {[ "ALL" ]}].
Definition next (r : Req) (body : string) (app : nat) : nat * http_reply := (S app, mkReply 200 (Header_Get username_header r)).
Definition encode_login (u p : string) : string := u +:+ " " +:+ p.
Definition decode_login (s : string) : string * string + string :=
  if decide (s = "alice secret") then inl ("alice", "secret") else inr "unexpected end of JSON input".
Definition text (v : jv) : string :=
  match v with JMap ((_, JStr x) :: _) => x | _ => EmptyString end.
Definition decode_error (status : Z) (s : string) : option ErrorReply + string :=
  if decide (s = "null") then inl None else inl (Some (mkErrorReply status s)).
Definition random := replicate 32 7.
Definition empty_gate : gate := mkGate (C := store0) (mkMem 30 60 ∅) ∅ O.
Definition alice : Client := New "alice" "secret" "https" "127.0.0.1" "9999".
Definition server := serve (C := store0) false actions elements system [] ("wsuser", "wspass") next decode_login text 5 (random, None)
  (fun _ => false).
Definition call (n : nat) := CallWithStringBody server (fun _ _ => None) encode_login inl decode_error n string inl "GET" "/api/v1/nodes" EmptyString.

Lemma client_gets_through_witness :
  exists c' g' a ti r r' reply,
    call 2 alice empty_gate = (c', g', Answer a) /\
    r_Method r = "GET" /\ r_Path r = "/api/v1/nodes" /\ c_token c' = tokenFromRequest r /\
    (TokenInfoForToken 5 (c_token c') (g_tokens g')).1 = Some ti /\ Username ti = "alice" /\
    granted false actions elements ti (t_Id (ti_Tenant ti)) r r' /\
    next r' EmptyString O = (g_app g', reply) /\ inl (Body reply) = inl a :> string + string.
Proof.
  apply (client_gets_through (C := store0) false actions elements system [] ("wsuser", "wspass") next decode_login text 5 random
    (fun _ => false) (fun _ _ => None) encode_login inl decode_error eq_refl eq_refl string inl "GET" "/api/v1/nodes" EmptyString
    alice empty_gate).
  - split; reflexivity.
  - split; [reflexivity|]. split; [discriminate | intros [_ ?]; discriminate].
  - reflexivity.
  - reflexivity.
  - reflexivity.
  - reflexivity.
  - discriminate.
  - repeat constructor; vm_compute; intros; eauto; discriminate.
  - left. reflexivity.
  - intros be ti e Hin Hres. split; [|split; [|right; split; [discriminate|reflexivity]]].
    + assert (AdminRoles ti = {["ALL"]}) as Hr.
      { apply elem_of_cons in Hin as [->|Hin]; [vm_compute in Hres; by injection Hres as <- _|].
        apply list_elem_of_singleton in Hin as ->. vm_compute in Hres. discriminate. }
      unfold AdminActions. cbn [AdminRoles]. rewrite Hr.
      case_match; [|]; vm_compute; reflexivity.
    + apply elem_of_cons in Hin as [->|Hin]; [vm_compute in Hres; by injection Hres as <- _|].
      apply list_elem_of_singleton in Hin as ->. vm_compute in Hres. discriminate.
  - intros r'. exists 1%nat, (mkReply 200 (Header_Get username_header r')), (Header_Get username_header r'). split_and!; reflexivity.
Defined.

(** The first call logs in; the next one uses the token. *)
Example second_call_reuses_the_token :
  let '(c1, g1, a1) := call 2 alice empty_gate in
  let '(c2, g2, a2) := call 1 c1 g1 in
  a1 = Answer "alice" /\ a2 = Answer "alice" /\ c_token c1 = c_token c2 /\ g_app g2 = 2%nat.
Proof. vm_compute. repeat split. Qed.

(** A wrong password is the 401 of the first request. *)
Example wrong_password_is_reported :
  (call 2 (New "alice" "guess" "https" "127.0.0.1" "9999") empty_gate).2 = ErrorIs (mkErrorReply 401 "unexpected end of JSON input
").
Proof. vm_compute. reflexivity. Qed.

(** The body null in the place of an error is an error without a message, and
    a panic when the page is asked for. *)
Definition null_server (r : http_request) (s : unit) : unit * (http_reply + string) := (s, inl (mkReply 500 "null")).

Example null_body_is_a_nil_error :
  (CallWithStringBody null_server (fun _ _ => None) encode_login inl decode_error 1 string inl "GET" "/api/v1/nodes" EmptyString
     alice tt).2 = NilError /\
  (CallSimpleHtml null_server (fun _ _ => None) encode_login inl decode_error 1 inl "GET" "/api/v1/nodes" EmptyString alice tt).2 = Panics nil_deref.
Proof. vm_compute. split; reflexivity. Qed.
End ApiClientDemo.
