(* ===== verification/Mitm.v ===== *)
(** The detection of intercepted TLS connections
    (src/go/caddy/caddy/caddyhttp/httpserver/mitm.go and the ConnState callback
    of server.go).

    The reading of a ClientHello is translated with the checks of Go's indexing:
    an access out of range is a [Panic], so that the bounds of the parser are a
    theorem.  The parser returns what it has when it meets an error, as the
    source does with its named result.  Telemetry is not modelled. *)
From S2P Require Import Prelude NetIP GoText.
From Stdlib Require Import ZArith Lia Ascii.
From stdpp Require Import base gmap strings list.

Open Scope string_scope.
Open Scope Z_scope.
Open Scope go_scope.

(** ** Checked accesses *)

Definition at_ {A : Type} (l : list A) (i : nat) : go A :=
  match l !! i with Some a => Ret a | None => Panic index_panic end.

Definition from_ {A : Type} (l : list A) (n : nat) : go (list A) :=
  if decide (n <= length l)%nat then Ret (drop n l) else Panic index_panic.

Definition upto {A : Type} (l : list A) (a b : nat) : go (list A) :=
  if decide (a <= b <= length l)%nat then Ret (take (b - a) (drop a l)) else Panic index_panic.

(** Two bytes, in the order of the network *)
Definition word (l : list Z) (i : nat) : go Z :=
  a <-! at_ l i ;; b <-! at_ l (S i) ;; Ret (Z.lor (u16 (Z.shiftl a 8)) b).

(** ** The ClientHello *)

Record rawHelloInfo := mkInfo {
  Version : Z; CipherSuites : list Z; Extensions : list Z; CompressionMethods : list Z; Curves : list Z; Points : list Z
}.

Definition no_info : rawHelloInfo := mkInfo 0 [] [] [] [] [].

Definition set_Version v (i : rawHelloInfo) := mkInfo v (CipherSuites i) (Extensions i) (CompressionMethods i) (Curves i) (Points i).
Definition set_CipherSuites v (i : rawHelloInfo) := mkInfo (Version i) v (Extensions i) (CompressionMethods i) (Curves i) (Points i).
Definition add_Extension v (i : rawHelloInfo) :=
  mkInfo (Version i) (CipherSuites i) (Extensions i ++ [v])%list (CompressionMethods i) (Curves i) (Points i).
Definition set_Compression v (i : rawHelloInfo) := mkInfo (Version i) (CipherSuites i) (Extensions i) v (Curves i) (Points i).
Definition set_Curves v (i : rawHelloInfo) := mkInfo (Version i) (CipherSuites i) (Extensions i) (CompressionMethods i) v (Points i).
Definition set_Points v (i : rawHelloInfo) := mkInfo (Version i) (CipherSuites i) (Extensions i) (CompressionMethods i) (Curves i) v.

Definition extensionOCSPStatusRequest : Z := 5.
Definition extensionSupportedCurves : Z := 10.
Definition extensionSupportedPoints : Z := 11.
Definition extensionHeartbeat : Z := 15.
Definition scsvRenegotiation : Z := 255.

(** The loop over the cipher suites, from suite [i] on *)
Fixpoint read_suites (data : list Z) (n i : nat) : go (list Z) :=
  match n with
  | O => Ret []
  | S n' => c <-! word data (2 + 2 * i) ;; cs <-! read_suites data n' (S i) ;; Ret (c :: cs)
  end.

(** The loop over the curves *)
Fixpoint read_curves (n : nat) (d : list Z) : go (list Z) :=
  match n with
  | O => Ret []
  | S n' => c <-! word d 0 ;; d' <-! from_ d 2 ;; cs <-! read_curves n' d' ;; Ret (c :: cs)
  end.

(** The switch over the extension; [None] is the return of the parser. *)
Definition read_extension (extension : Z) (length : nat) (data : list Z) (info : rawHelloInfo) : go (option rawHelloInfo) :=
  if decide (extension = extensionSupportedCurves) then
    if decide (length < 2)%nat then Ret None
    else
      l <-! word data 0 ;;
      if decide (l `mod` 2 = 1 \/ Z.of_nat length <> l + 2) then Ret None
      else d <-! from_ data 2 ;; cs <-! read_curves (Z.to_nat (l / 2)) d ;; Ret (Some (set_Curves cs info))
  else if decide (extension = extensionSupportedPoints) then
    if decide (length < 1)%nat then Ret None
    else
      l <-! at_ data 0 ;;
      if decide (Z.of_nat length <> l + 1) then Ret None
      else d <-! from_ data 1 ;; Ret (Some (set_Points (take (Z.to_nat l) (d ++ repeat 0 (Z.to_nat l))%list) info))
  else Ret (Some info).

(** The loop over the extensions; [None] is no result within the fuel. *)
Fixpoint read_extensions (fuel : nat) (data : list Z) (info : rawHelloInfo) : go (option rawHelloInfo) :=
  match fuel with
  | O => Ret None
  | S fuel' =>
      if decide (length data = 0)%nat then Ret (Some info)
      else if decide (length data < 4)%nat then Ret (Some info)
      else
        extension <-! word data 0 ;;
        len <-! word data 2 ;;
        data <-! from_ data 4 ;;
        if decide (Z.of_nat (length data) < len) then Ret (Some info)
        else
          let info := add_Extension extension info in
          r <-! read_extension extension (Z.to_nat len) data info ;;
          match r with
          | None => Ret (Some info)
          | Some info => data <-! from_ data (Z.to_nat len) ;; read_extensions fuel' data info
          end
  end.

Definition parseRawClientHello (data : list Z) : go (option rawHelloInfo) :=
  let info := no_info in
  if decide (length data < 42)%nat then Ret (Some info)
  else
    v <-! word data 4 ;;
    let info := set_Version v info in
    sessionIDLen <-! at_ data 38 ;;
    if decide (sessionIDLen > 32 \/ Z.of_nat (length data) < 39 + sessionIDLen) then Ret (Some info)
    else
      data <-! from_ data (39 + Z.to_nat sessionIDLen) ;;
      if decide (length data < 2)%nat then Ret (Some info)
      else
        cipherSuiteLen <-! word data 0 ;;
        if decide (cipherSuiteLen `mod` 2 = 1 \/ Z.of_nat (length data) < 2 + cipherSuiteLen) then Ret (Some info)
        else
          suites <-! read_suites data (Z.to_nat (cipherSuiteLen / 2)) 0 ;;
          let info := set_CipherSuites suites info in
          data <-! from_ data (2 + Z.to_nat cipherSuiteLen) ;;
          if decide (length data < 1)%nat then Ret (Some info)
          else
            compressionMethodsLen <-! at_ data 0 ;;
            if decide (Z.of_nat (length data) < 1 + compressionMethodsLen) then Ret (Some info)
            else
              methods <-! upto data 1 (1 + Z.to_nat compressionMethodsLen) ;;
              let info := set_Compression methods info in
              data <-! from_ data (1 + Z.to_nat compressionMethodsLen) ;;
              if decide (length data < 2)%nat then Ret (Some info)
              else
                extensionsLength <-! word data 0 ;;
                data <-! from_ data 2 ;;
                if decide (extensionsLength <> Z.of_nat (length data)) then Ret (Some info)
                else read_extensions (S (length data)) data info.

(** ** Fingerprints *)

Definition advertisesHeartbeatSupport (info : rawHelloInfo) : bool :=
  existsb (fun ext => bool_decide (ext = extensionHeartbeat)) (Extensions info).

(** The inner loop: the rest of the superset from the item on *)
Fixpoint seek (item : Z) (superset : list Z) : option (list Z) :=
  match superset with
  | [] => None
  | x :: rest => if decide (x = item) then Some superset else seek item rest
  end.

Fixpoint ordered (subset superset : list Z) : bool :=
  match subset with
  | [] => true
  | item :: subset' => match seek item superset with Some rest => ordered subset' rest | None => false end
  end.

Definition assertPresenceAndOrdering (requiredItems candidateList : list Z) (requiredIsSubset : bool) : bool :=
  if requiredIsSubset then ordered requiredItems candidateList else ordered candidateList requiredItems.

Definition greaseCiphers : list Z :=
  [0x0A0A; 0x1A1A; 0x2A2A; 0x3A3A; 0x4A4A; 0x5A5A; 0x6A6A; 0x7A7A; 0x8A8A; 0x9A9A; 0xAAAA; 0xBABA; 0xCACA; 0xDADA; 0xEAEA; 0xFAFA].

Definition hasGreaseCiphers (cipherSuites : list Z) : bool :=
  existsb (fun c => bool_decide (c ∈ greaseCiphers)) cipherSuites.

(** The comparison of the first curves *)
Fixpoint curves_match (required curves : list Z) (i : nat) : go bool :=
  match required with
  | [] => Ret true
  | c :: required' => x <-! at_ curves i ;; if decide (x <> c) then Ret false else curves_match required' curves (S i)
  end.

Definition firefoxExtensions : list Z := [23; 65281; 10; 11; 35; 16; 5; 13].
Definition firefoxSuites : list Z :=
  [0x1301; 0x1303; 0x1302; 0xc02b; 0xc02f; 0xcca9; 0xcca8; 0xc02c; 0xc030; 0xc00a; 0xc009; 0xc013; 0xc014; 0x33; 0x39; 0x2f; 0x35; 0xa].

Definition looksLikeFirefox (info : rawHelloInfo) : go bool :=
  if negb (assertPresenceAndOrdering firefoxExtensions (Extensions info) true) then Ret false
  else
    let requiredCurves := [29; 23; 24; 25] in
    if decide (length (Curves info) < length requiredCurves)%nat then Ret false
    else
      b <-! curves_match requiredCurves (Curves info) 0 ;;
      if negb b then Ret false
      else
        b <-! (if decide (length requiredCurves < length (Curves info))%nat then
                 curves_match [256; 257] (Curves info) (length requiredCurves)
               else Ret true) ;;
        if negb b then Ret false
        else if hasGreaseCiphers (CipherSuites info) then Ret false
        else Ret (assertPresenceAndOrdering firefoxSuites (CipherSuites info) false).

Definition chromeCipherExclusions : list Z := [0xc024; 0xc023; 0xc028; 0xc027; 0x3d; 0x3c; 0x33; 0x39].

Definition looksLikeChrome (info : rawHelloInfo) : bool :=
  if existsb (fun c => bool_decide (c ∈ chromeCipherExclusions)) (CipherSuites info) then false
  else if existsb (fun c => bool_decide (c = 25)) (Curves info) then false
  else hasGreaseCiphers (CipherSuites info).

(** The loop over the extensions, from extension [i] on *)
Fixpoint edge_extensions (all : list Z) (l : list Z) (i : nat) : go bool :=
  match l with
  | [] => Ret true
  | ext :: l' =>
      if decide (ext = extensionOCSPStatusRequest) then
        if decide (length all <= i + 2)%nat then Ret false
        else
          a <-! at_ all (i + 1) ;;
          if decide (a <> extensionSupportedCurves) then Ret false
          else
            b <-! at_ all (i + 2) ;;
            if decide (b <> extensionSupportedPoints) then Ret false else edge_extensions all l' (S i)
      else edge_extensions all l' (S i)
  end.

Definition edgeExclusions : list Z := [scsvRenegotiation; 4; 5].

Definition looksLikeEdge (info : rawHelloInfo) : go bool :=
  b <-! edge_extensions (Extensions info) (Extensions info) 0 ;;
  if negb b then Ret false
  else if existsb (fun c => bool_decide (c ∈ edgeExclusions)) (CipherSuites info) then Ret false
  else Ret (negb (hasGreaseCiphers (CipherSuites info))).

Definition safariExtensions : list Z := [10; 11; 13; 13172; 16; 5; 18; 23].
Definition safariExtensionsiOS11 : list Z := [65281; 0; 23; 13; 5; 13172; 18; 16; 11; 10].
Definition safariSuites : list Z :=
  [0xc02c; 0xc02b; 0xc024; 0xc023; 0xc00a; 0xc009; 0xc030; 0xc02f; 0xc028; 0xc027; 0xc014; 0xc013; 0x9d; 0x9c; 0x3d; 0x3c; 0x35; 0x2f].

Definition looksLikeSafari (info : rawHelloInfo) : bool :=
  let cont :=
    if negb (assertPresenceAndOrdering safariExtensions (Extensions info) true) then
      assertPresenceAndOrdering safariExtensionsiOS11 (Extensions info) true
    else match CipherSuites info with [] => false | c :: _ => bool_decide (c = scsvRenegotiation) end in
  if negb cont then false
  else if hasGreaseCiphers (CipherSuites info) then false
  else assertPresenceAndOrdering safariSuites (CipherSuites info) true.

Definition looksLikeTor (info : rawHelloInfo) : go bool :=
  if negb (assertPresenceAndOrdering [10; 11; 16; 5; 13] (Extensions info) true) then Ret false
  else if existsb (fun ext => bool_decide (ext = 35)) (Extensions info) then Ret false
  else
    infoCurves <-! (if decide (length (Curves info) = 4)%nat then
                      c <-! at_ (Curves info) 0 ;;
                      if decide (c <> 29) then Ret None else d <-! from_ (Curves info) 1 ;; Ret (Some d)
                    else Ret (Some (Curves info))) ;;
    match infoCurves with
    | None => Ret false
    | Some infoCurves =>
        if decide (length infoCurves < 3)%nat then Ret false
        else
          b <-! curves_match [23; 24; 25] infoCurves 0 ;;
          if negb b then Ret false
          else if hasGreaseCiphers (CipherSuites info) then Ret false
          else Ret (assertPresenceAndOrdering firefoxSuites (CipherSuites info) false)
    end.

(** ** The handler *)

Section Handler.
(** strconv.ParseFloat and the equality with a number *)
Context {float : Type} (ParseFloat : string -> option float) (is_number : float -> Z -> bool) (minus_one : float).

Definition getVersion (ua softwareName : string) : float :=
  let search := softwareName +:+ "/" in
  match StrIndex ua search with
  | None => minus_one
  | Some start =>
      let rest := drop_str (start + String.length search) ua in
      let strVer := match StrIndex rest " " with None => rest | Some e => take_str e rest end in
      let strVer := StrReplace strVer "-" EmptyString in
      let strVer := match StrIndex strVer "." with
                    | Some firstDot => take_str (S firstDot) strVer +:+ StrReplace (drop_str (S firstDot) strVer) "." EmptyString
                    | None => strVer
                    end in
      default minus_one (ParseFloat strVer)
  end.

(** What the user agent and the headers say of the client: nothing, or whether
    the connection is intercepted *)
Definition assess (header : string -> string) (info : rawHelloInfo) : go (option bool) :=
  let ua := header "User-Agent" in
  if negb (bool_decide (header "X-BlueCoat-Via" = EmptyString)) || negb (bool_decide (header "X-FCCKV2" = EmptyString))
     || advertisesHeartbeatSupport info then Ret (Some true)
  else if StrContains ua "Edge" || StrContains ua "MSIE" || StrContains ua "Trident" then
    b <-! looksLikeEdge info ;; Ret (Some (negb b))
  else if StrContains ua "Chrome" then Ret (Some (negb (looksLikeChrome info)))
  else if StrContains ua "CriOS" then Ret (Some (negb (looksLikeChrome info) && negb (looksLikeSafari info)))
  else if StrContains ua "Firefox" then
    if StrContains ua "Windows" then
      let ver := getVersion ua "Firefox" in
      if is_number ver 45 || is_number ver 52 then b <-! looksLikeTor info ;; Ret (Some (negb b))
      else b <-! looksLikeFirefox info ;; Ret (Some (negb b))
    else b <-! looksLikeFirefox info ;; Ret (Some (negb b))
  else if StrContains ua "Safari" then Ret (Some (negb (looksLikeSafari info)))
  else Ret None.

(** The next handler and its argument, the value in the context; [None] when
    the request is answered by closing the connection *)
Definition ServeHTTP (listener : option (gmap string rawHelloInfo)) (closeOnMITM : bool) (remote : string)
    (header : string -> string) : go (option (option bool)) :=
  match listener with
  | None => Ret (Some None)
  | Some helloInfos =>
      let info := default no_info (helloInfos !! remote) in
      v <-! assess header info ;;
      if bool_decide (v = Some true) && closeOnMITM then Ret None else Ret (Some v)
  end.
End Handler.

(** ** The connection *)

(** clientHelloConn and the map of its listener *)
Record conn := mkConn { readHello : bool; buf : list Z; helloInfos : gmap string rawHelloInfo }.

(** Accept *)
Definition Accept (infos : gmap string rawHelloInfo) : conn := mkConn false [] infos.

(** Read: [chunk] and [err] are what the connection below answers.  A parser
    without a result is kept as such. *)
Definition Read (remote : string) (chunk : list Z) (err : error) (c : conn) : conn * go (list Z * error) :=
  if readHello c then (c, Ret (chunk, err))
  else
    let b := (buf c ++ chunk)%list in
    let kept b := mkConn false b (helloInfos c) in
    match err with
    | Some _ => (kept b, Ret (chunk, err))
    | None =>
        if decide (length b < 5)%nat then (kept b, Ret (chunk, None))
        else
          let hdr := take 5 b in
          let b := drop 5 b in
          match word hdr 3 with
          | Panic w => (kept b, Panic w)
          | Ret len =>
              if decide (Z.of_nat (length b) < len) then (kept b, Ret (chunk, None))
              else
                let hello := take (Z.to_nat len) b in
                match parseRawClientHello hello with
                | Panic w => (kept (drop (Z.to_nat len) b), Panic w)
                | Ret None => (kept (drop (Z.to_nat len) b), Panic "no result")
                | Ret (Some info) =>
                    (mkConn true (drop (Z.to_nat len) b) (<[remote := info]> (helloInfos c)), Ret (chunk, None))
                end
          end
    end.

Fixpoint Reads (remote : string) (chunks : list (list Z)) (c : conn) : conn :=
  match chunks with [] => c | x :: chunks' => Reads remote chunks' (Read remote x None c).1 end.

Inductive ConnState := StateNew | StateActive | StateIdle | StateHijacked | StateClosed.

(** The callback of NewServer *)
Definition on_ConnState (remote : string) (cs : ConnState) (listener : option (gmap string rawHelloInfo)) :
    option (gmap string rawHelloInfo) :=
  match listener with
  | None => None
  | Some infos => match cs with StateHijacked | StateClosed => Some (delete remote infos) | _ => Some infos end
  end.

(** ** Bounds and types *)

Lemma at_ok {A} (l : list A) i : (i < length l)%nat -> exists a, at_ l i = Ret a /\ l !! i = Some a.
Proof. intros [a Ha]%lookup_lt_is_Some. exists a. unfold at_. by rewrite Ha. Qed.

Lemma from_ok {A} (l : list A) n : (n <= length l)%nat -> from_ l n = Ret (drop n l).
Proof. intros. unfold from_. by rewrite decide_True. Qed.

Lemma lor_bytes a b : is_byte a -> is_byte b -> Z.lor (u16 (Z.shiftl a 8)) b = a * 256 + b.
Proof.
  unfold is_byte. intros Ha Hb. rewrite wrapU_small by (unfold is_u; rewrite Z.shiftl_mul_pow2; lia).
  rewrite lor_shift_add by lia. lia.
Qed.

Lemma word_ok l i : Forall is_byte l -> (S i < length l)%nat -> exists v, word l i = Ret v /\ is_u 16 v.
Proof.
  intros Hl Hi. destruct (at_ok l i) as (a & Ha & La); [lia|]. destruct (at_ok l (S i) Hi) as (b & Hb & Lb).
  unfold word. rewrite Ha. cbn [go_bind]. rewrite Hb. cbn [go_bind]. eexists. split; [done|].
  pose proof (Forall_lookup_1 _ _ _ _ Hl La) as Ba. pose proof (Forall_lookup_1 _ _ _ _ Hl Lb) as Bb.
  rewrite lor_bytes by done. unfold is_byte, is_u in *. lia.
Qed.

(** The fields have the values of their Go types. *)
Definition info_ok (i : rawHelloInfo) : Prop :=
  is_u 16 (Version i) /\ Forall (is_u 16) (CipherSuites i) /\ Forall (is_u 16) (Extensions i) /\
  Forall is_byte (CompressionMethods i) /\ Forall (is_u 16) (Curves i) /\ Forall is_byte (Points i).

Lemma read_suites_ok data n i :
  Forall is_byte data -> (2 + 2 * (i + n) <= length data)%nat ->
  exists cs, read_suites data n i = Ret cs /\ Forall (is_u 16) cs.
Proof.
  intros Hd. revert i. induction n as [|n IH]; intros i Hi; cbn [read_suites]; [by eexists|].
  destruct (word_ok data (2 + 2 * i) Hd) as (c & -> & Hc); [lia|]. cbn [go_bind].
  destruct (IH (S i)) as (cs & -> & Hcs); [lia|]. cbn [go_bind]. eexists. by split; [|constructor].
Qed.

Lemma read_curves_ok n d :
  Forall is_byte d -> (2 * n <= length d)%nat -> exists cs, read_curves n d = Ret cs /\ Forall (is_u 16) cs.
Proof.
  revert d. induction n as [|n IH]; intros d Hd Hn; cbn [read_curves]; [by eexists|].
  destruct (word_ok d 0 Hd) as (c & -> & Hc); [lia|]. cbn [go_bind]. rewrite from_ok by lia. cbn [go_bind].
  destruct (IH (drop 2 d)) as (cs & -> & Hcs); [by apply Forall_drop | rewrite length_drop; lia|].
  cbn [go_bind]. eexists. by split; [|constructor].
Qed.

Lemma read_extension_ok extension n data info :
  Forall is_byte data -> (n <= length data)%nat -> info_ok info ->
  exists r, read_extension extension n data info = Ret r /\ (forall info', r = Some info' -> info_ok info').
Proof.
  intros Hd Hn (Hv & Hs & He & Hm & Hc & Hp). unfold read_extension.
  assert (Hsome : forall x, info_ok x -> exists r, Ret (Some x) = Ret r /\ (forall x', r = Some x' -> info_ok x'))
    by (intros; eexists; split; [done|]; by intros ? [= <-]).
  assert (Hnone : exists r, @Ret (option rawHelloInfo) None = Ret r /\ (forall x', r = Some x' -> info_ok x')) by (by eexists).
  case_decide; [|case_decide; [|by apply Hsome]].
  - case_decide; [done|]. destruct (word_ok data 0 Hd) as (l & -> & Hl); [lia|]. cbn [go_bind]. unfold is_u in Hl.
    case_decide as Hx; [done|]. rewrite from_ok by lia. cbn [go_bind].
    destruct (read_curves_ok (Z.to_nat (l / 2)) (drop 2 data)) as (cs & -> & Hcs).
    { by apply Forall_drop. } { rewrite length_drop. pose proof (Z.div_mod l 2). pose proof (Z.mod_pos_bound l 2). lia. }
    cbn [go_bind]. by apply Hsome.
  - case_decide; [done|]. destruct (at_ok data 0) as (l & -> & _); [lia|]. cbn [go_bind].
    case_decide; [done|]. rewrite from_ok by lia. cbn [go_bind]. apply Hsome. split_and!; try done.
    cbn. apply Forall_take, Forall_app. split; [by apply Forall_drop|]. apply Forall_forall. intros x Hx.
    apply list_elem_of_In, repeat_spec in Hx. subst. unfold is_byte. lia.
Qed.

Lemma read_extensions_ok fuel data info :
  (length data < fuel)%nat -> Forall is_byte data -> info_ok info ->
  exists info', read_extensions fuel data info = Ret (Some info') /\ info_ok info'.
Proof.
  revert data info. induction fuel as [|fuel IH]; intros data info Hf Hd Hi; [lia|]. cbn [read_extensions].
  case_decide; [by eexists|]. case_decide; [by eexists|].
  destruct (word_ok data 0 Hd) as (e & -> & He); [lia|]. cbn [go_bind].
  destruct (word_ok data 2 Hd) as (n & -> & Hn); [lia|]. cbn [go_bind]. unfold is_u in Hn.
  rewrite from_ok by lia. cbn [go_bind]. case_decide as Hlen; [by eexists|]. rewrite length_drop in Hlen.
  assert (Hi' : info_ok (add_Extension e info)).
  { destruct Hi as (Hv & Hs & Hx & Hm & Hc & Hp). split_and!; try done. apply Forall_app. by split; [|constructor]. }
  destruct (read_extension_ok e (Z.to_nat n) (drop 4 data) _ ltac:(by apply Forall_drop) ltac:(rewrite length_drop; lia) Hi')
    as ([info'|] & -> & Hr); cbn [go_bind]; [|by eexists].
  rewrite from_ok by (rewrite length_drop; lia). cbn [go_bind].
  apply IH; [rewrite !length_drop; lia | by repeat apply Forall_drop | by apply Hr].
Qed.

(** C6.  Whatever the bytes of a ClientHello are, its parser stays within them
    and ends with a result, the fields of which have the values of their types. *)
Theorem parser_stays_in_bounds data :
  Forall is_byte data -> exists info, parseRawClientHello data = Ret (Some info) /\ info_ok info.
Proof.
  intros Hd. unfold parseRawClientHello. assert (H0 : info_ok no_info) by (unfold info_ok, is_u; cbn; split_and!; (lia || constructor)).
  case_decide; [by eexists|]. destruct (word_ok data 4 Hd) as (v & -> & Hv); [lia|]. cbn [go_bind].
  assert (Hi1 : info_ok (set_Version v no_info)) by (by split_and!; try apply H0).
  destruct (at_ok data 38) as (sl & -> & Lsl); [lia|]. cbn [go_bind]. pose proof (Forall_lookup_1 _ _ _ _ Hd Lsl) as Bsl.
  unfold is_byte in Bsl. case_decide; [by eexists|]. rewrite from_ok by lia. cbn [go_bind].
  apply (Forall_drop _ (39 + Z.to_nat sl)) in Hd. set (d1 := drop (39 + Z.to_nat sl) data) in *. clearbody d1.
  case_decide; [by eexists|]. destruct (word_ok d1 0 Hd) as (cl & -> & Hcl); [lia|]. cbn [go_bind]. unfold is_u in Hcl.
  case_decide; [by eexists|].
  destruct (read_suites_ok d1 (Z.to_nat (cl / 2)) 0 Hd) as (cs & -> & Hcs);
    [pose proof (Z.div_mod cl 2); pose proof (Z.mod_pos_bound cl 2); lia|]. cbn [go_bind].
  assert (Hi2 : info_ok (set_CipherSuites cs (set_Version v no_info))) by (by split_and!; try apply H0).
  rewrite from_ok by lia. cbn [go_bind]. apply (Forall_drop _ (2 + Z.to_nat cl)) in Hd.
  set (d2 := drop (2 + Z.to_nat cl) d1) in *. clearbody d2. case_decide; [by eexists|].
  destruct (at_ok d2 0) as (ml & -> & Lml); [lia|]. cbn [go_bind]. pose proof (Forall_lookup_1 _ _ _ _ Hd Lml) as Bml.
  unfold is_byte in Bml. case_decide; [by eexists|]. unfold upto. rewrite decide_True by lia. cbn [go_bind].
  set (ms := take _ (drop 1 d2)). assert (Hms : Forall is_byte ms) by (by apply Forall_take, Forall_drop). clearbody ms.
  assert (Hi3 : info_ok (set_Compression ms (set_CipherSuites cs (set_Version v no_info)))) by (by split_and!; try apply H0).
  rewrite from_ok by lia. cbn [go_bind]. apply (Forall_drop _ (1 + Z.to_nat ml)) in Hd.
  set (d3 := drop (1 + Z.to_nat ml) d2) in *. clearbody d3. case_decide; [by eexists|].
  destruct (word_ok d3 0 Hd) as (el & -> & Hel); [lia|]. cbn [go_bind]. rewrite from_ok by lia. cbn [go_bind].
  case_decide; [by eexists|]. apply read_extensions_ok; [lia | by apply Forall_drop | done].
Qed.

(** ** The encoding of a ClientHello (RFC 5246, section 7.4.1.2) *)

Definition put16 (v : Z) : list Z := [v / 256; v `mod` 256].

Inductive ext := ECurves (cs : list Z) | EPoints (ps : list Z) | EOther (t : Z) (payload : list Z).

Definition ext_type (e : ext) : Z :=
  match e with ECurves _ => extensionSupportedCurves | EPoints _ => extensionSupportedPoints | EOther t _ => t end.

Definition put16s (l : list Z) : list Z := concat (put16 <$> l).

Definition ext_payload (e : ext) : list Z :=
  match e with
  | ECurves cs => put16 (2 * Z.of_nat (length cs)) ++ put16s cs
  | EPoints ps => Z.of_nat (length ps) :: ps
  | EOther _ payload => payload
  end.

Definition ext_bytes (e : ext) : list Z := (put16 (ext_type e) ++ put16 (Z.of_nat (length (ext_payload e))) ++ ext_payload e)%list.

Definition ext_ok (e : ext) : Prop :=
  Z.of_nat (length (ext_payload e)) < 2 ^ 16 /\
  match e with
  | ECurves cs => Forall (is_u 16) cs
  | EPoints ps => Forall is_byte ps /\ (length ps < 256)%nat
  | EOther t payload => is_u 16 t /\ t <> extensionSupportedCurves /\ t <> extensionSupportedPoints /\ Forall is_byte payload
  end.

Record hello := mkHello {
  h_head : list Z; h_version : Z; h_random : list Z; h_session : list Z; h_suites : list Z; h_methods : list Z; h_exts : option (list ext)
}.

Definition exts_bytes (exts : list ext) : list Z := concat (ext_bytes <$> exts).

Definition encode (h : hello) : list Z :=
  (h_head h ++ put16 (h_version h) ++ h_random h ++ Z.of_nat (length (h_session h)) :: h_session h ++
   put16 (2 * Z.of_nat (length (h_suites h))) ++ put16s (h_suites h) ++
   Z.of_nat (length (h_methods h)) :: h_methods h ++
   match h_exts h with None => [] | Some exts => put16 (Z.of_nat (length (exts_bytes exts))) ++ exts_bytes exts end)%list.

Definition hello_ok (h : hello) : Prop :=
  length (h_head h) = 4%nat /\ length (h_random h) = 32%nat /\ (length (h_session h) <= 32)%nat /\
  is_u 16 (h_version h) /\ Forall (is_u 16) (h_suites h) /\ 2 * Z.of_nat (length (h_suites h)) < 2 ^ 16 /\
  (length (h_methods h) < 256)%nat /\
  match h_exts h with
  | None => True
  | Some exts => Forall ext_ok exts /\ Z.of_nat (length (exts_bytes exts)) < 2 ^ 16
  end.

(** What the parser takes from the extensions *)
Definition add_ext (info : rawHelloInfo) (e : ext) : rawHelloInfo :=
  let info := add_Extension (ext_type e) info in
  match e with ECurves cs => set_Curves cs info | EPoints ps => set_Points ps info | EOther _ _ => info end.

Definition info_of (h : hello) : rawHelloInfo :=
  fold_left add_ext (default [] (h_exts h)) (mkInfo (h_version h) (h_suites h) [] (h_methods h) [] []).

Lemma word_put p v r i : i = length p -> is_u 16 v -> word (p ++ put16 v ++ r) i = Ret v.
Proof.
  intros -> Hv. unfold word, at_, is_u in *. rewrite lookup_app_r, Nat.sub_diag by lia. cbn [lookup list_lookup put16 app go_bind].
  rewrite lookup_app_r by lia. replace (S (length p) - length p)%nat with 1%nat by lia. cbn [lookup list_lookup go_bind].
  pose proof (Z.div_mod v 256). pose proof (Z.mod_pos_bound v 256). rewrite lor_bytes; unfold is_byte; [f_equal|..]; lia.
Qed.

Lemma at_put {A} (p : list A) x r i : i = length p -> at_ (p ++ x :: r) i = Ret x.
Proof. intros ->. unfold at_. by rewrite list_lookup_middle. Qed.

Lemma from_put {A} (p r : list A) n : n = length p -> from_ (p ++ r) n = Ret r.
Proof. intros ->. rewrite from_ok by (rewrite length_app; lia). by rewrite drop_app_length. Qed.

Lemma upto_put {A} (x : A) l r : upto (x :: l ++ r) 1 (1 + length l) = Ret l.
Proof.
  unfold upto. rewrite decide_True by (cbn [length]; rewrite length_app; lia). change (drop 1 (x :: l ++ r)) with (l ++ r)%list.
  replace (1 + length l - 1)%nat with (length l) by lia. by rewrite take_app_length.
Qed.

Lemma length_put16s l : length (put16s l) = (2 * length l)%nat.
Proof. induction l as [|x l IH]; [done|]. unfold put16s in *. cbn. rewrite IH. lia. Qed.

Lemma read_suites_put p cs r i :
  length p = (2 + 2 * i)%nat -> Forall (is_u 16) cs -> read_suites (p ++ put16s cs ++ r) (length cs) i = Ret cs.
Proof.
  intros Hp Hcs. revert p i Hp. induction Hcs as [|c cs Hc _ IH]; intros p i Hp; [done|]. cbn [read_suites length].
  change (put16s (c :: cs)) with (put16 c ++ put16s cs)%list. rewrite <- app_assoc, word_put by done. cbn [go_bind].
  rewrite (app_assoc p), IH; [done|]. rewrite length_app. cbn [length put16]. lia.
Qed.

Lemma read_curves_put cs r : Forall (is_u 16) cs -> read_curves (length cs) (put16s cs ++ r) = Ret cs.
Proof.
  intros Hcs. induction Hcs as [|c cs Hc _ IH]; [done|]. cbn [read_curves length].
  change (put16s (c :: cs)) with (put16 c ++ put16s cs)%list. rewrite <- app_assoc.
  pose proof (word_put [] c (put16s cs ++ r) 0 eq_refl Hc) as Hw. cbn [app] in Hw. rewrite Hw. cbn [go_bind].
  rewrite from_put by done. cbn [go_bind]. by rewrite IH.
Qed.

Lemma read_extension_put e r info :
  ext_ok e -> read_extension (ext_type e) (length (ext_payload e)) (ext_payload e ++ r) info =
    Ret (Some (match e with ECurves cs => set_Curves cs info | EPoints ps => set_Points ps info | EOther _ _ => info end)).
Proof.
  intros [Hlen He]. unfold read_extension. destruct e as [cs|ps|t payload]; cbn [ext_type ext_payload] in *.
  - rewrite decide_True by done. rewrite length_app, length_put16s in *. cbn [length put16] in *.
    rewrite decide_False by lia. rewrite <- app_assoc. pose proof (word_put [] (2 * Z.of_nat (length cs)) (put16s cs ++ r) 0 eq_refl) as Hw.
    cbn [app] in Hw. rewrite Hw by (unfold is_u; lia). cbn [go_bind].
    rewrite decide_False by (rewrite Z.mul_comm, Z.mod_mul by lia; lia). rewrite from_put by done. cbn [go_bind].
    rewrite Z.mul_comm, Z.div_mul, Nat2Z.id by lia. by rewrite read_curves_put.
  - destruct He as [Hb Hl]. rewrite decide_False by done. rewrite decide_True by done. cbn [length] in *.
    rewrite decide_False by lia. cbn [app]. pose proof (at_put [] (Z.of_nat (length ps)) (ps ++ r) 0 eq_refl) as Ha.
    cbn [app] in Ha. rewrite Ha. cbn [go_bind]. rewrite decide_False by lia.
    pose proof (from_put [Z.of_nat (length ps)] (ps ++ r) 1 eq_refl) as Hf. cbn [app] in Hf. rewrite Hf. cbn [go_bind].
    by rewrite Nat2Z.id, <- app_assoc, take_app_length.
  - destruct He as (_ & H1 & H2 & _). by rewrite decide_False, decide_False.
Qed.

Lemma read_extensions_put fuel exts info :
  (length (exts_bytes exts) < fuel)%nat -> Forall ext_ok exts ->
  read_extensions fuel (exts_bytes exts) info = Ret (Some (fold_left add_ext exts info)).
Proof.
  intros Hf Hok. revert fuel info Hf. induction Hok as [|e exts He _ IH]; intros [|fuel] info Hf; [cbn in Hf; lia | done | cbn in Hf; lia |].
  change (exts_bytes (e :: exts)) with (ext_bytes e ++ exts_bytes exts)%list in *. rewrite length_app in Hf.
  assert (Hlen : (4 <= length (ext_bytes e))%nat) by (unfold ext_bytes; rewrite !length_app; cbn; lia).
  cbn [read_extensions]. rewrite length_app, !decide_False by lia. unfold ext_bytes in *. rewrite <- !app_assoc.
  destruct He as [Hl He]. assert (Ht : is_u 16 (ext_type e)).
  { destruct e; cbn [ext_type]; [done..|]. by destruct He as [? _]. }
  pose proof (word_put [] (ext_type e) (put16 (Z.of_nat (length (ext_payload e))) ++ ext_payload e ++ exts_bytes exts) 0 eq_refl Ht) as Hw.
  cbn [app] in Hw. rewrite Hw. cbn [go_bind]. rewrite (word_put (put16 (ext_type e))) by (done || (unfold is_u; lia)). cbn [go_bind].
  rewrite app_assoc, from_put by done. cbn [go_bind]. rewrite decide_False by (rewrite length_app; lia).
  rewrite Nat2Z.id, read_extension_put by done. cbn [go_bind]. rewrite from_put by done. cbn [go_bind].
  rewrite IH by (rewrite !length_app in Hf; cbn in Hf; lia). by destruct e.
Qed.

Lemma read_back h : hello_ok h -> parseRawClientHello (encode h) = Ret (Some (info_of h)).
Proof.
  intros (Hhd & Hrn & Hse & Hv & Hcs & Hcl & Hm & Hex). unfold parseRawClientHello, encode.
  set (tl := match h_exts h with None => [] | Some exts => _ end). set (d2 := Z.of_nat (length (h_methods h)) :: h_methods h ++ tl).
  set (d1 := (put16 (2 * Z.of_nat (length (h_suites h))) ++ put16s (h_suites h) ++ d2)%list).
  set (p := (h_head h ++ put16 (h_version h) ++ h_random h)%list).
  set (data := (h_head h ++ put16 (h_version h) ++ h_random h ++ Z.of_nat (length (h_session h)) :: h_session h ++ d1)%list).
  assert (Hp : length p = 38%nat) by (unfold p; rewrite !length_app, Hhd, Hrn; done).
  assert (Hdata : data = (p ++ Z.of_nat (length (h_session h)) :: h_session h ++ d1)%list) by (unfold p; by rewrite <- !app_assoc).
  assert (H2 : length d2 = (1 + length (h_methods h) + length tl)%nat) by (unfold d2; cbn [length]; rewrite length_app; lia).
  assert (H1 : length d1 = (2 + 2 * length (h_suites h) + length d2)%nat) by (unfold d1; rewrite !length_app, length_put16s; cbn [length put16]; lia).
  assert (Hl : length data = (39 + length (h_session h) + length d1)%nat) by (rewrite Hdata, length_app; cbn [length]; rewrite length_app; lia).
  rewrite decide_False by lia. unfold data at 1. rewrite word_put by done. cbn [go_bind]. rewrite Hdata at 1. rewrite at_put by done.
  cbn [go_bind]. rewrite decide_False by lia. rewrite Hdata. rewrite app_comm_cons, app_assoc.
  rewrite from_put by (rewrite length_app; cbn [length put16]; lia). cbn [go_bind]. rewrite decide_False by lia. unfold d1 at 1.
  pose proof (word_put [] (2 * Z.of_nat (length (h_suites h))) (put16s (h_suites h) ++ d2) 0 eq_refl) as Hw. cbn [app] in Hw.
  rewrite Hw by (unfold is_u; lia). cbn [go_bind].
  rewrite decide_False by (rewrite Z.mul_comm, Z.mod_mul by lia; lia). rewrite Z.mul_comm, Z.div_mul, Nat2Z.id by lia. unfold d1 at 1.
  rewrite read_suites_put by done. cbn [go_bind]. unfold d1. rewrite app_assoc, from_put by (rewrite length_app, length_put16s; cbn [length put16]; lia).
  cbn [go_bind]. rewrite decide_False by lia. unfold d2 at 1.
  pose proof (at_put [] (Z.of_nat (length (h_methods h))) (h_methods h ++ tl) 0 eq_refl) as Ha. cbn [app] in Ha. rewrite Ha. cbn [go_bind].
  rewrite decide_False by lia. rewrite Nat2Z.id. unfold d2. rewrite upto_put. cbn [go_bind]. rewrite app_comm_cons, from_put by done. cbn [go_bind]. unfold info_of. destruct (h_exts h) as [exts|]; [|done].
  destruct Hex as [Hexts Hel]. unfold tl. rewrite decide_False by (rewrite length_app; cbn [length put16]; lia).
  pose proof (word_put [] (Z.of_nat (length (exts_bytes exts))) (exts_bytes exts) 0 eq_refl) as He. cbn [app] in He.
  rewrite He by (unfold is_u; lia). cbn [go_bind]. rewrite from_put by done. cbn [go_bind]. rewrite decide_False by tauto.
  by rewrite read_extensions_put by (done || lia).
Qed.

Lemma add_exts_fields exts info :
  let info' := fold_left add_ext exts info in
  Version info' = Version info /\ CipherSuites info' = CipherSuites info /\ CompressionMethods info' = CompressionMethods info /\
  Extensions info' = (Extensions info ++ (ext_type <$> exts))%list /\
  ((forall cs, ECurves cs ∉ exts) -> Curves info' = Curves info) /\ ((forall ps, EPoints ps ∉ exts) -> Points info' = Points info).
Proof.
  revert info. induction exts as [|e exts IH]; intros info; cbn [fold_left]; cbv zeta; [by rewrite app_nil_r|].
  destruct (IH (add_ext info e)) as (-> & -> & -> & -> & Hc & Hp).
  split_and!; try (by destruct e); [destruct e; cbn; by rewrite <- app_assoc|..].
  - intros Hn. rewrite Hc by (intros cs Hx; apply (Hn cs), elem_of_cons; by right). destruct e; try done.
    edestruct Hn. apply elem_of_cons. by left.
  - intros Hn. rewrite Hp by (intros cs Hx; apply (Hn cs), elem_of_cons; by right). destruct e; try done.
    edestruct Hn. apply elem_of_cons. by left.
Qed.

(** A ClientHello that a client encodes is read back: the parser finds its
    version, its cipher suites, its compression methods, the numbers of its
    extensions in their order, and the curves and the point formats of the last
    extensions that hold them. *)
Theorem hello_is_read_back h :
  hello_ok h ->
  exists info, parseRawClientHello (encode h) = Ret (Some info) /\
    Version info = h_version h /\ CipherSuites info = h_suites h /\ CompressionMethods info = h_methods h /\
    Extensions info = ext_type <$> default [] (h_exts h) /\
    (forall l1 cs l2, h_exts h = Some (l1 ++ ECurves cs :: l2)%list -> (forall cs', ECurves cs' ∉ l2) -> Curves info = cs) /\
    (forall l1 ps l2, h_exts h = Some (l1 ++ EPoints ps :: l2)%list -> (forall ps', EPoints ps' ∉ l2) -> Points info = ps).
Proof.
  intros Hok. exists (info_of h). split; [by apply read_back|]. unfold info_of.
  destruct (add_exts_fields (default [] (h_exts h)) (mkInfo (h_version h) (h_suites h) [] (h_methods h) [] [])) as (-> & -> & -> & -> & _).
  split_and!; [done..| |].
  - intros l1 cs l2 -> Hn. cbn [default from_option id]. rewrite fold_left_app. cbn [fold_left].
    by destruct (add_exts_fields l2 (add_ext (fold_left add_ext l1 (mkInfo (h_version h) (h_suites h) [] (h_methods h) [] [])) (ECurves cs)))
      as (_ & _ & _ & _ & -> & _).
  - intros l1 ps l2 -> Hn. cbn [default from_option id]. rewrite fold_left_app. cbn [fold_left].
    by destruct (add_exts_fields l2 (add_ext (fold_left add_ext l1 (mkInfo (h_version h) (h_suites h) [] (h_methods h) [] [])) (EPoints ps)))
      as (_ & _ & _ & _ & _ & ->).
Qed.

(** ** Orders and fingerprints *)

(** A list without repetitions of neighbours *)
Fixpoint squeeze (l : list Z) : list Z :=
  match l with
  | x :: (y :: _) as l' => if decide (x = y) then squeeze l' else x :: squeeze l'
  | _ => l
  end.

Lemma seek_spec item l :
  match seek item l with
  | Some r => exists p t, l = (p ++ item :: t)%list /\ r = item :: t /\ item ∉ p
  | None => item ∉ l
  end.
Proof.
  induction l as [|x l IH]; cbn [seek]; [by apply not_elem_of_nil|]. case_decide as Hx.
  - subst. exists [], l. split_and!; [done..|by apply not_elem_of_nil].
  - destruct (seek item l) as [r|].
    + destruct IH as (p & t & -> & -> & Hn). exists (x :: p), t. split_and!; [done..|]. apply not_elem_of_cons. by split.
    + apply not_elem_of_cons. by split.
Qed.

Lemma sublist_first (x : Z) l p t : x ∉ p -> x :: l `sublist_of` (p ++ x :: t)%list <-> l `sublist_of` t.
Proof.
  intros Hn. split.
  - induction p as [|y p IH]; cbn [app]; rewrite sublist_cons_r.
    + intros [(k1 & k2 & -> & Hk)%sublist_cons_l|(l' & [= ->] & Hl)]; [|done]. by apply sublist_inserts_l, sublist_cons.
    + apply not_elem_of_cons in Hn as [Hy Hn]. intros [Hs|(l' & [= -> _] & _)]; [by apply IH | done].
  - intros Hs. by apply sublist_inserts_l, sublist_skip.
Qed.

Lemma squeeze_cons x l : exists t, squeeze (x :: l) = x :: t.
Proof.
  revert x. induction l as [|y l IH]; intros x; [by exists []|]. cbn [squeeze]. case_decide; [|by eexists].
  subst. apply IH.
Qed.

Lemma ordered_spec sub sup : ordered sub sup = true <-> squeeze sub `sublist_of` sup.
Proof.
  revert sup. induction sub as [|x sub IH]; intros sup; cbn [ordered]; [split; [intros _; apply sublist_nil_l | done]|].
  pose proof (seek_spec x sup) as Hs. destruct (seek x sup) as [r|].
  - destruct Hs as (p & t & -> & -> & Hn). rewrite IH. destruct sub as [|y sub].
    + split; intros _; [|apply sublist_nil_l]. apply (proj2 (sublist_first x [] p t Hn)), sublist_nil_l.
    + destruct (squeeze_cons y sub) as [q Hq]. cbn [squeeze] in *. fold (squeeze (y :: sub)) in *. case_decide as Hxy.
      * subst y. rewrite Hq, sublist_first by done.
        apply (sublist_first x q [] t), not_elem_of_nil.
      * rewrite sublist_first by done. rewrite sublist_cons_r, Hq. split; [|by left]. intros [?|(? & [= ? _] & _)]; congruence.
  - split; [done|]. intros Hsub. destruct (squeeze_cons x sub) as [q Hq]. rewrite Hq in Hsub.
    apply sublist_cons_l in Hsub as (k1 & k2 & -> & _). destruct Hs. apply elem_of_app. right. apply elem_of_cons. by left.
Qed.

Inductive browser := Edge | Chrome | CriOS | Firefox | Tor | Safari.

Definition no_grease (info : rawHelloInfo) : Prop := forall c, c ∈ CipherSuites info -> c ∉ greaseCiphers.

Definition like_chrome (info : rawHelloInfo) : Prop :=
  (forall c, c ∈ CipherSuites info -> c ∉ chromeCipherExclusions) /\ 25 ∉ Curves info /\ ~ no_grease info.

Definition like_safari (info : rawHelloInfo) : Prop :=
  ((safariExtensions `sublist_of` Extensions info /\ head (CipherSuites info) = Some scsvRenegotiation) \/
   (~ safariExtensions `sublist_of` Extensions info /\ safariExtensionsiOS11 `sublist_of` Extensions info)) /\
  no_grease info /\ safariSuites `sublist_of` CipherSuites info.

(** What a handshake of a browser looks like *)
Definition fingerprint (b : browser) (info : rawHelloInfo) : Prop :=
  match b with
  | Edge =>
      (forall i, Extensions info !! i = Some extensionOCSPStatusRequest ->
         Extensions info !! (i + 1)%nat = Some extensionSupportedCurves /\ Extensions info !! (i + 2)%nat = Some extensionSupportedPoints) /\
      (forall c, c ∈ CipherSuites info -> c ∉ edgeExclusions) /\ no_grease info
  | Chrome => like_chrome info
  | CriOS => like_chrome info \/ like_safari info
  | Firefox =>
      firefoxExtensions `sublist_of` Extensions info /\
      (Curves info = [29; 23; 24; 25] \/ [29; 23; 24; 25; 256; 257] `prefix_of` Curves info) /\
      no_grease info /\ squeeze (CipherSuites info) `sublist_of` firefoxSuites
  | Tor =>
      [10; 11; 16; 5; 13] `sublist_of` Extensions info /\ 35 ∉ Extensions info /\
      (Curves info = [29; 23; 24; 25] \/ (length (Curves info) <> 4%nat /\ [23; 24; 25] `prefix_of` Curves info)) /\
      no_grease info /\ squeeze (CipherSuites info) `sublist_of` firefoxSuites
  | Safari => like_safari info
  end.

Lemma existsb_bool_decide (P : Z -> Prop) `{forall x, Decision (P x)} l :
  existsb (fun x => bool_decide (P x)) l = false <-> (forall x, x ∈ l -> ~ P x).
Proof.
  induction l as [|y l IH]; cbn [existsb]; [split; [intros _ ? ?%not_elem_of_nil; done | done]|].
  rewrite orb_false_iff, IH, bool_decide_eq_false. split.
  - intros [Hy Hl] x [->|Hx]%elem_of_cons; auto.
  - intros Ha. split; [apply Ha | intros x Hx; apply Ha]; apply elem_of_cons; auto.
Qed.

Lemma grease_spec info : hasGreaseCiphers (CipherSuites info) = false <-> no_grease info.
Proof. apply (existsb_bool_decide (fun c => c ∈ greaseCiphers)). Qed.

Lemma curves_match_spec required curves i :
  (i + length required <= length curves)%nat ->
  curves_match required curves i = Ret (bool_decide (required `prefix_of` drop i curves)).
Proof.
  revert i. induction required as [|c required IH]; intros i Hi; cbn [curves_match].
  { rewrite bool_decide_true; [done | apply prefix_nil]. }
  cbn [length] in Hi. destruct (at_ok curves i) as (x & -> & Lx); [lia|]. cbn [go_bind].
  assert (Hd : drop i curves = x :: drop (S i) curves) by (by apply drop_S). rewrite Hd. case_decide as Hx.
  - rewrite bool_decide_false; [done|]. intros [k Hk]. cbn in Hk. congruence.
  - subst x. rewrite IH by lia. f_equal. apply bool_decide_ext. split.
    + apply prefix_cons.
    + intros [k Hk]. cbn in Hk. injection Hk as Hk. by exists k.
Qed.

Lemma prefix_exact (l k : list Z) : l `prefix_of` k -> length k = length l -> k = l.
Proof. intros [m ->] Hl. rewrite length_app in Hl. destruct m; [by rewrite app_nil_r | cbn in Hl; lia]. Qed.

Lemma firefox_spec info :
  Curves info <> [29; 23; 24; 25; 256] -> exists b, looksLikeFirefox info = Ret b /\ (b = true <-> fingerprint Firefox info).
Proof.
  intros Hfive. unfold looksLikeFirefox, fingerprint, assertPresenceAndOrdering.
  destruct (ordered firefoxExtensions (Extensions info)) eqn:Ho; cbn [negb].
  2:{ eexists. split; [done|]. split; [done|]. intros [He _]. by rewrite (proj2 (ordered_spec firefoxExtensions _) He) in Ho. }
  apply (ordered_spec firefoxExtensions) in Ho. change (length [29; 23; 24; 25]) with 4%nat. case_decide as H4.
  { eexists. split; [done|]. split; [done|]. intros (_ & [Hc|[k Hc]] & _); rewrite Hc in H4; cbn in H4; lia. }
  rewrite curves_match_spec by (cbn; lia). rewrite drop_0. cbn [go_bind]. case_bool_decide as Hpre; cbn [negb].
  2:{ eexists. split; [done|]. split; [done|]. intros (_ & [Hc|[k Hc]] & _); destruct Hpre; rewrite Hc; [done|].
      by exists ([256; 257] ++ k)%list. }
  assert (Hmore : exists b, (if decide (4 < length (Curves info))%nat then curves_match [256; 257] (Curves info) 4 else Ret true) = Ret b /\
    (b = true <-> Curves info = [29; 23; 24; 25] \/ [29; 23; 24; 25; 256; 257] `prefix_of` Curves info)).
  { destruct Hpre as [k Hk]. rewrite Hk in *. destruct k as [|c [|d k]].
    - cbn. eexists. split; [done|]. split; [by left | done].
    - cbn. destruct (decide (c = 256)) as [->|Hc]; [done|]. eexists. split; [by rewrite !decide_True by (done || lia)|].
      split; [done|]. intros [?|[k Hx]]; cbn in *; congruence.
    - rewrite decide_True, curves_match_spec by (cbn; lia). eexists. split; [done|]. cbn.
      rewrite bool_decide_eq_true. split.
      + intros [k' [= -> -> ->]]. right. by exists k'.
      + intros [?|[k' [= -> -> ->]]]; [congruence|]. by exists k'. }
  destruct Hmore as (b & -> & Hb). cbn [go_bind]. destruct b; cbn [negb].
  2:{ eexists. split; [done|]. split; [done|]. intros (_ & Hc & _). by apply Hb. }
  pose proof (grease_spec info) as Hg. destruct (hasGreaseCiphers (CipherSuites info)).
  { eexists. split; [done|]. split; [done|]. intros (_ & _ & Hng & _). by apply Hg in Hng. }
  eexists. split; [done|]. rewrite ordered_spec. tauto.
Qed.

Lemma tor_spec info : exists b, looksLikeTor info = Ret b /\ (b = true <-> fingerprint Tor info).
Proof.
  unfold looksLikeTor, fingerprint, assertPresenceAndOrdering.
  destruct (ordered [10; 11; 16; 5; 13] (Extensions info)) eqn:Ho; cbn [negb].
  2:{ eexists. split; [done|]. split; [done|]. intros [He _]. by rewrite (proj2 (ordered_spec [10; 11; 16; 5; 13] _) He) in Ho. }
  apply (ordered_spec [10; 11; 16; 5; 13]) in Ho. pose proof (existsb_bool_decide (fun e => e = 35) (Extensions info)) as Ht.
  destruct (existsb _ (Extensions info)).
  { eexists. split; [done|]. split; [done|]. intros (_ & Hn & _). enough (true = false) by done. apply Ht. by intros x Hx ->. }
  assert (H35 : 35 ∉ Extensions info) by (intros Hx; by apply (proj1 Ht eq_refl 35 Hx)).
  assert (Hcurves : exists oc, (if decide (length (Curves info) = 4)%nat then
      c <-! at_ (Curves info) 0 ;; if decide (c <> 29) then Ret None else d <-! from_ (Curves info) 1 ;; Ret (Some d)
      else Ret (Some (Curves info))) = Ret oc /\
    ((exists cs, oc = Some cs /\ [23; 24; 25] `prefix_of` cs) <->
     Curves info = [29; 23; 24; 25] \/ (length (Curves info) <> 4%nat /\ [23; 24; 25] `prefix_of` Curves info))).
  { case_decide as H4; [|eexists; split; [done|]; split; [intros (cs & [= <-] & Hp); by right |]].
    2:{ intros [Hc|[_ Hp]]; [by rewrite Hc in H4 | by eexists]. }
    destruct (Curves info) as [|c cs]; [done|]. unfold at_. cbn [lookup list_lookup go_bind]. case_decide as Hc.
    - eexists. split; [done|]. split; [by intros (? & ? & _)|]. intros [[= ? _]|[? _]]; done.
    - subst c. unfold from_. cbn [length] in *. rewrite decide_True by lia. cbn [go_bind drop]. rewrite drop_0.
      eexists. split; [done|]. split.
      + intros (? & [= <-] & Hp). left. f_equal. apply (prefix_exact _ _ Hp). cbn. lia.
      + intros [[= ->]|[? _]]; [by eexists | done]. }
  destruct Hcurves as (oc & -> & Hc). cbn [go_bind]. destruct oc as [cs|].
  2:{ eexists. split; [done|]. split; [done|]. intros (_ & _ & Hx & _). by apply Hc in Hx as (? & ? & _). }
  case_decide as H3.
  { eexists. split; [done|]. split; [done|]. intros (_ & _ & Hx & _). apply Hc in Hx as (? & [= <-] & [k ->]). cbn in H3. lia. }
  rewrite curves_match_spec by (cbn; lia). rewrite drop_0. cbn [go_bind]. case_bool_decide as Hp; cbn [negb].
  2:{ eexists. split; [done|]. split; [done|]. intros (_ & _ & Hx & _). apply Hc in Hx as (? & [= <-] & ?). done. }
  pose proof (grease_spec info) as Hg. destruct (hasGreaseCiphers (CipherSuites info)).
  { eexists. split; [done|]. split; [done|]. intros (_ & _ & _ & Hng & _). by apply Hg in Hng. }
  eexists. split; [done|]. rewrite ordered_spec. split; [|tauto]. intros Hs. split_and!; try done; [by apply Hc; eexists | by apply Hg].
Qed.

Lemma edge_extensions_spec all l i :
  l = drop i all ->
  exists b, edge_extensions all l i = Ret b /\
    (b = true <-> forall k, (i <= k)%nat -> all !! k = Some extensionOCSPStatusRequest ->
       all !! (k + 1)%nat = Some extensionSupportedCurves /\ all !! (k + 2)%nat = Some extensionSupportedPoints).
Proof.
  revert i. induction l as [|ext l IH]; intros i Hl; cbn [edge_extensions].
  { eexists. split; [done|]. split; [|done]. intros _ k Hk Hlk. apply lookup_lt_Some in Hlk.
    apply (f_equal length) in Hl. rewrite length_drop in Hl. cbn in Hl. lia. }
  assert (Hi : all !! i = Some ext) by (by rewrite <- (Nat.add_0_r i), <- lookup_drop, <- Hl).
  destruct (IH (S i)) as (b & Hb & Hspec). { pose proof (drop_S all ext i Hi). congruence. }
  assert (Hhere : forall Q : nat -> Prop, (forall k, (i <= k)%nat -> Q k) <-> Q i /\ forall k, (S i <= k)%nat -> Q k).
  { intros Q. split; [intros Ha; split; [apply Ha | intros; apply Ha]; lia|]. intros [H0 Ha] k Hk.
    destruct (decide (k = i)) as [->|]; [done | apply Ha; lia]. }
  case_decide as He.
  - assert (Hno : ~ (all !! (i + 1)%nat = Some extensionSupportedCurves /\ all !! (i + 2)%nat = Some extensionSupportedPoints) ->
      exists b0, @Ret bool false = Ret b0 /\ (b0 = true <-> forall k, (i <= k)%nat -> all !! k = Some extensionOCSPStatusRequest ->
        all !! (k + 1)%nat = Some extensionSupportedCurves /\ all !! (k + 2)%nat = Some extensionSupportedPoints)).
    { intros Hn. eexists. split; [done|]. split; [done|]. intros Ha. destruct Hn. apply Ha; [lia | by rewrite Hi, He]. }
    case_decide; [apply Hno; intros [_ Hx%lookup_lt_Some]; lia|].
    destruct (at_ok all (i + 1)) as (x & -> & Lx); [lia|]. cbn [go_bind]. case_decide; [apply Hno; rewrite Lx; intros [[= ?] _]; done|].
    destruct (at_ok all (i + 2)) as (y & -> & Ly); [lia|]. cbn [go_bind]. case_decide; [apply Hno; rewrite Ly; intros [_ [= ?]]; done|].
    exists b. split; [done|]. rewrite Hhere, Hspec. subst. naive_solver.
  - exists b. split; [done|]. rewrite Hhere, Hspec, Hi. naive_solver.
Qed.

Lemma edge_spec info : exists b, looksLikeEdge info = Ret b /\ (b = true <-> fingerprint Edge info).
Proof.
  unfold looksLikeEdge, fingerprint. destruct (edge_extensions_spec (Extensions info) (Extensions info) 0 eq_refl) as (b & -> & Hb).
  cbn [go_bind]. destruct b; cbn [negb].
  2:{ eexists. split; [done|]. split; [done|]. intros [Hx _]. apply Hb. intros k _. apply Hx. }
  pose proof (existsb_bool_decide (fun c => c ∈ edgeExclusions) (CipherSuites info)) as He. destruct (existsb _ (CipherSuites info)).
  { eexists. split; [done|]. split; [done|]. intros (_ & Hx & _). by apply He in Hx. }
  eexists. split; [done|]. rewrite negb_true_iff, grease_spec. split; [|tauto]. intros Hg. split_and!; [|by apply He|done].
  intros i. by apply (proj1 Hb eq_refl); lia.
Qed.

Lemma chrome_spec info : looksLikeChrome info = true <-> fingerprint Chrome info.
Proof.
  unfold looksLikeChrome, fingerprint, like_chrome. rewrite <- grease_spec, not_false_iff_true.
  pose proof (existsb_bool_decide (fun c => c ∈ chromeCipherExclusions) (CipherSuites info)) as He. destruct (existsb _ (CipherSuites info)).
  { split; [done|]. intros (Hx & _). by apply He in Hx. }
  pose proof (existsb_bool_decide (fun c => c = 25) (Curves info)) as Hc. destruct (existsb _ (Curves info)).
  { split; [done|]. intros (_ & Hx & _). enough (true = false) by done. apply Hc. by intros x Hin ->. }
  split; [|tauto]. intros Hg. split_and!; [by apply He | | done]. intros Hx. by apply (proj1 Hc eq_refl 25 Hx).
Qed.

Lemma safari_spec info : looksLikeSafari info = true <-> fingerprint Safari info.
Proof.
  unfold looksLikeSafari, fingerprint, like_safari, assertPresenceAndOrdering. rewrite <- grease_spec.
  pose proof (ordered_spec safariExtensions (Extensions info)) as H1. pose proof (ordered_spec safariExtensionsiOS11 (Extensions info)) as H2.
  pose proof (ordered_spec safariSuites (CipherSuites info)) as H3.
  change (squeeze safariExtensions) with safariExtensions in H1. change (squeeze safariExtensionsiOS11) with safariExtensionsiOS11 in H2.
  change (squeeze safariSuites) with safariSuites in H3. rewrite <- H1, <- H2, <- H3. clear H1 H2 H3.
  destruct (ordered safariExtensions _), (ordered safariExtensionsiOS11 _), (hasGreaseCiphers _), (ordered safariSuites _), (CipherSuites info);
    cbn; try case_bool_decide; naive_solver.
Qed.

(** ** The verdict *)

Section Verdict.
Context {float : Type} (ParseFloat : string -> option float) (is_number : float -> Z -> bool) (minus_one : float).

(** The browser that the user agent names *)
Definition claimed (header : string -> string) : option browser :=
  let ua := header "User-Agent" in
  if StrContains ua "Edge" || StrContains ua "MSIE" || StrContains ua "Trident" then Some Edge
  else if StrContains ua "Chrome" then Some Chrome
  else if StrContains ua "CriOS" then Some CriOS
  else if StrContains ua "Firefox" then
    let ver := getVersion ParseFloat minus_one ua "Firefox" in
    Some (if StrContains ua "Windows" && (is_number ver 45 || is_number ver 52) then Tor else Firefox)
  else if StrContains ua "Safari" then Some Safari
  else None.

(** No header of a proxy, and no heartbeat *)
Definition direct (header : string -> string) (info : rawHelloInfo) : Prop :=
  header "X-BlueCoat-Via" = EmptyString /\ header "X-FCCKV2" = EmptyString /\ extensionHeartbeat ∉ Extensions info.

Definition genuine (header : string -> string) (info : rawHelloInfo) : Prop :=
  direct header info /\ exists b, claimed header = Some b /\ fingerprint b info.

Lemma direct_spec header info :
  negb (bool_decide (header "X-BlueCoat-Via" = EmptyString)) || negb (bool_decide (header "X-FCCKV2" = EmptyString))
    || advertisesHeartbeatSupport info = false <-> direct header info.
Proof.
  unfold direct, advertisesHeartbeatSupport. rewrite !orb_false_iff, !negb_false_iff, !bool_decide_eq_true.
  rewrite (existsb_bool_decide (fun e => e = extensionHeartbeat)). split.
  - intros [[H1 H2] H3]. split_and!; [done..|]. intros Hx. by apply (H3 _ Hx).
  - intros (H1 & H2 & H3). split_and!; [done..|]. by intros x Hx ->.
Qed.

Lemma assess_spec header info :
  Curves info <> [29; 23; 24; 25; 256] ->
  exists v, assess ParseFloat is_number minus_one header info = Ret v /\
    (v = Some false <-> genuine header info) /\ (v = None <-> direct header info /\ claimed header = None).
Proof.
  intros Hfive. unfold assess, genuine, claimed. pose proof (direct_spec header info) as Hd.
  destruct (_ || advertisesHeartbeatSupport info).
  { eexists. split; [done|]. split; (split; [done|]); intros [Hx _]; by apply Hd in Hx. }
  assert (Hdir : direct header info) by (by apply Hd). clear Hd.
  assert (Hpure : forall b (B : browser), (b = true <-> fingerprint B info) ->
    exists v, Ret (Some (negb b)) = Ret v /\ (v = Some false <-> direct header info /\ exists b, Some B = Some b /\ fingerprint b info) /\
      (v = None <-> direct header info /\ Some B = None)).
  { intros b B Hb. eexists. split; [done|]. split; [|split; [done | by intros [_ ?]]]. split.
    - intros [= Hn]. split; [done|]. exists B. split; [done|]. apply Hb. by destruct b.
    - intros [_ (B' & [= <-] & HB)]. f_equal. apply Hb in HB. by subst b. }
  destruct (_ || StrContains (header "User-Agent") "Trident").
  { destruct (edge_spec info) as (b & -> & Hb). by apply Hpure. }
  destruct (StrContains (header "User-Agent") "Chrome"); [apply Hpure, chrome_spec|].
  destruct (StrContains (header "User-Agent") "CriOS").
  { rewrite <- negb_orb. apply Hpure. rewrite orb_true_iff, chrome_spec, safari_spec. done. }
  destruct (StrContains (header "User-Agent") "Firefox").
  { destruct (StrContains (header "User-Agent") "Windows"); cbn [andb]; [case_match|].
    1: destruct (tor_spec info) as (b & -> & Hb). 2,3: destruct (firefox_spec info Hfive) as (b & -> & Hb). all: by apply Hpure. }
  destruct (StrContains (header "User-Agent") "Safari"); [apply Hpure, safari_spec|].
  eexists. split; [done|]. split; [|done]. split; [done|]. by intros [_ (? & ? & _)].
Qed.

Lemma Reads_short remote chunks c :
  readHello c = false -> (length (buf c ++ concat chunks) < 5)%nat ->
  Reads remote chunks c = mkConn false (buf c ++ concat chunks) (helloInfos c).
Proof.
  revert c. induction chunks as [|x chunks IH]; intros [rh b infos] Hr Hl; cbn in Hr; subst rh; cbn [Reads concat] in *.
  { by rewrite app_nil_r. }
  unfold Read. cbn [readHello buf helloInfos] in *. rewrite app_assoc in *. rewrite decide_True by (rewrite length_app in Hl; lia).
  rewrite IH by done. done.
Qed.

Lemma Reads_app remote l1 l2 c : Reads remote (l1 ++ l2) c = Reads remote l2 (Reads remote l1 c).
Proof. revert c. induction l1 as [|x l1 IH]; intros c; [done|]. cbn. apply IH. Qed.

Lemma record_is_parsed remote infos chunks final hd h rest :
  hello_ok h -> Z.of_nat (length (encode h)) < 2 ^ 16 -> length hd = 3%nat -> (length (concat chunks) < 5)%nat ->
  (concat chunks ++ final = hd ++ put16 (Z.of_nat (length (encode h))) ++ encode h ++ rest)%list ->
  Reads remote (chunks ++ [final]) (Accept infos) = mkConn true rest (<[remote := info_of h]> infos).
Proof.
  intros Hok Hlen Hhd Hshort Heq. rewrite Reads_app, (Reads_short remote chunks (Accept infos) eq_refl Hshort).
  cbn [Reads Accept buf helloInfos app]. unfold Read.
  cbn [readHello buf helloInfos]. rewrite Heq. rewrite decide_False by (rewrite !length_app; cbn; lia).
  set (n := put16 (Z.of_nat (length (encode h)))).
  assert (Ht : take 5 (hd ++ n ++ encode h ++ rest) = (hd ++ n ++ [])%list).
  { rewrite app_nil_r, app_assoc. replace 5%nat with (length (hd ++ n)); [apply take_app_length|]. rewrite length_app, Hhd. done. }
  assert (Hdr : drop 5 (hd ++ n ++ encode h ++ rest) = (encode h ++ rest)%list).
  { rewrite app_assoc. replace 5%nat with (length (hd ++ n)); [apply drop_app_length|]. rewrite length_app, Hhd. done. }
  rewrite Ht, Hdr. unfold n. rewrite word_put by (unfold is_u; lia). rewrite decide_False by (rewrite length_app; lia).
  by rewrite Nat2Z.id, take_app_length, drop_app_length, read_back.
Qed.

(** The verdict on a connection, from its first bytes on: when the record of
    the ClientHello is read with its last byte (the reads before it hold less
    than a header), the handler passes a request on as not intercepted exactly
    when no header and no extension is that of a proxy and the handshake is one
    of the browser that the user agent names, and it passes no verdict on
    exactly when the user agent names no browser. *)
Theorem verdict_compares_hello_and_user_agent remote infos chunks final hd h rest header closeOnMITM :
  hello_ok h -> Z.of_nat (length (encode h)) < 2 ^ 16 -> length hd = 3%nat -> (length (concat chunks) < 5)%nat ->
  (concat chunks ++ final = hd ++ put16 (Z.of_nat (length (encode h))) ++ encode h ++ rest)%list ->
  Curves (info_of h) <> [29; 23; 24; 25; 256] ->
  exists v,
    ServeHTTP ParseFloat is_number minus_one (Some (helloInfos (Reads remote (chunks ++ [final]) (Accept infos)))) closeOnMITM remote header =
      Ret (if bool_decide (v = Some true) && closeOnMITM then None else Some v) /\
    (v = Some false <-> genuine header (info_of h)) /\ (v = None <-> direct header (info_of h) /\ claimed header = None).
Proof.
  intros Hok Hlen Hhd Hshort Heq Hfive. rewrite (record_is_parsed _ _ _ _ hd h rest) by done. unfold ServeHTTP. cbn [helloInfos].
  rewrite lookup_insert, decide_True by done. cbn [default from_option id].
  destruct (assess_spec header (info_of h) Hfive) as (v & -> & Hv). exists v. split; [|done]. cbn [go_bind]. by case_match.
Qed.
End Verdict.

(** ** Concrete connections *)
Module MitmDemo.
(** Versions with one decimal, as numbers *)
Definition parse_float (s : string) : option Z :=
  match cut_at "." s with Some (a, b) => if decide (b = "0") then Some (Atoi a).1 else Some (-2) | None => Some (Atoi s).1 end.
Definition is_number (f z : Z) : bool := bool_decide (f = z).

Definition firefox : hello :=
  mkHello [1; 0; 0; 90] 0x0303 (repeat 7 32) [] [0x1301; 0xc02b; 0x35] [0]
    (Some [EOther 23 []; EOther 65281 [0]; ECurves [29; 23; 24; 25]; EPoints [0]; EOther 35 []; EOther 16 [0; 0]; EOther 5 [1]; EOther 13 [0; 2; 4; 3]]).

Definition header (ua h : string) : string := if decide (h = "User-Agent") then ua else EmptyString.
Definition record_of (h : hello) : list Z := ([22; 3; 1] ++ put16 (Z.of_nat (length (encode h))) ++ encode h)%list.
Definition serve := ServeHTTP parse_float is_number (-1).
Definition connection (chunks : list (list Z)) : option (gmap string rawHelloInfo) :=
  Some (helloInfos (Reads "192.0.2.1:4000" chunks (Accept ∅))).

Lemma firefox_ok : hello_ok firefox.
Proof.
  unfold hello_ok, is_u. cbn. split_and!; try lia; repeat constructor; cbn; unfold is_u, is_byte, extensionSupportedCurves, extensionSupportedPoints; try lia;
    repeat constructor; lia.
Qed.

Lemma parser_stays_in_bounds_witness :
  Forall is_byte (encode firefox) /\ exists info, parseRawClientHello (encode firefox) = Ret (Some info) /\ info_ok info.
Proof.
  assert (H : Forall is_byte (encode firefox)) by (vm_compute; repeat constructor; discriminate).
  split; [exact H|]. exact (parser_stays_in_bounds (encode firefox) H).
Defined.

Lemma hello_is_read_back_witness :
  exists info, parseRawClientHello (encode firefox) = Ret (Some info) /\ Extensions info = [23; 65281; 10; 11; 35; 16; 5; 13].
Proof.
  destruct (hello_is_read_back firefox firefox_ok) as (info & Hp & _ & _ & _ & He & _). exists info. split; [exact Hp|exact He].
Defined.

Lemma verdict_compares_hello_and_user_agent_witness :
  exists v, serve (connection [[22; 3]; drop 2 (record_of firefox)]) false "192.0.2.1:4000" (header "Firefox/60.0") = Ret (Some v) /\
    (v = Some false <-> genuine parse_float is_number (-1) (header "Firefox/60.0") (info_of firefox)).
Proof.
  destruct (verdict_compares_hello_and_user_agent parse_float is_number (-1) "192.0.2.1:4000" ∅ [[22; 3]] (drop 2 (record_of firefox)) [22; 3; 1]
    firefox [] (header "Firefox/60.0") false firefox_ok) as (v & Hs & Hv & _).
  - reflexivity.
  - reflexivity.
  - cbn. lia.
  - reflexivity.
  - discriminate.
  - exists v. rewrite andb_false_r in Hs. split; [exact Hs | exact Hv].
Defined.

(** An intact connection, one of another client, and the Tor browser *)
Example verdicts :
  serve (connection [record_of firefox]) false "192.0.2.1:4000" (header "Mozilla/5.0 (X11; Linux x86_64; rv:60.0) Firefox/60.0") = Ret (Some (Some false)) /\
  serve (connection [record_of firefox]) false "192.0.2.1:4000" (header "Mozilla/5.0 Chrome/64.0") = Ret (Some (Some true)) /\
  serve (connection [record_of firefox]) true "192.0.2.1:4000" (header "Mozilla/5.0 Chrome/64.0") = Ret None /\
  serve (connection [record_of firefox]) false "192.0.2.1:4000" (header "Mozilla/5.0 (Windows NT 6.1; rv:52.0) Firefox/52.0") = Ret (Some (Some true)) /\
  serve (connection [record_of firefox]) false "192.0.2.1:4000" (header "curl/7.64") = Ret (Some None).
Proof. vm_compute. repeat split. Qed.

(** A client with the curves of Firefox and one more makes the handler panic. *)
Definition five_curves : hello :=
  mkHello [1; 0; 0; 90] 0x0303 (repeat 7 32) [] [0x1301] [0]
    (Some [EOther 23 []; EOther 65281 [0]; ECurves [29; 23; 24; 25; 256]; EPoints [0]; EOther 35 []; EOther 16 [0; 0]; EOther 5 [1]; EOther 13 [0; 2; 4; 3]]).

Example fifth_curve_panics :
  serve (connection [record_of five_curves]) false "192.0.2.1:4000" (header "Firefox/60.0") = Panic index_panic.
Proof. vm_compute. reflexivity. Qed.

(** A record whose header is read before its end is lost: the next reads are
    parsed from the middle of the hello, and the intact browser is reported as
    intercepted. *)
Example split_record_is_misread :
  connection [take 5 (record_of firefox); drop 5 (record_of firefox)] = Some ∅ /\
  serve (connection [take 5 (record_of firefox); drop 5 (record_of firefox)]) false "192.0.2.1:4000" (header "Firefox/60.0") =
    Ret (Some (Some true)).
Proof. vm_compute. split; reflexivity. Qed.

(** A list of cipher suites that repeats one passes the check of its order. *)
Example repeated_item_passes : assertPresenceAndOrdering [1; 2; 2; 3] [1; 2; 3] true = true.
Proof. reflexivity. Qed.
End MitmDemo.
