(* ===== verification/HttpServer.v ===== *)
(** The web server of Caddy (src/go/caddy/caddy/caddyhttp/httpserver): the sites
    of a configuration and their addresses (plugin.go), the servers made of them
    and the way of a request to its site (server.go, vhosttrie.go, path.go).

    Handlers are a type of their own; url.Parse, the certificate manager
    and the resolution of listener addresses are arguments. *)
From S2P Require Import Prelude GoText NetUrl.
From Stdlib Require Import ZArith Lia Ascii.
From stdpp Require Import base gmap strings list.

Open Scope Z_scope.
Open Scope string_scope.

(** ** Wildcards *)

(** The loop over the labels of a name, which are replaced by stars from the
    left: the first entry that is found *)
Fixpoint try_wildcards {A : Type} (m : gmap string A) (stars labels : list string) : option A :=
  match labels with
  | [] => None
  | _ :: rest =>
      let stars := "*" :: stars in
      match m !! StrJoin (stars ++ rest) "." with
      | Some a => Some a
      | None => try_wildcards m stars rest
      end
  end.

(** The names under which a host is looked for: itself, then with more and more
    of its labels replaced *)
Definition wildcards (host : string) : list string :=
  (fun i => StrJoin (replicate i "*" ++ drop i (Split host ".")) ".") <$> seq 1 (length (Split host ".")).
Definition names (host : string) : list string := host :: wildcards host.

Fixpoint pick {A : Type} (m : gmap string A) (l : list string) : option A :=
  match l with [] => None | n :: l' => match m !! n with Some b => Some b | None => pick m l' end end.

Lemma pick_app {A} (m : gmap string A) l k : pick m (l ++ k) = match pick m l with Some b => Some b | None => pick m k end.
Proof. induction l as [|n l IH]; [done|]. cbn. by destruct (m !! n). Qed.

Lemma try_wildcards_pick {A} (m : gmap string A) i labels :
  try_wildcards m (replicate i "*") labels =
  pick m ((fun j => StrJoin (replicate (i + j) "*" ++ drop j labels) ".") <$> seq 1 (length labels)).
Proof.
  revert i. induction labels as [|x labels IH]; intros i; [done|]. cbn [try_wildcards length seq fmap list_fmap pick].
  replace (i + 1)%nat with (S i) by lia. cbn [replicate drop]. rewrite drop_0. destruct (m !! _); [done|].
  change ("*" :: replicate i "*") with (replicate (S i) "*"). rewrite IH. f_equal.
  rewrite <- (fmap_S_seq 1), <- list_fmap_compose. apply list_fmap_ext. intros _ j _. cbn. by rewrite Nat.add_succ_r.
Qed.

Lemma pick_names {A} (m : gmap string A) host :
  pick m (names host) = match m !! host with Some a => Some a | None => try_wildcards m [] (Split host ".") end.
Proof. unfold names. cbn [pick]. destruct (m !! host); [done|]. symmetry. apply (try_wildcards_pick m 0). Qed.

(** ** Virtual hosts (vhosttrie.go) *)

Module VHost.
Section Trie.
Context {S : Type}.

(** A node: the edges, and the site with the path it was inserted under *)
Inductive vhostTrie := Node (edges : gmap string vhostTrie) (site : option (S * string)).

Definition edges (t : vhostTrie) : gmap string vhostTrie := match t with Node e _ => e end.
Definition site (t : vhostTrie) : option (S * string) := match t with Node _ s => s end.
Definition empty : vhostTrie := Node ∅ None.

(** The root: the hosts to fall back to, and the edges *)
Record root := mkRoot { fallbackHosts : list string; hosts : gmap string vhostTrie }.

Definition newVHostTrie : root := mkRoot ["0.0.0.0"; "[::]"; EmptyString] ∅.

(** [string(b)] of a byte is the text of the rune. *)
Definition edge (c : Ascii.ascii) : string := string_of_runes [code c].

Definition splitHostPath (key : string) : string * string :=
  let '(host, path) := match cut_at "/" key with Some (h, p) => (ToLower h, "/" +:+ p) | None => (ToLower key, "/") end in
  (match SplitHostPort host with Some (hostname, _) => hostname | None => host end, path).

Fixpoint insertPath (remainingPath originalPath : string) (s : S) (t : vhostTrie) : vhostTrie :=
  match remainingPath with
  | EmptyString => Node (edges t) (Some (s, originalPath))
  | String c rest =>
      let next := default empty (edges t !! edge c) in
      Node (<[edge c := insertPath rest originalPath s next]> (edges t)) (site t)
  end.

Definition Insert (key : string) (s : S) (t : root) : root :=
  let '(host, path) := splitHostPath key in
  mkRoot (fallbackHosts t) (<[host := insertPath path path s (default empty (hosts t !! host))]> (hosts t)).

Definition matchHost (t : root) (host : string) : option vhostTrie :=
  match hosts t !! host with
  | Some subtree => Some subtree
  | None => try_wildcards (hosts t) [] (Split host ".")
  end.

Fixpoint matchPath (t : vhostTrie) (remainingPath : string) (longestMatch : option (S * string)) : option (S * string) :=
  match remainingPath with
  | EmptyString => longestMatch
  | String c rest =>
      match edges t !! edge c with
      | None => longestMatch
      | Some next => matchPath next rest (match site next with Some x => Some x | None => longestMatch end)
      end
  end.

Fixpoint first_host (t : root) (branch : option vhostTrie) (l : list string) : option vhostTrie :=
  match branch, l with
  | Some b, _ => Some b
  | None, [] => None
  | None, h :: l' => first_host t (matchHost t h) l'
  end.

Definition Match (t : root) (key : string) : option S * string :=
  let '(host, path) := splitHostPath key in
  match first_host t (matchHost t host) (fallbackHosts t) with
  | None => (None, EmptyString)
  | Some branch =>
      match matchPath branch path None with
      | Some (s, p) => (Some s, p)
      | None => (None, EmptyString)
      end
  end.

(** *** The sites of a trie *)

(** The site that was inserted last for a host and a path *)
Fixpoint site_at (sites : list (string * S)) (host path : string) : option S :=
  match sites with
  | [] => None
  | (k, s) :: l =>
      match site_at l host path with
      | Some x => Some x
      | None => if decide (splitHostPath k = (host, path)) then Some s else None
      end
  end.

Definition has_host (sites : list (string * S)) (host : string) : bool :=
  existsb (fun ks => bool_decide ((splitHostPath ks.1).1 = host)) sites.

Definition inserts (sites : list (string * S)) (t : root) : root := fold_left (fun t ks => Insert ks.1 ks.2 t) sites t.

Fixpoint lookup_path (t : vhostTrie) (q : string) : option (S * string) :=
  match q with
  | EmptyString => site t
  | String c r => match edges t !! edge c with Some next => lookup_path next r | None => None end
  end.

Lemma code_byte c : 0 <= code c < 256.
Proof. unfold code. pose proof (Ascii.nat_ascii_bounded c). lia. Qed.

Lemma edge_inj c d : edge c = edge d -> c = d.
Proof.
  intros He. apply (f_equal runes) in He. pose proof (code_byte c). pose proof (code_byte d). unfold edge in He.
  rewrite !runes_string in He by (cbn; rewrite andb_true_r; apply orb_true_iff; left; apply in_range_true; lia).
  injection He as He. unfold code in He. apply Nat2Z.inj in He.
  by rewrite <- (Ascii.ascii_nat_embedding c), He, Ascii.ascii_nat_embedding.
Qed.

Lemma lookup_empty_path q : lookup_path empty q = None.
Proof. destruct q; cbn; [done | by rewrite lookup_empty]. Qed.

Lemma lookup_insertPath rp op s t q :
  lookup_path (insertPath rp op s t) q = if decide (q = rp) then Some (s, op) else lookup_path t q.
Proof.
  revert t q. induction rp as [|c rp IH]; intros t [|d q]; cbn [insertPath lookup_path edges site]; [done..|].
  destruct (decide (c = d)) as [->|Hne].
  - rewrite lookup_insert, decide_True by done. rewrite IH. destruct (decide (q = rp)) as [->|Hq].
    + by rewrite decide_True.
    + rewrite decide_False by congruence. destruct (edges t !! edge d); [done | apply lookup_empty_path].
  - rewrite lookup_insert_ne by (intros ?%edge_inj; congruence). by rewrite decide_False by congruence.
Qed.

Lemma HasPrefix_cons c d s p : HasPrefix (String c s) (String d p) = true <-> d = c /\ HasPrefix s p = true.
Proof. cbn [HasPrefix]. rewrite andb_true_iff, bool_decide_eq_true. done. Qed.

Lemma matchPath_spec path t lm :
  (matchPath t path lm = lm /\ forall q, q <> EmptyString -> HasPrefix path q = true -> lookup_path t q = None) \/
  (exists q x, q <> EmptyString /\ HasPrefix path q = true /\ lookup_path t q = Some x /\ matchPath t path lm = Some x /\
     forall q', q' <> EmptyString -> HasPrefix path q' = true -> is_Some (lookup_path t q') -> (String.length q' <= String.length q)%nat).
Proof.
  revert t lm. induction path as [|c path IH]; intros t lm; cbn [matchPath].
  { left. split; [done|]. by intros [|d q]. }
  assert (Hcons : forall d q, lookup_path t (String d q) = match edges t !! edge d with Some next => lookup_path next q | None => None end) by done.
  destruct (edges t !! edge c) as [next|] eqn:En.
  - destruct (IH next (match site next with Some x => Some x | None => lm end)) as [[-> Hno]|(q & x & _ & Hq & Hl & -> & Hmax)].
    + assert (Hdeep : forall q d, q <> EmptyString -> HasPrefix (String c path) (String d q) = true -> lookup_path t (String d q) = None).
      { intros q d Hne [-> Hp]%HasPrefix_cons. rewrite Hcons, En. by apply Hno. }
      destruct (site next) as [x|] eqn:Es.
      * right. exists (String c EmptyString), x. split; [done|]. split; [apply HasPrefix_cons; split; [done|by destruct path]|].
        split; [by rewrite Hcons, En|]. split; [done|]. intros [|d [|e q']] Hne Hp [y Hy]; [done | done |]. by rewrite Hdeep in Hy.
      * left. split; [done|]. intros [|d [|e q']] Hne Hp; [done | | by apply Hdeep].
        apply HasPrefix_cons in Hp as [-> _]. by rewrite Hcons, En.
    + right. exists (String c q), x. split; [done|]. split; [by apply HasPrefix_cons|]. split; [by rewrite Hcons, En|]. split; [done|].
      intros [|d q'] _ Hp Hs; [cbn; lia|]. apply HasPrefix_cons in Hp as [-> Hp]. rewrite Hcons, En in Hs. cbn.
      destruct (decide (q' = EmptyString)) as [->|Hne]; [cbn; lia|]. apply le_n_S. by apply Hmax.
  - left. split; [done|]. intros [|d q] Hne Hp; [done|]. apply HasPrefix_cons in Hp as [-> _]. by rewrite Hcons, En.
Qed.

Lemma site_at_snoc sites k s host path :
  site_at (sites ++ [(k, s)]) host path = if decide (splitHostPath k = (host, path)) then Some s else site_at sites host path.
Proof.
  induction sites as [|[k' s'] sites IH]; cbn [app site_at]; [done|]. rewrite IH. by case_decide.
Qed.

Lemma has_host_snoc sites k s host :
  has_host (sites ++ [(k, s)]) host = bool_decide ((splitHostPath k).1 = host) || has_host sites host.
Proof. unfold has_host. rewrite existsb_app. cbn. rewrite orb_false_r. apply orb_comm. Qed.

(** The trie that represents a list of sites *)
Definition represents (sites : list (string * S)) (t : root) : Prop :=
  forall host, match hosts t !! host with
    | Some b => has_host sites host = true /\ forall p, lookup_path b p = (fun s => (s, p)) <$> site_at sites host p
    | None => has_host sites host = false
    end.

Lemma no_host_no_site sites host path : has_host sites host = false -> site_at sites host path = None.
Proof.
  induction sites as [|[k s] sites IH]; [done|]. cbn. intros [Hk H]%orb_false_iff. rewrite IH by done.
  apply bool_decide_eq_false in Hk. by rewrite decide_False by (intros Hx; by rewrite Hx in Hk).
Qed.

Lemma Insert_represents sites k s t : represents sites t -> represents (sites ++ [(k, s)]) (Insert k s t).
Proof.
  intros Hr host. unfold Insert. destruct (splitHostPath k) as [h p] eqn:Ek. cbn [hosts].
  rewrite has_host_snoc, Ek. cbn [fst]. destruct (decide (h = host)) as [->|Hne].
  - rewrite lookup_insert, decide_True by done. split; [by rewrite bool_decide_true|]. intros q.
    rewrite lookup_insertPath, site_at_snoc, Ek. destruct (decide (q = p)) as [->|Hq]; [by rewrite decide_True|].
    rewrite decide_False by congruence. specialize (Hr host). destruct (hosts t !! host) as [b|]; cbn; [by destruct Hr|].
    by rewrite lookup_empty_path, no_host_no_site.
  - rewrite lookup_insert_ne, bool_decide_false by done. cbn [orb]. specialize (Hr host).
    destruct (hosts t !! host) as [b|]; [|done]. split; [apply Hr|]. intros q. rewrite site_at_snoc, Ek, decide_False by congruence.
    apply Hr.
Qed.

Lemma inserts_represents sites fb : represents sites (inserts sites (mkRoot fb ∅)) /\ fallbackHosts (inserts sites (mkRoot fb ∅)) = fb.
Proof.
  induction sites as [|[k s] sites [IH IHf]] using rev_ind; [split; [intros h; cbn; by rewrite lookup_empty | done]|].
  unfold inserts in *. rewrite fold_left_app. cbn [fold_left fst snd]. split; [by apply Insert_represents|].
  unfold Insert. by destruct (splitHostPath k).
Qed.

Lemma matchHost_pick t host : matchHost t host = pick (hosts t) (names host).
Proof. by rewrite pick_names. Qed.

Lemma first_host_pick t host l : first_host t (matchHost t host) l = pick (hosts t) (names host ++ concat (names <$> l)).
Proof.
  rewrite pick_app, <- matchHost_pick. destruct (matchHost t host) as [b|]; [by destruct l|]. cbn [first_host].
  revert host. induction l as [|h l IH]; intros host; [done|]. cbn [first_host fmap list_fmap concat].
  rewrite pick_app, <- matchHost_pick. destruct (matchHost t h); [by destruct l | by apply IH].
Qed.

Lemma pick_find sites t l :
  represents sites t ->
  match List.find (has_host sites) l with
  | None => pick (hosts t) l = None
  | Some n => exists b, pick (hosts t) l = Some b /\ hosts t !! n = Some b
  end.
Proof.
  intros Hr. induction l as [|n l IH]; [done|]. cbn [List.find pick]. specialize (Hr n).
  destruct (hosts t !! n) as [b|] eqn:E.
  - destruct Hr as [-> _]. by exists b.
  - by rewrite Hr.
Qed.

(** The site of a request: the trie that the sites are inserted into finds
    the first name with a site, among the host of the request, its wildcards and
    those of the fallback hosts, and of the sites of that name the one with the
    longest path that the path of the request begins with; a site that was
    inserted again counts as it was inserted last. *)
Lemma match_is_most_specific sites fallback key host path :
  splitHostPath key = (host, path) ->
  let t := inserts sites (mkRoot fallback ∅) in
  match List.find (has_host sites) (concat (names <$> host :: fallback)) with
  | None => Match t key = (None, EmptyString)
  | Some name =>
      (Match t key = (None, EmptyString) /\ forall p, p <> EmptyString -> HasPrefix path p = true -> site_at sites name p = None) \/
      (exists s p, Match t key = (Some s, p) /\ HasPrefix path p = true /\ site_at sites name p = Some s /\
         forall p', p' <> EmptyString -> HasPrefix path p' = true -> is_Some (site_at sites name p') -> (String.length p' <= String.length p)%nat)
  end.
Proof.
  intros Hk. cbv zeta. destruct (inserts_represents sites fallback) as [Hr Hf]. set (t := inserts _ _) in *. clearbody t.
  unfold Match. rewrite Hk, Hf, first_host_pick. cbn [fmap list_fmap concat].
  pose proof (pick_find sites t (names host ++ concat (names <$> fallback)) Hr) as Hp.
  destruct (List.find _ _) as [name|]; [|by rewrite Hp]. destruct Hp as (b & -> & Hb).
  specialize (Hr name). rewrite Hb in Hr. destruct Hr as [_ Hl].
  destruct (matchPath_spec path b None) as [[-> Hno]|(q & [s p] & Hne & Hq & Hs & -> & Hmax)].
  - left. split; [done|]. intros p Hp Hpre. specialize (Hno p Hp Hpre). rewrite Hl in Hno. by apply fmap_None in Hno.
  - right. rewrite Hl in Hs. apply fmap_Some in Hs as (s' & Hs & [= -> ->]). exists s', q. split_and!; [done..|].
    intros p' Hne' Hp' Hs'. apply Hmax; [done..|]. rewrite Hl. by apply fmap_is_Some.
Qed.
End Trie.
Arguments vhostTrie : clear implicits.
Arguments root : clear implicits.
End VHost.

(** ** TLS configurations (caddytls/config.go, handshake.go, tls.go) *)

Module Tls.

(** The final tls.Config *)
Record stdConfig := mkStd {
  CipherSuites : list Z; t_Prefer : bool; t_Curves : list Z; MinVersion : Z; MaxVersion : Z; t_ClientAuth : Z; NextProtos : list string;
  ClientCAs : list string
}.

Record Config := mkConfig {
  Hostname : string; Enabled : bool; ProtocolMinVersion : Z; ProtocolMaxVersion : Z; Ciphers : list Z; PreferServerCipherSuites : bool;
  CurvePreferences : list Z; ClientAuth : Z; ClientCerts : list string; Manual : bool; Managed : bool; OnDemand : bool; SelfSigned : bool;
  ACMEEmail : string; ALPN : list string; tlsConfig : option stdConfig
}.

Definition NoClientCert : Z := 0.
Definition TLS_FALLBACK_SCSV : Z := 0x5600.
Definition ACMETLS1Protocol : string := "acme-tls/1".
Definition VersionTLS12 : Z := 0x0303.
Definition VersionTLS13 : Z := 0x0304.

Definition set_Enabled (x : bool) (c : Config) : Config :=
  mkConfig (Hostname c) x (ProtocolMinVersion c) (ProtocolMaxVersion c) (Ciphers c) (PreferServerCipherSuites c) (CurvePreferences c)
    (ClientAuth c) (ClientCerts c) (Manual c) (Managed c) (OnDemand c) (SelfSigned c) (ACMEEmail c) (ALPN c) (tlsConfig c).
Definition set_Managed (x : bool) (c : Config) : Config :=
  mkConfig (Hostname c) (Enabled c) (ProtocolMinVersion c) (ProtocolMaxVersion c) (Ciphers c) (PreferServerCipherSuites c) (CurvePreferences c)
    (ClientAuth c) (ClientCerts c) (Manual c) x (OnDemand c) (SelfSigned c) (ACMEEmail c) (ALPN c) (tlsConfig c).
Definition set_OnDemand (x : bool) (c : Config) : Config :=
  mkConfig (Hostname c) (Enabled c) (ProtocolMinVersion c) (ProtocolMaxVersion c) (Ciphers c) (PreferServerCipherSuites c) (CurvePreferences c)
    (ClientAuth c) (ClientCerts c) (Manual c) (Managed c) x (SelfSigned c) (ACMEEmail c) (ALPN c) (tlsConfig c).
Definition set_ALPN (x : list string) (c : Config) : Config :=
  mkConfig (Hostname c) (Enabled c) (ProtocolMinVersion c) (ProtocolMaxVersion c) (Ciphers c) (PreferServerCipherSuites c) (CurvePreferences c)
    (ClientAuth c) (ClientCerts c) (Manual c) (Managed c) (OnDemand c) (SelfSigned c) (ACMEEmail c) x (tlsConfig c).
Definition set_tlsConfig (x : option stdConfig) (c : Config) : Config :=
  mkConfig (Hostname c) (Enabled c) (ProtocolMinVersion c) (ProtocolMaxVersion c) (Ciphers c) (PreferServerCipherSuites c) (CurvePreferences c)
    (ClientAuth c) (ClientCerts c) (Manual c) (Managed c) (OnDemand c) (SelfSigned c) (ACMEEmail c) (ALPN c) x.

Section Tls.
(** The preferred ciphers of the machine, and the curves by default *)
Context (preferredCiphers defaultCurves : list Z).
(** Reading a file of client certificates: its error *)
Context (LoadCA : string -> error).
(** certmagic.NormalizedName, HostQualifies and the default server name *)
Context (NormalizedName : string -> string) (HostQualifies : string -> bool) (DefaultServerName : string).

Definition QualifiesForManagedTLS (c : Config) (port host : string) : bool :=
  (negb (Manual c) || OnDemand c) && negb (SelfSigned c) && negb (bool_decide (port = "80")) &&
  negb (bool_decide (ACMEEmail c = "off")) && (HostQualifies host || OnDemand c).

Definition SetDefaultTLSParams (c : Config) : Config :=
  mkConfig (Hostname c) (Enabled c)
    (if decide (ProtocolMinVersion c = 0) then VersionTLS12 else ProtocolMinVersion c)
    (if decide (ProtocolMaxVersion c = 0) then VersionTLS13 else ProtocolMaxVersion c)
    (TLS_FALLBACK_SCSV :: match Ciphers c with [] => preferredCiphers | l => l end) true
    (match CurvePreferences c with [] => defaultCurves | l => l end)
    (ClientAuth c) (ClientCerts c) (Manual c) (Managed c) (OnDemand c) (SelfSigned c) (ACMEEmail c) (ALPN c) (tlsConfig c).

(** The items that were not added before *)
Fixpoint unique {A : Type} `{EqDecision A} (seen l : list A) : list A :=
  match l with
  | [] => []
  | x :: l' => if decide (x ∈ seen) then unique seen l' else x :: unique (x :: seen) l'
  end.

Fixpoint first_error (l : list string) : error :=
  match l with [] => None | f :: l' => match LoadCA f with Some e => Some e | None => first_error l' end end.

Definition buildStandardTLSConfig (c : Config) : Config + string :=
  if negb (Enabled c) then inl c
  else
    let suites := unique [] (Ciphers c) in
    let curves := unique [] (CurvePreferences c) in
    let alpn := if decide (ACMETLS1Protocol ∈ ALPN c) then ALPN c else (ALPN c ++ [ACMETLS1Protocol])%list in
    let c := set_ALPN alpn c in
    let cas := if decide (ClientAuth c = NoClientCert) then [] else unique [] (ClientCerts c) in
    match first_error cas with
    | Some e => inr e
    | None =>
        let suites := match suites with [] => preferredCiphers | l => l end in
        let suites := if decide (head suites = Some TLS_FALLBACK_SCSV) then suites else TLS_FALLBACK_SCSV :: suites in
        inl (set_tlsConfig (Some (mkStd suites (PreferServerCipherSuites c) curves (ProtocolMinVersion c) (ProtocolMaxVersion c)
                                    (ClientAuth c) alpn cas)) c)
    end.

Definition assertClientCertsCompatible (c1 c2 : Config) (t1 t2 : stdConfig) : error :=
  if decide (t_ClientAuth t1 <> t_ClientAuth t2) then Some "client authentication policy mismatch"
  else if decide (t_ClientAuth t1 = NoClientCert) then None
  else if decide (length (ClientCerts c1) <> length (ClientCerts c2)) then Some "number of client certs differs"
  else if decide (ClientCerts c1 <> ClientCerts c2) then Some "multiple hosts requiring client authentication ambiguously configured"
  else None.

Definition assertConfigsCompatible (c1 c2 : Config) : error :=
  match tlsConfig c1, tlsConfig c2 with
  | None, None => None
  | None, Some _ | Some _, None => Some "one config is not made"
  | Some t1, Some t2 =>
      if decide (length (CipherSuites t1) <> length (CipherSuites t2)) then Some "different number of allowed cipher suites"
      else if decide (CipherSuites t1 <> CipherSuites t2) then Some "different cipher suites or different order"
      else if decide (length (t_Curves t1) <> length (t_Curves t2)) then Some "different number of allowed cipher suites"
      else if decide (t_Curves t1 <> t_Curves t2) then Some "different curve preferences or different order"
      else if decide (length (NextProtos t1) <> length (NextProtos t2)) then Some "different number of ALPN (NextProtos) values"
      else if decide (NextProtos t1 <> NextProtos t2) then Some "different ALPN (NextProtos) values or different order"
      else if decide (t_Prefer t1 <> t_Prefer t2) then Some "one prefers server cipher suites, the other does not"
      else if decide (MinVersion t1 <> MinVersion t2) then Some "minimum TLS version mismatch"
      else if decide (MaxVersion t1 <> MaxVersion t2) then Some "maximum TLS version mismatch"
      else assertClientCertsCompatible c1 c2 t1 t2
  end.

Definition proto (c : Config) : string := if Enabled c then "TLS" else "not TLS".

(** TLS and other connections cannot share a listener. *)
Definition multiplex (prev : option Config) (cfg : Config) : error :=
  match prev with
  | Some p =>
      if bool_decide (Enabled cfg = Enabled p) then None
      else Some ("cannot multiplex " +:+ Hostname p +:+ " (" +:+ proto p +:+ ") and " +:+ Hostname cfg +:+ " (" +:+ proto cfg +:+
                 ") on same listener")
  | None => None
  end.

(** The loop of MakeTLSConfig: the configs made so far, the last one, and the
    group *)
Fixpoint make_loop (configs : list Config) (prev : option Config) (group : gmap string Config) :
    (list Config * gmap string Config) + string :=
  match configs with
  | [] => inl ([], group)
  | cfg :: rest =>
      match multiplex prev cfg with
      | Some e => inr e
      | None =>
          match buildStandardTLSConfig cfg with
          | inr e => inr e
          | inl cfg =>
              match match group !! Hostname cfg with Some other => assertConfigsCompatible cfg other | None => None end with
              | Some e => inr ("incompatible TLS configurations for the same SNI name (" +:+ Hostname cfg +:+ ") on the same listener: " +:+ e)
              | None =>
                  let key := if bool_decide (Hostname cfg = "0.0.0.0") || bool_decide (Hostname cfg = "::") then EmptyString else Hostname cfg in
                  match make_loop rest (Some cfg) (<[key := cfg]> group) with
                  | inl (l, g) => inl (cfg :: l, g)
                  | inr e => inr e
                  end
              end
          end
      end
  end.

(** The configs as they are changed, and the group when TLS is enabled *)
Definition MakeTLSConfig (configs : list Config) : (list Config * option (gmap string Config)) + string :=
  match make_loop configs None ∅ with
  | inr e => inr e
  | inl (l, g) =>
      match l with
      | [] => inl (l, None)
      | c :: _ => if Enabled c then inl (l, Some g) else inl (l, None)
      end
  end.

(** getConfig: [local] is the local address of the connection, and [order] the
    first entry in the order of the map. *)
Definition getConfig (cg : gmap string Config) (order : gmap string Config -> option Config) (ServerName : string) (local : option string) :
    option Config :=
  let name := NormalizedName ServerName in
  let name := if decide (name = EmptyString) then NormalizedName DefaultServerName else name in
  let by_address :=
    match local with
    | Some addr => if decide (name = EmptyString) then cg !! match SplitHostPort addr with Some (ip, _) => ip | None => addr end else None
    | None => None
    end in
  match by_address with
  | Some c => Some c
  | None =>
      match cg !! name with
      | Some c => Some c
      | None =>
          match try_wildcards cg [] (Split name ".") with
          | Some c => Some c
          | None =>
              match cg !! EmptyString with
              | Some c => Some c
              | None => match order cg with
                        | Some c => Some (if OnDemand c then set_OnDemand false c else c)
                        | None => None
                        end
              end
          end
      end
  end.
End Tls.
End Tls.

(** ** Sites (plugin.go, https.go, siteconfig.go) *)

Module Sites.
Import VHost.

Record Address := mkAddress { Original : string; a_Scheme : string; a_Host : string; a_Port : string; a_Path : string }.

Record Timeouts := mkTimeouts {
  ReadTimeout : Z; ReadTimeoutSet : bool; ReadHeaderTimeout : Z; ReadHeaderTimeoutSet : bool;
  WriteTimeout : Z; WriteTimeoutSet : bool; IdleTimeout : Z; IdleTimeoutSet : bool
}.

Definition zeroTimeouts : Timeouts := mkTimeouts 0 false 0 false 0 false 0 false.
Definition defaultTimeouts : Timeouts := mkTimeouts 0 false 0 false 0 false (5 * 60 * 10 ^ 9) false.

Section Sites.
(** Handlers; the file server of a root with the hidden files, and a redirection
    to a port *)
Context {H : Type} (FileServer : string -> list string -> H) (redirect : string -> H).
(** What comes from the command line *)
Context (HTTPPort HTTPSPort : Z) (Host Port Root : string) (CaseSensitivePath HTTP2 QUIC : bool).
(** url.Parse and its error; net.ParseIP with the text of the address *)
Context (Parse : string -> URL + string) (IPText : string -> option string).
(** The certificates, as in the module above *)
Context (preferredCiphers defaultCurves : list Z) (LoadCA : string -> error) (NormalizedName : string -> string) (HostQualifies : string -> bool).
(** The resolution of a listener address, and the certificate cache of the
    instance *)
Context (ResolveTCPAddr : string -> string + string) (NewConfigError : error) (CacheManagedCertificate : string -> error).

Record SiteConfig := mkSite {
  Addr : Address; ListenHost : string; TLS : Tls.Config; StrictHostMatching : bool; middleware : list (H -> H);
  s_Root : string; HiddenFiles : list string; MaxRequestHeaderSize : Z; s_Timeouts : Timeouts; originCaddyfile : string; FallbackSite : bool
}.

Definition set_Addr (x : Address) (s : SiteConfig) : SiteConfig :=
  mkSite x (ListenHost s) (TLS s) (StrictHostMatching s) (middleware s) (s_Root s) (HiddenFiles s) (MaxRequestHeaderSize s) (s_Timeouts s)
    (originCaddyfile s) (FallbackSite s).
Definition set_TLS (x : Tls.Config) (s : SiteConfig) : SiteConfig :=
  mkSite (Addr s) (ListenHost s) x (StrictHostMatching s) (middleware s) (s_Root s) (HiddenFiles s) (MaxRequestHeaderSize s) (s_Timeouts s)
    (originCaddyfile s) (FallbackSite s).
Definition set_Strict (s : SiteConfig) : SiteConfig :=
  mkSite (Addr s) (ListenHost s) (TLS s) true (middleware s) (s_Root s) (HiddenFiles s) (MaxRequestHeaderSize s) (s_Timeouts s)
    (originCaddyfile s) (FallbackSite s).
Definition AddMiddleware (m : H -> H) (s : SiteConfig) : SiteConfig :=
  mkSite (Addr s) (ListenHost s) (TLS s) (StrictHostMatching s) (middleware s ++ [m]) (s_Root s) (HiddenFiles s) (MaxRequestHeaderSize s)
    (s_Timeouts s) (originCaddyfile s) (FallbackSite s).
Definition hide (f : string) (s : SiteConfig) : SiteConfig :=
  mkSite (Addr s) (ListenHost s) (TLS s) (StrictHostMatching s) (middleware s) (s_Root s) (HiddenFiles s ++ [f]) (MaxRequestHeaderSize s)
    (s_Timeouts s) (originCaddyfile s) (FallbackSite s).

Definition DefaultHost : string := EmptyString.
Definition DefaultPort : string := "2015".
Definition DefaultHTTPPort : string := "80".
Definition DefaultHTTPSPort : string := "443".

Definition set_a_Scheme (x : string) (a : Address) := mkAddress (Original a) x (a_Host a) (a_Port a) (a_Path a).
Definition set_a_Host (x : string) (a : Address) := mkAddress (Original a) (a_Scheme a) x (a_Port a) (a_Path a).
Definition set_a_Port (x : string) (a : Address) := mkAddress (Original a) (a_Scheme a) (a_Host a) x (a_Path a).

(** Address.String *)
Definition AddressString (a : Address) : string :=
  if bool_decide (a_Host a = EmptyString) && bool_decide (a_Port a = EmptyString) then EmptyString
  else
    let scheme := if decide (a_Scheme a = EmptyString) then (if decide (a_Port a = Itoa HTTPSPort) then "https" else "http") else a_Scheme a in
    scheme +:+ "://" +:+
    (if negb (bool_decide (a_Port a = EmptyString)) &&
        ((bool_decide (scheme = "https") && negb (bool_decide (a_Port a = DefaultHTTPSPort))) ||
         (bool_decide (scheme = "http") && negb (bool_decide (a_Port a = DefaultHTTPPort))))
     then JoinHostPort (a_Host a) (a_Port a) else a_Host a) +:+ a_Path a.

Definition VHostOf (a : Address) : string :=
  match StrIndex (Original a) "://" with Some i => drop_str (i + 3) (Original a) | None => Original a end.

Definition Normalize (a : Address) : Address :=
  let path := if CaseSensitivePath then a_Path a else ToLower (a_Path a) in
  let host := match IPText (a_Host a) with Some ip => ip | None => a_Host a end in
  mkAddress (Original a) (ToLower (a_Scheme a)) (ToLower host) (a_Port a) path.

Definition Key (a : Address) : string :=
  let res := (if decide (a_Scheme a = EmptyString) then EmptyString else a_Scheme a +:+ "://") +:+ a_Host a in
  let res :=
    if negb (bool_decide (a_Port a = EmptyString)) && Nat.leb (String.length res) (String.length (Original a)) &&
       HasPrefix (drop_str (String.length res) (Original a)) (":" +:+ a_Port a)
    then res +:+ ":" +:+ a_Port a else res in
  res +:+ a_Path a.

(** strings.Replace(s, old, new, 1) *)
Definition ReplaceFirst (s old new : string) : string :=
  match StrIndex s old with Some i => take_str i s +:+ new +:+ drop_str (i + String.length old) s | None => s end.

Definition standardizeAddress (str : string) : Address + string :=
  let input := str in
  let httpPort := Itoa HTTPPort in
  let httpsPort := Itoa HTTPSPort in
  let str := ReplaceFirst str ":https" (":" +:+ httpsPort) in
  let str := ReplaceFirst str ":http" (":" +:+ httpPort) in
  let str := if negb (StrContains str "//") && negb (HasPrefix str "/") then "//" +:+ str else str in
  match Parse str with
  | inr e => inr e
  | inl u =>
      let '(host, port) :=
        match SplitHostPort (NetUrl.Host u) with
        | Some hp => hp
        | None => match SplitHostPort (NetUrl.Host u +:+ ":") with Some hp => hp | None => (NetUrl.Host u, EmptyString) end
        end in
      let scheme := NetUrl.Scheme u in
      let port :=
        if decide (port = EmptyString) then
          (if decide (scheme = "http") then httpPort else if decide (scheme = "https") then httpsPort else port)
        else port in
      if (bool_decide (scheme = "http") && bool_decide (port = httpsPort)) || (bool_decide (scheme = "https") && bool_decide (port = httpPort))
      then inr ("[" +:+ input +:+ "] scheme and port violate convention")
      else
        let scheme :=
          if decide (scheme = EmptyString) then
            (if decide (port = httpPort) then "http" else if decide (port = httpsPort) then "https" else scheme)
          else scheme in
        inl (mkAddress input scheme host port (NetUrl.Path u))
  end.

(** httpContext: the configs, and the positions of those of the keys *)
Record httpContext := mkContext { siteConfigs : list SiteConfig; keysToSiteConfigs : gmap string nat }.

Definition newContext : httpContext := mkContext [] ∅.

Definition saveConfig (key : string) (cfg : SiteConfig) (h : httpContext) : httpContext :=
  mkContext (siteConfigs h ++ [cfg]) (<[key := length (siteConfigs h)]> (keysToSiteConfigs h)).

(** caddytls.NewConfig *)
Definition new_tls (host : string) : Tls.Config :=
  Tls.mkConfig host false 0 0 [] false [] Tls.NoClientCert [] false false false false EmptyString [] None.

(** A server block: its keys, and the tokens of its directives *)
Record ServerBlock := mkBlock { Keys : list string; Tokens : gmap string (list string) }.

(** The address that a site is compared by *)
Definition distinct_form (a : Address) : string :=
  AddressString (if bool_decide (a_Port a = EmptyString) && bool_decide (Port = DefaultPort) then set_a_Port Port a else a).

(** The address with what the command line adds *)
Definition fill_in (a : Address) : Address :=
  let a := if bool_decide (a_Host a = EmptyString) && negb (bool_decide (Host = DefaultHost)) then set_a_Host Host a else a in
  if bool_decide (a_Port a = EmptyString) && negb (bool_decide (Port = DefaultPort)) then set_a_Port Port a else a.

Definition duplicate_error (addrCopy : Address) (key other : string) : string :=
  if (bool_decide (a_Host addrCopy = Host) && negb (bool_decide (Host = DefaultHost))) ||
     (bool_decide (a_Port addrCopy = Port) && negb (bool_decide (Port = DefaultPort)))
  then "site defined as " +:+ key +:+ " is a duplicate of " +:+ other +:+
       " because of modified default host and/or port values (usually via -host or -port flags)"
  else "duplicate site address: " +:+ AddressString addrCopy.

(** One key: the context and the addresses so far, or the error *)
Definition inspect_key (sourceFile key : string) (h : httpContext) (siteAddrs : gmap string string) :
    (httpContext * gmap string string) + string :=
  match standardizeAddress key with
  | inr e => inr e
  | inl addr =>
      let addr := Normalize addr in
      let key := Key addr in
      match keysToSiteConfigs h !! key with
      | Some _ => inr ("duplicate site key: " +:+ key)
      | None =>
          let addr := fill_in addr in
          let addrCopy := if bool_decide (a_Port addr = EmptyString) && bool_decide (Port = DefaultPort) then set_a_Port Port addr else addr in
          match siteAddrs !! distinct_form addr with
          | Some other => inr (duplicate_error addrCopy key other)
          | None =>
              match NewConfigError with
              | Some e => inr ("creating new caddytls configuration: " +:+ e)
              | None =>
                  let cfg := mkSite addr EmptyString (new_tls (a_Host addr)) false [] Root [] 0 zeroTimeouts sourceFile false in
                  inl (saveConfig key cfg h, <[distinct_form addr := key]> siteAddrs)
              end
          end
      end
  end.

Fixpoint inspect_keys (sourceFile : string) (keys : list string) (h : httpContext) (siteAddrs : gmap string string) :
    (httpContext * gmap string string) + string :=
  match keys with
  | [] => inl (h, siteAddrs)
  | key :: keys' =>
      match inspect_key sourceFile key h siteAddrs with
      | inr e => inr e
      | inl (h, siteAddrs) => inspect_keys sourceFile keys' h siteAddrs
      end
  end.

Definition add_errors (sb : ServerBlock) : ServerBlock :=
  match Tokens sb !! "gzip", Tokens sb !! "errors" with
  | Some _, None => mkBlock (Keys sb) (<["errors" := ["errors"]]> (Tokens sb))
  | _, _ => sb
  end.

Definition InspectServerBlocks (sourceFile : string) (serverBlocks : list ServerBlock) (h : httpContext) :
    (httpContext * list ServerBlock) + string :=
  match inspect_keys sourceFile (concat (Keys <$> serverBlocks)) h ∅ with
  | inr e => inr e
  | inl (h, _) => inl (h, add_errors <$> serverBlocks)
  end.

Definition normalizedKey (key : string) : string :=
  match standardizeAddress key with inr _ => key | inl addr => Key (Normalize addr) end.

(** GetConfig: the position of the config *)
Definition GetConfig (key : string) (h : httpContext) : httpContext * nat :=
  match keysToSiteConfigs h !! normalizedKey key with
  | Some i => (h, i)
  | None =>
      let cfg := mkSite (mkAddress EmptyString EmptyString EmptyString EmptyString EmptyString) EmptyString (new_tls EmptyString) false [] Root [] 0
                   zeroTimeouts EmptyString false in
      (saveConfig (normalizedKey key) cfg h, length (siteConfigs h))
  end.

(** hideCaddyfile; [cwd] is the working directory of filepath.Abs. *)
Definition Abs (cwd path : string) : string := if IsAbs path then PathClean path else PathJoin [cwd; path].

Fixpoint hideCaddyfile (cwd : string) (l : list SiteConfig) : list SiteConfig :=
  match l with
  | [] => []
  | cfg :: l' =>
      if decide (originCaddyfile cfg = EmptyString) then l
      else
        let absRoot := Abs cwd (s_Root cfg) in
        let absOrigin := Abs cwd (originCaddyfile cfg) in
        (if HasPrefix absOrigin absRoot then hide (TrimPrefix absOrigin absRoot) cfg else cfg) :: hideCaddyfile cwd l'
  end.

(** *** Automatic HTTPS *)

Definition markQualifiedForAutoHTTPS (configs : list SiteConfig) : list SiteConfig :=
  (fun cfg => if Tls.QualifiesForManagedTLS HostQualifies (TLS cfg) (a_Port (Addr cfg)) (a_Host (Addr cfg)) &&
                 negb (bool_decide (a_Scheme (Addr cfg) = "http"))
              then set_TLS (Tls.set_Managed true (TLS cfg)) cfg else cfg) <$> configs.

(** One config of enableAutoHTTPS *)
Definition enable_one (loadCertificates : bool) (cfg : SiteConfig) : SiteConfig + string :=
  if negb (Tls.Managed (TLS cfg)) || Tls.OnDemand (TLS cfg) then inl cfg
  else
    let cfg := set_Addr (set_a_Scheme "https" (Addr cfg)) (set_TLS (Tls.set_Enabled true (TLS cfg)) cfg) in
    match (if loadCertificates && HostQualifies (Tls.Hostname (TLS cfg)) then CacheManagedCertificate (Tls.Hostname (TLS cfg)) else None) with
    | Some e => inr e
    | None =>
        let cfg := set_TLS (Tls.SetDefaultTLSParams preferredCiphers defaultCurves (TLS cfg)) cfg in
        if bool_decide (a_Port (Addr cfg) = EmptyString) && Tls.Enabled (TLS cfg) && (negb (Tls.Manual (TLS cfg)) || Tls.OnDemand (TLS cfg)) &&
           negb (bool_decide (a_Host (Addr cfg) = "localhost"))
        then inl (set_Addr (set_a_Port (Itoa HTTPSPort) (Addr cfg)) cfg) else inl cfg
    end.

Fixpoint enableAutoHTTPS (loadCertificates : bool) (configs : list SiteConfig) : list SiteConfig + string :=
  match configs with
  | [] => inl []
  | cfg :: rest =>
      match enable_one loadCertificates cfg with
      | inr e => inr e
      | inl cfg => match enableAutoHTTPS loadCertificates rest with inl l => inl (cfg :: l) | inr e => inr e end
      end
  end.

Definition hostHasOtherPort (allConfigs : list SiteConfig) (thisConfigIdx : nat) (host otherPort : string) : bool :=
  existsb (fun ic => negb (bool_decide (ic.1 = thisConfigIdx)) && bool_decide (a_Host (Addr ic.2) = host) &&
                     bool_decide (a_Port (Addr ic.2) = otherPort))
    (imap (fun i c => (i, c)) allConfigs).

Definition redirPlaintextHost (cfg : SiteConfig) : SiteConfig :=
  let redirPort := if decide (a_Port (Addr cfg) = Itoa HTTPSPort) then EmptyString else a_Port (Addr cfg) in
  let host := a_Host (Addr cfg) in
  let port := Itoa HTTPPort in
  mkSite (mkAddress (JoinHostPort host port) EmptyString host port EmptyString) (ListenHost cfg) (new_tls EmptyString) false
    [fun _ => redirect redirPort] EmptyString [] 0 (s_Timeouts cfg) EmptyString false.

(** The loop over the configs as they were, and the list that grows *)
Fixpoint redirects (i : nat) (l allConfigs : list SiteConfig) : list SiteConfig :=
  match l with
  | [] => allConfigs
  | cfg :: l' =>
      redirects (S i) l'
        (if Tls.Managed (TLS cfg) && negb (hostHasOtherPort allConfigs i (a_Host (Addr cfg)) (Itoa HTTPPort)) &&
            (bool_decide (a_Port (Addr cfg) = Itoa HTTPSPort) || negb (hostHasOtherPort allConfigs i (a_Host (Addr cfg)) (Itoa HTTPSPort)))
         then (allConfigs ++ [redirPlaintextHost cfg])%list else allConfigs)
  end.

Definition makePlaintextRedirects (allConfigs : list SiteConfig) : list SiteConfig := redirects 0 allConfigs allConfigs.

(** *** Servers *)

(** What MakeServers does with one config *)
Definition adjust (cfg : SiteConfig) : SiteConfig + string :=
  if negb (Tls.Enabled (TLS cfg)) then inl cfg
  else
    let cfg :=
      if bool_decide (a_Port (Addr cfg) = Itoa HTTPPort) || bool_decide (a_Scheme (Addr cfg) = "http")
      then set_TLS (Tls.set_Enabled false (TLS cfg)) cfg
      else if decide (a_Scheme (Addr cfg) = EmptyString) then set_Addr (set_a_Scheme "https" (Addr cfg)) cfg
      else cfg in
    let cfg :=
      if bool_decide (a_Port (Addr cfg) = EmptyString) &&
         ((negb (Tls.Manual (TLS cfg)) && negb (Tls.SelfSigned (TLS cfg))) || Tls.OnDemand (TLS cfg))
      then set_Addr (set_a_Port (Itoa HTTPSPort) (Addr cfg)) cfg else cfg in
    if decide (Tls.ClientAuth (TLS cfg) <> Tls.NoClientCert) then
      if QUIC then inr "cannot enable TLS client authentication with QUIC, because QUIC does not yet support it"
      else inl (set_Strict cfg)
    else inl cfg.

Fixpoint adjust_all (l : list SiteConfig) : list SiteConfig + string :=
  match l with
  | [] => inl []
  | cfg :: l' =>
      match adjust cfg with
      | inr e => inr e
      | inl cfg => match adjust_all l' with inl l => inl (cfg :: l) | inr e => inr e end
      end
  end.

(** The groups in the order their addresses are met *)
Fixpoint add_to_group (addr : string) (cfg : SiteConfig) (groups : list (string * list SiteConfig)) : list (string * list SiteConfig) :=
  match groups with
  | [] => [(addr, [cfg])]
  | (a, l) :: rest => if decide (a = addr) then (a, l ++ [cfg])%list :: rest else (a, l) :: add_to_group addr cfg rest
  end.

Fixpoint group_loop (configs : list SiteConfig) (groups : list (string * list SiteConfig)) : list (string * list SiteConfig) + string :=
  match configs with
  | [] => inl groups
  | conf :: rest =>
      let conf := if decide (a_Port (Addr conf) = EmptyString) then set_Addr (set_a_Port Port (Addr conf)) conf else conf in
      match ResolveTCPAddr (JoinHostPort (ListenHost conf) (a_Port (Addr conf))) with
      | inr e => inr e
      | inl addr => group_loop rest (add_to_group addr conf groups)
      end
  end.

Definition groupSiteConfigsByListenAddr (configs : list SiteConfig) : list (string * list SiteConfig) + string := group_loop configs [].

(** A server: its address, sites, the sites with their handlers in the trie, the
    TLS configs by name, the protocols, and the settings of the HTTP server *)
Record Server := mkServer {
  sv_Addr : string; sites : list SiteConfig; vhosts : root (SiteConfig * H); tls_group : option (gmap string Tls.Config);
  sv_NextProtos : list string; sv_Timeouts : Timeouts; MaxHeaderBytes : Z
}.

Definition defaultALPN : list string := ["h2"; "http/1.1"].

Definition with_ALPN (cfg : SiteConfig) : SiteConfig :=
  if HTTP2 && bool_decide (Tls.ALPN (TLS cfg) = []) then set_TLS (Tls.set_ALPN defaultALPN (TLS cfg)) cfg else cfg.

(** makeTLSConfig: the sites with their changed configs, and the group *)
Definition makeTLSConfig (group : list SiteConfig) : (list SiteConfig * option (gmap string Tls.Config)) + string :=
  let group := with_ALPN <$> group in
  match Tls.MakeTLSConfig preferredCiphers LoadCA (TLS <$> group) with
  | inr e => inr e
  | inl (cfgs, g) => inl (zip_with (fun c s => set_TLS c s) cfgs group, g)
  end.

Definition getFallbacks (group : list SiteConfig) : list string :=
  omap (fun sc => if FallbackSite sc then Some (a_Host (Addr sc)) else None) group.

Definition header_limit (min limit : Z) : Z :=
  if decide (limit = 0) then min
  else let min := if decide (min = 0) then limit else min in if decide (limit < min) then limit else min.

Definition makeHTTPServerWithHeaderLimit (group : list SiteConfig) : Z :=
  let min := fold_left header_limit (MaxRequestHeaderSize <$> group) 0 in if decide (min > 0) then min else 0.

(** One timeout: the least that is set *)
Definition least (acc cfg : Z * bool) : Z * bool :=
  if cfg.2 && (negb acc.2 || bool_decide (cfg.1 < acc.1)) then (cfg.1, true) else acc.

Definition least_of (f : Timeouts -> Z * bool) (default : Z) (group : list SiteConfig) : Z :=
  let min := fold_left least ((fun s => f (s_Timeouts s)) <$> group) (0, false) in if min.2 then min.1 else default.

Definition makeHTTPServerWithTimeouts (group : list SiteConfig) : Timeouts :=
  mkTimeouts
    (least_of (fun t => (ReadTimeout t, ReadTimeoutSet t)) (ReadTimeout defaultTimeouts) group) false
    (least_of (fun t => (ReadHeaderTimeout t, ReadHeaderTimeoutSet t)) (ReadHeaderTimeout defaultTimeouts) group) false
    (least_of (fun t => (WriteTimeout t, WriteTimeoutSet t)) (WriteTimeout defaultTimeouts) group) false
    (least_of (fun t => (IdleTimeout t, IdleTimeoutSet t)) (IdleTimeout defaultTimeouts) group) false.

(** The middleware of a site around its file server, the first one outside *)
Definition middlewareChain (s : SiteConfig) : H := fold_right (fun m stack => m stack) (FileServer (s_Root s) (HiddenFiles s)) (middleware s).

Definition NewServer (addr : string) (group : list SiteConfig) : Server + string :=
  match makeTLSConfig group with
  | inr e => inr e
  | inl (group', tls) =>
      let fallback := (fallbackHosts (newVHostTrie (S := SiteConfig * H)) ++ getFallbacks group)%list in
      let vhosts := inserts ((fun s => (VHostOf (Addr s), (s, middlewareChain s))) <$> group') (mkRoot fallback ∅) in
      inl (mkServer addr group' vhosts tls (match tls with Some _ => if HTTP2 then defaultALPN else [] | None => [] end)
             (makeHTTPServerWithTimeouts group) (makeHTTPServerWithHeaderLimit group))
  end.

Fixpoint new_servers (groups : list (string * list SiteConfig)) : list Server + string :=
  match groups with
  | [] => inl []
  | (addr, group) :: rest =>
      match NewServer addr group with
      | inr e => inr e
      | inl s => match new_servers rest with inl l => inl (s :: l) | inr e => inr e end
      end
  end.

(** MakeServers; [order] is the order of the map of the groups. *)
Definition MakeServers (order : list (string * list SiteConfig) -> list (string * list SiteConfig)) (h : httpContext) : list Server + string :=
  match adjust_all (siteConfigs h) with
  | inr e => inr e
  | inl configs =>
      match groupSiteConfigsByListenAddr configs with
      | inr e => inr e
      | inl groups => new_servers (order groups)
      end
  end.

(** *** Requests *)

Record request := mkRequest { r_Host : string; r_URL : URL; ServerName : option string; ProtoMajor : Z }.

(** What becomes of a request: the answer to a challenge, no such site, refused,
    or passed to the handler of a site *)
Inductive served := Challenge | NoSuchSite (status : Z) | Forbidden | Passed (site : SiteConfig) (handler : H) (u : URL).

Definition trimPathPrefix (u : URL) (prefix : string) : URL :=
  let trimmedPath := TrimPrefix (EscapedPath u) prefix in
  let trimmedPath := if HasPrefix trimmedPath "/" then trimmedPath else "/" +:+ trimmedPath in
  let trimmedURI := if negb (bool_decide (RawQuery u = EmptyString)) || ForceQuery u then trimmedPath +:+ "?" +:+ RawQuery u else trimmedPath in
  let trimmedURI := if decide (Fragment u = EmptyString) then trimmedURI else trimmedURI +:+ "#" +:+ Fragment u in
  match Parse trimmedURI with inl v => v | inr _ => u end.

(** The host of a request without its port *)
Definition hostname_of (r : request) : string := match SplitHostPort (r_Host r) with Some (h, _) => h | None => r_Host r end.

(** serveHTTP; [challenge] says whether the certificate manager of a site
    answers the request. *)
Definition serveHTTP (challenge : SiteConfig -> request -> bool) (s : Server) (r : request) : served :=
  let hostname := hostname_of r in
  match Match (vhosts s) (hostname +:+ NetUrl.Path (r_URL r)) with
  | (None, _) =>
      if match sites s with site :: _ => challenge site r | [] => false end then Challenge
      else NoSuchSite (if decide (ProtoMajor r >= 2) then 421 else 404)
  | (Some (vhost, handler), pathPrefix) =>
      if challenge vhost r then Challenge
      else
        let u := if decide (pathPrefix = "/") then r_URL r else trimPathPrefix (r_URL r) pathPrefix in
        if StrictHostMatching vhost && match ServerName r with Some sni => negb (bool_decide (ToLower sni = ToLower hostname)) | None => false end
        then Forbidden
        else Passed vhost handler u
  end.
End Sites.
End Sites.

(** ** Paths (path.go, server.go) *)

Definition Path_Matches (CaseSensitivePath : bool) (p base : string) : bool :=
  if bool_decide (base = "/") || bool_decide (base = EmptyString) then true
  else
    let p' := if HasSuffix p "/" then PathClean p +:+ "/" else PathClean p in
    let base' := if HasSuffix base "/" then PathClean base +:+ "/" else PathClean base in
    if CaseSensitivePath then HasPrefix p' base' else HasPrefix (ToLower p') (ToLower base').

Definition SafePath (siteRoot reqPath : string) : string :=
  let reqPath := StrReplace reqPath (String "000" EmptyString) EmptyString in
  let siteRoot := if decide (siteRoot = EmptyString) then "." else siteRoot in
  PathJoin [siteRoot; PathClean ("/" +:+ reqPath)].
