(* ===== verification/HttpSites.v ===== *)
(** Theorems about the sites and servers of HttpServer.v: addresses are distinct,
    the client authentication of a site is not bypassed, settings of a listener
    are the strictest of its sites, and paths stay below their root. *)
From S2P Require Import Prelude GoText NetUrl HttpServer.
From Stdlib Require Import ZArith Lia Ascii.
From stdpp Require Import base gmap strings list.

Open Scope Z_scope.
Open Scope string_scope.

(** ** TLS configurations of a listener *)

Section TlsLemmas.
Import Tls.
Context (preferredCiphers : list Z) (LoadCA : string -> error).

(** The final config asks for the certificates that the config does. *)
Definition made (c : Config) : Prop :=
  exists t, tlsConfig c = Some t /\ t_ClientAuth t = ClientAuth c /\
    ClientCAs t = if decide (ClientAuth c = NoClientCert) then [] else unique [] (ClientCerts c).

Definition same (c c' : Config) : Prop :=
  Hostname c' = Hostname c /\ Enabled c' = Enabled c /\ ClientAuth c' = ClientAuth c /\ ClientCerts c' = ClientCerts c.

Lemma build_made c c' : buildStandardTLSConfig preferredCiphers LoadCA c = inl c' -> same c c' /\ (Enabled c = true -> made c').
Proof.
  unfold buildStandardTLSConfig. destruct (Enabled c) eqn:E; cbn [negb]; [|by intros [= <-]].
  destruct (first_error _ _); [done|]. intros [= <-]. split; [done|]. intros _. by eexists.
Qed.

(** Two configs ask for the same certificates. *)
Definition agree (c c' : Config) : Prop :=
  ClientAuth c' = ClientAuth c /\ (ClientAuth c <> NoClientCert -> ClientCerts c' = ClientCerts c).

Lemma compatible_agree c c' : assertConfigsCompatible c c' = None -> made c -> made c' -> agree c c'.
Proof.
  intros H (t & Ht & Ha & _) (t' & Ht' & Ha' & _). unfold assertConfigsCompatible in H. rewrite Ht, Ht' in H.
  repeat (case_decide; [done|]). unfold assertClientCertsCompatible in H. case_decide; [done|]. unfold agree. rewrite <- Ha, <- Ha'.
  split; [congruence|]. intros Hne. repeat case_decide; congruence.
Qed.

(** The group of the configs so far *)
Definition group_ok (l : list Config) (g : gmap string Config) : Prop :=
  (forall c, c ∈ l -> exists c', g !! Hostname c = Some c' /\ agree c c') /\
  (forall k c, g !! k = Some c -> c ∈ l /\ Hostname c = k) /\ Forall made l.

Definition ordinary (c : Config) : Prop := Hostname c <> "0.0.0.0" /\ Hostname c <> "::".

Lemma group_ok_add l g c :
  group_ok l g -> made c -> (forall c', g !! Hostname c = Some c' -> agree c c') -> group_ok (l ++ [c]) (<[Hostname c := c]> g).
Proof.
  intros (Hin & Hkey & Hm) Hc Hagree. split_and!.
  - intros d [Hd| ->%list_elem_of_singleton]%elem_of_app; [|exists c; by rewrite lookup_insert, decide_True].
    destruct (Hin d Hd) as (d' & Hd' & Hag). destruct (decide (Hostname c = Hostname d)) as [He|He].
    + exists c. rewrite He, lookup_insert, decide_True by done. split; [done|]. destruct (Hagree d') as [H1 H2]; [by rewrite He|].
      destruct Hag as [H3 H4]. unfold agree in *. split; [congruence|]. intros Hne. rewrite <- H4 by done. symmetry. apply H2. congruence.
    + exists d'. by rewrite lookup_insert_ne.
  - intros k d. destruct (decide (Hostname c = k)) as [<-|He].
    + rewrite lookup_insert, decide_True by done. intros [= <-]. split; [|done]. apply elem_of_app. right. by apply list_elem_of_singleton.
    + rewrite lookup_insert_ne by done. intros [Hd Hk]%Hkey. split; [|done]. apply elem_of_app. by left.
  - apply Forall_app. by split; [|constructor].
Qed.

Lemma make_loop_ok configs prev l0 g l g' :
  make_loop preferredCiphers LoadCA configs prev g = inl (l, g') -> Forall ordinary configs -> Forall (fun c => Enabled c = true) configs ->
  group_ok l0 g -> group_ok (l0 ++ l) g'.
Proof.
  revert prev l0 g l g'. induction configs as [|c configs IH]; intros prev l0 g l g'; cbn [make_loop].
  { intros [= <- <-] _ _ Hg. by rewrite app_nil_r. }
  destruct (multiplex prev c); [done|]. destruct (buildStandardTLSConfig _ _ c) as [c'|] eqn:Hb; [|done].
  apply build_made in Hb as [Hs Hm]. intros H Hord Hen Hg. inversion_clear Hord as [|? ? Ho Hord']. inversion_clear Hen as [|? ? He Hen'].
  destruct (match g !! Hostname c' with Some other => assertConfigsCompatible c' other | None => None end) eqn:Hcomp; [done|].
  assert (Hhost : Hostname c' = Hostname c) by apply Hs. rewrite !bool_decide_false in H by (rewrite Hhost; apply Ho). cbn [orb] in H.
  destruct (make_loop _ _ configs (Some c') _) as [[l' g'']|] eqn:Hrec; [|done]. injection H as <- <-.
  change (l0 ++ c' :: l')%list with (l0 ++ [c'] ++ l')%list. rewrite app_assoc. apply (IH _ (l0 ++ [c'])%list _ _ _ Hrec Hord' Hen').
  apply group_ok_add; [done | by apply Hm |]. intros d Hd. rewrite Hd in Hcomp. apply compatible_agree; [done | by apply Hm |].
  destruct Hg as (_ & Hk & Hall). apply Hk in Hd as [Hd _]. by apply (proj1 (Forall_forall _ _) Hall).
Qed.

Lemma make_loop_same configs prev g l g' : make_loop preferredCiphers LoadCA configs prev g = inl (l, g') -> Forall2 same configs l.
Proof.
  revert prev g l g'. induction configs as [|c configs IH]; intros prev g l g'; cbn [make_loop]; [intros [= <- _]; constructor|].
  destruct (multiplex prev c); [done|]. destruct (buildStandardTLSConfig _ _ c) as [c'|] eqn:Hb; [|done].
  apply build_made in Hb as [Hs _]. destruct (match g !! Hostname c' with Some other => _ | None => None end); [done|].
  destruct (make_loop _ _ configs (Some c') _) as [[l' g'']|] eqn:Hrec; [|done]. intros [= <- _]. constructor; [done|]. by eapply IH.
Qed.

Lemma make_loop_enabled configs prev g l g' :
  make_loop preferredCiphers LoadCA configs prev g = inl (l, g') ->
  Forall (fun c => Enabled c = match prev with Some p => Enabled p | None => match l with c0 :: _ => Enabled c0 | [] => true end end) configs.
Proof.
  revert prev g l g'. induction configs as [|c configs IH]; intros prev g l g'; cbn [make_loop]; [by intros _|].
  destruct (multiplex prev c) eqn:Hmx; [done|]. destruct (buildStandardTLSConfig _ _ c) as [c'|] eqn:Hb; [|done].
  apply build_made in Hb as [(_ & Hs & _) _]. destruct (match g !! Hostname c' with Some other => _ | None => None end); [done|].
  destruct (make_loop _ _ configs (Some c') _) as [[l' g'']|] eqn:Hrec; [|done]. intros [= <- <-]. apply IH in Hrec.
  assert (Hc : Enabled c = match prev with Some p => Enabled p | None => Enabled c' end).
  { destruct prev as [p|]; [|done]. unfold multiplex in Hmx. by case_bool_decide. }
  constructor; [done|]. eapply Forall_impl; [exact Hrec|]. intros d Hd. cbn beta in Hd. destruct prev; congruence.
Qed.
End TlsLemmas.

(** ** Servers *)

Lemma find_app {A} (P : A -> bool) l k : List.find P (l ++ k) = match List.find P l with Some x => Some x | None => List.find P k end.
Proof. induction l as [|x l IH]; [done|]. cbn. by destruct (P x). Qed.

Lemma find_nothing {A} (P : A -> bool) l : (forall x, x ∈ l -> P x = false) -> List.find P l = None.
Proof.
  induction l as [|x l IH]; intros Ha; [done|]. cbn. rewrite Ha by (apply elem_of_cons; by left). apply IH. intros y Hy.
  apply Ha, elem_of_cons. by right.
Qed.

Lemma pick_by {A} (P : string -> bool) (m : gmap string A) l :
  (forall k, is_Some (m !! k) <-> P k = true) -> pick m l = match List.find P l with Some n => m !! n | None => None end.
Proof.
  intros Hm. induction l as [|n l IH]; [done|]. cbn [pick List.find]. destruct (P n) eqn:E.
  - apply Hm in E as [x Hx]. by rewrite Hx.
  - destruct (m !! n) as [x|] eqn:Hx; [|done]. enough (P n = true) by congruence. apply Hm. by rewrite Hx.
Qed.

Lemma ToLower_empty s : ToLower s = EmptyString -> s = EmptyString.
Proof. by destruct s. Qed.

Section Vhosts.
Import VHost.
Context {S : Type}.

Lemma site_at_In (sites : list (string * S)) n p x : site_at sites n p = Some x -> exists k, (k, x) ∈ sites /\ splitHostPath k = (n, p).
Proof.
  induction sites as [|[k s] sites IH]; [done|]. cbn. destruct (site_at sites n p) as [y|].
  - intros [= ->]. destruct (IH eq_refl) as (k' & Hk & Hs). exists k'. split; [apply elem_of_cons; by right | done].
  - case_decide; [|done]. intros [= ->]. exists k. split; [apply elem_of_cons; by left | done].
Qed.

Lemma has_host_In (sites : list (string * S)) n : has_host sites n = true <-> exists k x, (k, x) ∈ sites /\ (splitHostPath k).1 = n.
Proof.
  unfold has_host. rewrite existsb_exists. split.
  - intros ([k x] & Hin & Hn%bool_decide_eq_true). exists k, x. split; [by apply list_elem_of_In | done].
  - intros (k & x & Hin & Hn). exists (k, x). split; [by apply list_elem_of_In | by apply bool_decide_eq_true].
Qed.

Lemma splitHostPath_plain hostname path :
  no_char "/" hostname = true -> (path = EmptyString \/ HasPrefix path "/" = true) -> SplitHostPort (ToLower hostname) = None ->
  (splitHostPath (hostname +:+ path)).1 = ToLower hostname.
Proof.
  intros Hno Hp Hs. unfold splitHostPath. destruct Hp as [->|(t & ->)%HasPrefix_inv].
  - by rewrite str_app_nil_r, cut_at_none, Hs.
  - change ("/" +:+ t) with (String "/" t). by rewrite cut_at_app, Hs.
Qed.
End Vhosts.

Section Servers.
Import VHost Sites.
Context {H : Type} (FileServer : string -> list string -> H).
Context (HTTPPort HTTPSPort : Z) (Port : string) (HTTP2 QUIC : bool).
Context (Parse : string -> URL + string) (preferredCiphers : list Z) (LoadCA : string -> error).
Context (NormalizedName : string -> string) (DefaultServerName : string) (ResolveTCPAddr : string -> string + string).

Local Abbreviation site := (@SiteConfig H).
Local Abbreviation server := (@Server H).
Local Abbreviation newServer := (NewServer FileServer HTTP2 preferredCiphers LoadCA).

(** A site that asks for client certificates compares the names. *)
Definition guarded (s : site) : Prop :=
  Tls.Enabled (TLS s) = true -> Tls.ClientAuth (TLS s) <> Tls.NoClientCert -> StrictHostMatching s = true.

Lemma adjust_guarded (s s' : site) : adjust HTTPPort HTTPSPort QUIC s = inl s' -> guarded s'.
Proof.
  unfold adjust, guarded. destruct (Tls.Enabled (TLS s)) eqn:E; cbn [negb]; [|intros [= <-]; congruence].
  set (s1 := if _ || _ then _ else _). set (s2 := if _ && _ then _ else s1). clearbody s2. case_decide as Hc; [|intros [= <-] _ ?; done].
  destruct QUIC; [done|]. by intros [= <-].
Qed.

Lemma adjust_all_guarded (l l' : list site) : adjust_all HTTPPort HTTPSPort QUIC l = inl l' -> Forall guarded l'.
Proof.
  revert l'. induction l as [|s l IH]; intros l'; cbn; [intros [= <-]; constructor|].
  destruct (adjust _ _ _ s) as [s'|] eqn:Ha; [|done]. destruct (adjust_all _ _ _ l) as [k|]; [|done]. intros [= <-].
  constructor; [by eapply adjust_guarded | by apply IH].
Qed.

Lemma add_to_group_Forall (P : site -> Prop) addr s groups :
  P s -> Forall (fun g => Forall P g.2) groups -> Forall (fun g => Forall P g.2) (add_to_group addr s groups).
Proof.
  intros Hs Hg. induction Hg as [|[a l] groups Hl Hg IH]; cbn [add_to_group]; [by repeat constructor|].
  case_decide; constructor; cbn in *; [|done..|done]. apply Forall_app. by split; [|constructor].
Qed.

Lemma group_loop_Forall (P : site -> Prop) configs groups groups' :
  (forall s p, P s -> P (set_Addr (set_a_Port p (Addr s)) s)) ->
  group_loop Port ResolveTCPAddr configs groups = inl groups' -> Forall P configs -> Forall (fun g => Forall P g.2) groups ->
  Forall (fun g => Forall P g.2) groups'.
Proof.
  intros HP. revert groups. induction configs as [|s configs IH]; intros groups; cbn [group_loop]; [by intros [= <-]|].
  set (s' := if decide (a_Port (Addr s) = EmptyString) then _ else s). destruct (ResolveTCPAddr _); [|done].
  intros Hl Hc Hg. inversion_clear Hc. apply (IH _ Hl); [done|]. apply add_to_group_Forall; [|done].
  unfold s'. case_decide; [by apply HP | done].
Qed.

(** A server that was made: its sites are those of the group with other TLS
    configs, and its trie holds them. *)
Definition site_host (s : site) : string := (splitHostPath (VHostOf (Addr s))).1.

Definition entries (srv : server) : list (string * (site * H)) :=
  (fun s => (VHostOf (Addr s), (s, middlewareChain FileServer s))) <$> sites srv.

Lemma zip_TLS (group : list site) cfgs :
  Forall2 same (TLS <$> group) cfgs -> TLS <$> zip_with set_TLS cfgs group = cfgs /\
  FallbackSite <$> zip_with set_TLS cfgs group = FallbackSite <$> group /\
  (Forall guarded group -> Forall guarded (zip_with set_TLS cfgs group)).
Proof.
  revert cfgs. induction group as [|s group IH]; intros cfgs; inversion_clear 1 as [|? c ? cs Hs Hrec]; [by split_and!; [..|constructor]|].
  destruct (IH _ Hrec) as (H1 & H2 & H3). cbn [zip_with fmap list_fmap]. rewrite H1, H2. split_and!; [done..|].
  intros Hg. inversion_clear Hg as [|? ? Hgs Hgl]. constructor; [|by apply H3]. destruct Hs as (_ & He & Hc & _).
  unfold guarded in *. cbn. rewrite He, Hc. done.
Qed.

Lemma NewServer_shape addr group srv :
  newServer addr group = inl srv ->
  exists cfgs g,
    Tls.make_loop preferredCiphers LoadCA (TLS <$> (with_ALPN HTTP2 <$> group)) None ∅ = inl (cfgs, g) /\
    sites srv = zip_with set_TLS cfgs (with_ALPN HTTP2 <$> group) /\
    vhosts srv = inserts (entries srv) (mkRoot (["0.0.0.0"; "[::]"; EmptyString] ++ getFallbacks group) ∅) /\
    (forall g', tls_group srv = Some g' -> g' = g /\ exists c l, cfgs = c :: l /\ Tls.Enabled c = true).
Proof.
  unfold NewServer, makeTLSConfig, Tls.MakeTLSConfig. destruct (Tls.make_loop _ _ _ _ _) as [[cfgs g]|]; [|done].
  intros Hs. exists cfgs, g. split; [done|]. destruct cfgs as [|c l].
  { injection Hs as <-. cbn. split_and!; [done..|]. by intros g' [=]. }
  destruct (Tls.Enabled c) eqn:E; injection Hs as <-; (split_and!; [done..|]).
  - intros g' [= <-]. split; [done|]. by exists c, l.
  - by intros g' [=].
Qed.

Lemma with_ALPN_guarded group : Forall guarded group -> Forall guarded (with_ALPN HTTP2 <$> group).
Proof.
  intros Hg. apply Forall_fmap. eapply Forall_impl; [exact Hg|]. intros s Hs. unfold guarded, compose, with_ALPN in *. by destruct (_ && _).
Qed.

Lemma server_of_group groups servers srv :
  new_servers FileServer HTTP2 preferredCiphers LoadCA groups = inl servers -> srv ∈ servers ->
  exists addr group, (addr, group) ∈ groups /\ newServer addr group = inl srv.
Proof.
  revert servers. induction groups as [|[addr group] groups IH]; intros servers; cbn [new_servers]; [intros [= <-] ?%not_elem_of_nil; done|].
  destruct (newServer addr group) as [s|] eqn:Hs; [|done]. destruct (new_servers _ _ _ _ groups) as [l|]; [|done].
  intros [= <-] [->|Hin]%elem_of_cons.
  - exists addr, group. split; [apply elem_of_cons; by left | done].
  - destruct (IH l eq_refl Hin) as (a & k & Hk & Hn). exists a, k. split; [apply elem_of_cons; by right | done].
Qed.

Lemma getFallbacks_none (group : list site) : FallbackSite <$> group = replicate (length group) false -> getFallbacks group = [].
Proof. induction group as [|s group IH]; [done|]. cbn. intros [= -> Hg]. by apply IH. Qed.

(** The names that a host can fall back to *)
Definition reserved : list string := ("::" :: "*" :: names "0.0.0.0" ++ names "[::]")%list.

(** No site is a fallback, each has the TLS config of its own host, and none is
    the site of a reserved name. *)
Definition plain_sites (srv : server) : Prop :=
  Forall (fun s => FallbackSite s = false /\ Tls.Hostname (TLS s) = site_host s /\ site_host s ∉ reserved) (sites srv).

Lemma has_host_entries srv n : has_host (entries srv) n = true <-> exists s, s ∈ sites srv /\ site_host s = n.
Proof.
  rewrite has_host_In. unfold entries. split.
  - intros (k & x & (s & [= -> ->] & Hs)%list_elem_of_fmap & Hn). by exists s.
  - intros (s & Hs & Hn). eexists _, _. split; [apply list_elem_of_fmap; by exists s | done].
Qed.

(** The group of a plain listener has the configs of its sites. *)
Lemma group_of_sites addr group srv g :
  newServer addr group = inl srv -> plain_sites srv -> tls_group srv = Some g ->
  getFallbacks group = [] /\ group_ok (TLS <$> sites srv) g /\ Forall (fun s => Tls.Enabled (TLS s) = true) (sites srv).
Proof.
  intros Hn Hp Hg. destruct (NewServer_shape _ _ _ Hn) as (cfgs & g0 & Hl & Hs & _ & Htls). destruct (Htls g Hg) as [<- (c & l & Hc & He)].
  pose proof (make_loop_same _ _ _ _ _ _ _ Hl) as Hsame. destruct (zip_TLS _ _ Hsame) as (HT & HF & _). rewrite <- Hs in HT, HF.
  assert (Hen : Forall (fun c => Tls.Enabled c = true) (TLS <$> (with_ALPN HTTP2 <$> group))).
  { eapply Forall_impl; [exact (make_loop_enabled _ _ _ _ _ _ _ Hl)|]. cbn. intros d ->. by rewrite Hc. }
  assert (Hord : Forall ordinary (TLS <$> (with_ALPN HTTP2 <$> group))).
  { eapply Forall2_Forall_l; [exact Hsame|]. rewrite <- HT. apply Forall_fmap. eapply Forall_impl; [exact Hp|].
    intros s (_ & Hh & Hr) d (Hd & _). unfold compose, ordinary in *. rewrite <- Hd, Hh.
    split; intros Hx; apply Hr; rewrite Hx; apply list_elem_of_In; vm_compute; tauto. }
  split_and!.
  - apply getFallbacks_none. rewrite <- list_fmap_compose in HF. transitivity (FallbackSite <$> sites srv).
    + rewrite HF. apply list_fmap_ext. intros _ s _. unfold compose, with_ALPN. by destruct (_ && _).
    + assert (Hlen : length group = length (sites srv)).
      { apply (f_equal length) in HF. by rewrite !length_fmap in HF. }
      rewrite Hlen. clear -Hp. unfold plain_sites in Hp. induction Hp as [|s l [Hf _] _ IH]; [done|]. cbn. by rewrite Hf, IH.
  - rewrite HT. apply (make_loop_ok _ _ _ _ [] _ _ _ Hl Hord Hen). split_and!; [by intros ? ?%not_elem_of_nil | | constructor].
    intros k d. by rewrite lookup_empty.
  - assert (HE : Forall (fun c => Tls.Enabled c = true) (TLS <$> sites srv)); [|by apply Forall_fmap in HE].
    rewrite HT. eapply Forall2_Forall_r; [exact Hsame|]. eapply Forall_impl; [exact Hen|]. by intros d Hd d' (_ & -> & _).
Qed.

Lemma server_guarded order (h : httpContext) servers srv :
  (forall l, order l ≡ₚ l) ->
  MakeServers FileServer HTTPPort HTTPSPort Port HTTP2 QUIC preferredCiphers LoadCA ResolveTCPAddr order h = inl servers -> srv ∈ servers ->
  exists addr group, newServer addr group = inl srv /\ Forall guarded (sites srv).
Proof.
  intros Horder. unfold MakeServers. destruct (adjust_all _ _ _ _) as [configs|] eqn:Ha; [|done].
  destruct (groupSiteConfigsByListenAddr _ _ _) as [groups|] eqn:Hg; [|done]. intros Hn Hsrv.
  destruct (server_of_group _ _ _ Hn Hsrv) as (addr & group & Hin & Hnew). exists addr, group. split; [done|].
  assert (Hgs : Forall (fun g => Forall guarded g.2) groups).
  { eapply (group_loop_Forall guarded); [|exact Hg|by eapply adjust_all_guarded|constructor]. by intros s p Hs. }
  rewrite Horder in Hin. pose proof (proj1 (Forall_forall _ _) Hgs _ Hin) as Hgr. cbn in Hgr.
  destruct (NewServer_shape _ _ _ Hnew) as (cfgs & g & Hl & -> & _ & _).
  apply (zip_TLS _ _ (make_loop_same _ _ _ _ _ _ _ Hl)). by apply with_ALPN_guarded.
Qed.

(** The site that a request is passed to *)
Lemma passed_site challenge (srv : server) r (vhost : site) handler u :
  serveHTTP Parse challenge srv r = Passed vhost handler u ->
  (exists p, Match (vhosts srv) (hostname_of r +:+ NetUrl.Path (r_URL r)) = (Some (vhost, handler), p)) /\
  (StrictHostMatching vhost = true -> forall sni, ServerName r = Some sni -> ToLower sni = ToLower (hostname_of r)).
Proof.
  unfold serveHTTP. destruct (Match _ _) as [[[v hd]|] p]; [|by destruct (match sites srv with s :: _ => challenge s r | [] => false end)].
  destruct (challenge v r); [done|]. destruct (StrictHostMatching v) eqn:Es; cbn [andb].
  - destruct (ServerName r) as [sni|].
    + case_bool_decide as Heq; [|done]. cbn [negb]. intros [= -> -> _]. split; [by exists p|]. by intros _ sni' [= <-].
    + intros [= -> -> _]. split; [by exists p | done].
  - intros [= -> -> _]. split; [by exists p|]. congruence.
Qed.

(** On a plain listener the name of the site of a request is also the one under
    which the TLS config of the same server name is found. *)
Lemma name_of_site addr group (srv : server) g r (vhost : site) handler p host :
  newServer addr group = inl srv -> plain_sites srv -> tls_group srv = Some g ->
  (splitHostPath (hostname_of r +:+ NetUrl.Path (r_URL r))).1 = host ->
  Match (vhosts srv) (hostname_of r +:+ NetUrl.Path (r_URL r)) = (Some (vhost, handler), p) ->
  vhost ∈ sites srv /\ pick g (names host ++ [EmptyString]) = g !! Tls.Hostname (TLS vhost).
Proof.
  intros Hn Hplain Hg Hhost HM. destruct (group_of_sites _ _ _ _ Hn Hplain Hg) as (Hfb & Hgo & _).
  destruct (NewServer_shape _ _ _ Hn) as (_ & _ & _ & _ & Hv & _). rewrite Hv, Hfb in HM.
  destruct (splitHostPath _) as [host' path] eqn:Hsplit. cbn in Hhost. subst host'.
  pose proof (match_is_most_specific (entries srv) ["0.0.0.0"; "[::]"; EmptyString] _ host path Hsplit) as Hms. cbn zeta in Hms.
  cbn [app] in HM. rewrite HM in Hms.
  assert (Hres : forall n, n ∈ reserved -> has_host (entries srv) n = false).
  { intros n Hr. apply not_true_iff_false. intros (s & Hs & <-)%has_host_entries.
    apply (proj1 (Forall_forall _ _) Hplain) in Hs as (_ & _ & Hno). done. }
  assert (Hfind : List.find (has_host (entries srv)) (concat (names <$> [host; "0.0.0.0"; "[::]"; EmptyString])) =
    List.find (has_host (entries srv)) (names host ++ [EmptyString])).
  { cbn [fmap list_fmap concat]. rewrite !find_app. destruct (List.find _ (names host)); [done|].
    rewrite (find_nothing _ (names "0.0.0.0")), (find_nothing _ (names "[::]")).
    - cbn. rewrite (Hres "*") by (apply list_elem_of_In; vm_compute; tauto). by destruct (has_host _ EmptyString).
    - intros n Hin. apply Hres. unfold reserved. do 2 (apply elem_of_cons; right). apply elem_of_app. by right.
    - intros n Hin. apply Hres. unfold reserved. do 2 (apply elem_of_cons; right). apply elem_of_app. by left. }
  rewrite Hfind in Hms. destruct Hgo as (Hin & Hkey & _).
  assert (Hsome : forall k, is_Some (g !! k) <-> has_host (entries srv) k = true).
  { intros k. rewrite has_host_entries. split.
    - intros [c Hc]. apply Hkey in Hc as [(s & -> & Hs)%list_elem_of_fmap Hk]. exists s. split; [done|].
      apply (proj1 (Forall_forall _ _) Hplain) in Hs as (_ & <- & _). done.
    - intros (s & Hs & <-). destruct (proj1 (Forall_forall _ _) Hplain s Hs) as (_ & Hh & _). rewrite <- Hh.
      destruct (Hin (TLS s)) as (c & Hc & _); [apply list_elem_of_fmap; by exists s | by rewrite Hc]. }
  rewrite (pick_by _ _ _ Hsome). destruct (List.find _ _) as [n|]; [|done].
  destruct Hms as [[[=] _]|(s & q & [= <- <-] & _ & Hat & _)].
  apply site_at_In in Hat as (k & Hk & Hks). apply list_elem_of_fmap in Hk as (s' & [= -> -> _] & Hs'). split; [done|].
  destruct (proj1 (Forall_forall _ _) Hplain s' Hs') as (_ & -> & _). unfold site_host. by rewrite Hks.
Qed.


(** C9.  The way of a request: a server that is made of a group of sites passes a
    request to the site with the longest path that the path of the request
    begins with, among those of the first name that has sites: the host of the
    request, its wildcards, and the fallback hosts.  The handler is the
    middleware of that site, and the names are compared where the site asks for
    it.  Without such a site the request is answered as not found. *)
Theorem request_reaches_its_site addr group (srv : server) r host path :
  newServer addr group = inl srv -> splitHostPath (hostname_of r +:+ NetUrl.Path (r_URL r)) = (host, path) ->
  let not_found := NoSuchSite (if decide (ProtoMajor r >= 2) then 421 else 404) in
  let best name s p := site_at (entries srv) name p = Some (s, middlewareChain FileServer s) /\ s ∈ sites srv /\ HasPrefix path p = true /\
    forall p', p' <> EmptyString -> HasPrefix path p' = true -> is_Some (site_at (entries srv) name p') -> (String.length p' <= String.length p)%nat in
  let served := serveHTTP Parse (fun _ _ => false) srv r in
  match List.find (has_host (entries srv)) (concat (names <$> host :: ["0.0.0.0"; "[::]"; EmptyString] ++ getFallbacks group)) with
  | None => served = not_found
  | Some name =>
      (served = not_found /\ forall p, p <> EmptyString -> HasPrefix path p = true -> site_at (entries srv) name p = None) \/
      exists s p, best name s p /\
        served = if StrictHostMatching s && match ServerName r with Some sni => negb (bool_decide (ToLower sni = ToLower (hostname_of r))) | None => false end
                 then Forbidden
                 else Passed s (middlewareChain FileServer s) (if decide (p = "/") then r_URL r else trimPathPrefix Parse (r_URL r) p)
  end.
Proof.
  intros Hn Hsplit. cbv zeta. destruct (NewServer_shape _ _ _ Hn) as (_ & _ & _ & _ & Hv & _).
  pose proof (match_is_most_specific (entries srv) (["0.0.0.0"; "[::]"; EmptyString] ++ getFallbacks group) _ host path Hsplit) as Hms.
  cbv zeta in Hms. rewrite <- Hv in Hms. unfold serveHTTP.
  destruct (List.find _ _) as [name|]; [|rewrite Hms; by destruct (sites srv)].
  destruct Hms as [[-> Hno]|([s hd] & p & -> & Hp & Hat & Hmax)]; [left; split; [by destruct (sites srv) | done]|].
  right. destruct (site_at_In _ _ _ _ Hat) as (k & Hk & _). apply list_elem_of_fmap in Hk as (s' & [= _ <- ->] & Hs).
  exists s, p. by split_and!.
Qed.
End Servers.

(** ** The sites of a configuration *)

Section Inspect.
Import Sites.
Context {H : Type} (HTTPPort HTTPSPort : Z) (Host Port Root : string) (CaseSensitivePath : bool).
Context (Parse : string -> URL + string) (IPText : string -> option string) (NewConfigError : error).

Local Abbreviation inspect1 := (inspect_key (H := H) HTTPPort HTTPSPort Host Port Root CaseSensitivePath Parse IPText NewConfigError).
Local Abbreviation inspect := (inspect_keys (H := H) HTTPPort HTTPSPort Host Port Root CaseSensitivePath Parse IPText NewConfigError).
Local Abbreviation nkey := (normalizedKey HTTPPort HTTPSPort CaseSensitivePath Parse IPText).
Local Abbreviation form := (distinct_form HTTPSPort Port).

(** The address of a key, when it can be read *)
Definition address_of (key : string) : option Address :=
  match standardizeAddress HTTPPort HTTPSPort Parse key with
  | inl a => Some (fill_in Host Port (Normalize CaseSensitivePath IPText a))
  | inr _ => None
  end.

(** The context after the keys [done] *)
Definition inspected (done : list string) (h : httpContext (H := H)) (siteAddrs : gmap string string) : Prop :=
  length (siteConfigs h) = length done /\
  (forall i key, done !! i = Some key -> keysToSiteConfigs h !! nkey key = Some i /\ Addr <$> siteConfigs h !! i = address_of key /\ is_Some (address_of key)) /\
  (forall f, is_Some (siteAddrs !! f) <-> f ∈ (form ∘ Addr <$> siteConfigs h)) /\ NoDup (form ∘ Addr <$> siteConfigs h).

Lemma inspect_key_ok sourceFile key keys h siteAddrs h' siteAddrs' :
  inspected keys h siteAddrs -> inspect1 sourceFile key h siteAddrs = inl (h', siteAddrs') -> inspected (keys ++ [key]) h' siteAddrs'.
Proof.
  intros (Hlen & Hkeys & Hforms & Hnd). unfold inspect_key. destruct (standardizeAddress _ _ _ key) as [a|] eqn:Ha; [|done].
  assert (Hk : nkey key = Key (Normalize CaseSensitivePath IPText a)) by (unfold normalizedKey; by rewrite Ha).
  rewrite <- Hk. destruct (keysToSiteConfigs h !! nkey key) eqn:Hnew; [done|].
  set (addr := fill_in Host Port (Normalize CaseSensitivePath IPText a)).
  destruct (siteAddrs !! form addr) eqn:Hf; [done|]. destruct NewConfigError; [done|]. intros [= <- <-].
  unfold inspected. cbn [siteConfigs keysToSiteConfigs saveConfig]. rewrite !length_app, Hlen. cbn [length]. split_and!.
  - done.
  - intros i k Hi. apply lookup_app_Some in Hi as [Hi|[Hge Hi]].
    + destruct (Hkeys i k Hi) as (Hki & Haddr & Hsome). rewrite lookup_insert_ne by (intros Heq; rewrite Heq, Hki in Hnew; done).
      split; [done|]. rewrite lookup_app_l; [done|]. rewrite Hlen. by eapply lookup_lt_Some.
    + destruct (i - length keys)%nat as [|j] eqn:Hj; [|done]. cbn in Hi. injection Hi as <-.
      assert (i = length keys) as -> by lia. rewrite lookup_insert, decide_True by done. split; [done|].
      rewrite <- Hlen, list_lookup_middle by done. unfold address_of. rewrite Ha. split; [done | by eexists].
  - intros f. rewrite fmap_app, elem_of_app, <- Hforms. cbn. rewrite list_elem_of_singleton.
    destruct (decide (f = form addr)) as [->|Hne].
    + rewrite lookup_insert, decide_True by done. split; [by right | by eexists].
    + rewrite lookup_insert_ne by done. naive_solver.
  - rewrite fmap_app. apply NoDup_app. split_and!; [done | | apply NoDup_singleton]. cbn. intros f Hin Hs%list_elem_of_singleton.
    subst f. apply Hforms in Hin as [x Hx]. unfold compose in Hx. cbn in Hx. by rewrite Hx in Hf.
Qed.

Lemma inspect_keys_ok sourceFile keys todo h siteAddrs h' siteAddrs' :
  inspected keys h siteAddrs -> inspect sourceFile todo h siteAddrs = inl (h', siteAddrs') -> inspected (keys ++ todo) h' siteAddrs'.
Proof.
  revert keys h siteAddrs. induction todo as [|key todo IH]; intros keys h siteAddrs Hi; cbn [inspect_keys].
  { intros [= <- <-]. by rewrite app_nil_r. }
  destruct (inspect1 sourceFile key h siteAddrs) as [[h1 s1]|] eqn:E; [|done]. intros Hr.
  change (key :: todo) with ([key] ++ todo)%list. rewrite app_assoc. eapply IH; [|exact Hr]. by eapply inspect_key_ok.
Qed.

(** The sites of a configuration that is accepted: there is one for every
    key of its server blocks, in their order; the directives of a key find its
    site; the address of a site is that of its key; and no two sites have the
    same address. *)
Theorem sites_are_distinct sourceFile blocks (h : httpContext (H := H)) blocks' :
  InspectServerBlocks HTTPPort HTTPSPort Host Port Root CaseSensitivePath Parse IPText NewConfigError sourceFile blocks newContext = inl (h, blocks') ->
  NoDup (form ∘ Addr <$> siteConfigs h) /\
  length (siteConfigs h) = length (concat (Keys <$> blocks)) /\
  forall i key, concat (Keys <$> blocks) !! i = Some key ->
    GetConfig HTTPPort HTTPSPort Root CaseSensitivePath Parse IPText key h = (h, i) /\
    is_Some (address_of key) /\ Addr <$> siteConfigs h !! i = address_of key.
Proof.
  unfold InspectServerBlocks. destruct (inspect _ _ _ _) as [[h1 s1]|] eqn:E; [|done]. intros [= <- _].
  apply (inspect_keys_ok _ []) in E as (Hlen & Hkeys & _ & Hnd).
  - split_and!; [done..|]. intros i key Hi. destruct (Hkeys i key Hi) as (Hk & Ha & Hs). unfold GetConfig. by rewrite Hk.
  - split_and!; [done..| |constructor]. intros f. rewrite lookup_empty. split; [by intros [? ?] | by intros ?%not_elem_of_nil].
Qed.
End Inspect.

(** ** Settings of a listener *)

Section Settings.
Import Sites.

Lemma least_fold l acc :
  let r := fold_left least l acc in
  (r.2 = false -> acc.2 = false /\ Forall (fun x => x.2 = false) l) /\
  (acc.2 = true -> r.2 = true /\ r.1 <= acc.1) /\
  (forall x, x ∈ l -> x.2 = true -> r.2 = true /\ r.1 <= x.1) /\ (r = acc \/ r.2 = true /\ exists x, x ∈ l /\ x.2 = true /\ r.1 = x.1).
Proof.
  cbv zeta. revert acc. induction l as [|y l IH]; intros acc; cbn [fold_left].
  { split_and!; [by split | done | by intros ? ?%not_elem_of_nil | by left]. }
  destruct (IH (least acc y)) as (H1 & H2 & H3 & H4). assert (Hy : y.2 = true -> (least acc y).2 = true /\ (least acc y).1 <= y.1).
  { intros Hy. unfold least. rewrite Hy. cbn [andb]. destruct acc as [a []]; cbn; [case_bool_decide; cbn; split; done || lia | split; done || lia]. }
  assert (Ha : acc.2 = true -> (least acc y).2 = true /\ (least acc y).1 <= acc.1).
  { intros Ha. unfold least. rewrite Ha. destruct y as [b []]; cbn; [case_bool_decide; cbn; split; done || lia | split; done || lia]. }
  assert (Hstep : least acc y = acc \/ y.2 = true /\ least acc y = (y.1, true)) by (unfold least; destruct y as [b []]; cbn; [destruct (_ || _); auto | auto]).
  split_and!.
  - intros Hr. destruct (H1 Hr) as [Hl Hf]. split; [destruct acc as [a []]; [destruct (Ha eq_refl); congruence | done]|].
    constructor; [|done]. destruct (y.2); [destruct (Hy eq_refl); congruence | done].
  - intros Hacc. destruct (Ha Hacc) as [Hl Hle]. destruct (H2 Hl). split; [done | lia].
  - intros x [->|Hx]%elem_of_cons Hs; [|by apply H3]. destruct (Hy Hs) as [Hl Hle]. destruct (H2 Hl). split; [done | lia].
  - destruct H4 as [->|(Hr & x & Hx & Hs & Heq)].
    + destruct Hstep as [->|[Hs ->]]; [by left|]. right. split; [done|]. exists y. split; [apply elem_of_cons; by left | done].
    + right. split; [done|]. exists x. split; [apply elem_of_cons; by right | done].
Qed.

(** The value of a setting is the least of those that are set, and the default
    when none is. *)
Definition least_setting {H : Type} (v d : Z) (f : Timeouts -> Z) (is_set : Timeouts -> bool) (group : list (SiteConfig (H := H))) : Prop :=
  (Forall (fun s => is_set (s_Timeouts s) = false) group /\ v = d) \/
  ((forall s, s ∈ group -> is_set (s_Timeouts s) = true -> v <= f (s_Timeouts s)) /\
   exists s, s ∈ group /\ is_set (s_Timeouts s) = true /\ v = f (s_Timeouts s)).

Lemma least_of_spec {H} f is_set d (group : list (SiteConfig (H := H))) :
  least_setting (least_of (fun t => (f t, is_set t)) d group) d f is_set group.
Proof.
  unfold least_of, least_setting. pose proof (least_fold ((fun s => (f (s_Timeouts s), is_set (s_Timeouts s))) <$> group) (0, false)) as Hl.
  cbv zeta in Hl. set (r := fold_left least _ _) in *. destruct Hl as (H1 & _ & H3 & H4). destruct (r.2) eqn:Hr.
  - right. split.
    + intros s Hs Hset. apply (H3 (f (s_Timeouts s), is_set (s_Timeouts s))); [apply list_elem_of_fmap; by exists s | done].
    + destruct H4 as [H4|(_ & x & (s & -> & Hs)%list_elem_of_fmap & Hset & Heq)]; [by rewrite H4 in Hr | by exists s].
  - left. split; [|done]. destruct (H1 eq_refl) as [_ Hf]. by apply Forall_fmap in Hf.
Qed.

Lemma header_limit_fold l acc :
  Forall (Z.le 0) l -> 0 <= acc ->
  let r := fold_left header_limit l acc in
  0 <= r /\ (r = 0 <-> acc = 0 /\ Forall (eq 0) l) /\ (acc <> 0 -> r <= acc) /\ (forall x, x ∈ l -> x <> 0 -> r <= x) /\ (r = acc \/ r ∈ l).
Proof.
  intros Hl. revert acc. induction Hl as [|x l Hx Hl IH]; intros acc Ha; cbv zeta; cbn [fold_left].
  { split_and!; [lia | naive_solver | lia | by intros ? ?%not_elem_of_nil | by left]. }
  assert (Hs : 0 <= header_limit acc x /\ (header_limit acc x = 0 <-> acc = 0 /\ x = 0) /\ (acc <> 0 -> header_limit acc x <= acc) /\
    (x <> 0 -> header_limit acc x <= x) /\ (header_limit acc x = acc \/ header_limit acc x = x)).
  { unfold header_limit. repeat case_decide; lia. }
  destruct Hs as (Hs0 & Hsz & Hsa & Hsx & Hse). destruct (IH (header_limit acc x) Hs0) as (H0 & Hz & Hle & Hin & He). split_and!.
  - done.
  - rewrite Hz, Hsz, Forall_cons. naive_solver.
  - intros Hne. destruct (decide (header_limit acc x = 0)); lia.
  - intros y [->|Hy]%elem_of_cons Hne; [|by apply Hin]. destruct (decide (header_limit acc x = 0)) as [E|E]; [apply Hsz in E; lia | lia].
  - destruct He as [->|He]; [|right; apply elem_of_cons; by right]. destruct Hse as [->| ->]; [by left | right; apply elem_of_cons; by left].
Qed.

(** The sites of a listener share the settings of its server: a timeout is
    the least of those that are set, or the default, and the limit of headers is
    the least of those that are not zero. *)
Theorem listener_settings_are_least {H : Type} (group : list (SiteConfig (H := H))) :
  Forall (fun s => 0 <= MaxRequestHeaderSize s) group ->
  let t := makeHTTPServerWithTimeouts group in
  least_setting (ReadTimeout t) 0 ReadTimeout ReadTimeoutSet group /\
  least_setting (ReadHeaderTimeout t) 0 ReadHeaderTimeout ReadHeaderTimeoutSet group /\
  least_setting (WriteTimeout t) 0 WriteTimeout WriteTimeoutSet group /\
  least_setting (IdleTimeout t) 300000000000 IdleTimeout IdleTimeoutSet group /\
  let m := makeHTTPServerWithHeaderLimit group in
  (m = 0 <-> Forall (fun s => MaxRequestHeaderSize s = 0) group) /\
  (forall s, s ∈ group -> MaxRequestHeaderSize s <> 0 -> m <= MaxRequestHeaderSize s) /\
  (m = 0 \/ exists s, s ∈ group /\ MaxRequestHeaderSize s = m).
Proof.
  intros Hpos. cbv zeta. do 4 (split; [apply least_of_spec|]). unfold makeHTTPServerWithHeaderLimit.
  destruct (header_limit_fold (MaxRequestHeaderSize <$> group) 0) as (H0 & Hz & _ & Hle & He); [by apply Forall_fmap | lia|].
  set (r := fold_left header_limit _ 0) in *. assert (Hr : (if decide (r > 0) then r else 0) = r) by (case_decide; lia). rewrite Hr.
  split_and!.
  - rewrite Hz, Forall_fmap. split; [intros [_ Hf] | intros Hf; split; [done|]]; (eapply Forall_impl; [exact Hf|]); unfold compose; cbn; intros s; lia.
  - intros s Hs. apply Hle, list_elem_of_fmap. by exists s.
  - destruct He as [?|(s & -> & Hs)%list_elem_of_fmap]; [by left | right; by exists s].
Qed.
End Settings.

(** ** Paths below a root *)

(** The name of a file or a directory *)
Definition plain_name (e : string) : Prop := e <> EmptyString /\ e <> "." /\ e <> ".." /\ no_char "/" e = true.

Definition path_elements (p : string) : list string := reverse (fold_left (clean_element (HasPrefix p "/")) (Split p "/") []).

Definition path_of (rooted : bool) (elems : list string) : string :=
  if rooted then "/" +:+ StrJoin elems "/" else match elems with [] => "." | _ => StrJoin elems "/" end.

Lemma PathClean_elements p : PathClean p = path_of (HasPrefix p "/") (path_elements p).
Proof. done. Qed.

Lemma Split_no_sep c s : Forall (fun e => no_char c e = true) (Split s c).
Proof.
  induction s as [|d s IH]; cbn [Split]; [by repeat constructor|]. case_decide as Hd; [by constructor|].
  destruct (Split s c) as [|e l]; [repeat constructor; cbn; by rewrite bool_decide_true|]. inversion_clear IH. constructor; [|done]. cbn.
  rewrite bool_decide_true by done. done.
Qed.

Lemma Split_concat c s t : Split (s +:+ String c t) c = (Split s c ++ Split t c)%list.
Proof.
  induction s as [|d s IH]; [change (EmptyString +:+ String c t) with (String c t); cbn [Split]; by rewrite decide_True|].
  change (String d s +:+ String c t) with (String d (s +:+ String c t)). cbn [Split]. case_decide; [by rewrite IH|].
  rewrite IH. destruct (Split s c) as [|e l] eqn:E; [|done]. by destruct s; cbn in E; [|case_decide; [|destruct (Split s c)]].
Qed.

Lemma clean_rooted l out :
  Forall (fun e => no_char "/" e = true) l -> Forall plain_name out -> Forall plain_name (fold_left (clean_element true) l out).
Proof.
  intros Hl. revert out. induction Hl as [|e l He Hl IH]; intros out Ho; [done|]. cbn [fold_left]. apply IH. unfold clean_element.
  destruct (decide (e = EmptyString)); [by rewrite bool_decide_true|]. rewrite bool_decide_false by done.
  destruct (decide (e = ".")); [by rewrite bool_decide_true|]. rewrite bool_decide_false by done. cbn [orb].
  destruct (decide (e = "..")).
  - rewrite bool_decide_true by done. destruct out as [|x out]; [done|]. inversion_clear Ho as [|? ? Hx Hr].
    rewrite bool_decide_false by apply Hx. done.
  - rewrite bool_decide_false by done. constructor; [|done]. done.
Qed.

Lemma clean_plain rooted l out : Forall plain_name l -> fold_left (clean_element rooted) l out = (reverse l ++ out)%list.
Proof.
  intros Hl. revert out. induction Hl as [|e l (H1 & H2 & H3 & _) _ IH]; intros out; [done|]. cbn [fold_left]. unfold clean_element at 2.
  rewrite !bool_decide_false by done. cbn [orb]. rewrite IH, reverse_cons, <- app_assoc. done.
Qed.

(** A path that is made safe lies below the root of its site: it is the
    cleaned root followed by names of files and directories, whatever the
    requested path holds. *)
Theorem safe_path_is_below_root siteRoot reqPath :
  let root := if decide (siteRoot = EmptyString) then "." else siteRoot in
  exists below, Forall plain_name below /\
    SafePath siteRoot reqPath = path_of (HasPrefix root "/") (path_elements root ++ below) /\
    PathClean root = path_of (HasPrefix root "/") (path_elements root).
Proof.
  cbv zeta. unfold SafePath. set (root := if decide (siteRoot = EmptyString) then "." else siteRoot).
  set (req := StrReplace reqPath _ _). assert (Hroot : root <> EmptyString) by (unfold root; by case_decide). clearbody root req.
  set (below := path_elements ("/" +:+ req)). exists below.
  assert (Hb : Forall plain_name below).
  { unfold below, path_elements. rewrite (HasPrefix_app "/" req). apply Forall_reverse, clean_rooted; [apply Split_no_sep | constructor]. }
  split; [done|]. split; [|done]. rewrite PathClean_elements, (HasPrefix_app "/" req). fold below. unfold path_of at 1.
  unfold PathJoin. cbn [filter list_filter]. rewrite decide_True by (by apply bool_decide_pack). rewrite decide_True by (by apply bool_decide_pack).
  cbn [StrJoin]. rewrite PathClean_elements. set (p := root +:+ "/" +:+ "/" +:+ StrJoin below "/").
  assert (Hp : HasPrefix p "/" = HasPrefix root "/").
  { unfold p. destruct root as [|c root]; [done|]. assert (Hnil : forall s, HasPrefix s EmptyString = true) by (by intros []).
    cbn [HasPrefix]. change (String c root +:+ ?x) with (String c (root +:+ x)). cbn [HasPrefix String.append]. by rewrite !Hnil. }
  rewrite Hp. f_equal. unfold path_elements at 1. rewrite Hp. unfold p.
  change ("/" +:+ "/" +:+ StrJoin below "/") with (String "/" (String "/" (StrJoin below "/"))). rewrite Split_concat, fold_left_app.
  change (Split (String "/" (StrJoin below "/")) "/") with (EmptyString :: Split (StrJoin below "/") "/"). cbn [fold_left].
  unfold clean_element at 2. rewrite bool_decide_true by done. cbn [orb]. clearbody below. destruct below as [|e l].
  - cbn. by rewrite app_nil_r.
  - rewrite (Split_StrJoin "/" (e :: l)) by (done || (eapply Forall_impl; [exact Hb|]; by intros x (_ & _ & _ & ?))).
    rewrite clean_plain by done. by rewrite reverse_app, reverse_involutive.
Qed.

(** ** Redirections to HTTPS *)

Section Redirects.
Import Sites.
Context {H : Type} (redirect : string -> H) (HTTPPort HTTPSPort : Z).
Local Abbreviation site := (SiteConfig (H := H)).
Local Abbreviation host s := (a_Host (Addr s)).
Local Abbreviation port s := (a_Port (Addr s)).
Local Abbreviation redir := (redirPlaintextHost redirect HTTPPort HTTPSPort).

(** Another site of a host with a port *)
Definition other_site (l : list site) (i : nat) (h p : string) : Prop := exists j s, j <> i /\ l !! j = Some s /\ host s = h /\ port s = p.

Lemma hostHasOtherPort_spec (l : list site) i h p : hostHasOtherPort l i h p = true <-> other_site l i h p.
Proof.
  unfold hostHasOtherPort, other_site. rewrite existsb_exists. split.
  - intros ([j s] & Hin & Hc). apply list_elem_of_In, elem_of_lookup_imap in Hin as (k & s' & [= -> ->] & Hl). cbn in Hc.
    apply andb_true_iff in Hc as [[Hj%negb_true_iff%bool_decide_eq_false Hh%bool_decide_eq_true]%andb_true_iff Hp%bool_decide_eq_true].
    by exists k, s'.
  - intros (j & s & Hj & Hl & <- & <-). exists (j, s). split; [apply list_elem_of_In, elem_of_lookup_imap; by exists j, s|]. cbn.
    by rewrite bool_decide_false, !bool_decide_true.
Qed.

Lemma other_site_app l k i h p : other_site l i h p -> other_site (l ++ k) i h p.
Proof. intros (j & s & Hj & Hl & Hs). exists j, s. split; [done|]. by rewrite lookup_app_l by (by eapply lookup_lt_Some). Qed.

(** A managed site that a redirection leads to *)
Definition wants_redirect (l : list site) (i : nat) (s : site) : Prop :=
  Tls.Managed (TLS s) = true /\ (port s = Itoa HTTPSPort \/ ~ other_site l i (host s) (Itoa HTTPSPort)).

Lemma redirects_ok all i l extra :
  Itoa HTTPPort <> Itoa HTTPSPort -> l = drop i all ->
  Forall (fun e => exists s, s ∈ all /\ Tls.Managed (TLS s) = true /\ e = redir s) extra -> NoDup (a_Host ∘ Addr <$> extra) ->
  exists extra', redirects redirect HTTPPort HTTPSPort i l (all ++ extra) = (all ++ extra ++ extra')%list /\
    Forall (fun e => exists s, s ∈ all /\ Tls.Managed (TLS s) = true /\ e = redir s) (extra ++ extra') /\
    NoDup (a_Host ∘ Addr <$> (extra ++ extra')%list) /\
    forall j s, (i <= j)%nat -> all !! j = Some s -> wants_redirect all j s -> other_site (all ++ extra ++ extra') j (host s) (Itoa HTTPPort).
Proof.
  intros Hports. revert i extra. induction l as [|s l IH]; intros i extra Hd Hex Hnd; cbn [redirects].
  { exists []. rewrite !app_nil_r. split_and!; [done..|]. intros j s Hj Hs%lookup_lt_Some. apply (f_equal length) in Hd.
    rewrite length_drop in Hd. cbn in Hd. lia. }
  assert (Hi : all !! i = Some s) by (by rewrite <- (Nat.add_0_r i), <- lookup_drop, <- Hd).
  assert (Hd' : l = drop (S i) all) by (pose proof (drop_S all s i Hi); congruence).
  assert (Hlt : (i < length all)%nat) by (by eapply lookup_lt_Some).
  (* the redirections have the other port, so that they do not count for HTTPS *)
  assert (Hsecure : other_site (all ++ extra) i (host s) (Itoa HTTPSPort) <-> other_site all i (host s) (Itoa HTTPSPort)).
  { split; [|apply other_site_app]. intros (j & t & Hj & Ht & Hh & Hp). exists j, t. split; [done|].
    apply lookup_app_Some in Ht as [Ht|[_ Ht]]; [done|]. destruct (proj1 (Forall_lookup _ _) Hex _ _ Ht) as (u & _ & _ & ->). cbn in Hp. done. }
  destruct (Tls.Managed (TLS s) && negb (hostHasOtherPort (all ++ extra) i (host s) (Itoa HTTPPort)) && _) eqn:Hc.
  - apply andb_true_iff in Hc as [[Hm Hno%negb_true_iff]%andb_true_iff _]. apply not_true_iff_false in Hno. rewrite hostHasOtherPort_spec in Hno.
    rewrite <- app_assoc. destruct (IH (S i) (extra ++ [redir s])%list Hd') as (extra' & He & Hf & Hn & Hw).
    + apply Forall_app. split; [done|]. constructor; [|done]. exists s. split; [by eapply list_elem_of_lookup_2 | done].
    + rewrite fmap_app. apply NoDup_app. split_and!; [done| |apply NoDup_singleton]. intros h Hin Hs%list_elem_of_singleton.
      apply list_elem_of_fmap in Hin as (e & -> & (k & Hk)%list_elem_of_lookup_1). apply Hno.
      exists (length all + k)%nat, e. split; [lia|]. rewrite lookup_app_r by lia. replace (length all + k - length all)%nat with k by lia.
      split; [done|]. split; [done|]. by destruct (proj1 (Forall_lookup _ _) Hex _ _ Hk) as (u & _ & _ & ->).
    + rewrite <- !app_assoc in *. exists (redir s :: extra')%list. split_and!; [done..|]. intros j t Hj Ht Hwant.
      destruct (decide (j = i)) as [->|]; [|apply Hw; [lia | done..]]. rewrite Hi in Ht. injection Ht as <-.
      exists (length all + length extra)%nat, (redir s). split; [lia|]. split; [|done].
      rewrite lookup_app_r by lia. rewrite lookup_app_r by lia. by replace (_ - _ - _)%nat with O by lia.
  - destruct (IH (S i) extra Hd' Hex Hnd) as (extra' & He & Hf & Hn & Hw). exists extra'. split_and!; [done..|]. intros j t Hj Ht Hwant.
    destruct (decide (j = i)) as [->|]; [|apply Hw; [lia | done..]]. rewrite Hi in Ht. injection Ht as <-. destruct Hwant as [Hm Hp].
    rewrite Hm in Hc. cbn [andb] in Hc. apply andb_false_iff in Hc as [Hc%negb_false_iff|Hc].
    + apply hostHasOtherPort_spec in Hc. rewrite app_assoc. by apply other_site_app.
    + apply orb_false_iff in Hc as [Hc%bool_decide_eq_false Ho%negb_false_iff]. apply hostHasOtherPort_spec, Hsecure in Ho. tauto.
Qed.

(** Redirections from HTTP: the sites stay as they are and are followed by
    redirections to managed sites, one for a host at most; after that every
    managed site that listens for HTTPS has another site of its host on the port
    of HTTP. *)
Theorem plaintext_is_redirected all :
  Itoa HTTPPort <> Itoa HTTPSPort ->
  exists extra, makePlaintextRedirects redirect HTTPPort HTTPSPort all = (all ++ extra)%list /\
    Forall (fun e => exists s, s ∈ all /\ Tls.Managed (TLS s) = true /\ e = redir s) extra /\ NoDup (a_Host ∘ Addr <$> extra) /\
    forall i s, all !! i = Some s -> wants_redirect all i s -> other_site (all ++ extra) i (host s) (Itoa HTTPPort).
Proof.
  intros Hports. destruct (redirects_ok all 0 all [] Hports eq_refl) as (extra & He & Hf & Hn & Hw); [constructor | constructor|].
  rewrite app_nil_r in He. exists extra. split_and!; [done..|]. intros i s. apply Hw. lia.
Qed.
End Redirects.

(** ** Concrete configurations *)
Module HttpSitesDemo.
Import VHost Sites.

(** Addresses with a scheme, a host and a path *)
Definition parse (s : string) : URL + string :=
  let '(scheme, rest) := if HasPrefix s "https://" then ("https", drop_str 8 s) else if HasPrefix s "http://" then ("http", drop_str 7 s)
                         else if HasPrefix s "//" then (EmptyString, drop_str 2 s) else (EmptyString, EmptyString) in
  let '(host, path) := if HasPrefix s "/" && negb (HasPrefix s "//") then (EmptyString, s)
                       else match cut_at "/" rest with Some (h, p) => (h, "/" +:+ p) | None => (rest, EmptyString) end in
  inl (mkURL scheme EmptyString None host path EmptyString false EmptyString EmptyString).

Definition no_ip (s : string) : option string := None.
Definition resolve (s : string) : string + string := inl s.
Definition files (root : string) (hidden : list string) : string := root.
Definition make := MakeServers files 80 443 "2015" true false [0x1301] (fun _ => None) resolve (fun l => l).
Definition context (l : list (SiteConfig (H := string))) : httpContext := mkContext l ∅.
Definition no_server : Server (H := string) := mkServer EmptyString [] newVHostTrie None [] zeroTimeouts 0.
Definition first_server (h : httpContext) : Server :=
  match make h with inl (s :: _) => s | _ => no_server end.
Definition group_of (s : Server (H := string)) : gmap string Tls.Config := default ∅ (tls_group s).

(** A site with TLS, with or without client certificates *)
Definition secure (key host root : string) (auth : Z) : SiteConfig (H := string) :=
  mkSite (mkAddress key "https" host "443" EmptyString) EmptyString
    (Tls.mkConfig host true 0 0 [] false [] auth (if decide (auth = 0) then [] else ["ca.pem"]) true false false false EmptyString [] None)
    false [] root [] 0 zeroTimeouts EmptyString false.

Definition get (host sni : string) : request :=
  mkRequest host (mkURL EmptyString EmptyString None EmptyString "/index.html" EmptyString false EmptyString EmptyString) (Some sni) 1.
Definition no_challenge (s : SiteConfig (H := string)) (r : request) : bool := false.
Definition last_config (g : gmap string Tls.Config) : option Tls.Config := g !! "other.com".
Definition config_for (g : gmap string Tls.Config) (sni : string) : option Tls.Config := Tls.getConfig ToLower EmptyString g last_config sni None.

Definition private := secure "https://example.com" "example.com" "/srv/private" 4.
Definition public := secure "https://other.com" "other.com" "/srv/public" 0.
Definition two_sites := context [private; public].

(** The root of the site that serves a request *)
Definition root_of (s : served (H := string)) : option string := match s with Passed _ h _ => Some h | _ => None end.


Lemma request_reaches_its_site_witness :
  root_of (serveHTTP parse no_challenge (first_server two_sites) (get "example.com:443" "example.com")) = Some "/srv/private".
Proof.
  assert (Hn : NewServer files true [0x1301] (fun _ => None) ":443" [set_Strict private; public] = inl (first_server two_sites)) by (vm_compute; reflexivity).
  pose proof (request_reaches_its_site files true parse [0x1301] (fun _ => None) ":443" [set_Strict private; public] (first_server two_sites)
    (get "example.com:443" "example.com") "example.com" "/index.html" Hn eq_refl) as Hr.
  cbv zeta in Hr. destruct (List.find _ _) as [name|] eqn:Ef in Hr; [|vm_compute in Ef; discriminate Ef].
  vm_compute in Ef. injection Ef as <-. destruct Hr as [[_ Hno]|(s & p & (Hat & _) & Hs)].
  - specialize (Hno "/" ltac:(discriminate) eq_refl). vm_compute in Hno. discriminate Hno.
  - vm_compute. reflexivity.
Defined.

Lemma sites_are_distinct_witness :
  exists h b, InspectServerBlocks (H := string) 80 443 EmptyString "2015" "." false parse no_ip None "Caddyfile"
      [mkBlock ["https://example.com"; "other.com:8080"] ∅] newContext = inl (h, b) /\
    NoDup (distinct_form 443 "2015" ∘ Addr <$> siteConfigs h) /\ length (siteConfigs h) = 2%nat.
Proof.
  destruct (InspectServerBlocks (H := string) 80 443 EmptyString "2015" "." false parse no_ip None "Caddyfile"
      [mkBlock ["https://example.com"; "other.com:8080"] ∅] newContext) as [[h b]|] eqn:E; [|vm_compute in E; discriminate E].
  destruct (sites_are_distinct (H := string) 80 443 EmptyString "2015" "." false parse no_ip None "Caddyfile"
      [mkBlock ["https://example.com"; "other.com:8080"] ∅] h b E) as (Hnd & Hlen & _).
  exists h, b. split; [reflexivity|]. split; [exact Hnd | exact Hlen].
Defined.

Lemma listener_settings_are_least_witness :
  Forall (fun s => 0 <= MaxRequestHeaderSize s) [private; public] /\
  least_setting (IdleTimeout (makeHTTPServerWithTimeouts [private; public])) 300000000000 IdleTimeout IdleTimeoutSet [private; public].
Proof.
  assert (Hp : Forall (fun s => 0 <= MaxRequestHeaderSize s) [private; public]) by (repeat constructor; cbn; lia).
  split; [exact Hp|]. exact (proj1 (proj2 (proj2 (proj2 (listener_settings_are_least [private; public] Hp))))).
Defined.

Definition managed : SiteConfig (H := string) := set_TLS (Tls.set_Managed true (TLS public)) public.

Lemma plaintext_is_redirected_witness :
  exists extra, makePlaintextRedirects (fun p => p) 80 443 [private; managed] = ([private; managed] ++ extra)%list /\
    other_site ([private; managed] ++ extra) 1 "other.com" "80".
Proof.
  destruct (plaintext_is_redirected (fun p : string => p) 80 443 [private; managed]) as (extra & He & _ & _ & Hw); [discriminate|].
  exists extra. split; [exact He|]. apply (Hw 1%nat managed); [reflexivity|]. split; [reflexivity | left; reflexivity].
Defined.

(** The site with client certificates and the one without *)
Example sites_by_host :
  root_of (serveHTTP parse no_challenge (first_server two_sites) (get "other.com" "other.com")) = Some "/srv/public" /\
  serveHTTP parse no_challenge (first_server two_sites) (get "example.com" "other.com") = Forbidden /\
  serveHTTP parse no_challenge (first_server two_sites) (get "third.com" "third.com") = NoSuchSite 404.
Proof. vm_compute. repeat split. Qed.

(** A host whose name holds a port in brackets: the names agree, the port is cut
    off twice, and the TLS config is that of any site. *)
Example bracketed_host_bypasses_client_auth :
  root_of (serveHTTP parse no_challenge (first_server two_sites) (get "[example.com:1]:443" "example.com:1")) = Some "/srv/private" /\
  Tls.ClientAuth <$> config_for (group_of (first_server two_sites)) "example.com:1" = Some Tls.NoClientCert.
Proof. vm_compute. split; reflexivity. Qed.

(** Two sites for all hosts, one for each version of IP: one TLS config replaces
    the other without a check. *)
Definition catch_all := context [secure "https://0.0.0.0" "0.0.0.0" "/srv/private" 4; secure "https://[::]" "::" "/srv/public" 0].

Example catch_all_bypasses_client_auth :
  root_of (serveHTTP parse no_challenge (first_server catch_all) (get "any.com" "any.com")) = Some "/srv/private" /\
  Tls.ClientAuth <$> config_for (group_of (first_server catch_all)) "any.com" = Some Tls.NoClientCert.
Proof. vm_compute. split; reflexivity. Qed.

(** A path with an escape is matched but not trimmed. *)
Example escaped_prefix_is_not_trimmed :
  NetUrl.Path (trimPathPrefix parse (mkURL EmptyString EmptyString None EmptyString "/a b/x" EmptyString false EmptyString EmptyString) "/a b") = "/a%20b/x".
Proof. vm_compute. reflexivity. Qed.

Example safe_paths :
  SafePath "/var/www" "/../../etc/passwd" = "/var/www/etc/passwd" /\ SafePath EmptyString "a/./b//c" = "a/b/c" /\ SafePath "../www" "../x" = "../www/x".
Proof. vm_compute. repeat split. Qed.
End HttpSitesDemo.
