(* ===== verification/Replacer.v ===== *)
(** Placeholders (src/go/caddy/caddy/caddyhttp/httpserver/replacer.go, and the
    names of caddytls/config.go they print): the text {name} is replaced by a
    value of the request or of its answer, a brace after a backslash is none.

    What a placeholder stands for depends on the request, on the recorder of the
    answer and on the clock, which are arguments; to ask for the body of the
    request reads it, so that a replacement is a step on the replacer. *)
From S2P Require Import Prelude GoText NetIP NetUrl GoHttp.
From Stdlib Require Import ZArith Lia Ascii.
From stdpp Require Import base gmap strings list.

Open Scope string_scope.
Open Scope Z_scope.
Open Scope go_scope.

(** ** The writer that keeps the first bytes of a body *)

Definition MaxLogBodySize : Z := 100 * 1024.

Record limitWriter := mkLimit { lw_w : string; lw_remain : Z }.

Definition newLimitWriter (max : Z) : limitWriter := mkLimit EmptyString max.

Definition str_len (s : string) : Z := Z.of_nat (String.length s).

Definition limit_Write (p : string) (lw : limitWriter) : limitWriter * Z :=
  if lw_remain lw <=? 0 then (lw, str_len p)
  else
    let p := if lw_remain lw <? str_len p then take_str (Z.to_nat (lw_remain lw)) p else p in
    (mkLimit (lw_w lw +:+ p) (lw_remain lw - str_len p), str_len p).

(** ** Requests *)

(** The fields of a certificate, the ones the package only prints as they are printed *)
Record Certificate := mkCertificate {
  Raw : list Z; Issuer : string; Subject : string; SerialNumber : string;
  NotBefore : string; NotAfter : string; RemainingDays : Z
}.

Record ConnectionState := mkTls { Version : Z; CipherSuite : Z; PeerCertificates : list Certificate }.

(** What is left of a body: what the reads return, and the error at the end *)
Record body := mkBody { chunks : list string; b_err : error }.

Record Request := mkRequest {
  Method : string; r_Header : header; r_TLS : option ConnectionState; r_Host : string; r_URL : URL;
  Proto : string; RemoteAddr : string;
  OriginalURL : URL;             (* of the context; the zero URL where it is not set *)
  RequestID : string;
  Mitm : option bool
}.

Record Recorder := mkRecorder { rr_Header : header; rr_status : Z; rr_size : Z; rr_latency : Z }.

Record replacer := mkReplacer {
  customReplacements : gmap string string;
  emptyValue : string;
  responseRecorder : option Recorder;
  request : Request;
  r_Body : option body;
  requestBody : limitWriter
}.

(** The values that other replacers of the request share *)
Definition NewReplacer (existing : option (limitWriter * gmap string string)) (r : Request) (b : option body)
    (rr : option Recorder) (empty : string) : replacer :=
  match existing with
  | Some (rb, custom) => mkReplacer custom empty rr r b rb
  | None => mkReplacer ∅ empty rr r b (newLimitWriter MaxLogBodySize)
  end.

Definition Set_ (key value : string) (r : replacer) : replacer :=
  mkReplacer (<["{" +:+ key +:+ "}" := value]> (customReplacements r)) (emptyValue r) (responseRecorder r) (request r) (r_Body r)
    (requestBody r).

Definition canLogRequest (r : Request) : bool :=
  (bool_decide (Method r = "POST") || bool_decide (Method r = "PUT")) &&
  existsb (fun cType => StrContains cType "application/json" || StrContains cType "application/xml")
    (default [] (r_Header r !! "Content-Type")).

(** ** Durations *)

Definition Millisecond : Z := 10 ^ 6.
Definition Microsecond : Z := 10 ^ 3.

Definition round (d r : Z) : Z :=
  if r <=? 0 then d
  else
    let neg := d <? 0 in
    let d := if neg then wrapS 64 (- d) else d in
    let m := Z.rem d r in
    let d := if wrapS 64 (m + m) <? r then wrapS 64 (d - m) else wrapS 64 (wrapS 64 (d + r) - m) in
    if neg then wrapS 64 (- d) else d.

Definition roundDuration (d : Z) : Z :=
  if Millisecond <=? d then round d Millisecond else if Microsecond <=? d then round d Microsecond else d.

Definition nanoToMilliseconds (d : Z) : Z := Z.quot d (10 ^ 6).
Definition convertToMilliseconds (d : Z) : Z := nanoToMilliseconds d.

(** ** Names of protocols and ciphers (caddytls) *)

Definition SupportedProtocols : list (string * Z) :=
  [("tls1.0", 0x0301); ("tls1.1", 0x0302); ("tls1.2", 0x0303); ("tls1.3", 0x0304)].

Definition SupportedCiphersMap : list (string * Z) :=
  [("ECDHE-ECDSA-AES256-GCM-SHA384", 0xc02c); ("ECDHE-RSA-AES256-GCM-SHA384", 0xc030);
   ("ECDHE-ECDSA-AES128-GCM-SHA256", 0xc02b); ("ECDHE-RSA-AES128-GCM-SHA256", 0xc02f);
   ("ECDHE-ECDSA-WITH-CHACHA20-POLY1305", 0xcca9); ("ECDHE-RSA-WITH-CHACHA20-POLY1305", 0xcca8);
   ("ECDHE-RSA-AES256-CBC-SHA", 0xc014); ("ECDHE-RSA-AES128-CBC-SHA", 0xc013);
   ("ECDHE-ECDSA-AES256-CBC-SHA", 0xc00a); ("ECDHE-ECDSA-AES128-CBC-SHA", 0xc009);
   ("RSA-AES256-CBC-SHA", 0x0035); ("RSA-AES128-CBC-SHA", 0x002f);
   ("ECDHE-RSA-3DES-EDE-CBC-SHA", 0xc012); ("RSA-3DES-EDE-CBC-SHA", 0x000a)].

Definition name_of (m : list (string * Z)) (v : Z) : option string :=
  match List.find (fun kv => kv.2 =? v) m with Some kv => Some kv.1 | None => None end.

Definition GetSupportedProtocolName (protocol : Z) : option string := name_of SupportedProtocols protocol.
Definition GetSupportedCipherName (cipher : Z) : option string := name_of SupportedCiphersMap cipher.

(** ** The value of a placeholder *)

Definition out_of_range : string := "slice bounds out of range".

(** key[2 : len(key)-1] *)
Definition inside (key : string) : go string :=
  if Nat.ltb (String.length key) 3 then Panic out_of_range else Ret (String.substring 2 (String.length key - 3) key).

(** strings.EqualFold of names of headers, which are ASCII *)
Definition EqualFold (a b : string) : bool := bool_decide (ToLower a = ToLower b).

Definition find_header (want : string) (h : list (string * list string)) : option string :=
  match List.find (fun kv => EqualFold kv.1 want) h with Some kv => Some (StrJoin kv.2 ",") | None => None end.

(** path.Split *)
Definition PathSplit (p : string) : string * string :=
  let i := Z.to_nat (LastIndex p "/" + 1) in (take_str i p, drop_str i p).

(** requestReplacer *)
Definition one_line (s : string) : string :=
  StrReplace (StrReplace s (String "013" EmptyString) "\r") (String "010" EmptyString) "\n".

Section Substitution.
(** The order in which a map is ranged over *)
Context (order : header -> list (string * list string)).
(** Cookies of the request, and the request as httputil.DumpRequest writes it *)
Context (Cookie : Request -> string -> option string) (DumpRequest : Request -> option string).
(** os.Hostname, and the clock as it is printed *)
Context (Hostname : option string) (when when_iso_local when_iso : string) (unix unix_nano : Z).
Context (DurationString : Z -> string) (pem : list Z -> string) (sha256 : list Z -> list Z).
Context (ErrMaxBytesExceeded : string).

Definition getPeerCert (r : replacer) : option Certificate :=
  match r_TLS (request r) with Some t => head (PeerCertificates t) | None => None end.

Definition of_cert (r : replacer) (f : Certificate -> string) : string :=
  match getPeerCert r with Some c => f c | None => emptyValue r end.
Definition of_recorder (r : replacer) (f : Recorder -> string) : string :=
  match responseRecorder r with Some rr => f rr | None => emptyValue r end.

(** ioutil.ReadAll(r.request.Body) through the reader that copies to the writer *)
Definition read_body (r : replacer) : replacer * error :=
  match r_Body r with
  | None => (r, None)
  | Some b =>
      (mkReplacer (customReplacements r) (emptyValue r) (responseRecorder r) (request r) (Some (mkBody [] (b_err b)))
         (fold_left (fun lw p => (limit_Write p lw).1) (chunks b) (requestBody r)), b_err b)
  end.

Definition nil_dereference : string := "invalid memory address or nil pointer dereference".

Definition request_body : gst replacer string := fun r =>
  if negb (canLogRequest (request r)) then (r, Ret (emptyValue r))
  else
    match r_Body r with
    | None => (r, Panic nil_dereference)
    | Some _ =>
        let '(r', err) := read_body r in
        if decide (err = Some ErrMaxBytesExceeded) then (r', Ret (emptyValue r'))
        else (r', Ret (one_line (lw_w (requestBody r'))))
    end.

(** {labelN}; key[6 : len(key)-1] is N *)
Definition label (key : string) (r : replacer) : go string :=
  if Nat.ltb (String.length key) 7 then Panic out_of_range
  else
    let nStr := String.substring 6 (String.length key - 7) key in
    let '(n, err) := Atoi nStr in
    if err || (n <? 1) then Ret (emptyValue r)
    else
      let labels := Split (r_Host (request r)) "." in
      if Z.of_nat (length labels) <? n then Ret (emptyValue r)
      else match labels !! Z.to_nat (n - 1) with Some l => Ret l | None => Panic "index out of range" end.

(** The other default replacements; none of their names starts with label. *)
Definition builtin (key : string) (r : replacer) : string :=
  let q := request r in
  let key_is (k : string) := bool_decide (key = k) in
  if key_is "{method}" then Method q
  else if key_is "{scheme}" then match r_TLS q with Some _ => "https" | None => "http" end
  else if key_is "{hostname}" then default (emptyValue r) Hostname
  else if key_is "{host}" then r_Host q
  else if key_is "{hostonly}" then match SplitHostPort (r_Host q) with Some (h, _) => h | None => r_Host q end
  else if key_is "{path}" then Path (OriginalURL q)
  else if key_is "{path_escaped}" then QueryEscape (Path (OriginalURL q))
  else if key_is "{request_id}" then RequestID q
  else if key_is "{rewrite_path}" then Path (r_URL q)
  else if key_is "{rewrite_path_escaped}" then QueryEscape (Path (r_URL q))
  else if key_is "{query}" then RawQuery (OriginalURL q)
  else if key_is "{query_escaped}" then QueryEscape (RawQuery (OriginalURL q))
  else if key_is "{fragment}" then Fragment (OriginalURL q)
  else if key_is "{proto}" then Proto q
  else if key_is "{remote}" then match SplitHostPort (RemoteAddr q) with Some (h, _) => h | None => RemoteAddr q end
  else if key_is "{port}" then match SplitHostPort (RemoteAddr q) with Some (_, p) => p | None => emptyValue r end
  else if key_is "{uri}" then RequestURI (OriginalURL q)
  else if key_is "{uri_escaped}" then QueryEscape (RequestURI (OriginalURL q))
  else if key_is "{rewrite_uri}" then RequestURI (r_URL q)
  else if key_is "{rewrite_uri_escaped}" then QueryEscape (RequestURI (r_URL q))
  else if key_is "{when}" then when
  else if key_is "{when_iso_local}" then when_iso_local
  else if key_is "{when_iso}" then when_iso
  else if key_is "{when_unix}" then Itoa unix
  else if key_is "{when_unix_ms}" then Itoa (nanoToMilliseconds unix_nano)
  else if key_is "{file}" then (PathSplit (Path (r_URL q))).2
  else if key_is "{dir}" then (PathSplit (Path (r_URL q))).1
  else if key_is "{request}" then match DumpRequest q with Some dump => one_line dump | None => emptyValue r end
  else if key_is "{mitm}" then match Mitm q with Some true => "likely" | Some false => "unlikely" | None => "unknown" end
  else if key_is "{status}" then of_recorder r (fun rr => Itoa (rr_status rr))
  else if key_is "{size}" then of_recorder r (fun rr => Itoa (rr_size rr))
  else if key_is "{latency}" then of_recorder r (fun rr => DurationString (roundDuration (rr_latency rr)))
  else if key_is "{latency_ms}" then of_recorder r (fun rr => Itoa (convertToMilliseconds (rr_latency rr)))
  else if key_is "{tls_protocol}" then
    match r_TLS q with Some t => default "tls" (GetSupportedProtocolName (Version t)) | None => emptyValue r end
  else if key_is "{tls_cipher}" then
    match r_TLS q with Some t => default "UNKNOWN" (GetSupportedCipherName (CipherSuite t)) | None => emptyValue r end
  else if key_is "{tls_client_escaped_cert}" then of_cert r (fun c => QueryEscape (pem (Raw c)))
  else if key_is "{tls_client_fingerprint}" then of_cert r (fun c => hex (sha256 (Raw c)))
  else if key_is "{tls_client_i_dn}" then of_cert r Issuer
  else if key_is "{tls_client_raw_cert}" then of_cert r (fun c => string_of_bytes (Raw c))
  else if key_is "{tls_client_s_dn}" then of_cert r Subject
  else if key_is "{tls_client_serial}" then of_cert r SerialNumber
  else if key_is "{tls_client_v_end}" then of_cert r NotAfter
  else if key_is "{tls_client_v_remain}" then of_cert r (fun c => Itoa (RemainingDays c))
  else if key_is "{tls_client_v_start}" then of_cert r NotBefore
  else if key_is "{server_port}" then
    match SplitHostPort (r_Host q) with
    | Some (_, p) => p
    | None => match r_TLS q with Some _ => "443" | None => "80" end
    end
  else emptyValue r.

(** Nothing, and the search goes on; or the value *)
Definition special (key : string) (r : replacer) : go (option string) :=
  match String.get 1 key with
  | None => Panic "index out of range"
  | Some c =>
      if decide (c = ">"%char) then
        want <-! inside key ;; Ret (find_header want (order (r_Header (request r))))
      else if decide (c = "<"%char) then
        match responseRecorder r with
        | Some rr => want <-! inside key ;; Ret (find_header want (order (rr_Header rr)))
        | None => Ret None
        end
      else if decide (c = "~"%char) then name <-! inside key ;; Ret (Cookie (request r) name)
      else if decide (c = "?"%char) then name <-! inside key ;; Ret (Some (Query_Get (RawQuery (r_URL (request r))) name))
      else Ret None
  end.

Definition getSubstitution (key : string) : gst replacer string := fun r =>
  match customReplacements r !! key with
  | Some value => (r, Ret value)
  | None =>
      match special key r with
      | Panic e => (r, Panic e)
      | Ret (Some value) => (r, Ret value)
      | Ret None =>
          if decide (key = "{request_body}") then request_body r
          else if HasPrefix key "{label" then (r, label key r)
          else (r, Ret (builtin key r))
      end
  end.
End Substitution.

(** ** The replacement *)

Definition unescapeBraces (s : string) : string := StrReplace (StrReplace s "\{" "{") "\}" "}".

(** for { searchSpace := s[from+idxOffset:]; ... }: the first [c] that is not
    escaped, the search for the next one starting behind an escaped one. *)
Fixpoint find_brace (fuel : nat) (c : Ascii.ascii) (s : string) (from idxOffset : nat) : option nat :=
  match fuel with
  | O => None
  | S n =>
      let searchSpace := drop_str (from + idxOffset) s in
      match StrIndex searchSpace (String c EmptyString) with
      | None => None
      | Some i =>
          if bool_decide (i = O) || negb (bool_decide (String.get (i - 1) searchSpace = Some "\"%char))
          then Some (i + idxOffset + from)%nat
          else find_brace n c s from (idxOffset + (i + 1))
      end
  end.

Section Replace.
Context {St : Type} (getSub : string -> gst St string).

(** for over the placeholders; what is left of [s] when there is none. *)
Fixpoint placeholders (fuel : nat) (s result : string) : gst St string :=
  match fuel with
  | O => gst_ret (result +:+ unescapeBraces s)
  | S n =>
      match find_brace (S (String.length s)) "{" s O O with
      | None => gst_ret (result +:+ unescapeBraces s)
      | Some idxStart =>
          match find_brace (S (String.length s)) "}" s idxStart O with
          | None => gst_ret (result +:+ unescapeBraces s)
          | Some idxEnd =>
              let placeholder := unescapeBraces (String.substring idxStart (idxEnd + 1 - idxStart) s) in
              replacement <-- getSub placeholder ;;
              placeholders n (drop_str (idxEnd + 1) s)
                (result +:+ TrimPrefix (unescapeBraces (take_str idxStart s)) "\" +:+ replacement)
          end
      end
  end.

Definition Replace (s : string) : gst St string :=
  if negb (ContainsAny s "{}") then gst_ret s else placeholders (S (String.length s)) s EmptyString.
End Replace.

(** ** Lemmas *)

(** A search that goes through the string once *)
Fixpoint scan (c : Ascii.ascii) (escaped : bool) (s : string) : option nat :=
  match s with
  | EmptyString => None
  | String d s' =>
      if decide (d = c) then if escaped then S <$> scan c false s' else Some O
      else S <$> scan c (bool_decide (d = "\"%char)) s'
  end.

Lemma scan_index c s escaped :
  scan c escaped s =
  match StrIndex s (String c EmptyString) with
  | None => None
  | Some i =>
      if (if bool_decide (i = O) then escaped else bool_decide (String.get (i - 1) s = Some "\"%char))
      then (fun j => S i + j)%nat <$> scan c false (drop_str (S i) s) else Some i
  end.
Proof.
  revert escaped. induction s as [|d s IH]; intros e; [done|]. rewrite StrIndex_char. cbn [scan]. case_decide as Hd.
  - cbn. destruct e; [|done]. by destruct (scan c false s).
  - rewrite IH. destruct (StrIndex s _) as [i|]; [|done]. cbn [fmap option_fmap option_map].
    rewrite (bool_decide_false (S i = O)) by lia. replace (S i - 1)%nat with i by lia.
    destruct i as [|i]; cbn [bool_decide String.get drop_str].
    + replace (bool_decide (Some d = Some "\"%char)) with (bool_decide (d = "\"%char)) by (apply bool_decide_ext; naive_solver).
      rewrite bool_decide_true by done. destruct (bool_decide (d = _)); [|done]. by destruct (scan c false _).
    + rewrite bool_decide_false by lia. replace (S i - 1)%nat with i by lia.
      destruct (bool_decide (String.get i s = _)); [|done]. by destruct (scan c false _).
Qed.

Lemma drop_str_drop n m s : drop_str n (drop_str m s) = drop_str (m + n) s.
Proof. revert s. induction m as [|m IH]; intros [|c s]; cbn [drop_str Nat.add]; [by destruct n.. | apply IH]. Qed.

Lemma drop_str_length n s : String.length (drop_str n s) = (String.length s - n)%nat.
Proof. revert s. induction n as [|n IH]; intros [|c s]; cbn [drop_str String.length]; [lia.. | rewrite IH; lia]. Qed.

(** The search of the source finds what one pass finds: its fuel is enough. *)
Lemma find_brace_scan n c s from off : (String.length s < n + from + off)%nat ->
  find_brace n c s from off = (fun i => i + off + from)%nat <$> scan c false (drop_str (from + off) s).
Proof.
  revert off. induction n as [|n IH]; intros off Hn; cbn [find_brace].
  - assert (drop_str (from + off) s = EmptyString) as ->; [|done].
    pose proof (drop_str_length (from + off) s). destruct (drop_str _ s); [done | cbn in *; lia].
  - rewrite scan_index. destruct (StrIndex _ _) as [i|] eqn:Ei; [|done].
    case_bool_decide as Hi; cbn [orb]; [by subst|]. case_bool_decide as Hg; cbn [negb]; [|done].
    rewrite IH by lia. rewrite drop_str_drop. replace (from + (off + (i + 1)))%nat with (from + off + S i)%nat by lia.
    destruct (scan c false _) as [j|]; cbn; [|done]. f_equal. lia.
Qed.

Lemma scan_bound c e s i : scan c e s = Some i -> (i < String.length s)%nat /\ String.get i s = Some c.
Proof.
  revert e i. induction s as [|d s IH]; intros e i; [done|]. cbn [scan String.length].
  case_decide as Hd; [destruct e|]; intros Hs; simplify_option_eq; try (split; [lia | done]);
    match goal with Hi : scan _ _ s = Some _ |- _ => apply IH in Hi as [? ?] end; (split; [lia | done]).
Qed.

Lemma get_drop n m s : String.get m (drop_str n s) = String.get (n + m) s.
Proof. revert s. induction n as [|n IH]; intros [|c s]; cbn [drop_str Nat.add]; [done.. | apply IH]. Qed.

Lemma substring_take n m s : String.substring n m s = take_str m (drop_str n s).
Proof.
  revert s. induction n as [|n IH]; intros s.
  - revert s. induction m as [|m IH]; intros [|c s]; cbn in *; [done..|]. by rewrite IH.
  - destruct s as [|c s]; cbn [String.substring drop_str]; [by destruct m | apply IH].
Qed.

Lemma take_str_snoc k u c : String.get k u = Some c -> take_str (S k) u = take_str k u +:+ String c EmptyString.
Proof.
  revert u. induction k as [|k IH]; intros [|d u] H; cbn [String.get] in H; simplify_eq; [done|].
  cbn [take_str] in IH |- *. rewrite (IH u H). done.
Qed.

(** What lies between the braces of the next placeholder *)
Lemma next_placeholder s a b :
  find_brace (S (String.length s)) "{" s O O = Some a -> find_brace (S (String.length s)) "}" s a O = Some b ->
  (a < b < String.length s)%nat /\
  exists mid, String.substring a (b + 1 - a) s = String "{" (mid +:+ String "}" EmptyString).
Proof.
  rewrite !find_brace_scan by lia. rewrite !Nat.add_0_r. change (drop_str 0 s) with s.
  destruct (scan "{" false s) as [i|] eqn:Ea; [|done]. cbn. intros [= <-]. rewrite !Nat.add_0_r.
  destruct (scan "}" false (drop_str i s)) as [j|] eqn:Eb; [|done]. cbn. intros [= <-].
  apply scan_bound in Ea as [Hi Ga]. apply scan_bound in Eb as [Hj Gb]. rewrite drop_str_length in Hj. rewrite Nat.add_0_r in *.
  rewrite substring_take. pose proof (get_drop i O s) as Hd. rewrite Nat.add_0_r, Ga in Hd.
  destruct (drop_str i s) as [|c u]; [done|]. cbn in Hd. injection Hd as ->.
  destruct j as [|j]; [done|]. cbn [String.get] in Gb. split; [lia|]. exists (take_str j u).
  replace (S j + i + 1 - i)%nat with (S (S j)) by lia. cbn [take_str]. f_equal. by apply take_str_snoc.
Qed.

(** ** Braces and backslashes *)

Definition brace_pair (old new : string) : Prop := (old, new) = ("\{", "{") \/ (old, new) = ("\}", "}").

Lemma replace_skip_end old new k x : brace_pair old new -> (k <= String.length x)%nat ->
  exists y, replace_skip k old new (x +:+ "}") = y +:+ "}".
Proof.
  intros Hp. revert k. induction x as [|c x IH]; intros k Hk.
  - assert (k = O) as -> by (cbn in Hk; lia). exists EmptyString. by destruct Hp; simplify_eq.
  - cbn [String.length] in Hk. change (String c x +:+ "}") with (String c (x +:+ "}")). cbn [replace_skip].
    destruct k as [|k]; [|apply IH; lia]. destruct (HasPrefix _ old) eqn:Eh.
    + destruct x as [|d x].
      * exists EmptyString. destruct Hp; simplify_eq; by destruct c as [[] [] [] [] [] [] [] []].
      * destruct (IH 1%nat) as [y Hy]; [cbn; lia|]. exists (new +:+ y).
        assert (pred (String.length old) = 1%nat) as -> by (by destruct Hp; simplify_eq). rewrite Hy. by rewrite str_app_assoc.
    + destruct (IH O) as [y Hy]; [lia|]. exists (String c y). by rewrite Hy.
Qed.

Lemma unescape_key mid : exists y, unescapeBraces (String "{" (mid +:+ "}")) = String "{" (y +:+ "}").
Proof.
  destruct (replace_skip_end "\{" "{" O mid) as [y Hy]; [by left | lia |].
  destruct (replace_skip_end "\}" "}" O y) as [z Hz]; [by right | lia |]. exists z.
  unfold unescapeBraces, StrReplace. cbn [replace_skip HasPrefix]. rewrite bool_decide_false by done. cbn [andb].
  rewrite Hy. cbn [replace_skip HasPrefix]. rewrite bool_decide_false by done. cbn [andb]. by rewrite Hz.
Qed.

(** Text in which every brace is escaped *)
Fixpoint escape_braces (s : string) : string :=
  match s with
  | EmptyString => EmptyString
  | String c s' =>
      if bool_decide (c = "{"%char) || bool_decide (c = "}"%char) then String "\" (String c (escape_braces s'))
      else String c (escape_braces s')
  end.

Definition no_backslash (s : string) : bool := no_char "\" s.
Definition hole_name (h : string) : bool := no_char "{" h && no_char "}" h && no_char "\" h.

(** A template: a text before every placeholder, and the text at the end *)
Fixpoint template (parts : list (string * string)) (last : string) : string :=
  match parts with
  | [] => escape_braces last
  | (lit, hole) :: rest => escape_braces lit +:+ ("{" +:+ hole +:+ "}") +:+ template rest last
  end.

Section Fill.
Context {St : Type} (getSub : string -> gst St string).

Fixpoint fill (parts : list (string * string)) (last : string) : gst St string :=
  match parts with
  | [] => gst_ret last
  | (lit, hole) :: rest => v <-- getSub ("{" +:+ hole +:+ "}") ;; text <-- fill rest last ;; gst_ret (lit +:+ v +:+ text)
  end.
End Fill.

Lemma scan_escaped c lit rest : c = "{"%char \/ c = "}"%char -> no_backslash lit = true ->
  scan c false (escape_braces lit +:+ rest) = (fun i => String.length (escape_braces lit) + i)%nat <$> scan c false rest.
Proof.
  intros Hc. induction lit as [|d lit IH]; intros Hb.
  - change (escape_braces EmptyString +:+ rest) with rest. by destruct (scan c false rest).
  - apply no_char_cons in Hb as [Hd Hb]. specialize (IH Hb). cbn [escape_braces].
    destruct (bool_decide (d = "{"%char) || bool_decide (d = "}"%char)) eqn:Eb.
    + change (String "\" (String d (escape_braces lit)) +:+ rest) with (String "\" (String d (escape_braces lit +:+ rest))).
      cbn [scan String.length]. rewrite (decide_False (P := "\"%char = c)) by (by destruct Hc; subst).
      rewrite (bool_decide_true ("\"%char = "\"%char)) by done.
      rewrite (bool_decide_false (d = "\"%char)) by done. destruct (decide (d = c)); rewrite IH; by destruct (scan c false rest).
    + change (String d (escape_braces lit) +:+ rest) with (String d (escape_braces lit +:+ rest)).
      apply orb_false_iff in Eb as [E1%bool_decide_eq_false E2%bool_decide_eq_false].
      cbn [scan String.length]. rewrite decide_False by (by destruct Hc; subst). rewrite bool_decide_false by done.
      rewrite IH. by destruct (scan c false rest).
Qed.

Lemma scan_hole h rest : hole_name h = true -> scan "}" false (h +:+ String "}" rest) = Some (String.length h).
Proof.
  unfold hole_name. rewrite !andb_true_iff. intros [[_ Hh] Hb]. induction h as [|d h IH]; [done|].
  apply no_char_cons in Hh as [Hd Hh]. apply no_char_cons in Hb as [Hd' Hb].
  change (String d h +:+ String "}" rest) with (String d (h +:+ String "}" rest)). cbn [scan String.length].
  rewrite decide_False, bool_decide_false by done. by rewrite IH.
Qed.

Lemma replace_no_backslash new old s : no_backslash s = true -> replace_skip O (String "\" old) new s = s.
Proof.
  induction s as [|d s IH]; intros Hb; [done|]. apply no_char_cons in Hb as [Hd Hb].
  cbn [replace_skip HasPrefix]. rewrite bool_decide_false by done. cbn [andb]. by rewrite IH.
Qed.

Lemma replace_pair c s :
  replace_skip 0 (String "\" (String c EmptyString)) (String c EmptyString) (String "\" (String c s)) =
  String c (replace_skip 0 (String "\" (String c EmptyString)) (String c EmptyString) s).
Proof.
  cbn [replace_skip HasPrefix]. rewrite !bool_decide_true by done. by destruct s.
Qed.

Lemma unescape_escaped_braces lit : no_backslash lit = true -> unescapeBraces (escape_braces lit) = lit.
Proof.
  unfold unescapeBraces, StrReplace. induction lit as [|d lit IH]; intros Hb; [done|].
  apply no_char_cons in Hb as [Hd Hb]. specialize (IH Hb). cbn [escape_braces].
  destruct (bool_decide (d = "{"%char)) eqn:E1; [apply bool_decide_eq_true in E1 as ->|
    destruct (bool_decide (d = "}"%char)) eqn:E2; [apply bool_decide_eq_true in E2 as ->|]]; cbn [orb].
  - rewrite replace_pair. change (replace_skip 0 "\}" "}" (String "{" (replace_skip 0 "\{" "{" (escape_braces lit))))
      with (String "{" (replace_skip 0 "\}" "}" (replace_skip 0 "\{" "{" (escape_braces lit)))). by rewrite IH.
  - change (replace_skip 0 "\{" "{" (String "\" (String "}" (escape_braces lit))))
      with (String "\" (String "}" (replace_skip 0 "\{" "{" (escape_braces lit)))). rewrite replace_pair. by rewrite IH.
  - cbn [replace_skip HasPrefix]. rewrite bool_decide_false by done. cbn [andb replace_skip HasPrefix].
    rewrite bool_decide_false by done. cbn [andb]. by rewrite IH.
Qed.

Lemma TrimPrefix_plain s : no_backslash s = true -> TrimPrefix s "\" = s.
Proof.
  intros Hb. unfold TrimPrefix. destruct s as [|c s]; [done|]. apply no_char_cons in Hb as [Hc _].
  cbn [HasPrefix]. by rewrite bool_decide_false by done.
Qed.

(** Where the next placeholder of a template lies *)
Lemma find_in_template lit hole T n : no_backslash lit = true -> hole_name hole = true ->
  let s := escape_braces lit +:+ ("{" +:+ hole +:+ "}") +:+ T in (String.length s < n)%nat ->
  find_brace n "{" s O O = Some (String.length (escape_braces lit)) /\
  find_brace n "}" s (String.length (escape_braces lit)) O = Some (String.length (escape_braces lit +:+ "{" +:+ hole)).
Proof.
  intros Hl Hh s Hn. rewrite !find_brace_scan by lia. rewrite !Nat.add_0_r. change (drop_str 0 s) with s. subst s. split.
  - rewrite scan_escaped by auto. change (scan "{" false (("{" +:+ hole +:+ "}") +:+ T)) with (Some O). cbn. f_equal. lia.
  - rewrite drop_str_app. change (("{" +:+ hole +:+ "}") +:+ T) with (String "{" ((hole +:+ "}") +:+ T)).
    rewrite (str_app_assoc hole "}" T). change ("}" +:+ T) with (String "}" T).
    cbn [scan]. rewrite decide_False, bool_decide_false by done. rewrite scan_hole by done. cbn. f_equal.
    rewrite !str_length_app. cbn. lia.
Qed.

Lemma unescape_hole hole : hole_name hole = true -> unescapeBraces ("{" +:+ hole +:+ "}") = "{" +:+ hole +:+ "}".
Proof.
  unfold hole_name. rewrite !andb_true_iff. intros [[_ _] Hb]. unfold unescapeBraces, StrReplace.
  assert (no_backslash ("{" +:+ hole +:+ "}") = true) as H by (unfold no_backslash; by rewrite !no_char_app, Hb).
  rewrite (replace_no_backslash _ "{") by done. by rewrite replace_no_backslash.
Qed.

Section Template.
Context {St : Type} (getSub : string -> gst St string).

Definition part_ok (p : string * string) : Prop := no_backslash p.1 = true /\ hole_name p.2 = true.

Lemma placeholders_template parts last n result st : Forall part_ok parts -> no_backslash last = true ->
  (String.length (template parts last) < n)%nat ->
  placeholders getSub n (template parts last) result st =
  gst_bind (fill getSub parts last) (fun v => gst_ret (result +:+ v)) st.
Proof.
  revert n result st. induction parts as [|[lit hole] parts IH]; intros n result st Hp Hl Hn;
    (destruct n as [|n]; [lia|]); cbn [placeholders template fill] in *.
  - rewrite find_brace_scan by lia. change (drop_str (0 + 0) ?s) with s.
    pose proof (scan_escaped "{" last EmptyString) as Hs. rewrite str_app_nil_r in Hs. rewrite Hs by auto. cbn.
    unfold gst_bind, gst_ret. by rewrite unescape_escaped_braces.
  - apply Forall_cons in Hp as [[Hlit Hhole] Hp]. cbn [fst snd] in *.
    edestruct (find_in_template lit hole (template parts last)) as [-> ->]; [done..|lia|].
    assert (String.length (escape_braces lit +:+ "{" +:+ hole) + 1 =
      String.length (escape_braces lit) + String.length ("{" +:+ hole +:+ "}"))%nat as Hlen
      by (rewrite !str_length_app; cbn; lia).
    rewrite Hlen, substring_take, drop_str_app, Nat.add_comm, Nat.add_sub, take_str_app, take_str_app.
    rewrite unescape_hole, unescape_escaped_braces, TrimPrefix_plain by done. rewrite Nat.add_comm, <- drop_str_drop, !drop_str_app.
    unfold gst_bind. destruct (getSub _ st) as [st1 [v|e]]; [|done]. rewrite IH; [|done..|].
    + unfold gst_bind. destruct (fill _ _ _ st1) as [st2 [t|e]]; [|done]. unfold gst_ret. by rewrite !str_app_assoc.
    + rewrite !str_length_app in Hn. cbn in Hn. lia.
Qed.

Lemma escape_same s : ContainsAny s "{}" = false -> escape_braces s = s.
Proof.
  induction s as [|c s IH]; [done|]. cbn [ContainsAny escape_braces]. intros [Hc Hs]%orb_false_iff.
  apply negb_false_iff in Hc. apply no_char_cons in Hc as [H1 Hc]. apply no_char_cons in Hc as [H2 _].
  rewrite !bool_decide_false by congruence. cbn [orb]. by rewrite IH.
Qed.

Lemma ContainsAny_app s t chars : ContainsAny (s +:+ t) chars = ContainsAny s chars || ContainsAny t chars.
Proof.
  induction s as [|c s IH]; [done|]. change (String c s +:+ t) with (String c (s +:+ t)). cbn [ContainsAny].
  by rewrite IH, orb_assoc.
Qed.

Lemma escape_contains s : ContainsAny (escape_braces s) "{}" = ContainsAny s "{}".
Proof.
  induction s as [|c s IH]; [done|]. cbn [ContainsAny escape_braces].
  destruct (bool_decide (c = "{"%char) || _); cbn [ContainsAny]; by rewrite IH.
Qed.

(** C39.  A template is filled in.  Let a template be made of texts, in which every
    brace is escaped by a backslash and which have no other backslash, and of
    placeholders between them, whose names have no brace and no backslash.  Then
    every placeholder is replaced by its value, in the order of the text and each
    of them once, an escaped brace stands for itself, and the rest of the texts is
    kept.  (A backslash at the start of a piece of text is lost, as
    [backslash_is_dropped] shows.) *)
Theorem template_is_filled_in parts last st : Forall part_ok parts -> no_backslash last = true ->
  Replace getSub (template parts last) st = fill getSub parts last st.
Proof.
  intros Hp Hl. unfold Replace. destruct (ContainsAny _ _) eqn:Ec; cbn [negb].
  - rewrite placeholders_template by (done || lia). unfold gst_bind. by destruct (fill _ _ _ _) as [? []].
  - destruct parts as [|[lit hole] parts]; cbn [template fill] in *.
    + rewrite escape_contains in Ec. by rewrite escape_same.
    + rewrite !ContainsAny_app in Ec. cbn in Ec. by rewrite orb_true_r in Ec.
Qed.
End Template.

(** ** The values of placeholders are defined *)

Section Total.
Context {St : Type} (getSub : string -> gst St string) (P : St -> Prop).
Context (sub_total : forall y st, P st -> exists st' v, getSub (String "{" (y +:+ "}")) st = (st', Ret v) /\ P st').

Lemma placeholders_total n s result st : P st -> exists st' v, placeholders getSub n s result st = (st', Ret v) /\ P st'.
Proof using sub_total.
  revert s result st. induction n as [|n IH]; intros s result st Hst; cbn [placeholders]; [by eexists _, _|].
  destruct (find_brace _ "{" s _ _) as [a|] eqn:Ea; [|by eexists _, _].
  destruct (find_brace _ "}" s _ _) as [b|] eqn:Eb; [|by eexists _, _].
  destruct (next_placeholder s a b Ea Eb) as [_ [mid ->]]. destruct (unescape_key mid) as [y ->].
  destruct (sub_total y st Hst) as (st' & v & Hs & Hst'). unfold gst_bind. rewrite Hs. apply IH. done.
Qed.

(** More fuel than the length of the text does not change the result. *)
Lemma placeholders_fuel n m s result st : (String.length s < n)%nat -> (String.length s < m)%nat ->
  placeholders getSub n s result st = placeholders getSub m s result st.
Proof using.
  revert m s result st. induction n as [|n IH]; intros m s result st Hn Hm; [lia|]. destruct m as [|m]; [lia|].
  cbn [placeholders]. destruct (find_brace _ "{" s _ _) as [a|] eqn:Ea; [|done].
  destruct (find_brace _ "}" s _ _) as [b|] eqn:Eb; [|done].
  destruct (next_placeholder s a b Ea Eb) as [Hab _]. unfold gst_bind. destruct (getSub _ st) as [st1 [v|e]]; [|done].
  apply IH; rewrite drop_str_length; lia.
Qed.
End Total.

Lemma inside_ok c y : c <> "}"%char -> String.get 1 (String "{" (y +:+ "}")) = Some c ->
  exists v, inside (String "{" (y +:+ "}")) = Ret v.
Proof.
  intros Hc. destruct y as [|d y]; [by intros [= <-]|]. intros _. unfold inside.
  assert (Nat.ltb (String.length (String "{" (String d y +:+ "}"))) 3 = false) as ->; [|by eexists].
  apply Nat.ltb_ge. cbn [String.length]. rewrite str_length_app. cbn. lia.
Qed.

Lemma label_ok y r : HasPrefix (String "{" (y +:+ "}")) "{label" = true -> exists v, label (String "{" (y +:+ "}")) r = Ret v.
Proof.
  intros Hp. unfold label. assert (Nat.ltb (String.length (String "{" (y +:+ "}"))) 7 = false) as ->.
  { apply Nat.ltb_ge. apply HasPrefix_inv in Hp as [t Ht].
    destruct (decide (t = EmptyString)) as [->|Hne].
    - exfalso. rewrite str_app_nil_r in Ht. injection Ht as Ht.
      destruct y as [|? [|? [|? [|? [|? y]]]]]; try discriminate. destruct y; discriminate.
    - rewrite Ht, str_length_app. destruct t; [done | cbn; lia]. }
  destruct (Atoi _) as [n err]. destruct (err || (n <? 1)) eqn:E1; [by eexists|].
  destruct (Z.of_nat _ <? n) eqn:E2; [by eexists|]. apply orb_false_iff in E1 as [_ E1%Z.ltb_ge]. apply Z.ltb_ge in E2.
  destruct (lookup_lt_is_Some_2 (Split (r_Host (request r)) ".") (Z.to_nat (n - 1))) as [l ->]; [lia | by eexists].
Qed.

Section Defined.
Context (order : header -> list (string * list string)).
Context (Cookie : Request -> string -> option string) (DumpRequest : Request -> option string).
Context (Hostname : option string) (when when_iso_local when_iso : string) (unix unix_nano : Z).
Context (DurationString : Z -> string) (pem : list Z -> string) (sha256 : list Z -> list Z).
Context (ErrMaxBytesExceeded : string).

Let getSub := getSubstitution order Cookie DumpRequest Hostname when when_iso_local when_iso unix unix_nano DurationString pem sha256
  ErrMaxBytesExceeded.

Lemma special_ok y r : exists v, special order Cookie (String "{" (y +:+ "}")) r = Ret v.
Proof.
  unfold special. destruct (String.get 1 _) as [c|] eqn:Eg; [|by destruct y].
  repeat case_decide; try (by eexists); try (destruct (responseRecorder r); [|by eexists]);
    (destruct (inside_ok c y) as [v ->]; [congruence | done | by eexists]).
Qed.

Lemma getSubstitution_total y r : r_Body r <> None ->
  exists r' v, getSub (String "{" (y +:+ "}")) r = (r', Ret v) /\ r_Body r' <> None.
Proof using.
  intros Hb. unfold getSub, getSubstitution. destruct (customReplacements r !! _); [by eexists _, _|].
  destruct (special_ok y r) as [[v|] ->]; [by eexists _, _|]. case_decide.
  - unfold request_body. destruct (negb _); [by eexists _, _|]. unfold read_body. destruct (r_Body r) as [b|]; [|done].
    case_decide; by eexists _, _.
  - destruct (HasPrefix _ "{label") eqn:El; [|by eexists _, _]. destruct (label_ok y r El) as [v ->]. by eexists _, _.
Qed.

(** Whatever the text is, with braces that are not closed, escapes and
    placeholders nobody knows, its replacement ends with a text: no slice or
    index of the search and of the values is out of range. *)
Theorem replacement_is_defined s r : r_Body r <> None ->
  exists r' v, Replace getSub s r = (r', Ret v) /\ r_Body r' <> None.
Proof using.
  intros Hb. unfold Replace. destruct (negb _); [by eexists _, _|].
  apply (placeholders_total getSub (fun r => r_Body r <> None)); [apply getSubstitution_total | done].
Qed.
End Defined.

(** ** The log of a body *)

Lemma take_str_all n s : (String.length s <= n)%nat -> take_str n s = s.
Proof. revert n. induction s as [|c s IH]; intros [|n] Hn; cbn in *; [done..|lia|]. by rewrite IH by lia. Qed.

Lemma take_str_plus n p s : take_str n (p +:+ s) = take_str n p +:+ take_str (n - String.length p) s.
Proof.
  revert n. induction p as [|c p IH]; intros n.
  - change (EmptyString +:+ s) with s. cbn [String.length]. rewrite Nat.sub_0_r. by destruct n.
  - change (String c p +:+ s) with (String c (p +:+ s)). destruct n as [|n]; [done|]. cbn [take_str String.length Nat.sub].
    by rewrite IH.
Qed.

Lemma take_str_length n s : String.length (take_str n s) = Nat.min n (String.length s).
Proof. revert n. induction s as [|c s IH]; intros [|n]; cbn; [done..|]. by rewrite IH. Qed.

(** The writer holds the first bytes of what was written, whatever the sizes of the writes *)
Definition holds (max : nat) (text : string) (lw : limitWriter) : Prop :=
  lw_w lw = take_str max text /\ lw_remain lw = Z.of_nat (max - String.length text).

Lemma limit_Write_holds max text p lw : holds max text lw -> holds max (text +:+ p) (limit_Write p lw).1.
Proof.
  unfold holds, limit_Write, str_len. intros [Hw Hr]. rewrite Hr, Hw, take_str_plus, str_length_app.
  destruct (_ <=? 0) eqn:E0; [apply Z.leb_le in E0 | apply Z.leb_gt in E0]; cbn.
  - assert (max - String.length text = O)%nat as H0 by lia. rewrite H0. replace (take_str 0 p) with EmptyString by by destruct p.
    rewrite str_app_nil_r. split; [done|]. lia.
  - destruct (_ <? Z.of_nat (String.length p)) eqn:E1; [apply Z.ltb_lt in E1 | apply Z.ltb_ge in E1]; rewrite ?Nat2Z.id, ?take_str_length.
    + split; [done|]. lia.
    + rewrite (take_str_all _ p) by lia. split; [done|]. lia.
Qed.

Lemma writes_hold max ps text lw : holds max text lw ->
  holds max (text +:+ StrJoin ps EmptyString) (fold_left (fun lw p => (limit_Write p lw).1) ps lw).
Proof.
  revert text lw. induction ps as [|p ps IH]; intros text lw Hl; cbn [fold_left]; [by rewrite str_app_nil_r|].
  apply (limit_Write_holds _ _ p), IH in Hl. rewrite str_app_assoc in Hl. destruct ps; [by rewrite str_app_nil_r in Hl | exact Hl].
Qed.

(** The placeholder of the body of a request whose body may be logged stands
    for its first 100 KiB, on one line, however the body arrives; the body has then been
    read. *)
Theorem body_is_logged ErrMax r b : canLogRequest (request r) = true -> r_Body r = Some b -> b_err b <> Some ErrMax ->
  requestBody r = newLimitWriter MaxLogBodySize ->
  exists r', request_body ErrMax r = (r', Ret (one_line (take_str (Z.to_nat MaxLogBodySize) (StrJoin (chunks b) EmptyString)))) /\
    r_Body r' = Some (mkBody [] (b_err b)).
Proof.
  intros Hc Hb He Hr. unfold request_body, read_body. rewrite Hc, Hb. cbn [negb]. rewrite decide_False by done.
  destruct (writes_hold (Z.to_nat MaxLogBodySize) (chunks b) EmptyString (newLimitWriter MaxLogBodySize)) as [Hw _].
  { split; [done|]. cbn [lw_remain newLimitWriter String.length]. unfold MaxLogBodySize. lia. }
  cbn [requestBody]. rewrite Hr, Hw. by eexists.
Qed.

Module ReplacerDemo.

Definition get : Request :=
  mkRequest "POST" {[ "Content-Type" := ["application/json"]; "X-Id" := ["a"; "b"] ]} None "www.example.com:8080"
    (mkURL "http" EmptyString None EmptyString "/new/file" EmptyString false "q=1&r=x%20y" EmptyString) "HTTP/1.1" "10.0.0.1:1234"
    (mkURL "http" EmptyString None EmptyString "/old" EmptyString false "q=1" EmptyString) "id" None.
Definition fresh : replacer := NewReplacer None get (Some (mkBody ["{ab"; "cd}"] None)) None "-".
Definition sub : string -> gst replacer string :=
  getSubstitution (fun h => map_to_list h) (fun _ _ => None) (fun _ => None) None EmptyString EmptyString EmptyString 0 0
    (fun _ => EmptyString) (fun _ => EmptyString) (fun b => b) "http: request body too large".

Lemma template_is_filled_in_witness :
  Replace sub (template [("at ", "host"); (" {", "label2")] "}") fresh = (fresh, Ret "at www.example.com:8080 {example}").
Proof. rewrite (template_is_filled_in sub); [reflexivity | repeat constructor | reflexivity]. Defined.

Lemma replacement_is_defined_witness : exists r' v, Replace sub "{>}{?}{label}{\}{" fresh = (r', Ret v) /\ r_Body r' <> None.
Proof. apply replacement_is_defined. discriminate. Defined.

Lemma body_is_logged_witness : exists r',
  request_body "http: request body too large" fresh = (r', Ret "{abcd}") /\ r_Body r' = Some (mkBody [] None).
Proof.
  destruct (body_is_logged "http: request body too large" fresh (mkBody ["{ab"; "cd}"] None)) as [r' H];
    [vm_compute; reflexivity | reflexivity | discriminate | reflexivity |].
  exists r'. destruct H as [H1 H2]. split; [rewrite H1; vm_compute; reflexivity | exact H2].
Defined.

Example values : (Replace sub "{>x-id} {?r} {dir} {unknown} \{host\}" fresh).2 = Ret "a,b x y /new/ - {host}".
Proof. vm_compute. reflexivity. Qed.

(** A backslash at the start of a piece of text is lost. *)
Example backslash_is_dropped : (Replace sub "{method}\dir{path}" fresh).2 = Ret "POSTdir/old".
Proof. vm_compute. reflexivity. Qed.

(** The ciphers of TLS 1.3 have no name. *)
Example new_ciphers_are_unknown : map GetSupportedCipherName [0x1301; 0x1302; 0x1303] = [None; None; None].
Proof. reflexivity. Qed.
End ReplacerDemo.
