(* ===== verification/Proxy.v ===== *)
(** The reverse proxy of the web server: the hosts of an upstream and the
    policies that choose one of them (src/go/caddy/caddy/caddyhttp/proxy/policy.go),
    the configuration of an upstream and its health checks (upstream.go).

    A host is named by its place in the pool, since the source hands out pointers
    into it. The counters of a policy are passed along; the values of rand.Int,
    the parsers of URLs, durations and regular expressions, the files with
    certificates and the resolver are arguments. *)
From S2P Require Import Prelude GoText NetUrl GoHttp Caddyfile HttpServer.
From Stdlib Require Import ZArith Lia Ascii.
From stdpp Require Import base gmap strings list.

Open Scope string_scope.
Open Scope Z_scope.
Open Scope go_scope.

(** ** Hosts *)

(** A compiled expression, as what ReplaceAllString does with it *)
Record headerReplacement := mkReplacement { regexp : string -> string -> string; to : string }.

(** How the requests of a host are sent *)
Inductive transport :=
  | SocketTransport (path : go string) (timeout : Z)
  | QuicTransport
  | TunedTransport (srv : option string) (timeout fallbackDelay : Z) (keepalive : Z)   (* 0: no connection is kept *)
  | DefaultTransport (timeout fallbackDelay : Z).

Record ReverseProxy := mkReverseProxy {
  rp_target : URL; rp_without : string;          (* of the director *)
  rp_Transport : transport;
  rp_insecure : bool;                            (* InsecureSkipVerify *)
  rp_RootCAs : option (list string)
}.

Record UpstreamHost := mkHost {
  Conns : Z; MaxConns : Z;
  Name : string;
  UpstreamHeaders : header; DownstreamHeaders : header;
  FailTimeout : Z;
  CheckDown : option Z;        (* the MaxFails of the function NewHost makes; None: nil *)
  WithoutPathPrefix : string;
  h_ReverseProxy : option ReverseProxy;
  Fails : Z;
  Unhealthy : Z;
  HealthCheckResult : option string;
  UpstreamHeaderReplacements : gmap string (list headerReplacement);
  DownstreamHeaderReplacements : gmap string (list headerReplacement)
}.

Definition set_counters (conns fails unhealthy : Z) (h : UpstreamHost) : UpstreamHost :=
  mkHost conns (MaxConns h) (Name h) (UpstreamHeaders h) (DownstreamHeaders h) (FailTimeout h) (CheckDown h) (WithoutPathPrefix h)
    (h_ReverseProxy h) fails unhealthy (HealthCheckResult h) (UpstreamHeaderReplacements h) (DownstreamHeaderReplacements h).

Definition add_Conns (d : Z) (h : UpstreamHost) : UpstreamHost := set_counters (wrapS 64 (Conns h + d)) (Fails h) (Unhealthy h) h.
Definition add_Fails (d : Z) (h : UpstreamHost) : UpstreamHost := set_counters (Conns h) (wrapS 32 (Fails h + d)) (Unhealthy h) h.
Definition set_Unhealthy (v : Z) (h : UpstreamHost) : UpstreamHost := set_counters (Conns h) (Fails h) v h.

Definition Down (uh : UpstreamHost) : bool :=
  match CheckDown uh with
  | None => negb (Unhealthy uh =? 0) || (0 <? Fails uh)
  | Some MaxFails => if negb (Unhealthy uh =? 0) then true else if MaxFails <=? Fails uh then true else false
  end.

Definition Full (uh : UpstreamHost) : bool := (0 <? MaxConns uh) && (MaxConns uh <=? Conns uh).

Definition Available (uh : UpstreamHost) : bool := negb (Down uh) && negb (Full uh).

Abbreviation HostPool := (list UpstreamHost).

(** ** Policies *)

Inductive Policy := Random | LeastConn | RoundRobin | IPHash | First | URIHash | Header (name : string).

(** The counter of the RoundRobin policy of an upstream, and the one that
    header policies share *)
Record counters := mkCounters { robin : Z; roundRobinPolicier : Z }.

(** What the policies look at in a request *)
Record request := mkRequest { RemoteAddr : string; r_RequestURI : string; r_Header : header }.

(** [rand n] is the n-th value of rand.Int. *)
Fixpoint random_loop (rand : nat -> Z) (pool : HostPool) (i count : nat) (randHost : option nat) : option nat :=
  match pool with
  | [] => randHost
  | host :: pool' =>
      if negb (Available host) then random_loop rand pool' (S i) count randHost
      else
        let count := S count in
        random_loop rand pool' (S i) count (if Z.rem (rand count) (Z.of_nat count) =? 0 then Some i else randHost)
  end.

Definition RandomSelect (rand : nat -> Z) (pool : HostPool) : option nat := random_loop rand pool 0 0 None.

(** [n] counts the values of rand.Int. *)
Fixpoint least_loop (rand : nat -> Z) (pool : HostPool) (i n : nat) (count leastConn : Z) (bestHost : option nat) : option nat :=
  match pool with
  | [] => bestHost
  | host :: pool' =>
      if negb (Available host) then least_loop rand pool' (S i) n count leastConn bestHost
      else
        let '(leastConn, count) := if Conns host <? leastConn then (Conns host, 0) else (leastConn, count) in
        if Conns host =? leastConn then
          let count := count + 1 in
          least_loop rand pool' (S i) (S n) count leastConn (if Z.rem (rand n) count =? 0 then Some i else bestHost)
        else least_loop rand pool' (S i) n count leastConn bestHost
  end.

Definition LeastConnSelect (rand : nat -> Z) (pool : HostPool) : option nat := least_loop rand pool 0 0 0 max_int None.

Definition poolLen (pool : HostPool) : Z := wrapU 32 (Z.of_nat (length pool)).

(** pool[i % poolLen] *)
Definition host_at (pool : HostPool) (i : Z) : go (nat * UpstreamHost) :=
  if poolLen pool =? 0 then Panic "integer divide by zero"
  else
    let k := Z.to_nat (i mod poolLen pool) in
    match pool !! k with Some h => Ret (k, h) | None => Panic "index out of range" end.

Fixpoint robin_loop (n : nat) (pool : HostPool) (r : Z) : Z * go (option nat) :=
  match n with
  | O => (r, Ret None)
  | S n' =>
      let r := wrapU 32 (r + 1) in
      match host_at pool r with
      | Panic e => (r, Panic e)
      | Ret (k, host) => if Available host then (r, Ret (Some k)) else robin_loop n' pool r
      end
  end.

Definition RoundRobinSelect (pool : HostPool) (r : Z) : Z * go (option nat) := robin_loop (Z.to_nat (poolLen pool)) pool r.

(** hash/fnv, New32a *)
Definition hash (s : string) : Z :=
  fold_left (fun h b => wrapU 32 (Z.lxor h b * 16777619)) (bytes_of_string s) 2166136261.

(** for i := uint32(0); i < poolLen; i++; [n] rounds are left *)
Fixpoint hash_loop (n : nat) (pool : HostPool) (i index : Z) : go (option nat) :=
  match n with
  | O => Ret None
  | S n' =>
      let index := wrapU 32 (index + i) in
      p <-! host_at pool index ;;
      if Available p.2 then Ret (Some p.1) else hash_loop n' pool (i + 1) index
  end.

Definition hostByHashing (pool : HostPool) (s : string) : go (option nat) :=
  if poolLen pool =? 0 then Panic "integer divide by zero"
  else hash_loop (Z.to_nat (poolLen pool)) pool 0 (hash s mod poolLen pool).

Definition FirstSelect (pool : HostPool) : option nat := fst <$> list_find (fun h => Available h = true) pool.

Definition IPHashSelect (pool : HostPool) (r : request) : go (option nat) :=
  let clientIP := match SplitHostPort (RemoteAddr r) with Some (ip, _) => ip | None => RemoteAddr r end in
  hostByHashing pool clientIP.

Definition PolicySelect (rand : nat -> Z) (p : Policy) (pool : HostPool) (r : request) (c : counters)
    : counters * go (option nat) :=
  match p with
  | Random => (c, Ret (RandomSelect rand pool))
  | LeastConn => (c, Ret (LeastConnSelect rand pool))
  | RoundRobin => let '(n, res) := RoundRobinSelect pool (robin c) in (mkCounters n (roundRobinPolicier c), res)
  | IPHash => (c, IPHashSelect pool r)
  | First => (c, Ret (FirstSelect pool))
  | URIHash => (c, hostByHashing pool (r_RequestURI r))
  | Header name =>
      if decide (name = EmptyString) then (c, Ret None)
      else
        let val := Header_Get name (r_Header r) in
        if decide (val = EmptyString) then
          let '(n, res) := RoundRobinSelect pool (roundRobinPolicier c) in (mkCounters (robin c) n, res)
        else (c, hostByHashing pool val)
  end.

(** staticUpstream.Select *)
Definition Select (rand : nat -> Z) (policy : option Policy) (pool : HostPool) (r : request) (c : counters)
    : counters * go (option nat) :=
  match pool with
  | [h] => (c, Ret (if negb (Available h) then None else Some O))
  | _ =>
      if forallb (fun h => negb (Available h)) pool then (c, Ret None)
      else match policy with
           | None => (c, Ret (RandomSelect rand pool))
           | Some p => PolicySelect rand p pool r c
           end
  end.

(** ** Paths (staticUpstream.AllowedPath) *)

Definition with_slash (original cleaned : string) : string :=
  if HasSuffix original "/" && negb (HasSuffix cleaned "/") then cleaned +:+ "/" else cleaned.

Definition AllowedPath (CaseSensitivePath : bool) (from : string) (IgnoredSubPaths : list string) (requestPath : string) : bool :=
  forallb (fun ignored =>
    negb (Path_Matches CaseSensitivePath (with_slash requestPath (PathClean requestPath))
            (with_slash ignored (PathJoin [from; ignored])))) IgnoredSubPaths.

(** ** Hosts of a configuration *)

(** for p := pIni; p <= pEnd; p++: it does not end when pEnd is the greatest int. *)
Definition range_hosts (us ue : string) (pIni pEnd : Z) : outcome (list string) :=
  if pEnd =? max_int then Looping
  else Done (map (fun p => us +:+ ":" +:+ Itoa p +:+ ue) (seqZ pIni (pEnd - pIni + 1))).

Definition parseUpstream (u : string) : outcome (list string) :=
  if HasPrefix u "unix:" then Done [u]
  else
    let isSrv := HasPrefix u "srv://" || HasPrefix u "srv+https://" in
    let colonIdx := LastIndex u ":" in
    let protoIdx := match StrIndex u "://" with Some i => Z.of_nat i | None => -1 end in
    if (colonIdx =? -1) || (colonIdx =? protoIdx) then Done [u]
    else if isSrv then Failed ("service locator " +:+ u +:+ " can not have port specified")
    else
      let us := take_str (Z.to_nat colonIdx) u in
      let rest := drop_str (Z.to_nat colonIdx) u in
      let '(ports, ue) :=
        match StrIndex rest "/" with
        | Some nextSlash => (String.substring 1 (nextSlash - 1) rest, drop_str nextSlash rest)
        | None => (drop_str 1 rest, EmptyString)
        end in
      let separators := count_char "-" ports in
      if Nat.eqb separators 0 then Done [u]
      else if Nat.ltb 1 separators then
        Failed ("port range [" +:+ ports +:+ "] has " +:+ Itoa (Z.of_nat separators) +:+ " separators")
      else
        match Split ports "-" with
        | [ini; fin] =>
            let '(pIni, err1) := Atoi ini in
            if err1 : bool then Failed ("strconv.Atoi: parsing " +:+ ini)
            else
              let '(pEnd, err2) := Atoi fin in
              if err2 : bool then Failed ("strconv.Atoi: parsing " +:+ fin)
              else if pEnd <=? pIni then Failed ("port range [" +:+ ports +:+ "] is invalid")
              else range_hosts us ue pIni pEnd
        | _ => Panicked "index out of range"
        end.

(** ** Configuration *)

Record HealthCheck := mkHealth {
  hc_Path : string; hc_Interval : Z; hc_Timeout : Z; hc_Host : string; hc_Port : string; hc_ContentString : string
}.

Record staticUpstream := mkUpstream {
  from : string;
  upstreamHeaders : header; downstreamHeaders : header;
  Hosts : HostPool;
  u_Policy : option Policy;
  KeepAlive : Z; FallbackDelay : Z; Timeout : Z; u_FailTimeout : Z; TryDuration : Z; TryInterval : Z;
  u_MaxConns : Z;
  u_HealthCheck : HealthCheck;
  u_WithoutPathPrefix : string; IgnoredSubPaths : list string;
  insecureSkipVerify : bool;
  MaxFails : Z;
  CaCertPool : option (list string);
  upstreamHeaderReplacements : gmap string (list headerReplacement);
  downstreamHeaderReplacements : gmap string (list headerReplacement)
}.

Definition second : Z := 10 ^ 9.
Definition DefaultMaxIdleConnsPerHost : Z := 2.

Definition new_upstream : staticUpstream :=
  mkUpstream EmptyString ∅ ∅ [] (Some Random) DefaultMaxIdleConnsPerHost 0 (30 * second) 0 0 (250 * 10 ^ 6) 0
    (mkHealth EmptyString 0 0 EmptyString EmptyString EmptyString) EmptyString [] false 1 None ∅ ∅.

Definition set_from x (u : staticUpstream) : staticUpstream :=
  mkUpstream x (upstreamHeaders u) (downstreamHeaders u) (Hosts u) (u_Policy u) (KeepAlive u) (FallbackDelay u) (Timeout u)
    (u_FailTimeout u) (TryDuration u) (TryInterval u) (u_MaxConns u) (u_HealthCheck u) (u_WithoutPathPrefix u)
    (IgnoredSubPaths u) (insecureSkipVerify u) (MaxFails u) (CaCertPool u) (upstreamHeaderReplacements u)
    (downstreamHeaderReplacements u).
Definition set_upstreamHeaders x (u : staticUpstream) : staticUpstream :=
  mkUpstream (from u) x (downstreamHeaders u) (Hosts u) (u_Policy u) (KeepAlive u) (FallbackDelay u) (Timeout u)
    (u_FailTimeout u) (TryDuration u) (TryInterval u) (u_MaxConns u) (u_HealthCheck u) (u_WithoutPathPrefix u)
    (IgnoredSubPaths u) (insecureSkipVerify u) (MaxFails u) (CaCertPool u) (upstreamHeaderReplacements u)
    (downstreamHeaderReplacements u).
Definition set_downstreamHeaders x (u : staticUpstream) : staticUpstream :=
  mkUpstream (from u) (upstreamHeaders u) x (Hosts u) (u_Policy u) (KeepAlive u) (FallbackDelay u) (Timeout u)
    (u_FailTimeout u) (TryDuration u) (TryInterval u) (u_MaxConns u) (u_HealthCheck u) (u_WithoutPathPrefix u)
    (IgnoredSubPaths u) (insecureSkipVerify u) (MaxFails u) (CaCertPool u) (upstreamHeaderReplacements u)
    (downstreamHeaderReplacements u).
Definition set_Hosts x (u : staticUpstream) : staticUpstream :=
  mkUpstream (from u) (upstreamHeaders u) (downstreamHeaders u) x (u_Policy u) (KeepAlive u) (FallbackDelay u) (Timeout u)
    (u_FailTimeout u) (TryDuration u) (TryInterval u) (u_MaxConns u) (u_HealthCheck u) (u_WithoutPathPrefix u)
    (IgnoredSubPaths u) (insecureSkipVerify u) (MaxFails u) (CaCertPool u) (upstreamHeaderReplacements u)
    (downstreamHeaderReplacements u).
Definition set_Policy x (u : staticUpstream) : staticUpstream :=
  mkUpstream (from u) (upstreamHeaders u) (downstreamHeaders u) (Hosts u) x (KeepAlive u) (FallbackDelay u) (Timeout u)
    (u_FailTimeout u) (TryDuration u) (TryInterval u) (u_MaxConns u) (u_HealthCheck u) (u_WithoutPathPrefix u)
    (IgnoredSubPaths u) (insecureSkipVerify u) (MaxFails u) (CaCertPool u) (upstreamHeaderReplacements u)
    (downstreamHeaderReplacements u).
Definition set_KeepAlive x (u : staticUpstream) : staticUpstream :=
  mkUpstream (from u) (upstreamHeaders u) (downstreamHeaders u) (Hosts u) (u_Policy u) x (FallbackDelay u) (Timeout u)
    (u_FailTimeout u) (TryDuration u) (TryInterval u) (u_MaxConns u) (u_HealthCheck u) (u_WithoutPathPrefix u)
    (IgnoredSubPaths u) (insecureSkipVerify u) (MaxFails u) (CaCertPool u) (upstreamHeaderReplacements u)
    (downstreamHeaderReplacements u).
Definition set_FallbackDelay x (u : staticUpstream) : staticUpstream :=
  mkUpstream (from u) (upstreamHeaders u) (downstreamHeaders u) (Hosts u) (u_Policy u) (KeepAlive u) x (Timeout u)
    (u_FailTimeout u) (TryDuration u) (TryInterval u) (u_MaxConns u) (u_HealthCheck u) (u_WithoutPathPrefix u)
    (IgnoredSubPaths u) (insecureSkipVerify u) (MaxFails u) (CaCertPool u) (upstreamHeaderReplacements u)
    (downstreamHeaderReplacements u).
Definition set_Timeout x (u : staticUpstream) : staticUpstream :=
  mkUpstream (from u) (upstreamHeaders u) (downstreamHeaders u) (Hosts u) (u_Policy u) (KeepAlive u) (FallbackDelay u) x
    (u_FailTimeout u) (TryDuration u) (TryInterval u) (u_MaxConns u) (u_HealthCheck u) (u_WithoutPathPrefix u)
    (IgnoredSubPaths u) (insecureSkipVerify u) (MaxFails u) (CaCertPool u) (upstreamHeaderReplacements u)
    (downstreamHeaderReplacements u).
Definition set_FailTimeout x (u : staticUpstream) : staticUpstream :=
  mkUpstream (from u) (upstreamHeaders u) (downstreamHeaders u) (Hosts u) (u_Policy u) (KeepAlive u) (FallbackDelay u)
    (Timeout u) x (TryDuration u) (TryInterval u) (u_MaxConns u) (u_HealthCheck u) (u_WithoutPathPrefix u) (IgnoredSubPaths
    u) (insecureSkipVerify u) (MaxFails u) (CaCertPool u) (upstreamHeaderReplacements u) (downstreamHeaderReplacements u).
Definition set_TryDuration x (u : staticUpstream) : staticUpstream :=
  mkUpstream (from u) (upstreamHeaders u) (downstreamHeaders u) (Hosts u) (u_Policy u) (KeepAlive u) (FallbackDelay u)
    (Timeout u) (u_FailTimeout u) x (TryInterval u) (u_MaxConns u) (u_HealthCheck u) (u_WithoutPathPrefix u)
    (IgnoredSubPaths u) (insecureSkipVerify u) (MaxFails u) (CaCertPool u) (upstreamHeaderReplacements u)
    (downstreamHeaderReplacements u).
Definition set_TryInterval x (u : staticUpstream) : staticUpstream :=
  mkUpstream (from u) (upstreamHeaders u) (downstreamHeaders u) (Hosts u) (u_Policy u) (KeepAlive u) (FallbackDelay u)
    (Timeout u) (u_FailTimeout u) (TryDuration u) x (u_MaxConns u) (u_HealthCheck u) (u_WithoutPathPrefix u)
    (IgnoredSubPaths u) (insecureSkipVerify u) (MaxFails u) (CaCertPool u) (upstreamHeaderReplacements u)
    (downstreamHeaderReplacements u).
Definition set_MaxConns x (u : staticUpstream) : staticUpstream :=
  mkUpstream (from u) (upstreamHeaders u) (downstreamHeaders u) (Hosts u) (u_Policy u) (KeepAlive u) (FallbackDelay u)
    (Timeout u) (u_FailTimeout u) (TryDuration u) (TryInterval u) x (u_HealthCheck u) (u_WithoutPathPrefix u)
    (IgnoredSubPaths u) (insecureSkipVerify u) (MaxFails u) (CaCertPool u) (upstreamHeaderReplacements u)
    (downstreamHeaderReplacements u).
Definition set_HealthCheck x (u : staticUpstream) : staticUpstream :=
  mkUpstream (from u) (upstreamHeaders u) (downstreamHeaders u) (Hosts u) (u_Policy u) (KeepAlive u) (FallbackDelay u)
    (Timeout u) (u_FailTimeout u) (TryDuration u) (TryInterval u) (u_MaxConns u) x (u_WithoutPathPrefix u) (IgnoredSubPaths
    u) (insecureSkipVerify u) (MaxFails u) (CaCertPool u) (upstreamHeaderReplacements u) (downstreamHeaderReplacements u).
Definition set_WithoutPathPrefix x (u : staticUpstream) : staticUpstream :=
  mkUpstream (from u) (upstreamHeaders u) (downstreamHeaders u) (Hosts u) (u_Policy u) (KeepAlive u) (FallbackDelay u)
    (Timeout u) (u_FailTimeout u) (TryDuration u) (TryInterval u) (u_MaxConns u) (u_HealthCheck u) x (IgnoredSubPaths u)
    (insecureSkipVerify u) (MaxFails u) (CaCertPool u) (upstreamHeaderReplacements u) (downstreamHeaderReplacements u).
Definition set_IgnoredSubPaths x (u : staticUpstream) : staticUpstream :=
  mkUpstream (from u) (upstreamHeaders u) (downstreamHeaders u) (Hosts u) (u_Policy u) (KeepAlive u) (FallbackDelay u)
    (Timeout u) (u_FailTimeout u) (TryDuration u) (TryInterval u) (u_MaxConns u) (u_HealthCheck u) (u_WithoutPathPrefix u) x
    (insecureSkipVerify u) (MaxFails u) (CaCertPool u) (upstreamHeaderReplacements u) (downstreamHeaderReplacements u).
Definition set_insecureSkipVerify x (u : staticUpstream) : staticUpstream :=
  mkUpstream (from u) (upstreamHeaders u) (downstreamHeaders u) (Hosts u) (u_Policy u) (KeepAlive u) (FallbackDelay u)
    (Timeout u) (u_FailTimeout u) (TryDuration u) (TryInterval u) (u_MaxConns u) (u_HealthCheck u) (u_WithoutPathPrefix u)
    (IgnoredSubPaths u) x (MaxFails u) (CaCertPool u) (upstreamHeaderReplacements u) (downstreamHeaderReplacements u).
Definition set_MaxFails x (u : staticUpstream) : staticUpstream :=
  mkUpstream (from u) (upstreamHeaders u) (downstreamHeaders u) (Hosts u) (u_Policy u) (KeepAlive u) (FallbackDelay u)
    (Timeout u) (u_FailTimeout u) (TryDuration u) (TryInterval u) (u_MaxConns u) (u_HealthCheck u) (u_WithoutPathPrefix u)
    (IgnoredSubPaths u) (insecureSkipVerify u) x (CaCertPool u) (upstreamHeaderReplacements u) (downstreamHeaderReplacements
    u).
Definition set_CaCertPool x (u : staticUpstream) : staticUpstream :=
  mkUpstream (from u) (upstreamHeaders u) (downstreamHeaders u) (Hosts u) (u_Policy u) (KeepAlive u) (FallbackDelay u)
    (Timeout u) (u_FailTimeout u) (TryDuration u) (TryInterval u) (u_MaxConns u) (u_HealthCheck u) (u_WithoutPathPrefix u)
    (IgnoredSubPaths u) (insecureSkipVerify u) (MaxFails u) x (upstreamHeaderReplacements u) (downstreamHeaderReplacements
    u).
Definition set_upstreamHeaderReplacements x (u : staticUpstream) : staticUpstream :=
  mkUpstream (from u) (upstreamHeaders u) (downstreamHeaders u) (Hosts u) (u_Policy u) (KeepAlive u) (FallbackDelay u)
    (Timeout u) (u_FailTimeout u) (TryDuration u) (TryInterval u) (u_MaxConns u) (u_HealthCheck u) (u_WithoutPathPrefix u)
    (IgnoredSubPaths u) (insecureSkipVerify u) (MaxFails u) (CaCertPool u) x (downstreamHeaderReplacements u).
Definition set_downstreamHeaderReplacements x (u : staticUpstream) : staticUpstream :=
  mkUpstream (from u) (upstreamHeaders u) (downstreamHeaders u) (Hosts u) (u_Policy u) (KeepAlive u) (FallbackDelay u)
    (Timeout u) (u_FailTimeout u) (TryDuration u) (TryInterval u) (u_MaxConns u) (u_HealthCheck u) (u_WithoutPathPrefix u)
    (IgnoredSubPaths u) (insecureSkipVerify u) (MaxFails u) (CaCertPool u) (upstreamHeaderReplacements u) x.

Section Configuration.
(** url.Parse, time.ParseDuration and regexp.Compile *)
Context (Parse : string -> URL + string) (ParseDuration : string -> Z + string).
Context (Compile : string -> (string -> string -> string) + string).
(** ioutil.ReadFile, and whether a file has a certificate *)
Context (ReadFile : string -> string + string) (has_certificate : string -> bool).

(** hostName[len("unix://"):] when a connection is made *)
Definition socket_path (hostName : string) : go string :=
  if Nat.ltb (String.length hostName) 7 then Panic "slice bounds out of range" else Ret (drop_str 7 hostName).

Definition srv_service (locator : string) : string :=
  if HasPrefix locator "srv://" then drop_str 6 locator
  else if HasPrefix locator "srv+https://" then drop_str 12 locator else locator.

Definition NewSingleHostReverseProxy (target : URL) (without : string) (keepalive timeout fallbackDelay : Z) : ReverseProxy :=
  let srv := HasPrefix (Scheme target) "srv" in
  let transport :=
    if decide (Scheme target = "unix") then SocketTransport (socket_path (URLString target)) timeout
    else if decide (Scheme target = "quic") then QuicTransport
    else if negb (keepalive =? DefaultMaxIdleConnsPerHost) || srv then
      TunedTransport (if srv then Some (srv_service (URLString target)) else None) timeout fallbackDelay keepalive
    else DefaultTransport timeout fallbackDelay in
  mkReverseProxy target without transport false None.

Definition UseInsecureTransport (rp : ReverseProxy) : ReverseProxy :=
  mkReverseProxy (rp_target rp) (rp_without rp) (rp_Transport rp) true (rp_RootCAs rp).
Definition UseOwnCACertificates (CaCertPool : list string) (rp : ReverseProxy) : ReverseProxy :=
  mkReverseProxy (rp_target rp) (rp_without rp) (rp_Transport rp) (rp_insecure rp) (Some CaCertPool).

Definition NewHost (u : staticUpstream) (host : string) : UpstreamHost + string :=
  let host :=
    if negb (HasPrefix host "http") && negb (HasPrefix host "unix:") && negb (HasPrefix host "quic:") &&
       negb (HasPrefix host "srv://") && negb (HasPrefix host "srv+https://")
    then "http://" +:+ host else host in
  match Parse host with
  | inr err => inr err
  | inl baseURL =>
      let rp := NewSingleHostReverseProxy baseURL (u_WithoutPathPrefix u) (KeepAlive u) (Timeout u) (FallbackDelay u) in
      let rp := if insecureSkipVerify u then UseInsecureTransport rp else rp in
      let rp := match CaCertPool u with Some p => UseOwnCACertificates p rp | None => rp end in
      inl (mkHost 0 (u_MaxConns u) host (upstreamHeaders u) (downstreamHeaders u) (u_FailTimeout u) (Some (MaxFails u))
             (u_WithoutPathPrefix u) (Some rp) 0 0 None (upstreamHeaderReplacements u) (downstreamHeaderReplacements u))
  end.

(** The policies that init registers *)
Definition supportedPolicies (name arg : string) : option Policy :=
  if decide (name = "random") then Some Random
  else if decide (name = "least_conn") then Some LeastConn
  else if decide (name = "round_robin") then Some RoundRobin
  else if decide (name = "ip_hash") then Some IPHash
  else if decide (name = "first") then Some First
  else if decide (name = "uri_hash") then Some URIHash
  else if decide (name = "header") then Some (Header arg)
  else None.

Definition Replacements_Add (key : string) (value : headerReplacement) (h : gmap string (list headerReplacement))
    : gmap string (list headerReplacement) :=
  let key := CanonicalHeaderKey key in <[key := (default [] (h !! key) ++ [value])%list]> h.

(** What a subdirective leaves: the dispenser and the upstream, or an error *)
Definition parsed : Type := (Dispenser * staticUpstream) + string.

(** if !c.NextArg() { return c.ArgErr() } *)
Definition next_arg (d : Dispenser) (k : Dispenser -> parsed) : parsed :=
  match NextArg d with (d1, true) => k d1 | (d1, false) => inr (ArgErr d1) end.

(** One argument that is a duration, or a number *)
Definition duration_arg (d : Dispenser) (k : Z -> staticUpstream) : parsed :=
  next_arg d (fun d1 => match ParseDuration (Val d1) with inl dur => inl (d1, k dur) | inr err => inr err end).

Definition number_err (s : string) : string := "strconv: parsing " +:+ s.
Definition number_arg (d : Dispenser) (k : Dispenser -> Z -> parsed) : parsed :=
  next_arg d (fun d1 => let '(n, err) := Atoi (Val d1) in if err : bool then inr (number_err (Val d1)) else k d1 n).

(** the interval and the timeout of health checks take their argument with c.Args *)
Definition duration_target (d : Dispenser) (k : Z -> staticUpstream) : parsed :=
  match Args 1 d with
  | (d1, [v], true) => match ParseDuration v with inl dur => inl (d1, k dur) | inr err => inr err end
  | (d1, _, _) => inr (ArgErr d1)
  end.

Definition on_health (f : HealthCheck -> HealthCheck) (u : staticUpstream) : staticUpstream :=
  set_HealthCheck (f (u_HealthCheck u)) u.
Definition set_hc_Path (x : string) (h : HealthCheck) : HealthCheck :=
  mkHealth x (if hc_Interval h =? 0 then 30 * second else hc_Interval h) (if hc_Timeout h =? 0 then 60 * second else hc_Timeout h)
    (hc_Host h) (hc_Port h) (hc_ContentString h).
Definition set_hc_Interval (x : Z) (h : HealthCheck) : HealthCheck :=
  mkHealth (hc_Path h) x (hc_Timeout h) (hc_Host h) (hc_Port h) (hc_ContentString h).
Definition set_hc_Timeout (x : Z) (h : HealthCheck) : HealthCheck :=
  mkHealth (hc_Path h) (hc_Interval h) x (hc_Host h) (hc_Port h) (hc_ContentString h).
Definition set_hc_Host (x : string) (h : HealthCheck) : HealthCheck :=
  mkHealth (hc_Path h) (hc_Interval h) (hc_Timeout h) x (hc_Port h) (hc_ContentString h).
Definition set_hc_Port (x : string) (h : HealthCheck) : HealthCheck :=
  mkHealth (hc_Path h) (hc_Interval h) (hc_Timeout h) (hc_Host h) x (hc_ContentString h).
Definition set_hc_Content (x : string) (h : HealthCheck) : HealthCheck :=
  mkHealth (hc_Path h) (hc_Interval h) (hc_Timeout h) (hc_Host h) (hc_Port h) x.

(** header_upstream and header_downstream *)
Definition header_rule (isUpstream : bool) (d : Dispenser) (u : staticUpstream) : parsed :=
  let '(d1, vals, enough) := Args 3 d in
  let header := default EmptyString (vals !! 0%nat) in
  let value := default EmptyString (vals !! 1%nat) in
  let replaced := default EmptyString (vals !! 2%nat) in
  if enough : bool then
    if HasPrefix header "-" || HasPrefix header "+" then inr (ArgErr d1)
    else match Compile value with
         | inr err => inr err
         | inl r =>
             inl (d1, if isUpstream
                      then set_upstreamHeaderReplacements
                             (Replacements_Add header (mkReplacement r replaced) (upstreamHeaderReplacements u)) u
                      else set_downstreamHeaderReplacements
                             (Replacements_Add header (mkReplacement r replaced) (downstreamHeaderReplacements u)) u)
         end
  else if bool_decide (value = EmptyString) && negb (HasPrefix header "-") then inr (ArgErr d1)
  else inl (d1, if isUpstream then set_upstreamHeaders (Header_Add header value (upstreamHeaders u)) u
                else set_downstreamHeaders (Header_Add header value (downstreamHeaders u)) u).

(** The files of ca_certificates, each of them once *)
Fixpoint ca_pool (d : Dispenser) (files added : list string) : list string + string :=
  match files with
  | [] => inl added
  | caFile :: rest =>
      if decide (caFile ∈ added) then ca_pool d rest added
      else match ReadFile caFile with
           | inr err => inr (Err d err)
           | inl crt =>
               if has_certificate crt then ca_pool d rest (added ++ [caFile])
               else inr (Err d ("loading CA certificate '" +:+ caFile +:+ "': no certificates were successfully parsed"))
           end
  end.

Definition add_headers (l : list (string * string)) (u : staticUpstream) : staticUpstream :=
  set_upstreamHeaders (fold_left (fun h kv => Header_Add kv.1 kv.2 h) l (upstreamHeaders u)) u.

Definition property (d : Dispenser) (u : staticUpstream) (hasSrv : bool) : parsed :=
  let name := Val d in
  if decide (name = "policy") then
    next_arg d (fun d1 =>
      let '(d2, more) := NextArg d1 in
      match supportedPolicies (Val d1) (if more : bool then Val d2 else EmptyString) with
      | None => inr (ArgErr d1)
      | Some p => inl (d2, set_Policy (Some p) u)
      end)
  else if decide (name = "fallback_delay") then duration_arg d (fun x => set_FallbackDelay x u)
  else if decide (name = "fail_timeout") then duration_arg d (fun x => set_FailTimeout x u)
  else if decide (name = "max_fails") then
    number_arg d (fun d1 n => if n <? 1 then inr (Err d1 "max_fails must be at least 1") else inl (d1, set_MaxFails (wrapS 32 n) u))
  else if decide (name = "try_duration") then duration_arg d (fun x => set_TryDuration x u)
  else if decide (name = "try_interval") then duration_arg d (fun x => set_TryInterval x u)
  else if decide (name = "max_conns") then number_arg d (fun d1 n => inl (d1, set_MaxConns n u))
  else if decide (name = "health_check") then next_arg d (fun d1 => inl (d1, on_health (set_hc_Path (Val d1)) u))
  else if decide (name = "health_check_interval") then duration_target d (fun x => on_health (set_hc_Interval x) u)
  else if decide (name = "health_check_timeout") then duration_target d (fun x => on_health (set_hc_Timeout x) u)
  else if decide (name = "health_check_port") then
    next_arg d (fun d1 =>
      if hasSrv then inr (Err d1 "health_check_port directive is not allowed when upstream is SRV locator")
      else
        let '(n, err) := Atoi (Val d1) in
        if err : bool then inr (number_err (Val d1))
        else if n <? 0 then inr (Err d1 ("invalid health_check_port '" +:+ Val d1 +:+ "'"))
        else inl (d1, on_health (set_hc_Port (Val d1)) u))
  else if decide (name = "health_check_contains") then next_arg d (fun d1 => inl (d1, on_health (set_hc_Content (Val d1)) u))
  else if decide (name = "header_upstream") then header_rule true d u
  else if decide (name = "header_downstream") then header_rule false d u
  else if decide (name = "transparent") then
    inl (d, add_headers [("Host", "{host}"); ("X-Real-IP", "{remote}"); ("X-Forwarded-Proto", "{scheme}");
                         ("X-Forwarded-Port", "{server_port}")] u)
  else if decide (name = "websocket") then
    inl (d, add_headers [("Connection", "{>Connection}"); ("Upgrade", "{>Upgrade}")] u)
  else if decide (name = "without") then next_arg d (fun d1 => inl (d1, set_WithoutPathPrefix (Val d1) u))
  else if decide (name = "except") then
    match RemainingArgs d with
    | (d1, []) => inr (ArgErr d1)
    | (d1, ignoredPaths) => inl (d1, set_IgnoredSubPaths ignoredPaths u)
    end
  else if decide (name = "insecure_skip_verify") then inl (d, set_insecureSkipVerify true u)
  else if decide (name = "ca_certificates") then
    match RemainingArgs d with
    | (d1, []) => inr (ArgErr d1)
    | (d1, files) => match ca_pool d1 files [] with inl p => inl (d1, set_CaCertPool (Some p) u) | inr err => inr err end
    end
  else if decide (name = "keepalive") then
    number_arg d (fun d1 n => if n <? 0 then inr (ArgErr d1) else inl (d1, set_KeepAlive n u))
  else if decide (name = "timeout") then
    next_arg d (fun d1 =>
      match ParseDuration (Val d1) with
      | inl dur => inl (d1, set_Timeout dur u)
      | inr _ => inr (Err d1 ("unable to parse timeout duration '" +:+ Val d1 +:+ "'"))
      end)
  else inr (Err d ("unknown property '" +:+ name +:+ "'")).

Definition parseBlock (d : Dispenser) (u : staticUpstream) (hasSrv : bool) : parsed :=
  match property d u hasSrv with
  | inr err => inr err
  | inl (d1, u1) =>
      if insecureSkipVerify u1 && bool_decide (CaCertPool u1 <> None)
      then inr (Err d1 "both insecure_skip_verify and ca_certificates cannot be set in the proxy directive")
      else inl (d1, u1)
  end.

(** for _, t := range c.RemainingArgs() *)
Fixpoint targets (d : Dispenser) (args to : list string) (hasSrv : bool) : outcome (list string * bool) :=
  match args with
  | [] => Done (to, hasSrv)
  | t :: rest =>
      if Nat.ltb 0 (length to) && hasSrv then Failed (Err d "only one upstream is supported when using SRV locator")
      else
        let srv := HasPrefix t "srv://" || HasPrefix t "srv+https://" in
        if srv && Nat.ltb 0 (length to) then Failed (Err d "service locator upstreams can not be mixed with host names")
        else match parseUpstream t with
             | Done parsed => targets d rest (to ++ parsed) (hasSrv || srv)
             | Failed err => Failed err
             | Panicked w => Panicked w
             | Looping => Looping
             end
  end.

(** for c.NextBlock() *)
Fixpoint block_loop (n : nat) (d : Dispenser) (u : staticUpstream) (to : list string) (hasSrv : bool)
    : outcome (Dispenser * staticUpstream * list string) :=
  match n with
  | O => Looping
  | S n' =>
      match NextBlock d with
      | (d1, false) => Done (d1, u, to)
      | (d1, true) =>
          if decide (Val d1 = "upstream") then
            match NextArg d1 with
            | (d2, false) => Failed (ArgErr d2)
            | (d2, true) =>
                if hasSrv then Failed (Err d2 "upstream directive is not supported when backend is service locator")
                else match parseUpstream (Val d2) with
                     | Done parsed => block_loop n' d2 u (to ++ parsed) hasSrv
                     | Failed err => Failed err
                     | Panicked w => Panicked w
                     | Looping => Looping
                     end
            end
          else
            match parseBlock d1 u hasSrv with
            | inr err => Failed err
            | inl (d2, u2) => block_loop n' d2 u2 to hasSrv
            end
      end
  end.

Fixpoint new_hosts (u : staticUpstream) (to : list string) : HostPool + string :=
  match to with
  | [] => inl []
  | host :: rest =>
      match NewHost u host with
      | inr err => inr err
      | inl uh => match new_hosts u rest with inl l => inl (uh :: l) | inr err => inr err end
      end
  end.

Definition health_host (host : string) (u : staticUpstream) : staticUpstream :=
  let hostHeader := Header_Get "Host" (upstreamHeaders u) in
  if bool_decide (hc_Path (u_HealthCheck u) <> EmptyString) && bool_decide (host <> EmptyString) && StrContains hostHeader "{host}"
  then on_health (set_hc_Host (StrReplace hostHeader "{host}" host)) u else u.

(** One proxy directive, from its name *)
Definition one_upstream (n : nat) (d : Dispenser) (host : string) : outcome (Dispenser * staticUpstream) :=
  match Args 1 d with
  | (d1, [path], true) =>
      let u := set_from path new_upstream in
      let '(d2, args) := RemainingArgs d1 in
      match targets d2 args [] false with
      | Done (to, hasSrv) =>
          match block_loop n d2 u to hasSrv with
          | Done (d3, u3, to) =>
              match to with
              | [] => Failed (ArgErr d3)
              | _ =>
                  match new_hosts u3 to with
                  | inr err => Failed err
                  | inl hosts => Done (d3, health_host host (set_Hosts hosts u3))
                  end
              end
          | Failed err => Failed err
          | Panicked w => Panicked w
          | Looping => Looping
          end
      | Failed err => Failed err
      | Panicked w => Panicked w
      | Looping => Looping
      end
  | (d1, _, _) => Failed (ArgErr d1)
  end.

(** for c.Next() *)
Fixpoint NewStaticUpstreams (n : nat) (d : Dispenser) (host : string) (upstreams : list staticUpstream) : outcome (list staticUpstream) :=
  match n with
  | O => Looping
  | S n' =>
      match Next d with
      | (_, false) => Done upstreams
      | (d1, true) =>
          match one_upstream n' d1 host with
          | Done (d2, u) => NewStaticUpstreams n' d2 host (upstreams ++ [u])
          | Failed err => Failed err
          | Panicked w => Panicked w
          | Looping => Looping
          end
      end
  end.
End Configuration.

(** ** Health checks *)

Section Health.
Context (Parse : string -> URL + string).
(** The resolver: targets and ports of a service *)
Context (LookupSRV : string -> list (string * Z) + string).
(** http.NewRequest fails; what the client gets for a URL and a Host: a status and a body, or the error of reading it *)
Context (NewRequestErr : string -> bool) (Do : string -> option string -> (Z * (string + string)) + string).

Definition resolveHost (h : string) : (list string * bool) + string :=
  if negb (HasPrefix h "srv://") && negb (HasPrefix h "srv+https://") then inl ([h], false)
  else
    let proto := if HasPrefix h "srv+https://" then "https" else "http" in
    match LookupSRV h with
    | inr err => inr err
    | inl addrs => inl (map (fun a => proto +:+ "://" +:+ a.1 +:+ ":" +:+ Itoa a.2) addrs, true)
    end.

Definition replacePort (originalURL newPort : string) : string :=
  match Parse originalURL with
  | inr _ => originalURL
  | inl parsedURL =>
      let parsedHost := match SplitHostPort (Host parsedURL) with Some (h, _) => h | None => Host parsedURL end in
      URLString (set_Host (JoinHostPort parsedHost newPort) parsedURL)
  end.

(** Whether a candidate is unhealthy *)
Definition unhealthy (hc : HealthCheck) (isSrv : bool) (addr : string) : bool :=
  let hostURL := (if negb isSrv && bool_decide (hc_Port hc <> EmptyString) then replacePort addr (hc_Port hc) else addr) +:+ hc_Path hc in
  if NewRequestErr hostURL then true
  else match Do hostURL (if decide (hc_Host hc = EmptyString) then None else Some (hc_Host hc)) with
       | inr _ => true
       | inl (StatusCode, body) =>
           if (StatusCode <? 200) || (400 <=? StatusCode) then true
           else if decide (hc_ContentString hc = EmptyString) then false
           else match body with inr _ => true | inl buf => negb (StrContains buf (hc_ContentString hc)) end
       end.

Definition set_health (v : Z) (result : string) (h : UpstreamHost) : UpstreamHost :=
  mkHost (Conns h) (MaxConns h) (Name h) (UpstreamHeaders h) (DownstreamHeaders h) (FailTimeout h) (CheckDown h) (WithoutPathPrefix h)
    (h_ReverseProxy h) (Fails h) v (Some result) (UpstreamHeaderReplacements h) (DownstreamHeaderReplacements h).

Definition check_host (hc : HealthCheck) (host : UpstreamHost) : UpstreamHost :=
  match resolveHost (Name host) with
  | inr err => set_health 1 err host
  | inl (candidates, isSrv) =>
      let unhealthyCount := length (List.filter (unhealthy hc isSrv) candidates) in
      if Nat.eqb unhealthyCount (length candidates) then set_health 1 "Failed" host else set_health 0 "OK" host
  end.

Definition healthCheck (u : staticUpstream) : staticUpstream := set_Hosts (map (check_host (u_HealthCheck u)) (Hosts u)) u.

(** time.NewTicker, the first check, and one for every tick *)
Definition HealthCheckWorker (ticks : nat) (u : staticUpstream) : go staticUpstream :=
  if hc_Interval (u_HealthCheck u) <=? 0 then Panic "non-positive interval for NewTicker"
  else Ret (Nat.iter (S ticks) healthCheck u).

(** The name that connections to a service look up (srvDialerFunc) *)
Definition dialed_service (rp : ReverseProxy) : go (option string) :=
  match rp_Transport rp with
  | TunedTransport (Some service) _ _ _ =>
      match LookupSRV service with
      | inr _ => Ret None
      | inl [] => Panic "index out of range"
      | inl ((target, port) :: _) => Ret (Some (target +:+ ":" +:+ Itoa port))
      end
  | _ => Ret None
  end.
End Health.

(** ** Lemmas: selection *)

Definition none_available (pool : HostPool) : Prop := forall h, h ∈ pool -> Available h = false.
Definition available_at (pool : HostPool) (k : nat) : Prop := exists h, pool !! k = Some h /\ Available h = true.

Lemma random_sound rand pool i count best k : random_loop rand pool i count best = Some k ->
  best = Some k \/ exists j, k = (i + j)%nat /\ available_at pool j.
Proof.
  revert i count best. induction pool as [|h pool IH]; intros i count best; cbn [random_loop]; [auto|].
  destruct (Available h) eqn:Ea; cbn [negb]; intros H; apply IH in H as [H | (j & -> & ha & Hj & Ha)].
  - destruct (_ =? 0); [|by left]. injection H as <-. right. exists O. split; [lia|]. by exists h.
  - right. exists (S j). split; [lia|]. by exists ha.
  - by left.
  - right. exists (S j). split; [lia|]. by exists ha.
Qed.

Lemma random_complete rand pool i count best : ((0 < count)%nat -> best <> None) ->
  random_loop rand pool i count best = None -> best = None /\ none_available pool.
Proof.
  revert i count best. induction pool as [|h pool IH]; intros i count best Hc; cbn [random_loop].
  - intros ->. split; [done|]. intros h Hh. by apply elem_of_nil in Hh.
  - destruct (Available h) eqn:Ea; cbn [negb]; intros H.
    + apply IH in H as [H _].
      * destruct count as [|count]; [by rewrite Z.rem_1_r in H|]. destruct (_ =? 0); [done|]. by destruct Hc; [lia|].
      * intros _. destruct count as [|count]; [by rewrite Z.rem_1_r|]. destruct (_ =? 0); [done|]. apply Hc. lia.
    + apply IH in H as [H1 H2]; [|done]. split; [done|]. intros h' [->|Hh]%elem_of_cons; auto.
Qed.

(** What LeastConn knows of the hosts it has seen *)
Definition least_state (pre : HostPool) (count least : Z) (best : option nat) : Prop :=
  match best with
  | None => count = 0 /\ least = max_int /\ none_available pre
  | Some k => 1 <= count /\ exists h, pre !! k = Some h /\ Available h = true /\ Conns h = least /\
      forall h', h' ∈ pre -> Available h' = true -> least <= Conns h'
  end.

Definition least_result (pool : HostPool) (res : option nat) : Prop :=
  match res with
  | None => none_available pool
  | Some k => exists h, pool !! k = Some h /\ Available h = true /\
      forall h', h' ∈ pool -> Available h' = true -> Conns h <= Conns h'
  end.

Lemma least_skip pre h count least best : least_state pre count least best ->
  (Available h = true -> best <> None /\ least <= Conns h) -> least_state (pre ++ [h]) count least best.
Proof.
  destruct best as [k|]; cbn.
  - intros (Hc & h0 & Hk & Ha & Hl & Hall) Hh. split; [done|]. exists h0.
    split; [by apply lookup_app_l_Some|]. split_and!; [done..|].
    intros h' [Hi|Hi%list_elem_of_singleton]%elem_of_app Ha'; [auto | subst; by apply Hh].
  - intros (-> & -> & Hn) Hh. split_and!; [done..|].
    intros h' [Hi|Hi%list_elem_of_singleton]%elem_of_app; [auto|]. subst h'. destruct (Available h); [by destruct Hh | done].
Qed.

Lemma least_new pre h count : 1 <= count -> Available h = true ->
  (forall h', h' ∈ pre -> Available h' = true -> Conns h <= Conns h') ->
  least_state (pre ++ [h]) count (Conns h) (Some (length pre)).
Proof.
  intros Hc Ha Hall. split; [done|]. exists h. split; [by apply list_lookup_middle|]. split_and!; [done..|].
  intros h' [Hi|Hi%list_elem_of_singleton]%elem_of_app Ha'; [auto | subst; lia].
Qed.

Lemma least_spec rand rest pre n count least best : (forall h, h ∈ rest -> Conns h <= max_int) ->
  least_state pre count least best ->
  least_result (pre ++ rest) (least_loop rand rest (length pre) n count least best).
Proof.
  revert pre n count least best. induction rest as [|h rest IH]; intros pre n count least best Hm Hs; cbn [least_loop].
  - rewrite app_nil_r. destruct best as [k|]; cbn in *; [|tauto]. destruct Hs as (_ & h & ? & ? & <- & ?). by exists h.
  - assert (Conns h <= max_int) as Hh by (apply Hm; by left).
    rewrite (cons_middle h pre rest), app_assoc. replace (S (length pre)) with (length (pre ++ [h])) by (rewrite length_app; cbn; lia).
    destruct (Available h) eqn:Ea; cbn [negb].
    2: { apply IH; [intros; apply Hm; by right|]. apply least_skip; [done|]. by rewrite Ea. }
    assert (forall h', h' ∈ pre -> Available h' = true -> least <= Conns h') as Hall.
    { destruct best; cbn in Hs; [destruct Hs as (_ & ? & _ & _ & _ & H); exact H|].
      destruct Hs as (_ & _ & Hn). intros h' Hi Ha'. by rewrite (Hn h' Hi) in Ha'. }
    destruct (Conns h <? least) eqn:El; [apply Z.ltb_lt in El | apply Z.ltb_ge in El].
    + rewrite Z.eqb_refl. cbn [Z.add]. rewrite Z.rem_1_r. cbn [Z.eqb]. apply IH; [intros; apply Hm; by right|].
      apply least_new; [lia | done|]. intros h' Hi Ha'. specialize (Hall h' Hi Ha'). lia.
    + destruct (Conns h =? least) eqn:Ee; [apply Z.eqb_eq in Ee | apply Z.eqb_neq in Ee].
      * apply IH; [intros; apply Hm; by right|]. destruct (Z.rem _ _ =? 0) eqn:Er.
        -- rewrite <- Ee. apply least_new; [destruct best; cbn in Hs; lia | done | by rewrite Ee].
        -- destruct best as [k|]; cbn in Hs.
           ++ apply least_skip; [|intros _; split; [done | lia]]. destruct Hs as (Hc & Hs). split; [lia | exact Hs].
           ++ destruct Hs as (-> & _). by rewrite Z.rem_1_r in Er.
      * apply IH; [intros; apply Hm; by right|]. apply least_skip; [done|]. intros _. split; [|lia].
        destruct best; [done|]. cbn in Hs. destruct Hs as (_ & -> & _). lia.
Qed.

(** *** Probing *)

Section Probes.
Context (pool : HostPool) (small : 0 < Z.of_nat (length pool) < 2 ^ 32).

Lemma poolLen_eq : poolLen pool = Z.of_nat (length pool).
Proof using small. unfold poolLen. apply wrapU_small. unfold is_u. lia. Qed.

Lemma host_at_ok i : exists h, host_at pool i = Ret (Z.to_nat (i mod Z.of_nat (length pool)), h) /\
  pool !! Z.to_nat (i mod Z.of_nat (length pool)) = Some h.
Proof using small.
  unfold host_at. rewrite poolLen_eq. destruct (Z.eqb_spec (Z.of_nat (length pool)) 0); [lia|].
  pose proof (Z.mod_pos_bound i (Z.of_nat (length pool))).
  destruct (lookup_lt_is_Some_2 pool (Z.to_nat (i mod Z.of_nat (length pool)))) as [h Hh]; [lia|].
  exists h. by rewrite Hh.
Qed.

(** The places a loop looks at, from an index and with a step for every round *)
Definition probed (k : nat) (probe : Z -> Z) (n : nat) : Prop :=
  exists j, 0 <= j < Z.of_nat n /\ Z.to_nat (probe j mod Z.of_nat (length pool)) = k.

Definition found (probe : Z -> Z) (n : nat) (o : option nat) : Prop :=
  match o with
  | Some k => available_at pool k /\ probed k probe n
  | None => forall k, probed k probe n -> ~ available_at pool k
  end.

Lemma found_here probe n k h : probe 0 mod Z.of_nat (length pool) = Z.of_nat k -> pool !! k = Some h -> Available h = true ->
  found probe (S n) (Some k).
Proof using. intros Hp Hk Ha. split; [by exists h|]. exists 0. split; [lia|]. rewrite Hp. lia. Qed.

Lemma found_later probe probe' n o h : (forall j, 0 <= j -> probe' j = probe (j + 1)) ->
  pool !! Z.to_nat (probe 0 mod Z.of_nat (length pool)) = Some h -> Available h = false ->
  found probe' n o -> found probe (S n) o.
Proof using.
  intros Hp Hk Ha. destruct o as [k|]; cbn.
  - intros [Hk' (j & Hj & Hq)]. split; [done|]. exists (j + 1). rewrite <- Hp by lia. split; [lia | done].
  - intros H k (j & Hj & Hq) (h' & Hh & Ha'). destruct (decide (j = 0)) as [->|Hne].
    + rewrite Hq in Hk. congruence.
    + apply (H k); [|by exists h']. exists (j - 1). split; [lia|]. rewrite Hp by lia. by replace (j - 1 + 1) with j by lia.
Qed.

Lemma robin_found n r : exists r' o, robin_loop n pool r = (r', Ret o) /\ found (fun j => wrapU 32 (r + 1 + j)) n o.
Proof using small.
  revert r. induction n as [|n IH]; intros r; cbn [robin_loop].
  - eexists _, _. split; [done|]. intros k (j & Hj & _). lia.
  - destruct (host_at_ok (wrapU 32 (r + 1))) as (h & -> & Hh). destruct (Available h) eqn:Ea.
    + eexists _, _. split; [done|]. eapply found_here; [|done..]. rewrite Z.add_0_r. rewrite Z2Nat.id; [done|].
      apply Z.mod_pos_bound. lia.
    + destruct (IH (wrapU 32 (r + 1))) as (r' & o & -> & Ho). eexists _, _. split; [done|].
      eapply found_later; [|by rewrite Z.add_0_r | done | exact Ho]. intros j Hj. unfold wrapU.
      rewrite <- Z.add_assoc, Zplus_mod_idemp_l. f_equal. lia.
Qed.

Lemma hash_found n i index : 0 <= i -> exists o, hash_loop n pool i index = Ret o /\
  found (fun j => wrapU 32 (index + ((j + 1) * i + j * (j + 1) / 2))) n o.
Proof using small.
  revert i index. induction n as [|n IH]; intros i index Hi; cbn [hash_loop].
  - eexists. split; [done|]. intros k (j & Hj & _). lia.
  - destruct (host_at_ok (wrapU 32 (index + i))) as (h & -> & Hh). cbn [go_bind fst snd].
    assert (index + ((0 + 1) * i + 0 * (0 + 1) / 2) = index + i) as H0 by (rewrite Z.mul_0_l, Z.div_0_l; lia).
    destruct (Available h) eqn:Ea.
    + eexists. split; [done|]. eapply found_here; [|done..]. rewrite H0. rewrite Z2Nat.id; [done|]. apply Z.mod_pos_bound. lia.
    + destruct (IH (i + 1) (wrapU 32 (index + i))) as (o & -> & Ho); [lia|]. eexists. split; [done|].
      eapply found_later; [|by rewrite H0 | done | exact Ho]. intros j Hj. unfold wrapU. rewrite Zplus_mod_idemp_l. f_equal.
      replace ((j + 1) * (j + 1 + 1)) with (j * (j + 1) + (j + 1) * 2) by lia. rewrite Z.div_add by lia. lia.
Qed.
End Probes.

(** *** Pools of a power of two *)

Lemma wrapU_mod_pow2 a x : 0 <= a <= 32 -> wrapU 32 x mod 2 ^ a = x mod 2 ^ a.
Proof.
  intros Ha. unfold wrapU. apply Z.mod_mod_divide. exists (2 ^ (32 - a)).
  rewrite <- Z.pow_add_r by lia. f_equal. lia.
Qed.

Lemma odd_factor n x y : 0 <= n -> Z.odd x = true -> (2 ^ n | x * y) -> (2 ^ n | y).
Proof.
  intros Hn Hx Hd. apply (Z.gauss _ x); [done|]. apply Z.coprime_pow_l; [done|].
  apply Z.odd_spec in Hx as [q ->]. unfold Z.coprime. rewrite Z.add_comm, (Z.mul_comm 2 q). by rewrite Z.gcd_add_mult_diag_r.
Qed.

Definition triangle (j : Z) : Z := j * (j + 1) / 2.

Lemma triangle_double j : 2 * triangle j = j * (j + 1).
Proof.
  unfold triangle. assert (Z.even (j * (j + 1)) = true) as He.
  { rewrite Z.even_mul, Z.even_add. destruct (Z.even j); done. }
  apply Z.even_spec in He as [q Hq]. rewrite Hq, (Z.mul_comm 2 q), Z.div_mul by lia. lia.
Qed.

Lemma triangle_inj k a i j : 0 <= k -> 0 <= i < j -> j < 2 ^ k -> (a + triangle i) mod 2 ^ k = (a + triangle j) mod 2 ^ k -> False.
Proof.
  intros Hk Hi Hj He. assert ((2 ^ k | triangle j - triangle i)) as [q Hq].
  { replace (triangle j - triangle i) with ((a + triangle j) - (a + triangle i)) by lia.
    apply Z.mod_divide; [lia|]. rewrite Zminus_mod, He, Z.sub_diag. by apply Z.mod_0_l; lia. }
  pose proof (triangle_double i) as Di. pose proof (triangle_double j) as Dj.
  assert ((2 ^ (k + 1) | (j - i) * (j + i + 1))) as Hd.
  { exists q. rewrite Z.pow_add_r by lia. change (2 ^ 1) with 2. nia. }
  assert (2 ^ (k + 1) = 2 * 2 ^ k) as Hp by (rewrite Z.pow_add_r by lia; lia).
  destruct (Z.odd (j - i)) eqn:Eo.
  - apply odd_factor in Hd; [|lia | done]. apply Z.divide_pos_le in Hd; lia.
  - rewrite Z.mul_comm in Hd. apply odd_factor in Hd; [|lia|].
    + apply Z.divide_pos_le in Hd; lia.
    + replace (j + i + 1) with ((j - i) + (1 + 2 * i)) by lia. rewrite Z.odd_add, Eo, Z.odd_add_mul_2. done.
Qed.

(** A function on 0 .. n-1 that takes no value twice takes every value. *)
Lemma pigeonhole (n : Z) (f : Z -> Z) : 0 <= n -> (forall i, 0 <= i < n -> 0 <= f i < n) ->
  (forall i j, 0 <= i < j -> j < n -> f i <> f j) -> forall x, 0 <= x < n -> exists i, 0 <= i < n /\ f i = x.
Proof.
  intros Hn Hr Hi x Hx. assert (seqZ 0 n ≡ₚ f <$> seqZ 0 n) as Hp.
  { symmetry. apply submseteq_length_Permutation; [|by rewrite length_fmap].
    apply NoDup_submseteq.
    - apply NoDup_fmap_2_strong; [|apply NoDup_seqZ]. intros a b Ha%elem_of_seqZ Hb%elem_of_seqZ Hab.
      destruct (Z.lt_trichotomy a b) as [H|[H|H]]; [|done|]; exfalso; [apply (Hi a b) | apply (Hi b a)]; auto; lia.
    - intros y (i & -> & Hy%elem_of_seqZ)%list_elem_of_fmap. apply elem_of_seqZ. specialize (Hr i). lia. }
  assert (x ∈ f <$> seqZ 0 n) as Hf by (rewrite <- Hp; apply elem_of_seqZ; lia).
  apply list_elem_of_fmap in Hf as (i & -> & Hs%elem_of_seqZ). exists i. split; [lia | done].
Qed.

Lemma triangle_covers k a x : 0 <= k -> 0 <= x < 2 ^ k -> exists i, 0 <= i < 2 ^ k /\ (a + triangle i) mod 2 ^ k = x.
Proof.
  intros Hk Hx. apply (pigeonhole (2 ^ k) (fun i => (a + triangle i) mod 2 ^ k)); [lia | | | done].
  - intros i _. apply Z.mod_pos_bound. lia.
  - intros i j Hi Hj He. by apply (triangle_inj k a i j).
Qed.

Definition pow2_pool (pool : HostPool) : Prop := exists a, 0 <= a < 32 /\ Z.of_nat (length pool) = 2 ^ a.

Lemma hash_covers pool index k : pow2_pool pool -> (k < length pool)%nat ->
  probed pool k (fun j => wrapU 32 (index + ((j + 1) * 0 + j * (j + 1) / 2))) (length pool).
Proof.
  intros (a & Ha & Hl) Hk. destruct (triangle_covers a index (Z.of_nat k)) as (i & Hi & He); [lia..|].
  exists i. split; [lia|]. rewrite Hl, wrapU_mod_pow2 by lia. rewrite Z.mul_0_r, Z.add_0_l. fold (triangle i). lia.
Qed.

(** The counter does not wrap around, or its wrapping does not matter *)
Definition robin_fits (pool : HostPool) (r : Z) : Prop := r + Z.of_nat (length pool) < 2 ^ 32 \/ pow2_pool pool.

Lemma robin_covers pool r k : 0 <= r -> robin_fits pool r -> (k < length pool)%nat ->
  probed pool k (fun j => wrapU 32 (r + 1 + j)) (length pool).
Proof.
  intros Hr Hf Hk. set (n := Z.of_nat (length pool)) in *. exists ((Z.of_nat k - (r + 1)) mod n).
  pose proof (Z.mod_pos_bound (Z.of_nat k - (r + 1)) n ltac:(lia)) as Hb. split; [done|]. fold n.
  assert (wrapU 32 (r + 1 + (Z.of_nat k - (r + 1)) mod n) mod n = (r + 1 + (Z.of_nat k - (r + 1)) mod n) mod n) as ->.
  { destruct Hf as [Hf | (a & Ha & Hl)]; [rewrite wrapU_small; [done | unfold is_u; lia]|].
    fold n in Hl. rewrite Hl. apply wrapU_mod_pow2. lia. }
  rewrite Zplus_mod_idemp_r. replace (r + 1 + (Z.of_nat k - (r + 1))) with (Z.of_nat k) by lia. rewrite Z.mod_small; lia.
Qed.

(** ** The choice of a host *)

(** The cases in which a policy looks at every host *)
Definition looks_everywhere (policy : option Policy) (pool : HostPool) (r : request) (c : counters) : Prop :=
  match policy with
  | None | Some Random | Some LeastConn | Some First => True
  | Some RoundRobin => robin_fits pool (robin c)
  | Some IPHash | Some URIHash => pow2_pool pool
  | Some (Header name) =>
      name <> EmptyString /\
      if decide (Header_Get name (r_Header r) = EmptyString) then robin_fits pool (roundRobinPolicier c) else pow2_pool pool
  end.

Definition good_choice (pool : HostPool) (everywhere : Prop) (o : option nat) : Prop :=
  match o with Some k => available_at pool k | None => everywhere -> none_available pool end.

Lemma covers_all pool probe n (everywhere : Prop) o : found pool probe n o ->
  (everywhere -> forall k, (k < length pool)%nat -> probed pool k probe n) -> good_choice pool everywhere o.
Proof.
  destruct o as [k|]; cbn; [tauto|]. intros Hf Hc He h (k & Hk)%list_elem_of_lookup_1.
  apply not_true_is_false. intros Ha. apply (Hf k); [apply Hc; [done | by eapply lookup_lt_Some] | by exists h].
Qed.

Section Selection.
Context (rand : nat -> Z) (pool : HostPool) (small : 0 < Z.of_nat (length pool) < 2 ^ 32).

Lemma RoundRobin_choice n : 0 <= n ->
  exists n' o, RoundRobinSelect pool n = (n', Ret o) /\ good_choice pool (robin_fits pool n) o.
Proof using small.
  intros Hn. unfold RoundRobinSelect. rewrite poolLen_eq, Nat2Z.id by done.
  destruct (robin_found pool small (length pool) n) as (n' & o & -> & Ho). eexists _, _. split; [done|].
  eapply covers_all; [done|]. intros. by apply robin_covers.
Qed.

Lemma hash_choice s : exists o, hostByHashing pool s = Ret o /\ good_choice pool (pow2_pool pool) o.
Proof using small.
  unfold hostByHashing. rewrite poolLen_eq by done. destruct (Z.eqb_spec (Z.of_nat (length pool)) 0); [lia|]. rewrite Nat2Z.id.
  destruct (hash_found pool small (length pool) 0 (hash s mod Z.of_nat (length pool))) as (o & -> & Ho); [lia|].
  eexists. split; [done|]. eapply covers_all; [done|]. intros. by apply hash_covers.
Qed.

Lemma Random_choice : good_choice pool True (RandomSelect rand pool).
Proof using.
  unfold RandomSelect. destruct (random_loop _ _ _ _ _) as [k|] eqn:E; cbn.
  - apply random_sound in E as [? | (j & -> & Hj)]; done.
  - intros _. eapply random_complete; [|done]. lia.
Qed.

Lemma LeastConn_choice : (forall h, h ∈ pool -> Conns h <= max_int) -> least_result pool (LeastConnSelect rand pool).
Proof using.
  intros Hm. apply (least_spec rand pool [] 0 0 max_int None); [done|]. cbn. split_and!; [done..|]. by intros h Hh%elem_of_nil.
Qed.

Lemma First_choice : good_choice pool True (FirstSelect pool).
Proof using.
  unfold FirstSelect. destruct (list_find _ pool) as [[k h]|] eqn:E; cbn.
  - apply list_find_Some in E as (Hk & Ha & _). by exists h.
  - intros _ h Hh. apply list_find_None in E. rewrite Forall_forall in E. apply not_true_is_false. by apply E.
Qed.

Lemma least_good o everywhere : least_result pool o -> good_choice pool everywhere o.
Proof using. destruct o; cbn; [intros (h & ? & ? & _); by exists h | auto]. Qed.

Lemma policy_choice p r c : 0 <= robin c -> 0 <= roundRobinPolicier c -> (forall h, h ∈ pool -> Conns h <= max_int) ->
  exists c' o, PolicySelect rand p pool r c = (c', Ret o) /\ good_choice pool (looks_everywhere (Some p) pool r c) o.
Proof using small.
  intros H1 H2 Hm. destruct p as [| | | | | |name]; cbn [PolicySelect looks_everywhere].
  - eexists _, _. split; [done|]. apply Random_choice.
  - eexists _, _. split; [done|]. by apply least_good, LeastConn_choice.
  - destruct (RoundRobin_choice (robin c) H1) as (n & o & -> & Ho). by eexists _, _.
  - unfold IPHashSelect. edestruct hash_choice as (o & -> & Ho). by eexists _, _.
  - eexists _, _. split; [done|]. apply First_choice.
  - edestruct hash_choice as (o & -> & Ho). by eexists _, _.
  - case_decide as Hn; [eexists _, _; split; [done|]; cbn; tauto|]. case_decide as Hv.
    + destruct (RoundRobin_choice _ H2) as (n & o & -> & Ho). eexists _, _. split; [done|].
      destruct o; [done|]. cbn in *. tauto.
    + edestruct hash_choice as (o & -> & Ho). eexists _, _. split; [done|]. destruct o; [done|]. cbn in *. tauto.
Qed.
End Selection.

Lemma Select_choice rand policy pool r c : Z.of_nat (length pool) < 2 ^ 32 ->
  0 <= robin c -> 0 <= roundRobinPolicier c -> (forall h, h ∈ pool -> Conns h <= max_int) ->
  exists c' o, Select rand policy pool r c = (c', Ret o) /\ good_choice pool (looks_everywhere policy pool r c) o /\
    (policy = Some LeastConn -> least_result pool o).
Proof.
  intros Hs H1 H2 Hm. unfold Select. destruct pool as [|h [|h2 pool]].
  - eexists _, _. split; [done|]. split; [intros _|intros _]; by intros h Hh%elem_of_nil.
  - eexists _, _. split; [done|]. destruct (Available h) eqn:Ea; cbn [negb good_choice least_result].
    + split; [by exists h|]. intros _. exists h. split_and!; [done..|]. intros h' Hh%list_elem_of_singleton _. subst. lia.
    + split; intros _; intros h' Hh%list_elem_of_singleton; by subst.
  - destruct (forallb _ _) eqn:Ef.
    + assert (none_available (h :: h2 :: pool)) as Hn.
      { intros h' Hh. rewrite forallb_forall in Ef. apply list_elem_of_In, Ef, negb_true_iff in Hh. done. }
      eexists _, _. split; [done|]. split; [by intros _ | by intros _].
    + set (p := h :: h2 :: pool) in *. assert (0 < Z.of_nat (length p) < 2 ^ 32) as Hp by (cbn in *; lia).
      destruct policy as [q|]; [|eexists _, _; split; [done|]; split; [apply Random_choice | done]].
      destruct (policy_choice rand p Hp q r c H1 H2 Hm) as (c' & o & E & Ho). exists c', o. split_and!; [done..|].
      intros [= ->]. cbn [PolicySelect] in E. clearbody p. injection E as <- <-. by apply LeastConn_choice.
Qed.

(** C4.  Select always ends, without a panic; a host it chooses is one of the
    pool that is up and not full, with the least connections where the
    policy says so; and it chooses one whenever there is one, for every policy
    that looks at all hosts: those that hash do for pools of a power of two, and
    round robin does while its counter of 32 bits does not wrap around. *)
Theorem selection_is_right rand policy pool r c : Z.of_nat (length pool) < 2 ^ 32 ->
  0 <= robin c -> 0 <= roundRobinPolicier c -> (forall h, h ∈ pool -> Conns h <= max_int) ->
  exists c' o, Select rand policy pool r c = (c', Ret o) /\ good_choice pool (looks_everywhere policy pool r c) o /\
    (policy = Some LeastConn -> least_result pool o).
Proof. apply Select_choice. Qed.

(** ** Configurations that are accepted *)

(** The settings of an upstream, and a host that is made from them *)
Definition settings_ok (u : staticUpstream) : Prop :=
  is_s 32 (MaxFails u) /\ 0 <= KeepAlive u /\ (insecureSkipVerify u = true -> CaCertPool u = None).

Definition fresh_host (Parse : string -> URL + string) (u : staticUpstream) (h : UpstreamHost) : Prop :=
  Conns h = 0 /\ Fails h = 0 /\ Unhealthy h = 0 /\ CheckDown h = Some (MaxFails u) /\ MaxConns h = u_MaxConns u /\
  FailTimeout h = u_FailTimeout u /\
  exists target rp, Parse (Name h) = inl target /\ h_ReverseProxy h = Some rp /\ rp_target rp = target /\
    rp_without rp = u_WithoutPathPrefix u /\ rp_insecure rp = insecureSkipVerify u /\ rp_RootCAs rp = CaCertPool u.

Definition upstream_ok (Parse : string -> URL + string) (u : staticUpstream) : Prop :=
  settings_ok u /\ Hosts u <> [] /\ Forall (fresh_host Parse u) (Hosts u).

Section Accepted.
Context (Parse : string -> URL + string) (ParseDuration : string -> Z + string).
Context (Compile : string -> (string -> string -> string) + string).
Context (ReadFile : string -> string + string) (has_certificate : string -> bool).

Let parse_property := property ParseDuration Compile ReadFile has_certificate.
Let parse_block := parseBlock ParseDuration Compile ReadFile has_certificate.

(** What one property keeps *)
Definition keeps (u u' : staticUpstream) : Prop :=
  is_s 32 (MaxFails u) -> 0 <= KeepAlive u -> is_s 32 (MaxFails u') /\ 0 <= KeepAlive u'.

Lemma keeps_same u u' : MaxFails u' = MaxFails u -> KeepAlive u' = KeepAlive u -> keeps u u'.
Proof. unfold keeps. by intros -> ->. Qed.

Lemma next_arg_inv d k d' u' : next_arg d k = inl (d', u') -> exists d1, k d1 = inl (d', u').
Proof. unfold next_arg. destruct (NextArg d) as [d1 []]; [eauto | done]. Qed.

Lemma number_arg_inv d k d' u' : number_arg d k = inl (d', u') -> exists d1 n, k d1 n = inl (d', u').
Proof.
  unfold number_arg. intros (d1 & H)%next_arg_inv. destruct (Atoi (Val d1)) as [n []]; [done | eauto].
Qed.

Lemma duration_arg_inv d k d' u' : duration_arg ParseDuration d k = inl (d', u') -> exists x, u' = k x.
Proof.
  unfold duration_arg. intros (d1 & H)%next_arg_inv. destruct (ParseDuration _); [|done]. injection H as <- <-. eauto.
Qed.

Lemma duration_target_inv d k d' u' : duration_target ParseDuration d k = inl (d', u') -> exists x, u' = k x.
Proof.
  unfold duration_target. destruct (Args 1 d) as [[d1 [|v []]] []]; try done. destruct (ParseDuration v); [|done].
  intros [= <- <-]. eauto.
Qed.

Lemma header_rule_keeps up d u d' u' : header_rule Compile up d u = inl (d', u') -> keeps u u'.
Proof.
  unfold header_rule. destruct (Args 3 d) as [[d1 vals] enough]. intros H. apply keeps_same.
  all: destruct enough; [destruct (_ || _); [done|]; destruct (Compile _); [|done] | destruct (_ && _); [done|]];
    injection H as <- <-; by destruct up.
Qed.

Lemma property_keeps d u hasSrv d' u' : parse_property d u hasSrv = inl (d', u') -> keeps u u'.
Proof.
  unfold parse_property, property. intros H.
  repeat (match type of H with (if decide ?P then _ else _) = _ => destruct (decide P) end; [|]).
  all: try (apply duration_arg_inv in H as [x ->]; by apply keeps_same).
  all: try (apply duration_target_inv in H as [x ->]; by apply keeps_same).
  all: try exact (header_rule_keeps _ _ _ _ _ H).
  all: try (injection H as <- <-; by apply keeps_same).
  all: try done.
  all: try (apply number_arg_inv in H as (d1 & num & H); try (injection H as <- <-; by apply keeps_same)).
  all: try (apply next_arg_inv in H as [d1 H]; try (injection H as <- <-; by apply keeps_same)).
  - destruct (NextArg d1) as [d2 []], (supportedPolicies _ _); try done; injection H as <- <-; by apply keeps_same.
  - destruct (num <? 1); [done|]. injection H as <- <-. intros ? ?. cbn. split; [|done]. unfold is_s, wrapS.
    pose proof (Z.mod_pos_bound (num + 2 ^ (32 - 1)) (2 ^ 32)). lia.
  - destruct hasSrv; [done|]. destruct (Atoi _) as [num []]; [done|]. destruct (num <? 0); [done|]. injection H as <- <-.
    by apply keeps_same.
  - destruct (RemainingArgs d) as [d1 [|a l]]; [done|]. injection H as <- <-. by apply keeps_same.
  - destruct (RemainingArgs d) as [d1 [|a l]]; [done|]. destruct (ca_pool _ _ _ _ _); [|done]. injection H as <- <-.
    by apply keeps_same.
  - destruct (num <? 0) eqn:En; [done|]. injection H as <- <-. intros ? ?. cbn. split; [done|]. apply Z.ltb_ge in En. lia.
  - destruct (ParseDuration _); [|done]. injection H as <- <-. by apply keeps_same.
Qed.

Lemma parseBlock_ok d u hasSrv d' u' : settings_ok u -> parse_block d u hasSrv = inl (d', u') -> settings_ok u'.
Proof.
  intros (H1 & H2 & _). unfold parse_block, parseBlock. fold parse_property.
  destruct (parse_property d u hasSrv) as [[d1 u1]|e] eqn:E; [|done]. destruct (property_keeps _ _ _ _ _ E H1 H2) as [H1' H2'].
  destruct (_ && _) eqn:Ec; [done|]. intros [= <- <-]. split_and!; [done..|]. intros Hi. rewrite Hi in Ec.
  destruct (CaCertPool u1); [|done]. by rewrite bool_decide_true in Ec.
Qed.

Lemma block_loop_ok n d u to hasSrv d' u' to' : settings_ok u ->
  block_loop ParseDuration Compile ReadFile has_certificate n d u to hasSrv = Done (d', u', to') -> settings_ok u'.
Proof.
  revert d u to. induction n as [|n IH]; intros d u to Hu; cbn [block_loop]; [done|].
  destruct (NextBlock d) as [d1 []]; [|by intros [= <- <- <-]]. case_decide.
  - destruct (NextArg d1) as [d2 []]; [|done]. destruct hasSrv; [done|]. destruct (parseUpstream _); try done. by apply IH.
  - fold parse_block. destruct (parse_block d1 u hasSrv) as [[d2 u2]|e] eqn:E; [|done]. apply IH. by eapply parseBlock_ok.
Qed.

Lemma NewHost_ok u name h : NewHost Parse u name = inl h -> fresh_host Parse u h.
Proof.
  unfold NewHost. set (name' := if _ && _ then _ else _). destruct (Parse name') as [target|e] eqn:E; [|done]. intros [= <-].
  unfold fresh_host. cbn. split_and!; [done..|]. eexists target, _. split_and!; [done..| | | |].
  all: by destruct (insecureSkipVerify u), (CaCertPool u).
Qed.

Lemma new_hosts_ok u to hosts : new_hosts Parse u to = inl hosts -> Forall (fresh_host Parse u) hosts /\ length hosts = length to.
Proof.
  revert hosts. induction to as [|t to IH]; intros hosts; cbn [new_hosts]; [by intros [= <-]|].
  destruct (NewHost Parse u t) as [h|] eqn:Eh; [|done]. destruct (new_hosts Parse u to) as [l|]; [|done]. intros [= <-].
  destruct (IH l eq_refl) as [H1 H2]. split; [constructor; [by eapply NewHost_ok | done] | cbn; lia].
Qed.

Lemma one_upstream_ok n d host d' u : one_upstream Parse ParseDuration Compile ReadFile has_certificate n d host = Done (d', u) ->
  upstream_ok Parse u.
Proof.
  unfold one_upstream. destruct (Args 1 d) as [[d1 [|path []]] []]; try done. destruct (RemainingArgs d1) as [d2 args].
  destruct (targets d2 args [] false) as [[to hasSrv]| | |]; try done.
  destruct (block_loop _ _ _ _ _ _ _ _ _) as [[[d3 u3] to3]| | |] eqn:Eb; try done. apply block_loop_ok in Eb.
  2: { split_and!; [change (is_s 32 1); unfold is_s; lia | by vm_compute | done]. }
  destruct to3 as [|t to3]; [done|]. destruct (new_hosts Parse u3 (t :: to3)) as [hosts|] eqn:Eh; [|done]. intros [= <- <-].
  apply new_hosts_ok in Eh as [Hf Hl]. assert (hosts <> []) as Hne by by destruct hosts.
  unfold health_host. by destruct (_ && _).
Qed.

(** Every upstream of a configuration that is accepted has a host, its
    hosts are up at first, are sent to where their names say, and count failures
    and connections against the settings of the directive. Certificates are not
    verified exactly where the directive says so, and never together
    with certificates of its own. *)
Theorem accepted_upstreams_are_sound n d host us :
  NewStaticUpstreams Parse ParseDuration Compile ReadFile has_certificate n d host [] = Done us -> Forall (upstream_ok Parse) us.
Proof using.
  assert (Forall (upstream_ok Parse) []) as H0 by constructor. revert H0. generalize (@nil staticUpstream). revert d.
  induction n as [|n IH]; intros d acc Ha; cbn [NewStaticUpstreams]; [done|].
  destruct (Next d) as [d1 []]; [|by intros [= <-]].
  destruct (one_upstream _ _ _ _ _ n d1 host) as [[d2 u]| | |] eqn:E; try done. apply IH.
  apply Forall_app. split; [done|]. constructor; [by eapply one_upstream_ok | constructor].
Qed.
End Accepted.

(** ** Ranges of ports *)

Lemma digits_no_char c acc d v : digit c = None -> digits acc d = Some v -> no_char c d = true.
Proof.
  intros Hc. revert acc. induction d as [|e d IH]; intros acc; [done|]. cbn [digits no_char].
  destruct (digit e) eqn:Ee; [|done]. intros H. rewrite bool_decide_true by congruence. by eapply IH.
Qed.

Lemma Atoi_digits d v : d <> EmptyString -> digits 0 d = Some v -> v <= max_int -> Atoi d = (v, false).
Proof.
  intros Hne Hd Hv. unfold Atoi. assert (no_char "-" d = true /\ no_char "+" d = true) as [Hm Hp] by (split; by eapply digits_no_char).
  destruct d as [|c d]; [done|]. apply no_char_cons in Hm as [Hm _]. apply no_char_cons in Hp as [Hp _].
  destruct c as [[] [] [] [] [] [] [] []]; try done; rewrite Hd; by rewrite decide_False by lia.
Qed.

Lemma last_index_none i c s : no_char c s = true -> last_index_from i c s = -1.
Proof.
  revert i. induction s as [|d s IH]; intros i; [done|]. intros [Hd Hs]%no_char_cons. cbn [last_index_from].
  rewrite IH by done. cbn. by rewrite decide_False.
Qed.

Lemma last_index_app i c s t : 0 <= i -> no_char c t = true ->
  last_index_from i c (s +:+ String c t) = i + Z.of_nat (String.length s).
Proof.
  intros Hi Ht. revert i Hi. induction s as [|d s IH]; intros i Hi.
  - change (EmptyString +:+ String c t) with (String c t). cbn [last_index_from]. rewrite last_index_none by done.
    cbn. rewrite decide_True by done. lia.
  - change (String d s +:+ String c t) with (String d (s +:+ String c t)). cbn [last_index_from]. rewrite IH by lia.
    destruct (Z.leb_spec 0 (i + 1 + Z.of_nat (String.length s))); [|lia]. cbn [String.length]. lia.
Qed.

Lemma no_char_mid c u v : no_char c u = true -> no_char c v = true -> forall d, d <> c -> no_char c (u +:+ String d v) = true.
Proof. intros Hu Hv d Hd. rewrite no_char_app, Hu. cbn [no_char andb]. by rewrite bool_decide_true. Qed.

(** The end of an address: nothing, or a path *)
Definition ends (ue : string) : bool := bool_decide (ue = EmptyString) || HasPrefix ue "/".

(** The parts of an address whose last colon is followed by a range *)
Lemma split_range ini fin ue a b : digits 0 ini = Some a -> digits 0 fin = Some b -> ends ue = true ->
  let rest := String ":" (ini +:+ String "-" (fin +:+ ue)) in
  match StrIndex rest "/" with
  | Some nextSlash => (String.substring 1 (nextSlash - 1) rest, drop_str nextSlash rest)
  | None => (drop_str 1 rest, EmptyString)
  end = (ini +:+ String "-" fin, ue).
Proof.
  intros Ha Hb He rest. set (ports := ini +:+ String "-" fin).
  assert (rest = String ":" ports +:+ ue) as -> 
    by (change (String ":" ports +:+ ue) with (String ":" (ports +:+ ue)); unfold rest, ports; by rewrite str_app_assoc).
  assert (no_char "/" (String ":" ports) = true) as Hn.
  { change (no_char "/" (EmptyString +:+ String ":" ports) = true). apply no_char_mid; [done | | done].
    apply no_char_mid; [by eapply digits_no_char | by eapply digits_no_char | done]. }
  destruct ue as [|c ue].
  - rewrite str_app_nil_r, StrIndex_none by done. done.
  - unfold ends in He. rewrite bool_decide_false in He by done. apply HasPrefix_inv in He as [t Ht]. injection Ht as -> ->.
    rewrite StrIndex_app by done. f_equal; [|apply drop_str_app].
    cbn [String.length Nat.sub]. rewrite Nat.sub_0_r.
    change (String.substring 1 (String.length ports) (String ":" (ports +:+ String "/" t)) = ports).
    cbn [String.substring]. clear. induction ports as [|d p IH]; [done|].
    change (String d p +:+ String "/" t) with (String d (p +:+ String "/" t)). cbn [String.length String.substring]. by rewrite IH.
Qed.

Definition is_service (u : string) : bool := HasPrefix u "unix:" || HasPrefix u "srv://" || HasPrefix u "srv+https://".

(** An address with a range of ports stands for one host for every port of
    the range, in its order, with what is before and after the ports. *)
Theorem port_range_is_expanded us ini fin ue a b :
  ini <> EmptyString -> fin <> EmptyString -> digits 0 ini = Some a -> digits 0 fin = Some b -> a < b < max_int ->
  ends ue = true -> no_char ":" ue = true ->
  let u := us +:+ String ":" (ini +:+ String "-" (fin +:+ ue)) in is_service u = false ->
  parseUpstream u = Done (map (fun p => us +:+ ":" +:+ Itoa p +:+ ue) (seqZ a (b - a + 1))).
Proof.
  intros Hi Hf Ha Hb Hab He Hc u Hs. unfold is_service in Hs. apply orb_false_iff in Hs as [Hs H3].
  apply orb_false_iff in Hs as [H1 H2]. unfold parseUpstream. rewrite H1, H2, H3. cbn [orb].
  set (t := ini +:+ String "-" (fin +:+ ue)) in *.
  assert (no_char ":" t = true) as Ht.
  { apply no_char_mid; [by eapply digits_no_char | | done]. rewrite no_char_app, Hc, andb_true_r. by eapply digits_no_char. }
  assert (LastIndex u ":" = Z.of_nat (String.length us)) as -> by (unfold LastIndex, u; by rewrite last_index_app).
  rewrite Nat2Z.id. destruct (Z.eqb_spec (Z.of_nat (String.length us)) (-1)) as [|_]; [lia|]. cbn [orb].
  assert (drop_str (String.length us) u = String ":" t) as Hd by apply drop_str_app.
  assert ((Z.of_nat (String.length us) =? match StrIndex u "://" with Some i => Z.of_nat i | None => -1 end) = false) as ->.
  { apply Z.eqb_neq. destruct (StrIndex u "://") as [i|] eqn:Ei; [|lia]. intros Hn%Nat2Z.inj. subst i.
    apply StrIndex_prefix in Ei. rewrite Hd in Ei. destruct ini as [|c ini]; [done|].
    change t with (String c (ini +:+ String "-" (fin +:+ ue))) in Ei. cbn [HasPrefix] in Ei. rewrite !andb_true_iff in Ei.
    destruct Ei as (_ & Ei%bool_decide_eq_true & _). by subst c. }
  rewrite Hd. pose proof (split_range ini fin ue a b Ha Hb He) as Hsplit. cbv zeta in Hsplit. fold t in Hsplit. rewrite Hsplit.
  assert (no_char "-" ini = true /\ no_char "-" fin = true) as [Hmi Hmf] by (split; by eapply digits_no_char).
  rewrite count_char_app. cbn [count_char]. rewrite decide_True by done. rewrite !count_none by done. cbn [Nat.add Nat.eqb Nat.ltb Nat.leb].
  rewrite Split_app, Split_plain by done. rewrite (Atoi_digits ini a), (Atoi_digits fin b) by (done || lia).
  destruct (Z.leb_spec b a) as [|_]; [lia|]. unfold range_hosts. destruct (Z.eqb_spec b max_int) as [|_]; [lia|].
  unfold u. rewrite take_str_app. done.
Qed.

(** ** Health checks and the choice of a host *)

Section Checked.
Context (Parse : string -> URL + string) (LookupSRV : string -> list (string * Z) + string).
Context (NewRequestErr : string -> bool) (Do : string -> option string -> (Z * (string + string)) + string).

Let is_unhealthy := unhealthy Parse NewRequestErr Do.

(** One of the addresses of a host answers as it should. *)
Definition answers (hc : HealthCheck) (name : string) : Prop :=
  exists candidates isSrv addr, resolveHost LookupSRV name = inl (candidates, isSrv) /\ addr ∈ candidates /\
    is_unhealthy hc isSrv addr = false.

Lemma filter_all_length {A} (f : A -> bool) l : length (List.filter f l) = length l <-> forallb f l = true.
Proof.
  induction l as [|x l IH]; [done|]. cbn [List.filter forallb length]. pose proof (filter_length_le f l).
  destruct (f x); cbn [length andb]; [rewrite <- IH; lia | split; [lia | done]].
Qed.

Lemma check_host_spec hc h : Unhealthy (check_host Parse LookupSRV NewRequestErr Do hc h) = 0 <-> answers hc (Name h).
Proof.
  unfold check_host, answers. destruct (resolveHost LookupSRV (Name h)) as [[candidates isSrv]|e] eqn:Er.
  2: { cbn. split; [done|]. intros (? & ? & ? & ? & _). done. }
  fold is_unhealthy. destruct (Nat.eqb_spec (length (List.filter (is_unhealthy hc isSrv) candidates)) (length candidates)) as [E|E]; cbn.
  - split; [done|]. intros (cs & srv & addr & [= <- <-] & Hi & Hu). apply filter_all_length in E. rewrite forallb_forall in E.
    apply list_elem_of_In, E in Hi. congruence.
  - split; [intros _|done]. rewrite filter_all_length in E. apply not_true_is_false in E.
    destruct (List.existsb (fun a => negb (is_unhealthy hc isSrv a)) candidates) eqn:Ex.
    + apply existsb_exists in Ex as (addr & Hi & Hu). exists candidates, isSrv, addr. split_and!; [done|by apply list_elem_of_In|].
      by apply negb_true_iff.
    + exfalso. enough (forallb (is_unhealthy hc isSrv) candidates = true) by congruence. apply forallb_forall. intros x Hx.
      apply not_false_is_true. intros Hf. enough (true = false) by done. rewrite <- Ex. symmetry. apply existsb_exists. exists x.
      by rewrite Hf.
Qed.

Lemma available_healthy h : Available h = true -> Unhealthy h = 0.
Proof.
  unfold Available, Down. rewrite andb_true_iff, negb_true_iff. intros [Hd _].
  destruct (CheckDown h), (Z.eqb_spec (Unhealthy h) 0) as [H|H]; cbn in Hd; done.
Qed.

(** After a check, the hosts that are marked healthy are those of which
    an address answers with a good status and the text that is looked for, and a request is
    sent to one of them or to none. *)
Theorem requests_go_to_hosts_that_answer rand u r c c' k :
  Z.of_nat (length (Hosts u)) < 2 ^ 32 -> 0 <= robin c -> 0 <= roundRobinPolicier c ->
  (forall h, h ∈ Hosts u -> Conns h <= max_int) ->
  let u' := healthCheck Parse LookupSRV NewRequestErr Do u in
  (forall i h, Hosts u !! i = Some h -> exists h', Hosts u' !! i = Some h' /\
     (Unhealthy h' = 0 <-> answers (u_HealthCheck u) (Name h)) /\ Conns h' = Conns h /\ Fails h' = Fails h) /\
  (Select rand (u_Policy u') (Hosts u') r c = (c', Ret (Some k)) ->
   exists h, Hosts u !! k = Some h /\ answers (u_HealthCheck u) (Name h)).
Proof using.
  intros Hs H1 H2 Hm u'. assert (Hosts u' = map (check_host Parse LookupSRV NewRequestErr Do (u_HealthCheck u)) (Hosts u)) as Hh by done.
  assert (forall h, Conns (check_host Parse LookupSRV NewRequestErr Do (u_HealthCheck u) h) = Conns h /\
    Fails (check_host Parse LookupSRV NewRequestErr Do (u_HealthCheck u) h) = Fails h) as Hc.
  { intros h. unfold check_host. destruct (resolveHost _ _) as [[]|]; [destruct (Nat.eqb _ _)|]; done. }
  split.
  - intros i h Hi. eexists. rewrite Hh, list_lookup_fmap, Hi. split; [done|]. split; [apply check_host_spec | apply Hc].
  - intros E. destruct (Select_choice rand (u_Policy u') (Hosts u') r c) as (c1 & o & E' & Hg & _); [|done..| |].
    + by rewrite Hh, length_map.
    + intros h. rewrite Hh. intros (h0 & -> & Hi)%list_elem_of_fmap. rewrite (proj1 (Hc h0)). auto.
    + rewrite E in E'. injection E' as <- <-. destruct Hg as (h & Hk & Ha). rewrite Hh, list_lookup_fmap in Hk.
      destruct (Hosts u !! k) as [h0|]; [|done]. injection Hk as <-. exists h0. split; [done|].
      apply check_host_spec. by apply available_healthy.
Qed.
End Checked.

Module ProxyDemo.

Definition host (name : string) (fails conns : Z) : UpstreamHost :=
  mkHost conns 0 name ∅ ∅ 0 (Some 1) EmptyString None fails 0 None ∅ ∅.
Definition up : UpstreamHost := host "up" 0 0.
Definition down : UpstreamHost := host "down" 1 0.
Definition busy : UpstreamHost := host "busy" 0 7.
Definition get (uri : string) : request := mkRequest "10.0.0.1:80" uri ∅.
Definition start : counters := mkCounters 0 0.
Definition rand (_ : nat) : Z := 1.

(** scheme://host/path, or scheme:opaque *)
Definition parse (s : string) : URL + string :=
  match StrIndex s "://" with
  | Some i =>
      let rest := drop_str (i + 3) s in
      let '(h, p) := match StrIndex rest "/" with Some j => (take_str j rest, drop_str j rest) | None => (rest, EmptyString) end in
      inl (mkURL (take_str i s) EmptyString None h p EmptyString false EmptyString EmptyString)
  | None =>
      match cut_at ":" s with
      | Some (scheme, opaque) =>
          if HasPrefix opaque "/" then inl (mkURL scheme EmptyString None EmptyString opaque EmptyString false EmptyString EmptyString)
          else inl (mkURL scheme opaque None EmptyString EmptyString EmptyString false EmptyString EmptyString)
      | None => inr "missing protocol scheme"
      end
  end.
Definition seconds (s : string) : Z + string :=
  match Atoi (take_str (String.length s - 1) s) with (n, false) => inl (n * second) | _ => inr "invalid duration" end.
Definition compile (s : string) : (string -> string -> string) + string := inl (fun original _ => original).
Definition no_file (_ : string) : string + string := inr "no such file or directory".

Definition configured (text : string) : outcome (list staticUpstream) :=
  NewStaticUpstreams parse seconds compile no_file (fun _ => true) 20 (NewDispenser "Caddyfile" text) "www.example.com" [].

Lemma selection_is_right_witness : exists c' o,
  Select rand (Some URIHash) [down; busy; down; up] (get "/a") start = (c', Ret o) /\
  good_choice [down; busy; down; up] (looks_everywhere (Some URIHash) [down; busy; down; up] (get "/a") start) o /\
  (Some URIHash = Some LeastConn -> least_result [down; busy; down; up] o).
Proof.
  apply (selection_is_right rand (Some URIHash) [down; busy; down; up] (get "/a") start); [reflexivity | discriminate | discriminate |].
  intros h Hh. repeat (apply elem_of_cons in Hh as [->|Hh]; [vm_compute; discriminate|]). by apply elem_of_nil in Hh.
Defined.

Example least_connections : Select rand (Some LeastConn) [down; busy; up; up] (get "/a") start = (start, Ret (Some 2%nat)).
Proof. reflexivity. Qed.

Definition text : string := "proxy /api 10.0.0.1:8001-8003/v1 {
  policy round_robin
  max_fails 3
  except /private
  header_upstream -Server
}".

Lemma accepted_upstreams_are_sound_witness : exists us, configured text = Done us /\ Forall (upstream_ok parse) us /\ us <> [].
Proof.
  eexists. split; [vm_compute; reflexivity|]. split; [|discriminate].
  eapply (accepted_upstreams_are_sound parse seconds compile no_file (fun _ => true) 20 (NewDispenser "Caddyfile" text) "www.example.com").
  vm_compute. reflexivity.
Defined.

Lemma port_range_is_expanded_witness :
  parseUpstream "http://host:8001-8003/v1" = Done ["http://host:8001/v1"; "http://host:8002/v1"; "http://host:8003/v1"].
Proof.
  exact (port_range_is_expanded "http://host" "8001" "8003" "/v1" 8001 8003 ltac:(discriminate) ltac:(discriminate) eq_refl eq_refl
    ltac:(split; reflexivity) eq_refl eq_refl eq_refl).
Defined.

(** A service of which the second address answers *)
Definition srv (_ : string) : list (string * Z) + string := inl [("a", 80); ("b", 80)].
Definition answer (url : string) (_ : option string) : (Z * (string + string)) + string :=
  if decide (url = "http://b:80/up") then inl (200, inl "fine") else inr "connection refused".
Definition checked : staticUpstream :=
  set_Hosts [host "http://c:80" 0 0; host "srv://svc" 0 0]
    (set_HealthCheck (mkHealth "/up" second second EmptyString EmptyString "fine") (set_Policy (Some First) new_upstream)).

Lemma requests_go_to_hosts_that_answer_witness : exists h, Hosts checked !! 1%nat = Some h /\
  answers parse srv (fun _ => false) answer (u_HealthCheck checked) (Name h).
Proof.
  destruct (requests_go_to_hosts_that_answer parse srv (fun _ => false) answer rand checked (get "/") start start 1%nat)
    as [_ H]; [reflexivity | discriminate | discriminate | | by apply H].
  intros h Hh. repeat (apply elem_of_cons in Hh as [->|Hh]; [vm_compute; discriminate|]). by apply elem_of_nil in Hh.
Defined.

(** The places that hashing looks at in a pool of three are 0, 1 and 0 again
    from where it starts: a host that is up is not found. *)
Example hashing_misses_a_host : hash "/a" mod 3 = 1 /\
  Select rand (Some URIHash) [up; down; down] (get "/a") start = (start, Ret None).
Proof. by vm_compute. Qed.

(** At the end of 32 bits round robin looks at a host twice and at another not at all. *)
Example round_robin_misses_a_host :
  (Select rand (Some RoundRobin) [down; down; up] (get "/a") (mkCounters (2 ^ 32 - 2) 0)).2 = Ret None.
Proof. by vm_compute. Qed.

(** A greatest number of failures that is not in 32 bits *)
Example max_fails_is_cut : exists u,
  configured "proxy / 10.0.0.1:80 {
    max_fails 4294967296
  }" = Done [u] /\ MaxFails u = 0 /\ forallb Available (Hosts u) = false.
Proof. eexists. split; [vm_compute; reflexivity | split; vm_compute; reflexivity]. Qed.

(** A locator in the block of a directive is mixed with host names. *)
Example locators_are_mixed : exists u,
  configured "proxy / 10.0.0.1:80 {
    upstream srv://svc
  }" = Done [u] /\ map Name (Hosts u) = ["http://10.0.0.1:80"; "srv://svc"].
Proof. eexists. split; [vm_compute; reflexivity | reflexivity]. Qed.

(** An interval of zero for the checks is accepted, and the worker panics. *)
Example interval_of_zero : exists u,
  configured "proxy / 10.0.0.1:80 {
    health_check /up
    health_check_interval 0s
  }" = Done [u] /\ HealthCheckWorker parse srv (fun _ => false) answer 0 u = Panic "non-positive interval for NewTicker".
Proof. eexists. split; vm_compute; reflexivity. Qed.

(** A check looks a service up under another name than a connection does. *)
Example service_names (lookup : string -> list (string * Z) + string) : lookup "svc" = inl [("a", 80)] -> lookup "srv://svc" = inr "no such host" ->
  exists u h rp, configured "proxy / srv://svc" = Done [u] /\ Hosts u = [h] /\ h_ReverseProxy h = Some rp /\
    dialed_service lookup rp = Ret (Some "a:80") /\
    Available (check_host parse lookup (fun _ => false) (fun _ _ => inl (200, inl EmptyString)) (u_HealthCheck u) h) = false.
Proof.
  intros H1 H2. do 3 eexists. split; [vm_compute; reflexivity|]. split; [reflexivity|]. split; [reflexivity|]. split.
  - unfold dialed_service. cbn. rewrite H1. reflexivity.
  - unfold check_host, resolveHost. cbn. rewrite H2. reflexivity.
Qed.

(** A socket with a relative path: two characters of it are lost. *)
Example relative_socket : exists u h rp, configured "proxy / unix:run/www.sock" = Done [u] /\ Hosts u = [h] /\ h_ReverseProxy h = Some rp /\
  rp_Transport rp = SocketTransport (Ret "n/www.sock") (30 * second).
Proof. do 3 eexists. split; [vm_compute; reflexivity|]. by split_and!. Qed.

(** A range that ends at the greatest int *)
Example endless_range : parseUpstream "host:1-9223372036854775807" = Looping.
Proof. by vm_compute. Qed.
End ProxyDemo.
