(* ===== verification/ProxyServe.v ===== *)
(** The reverse proxy of the web server: the way of a request to a host and back
    (src/go/caddy/caddy/caddyhttp/proxy/proxy.go, reverseproxy.go and body.go).

    The request that is sent upstream is one object for all attempts: its URL is
    rewritten in place, and its headers are those of the incoming request until
    they are copied. Both are modelled as they are shared. The transport, the
    clock, what other requests do to the counters of the hosts, the order in which a map is
    ranged over and the replacement of placeholders are arguments. *)
From S2P Require Import Prelude GoText NetUrl GoHttp Sync Caddyfile HttpServer Proxy.
From Stdlib Require Import ZArith Lia Ascii.
From stdpp Require Import base gmap strings list.

Open Scope string_scope.
Open Scope Z_scope.
Open Scope go_scope.

(** ** Data *)

(** The errors of a backend that are told apart *)
Inductive backend_error := ErrMaxBytesExceeded | Canceled | OtherError (msg : string).

#[export] Instance backend_error_dec : EqDecision backend_error.
Proof. solve_decision. Defined.

(** The body of a request: what is left of a connection and the error after it,
    or a buffer and the place in it *)
Inductive body := Stream (rest : list Z) (err : error) | Buffered (all : list Z) (pos : nat).

Definition unread (b : body) : list Z := match b with Stream rest _ => rest | Buffered all pos => drop pos all end.
Definition consume (k : nat) (b : body) : body :=
  match b with Stream rest err => Stream (drop k rest) err | Buffered all pos => Buffered all (pos + k) end.

Record incoming := mkIncoming {
  q_Method : string; q_URL : URL; q_Host : string; q_RemoteAddr : string; q_RequestURI : string;
  q_ContentLength : Z; q_Body : option body
}.

(** The headers of the incoming request and of the one that is sent; [None]: the same map *)
Record headers := mkHeaders { in_hdr : header; out_hdr : option header }.

Definition out (h : headers) : header := default (in_hdr h) (out_hdr h).
Definition on_out (f : header -> header) (h : headers) : headers :=
  match out_hdr h with
  | Some o => mkHeaders (in_hdr h) (Some (f o))
  | None => mkHeaders (f (in_hdr h)) None
  end.

Record outgoing := mkOutgoing { o_URL : URL; o_Host : string; o_Body : option body }.

Definition set_o_URL (x : URL) (o : outgoing) : outgoing := mkOutgoing x (o_Host o) (o_Body o).
Definition set_o_Host (x : string) (o : outgoing) : outgoing := mkOutgoing (o_URL o) x (o_Body o).
Definition set_o_Body (x : option body) (o : outgoing) : outgoing := mkOutgoing (o_URL o) (o_Host o) x.

Record response := mkResponse { StatusCode : Z; p_Header : header; announced : list string; Trailer : header }.

(** What the proxy does *)
Inductive event :=
  | Sent (host : nat) (u : URL) (Host : string) (h : header) (b : option (list Z))
  | WroteHeader (status : Z) (h : header)
  | Flushed
  | CopiedBody
  | SetTrailers (h : header)
  | Tunnelled
  | Slept (d : Z)
  | TimerStarted (host : nat) (timeout : Z)
  | NextHandler.

(** ** Headers *)

Definition hopHeaders : list string :=
  ["Alt-Svc"; "Alternate-Protocol"; "Connection"; "Keep-Alive"; "Proxy-Authenticate"; "Proxy-Authorization"; "Proxy-Connection"; "Te";
   "Trailer"; "Transfer-Encoding"; "Upgrade"].

Definition skipHeaders : list string :=
  ["Content-Type"; "Content-Disposition"; "Accept-Ranges"; "Set-Cookie"; "Cache-Control"; "Expires"].

Definition add_values (k : string) (vv : list string) (dst : header) : header := fold_left (fun acc v => Header_Add k v acc) vv dst.

(** [src] in the order in which it is ranged over *)
Definition copyHeader (src : list (string * list string)) (dst : header) : header :=
  fold_left (fun dst kv =>
    match dst !! kv.1 with
    | Some _ =>
        if decide (kv.1 ∈ skipHeaders) then dst
        else add_values kv.1 kv.2 (if decide (kv.1 = "Server") then dst else Header_Del kv.1 dst)
    | None => add_values kv.1 kv.2 dst
    end) src dst.

Definition shallowCopyTrailers (srcTrailer : list (string * list string)) (forceSetTrailers : bool) (dst : header) : header :=
  fold_left (fun dst kv => <[(if forceSetTrailers then "Trailer:" +:+ kv.1 else kv.1) := kv.2]> dst) srcTrailer dst.

(** The names in a Connection header *)
Definition connection_names (c : string) : list string :=
  if decide (c = EmptyString) then []
  else List.filter (fun f => negb (bool_decide (f = EmptyString))) (map TrimSpace (Split c ",")).

Definition requestIsWebsocket (h : header) : bool :=
  bool_decide (ToLower (Header_Get "Upgrade" h) = "websocket") && StrContains (ToLower (Header_Get "Connection" h)) "upgrade".

Section Upstream.
Context (order : forall A : Type, gmap string A -> list (string * A)).

(** if !copiedHeaders { ... } and outreq.Header.Del *)
Definition copy_once (h : headers) : headers :=
  match out_hdr h with
  | Some _ => h
  | None => mkHeaders (in_hdr h) (Some (copyHeader (order _ (in_hdr h)) ∅))
  end.
Definition del_copied (k : string) (h : headers) : headers := on_out (Header_Del k) (copy_once h).

Definition createUpstreamRequest (r : incoming) (hdr : header) : outgoing * headers :=
  let o := mkOutgoing (q_URL r) (q_Host r) (if q_ContentLength r =? 0 then None else q_Body r) in
  let h := fold_left (fun h f => del_copied f h) (connection_names (Header_Get "Connection" hdr)) (mkHeaders hdr None) in
  let h := fold_left (fun h k => if decide (Header_Get k (out h) = EmptyString) then h else del_copied k h) hopHeaders h in
  match SplitHostPort (q_RemoteAddr r) with
  | None => (o, h)
  | Some (clientIP, _) =>
      let clientIP :=
        match out h !! "X-Forwarded-For" with Some prior => StrJoin prior ", " +:+ ", " +:+ clientIP | None => clientIP end in
      (o, on_out (Header_Set "X-Forwarded-For" clientIP) h)
  end.

(** *** Rules *)

Context (Replace : string -> string).

Definition apply_rule (rule : string * list string) (h : header) : header :=
  let '(ruleField, ruleValues) := rule in
  if HasPrefix ruleField "+" then
    fold_left (fun h v =>
      let replacement := Replace v in
      if decide (replacement = EmptyString) then h else Header_Add (TrimPrefix ruleField "+") replacement h) ruleValues h
  else if HasPrefix ruleField "-" then Header_Del (TrimPrefix ruleField "-") h
  else match last ruleValues with
       | None => h
       | Some v => let replacement := Replace v in if decide (replacement = EmptyString) then h else Header_Set ruleField replacement h
       end.

Definition apply_replacement (ruleField : string) (h : header) (rv : headerReplacement) : header :=
  let replacement := Replace (to rv) in
  let original := Header_Get ruleField h in
  if bool_decide (replacement <> EmptyString) && bool_decide (original <> EmptyString)
  then Header_Set ruleField (regexp rv original replacement) h else h.

Definition mutateHeadersByRules (rules : list (string * list string)) (replacements : list (string * list headerReplacement))
    (h : header) : header :=
  let h := fold_left (fun h rule => apply_rule rule h) rules h in
  fold_left (fun h kv => fold_left (apply_replacement kv.1) kv.2 h) replacements h.

(** ** The director *)

Definition singleJoiningSlash (a b : string) : string :=
  let aSlash := HasSuffix a "/" in
  let bSlash := HasPrefix b "/" in
  if aSlash && bSlash then a +:+ drop_str 1 b
  else if negb aSlash && negb bSlash && bool_decide (b <> EmptyString) then a +:+ "/" +:+ b
  else a +:+ b.

Definition prefer (val def : string) : string := if decide (val = EmptyString) then def else val.

(** TrimPrefix of the path, and of the encoded forms that are set *)
Definition trim_url (prefix : string) (u : URL) : URL :=
  let u := set_Path (TrimPrefix (Path u) prefix) u in
  let u := if decide (Opaque u = EmptyString) then u else set_Opaque (TrimPrefix (Opaque u) prefix) u in
  if decide (RawPath u = EmptyString) then u else set_RawPath (TrimPrefix (RawPath u) prefix) u.

Definition target_host (target u : URL) : URL :=
  if decide (Scheme target = "unix") then set_Host "socket" (set_Scheme "http" u)
  else if decide (Scheme target = "srv") then set_Host (Host target) (set_Scheme "http" u)
  else if decide (Scheme target = "srv+https") then set_Host (Host target) (set_Scheme "https" u)
  else set_Host (Host target) (set_Scheme (Scheme target) u).

Definition Director (rp : ReverseProxy) (u : URL) : go URL :=
  let target := rp_target rp in
  let u := target_host target u in
  let u := if decide (rp_without rp = EmptyString) then u else trim_url (rp_without rp) u in
  let u := if decide (Opaque u = EmptyString /\ Opaque target = EmptyString) then u
           else set_Opaque (singleJoiningSlash (prefer (Opaque target) (Path target)) (prefer (Opaque u) (Path u))) u in
  let u := if decide (RawPath u = EmptyString /\ RawPath target = EmptyString) then u
           else set_RawPath (singleJoiningSlash (prefer (RawPath target) (Path target)) (prefer (RawPath u) (Path u))) u in
  let u := set_Path (singleJoiningSlash (Path target) (Path u)) u in
  u <-! (if decide (Scheme target = "unix") then
           socketPrefix <-! socket_path (URLString target) ;; Ret (trim_url socketPrefix u)
         else Ret u) ;;
  let targetQuery := RawQuery target in
  Ret (set_RawQuery (if decide (targetQuery = EmptyString \/ RawQuery u = EmptyString) then targetQuery +:+ RawQuery u
                     else targetQuery +:+ "&" +:+ RawQuery u) u).
End Upstream.

(** ** One attempt (ReverseProxy.ServeHTTP) *)

Record answering := mkAnswering { rw_Header : header; trace : list event }.
Definition log (e : event) (w : answering) : answering := mkAnswering (rw_Header w) (trace w ++ [e]).
Definition set_rw (h : header) (w : answering) : answering := mkAnswering h (trace w).

(** What the connection of the client and of the backend do when protocols are switched *)
Record switching := mkSwitching {
  Hijack : option (option backend_error);        (* None: the writer has no Hijack *)
  backend_conn : bool -> option backend_error;   (* whether the request asked for it *)
  Peek : option backend_error
}.

(** How much of the body the transport reads, and the answer *)
Definition round_trip : Type := nat * (response + backend_error).

Section Attempt.
Context (order : forall A : Type, gmap string A -> list (string * A)).

Definition removeHopHeaders (h : header) : header :=
  let h := fold_left (fun h f => Header_Del f h) (connection_names (Header_Get "Connection" h)) h in
  fold_left (fun h k => Header_Del k h) hopHeaders h.

Definition switch_protocols (sw : switching) (upgrade : bool) (w : answering) : answering * go (option backend_error) :=
  match Hijack sw with
  | None => (w, Panic "not a http.Hijacker")
  | Some (Some err) => (w, Ret (Some err))
  | Some None =>
      match backend_conn sw upgrade with
      | Some err => (w, Ret (Some err))
      | None => match Peek sw with Some err => (w, Ret (Some err)) | None => (log Tunnelled w, Ret None) end
      end
  end.

Definition copy_answer (flusher : bool) (res : response) (h : header) (w : answering) : answering :=
  let w := set_rw (copyHeader (order _ h) (rw_Header w)) w in
  let n := length (announced res) in
  let w := if Nat.eqb n 0 then w else set_rw (<["Trailer" := announced res]> (rw_Header w)) w in
  let w := log (WroteHeader (StatusCode res) (rw_Header w)) w in
  let w := if negb (Nat.eqb n 0) && flusher then log Flushed w else w in
  let w := log CopiedBody w in
  let forceSetTrailers := negb (Nat.eqb (size (Trailer res)) n) in
  let w := set_rw (shallowCopyTrailers (order _ (Trailer res)) forceSetTrailers (rw_Header w)) w in
  log (SetTrailers (Trailer res)) w.

Definition rp_ServeHTTP (rt : URL -> header -> option (list Z) -> round_trip) (sw : switching) (flusher : bool) (i : nat) (rp : ReverseProxy)
    (update : header -> header) (h : header) (o : outgoing) (w : answering) : outgoing * answering * go (option backend_error) :=
  let upgrade := requestIsWebsocket h in
  match Director rp (o_URL o) with
  | Panic e => (o, w, Panic e)
  | Ret u =>
      let u := if decide (Scheme u = "quic") then set_Scheme "https" u else u in
      let content := unread <$> o_Body o in
      let w := log (Sent i u (o_Host o) h content) w in
      let '(k, result) := rt u h content in
      let o := set_o_Body (consume k <$> o_Body o) (set_o_URL u o) in
      match result with
      | inr err => (o, w, Ret (Some err))
      | inl res =>
          let isWebsocket := (StatusCode res =? 101) && bool_decide (ToLower (Header_Get "Upgrade" (p_Header res)) = "websocket") in
          let ph := update (removeHopHeaders (p_Header res)) in
          if isWebsocket then let '(w, r) := switch_protocols sw upgrade w in (o, w, r)
          else (o, copy_answer flusher res ph w, Ret None)
      end
  end.
End Attempt.

(** ** All attempts (Proxy.ServeHTTP) *)

Record serving := mkServing {
  s_pool : HostPool; s_counters : counters; s_headers : headers; s_out : outgoing; s_answer : answering
}.

(** How it ends: the loop is still running, or it has returned *)
Inductive ending := Running | Returned (status : Z) (err : option backend_error).

Definition StatusBadRequest : Z := 400.
Definition StatusRequestEntityTooLarge : Z := 413.
Definition CustomStatusContextCancelled : Z := 499.
Definition StatusInternalServerError : Z := 500.
Definition StatusBadGateway : Z := 502.

(** The user information of a URL, which it prints escaped *)
Definition user_name (ui : string) : string :=
  default EmptyString (unescape (match cut_at ":" ui with Some (n, _) => n | None => ui end)).
Definition password (ui : string) : string :=
  match cut_at ":" ui with Some (_, p) => default EmptyString (unescape p) | None => EmptyString end.
Definition BasicAuth (ui : string) : string := "Basic " +:+ base64 (bytes_of_string (user_name ui +:+ ":" +:+ password ui)).

Section Serve.
Context (order : forall A : Type, gmap string A -> list (string * A)).
Context (Replace : string -> string) (Parse : string -> URL + string).
(** For the n-th turn of the loop: the values of rand.Int, the transport, the time since the start when it is asked
    for, and what other requests and timers have done to the hosts before it *)
Context (rand : nat -> nat -> Z) (RoundTrip : nat -> URL -> header -> option (list Z) -> round_trip).
Context (since : nat -> Z) (others : nat -> HostPool -> HostPool).
Context (sw : switching) (flusher CaseSensitivePath : bool).
Context (u : staticUpstream) (r : incoming).

(** The request for a host, without its sending: lines before the rewinding of the body; an error is returned *)
Definition prepare (host : UpstreamHost) (h : headers) (o : outgoing) : (ReverseProxy * headers * outgoing) + backend_error :=
  let '(proxy, h, o) :=
    match Parse (Name host) with
    | inl nameURL =>
        (Some (default (NewSingleHostReverseProxy nameURL (WithoutPathPrefix host) DefaultMaxIdleConnsPerHost (Timeout u) (FallbackDelay u))
                 (h_ReverseProxy host)),
         match User nameURL with
         | Some ui =>
             if decide (Header_Get "Authorization" (out h) = EmptyString) then on_out (Header_Set "Authorization" (BasicAuth ui)) h else h
         | None => h
         end,
         set_o_Host (Host nameURL) o)
    | inr _ => (h_ReverseProxy host, h, set_o_Host (Name host) o)
    end in
  match proxy with
  | None => inr (OtherError ("proxy for host '" +:+ Name host +:+ "' is nil"))
  | Some rp =>
      let h := on_out (mutateHeadersByRules Replace (order _ (UpstreamHeaders host)) (order _ (UpstreamHeaderReplacements host))) h in
      let o := match out h !! "Host" with
               | Some hostHeaders => match last hostHeaders with Some x => set_o_Host x o | None => o end
               | None => o
               end in
      inl (rp, h, o)
  end.

Definition rewind (o : outgoing) : outgoing :=
  match o_Body o with Some (Buffered all _) => set_o_Body (Some (Buffered all 0)) o | _ => o end.

Definition keepRetrying (n : nat) (err : backend_error) : bool :=
  if decide (err = Canceled) then false else negb (TryDuration u <=? since n).

Definition respUpdateFn (host : UpstreamHost) (h : header) : header :=
  mutateHeadersByRules Replace (order _ (DownstreamHeaders host)) (order _ (DownstreamHeaderReplacements host)) h.

(** One attempt at the host [i]: the counter of connections is decremented even when it panics. *)
Definition attempt (n i : nat) (host : UpstreamHost) (rp : ReverseProxy) (h : headers) (o : outgoing) (pool : HostPool) (c : counters)
    (w : answering) : serving * go (option backend_error) :=
  let pool := alter (add_Conns 1) i pool in
  let '(o, w, res) := rp_ServeHTTP order (RoundTrip n) sw flusher i rp (respUpdateFn host) (out h) (rewind o) w in
  (mkServing (alter (add_Conns (-1)) i pool) c h o w, res).

(** failover; remember this failure for some time *)
Definition remember (i : nat) (host : UpstreamHost) (s : serving) : serving :=
  if 0 <? FailTimeout host
  then mkServing (alter (add_Fails 1) i (s_pool s)) (s_counters s) (s_headers s) (s_out s) (log (TimerStarted i (FailTimeout host)) (s_answer s))
  else s.

Definition sleep (s : serving) : serving :=
  mkServing (s_pool s) (s_counters s) (s_headers s) (s_out s) (log (Slept (TryInterval u)) (s_answer s)).

Fixpoint attempts (fuel n : nat) (s : serving) (backendErr : option backend_error) : serving * go ending :=
  match fuel with
  | O => (s, Ret Running)
  | S fuel' =>
      let pool := others n (s_pool s) in
      let '(c, selected) :=
        Select (rand n) (u_Policy u) pool (mkRequest (q_RemoteAddr r) (q_RequestURI r) (in_hdr (s_headers s))) (s_counters s) in
      let s := mkServing pool c (s_headers s) (s_out s) (s_answer s) in
      match selected with
      | Panic e => (s, Panic e)
      | Ret None =>
          let err := default (OtherError "no hosts available upstream") backendErr in
          if keepRetrying n err then attempts fuel' (S n) (sleep s) (Some err) else (s, Ret (Returned StatusBadGateway (Some err)))
      | Ret (Some i) =>
          match pool !! i with
          | None => (s, Panic "index out of range")
          | Some host =>
              match prepare host (s_headers s) (s_out s) with
              | inr err => (s, Ret (Returned StatusInternalServerError (Some err)))
              | inl (rp, h, o) =>
                  match attempt n i host rp h o pool c (s_answer s) with
                  | (s, Panic e) => (s, Panic e)
                  | (s, Ret None) => (s, Ret (Returned 0 None))
                  | (s, Ret (Some err)) =>
                      if decide (err = ErrMaxBytesExceeded) then (s, Ret (Returned StatusRequestEntityTooLarge (Some err)))
                      else if decide (err = Canceled) then (s, Ret (Returned CustomStatusContextCancelled (Some err)))
                      else
                        let s := remember i host s in
                        if keepRetrying n err then attempts fuel' (S n) (sleep s) (Some err)
                        else (s, Ret (Returned StatusBadGateway (Some err)))
                  end
              end
          end
      end
  end.

(** newBufferedBody *)
Definition newBufferedBody (src : option body) : option body + string :=
  match src with
  | None => inl None
  | Some b =>
      match b with
      | Stream _ (Some err) => inr err
      | _ => inl (Some (Buffered (unread b) 0))
      end
  end.

Definition requiresBuffering : bool := Nat.ltb 1 (length (Hosts u)) && negb (TryDuration u =? 0).

(** From the choice of the upstream on *)
Definition serve_upstream (fuel : nat) (hdr : header) (c : counters) (w : answering) : serving * go ending :=
  let '(o, h) := createUpstreamRequest order r hdr in
  if requiresBuffering then
    match newBufferedBody (o_Body o) with
    | inr err => (mkServing (Hosts u) c h o w, Ret (Returned StatusBadRequest (Some (OtherError "failed to read downstream request body"))))
    | inl b => attempts fuel 0 (mkServing (Hosts u) c h (match b with Some _ => set_o_Body b o | None => o end) w) None
    end
  else attempts fuel 0 (mkServing (Hosts u) c h o w) None.
End Serve.

(** Proxy.match: the place of the upstream *)
Fixpoint match_loop (CaseSensitivePath : bool) (path : string) (us : list staticUpstream) (i : nat) (longestMatch : nat) (best : option nat)
    : option nat :=
  match us with
  | [] => best
  | u :: us' =>
      if negb (Path_Matches CaseSensitivePath path (from u)) || negb (AllowedPath CaseSensitivePath (from u) (IgnoredSubPaths u) path)
      then match_loop CaseSensitivePath path us' (S i) longestMatch best
      else if Nat.ltb longestMatch (String.length (from u))
      then match_loop CaseSensitivePath path us' (S i) (String.length (from u)) (Some i)
      else match_loop CaseSensitivePath path us' (S i) longestMatch best
  end.

Definition match_ (CaseSensitivePath : bool) (us : list staticUpstream) (path : string) : option nat :=
  match_loop CaseSensitivePath path us 0 0 None.

(** ** Lemmas: headers *)

(** Headers as the server of net/http hands them over: canonical keys, and a value for each *)
Definition wf_header (h : header) : Prop := map_Forall (fun k vs => CanonicalHeaderKey k = k /\ vs <> []) h.

Lemma add_values_more k vv old (dst : header) : CanonicalHeaderKey k = k -> dst !! k = Some old ->
  add_values k vv dst = <[k := (old ++ vv)%list]> dst.
Proof.
  intros Hk. unfold add_values. revert old dst. induction vv as [|v vv IH]; intros old dst Hd; cbn [fold_left].
  - rewrite app_nil_r. symmetry. by apply insert_id.
  - unfold Header_Add at 2. rewrite Hk, Hd. cbn [default]. rewrite (IH (old ++ [v])%list) by (by rewrite lookup_insert_eq).
    by rewrite insert_insert_eq, <- app_assoc.
Qed.

Lemma add_values_new k vv (dst : header) : CanonicalHeaderKey k = k -> vv <> [] -> dst !! k = None ->
  add_values k vv dst = <[k := vv]> dst.
Proof.
  intros Hk Hv Hd. destruct vv as [|v vv]; [done|]. change (add_values k vv (Header_Add k v dst) = <[k := v :: vv]> dst).
  unfold Header_Add. rewrite Hk, Hd. cbn [default app]. rewrite (add_values_more k vv [v]) by (done || by rewrite lookup_insert_eq).
  by rewrite insert_insert_eq.
Qed.

Lemma copyHeader_fresh l (dst : header) : NoDup l.*1 ->
  (forall k vs, (k, vs) ∈ l -> CanonicalHeaderKey k = k /\ vs <> [] /\ dst !! k = None) ->
  copyHeader l dst = list_to_map l ∪ dst.
Proof.
  revert dst. induction l as [|[k vs] l IH]; intros dst Hnd Hl.
  - cbn. by rewrite map_empty_union.
  - apply NoDup_cons in Hnd as [Hk Hnd]. destruct (Hl k vs) as (Hc & Hv & Hd); [by left|].
    change (copyHeader ((k, vs) :: l) dst) with
      (copyHeader l (match dst !! k with
                     | Some _ => if decide (k ∈ skipHeaders) then dst
                                 else add_values k vs (if decide (k = "Server") then dst else Header_Del k dst)
                     | None => add_values k vs dst end)).
    rewrite Hd, add_values_new by done. rewrite IH; [|done|].
    + cbn [list_to_map foldr]. rewrite <- insert_union_r by (by apply not_elem_of_list_to_map_1). apply insert_union_l.
    + intros k' vs' Hin. destruct (Hl k' vs') as (H1 & H2 & H3); [by right|]. split_and!; [done..|].
      rewrite lookup_insert_ne; [done|]. intros <-. apply Hk. apply list_elem_of_fmap. by exists (k, vs').
Qed.

Section Create.
Context (order : forall A : Type, gmap string A -> list (string * A)).
Context (ranged : forall A (m : gmap string A), order A m ≡ₚ map_to_list m).

Lemma copy_is_equal h : wf_header h -> copyHeader (order _ h) ∅ = h.
Proof using ranged.
  intros Hw. rewrite copyHeader_fresh.
  - rewrite map_union_empty. rewrite (list_to_map_proper _ (map_to_list h)); [apply list_to_map_to_list | | apply ranged].
    rewrite ranged. apply NoDup_fst_map_to_list.
  - rewrite ranged. apply NoDup_fst_map_to_list.
  - intros k vs Hin. rewrite ranged in Hin. apply elem_of_map_to_list in Hin. destruct (Hw k vs Hin) as [H1 H2].
    split_and!; [done..|apply lookup_empty].
Qed.

(** The incoming headers are untouched. *)
Definition shares (hdr : header) (h : headers) : Prop := in_hdr h = hdr.

Lemma del_copied_out hdr k h : wf_header hdr -> shares hdr h -> out (del_copied order k h) = Header_Del k (out h) /\
  shares hdr (del_copied order k h).
Proof using ranged.
  intros Hw Hs. unfold del_copied, copy_once, on_out, out, shares in *. destruct h as [i [o|]]; cbn in *; [done|].
  subst i. by rewrite copy_is_equal.
Qed.

Lemma del_names_out hdr names h : wf_header hdr -> shares hdr h ->
  let h' := fold_left (fun h f => del_copied order f h) names h in
  out h' = fold_left (fun h k => Header_Del k h) names (out h) /\ shares hdr h'.
Proof using ranged.
  intros Hw. revert h. induction names as [|k names IH]; intros h Hs; [done|]. cbn [fold_left].
  destruct (del_copied_out hdr k h Hw Hs) as [<- Hs']. by apply IH.
Qed.

Definition del_hop (h : header) (k : string) : header := if decide (Header_Get k h = EmptyString) then h else Header_Del k h.

Lemma del_hops_out hdr hops h : wf_header hdr -> shares hdr h ->
  let h' := fold_left (fun h k => if decide (Header_Get k (out h) = EmptyString) then h else del_copied order k h) hops h in
  out h' = fold_left del_hop hops (out h) /\ shares hdr h'.
Proof using ranged.
  intros Hw. revert h. induction hops as [|k hops IH]; intros h Hs; [done|]. cbn [fold_left]. unfold del_hop at 2.
  case_decide; [by apply IH|]. destruct (del_copied_out hdr k h Hw Hs) as [<- Hs']. by apply IH.
Qed.

Lemma get_del k k' h : Header_Get k h = EmptyString -> Header_Get k (Header_Del k' h) = EmptyString.
Proof using.
  unfold Header_Get, Header_Del. destruct (decide (CanonicalHeaderKey k' = CanonicalHeaderKey k)) as [->|Hne].
  - by rewrite lookup_delete_eq.
  - by rewrite lookup_delete_ne by done.
Qed.

Lemma del_hops_empty hops k h : k ∈ hops \/ Header_Get k h = EmptyString -> Header_Get k (fold_left del_hop hops h) = EmptyString.
Proof using.
  revert h. induction hops as [|x hops IH]; intros h Hk; cbn [fold_left]; [destruct Hk as [Hk|Hk]; [by apply elem_of_nil in Hk | done]|].
  apply IH. destruct Hk as [[->|Hk]%elem_of_cons | Hk]; [right | by left | right]; unfold del_hop; case_decide; try done.
  - unfold Header_Get, Header_Del. by rewrite lookup_delete_eq.
  - by apply get_del.
Qed.

Lemma del_hops_other hops k h : k ∉ map CanonicalHeaderKey hops -> fold_left del_hop hops h !! k = h !! k.
Proof using.
  revert h. induction hops as [|x hops IH]; intros h Hk; cbn [fold_left map] in *; [done|].
  apply not_elem_of_cons in Hk as [Hx Hk]. rewrite IH by done. unfold del_hop. case_decide; [done|]. by apply lookup_delete_ne.
Qed.

Lemma del_names_other names k (h : header) : k ∉ map CanonicalHeaderKey names -> fold_left (fun h f => Header_Del f h) names h !! k = h !! k.
Proof using.
  revert h. induction names as [|x names IH]; intros h Hk; cbn [fold_left map] in *; [done|].
  apply not_elem_of_cons in Hk as [Hx Hk]. rewrite IH by done. by apply lookup_delete_ne.
Qed.

Lemma del_hops_none hops k (h : header) : h !! k = None -> fold_left del_hop hops h !! k = None.
Proof using.
  revert h. induction hops as [|x hops IH]; intros h Hk; cbn [fold_left]; [done|]. apply IH. unfold del_hop.
  case_decide; [done|]. apply lookup_delete_None. by right.
Qed.

Definition XFF : string := "X-Forwarded-For".

Lemma XFF_not_hop : XFF ∉ hopHeaders.
Proof using. apply (bool_decide_unpack _). by vm_compute. Qed.

Lemma hop_canonical k : k ∈ hopHeaders -> CanonicalHeaderKey k = k.
Proof using.
  revert k. apply Forall_forall. apply (bool_decide_unpack _). by vm_compute.
Qed.

(** The headers without those of the connection *)
Definition end_to_end (hdr : header) : header :=
  fold_left del_hop hopHeaders (fold_left (fun h f => Header_Del f h) (connection_names (Header_Get "Connection" hdr)) hdr).

Lemma end_to_end_hop k hdr : k ∈ hopHeaders -> Header_Get k (end_to_end hdr) = EmptyString.
Proof using. intros Hk. unfold end_to_end. apply del_hops_empty. by left. Qed.

Lemma end_to_end_named k hdr : k ∈ map CanonicalHeaderKey (connection_names (Header_Get "Connection" hdr)) -> end_to_end hdr !! k = None.
Proof using. intros Hk. unfold end_to_end. apply del_hops_none, delete_all_lookup. by left. Qed.

Lemma end_to_end_kept k hdr : k ∉ map CanonicalHeaderKey (connection_names (Header_Get "Connection" hdr)) -> k ∉ hopHeaders ->
  end_to_end hdr !! k = hdr !! k.
Proof using.
  intros Hk Hh. unfold end_to_end. rewrite del_hops_other.
  - by apply del_names_other.
  - intros (x & -> & Hx)%list_elem_of_fmap. rewrite hop_canonical in Hh by done. done.
Qed.

Lemma createUpstream_out r hdr : wf_header hdr ->
  out (createUpstreamRequest order r hdr).2 =
  match SplitHostPort (q_RemoteAddr r) with
  | Some (ip, _) =>
      <[XFF := [match end_to_end hdr !! XFF with Some prior => StrJoin prior ", " +:+ ", " +:+ ip | None => ip end]]> (end_to_end hdr)
  | None => end_to_end hdr
  end.
Proof using ranged.
  intros Hw. unfold createUpstreamRequest.
  destruct (del_names_out hdr (connection_names (Header_Get "Connection" hdr)) (mkHeaders hdr None) Hw eq_refl) as [H1 S1].
  set (h1 := fold_left _ (connection_names _) (mkHeaders hdr None)) in *. clearbody h1.
  destruct (del_hops_out hdr hopHeaders h1 Hw S1) as [H2 S2]. rewrite H1 in H2.
  set (h2 := fold_left _ hopHeaders h1) in *. clearbody h2.
  change (out (mkHeaders hdr None)) with hdr in H2.
  assert (out h2 = end_to_end hdr) as He by (unfold end_to_end; exact H2). clear H2.
  rewrite <- He. clear He. destruct (SplitHostPort _) as [[ip port]|]; [|done]. cbn [snd]. by destruct h2 as [? []].
Qed.

(** The headers of the request that is made for the upstream *)
Lemma created_headers r hdr : wf_header hdr ->
  let o := out (createUpstreamRequest order r hdr).2 in
  let named := map CanonicalHeaderKey (connection_names (Header_Get "Connection" hdr)) in
  (forall k, k ∈ hopHeaders -> Header_Get k o = EmptyString) /\
  (forall k, k ∈ named -> k <> XFF -> o !! k = None) /\
  (forall k, k ∉ named -> k ∉ hopHeaders -> k <> XFF -> o !! k = hdr !! k) /\
  (forall ip port, SplitHostPort (q_RemoteAddr r) = Some (ip, port) ->
     o !! XFF = Some [match (if decide (XFF ∈ named) then None else hdr !! XFF) with
                      | Some prior => StrJoin prior ", " +:+ ", " +:+ ip
                      | None => ip
                      end]) /\
  (SplitHostPort (q_RemoteAddr r) = None -> o !! XFF = if decide (XFF ∈ named) then None else hdr !! XFF).
Proof using ranged.
  intros Hw. cbv zeta. rewrite (createUpstream_out r hdr Hw). set (named := map _ _).
  pose proof (fun k => end_to_end_named k hdr) as Hn. pose proof (fun k => end_to_end_kept k hdr) as He.
  pose proof (fun k => end_to_end_hop k hdr) as Hh. generalize dependent (end_to_end hdr). intros e Hn He Hh.
  set (o := match SplitHostPort _ with Some _ => _ | None => _ end).
  assert (forall k, k <> XFF -> o !! k = e !! k) as Ho.
  { intros k Hk. unfold o. destruct (SplitHostPort _) as [[ip p]|]; [by apply lookup_insert_ne | done]. }
  split_and!.
  - intros k Hk. specialize (Hh k Hk). unfold Header_Get in *. rewrite (hop_canonical k Hk) in *. rewrite Ho; [done|].
    intros ->. by apply XFF_not_hop.
  - intros k Hk Hx. rewrite Ho by done. auto.
  - intros k Hk Hk' Hx. rewrite Ho by done. auto.
  - intros ip port Hip. unfold o. rewrite Hip, lookup_insert_eq. do 3 f_equal. case_decide as Hd; [by rewrite Hn|].
    rewrite He; [done..|]. apply XFF_not_hop.
  - intros Hip. unfold o. rewrite Hip. case_decide as Hd; [by apply Hn|]. apply He; [done|apply XFF_not_hop].
Qed.
End Create.

(** ** Retries *)

Definition is_sent (e : event) : bool := match e with Sent _ _ _ _ _ => true | _ => false end.
Definition sent_count (w : answering) : nat := length (List.filter is_sent (trace w)).

Lemma sent_log e w : sent_count (log e w) = (sent_count w + if is_sent e then 1 else 0)%nat.
Proof. unfold sent_count, log. cbn. rewrite List.filter_app, length_app. cbn. by destruct (is_sent e). Qed.

(** An end of the answer, which sends nothing *)
Definition silent (w w' : answering) : Prop := List.filter is_sent (trace w') = List.filter is_sent (trace w).

Lemma silent_count w w' : silent w w' -> sent_count w' = sent_count w.
Proof. unfold sent_count. by intros ->. Qed.

Lemma silent_log e w w' : is_sent e = false -> silent w w' -> silent w (log e w').
Proof. unfold silent, log. cbn. intros He <-. rewrite List.filter_app. cbn. rewrite He. apply app_nil_r. Qed.

Lemma silent_rw h w w' : silent w w' -> silent w (set_rw h w').
Proof. done. Qed.

Create HintDb silent discriminated.
#[local] Hint Resolve silent_log silent_rw : silent.
#[local] Hint Extern 0 (silent ?w ?w) => reflexivity : silent.

Lemma copy_answer_silent order flusher res h w : silent w (copy_answer order flusher res h w).
Proof.
  unfold copy_answer. destruct (Nat.eqb _ 0); cbn [negb andb]; [|destruct flusher]; auto 10 with silent.
Qed.

Lemma switch_silent sw upgrade w : silent w (switch_protocols sw upgrade w).1.
Proof.
  unfold switch_protocols. destruct (Hijack sw) as [[e|]|]; [done| |done]. destruct (backend_conn sw upgrade); [done|].
  destruct (Peek sw); cbn; auto with silent.
Qed.

(** What one attempt sends: nothing when the director panics, or the URL it makes *)
Lemma rp_ServeHTTP_sends order rt sw flusher i rp update h o w o' w' res :
  rp_ServeHTTP order rt sw flusher i rp update h o w = (o', w', res) ->
  match Director rp (o_URL o) with
  | Panic _ => o' = o /\ w' = w
  | Ret u =>
      let u := if decide (Scheme u = "quic") then set_Scheme "https" u else u in
      silent (log (Sent i u (o_Host o) h (unread <$> o_Body o)) w) w' /\ o_URL o' = u /\ exists k, o_Body o' = consume k <$> o_Body o
  end.
Proof.
  unfold rp_ServeHTTP. destruct (Director rp (o_URL o)) as [u|e]; [|by intros [= <- <- <-]]. cbv zeta.
  destruct (rt _ h _) as [k [p|err]]; [|by intros [= <- <- <-]; split; [|split; [|exists k]]].
  destruct (_ && _).
  - pose proof (switch_silent sw (requestIsWebsocket h) (log (Sent i (if decide (Scheme u = "quic") then set_Scheme "https" u else u)
      (o_Host o) h (unread <$> o_Body o)) w)) as Hs. destruct (switch_protocols _ _ _) as [w1 r1]. intros [= <- <- <-].
    split; [exact Hs | split; [done | by exists k]].
  - intros [= <- <- <-]. split; [apply copy_answer_silent | split; [done | by exists k]].
Qed.

Section Retries.
Context (order : forall A : Type, gmap string A -> list (string * A)).
Context (Replace : string -> string) (Parse : string -> URL + string).
Context (rand : nat -> nat -> Z) (RoundTrip : nat -> URL -> header -> option (list Z) -> round_trip).
Context (since : nat -> Z) (others : nat -> HostPool -> HostPool).
Context (sw : switching) (flusher : bool) (u : staticUpstream) (r : incoming).

Let try_ := attempts order Replace Parse rand RoundTrip since others sw flusher u r.
Let one := attempt order Replace RoundTrip sw flusher.

Lemma remember_sent i host s : silent (s_answer s) (s_answer (remember i host s)) /\ s_out (remember i host s) = s_out s /\
  s_headers (remember i host s) = s_headers s.
Proof using. unfold remember. destruct (0 <? _); cbn; auto with silent. Qed.

Lemma attempt_sends n i host rp h o pool c w s res : one n i host rp h o pool c w = (s, res) ->
  match Director rp (o_URL o) with
  | Panic _ => s_out s = rewind o /\ s_answer s = w
  | Ret url =>
      let url := if decide (Scheme url = "quic") then set_Scheme "https" url else url in
      silent (log (Sent i url (o_Host o) (out h) (unread <$> o_Body (rewind o))) w) (s_answer s) /\ o_URL (s_out s) = url /\
      exists k, o_Body (s_out s) = consume k <$> o_Body (rewind o)
  end.
Proof using.
  unfold one, attempt. destruct (rp_ServeHTTP _ _ _ _ _ _ _ _ _ _) as [[o1 w1] r1] eqn:E. intros [= <- <-]. cbn.
  apply rp_ServeHTTP_sends in E. assert (o_URL (rewind o) = o_URL o /\ o_Host (rewind o) = o_Host o) as [Hu Hh]
    by (unfold rewind; by destruct (o_Body o) as [[]|]).
  by rewrite Hu, Hh in E.
Qed.

(** A turn of the loop sends at most one request. *)
Lemma attempts_sent fuel n s err : (sent_count (s_answer (try_ fuel n s err).1) <= sent_count (s_answer s) + fuel)%nat.
Proof using.
  revert n s err. unfold try_. induction fuel as [|fuel IH]; intros n s err; cbn [attempts]; [cbn; lia|].
  destruct (Select _ _ _ _ _) as [c [[i|]|e]]; [| |cbn; lia].
  - destruct (_ !! i) as [host|]; [|cbn; lia]. destruct (prepare _ _ _ _ _ _ _) as [[[rp h] o]|e]; [|cbn; lia].
    fold one. destruct (one _ _ _ _ _ _ _ _ _) as [s1 res] eqn:E. apply attempt_sends in E.
    assert (sent_count (s_answer s1) <= sent_count (s_answer s) + 1)%nat as H1.
    { destruct (Director rp (o_URL o)); [destruct E as [E%silent_count _] | destruct E as [_ ->]; cbn; lia].
      rewrite E, sent_log. cbn [is_sent s_answer]. lia. }
    destruct res as [[e|]|e]; [|cbn; lia..]. repeat case_decide; [cbn; lia..|].
    pose proof (proj1 (remember_sent i host s1)) as Hr%silent_count.
    destruct (keepRetrying _ _ _ _); [|cbn; lia]. etransitivity; [apply IH|]. cbn [sleep s_answer]. rewrite sent_log. cbn [is_sent]. lia.
  - destruct (keepRetrying _ _ _ _); [|cbn; lia]. etransitivity; [apply IH|]. cbn [sleep s_answer]. rewrite sent_log. cbn [is_sent].
    cbn. lia.
Qed.

(** *** The loop ends *)

Context (positive : 0 < TryInterval u) (start : 0 <= since 0%nat) (slept : forall n, since n + TryInterval u <= since (S n)).

Lemma since_grows n : Z.of_nat n * TryInterval u <= since n.
Proof using start slept. induction n as [|n IH]; [lia|]. specialize (slept n). lia. Qed.

Lemma keepRetrying_bound n e : keepRetrying since u n e = true -> Z.of_nat n * TryInterval u < TryDuration u.
Proof using start slept.
  unfold keepRetrying. case_decide; [done|]. rewrite negb_true_iff. intros Hlt%Z.leb_gt. pose proof (since_grows n). lia.
Qed.

Lemma attempts_end fuel n s err : (n = O \/ (Z.of_nat n - 1) * TryInterval u < TryDuration u) -> (0 < fuel \/ 0 < n)%nat ->
  TryDuration u / TryInterval u + 1 < Z.of_nat fuel + Z.of_nat n -> (try_ fuel n s err).2 <> Ret Running.
Proof using positive start slept.
  revert n s err. unfold try_. induction fuel as [|fuel IH]; intros n s err Hn Hp Hf; cbn [attempts].
  - exfalso. destruct Hn as [->|Hn]; [lia|]. pose proof (Z.mul_succ_div_gt (TryDuration u) (TryInterval u) positive). nia.
  - destruct (Select _ _ _ _ _) as [c [[i|]|e]]; [| |done].
    + destruct (_ !! i) as [host|]; [|done]. destruct (prepare _ _ _ _ _ _ _) as [[[rp h] o]|e]; [|done].
      destruct (attempt _ _ _ _ _ _ _ _ _ _ _ _ _ _) as [s1 [[e|]|e]]; [|done..]. repeat case_decide; [done..|].
      destruct (keepRetrying since u n e) eqn:Ek; [|done]. apply keepRetrying_bound in Ek. apply IH; lia.
    + destruct (keepRetrying since u n _) eqn:Ek; [|done]. apply keepRetrying_bound in Ek. apply IH; lia.
Qed.

(** C30.  With a positive interval the loop of retries ends, whatever the
    backends do, after at most try_duration / try_interval + 2 turns, and a request is
    sent at most once in each: the clock and the sleep of the interval are all that this rests on. *)
Theorem retries_end hdr c w :
  let turns := (Z.to_nat (TryDuration u / TryInterval u) + 2)%nat in
  let result := serve_upstream order Replace Parse rand RoundTrip since others sw flusher u r turns hdr c w in
  result.2 <> Ret Running /\ (sent_count (s_answer result.1) <= sent_count w + turns)%nat.
Proof using positive start slept.
  intros turns result.
  assert (TryDuration u / TryInterval u + 1 < Z.of_nat turns + Z.of_nat 0) as Ht by (unfold turns; lia).
  unfold result, serve_upstream. destruct (createUpstreamRequest _ _ _) as [o h].
  assert (forall s, (try_ turns 0 s None).2 <> Ret Running) as He by (intros s; apply attempts_end; [by left | unfold turns; lia | done]).
  destruct (requiresBuffering u); [|split; [apply He | apply attempts_sent]].
  destruct (newBufferedBody _) as [b|e]; [|cbn; split; [done | lia]]. split; [apply He | apply (attempts_sent turns 0 (mkServing _ _ _ _ w))].
Qed.
End Retries.

(** ** Every attempt sends the same request *)

(** A host that is an address without a path or a query *)
Definition plain_proxy (rp : ReverseProxy) : Prop :=
  let t := rp_target rp in
  rp_without rp = EmptyString /\ Scheme t <> "unix" /\ (Path t = EmptyString \/ Path t = "/") /\ RawPath t = EmptyString /\
  Opaque t = EmptyString /\ RawQuery t = EmptyString.
Definition plain_host (h : UpstreamHost) : Prop := exists rp, h_ReverseProxy h = Some rp /\ plain_proxy rp.

(** The part of a URL that is for the host *)
Definition location (u : URL) : string * string * string * string := (Path u, RawPath u, Opaque u, RawQuery u).
Definition absolute (u : URL) : Prop :=
  HasPrefix (Path u) "/" = true /\ (RawPath u = EmptyString \/ HasPrefix (RawPath u) "/" = true) /\ Opaque u = EmptyString.

Lemma join_plain a b : a = EmptyString \/ a = "/" -> HasPrefix b "/" = true -> singleJoiningSlash a b = b.
Proof.
  intros Ha Hb. unfold singleJoiningSlash. rewrite Hb. apply HasPrefix_inv in Hb as [t ->]. by destruct Ha as [-> | ->].
Qed.

Lemma target_host_keeps t u : location (target_host t u) = location u.
Proof. unfold target_host. by repeat case_decide. Qed.

Lemma Director_plain rp u : plain_proxy rp -> absolute u -> exists u', Director rp u = Ret u' /\ location u' = location u /\ absolute u'.
Proof.
  intros (Hw & Hs & Hp & Hr & Ho & Hq) (Ap & Ar & Ao). unfold Director.
  rewrite (decide_True (P := rp_without rp = EmptyString)) by done.
  pose proof (target_host_keeps (rp_target rp) u) as Hl. set (v := target_host (rp_target rp) u) in *. clearbody v.
  unfold location in Hl. injection Hl as E1 E2 E3 E4. rewrite <- E1 in Ap. rewrite <- E2 in Ar. rewrite <- E3 in Ao.
  rewrite (decide_True (P := Opaque v = EmptyString /\ _)) by done.
  set (w := if decide (RawPath v = EmptyString /\ _) then _ else _).
  assert (location w = location v) as Hv.
  { unfold w. case_decide as Hd; [done|]. rewrite Hr in Hd. destruct Ar as [Ar|Ar]; [by destruct Hd|].
    unfold location, prefer. cbn. rewrite (decide_False (P := RawPath v = EmptyString)) by (intros H; by destruct Hd).
    rewrite Hr, decide_True by done. by rewrite join_plain. }
  clearbody w. unfold location in Hv. injection Hv as F1 F2 F3 F4. rewrite F1, join_plain by done.
  rewrite (decide_False (P := Scheme _ = "unix")) by done. cbn [go_bind]. rewrite Hq, decide_True by (by left).
  eexists. split; [done|]. unfold location, absolute. cbn. rewrite F2, F3, F4. rewrite E1, E2, E3, E4 in *. by split_and!.
Qed.

Definition same_request (loc : string * string * string * string) (content : list Z) (e : event) : Prop :=
  match e with Sent _ u _ _ b => location u = loc /\ b = Some content | _ => True end.
Definition all_same loc content (w : answering) : Prop := Forall (same_request loc content) (List.filter is_sent (trace w)).

Lemma all_same_silent loc content w w' : silent w w' -> all_same loc content w -> all_same loc content w'.
Proof. unfold all_same. by intros ->. Qed.

Lemma all_same_trace loc content w : all_same loc content w -> Forall (same_request loc content) (trace w).
Proof.
  unfold all_same. induction (trace w) as [|e l IH]; cbn; [done|]. destruct (is_sent e) eqn:Ee; intros H.
  - apply Forall_cons in H as [H1 H2]. constructor; auto.
  - constructor; [by destruct e | auto].
Qed.

Section Same.
Context (order : forall A : Type, gmap string A -> list (string * A)).
Context (Replace : string -> string) (Parse : string -> URL + string).
Context (rand : nat -> nat -> Z) (RoundTrip : nat -> URL -> header -> option (list Z) -> round_trip).
Context (since : nat -> Z) (others : nat -> HostPool -> HostPool).
Context (sw : switching) (flusher : bool) (u : staticUpstream) (r : incoming).
Context (stay : forall n pool, Forall plain_host pool -> Forall plain_host (others n pool)).
Context (loc : string * string * string * string) (content : list Z).

Definition unchanged (o : outgoing) : Prop :=
  absolute (o_URL o) /\ location (o_URL o) = loc /\ exists pos, o_Body o = Some (Buffered content pos).

Lemma prepare_keeps host h o rp h' o' : plain_host host -> prepare order Replace Parse u host h o = inl (rp, h', o') ->
  plain_proxy rp /\ o_URL o' = o_URL o /\ o_Body o' = o_Body o.
Proof using.
  intros (rp0 & Hrp & Hpl). unfold prepare. rewrite Hrp.
  destruct (Parse (Name host)) as [nameURL|e]; cbn [default]; intros [= <- <- <-]; split; [done| |done|].
  all: destruct (out _ !! "Host") as [vs|]; [destruct (last vs)|]; done.
Qed.

Lemma plain_alter f i pool : (forall h, h_ReverseProxy (f h) = h_ReverseProxy h) -> Forall plain_host pool -> Forall plain_host (alter f i pool).
Proof using.
  intros Hf Hp. apply Forall_alter; [done|]. intros h _ (rp & Hrp & Hpl). exists rp. by rewrite Hf.
Qed.

Definition good (s : serving) : Prop := unchanged (s_out s) /\ all_same loc content (s_answer s) /\ Forall plain_host (s_pool s).

Lemma attempt_good n i host rp h o pool c w s res : plain_proxy rp -> unchanged o -> all_same loc content w -> Forall plain_host pool ->
  attempt order Replace RoundTrip sw flusher n i host rp h o pool c w = (s, res) -> good s.
Proof using.
  intros Hrp (Ha & Hl & pos & Hb) Hw Hp E.
  assert (Forall plain_host (s_pool s)) as Hpool.
  { unfold attempt in E. destruct (rp_ServeHTTP _ _ _ _ _ _ _ _ _ _) as [[o1 w1] r1]. injection E as <- <-. cbn.
    by apply plain_alter, plain_alter. }
  assert (o_Body (rewind o) = Some (Buffered content 0)) as Hrw by (unfold rewind; by rewrite Hb).
  apply attempt_sends in E. destruct (Director_plain rp (o_URL o) Hrp Ha) as (url & Hd & Hloc & Habs). rewrite Hd in E. cbv zeta in E.
  set (url' := if decide (Scheme url = "quic") then _ else _) in *.
  assert (location url' = loc /\ absolute url') as [Hloc' Habs'] by (unfold url'; case_decide; by rewrite <- Hl, <- Hloc).
  clearbody url'. destruct E as (Hs & Hu & k & Hk). rewrite Hrw in Hs, Hk. split_and!; [|eapply all_same_silent; [exact Hs|]|done].
  - unfold unchanged. rewrite Hu, Hk. split_and!; [done..|]. by eexists.
  - unfold all_same, log. cbn. rewrite List.filter_app. apply Forall_app. split; [done|]. by repeat constructor.
Qed.

Lemma attempts_good fuel n s err : good s ->
  good (attempts order Replace Parse rand RoundTrip since others sw flusher u r fuel n s err).1.
Proof using stay.
  revert n s err. induction fuel as [|fuel IH]; intros n s err Hg; cbn [attempts]; [done|].
  destruct Hg as (Ho & Hw & Hp). apply (stay n) in Hp. set (pool := others n (s_pool s)) in *. clearbody pool.
  assert (forall s', good s' -> good (sleep u s')) as Hsleep.
  { intros s' (H1 & H2 & H3). split_and!; [done | | done]. eapply all_same_silent; [|exact H2]. cbn. auto with silent. }
  destruct (Select _ _ _ _ _) as [c [[i|]|e]]; [| |done].
  - destruct (pool !! i) as [host|] eqn:Ei; [|done]. cbn [s_headers s_out].
    destruct (prepare _ _ _ _ host _ _) as [[[rp h] o]|e] eqn:Epr; [|done].
    apply prepare_keeps in Epr as (Hrp & Eu & Eb); [|by eapply Forall_lookup_1].
    destruct (attempt _ _ _ _ _ _ _ _ _ _ _ _ _ _) as [s1 res] eqn:E. apply attempt_good in E; [|done | |done..].
    2: { unfold unchanged. by rewrite Eu, Eb. }
    destruct res as [[e|]|e]; [|done..]. repeat case_decide; [done..|].
    assert (good (remember i host s1)) as Hr.
    { destruct (remember_sent i host s1) as (R1 & R2 & _). destruct E as (G1 & G2 & G3). unfold good. rewrite R2.
      split_and!; [done | by eapply all_same_silent |]. unfold remember. destruct (0 <? _); [by apply plain_alter | done]. }
    destruct (keepRetrying _ _ _ _); [by apply IH, Hsleep | done].
  - destruct (keepRetrying _ _ _ _); [|done]. by apply IH, Hsleep.
Qed.
End Same.

Lemma createUpstream_request order r hdr : (createUpstreamRequest order r hdr).1 =
  mkOutgoing (q_URL r) (q_Host r) (if q_ContentLength r =? 0 then None else q_Body r).
Proof.
  unfold createUpstreamRequest. generalize (fold_left (fun h k => if decide (Header_Get k (out h) = EmptyString) then h else del_copied order k h)
    hopHeaders). intros f. destruct (SplitHostPort _) as [[ip p]|]; cbn [fst]; reflexivity.
Qed.

(** C5.  With more than one host and a positive try_duration, so that the body is
    kept for more attempts, and with hosts that are addresses without a path, a
    query, a socket or a prefix to cut off: every attempt for a request with an
    absolute path and a body of known or unknown, but not zero, length that can be
    read to its end sends the same path and query and the whole body, however much
    of it an earlier attempt has read.  [base_path_is_doubled] and [body_is_lost]
    below show hosts with a path and a single host. *)
Theorem every_attempt_sends_the_same_request order Replace Parse rand RoundTrip since others sw flusher u r fuel hdr c rw content :
  requiresBuffering u = true -> Forall plain_host (Hosts u) ->
  (forall n pool, Forall plain_host pool -> Forall plain_host (others n pool)) ->
  absolute (q_URL r) -> q_ContentLength r <> 0 -> q_Body r = Some (Stream content None) ->
  Forall (same_request (location (q_URL r)) content)
    (trace (s_answer (serve_upstream order Replace Parse rand RoundTrip since others sw flusher u r fuel hdr c (mkAnswering rw [])).1)).
Proof.
  intros Hb Hp Hst Ha Hc Hbody. apply all_same_trace. unfold serve_upstream.
  destruct (createUpstreamRequest order r hdr) as [o h] eqn:Eo. rewrite Hb.
  assert (o_URL o = q_URL r /\ o_Body o = Some (Stream content None)) as [Hu Hob].
  { pose proof (createUpstream_request order r hdr) as He. rewrite Eo in He. cbn [fst] in He. subst o. cbn.
    destruct (Z.eqb_spec (q_ContentLength r) 0); done. }
  rewrite Hob. cbn [newBufferedBody].
  apply (attempts_good order Replace Parse rand RoundTrip since others sw flusher u r Hst (location (q_URL r)) content).
  split_and!; [|constructor|done]. unfold unchanged. cbn. rewrite Hu. split_and!; [done..|]. by exists O.
Qed.

(** ** Rules in any order *)

(** A change of one header that depends on that header only *)
Definition acts_at (k : string) (f : header -> header) : Prop :=
  (forall h k', k' <> k -> f h !! k' = h !! k') /\ (forall h h' : header, h !! k = h' !! k -> f h !! k = f h' !! k).

Lemma acts_comm k k' f g h : acts_at k f -> acts_at k' g -> k <> k' -> f (g h) = g (f h).
Proof.
  intros [F1 F2] [G1 G2] Hne. apply map_eq. intros i. destruct (decide (i = k)) as [->|Hk].
  - rewrite (G1 (f h)) by done. apply F2, G1. done.
  - rewrite (F1 (g h)) by done. destruct (decide (i = k')) as [->|Hk']; [apply G2; symmetry; by apply F1|].
    rewrite !G1 by done. symmetry. by apply F1.
Qed.

Lemma acts_id k : acts_at k (fun h => h).
Proof. done. Qed.

Lemma acts_compose k f g : acts_at k f -> acts_at k g -> acts_at k (fun h => f (g h)).
Proof. intros [F1 F2] [G1 G2]. split; [intros h k' Hk; by rewrite F1, G1 | auto]. Qed.

Lemma acts_fold {A} k (f : header -> A -> header) l : (forall a, acts_at k (fun h => f h a)) -> acts_at k (fun h => fold_left f l h).
Proof.
  intros Hf. induction l as [|a l IH]; [apply acts_id|]. exact (acts_compose k _ (fun h => f h a) IH (Hf a)).
Qed.

Lemma acts_Del k : acts_at (CanonicalHeaderKey k) (Header_Del k).
Proof. split; intros; [by apply lookup_delete_ne | unfold Header_Del; by rewrite !lookup_delete_eq]. Qed.

Lemma acts_Set k v : acts_at (CanonicalHeaderKey k) (Header_Set k v).
Proof. split; intros; [by apply lookup_insert_ne | unfold Header_Set; by rewrite !lookup_insert_eq]. Qed.

Lemma acts_Add k v : acts_at (CanonicalHeaderKey k) (Header_Add k v).
Proof.
  split; intros; [by apply lookup_insert_ne | unfold Header_Add; rewrite !lookup_insert_eq; by do 3 f_equal].
Qed.

Lemma acts_if k (b : bool) f : acts_at k f -> acts_at k (fun h => if b then h else f h).
Proof. by destruct b. Qed.

(** The header a rule is about *)
Definition rule_key (rule : string * list string) : string :=
  CanonicalHeaderKey (if HasPrefix rule.1 "+" then TrimPrefix rule.1 "+" else if HasPrefix rule.1 "-" then TrimPrefix rule.1 "-" else rule.1).

Lemma apply_rule_acts Replace rule : acts_at (rule_key rule) (apply_rule Replace rule).
Proof.
  destruct rule as [f vs]. unfold rule_key, apply_rule. cbn [fst]. destruct (HasPrefix f "+"); [|destruct (HasPrefix f "-")].
  - apply acts_fold. intros v. cbv zeta. case_decide; [apply acts_id | apply acts_Add].
  - apply acts_Del.
  - destruct (last vs); [|apply acts_id]. cbv zeta. case_decide; [apply acts_id | apply acts_Set].
Qed.

Lemma apply_replacement_acts Replace k rv : acts_at (CanonicalHeaderKey k) (fun h => apply_replacement Replace k h rv).
Proof.
  unfold apply_replacement, Header_Get. split.
  - intros h k' Hk. destruct (_ && _); [by apply lookup_insert_ne | done].
  - intros h h' He. cbv zeta. rewrite He. destruct (_ && _); [|done]. unfold Header_Set. by rewrite !lookup_insert_eq.
Qed.

(** Changes of different headers can be made in any order. *)
Lemma acts_permute {A} (key : A -> string) (f : A -> header -> header) l l' h : l ≡ₚ l' -> (forall a, acts_at (key a) (f a)) ->
  NoDup (map key l) -> fold_left (fun h a => f a h) l h = fold_left (fun h a => f a h) l' h.
Proof.
  intros Hp Hf. revert h. induction Hp as [|a l l' Hp IH|a b l|l l' l'' H1 IH1 H2 IH2]; intros h Hnd; cbn [fold_left map] in *.
  - done.
  - apply NoDup_cons in Hnd as [_ Hnd]. by apply IH.
  - apply NoDup_cons in Hnd as [Hb Hnd]. f_equal. apply (acts_comm (key a) (key b)); [apply Hf..|].
    intros E. apply Hb. rewrite E. by left.
  - rewrite IH1 by done. apply IH2. by rewrite <- H1.
Qed.

(** The order in which Go ranges over the rules of headers does not matter when
    no two of them are about the same header, with a plus, a minus or neither before its name. *)
Theorem header_rules_in_any_order Replace rules rules' replacements replacements' h :
  rules ≡ₚ rules' -> replacements ≡ₚ replacements' ->
  NoDup (map rule_key rules) -> NoDup (map (fun kv => CanonicalHeaderKey kv.1) replacements) ->
  mutateHeadersByRules Replace rules replacements h = mutateHeadersByRules Replace rules' replacements' h.
Proof.
  intros H1 H2 N1 N2. unfold mutateHeadersByRules.
  rewrite (acts_permute rule_key (apply_rule Replace) rules rules') by (done || apply apply_rule_acts).
  apply (acts_permute (fun kv => CanonicalHeaderKey kv.1) (fun kv h => fold_left (apply_replacement Replace kv.1) kv.2 h)); [done| |done].
  intros [k l]. apply acts_fold. intros rv. apply apply_replacement_acts.
Qed.

(** ** The headers of the requests that are sent *)

(** The host has no rule about the header [k], and no credentials in its name if
    [k] is the header for them. *)
Definition left_alone (Parse : string -> URL + string) (k : string) (host : UpstreamHost) : Prop :=
  (forall f vs, UpstreamHeaders host !! f = Some vs -> rule_key (f, vs) <> k) /\
  (forall f vs, UpstreamHeaderReplacements host !! f = Some vs -> CanonicalHeaderKey f <> k) /\
  (k = "Authorization" -> forall n, Parse (Name host) = inl n -> User n = None).

Definition sent_value (k : string) (v : option (list string)) (e : event) : Prop :=
  match e with Sent _ _ _ h _ => h !! k = v | _ => True end.

Lemma acts_folds {A} k (f : A -> header -> header) (key : A -> string) l h : (forall a, acts_at (key a) (f a)) ->
  (forall a, a ∈ l -> key a <> k) -> fold_left (fun h a => f a h) l h !! k = h !! k.
Proof.
  intros Hf. revert h. induction l as [|a l IH]; intros h Hk; cbn [fold_left]; [done|].
  rewrite IH by (intros b Hb; apply Hk; by right). apply (Hf a). intros ->. apply (Hk a); [left|done].
Qed.

Section SentHeaders.
Context (order : forall A : Type, gmap string A -> list (string * A)).
Context (ranged : forall A (m : gmap string A), order A m ≡ₚ map_to_list m).
Context (Replace : string -> string) (Parse : string -> URL + string).
Context (rand : nat -> nat -> Z) (RoundTrip : nat -> URL -> header -> option (list Z) -> round_trip).
Context (since : nat -> Z) (others : nat -> HostPool -> HostPool).
Context (sw : switching) (flusher : bool) (u : staticUpstream) (r : incoming).
Context (k : string) (stay : forall n pool, Forall (left_alone Parse k) pool -> Forall (left_alone Parse k) (others n pool)).
Context (v : option (list string)).

Lemma mutate_other host h : left_alone Parse k host ->
  mutateHeadersByRules Replace (order _ (UpstreamHeaders host)) (order _ (UpstreamHeaderReplacements host)) h !! k = h !! k.
Proof using ranged.
  intros (H1 & H2 & _). unfold mutateHeadersByRules.
  rewrite (acts_folds k (fun kv h => fold_left (apply_replacement Replace kv.1) kv.2 h) (fun kv => CanonicalHeaderKey kv.1)).
  - apply (acts_folds k (apply_rule Replace) rule_key); [apply apply_rule_acts|]. intros [f vs] Hin.
    rewrite ranged in Hin. by apply H1, elem_of_map_to_list.
  - intros [f vs]. apply acts_fold. intros rv. apply apply_replacement_acts.
  - intros [f vs] Hin. rewrite ranged in Hin. by apply (H2 f vs), elem_of_map_to_list.
Qed.

Lemma on_out_other f h : (forall x, f x !! k = x !! k) -> out (on_out f h) !! k = out h !! k.
Proof using. intros Hf. unfold on_out, out. destruct h as [i [o|]]; cbn; apply Hf. Qed.

Lemma prepare_headers host h o rp h' o' : left_alone Parse k host ->
  prepare order Replace Parse u host h o = inl (rp, h', o') -> out h' !! k = out h !! k.
Proof using ranged.
  intros Hl. unfold prepare.
  pose proof (fun x => mutate_other host x Hl) as Hm. destruct (Parse (Name host)) as [n|] eqn:En; cbn [default].
  - intros [= _ <- _]. rewrite on_out_other by done. destruct (User n) as [ui|] eqn:Eu; [|done].
    case_decide; [|done]. apply on_out_other. intros x. apply (acts_Set "Authorization"). intros Hk.
    destruct Hl as (_ & _ & Ha). by rewrite (Ha Hk n En) in Eu.
  - destruct (h_ReverseProxy host); [|done]. intros [= _ <- _]. by rewrite on_out_other.
Qed.

Definition kept_value (s : serving) : Prop :=
  out (s_headers s) !! k = v /\ Forall (sent_value k v) (List.filter is_sent (trace (s_answer s))) /\ Forall (left_alone Parse k) (s_pool s).

Lemma attempt_headers n i host rp h o pool c w s res :
  out h !! k = v -> Forall (sent_value k v) (List.filter is_sent (trace w)) -> Forall (left_alone Parse k) pool ->
  attempt order Replace RoundTrip sw flusher n i host rp h o pool c w = (s, res) -> kept_value s.
Proof using.
  intros Hh Hw Hp E. assert (s_headers s = h /\ Forall (left_alone Parse k) (s_pool s)) as [Hs Hpool].
  { unfold attempt in E. destruct (rp_ServeHTTP _ _ _ _ _ _ _ _ _ _) as [[o1 w1] r1]. injection E as <- <-. cbn. split; [done|].
    by do 2 (apply Forall_alter; [|done]). }
  unfold kept_value. rewrite Hs. split_and!; [done| |done]. apply attempt_sends in E.
  destruct (Director rp (o_URL o)); [|by destruct E as [_ ->]]. destruct E as (E & _). unfold silent in E. rewrite E.
  unfold log. cbn. rewrite List.filter_app. apply Forall_app. split; [done|]. by repeat constructor.
Qed.

Lemma attempts_headers fuel n s err : kept_value s ->
  kept_value (attempts order Replace Parse rand RoundTrip since others sw flusher u r fuel n s err).1.
Proof using ranged stay.
  revert n s err. induction fuel as [|fuel IH]; intros n s err Hg; cbn [attempts]; [done|].
  destruct Hg as (Ho & Hw & Hp). apply (stay n) in Hp. set (pool := others n (s_pool s)) in *. clearbody pool.
  assert (forall s', kept_value s' -> kept_value (sleep u s')) as Hsleep.
  { intros s' (H1 & H2 & H3). split_and!; [done | | done]. cbn. by rewrite List.filter_app, app_nil_r. }
  destruct (Select _ _ _ _ _) as [c [[i|]|e]]; [| |done].
  - destruct (pool !! i) as [host|] eqn:Ei; [|done]. cbn [s_headers s_out].
    destruct (prepare _ _ _ _ host _ _) as [[[rp h] o]|e] eqn:Epr; [|done].
    apply prepare_headers in Epr; [|by eapply Forall_lookup_1].
    destruct (attempt _ _ _ _ _ _ _ _ _ _ _ _ _ _) as [s1 res] eqn:E. apply attempt_headers in E; [|by rewrite Epr|done..].
    destruct res as [[e|]|e]; [|done..]. repeat case_decide; [done..|].
    assert (kept_value (remember i host s1)) as Hr.
    { destruct (remember_sent i host s1) as (R1 & _ & R3). destruct E as (G1 & G2 & G3). unfold kept_value, silent in *. rewrite R1, R3.
      split_and!; [done..|]. unfold remember. destruct (0 <? _); [by apply Forall_alter | done]. }
    destruct (keepRetrying _ _ _ _); [by apply IH, Hsleep | done].
  - destruct (keepRetrying _ _ _ _); [|done]. by apply IH, Hsleep.
Qed.

(** Every request that is sent has the value of the header that was made for the upstream. *)
Lemma sent_as_created fuel hdr c rw i url host h b : Forall (left_alone Parse k) (Hosts u) ->
  v = out (createUpstreamRequest order r hdr).2 !! k ->
  Sent i url host h b ∈ trace (s_answer (serve_upstream order Replace Parse rand RoundTrip since others sw flusher u r fuel hdr c (mkAnswering rw [])).1) ->
  h !! k = v.
Proof using ranged stay.
  intros Hu Hv. unfold serve_upstream. destruct (createUpstreamRequest order r hdr) as [o h0]. cbn [snd] in Hv.
  assert (forall s, s_headers s = h0 -> s_pool s = Hosts u -> trace (s_answer s) = [] ->
    Sent i url host h b ∈ trace (s_answer (attempts order Replace Parse rand RoundTrip since others sw flusher u r fuel 0 s None).1) -> h !! k = v) as Ha.
  { intros s H1 H2 H3 Hin. destruct (attempts_headers fuel 0 s None) as (_ & Hf & _).
    - unfold kept_value. rewrite H1, H2, H3. by split_and!.
    - rewrite Forall_forall in Hf. apply (Hf (Sent i url host h b)). apply list_elem_of_In, List.filter_In.
      split; [by apply list_elem_of_In|done]. }
  destruct (requiresBuffering u); [|by apply Ha].
  destruct (newBufferedBody (o_Body o)) as [bb|]; [by apply Ha|]. cbn. intros []%elem_of_nil.
Qed.
End SentHeaders.

(** C10.  The headers of every request that is sent upstream, at any attempt, for
    each header that no rule of the hosts is about (and that is not made of the
    credentials in the name of a host): it is absent if the first Connection header
    names it; Get finds no value in it if it is always of the connection; it is as it
    was if it is neither; and the address of the client is the last of those in
    X-Forwarded-For, after the earlier ones unless the Connection header names them.
    The websocket preset of the directive has rules about Connection and Upgrade.
    [hop_header_is_passed_on] below shows a header of the connection with more values
    whose first one is empty. *)
Theorem upstream_request_headers order Replace Parse rand RoundTrip since others sw flusher u r fuel hdr c rw i url host h b k :
  (forall A (m : gmap string A), order A m ≡ₚ map_to_list m) -> wf_header hdr ->
  Forall (left_alone Parse k) (Hosts u) ->
  (forall n pool, Forall (left_alone Parse k) pool -> Forall (left_alone Parse k) (others n pool)) ->
  Sent i url host h b ∈ trace (s_answer (serve_upstream order Replace Parse rand RoundTrip since others sw flusher u r fuel hdr c (mkAnswering rw [])).1) ->
  let named := map CanonicalHeaderKey (connection_names (Header_Get "Connection" hdr)) in
  (k ∈ hopHeaders -> Header_Get k h = EmptyString) /\
  (k ∈ named -> k <> XFF -> h !! k = None) /\
  (k ∉ named -> k ∉ hopHeaders -> k <> XFF -> h !! k = hdr !! k) /\
  (k = XFF -> let prior := if decide (XFF ∈ named) then None else hdr !! XFF in
     h !! k = match SplitHostPort (q_RemoteAddr r) with
              | Some (ip, _) => Some [match prior with Some p => StrJoin p ", " +:+ ", " +:+ ip | None => ip end]
              | None => prior
              end).
Proof.
  intros Hord Hw Hu Hst Hin. cbv zeta.
  apply (sent_as_created order Hord Replace Parse rand RoundTrip since others sw flusher u r k Hst _ fuel hdr c rw i url host h b Hu eq_refl) in Hin.
  destruct (created_headers order Hord r hdr Hw) as (H1 & H2 & H3 & H4 & H5).
  split_and!; [|intros; rewrite Hin; auto..|].
  - intros Hk. specialize (H1 k Hk). unfold Header_Get in *. rewrite (hop_canonical k Hk) in *. by rewrite Hin.
  - intros ->. rewrite Hin. destruct (SplitHostPort (q_RemoteAddr r)) as [[ip port]|]; [by apply (H4 ip port)|by apply H5].
Qed.

(** ** The upstream of a request *)

Definition serves (cs : bool) (path : string) (u : staticUpstream) : Prop :=
  Path_Matches cs path (from u) = true /\ AllowedPath cs (from u) (IgnoredSubPaths u) path = true.

Definition best_match (cs : bool) (path : string) (us : list staticUpstream) (longest : nat) (best : option nat) : Prop :=
  (forall u, u ∈ us -> serves cs path u -> String.length (from u) <= longest)%nat /\
  match best with
  | Some i => exists u, us !! i = Some u /\ serves cs path u /\ String.length (from u) = longest /\
      forall j u', us !! j = Some u' -> (j < i)%nat -> serves cs path u' -> (String.length (from u') < longest)%nat
  | None => longest = O
  end.

Lemma best_match_skip cs path us u longest best : best_match cs path us longest best ->
  (serves cs path u -> String.length (from u) <= longest)%nat -> best_match cs path (us ++ [u]) longest best.
Proof.
  intros [H1 H2] Hu. split.
  - intros u' [Hi|Hi%list_elem_of_singleton]%elem_of_app; [auto | by subst].
  - destruct best as [i|]; [|done]. destruct H2 as (v & Hi & Hs & Hl & Hb). exists v. split_and!; [by apply lookup_app_l_Some | done..|].
    intros j u' Hj Hlt. apply (Hb j u'); [|done]. apply lookup_lt_Some in Hi. rewrite lookup_app_l in Hj by lia. done.
Qed.

Lemma match_loop_spec cs path rest us longest best : best_match cs path us longest best ->
  exists longest', best_match cs path (us ++ rest) longest' (match_loop cs path rest (length us) longest best).
Proof.
  revert us longest best. induction rest as [|u rest IH]; intros us longest best Hb; cbn [match_loop]; [rewrite app_nil_r; eauto|].
  rewrite (cons_middle u us rest), app_assoc. replace (S (length us)) with (length (us ++ [u])) by (rewrite length_app; cbn; lia).
  destruct (negb _ || negb _) eqn:En.
  - apply IH. apply best_match_skip; [done|]. intros [E1 E2]. by rewrite E1, E2 in En.
  - apply orb_false_iff in En as [E1%negb_false_iff E2%negb_false_iff].
    destruct (Nat.ltb_spec longest (String.length (from u))) as [Hl|Hl]; apply IH; [|by apply best_match_skip].
    destruct Hb as [H1 _]. split.
    + intros u' [Hi|Hi%list_elem_of_singleton]%elem_of_app Hs; [specialize (H1 u' Hi Hs); lia | by subst].
    + exists u. split_and!; [by apply list_lookup_middle | done..|]. intros j u' Hj Hlt Hs. rewrite lookup_app_l in Hj by done.
      apply list_elem_of_lookup_2 in Hj. specialize (H1 u' Hj Hs). lia.
Qed.

(** A request is proxied to the first of the upstreams with the longest path
    among those whose path it is below and that do not exclude it; to none
    only if the path of all of these is empty. *)
Theorem request_goes_to_longest_path cs us path :
  match match_ cs us path with
  | Some i => exists u, us !! i = Some u /\ serves cs path u /\
      forall j u', us !! j = Some u' -> serves cs path u' ->
        (String.length (from u') <= String.length (from u))%nat /\ ((j < i)%nat -> (String.length (from u') < String.length (from u))%nat)
  | None => forall u, u ∈ us -> serves cs path u -> from u = EmptyString
  end.
Proof.
  destruct (match_loop_spec cs path us [] O None) as (longest & H1 & H2).
  { split; [intros u Hu; by apply elem_of_nil in Hu | done]. }
  change (match_loop cs path us (length []) 0 None) with (match_ cs us path) in H2. cbn [app] in H1, H2.
  destruct (match_ cs us path) as [i|].
  - destruct H2 as (u & Hi & Hs & Hl & Hb). exists u. split_and!; [done..|]. intros j u' Hj Hs'. rewrite Hl. split; [|by eauto].
    apply list_elem_of_lookup_2 in Hj. auto.
  - subst longest. intros u Hu Hs. specialize (H1 u Hu Hs). destruct (from u); [done | cbn in H1; lia].
Qed.

(** ** Many requests

    The loop of each request is cut at its accesses to the counters of the hosts:
    the host is chosen, then its connections are counted, then the attempt ends
    and they are counted back, then the failure is remembered by a timer of its own. *)

Module Requests.

Inductive phase := Choosing | Chosen (i : nat) | AtHost (i : nat) | Failing (i : nat) | Finished.

Record system := mkSystem { hosts : HostPool; requests : list phase; timers : list nat }.

Definition at_host (i : nat) (p : phase) : bool := match p with AtHost j => Nat.eqb i j | _ => false end.
Definition open_at (i : nat) (s : system) : nat := count (at_host i) (requests s).
Definition failed_at (i : nat) (s : system) : nat := count (Nat.eqb i) (timers s).

Inductive step : system -> system -> Prop :=
  | arrives H R T : step (mkSystem H R T) (mkSystem H (R ++ [Choosing]) T)
  | chooses H R T q i rand policy r c c' : R !! q = Some Choosing -> Select rand policy H r c = (c', Ret (Some i)) ->
      step (mkSystem H R T) (mkSystem H (<[q := Chosen i]> R) T)
  | gives_up H R T q : R !! q = Some Choosing -> step (mkSystem H R T) (mkSystem H (<[q := Finished]> R) T)
  | connects H R T q i : R !! q = Some (Chosen i) -> (i < length H)%nat ->
      step (mkSystem H R T) (mkSystem (alter (add_Conns 1) i H) (<[q := AtHost i]> R) T)
  | ends_well H R T q i : R !! q = Some (AtHost i) ->
      step (mkSystem H R T) (mkSystem (alter (add_Conns (-1)) i H) (<[q := Finished]> R) T)
  | fails H R T q i : R !! q = Some (AtHost i) ->
      step (mkSystem H R T) (mkSystem (alter (add_Conns (-1)) i H) (<[q := Failing i]> R) T)
  | remembers H R T q i h next : R !! q = Some (Failing i) -> H !! i = Some h -> 0 < FailTimeout h -> next = Choosing \/ next = Finished ->
      step (mkSystem H R T) (mkSystem (alter (add_Fails 1) i H) (<[q := next]> R) (T ++ [i]))
  | forgets H R T q i h next : R !! q = Some (Failing i) -> H !! i = Some h -> FailTimeout h <= 0 -> next = Choosing \/ next = Finished ->
      step (mkSystem H R T) (mkSystem H (<[q := next]> R) T)
  | timer_fires H R T k i : T !! k = Some i -> step (mkSystem H R T) (mkSystem (alter (add_Fails (-1)) i H) R (delete k T))
  | is_checked H R T i v : step (mkSystem H R T) (mkSystem (alter (set_Unhealthy v) i H) R T).

Inductive reachable (H0 : HostPool) : system -> Prop :=
  | starts : reachable H0 (mkSystem H0 [] [])
  | goes_on s s' : reachable H0 s -> step s s' -> reachable H0 s'.

(** The counters of every host are the numbers they stand for, at their widths. *)
Definition exact (s : system) : Prop := forall i h, hosts s !! i = Some h ->
  Conns h = wrapS 64 (Z.of_nat (open_at i s)) /\ Fails h = wrapS 32 (Z.of_nat (failed_at i s)).

Lemma counted w old d a b : 0 < w -> Z.of_nat b = Z.of_nat a + d -> old = wrapS w (Z.of_nat a) -> wrapS w (old + d) = wrapS w (Z.of_nat b).
Proof. intros Hw Hb ->. rewrite wrapS_add_l by done. by rewrite Hb. Qed.

(** One host is changed, and the numbers of that host with it. *)
Lemma exact_alter H R T R' T' i f dc df : exact (mkSystem H R T) ->
  (forall h, Conns (f h) = (if decide (dc = 0) then Conns h else wrapS 64 (Conns h + dc)) /\
             Fails (f h) = (if decide (df = 0) then Fails h else wrapS 32 (Fails h + df))) ->
  (forall j, Z.of_nat (count (at_host j) R') = Z.of_nat (count (at_host j) R) + if decide (i = j) then dc else 0) ->
  (forall j, Z.of_nat (count (Nat.eqb j) T') = Z.of_nat (count (Nat.eqb j) T) + if decide (i = j) then df else 0) ->
  exact (mkSystem (alter f i H) R' T').
Proof.
  intros He Hf HR HT j h Hj. unfold open_at, failed_at. cbn [hosts requests timers] in *. specialize (HR j). specialize (HT j).
  destruct (decide (i = j)) as [->|Hne].
  - rewrite list_lookup_alter_eq in Hj. destruct (H !! j) as [h0|] eqn:E; [|done]. injection Hj as <-.
    destruct (He j h0 E) as [E1 E2]. destruct (Hf h0) as [-> ->].
    unfold open_at, failed_at in E1, E2. cbn [requests timers] in E1, E2.
    clear Hf. split; (case_decide as Hd; [rewrite Hd, Z.add_0_r in HR || rewrite Hd, Z.add_0_r in HT; congruence | by eapply counted]).
  - rewrite list_lookup_alter_ne in Hj by done. destruct (He j h Hj) as [-> ->]. unfold open_at, failed_at. cbn [requests timers].
    by rewrite HR, HT, !Z.add_0_r.
Qed.

Lemma moved j R q p p' : R !! q = Some p ->
  Z.of_nat (count (at_host j) (<[q := p']> R)) = Z.of_nat (count (at_host j) R) + (Z.of_nat (b2n (at_host j p')) - Z.of_nat (b2n (at_host j p))).
Proof. intros Hq. pose proof (count_insert (at_host j) R q p p' Hq). lia. Qed.

Lemma count_snoc {A} (f : A -> bool) l a : count f (l ++ [a]) = (count f l + b2n (f a))%nat.
Proof. unfold count. rewrite filter_app, length_app, filter_cons. by destruct (f a). Qed.

Lemma exact_same H R T R' : exact (mkSystem H R T) -> (forall j, count (at_host j) R' = count (at_host j) R) -> exact (mkSystem H R' T).
Proof. intros He HR j h Hj. destruct (He j h Hj) as [-> ->]. unfold open_at, failed_at. cbn [requests timers]. by rewrite HR. Qed.

Ltac count_phase Hq :=
  rewrite (moved _ _ _ _ _ Hq); cbn [at_host];
  repeat match goal with
         | |- context [Nat.eqb ?x ?y] => destruct (Nat.eqb_spec x y)
         | |- context [decide (?x = ?y)] => destruct (decide (x = y))
         end; try congruence; cbn [b2n]; lia.

Ltac no_timer := intros j; destruct (decide _); lia.

Lemma exact_step s s' : exact s -> step s s' -> exact s'.
Proof.
  intros He Hst. destruct Hst as [H R T|H R T q i rand policy r c c' Hq _|H R T q Hq|H R T q i Hq _|H R T q i Hq|H R T q i Hq
    |H R T q i h next Hq _ _ Hn|H R T q i h next Hq _ _ Hn|H R T k i Hk|H R T i v].
  - apply (exact_same _ _ _ _ He). intros j. rewrite count_snoc. cbn [at_host b2n]. lia.
  - apply (exact_same _ _ _ _ He). intros j. apply Nat2Z.inj. count_phase Hq.
  - apply (exact_same _ _ _ _ He). intros j. apply Nat2Z.inj. count_phase Hq.
  - apply (exact_alter H R T _ _ i _ 1 0 He); [by intros h | intros j; count_phase Hq | no_timer].
  - apply (exact_alter H R T _ _ i _ (-1) 0 He); [by intros h | intros j; count_phase Hq | no_timer].
  - apply (exact_alter H R T _ _ i _ (-1) 0 He); [by intros h | intros j; count_phase Hq | no_timer].
  - apply (exact_alter H R T _ _ i _ 0 1 He); [by intros h' | destruct Hn as [-> | ->]; intros j; count_phase Hq |].
    intros j. rewrite count_snoc. destruct (Nat.eqb_spec j i), (decide (i = j)); try congruence; cbn [b2n]; lia.
  - apply (exact_same _ _ _ _ He). intros j. apply Nat2Z.inj. destruct Hn as [-> | ->]; count_phase Hq.
  - apply (exact_alter H R T _ _ i _ 0 (-1) He); [by intros h | no_timer |].
    intros j. rewrite (count_delete (Nat.eqb j) T k i Hk). destruct (Nat.eqb_spec j i), (decide (i = j)); try congruence; cbn [b2n]; lia.
  - apply (exact_alter H R T _ _ i _ 0 0 He); [by intros h | no_timer | no_timer].
Qed.

Definition idle (h : UpstreamHost) : Prop := Conns h = 0 /\ Fails h = 0.

(** C8.  However requests, timers and health checks interleave, the connections of a
    host are the requests that are at it and its failures are the
    timers that run for it: no attempt and no failure is counted twice or
    forgotten. When none of them is left, a healthy host is available
    again. *)
Theorem counters_are_exact H0 s : Forall idle H0 -> reachable H0 s ->
  exact s /\
  forall i h, hosts s !! i = Some h -> open_at i s = O -> failed_at i s = O -> Unhealthy h = 0 ->
    (forall m, CheckDown h = Some m -> 0 < m) -> Available h = true.
Proof.
  intros Hi Hr. assert (exact s) as He.
  { induction Hr as [|s s' _ IH Hst]; [|by eapply exact_step]. intros i h Hh. cbn in *. rewrite Forall_lookup in Hi.
    destruct (Hi i h Hh) as [-> ->]. done. }
  split; [done|]. intros i h Hh Hc Hf Hu Hm. destruct (He i h Hh) as [E1 E2]. rewrite Hc in E1. rewrite Hf in E2.
  unfold Available, Down, Full. rewrite E1, E2, Hu. change (wrapS 64 (Z.of_nat 0)) with 0. change (wrapS 32 (Z.of_nat 0)) with 0.
  destruct (CheckDown h) as [m|]; cbn.
  - specialize (Hm m eq_refl). destruct (Z.leb_spec m 0); [lia|]. cbn. destruct (Z.ltb_spec 0 (MaxConns h)), (Z.leb_spec (MaxConns h) 0); try done; lia.
  - destruct (Z.ltb_spec 0 (MaxConns h)), (Z.leb_spec (MaxConns h) 0); try done; lia.
Qed.
End Requests.

Module ProxyServeDemo.
Import ProxyDemo.

Definition ranged (A : Type) (m : gmap string A) : list (string * A) := map_to_list m.
Definition ok : response := mkResponse 200 ∅ [] ∅.
(** The first attempt reads two bytes of the body and fails. *)
Definition flaky (n : nat) (_ : URL) (_ : header) (_ : option (list Z)) : round_trip :=
  match n with O => (2%nat, inr (OtherError "EOF")) | _ => (3%nat, inl ok) end.
Definition broken (_ : nat) (_ : URL) (_ : header) (_ : option (list Z)) : round_trip := (O, inr (OtherError "connection refused")).
Definition no_switch : switching := mkSwitching None (fun _ => None) None.
Definition quarter (n : nat) : Z := Z.of_nat n * (250 * 10 ^ 6).
Definition alone (_ : nat) (pool : HostPool) : HostPool := pool.
Definition rands (_ n : nat) : Z := ProxyDemo.rand n.
Definition idem (s : string) : string := s.
Definition blank : answering := mkAnswering ∅ [].

Definition post : incoming :=
  mkIncoming "POST" (mkURL EmptyString EmptyString None EmptyString "/dir" EmptyString false "q=1" EmptyString) "www.example.com" "10.0.0.9:1234"
    "/dir?q=1" 3 (Some (Stream [1; 2; 3] None)).

Definition run (u : staticUpstream) (rt : nat -> URL -> header -> option (list Z) -> round_trip) (hdr : header) : serving * go ending :=
  serve_upstream ranged idem parse rands rt quarter alone no_switch false u post 6 hdr start blank.

Definition sent_of (e : event) : option (string * string * string * option (list Z)) :=
  match e with Sent _ url _ _ b => Some (Host url, Path url, RawQuery url, b) | _ => None end.
Definition sent (s : serving * go ending) : list (string * string * string * option (list Z)) := omap sent_of (trace (s_answer s.1)).

Definition upstream (text : string) : staticUpstream :=
  match configured text with Done [u] => u | _ => new_upstream end.

Definition two : staticUpstream := upstream "proxy / a b {
  policy first
  try_duration 1s
  fail_timeout 10s
}".

Definition demo_headers : header :=
  {[ "Connection" := ["X-Secret, close"]; "X-Secret" := ["s"]; "Te" := ["trailers"]; "Accept" := ["*/*"] ]}.

Lemma wf_demo : wf_header demo_headers.
Proof. apply (bool_decide_unpack _). by vm_compute. Defined.

(** The headers of the requests that are sent *)
Definition sent_headers (w : answering) : list header :=
  omap (fun e => match e with Sent _ _ _ h _ => Some h | _ => None end) (trace w).

(** Hosts without rules and without credentials *)
Definition without_rules (host : UpstreamHost) : bool :=
  Nat.eqb (size (UpstreamHeaders host)) 0 && Nat.eqb (size (UpstreamHeaderReplacements host)) 0 &&
  match parse (Name host) with inl n => match User n with Some _ => false | None => true end | inr _ => true end.

Lemma without_rules_left_alone k pool : forallb without_rules pool = true -> Forall (left_alone parse k) pool.
Proof.
  intros H. apply Forall_forall. intros host Hin. rewrite forallb_forall in H. specialize (H host (proj1 (list_elem_of_In _ _) Hin)).
  apply andb_true_iff in H as [[H1%Nat.eqb_eq%map_size_empty_inv H2%Nat.eqb_eq%map_size_empty_inv]%andb_true_iff H3].
  split_and!; intros; [by rewrite H1, lookup_empty in *|by rewrite H2, lookup_empty in *|].
  match goal with H : parse _ = inl ?n |- _ => rewrite H in H3; by destruct (User n) end.
Qed.

Lemma head_sent w h : head (sent_headers w) = Some h -> exists i url host b, Sent i url host h b ∈ trace w.
Proof.
  unfold sent_headers. induction (trace w) as [|e l IH]; cbn; [done|]. destruct e as [i url host h' b| | | | | | | |]; cbn.
  1: intros [= ->]; exists i, url, host, b; left.
  all: intros (i & url & host & b & Hin)%IH; exists i, url, host, b; by right.
Qed.

Lemma demo_sends : is_Some (head (sent_headers (s_answer (serve_upstream ranged idem parse rands flaky quarter alone no_switch false two post 6
  demo_headers start (mkAnswering ∅ [])).1))).
Proof. vm_compute. eexists. reflexivity. Qed.

Lemma two_left_alone k : Forall (left_alone parse k) (Hosts two).
Proof. apply without_rules_left_alone. vm_compute. reflexivity. Qed.

Lemma upstream_request_headers_witness :
  exists h, head (sent_headers (s_answer (serve_upstream ranged idem parse rands flaky quarter alone no_switch false two post 6 demo_headers start
    (mkAnswering ∅ [])).1)) = Some h /\ h !! XFF = Some ["10.0.0.9"] /\ h !! "X-Secret" = None.
Proof.
  destruct demo_sends as [h Hh]. exists h. split; [exact Hh|]. apply head_sent in Hh as (i & url & hst & b & Hin).
  pose proof (fun k => upstream_request_headers ranged idem parse rands flaky quarter alone no_switch false two post 6 demo_headers start ∅ i url hst h b k
    (fun A m => Permutation_refl (map_to_list m)) wf_demo (two_left_alone k) (fun _ _ H => H) Hin) as H.
  split.
  - rewrite (proj2 (proj2 (proj2 (H XFF))) eq_refl). vm_compute. reflexivity.
  - apply (H "X-Secret"); [|discriminate]. apply (bool_decide_unpack _). vm_compute. exact I.
Defined.

Lemma retries_end_witness :
  let result := serve_upstream ranged idem parse rands broken quarter alone no_switch false two post 6 ∅ start blank in
  result.2 <> Ret Running /\ (sent_count (s_answer result.1) <= 6)%nat.
Proof.
  apply (retries_end ranged idem parse rands broken quarter alone no_switch false two post); [reflexivity | discriminate |].
  intros n. unfold quarter. change (TryInterval two) with (250 * 10 ^ 6). lia.
Defined.

Example attempts_of_two : sent (run two flaky ∅) = [("a", "/dir", "q=1", Some [1; 2; 3]); ("b", "/dir", "q=1", Some [1; 2; 3])].
Proof. by vm_compute. Qed.

Lemma two_plain : Forall plain_host (Hosts two).
Proof.
  vm_compute. repeat constructor; (eexists; split; [reflexivity|]); repeat split; try discriminate; by left.
Qed.

Lemma every_attempt_sends_the_same_request_witness :
  Forall (same_request (location (q_URL post)) [1; 2; 3])
    (trace (s_answer (serve_upstream ranged idem parse rands flaky quarter alone no_switch false two post 6 ∅ start (mkAnswering ∅ [])).1)).
Proof.
  apply (every_attempt_sends_the_same_request ranged idem parse rands flaky quarter alone no_switch false two post 6 ∅ start ∅ [1; 2; 3]).
  - reflexivity.
  - exact two_plain.
  - done.
  - repeat split; by left.
  - discriminate.
  - reflexivity.
Defined.

Lemma header_rules_in_any_order_witness :
  mutateHeadersByRules idem [("+X-A", ["1"]); ("-Server", [])] [] ∅ = mutateHeadersByRules idem [("-Server", []); ("+X-A", ["1"])] [] ∅.
Proof.
  apply (header_rules_in_any_order idem); [apply Permutation_swap | done | |constructor].
  apply (bool_decide_unpack _). vm_compute. exact I.
Defined.

(** One host that takes one connection *)
Definition single : HostPool := [mkHost 0 1 "single" ∅ ∅ 10 (Some 1) EmptyString None 0 0 None ∅ ∅].

Import Requests.

Lemma one_request : reachable single (mkSystem (alter (add_Conns 1) 0%nat single) [AtHost 0] []).
Proof.
  eapply goes_on; [eapply goes_on; [eapply goes_on; [apply starts | apply arrives]|]|].
  - exact (chooses single [Choosing] [] 0 0 ProxyDemo.rand (Some First) (get "/") start start eq_refl eq_refl).
  - exact (connects single [Chosen 0] [] 0 0 eq_refl ltac:(cbn; lia)).
Defined.

Lemma counters_are_exact_witness : exact (mkSystem (alter (add_Conns 1) 0%nat single) [AtHost 0] []).
Proof. apply (counters_are_exact single); [by repeat constructor | apply one_request]. Defined.

(** Two requests choose the host before one of them is counted: it has more
    connections than its limit. *)
Example limit_is_exceeded : exists s h, reachable single s /\ hosts s !! 0%nat = Some h /\ MaxConns h = 1 /\ Conns h = 2.
Proof.
  eexists _, _. split; [|split; [|split]].
  - eapply goes_on; [eapply goes_on; [eapply goes_on; [eapply goes_on; [eapply goes_on; [eapply goes_on; [apply starts | apply arrives]
      | apply arrives]|]|]|]|].
    + exact (chooses single [Choosing; Choosing] [] 0 0 ProxyDemo.rand (Some First) (get "/") start start eq_refl eq_refl).
    + exact (chooses single [Chosen 0; Choosing] [] 1 0 ProxyDemo.rand (Some First) (get "/") start start eq_refl eq_refl).
    + exact (connects single [Chosen 0; Chosen 0] [] 0 0 eq_refl ltac:(cbn; lia)).
    + exact (connects (alter (add_Conns 1) 0%nat single) [AtHost 0; Chosen 0] [] 1 0 eq_refl ltac:(by apply Nat.ltb_lt)).
  - reflexivity.
  - reflexivity.
  - reflexivity.
Qed.

(** The URL of the first attempt is rewritten again by the second. *)
Example base_path_is_doubled : sent (run (upstream "proxy / a/base b/base {
    policy first
    try_duration 1s
    fail_timeout 10s
  }") flaky ∅) = [("a", "/base/dir", "q=1", Some [1; 2; 3]); ("b", "/base/base/dir", "q=1", Some [1; 2; 3])].
Proof. by vm_compute. Qed.

(** With one host the body is not kept for the second attempt. *)
Example body_is_lost : sent (run (upstream "proxy / a {
    try_duration 1s
  }") flaky ∅) = [("a", "/dir", "q=1", Some [1; 2; 3]); ("a", "/dir", "q=1", Some [3])].
Proof. by vm_compute. Qed.

(** A header of the connection whose first value is empty is passed on. *)
Example hop_header_is_passed_on :
  out (createUpstreamRequest ranged post {[ "Proxy-Authorization" := [EmptyString; "Basic c2VjcmV0"] ]}).2 !! "Proxy-Authorization" =
  Some [EmptyString; "Basic c2VjcmV0"].
Proof. by vm_compute. Qed.

(** Two rules about a header: what is left depends on which comes first. *)
Example order_of_rules_matters :
  mutateHeadersByRules idem [("X-A", ["set"]); ("+X-A", ["added"])] [] ∅ !! "X-A" = Some ["set"; "added"] /\
  mutateHeadersByRules idem [("+X-A", ["added"]); ("X-A", ["set"])] [] ∅ !! "X-A" = Some ["set"].
Proof. by vm_compute. Qed.

Definition headers_of (e : event) : option (option (list string)) :=
  match e with Sent _ _ _ h _ => Some (h !! "X-A") | _ => None end.

(** A header that a rule adds is added again by every attempt. *)
Example header_is_added_again : omap headers_of (trace (s_answer (run (upstream "proxy / a b {
    policy first
    try_duration 1s
    fail_timeout 10s
    header_upstream +X-A 1
  }") flaky ∅).1)) = [Some ["1"]; Some ["1"; "1"]].
Proof. by vm_compute. Qed.
End ProxyServeDemo.
