(* ===== verification/ConfigDriver.v ===== *)
(** The configuration driver (src/go/pfconfigdriver): the queries to the
    pfconfig service and its replies, the objects that cache what was fetched,
    the cached hash and value, and the pool that refreshes objects under a lock.

    Reflection over the fields of a struct becomes a record of the fields the
    driver looks at.  The service, its control files and the decoder of JSON are
    arguments; clock readings are numbers, and an object that was never loaded
    has no reading. *)
From S2P Require Import Prelude NetIP Regex.
From Stdlib Require Import ZArith Lia Ascii.
From stdpp Require Import base gmap strings list.

Open Scope Z_scope.
Open Scope string_scope.

(** ** Queries *)

Record Query := mkQuery { encoding : string; method : string; ns : string; basens : string }.

Definition GetPayload (q : Query) : jv :=
  JMap [("encoding", JStr (encoding q)); ("method", JStr (method q)); ("key", JStr (ns q))].

Definition GetIdentifier (q : Query) : string := method q +:+ "|" +:+ ns q.

(** A field of the metadata: not there, or a value that may be empty and the
    default of its tag. *)
Inductive field := Absent | Present (user tag : string).

Record metadata := mkMeta {
  PfconfigNS : field; PfconfigMethod : field; PfconfigHashNS : field; PfconfigHostnameOverlay : field;
  PfconfigClusterNameOverlay : field; PfconfigArray : field; PfconfigDecodeInElement : field
}.

Definition metadataFromField (f : field) : go string :=
  match f with
  | Absent => Ret EmptyString
  | Present user tag =>
      if decide (user <> EmptyString) then Ret user
      else if decide (tag <> "-") then Ret tag
      else Panic "No default value defined. User specified value is required."
  end.

(** transferMetadata: the value of a field that is there becomes that of the
    new object. *)
Definition transfer (f : field) : go field :=
  match f with
  | Absent => Ret Absent
  | Present _ tag => (v <-! metadataFromField f ;; Ret (Present v tag))%go
  end.

Definition transferMetadata (m : metadata) : go metadata :=
  (a <-! transfer (PfconfigNS m) ;; b <-! transfer (PfconfigMethod m) ;; c <-! transfer (PfconfigHashNS m) ;;
   d <-! transfer (PfconfigHostnameOverlay m) ;; e <-! transfer (PfconfigClusterNameOverlay m) ;;
   f <-! transfer (PfconfigArray m) ;; g <-! transfer (PfconfigDecodeInElement m) ;;
   Ret (mkMeta a b c d e f g))%go.

(** [\)$] *)
Definition normalizeNamespace (s : string) : string := if HasSuffix s ")" then s else s +:+ "()".

(** [.*\(.*\)$]: a parenthesis that opens before a closing one at the end, on
    the same line. *)
Fixpoint has_overlay (s : string) : bool :=
  match s with
  | EmptyString => false
  | String c s' => (is_char "(" c && HasSuffix s' ")" && all_chars any_char s') || has_overlay s'
  end.

(** What the driver knows of this host: its name, whether there is a cluster,
    and the name of the cluster. *)
Record host := mkHost { myHostname : string; ClusterEnabled : bool; clusterName : string }.

Definition createQuery (h : host) (m : metadata) : go Query :=
  (base <-! metadataFromField (PfconfigNS m) ;;
   hostname_overlay <-! metadataFromField (PfconfigHostnameOverlay m) ;;
   let base := if bool_decide (hostname_overlay = "yes") && negb (has_overlay base) then base +:+ "(" +:+ myHostname h +:+ ")" else base in
   base <-! (if ClusterEnabled h then
               (cluster_overlay <-! metadataFromField (PfconfigClusterNameOverlay m) ;;
                if bool_decide (cluster_overlay = "yes") && negb (has_overlay base) then
                  if decide (clusterName h = EmptyString) then Panic "Can't determine cluster name for this host"
                  else Ret (base +:+ "(" +:+ clusterName h +:+ ")")
                else Ret base)
             else Ret base) ;;
   let base := normalizeNamespace base in
   m_ <-! metadataFromField (PfconfigMethod m) ;;
   if decide (m_ = "hash_element")
   then (key <-! metadataFromField (PfconfigHashNS m) ;; Ret (mkQuery "json" m_ (base +:+ ";" +:+ key) base))
   else Ret (mkQuery "json" m_ base base))%go.

(** ** Replies *)

(** FetchSocket over the bytes that were received: the length in little endian
    and the response.  Errors of the two reads are not looked at, and the test of
    the length compares a slice with the length it was made with. *)
Definition declared_length (received : list Z) : Z :=
  match received with
  | a :: b :: c :: d :: _ => a + b * 2 ^ 8 + c * 2 ^ 16 + d * 2 ^ 24
  | _ => 0
  end.

Definition FetchSocket (received : list Z) : go (list Z) :=
  let length_ := declared_length received in
  let response := resize (Z.to_nat length_) 0 (drop 4 received) in
  if decide (Z.of_nat (length response) <> length_) then Panic "Got invalid length response from pfconfig" else Ret response.

(** ** Objects *)

Section Objects.
Context {V : Type} (zero : V).

Record object := mkObject { o_meta : metadata; o_value : V; o_LoadedAt : option Z }.

Definition SetLoadedAt (t : Z) (o : object) : object := mkObject (o_meta o) (o_value o) (Some t).
Definition GetLoadedAt (o : object) : option Z := o_LoadedAt o.

Context (h : host).
(** The bytes the service sends for a query, and the decoders: of the response
    itself, and of its element ([None]: it is not JSON for the struct, [Some
    None]: it has no element). *)
Context (service : Query -> list Z) (DecodeResponse : list Z -> option V) (DecodeElement : list Z -> option (option V)).
(** The time of the control file of a namespace, if it exists. *)
Context (control : string -> option Z).

Definition IsValid (o : object) : go bool :=
  (q <-! createQuery h (o_meta o) ;;
   Ret (match control (basens q) with
        | None => false
        | Some controlTime =>
            match GetLoadedAt o with Some t => negb (bool_decide (t < controlTime)) | None => false end
        end))%go.

Definition decode (m : metadata) (q : Query) (response : list Z) : go (option V) :=
  (array <-! metadataFromField (PfconfigArray m) ;;
   element <-! metadataFromField (PfconfigDecodeInElement m) ;;
   if decide (method q = "keys" \/ array = "yes" \/ element = "yes")
   then match DecodeResponse response with Some v => Ret (Some v) | None => Panic "json" end
   else match DecodeElement response with Some r => Ret r | None => Panic "json" end)%go.

(** The object is replaced by an empty one before the service is asked; [now] is
    read after the response has been decoded. *)
Definition FetchDecodeSocket (now : Z) : gst object error :=
  (m <-- gst_get o_meta ;;
   m <-- gst_lift (transferMetadata m) ;;
   gst_do (fun _ => mkObject m zero None) ;;;
   q <-- gst_lift (createQuery h m) ;;
   response <-- gst_lift (FetchSocket (service q)) ;;
   r <-- gst_lift (decode m q response) ;;
   match r with
   | Some v => gst_do (fun o => SetLoadedAt now (mkObject (o_meta o) v (o_LoadedAt o))) ;;; gst_ret None
   | None => gst_ret (Some "Element in response was invalid.")
   end)%go.

Definition FetchDecodeSocketCache (now : Z) : gst object (bool * error) :=
  (o <-- gst_get (fun o => o) ;;
   valid <-- gst_lift (IsValid o) ;;
   if valid : bool then gst_ret (false, None)
   else (err <-- FetchDecodeSocket now ;; gst_ret (true, err)))%go.
End Objects.

Arguments object : clear implicits.

(** ** Cached values and hashes *)

Section Caches.
Context {V : Type} (zero : V) (h : host).
Context (service : Query -> list Z) (DecodeResponse : list Z -> option V) (DecodeElement : list Z -> option (option V)).
Context (control : string -> option Z).

Abbreviation fetch := (FetchDecodeSocket zero h service DecodeResponse DecodeElement).
Abbreviation valid := (IsValid (V := V) h control).

(** newType *)
Context (newType : object V).

(** The state is what was stored last. *)
Definition Value (now : Z) : gst (option (object V)) (option (object V) * error) :=
  fun old =>
    match old with
    | None =>
        match fetch now newType with
        | (obj, Ret None) => (Some obj, Ret (Some obj, None))
        | (_, Ret (Some err)) => (None, Ret (None, Some err))
        | (_, Panic msg) => (None, Panic msg)
        end
    | Some obj =>
        match valid obj with
        | Panic msg => (old, Panic msg)
        | Ret true => (old, Ret (Some obj, None))
        | Ret false =>
            match fetch now newType with
            | (newObj, Ret None) => (Some newObj, Ret (Some newObj, None))
            | (_, Ret (Some err)) => (old, Ret (Some obj, Some err))
            | (_, Panic msg) => (old, Panic msg)
            end
        end
    end.

(** *** The cached hash *)

Context (DecodeKeys : list Z -> option (list string)) (DecodeKeysElement : list Z -> option (option (list string))).
Context (hash_ns : string).

Abbreviation fetch_keys := (FetchDecodeSocketCache [] h service DecodeKeys DecodeKeysElement control).

(** The namespace of the hash is that of its keys. *)
Definition with_ns (k : object (list string)) : object (list string) :=
  let m := o_meta k in
  mkObject (mkMeta (match PfconfigNS m with Present _ tag => Present hash_ns tag | Absent => Absent end) (PfconfigMethod m) (PfconfigHashNS m)
              (PfconfigHostnameOverlay m) (PfconfigClusterNameOverlay m) (PfconfigArray m) (PfconfigDecodeInElement m))
    (o_value k) (o_LoadedAt k).

(** New, which builds the object of an id. *)
Context (New : string -> object V + string).

Record CachedHash := mkHash { ids : object (list string); Structs : option (gmap string (object V)) }.

(** The loop over the ids: whether the hash is read again. *)
Fixpoint check_ids (structs : gmap string (object V)) (keys : list string) (reload : bool) : go bool :=
  match keys with
  | [] => Ret reload
  | id :: keys' =>
      match structs !! id with
      | None => Ret true
      | Some o => (v <-! valid o ;; check_ids structs keys' (if v : bool then reload else true))%go
      end
  end.

Definition new_objects (keys : list string) : gmap string (object V) :=
  fold_left (fun m id => match New id with inl o => <[id := o]> m | inr _ => m end) keys ∅.

Definition set_ids (k : object (list string)) : gst CachedHash unit := gst_do (fun c => mkHash k (Structs c)).

Definition Refresh (now : Z) : gst CachedHash unit :=
  (k <-- gst_get (fun c => with_ns (ids c)) ;;
   set_ids k ;;;
   v <-- gst_lift (IsValid h control k) ;;
   let reload := negb v in
   let '(k', r) := fetch_keys now k in
   set_ids k' ;;;
   gst_lift r ;;;
   structs <-- gst_get Structs ;;
   reload <-- gst_lift (match structs with Some s => check_ids s (o_value k') reload | None => Ret true end) ;;
   if reload : bool then gst_do (fun c => mkHash (ids c) (Some (new_objects (o_value k')))) else gst_ret tt)%go.
End Caches.

(** ** The pool *)

(** A struct with the objects in it: an object, or the fields of a struct. *)
Inductive tree := Leaf (o : nat) | Fields (l : list tree).

Section Pool.
Context {V : Type} (zero : V) (h : host).
Context (service : Query -> list Z) (DecodeResponse : list Z -> option V) (DecodeElement : list Z -> option (option V)).
Context (control : string -> option Z) (now : Z).

(** The objects by their addresses; the structs in the order of iteration of
    their map, each with the address it was added with; the refreshables. *)
Record Pool := mkPool { objects : gmap nat (object V); structs : list (string * tree); refreshables : list nat }.

(** What the Refresh of a refreshable does to the objects. *)
Context (refresh : nat -> gst (gmap nat (object V)) unit).

Definition refresh_object (o : nat) : gst (gmap nat (object V)) unit :=
  fun s =>
    match s !! o with
    | None => (s, Ret tt)
    | Some x =>
        match FetchDecodeSocketCache zero h service DecodeResponse DecodeElement control now x with
        | (x', Ret _) => (<[o := x']> s, Ret tt)
        | (x', Panic msg) => (<[o := x']> s, Panic msg)
        end
    end.

Fixpoint refreshStruct (t : tree) : gst (gmap nat (object V)) unit :=
  match t with
  | Leaf o => refresh_object o
  | Fields l => (fix fields l := match l with [] => gst_ret tt | f :: l' => (refreshStruct f ;;; fields l')%go end) l
  end.

Fixpoint refreshStructs (l : list (string * tree)) : gst (gmap nat (object V)) unit :=
  match l with [] => gst_ret tt | (_, t) :: l' => (refreshStruct t ;;; refreshStructs l')%go end.

Fixpoint refreshRefreshables (l : list nat) : gst (gmap nat (object V)) unit :=
  match l with [] => gst_ret tt | r :: l' => (refresh r ;;; refreshRefreshables l')%go end.

(** A computation on the objects as one on the pool. *)
Definition on_objects {A : Type} (c : gst (gmap nat (object V)) A) : gst Pool A :=
  fun p => let '(s, r) := c (objects p) in (mkPool s (structs p) (refreshables p), r).

(** [locked]: whether the write lock was taken before its timeout. *)
Definition AddRefreshable (locked : bool) (r : nat) : gst Pool unit :=
  if locked then
    (gst_do (fun p => mkPool (objects p) (structs p) (app (refreshables p) [r])) ;;;
     on_objects (refresh r))%go
  else gst_ret tt.

Definition AddStruct (locked : bool) (addr : string) (s : tree) : gst Pool unit :=
  if locked then
    (gst_do (fun p => mkPool (objects p) (app (List.filter (fun kv => negb (bool_decide (kv.1 = addr))) (structs p)) [(addr, s)]) (refreshables p)) ;;;
     on_objects (refreshStruct s))%go
  else gst_ret tt.

Definition Pool_Refresh (locked : bool) : gst Pool bool :=
  if locked then
    (l <-- gst_get structs ;;
     on_objects (refreshStructs l) ;;;
     rs <-- gst_get refreshables ;;
     on_objects (refreshRefreshables rs) ;;;
     gst_ret true)%go
  else gst_ret false.
End Pool.

(** ** Theorems *)

(** *** Replies *)

(** The four bytes of a length in little endian. *)
Definition frame (r : list Z) : list Z :=
  let n := Z.of_nat (length r) in
  app [n `mod` 256; (n / 2 ^ 8) `mod` 256; (n / 2 ^ 16) `mod` 256; (n / 2 ^ 24) `mod` 256] r.

Lemma declared_frame r k : Z.of_nat (length r) < 2 ^ 32 -> declared_length (take (4 + k) (frame r)) = Z.of_nat (length r).
Proof.
  intros Hr. unfold frame, declared_length. cbn [app take Nat.add]. set (n := Z.of_nat (length r)) in *.
  change (2 ^ 32) with 4294967296 in Hr. change (2 ^ 8) with 256. change (2 ^ 16) with 65536. change (2 ^ 24) with 16777216.
  assert (0 <= n) by lia.
  pose proof (Z.div_mod n 256 ltac:(lia)). pose proof (Z.div_mod (n / 256) 256 ltac:(lia)). pose proof (Z.div_mod (n / 65536) 256 ltac:(lia)).
  assert (n / 256 / 256 = n / 65536) by (rewrite Z.div_div by lia; done).
  assert (n / 65536 / 256 = n / 16777216) by (rewrite Z.div_div by lia; done).
  assert (0 <= n / 16777216 < 256) by (split; [apply Z.div_pos; lia|apply Z.div_lt_upper_bound; lia]).
  rewrite (Z.mod_small (n / 16777216)) by lia. lia.
Qed.

(** A reply is returned as it was sent; of one that breaks off after its
    length, however early, the missing bytes are taken as zeros: the test that
    compares the length of the response with the declared one never fails. *)
Theorem truncated_reply_is_padded r k : Z.of_nat (length r) < 2 ^ 32 ->
  FetchSocket (take (4 + k) (frame r)) = Ret (app (take k r) (replicate (length r - k) 0)).
Proof.
  intros Hr. unfold FetchSocket. rewrite declared_frame by done. rewrite Nat2Z.id.
  change (drop 4 (take (4 + k) (frame r))) with (take k r). rewrite decide_False by (rewrite length_resize; tauto).
  f_equal. destruct (decide (length r <= k)%nat) as [Hk|Hk].
  - rewrite take_ge by done. replace (length r - k)%nat with 0%nat by lia. cbn. rewrite app_nil_r. apply resize_all.
  - rewrite resize_ge by (rewrite length_take; lia). do 2 f_equal. rewrite length_take. lia.
Qed.

Lemma truncated_reply_is_padded_witness : FetchSocket [3; 0; 0; 0; 65] = Ret [65; 0; 0].
Proof. apply (truncated_reply_is_padded [65; 66; 67] 1). cbn. lia. Defined.

(** *** Queries *)

Lemma transfer_same f f' : transfer f = Ret f' -> metadataFromField f' = metadataFromField f.
Proof.
  destruct f as [|user tag]; cbn; [by intros [= <-]|]. case_decide as Hu; cbn.
  - intros [= <-]. cbn. by rewrite decide_True.
  - case_decide as Ht; cbn; [|done]. intros [= <-]. cbn. repeat case_decide; congruence.
Qed.

(** The query of an object does not change when its metadata are transferred. *)
Lemma transferred_query h m m' : transferMetadata m = Ret m' -> createQuery h m' = createQuery h m.
Proof.
  destruct m as [a b c d e f g]. unfold transferMetadata. cbn.
  destruct (transfer a) as [a'|] eqn:Ea; [|done]; cbn. destruct (transfer b) as [b'|] eqn:Eb; [|done]; cbn.
  destruct (transfer c) as [c'|] eqn:Ec; [|done]; cbn. destruct (transfer d) as [d'|] eqn:Ed; [|done]; cbn.
  destruct (transfer e) as [e'|] eqn:Ee; [|done]; cbn. destruct (transfer f) as [f'|] eqn:Ef; [|done]; cbn.
  destruct (transfer g) as [g'|] eqn:Eg; [|done]; cbn. intros [= <-]. unfold createQuery. cbn.
  apply transfer_same in Ea, Eb, Ec, Ed, Ee. by rewrite Ea, Eb, Ec, Ed, Ee.
Qed.

Lemma HasSuffix_end s c : HasSuffix (s +:+ String c EmptyString) (String c EmptyString) = true.
Proof.
  unfold HasSuffix. rewrite str_length_app. cbn [String.length]. rewrite Nat.add_sub, drop_str_app.
  rewrite !bool_decide_eq_true_2 by (done || lia). done.
Qed.

Lemma normalized s : HasSuffix (normalizeNamespace s) ")" = true.
Proof.
  unfold normalizeNamespace. destruct (HasSuffix s ")") eqn:E; [done|]. change (s +:+ "()") with (s +:+ ("(" +:+ ")")).
  rewrite <- str_app_assoc. apply HasSuffix_end.
Qed.

(** Every query is for a namespace with parentheses, the one its control
    file is named after; only a query for an element of a hash has a key after
    it. *)
Theorem queries_are_normalized h m q : createQuery h m = Ret q ->
  HasSuffix (basens q) ")" = true /\ encoding q = "json" /\
  (if decide (method q = "hash_element") then exists key, ns q = basens q +:+ ";" +:+ key else ns q = basens q).
Proof.
  unfold createQuery. destruct (metadataFromField (PfconfigNS m)) as [base|]; [|done]; cbn.
  destruct (metadataFromField (PfconfigHostnameOverlay m)) as [overlay|]; [|done]; cbn.
  set (base1 := if _ && _ then _ else base). set (cl := if ClusterEnabled h then _ else _).
  destruct cl as [base2|]; [|done]; cbn. destruct (metadataFromField (PfconfigMethod m)) as [m_|]; [|done]; cbn.
  case_decide as Hm; [destruct (metadataFromField (PfconfigHashNS m)) as [key|]; [|done]|]; cbn; intros [= <-]; cbn.
  - rewrite decide_True by done. split_and!; [apply normalized|done|by exists key].
  - rewrite decide_False by done. split_and!; [apply normalized|done|done].
Qed.

Definition demo_meta : metadata :=
  mkMeta (Present EmptyString "config::Pf") (Present EmptyString "hash_element") (Present EmptyString "general") (Present EmptyString "no")
    (Present EmptyString "yes") Absent Absent.

Lemma queries_are_normalized_witness : HasSuffix "config::Pf(main)" ")" = true.
Proof.
  apply (queries_are_normalized (mkHost "pf1" true "main") demo_meta (mkQuery "json" "hash_element" "config::Pf(main);general" "config::Pf(main)")).
  vm_compute. reflexivity.
Defined.

(** *** Objects *)

Section ObjectFacts.
Context {V : Type} (zero : V) (h : host).
Context (service : Query -> list Z) (DecodeResponse : list Z -> option V) (DecodeElement : list Z -> option (option V)).

Abbreviation fetch := (FetchDecodeSocket zero h service DecodeResponse DecodeElement).

(** What a fetch that returns has done. *)
Lemma fetch_inv now o o' err : fetch now o = (o', Ret err) ->
  exists m q response, transferMetadata (o_meta o) = Ret m /\ createQuery h (o_meta o) = Ret q /\ FetchSocket (service q) = Ret response /\
  match err with
  | None => exists v, decode DecodeResponse DecodeElement m q response = Ret (Some v) /\ o' = mkObject m v (Some now)
  | Some _ => decode DecodeResponse DecodeElement m q response = Ret None /\ o' = mkObject m zero None
  end.
Proof.
  unfold FetchDecodeSocket, gst_bind, gst_get, gst_lift, gst_do, gst_ret.
  destruct (transferMetadata (o_meta o)) as [m|] eqn:Em; [|done]. rewrite (transferred_query h _ _ Em).
  destruct (createQuery h (o_meta o)) as [q|] eqn:Eq; [|done]. destruct (FetchSocket (service q)) as [r|] eqn:Er; [|done].
  destruct (decode DecodeResponse DecodeElement m q r) as [[v|]|] eqn:Ed; [| |done]; intros [= <- <-]; exists m, q, r; split_and!; eauto.
Qed.

(** A reply without an element is an error that leaves the object empty
    and never loaded: what it held before is lost. *)
Theorem failed_fetch_empties_object now o o' err : fetch now o = (o', Ret (Some err)) -> o_value o' = zero /\ o_LoadedAt o' = None.
Proof. intros (m & q & r & _ & _ & _ & _ & ->)%fetch_inv. done. Qed.
End ObjectFacts.

(** *** Validity *)

Lemma HasSuffix_cons c s x : HasSuffix s (String x EmptyString) = true -> HasSuffix (String c s) (String x EmptyString) = true.
Proof.
  unfold HasSuffix. rewrite !andb_true_iff, !bool_decide_eq_true. cbn [String.length]. intros [Hl Hs]. split; [lia|].
  destruct (String.length s) as [|n] eqn:E; [lia|]. by replace (S (S n) - 1)%nat with (S n) by lia; replace (S n - 1)%nat with n in Hs by lia.
Qed.

Lemma overlay_suffix s : has_overlay s = true -> HasSuffix s ")" = true.
Proof.
  induction s as [|c s IH]; [done|]. cbn [has_overlay]. rewrite orb_true_iff, !andb_true_iff.
  intros [[[_ H] _]|H]; apply HasSuffix_cons; auto.
Qed.

Lemma fetch_frame r : Z.of_nat (length r) < 2 ^ 32 -> FetchSocket (frame r) = Ret r.
Proof.
  intros Hr. pose proof (truncated_reply_is_padded r (length r) Hr) as H.
  replace (take (4 + length r) (frame r)) with (frame r) in H by (unfold frame; by rewrite take_ge by (rewrite length_app; cbn; lia)).
  by rewrite H, take_ge, Nat.sub_diag, app_nil_r.
Qed.

Lemma transferred_decode m m' : transferMetadata m = Ret m' ->
  metadataFromField (PfconfigArray m') = metadataFromField (PfconfigArray m) /\
  metadataFromField (PfconfigDecodeInElement m') = metadataFromField (PfconfigDecodeInElement m).
Proof.
  unfold transferMetadata. intros H.
  repeat match type of H with go_bind ?c _ = _ => let E := fresh "E" in destruct c as [?|] eqn:E; [|done]; cbn [go_bind] in H; apply transfer_same in E end.
  by injection H as <-.
Qed.

(** The namespace that an object stands for: the one of its metadata, with the
    arguments that it has, or with the name of the host or of the cluster as its
    argument if the metadata say so. *)
Definition namespace_of (h : host) (base host_overlay cluster_overlay : string) : string :=
  if has_overlay base then base
  else
    let arg := if decide (host_overlay = "yes") then myHostname h
               else if ClusterEnabled h && bool_decide (cluster_overlay = "yes") then clusterName h else EmptyString in
    base +:+ "(" +:+ arg +:+ ")".

(** What the metadata of an object say: its namespace without arguments or with
    arguments in parentheses, the overlays, the method, the key in a hash, and
    whether the whole reply is the content. *)
Record describes (m : metadata) (base host_overlay cluster_overlay mth key : string) (whole : bool) : Prop := mkDescribes {
  d_base : metadataFromField (PfconfigNS m) = Ret base;
  d_host : metadataFromField (PfconfigHostnameOverlay m) = Ret host_overlay;
  d_cluster : metadataFromField (PfconfigClusterNameOverlay m) = Ret cluster_overlay;
  d_method : metadataFromField (PfconfigMethod m) = Ret mth;
  d_key : metadataFromField (PfconfigHashNS m) = Ret key;
  d_whole : exists array element, metadataFromField (PfconfigArray m) = Ret array /\ metadataFromField (PfconfigDecodeInElement m) = Ret element /\
    whole = bool_decide (mth = "keys" \/ array = "yes" \/ element = "yes");
  d_form : HasSuffix base ")" = true -> has_overlay base = true
}.

Definition key_of (mth key : string) : option string := if decide (mth = "hash_element") then Some key else None.

Lemma all_chars_app f x y : all_chars f (x +:+ y) = all_chars f x && all_chars f y.
Proof.
  induction x as [|c x IH]; [done|]. change (String c x +:+ y) with (String c (x +:+ y)). cbn [all_chars]. by rewrite IH, andb_assoc.
Qed.

Lemma has_overlay_app b x : all_chars any_char x = true -> has_overlay (b +:+ "(" +:+ x +:+ ")") = true.
Proof.
  intros Hx. induction b as [|c b IH]; [|change (has_overlay (String c (b +:+ "(" +:+ x +:+ ")")) = true); cbn [has_overlay]; rewrite IH; apply orb_true_r].
  change (has_overlay (String "(" (x +:+ ")")) = true). cbn [has_overlay].
  apply orb_true_iff. left. rewrite !andb_true_iff. split_and!; [done|apply HasSuffix_end|]. by rewrite all_chars_app, Hx.
Qed.

Lemma query_of h m base ho co mth key whole q : describes m base ho co mth key whole -> all_chars any_char (myHostname h) = true ->
  createQuery h m = Ret q ->
  q = mkQuery "json" mth (match key_of mth key with Some k => namespace_of h base ho co +:+ ";" +:+ k | None => namespace_of h base ho co end)
        (namespace_of h base ho co).
Proof.
  intros [Hb Hho Hco Hm Hk _ Hf] Hh. unfold createQuery. rewrite Hb, Hho, Hco, Hm, Hk. cbn [go_bind].
  set (base1 := if bool_decide (ho = "yes") && negb (has_overlay base) then _ else base).
  assert (Hn : forall base2, (if ClusterEnabled h
      then (if bool_decide (co = "yes") && negb (has_overlay base1)
            then if decide (clusterName h = EmptyString) then Panic "Can't determine cluster name for this host" else Ret (base1 +:+ "(" +:+ clusterName h +:+ ")")
            else Ret base1) else Ret base1) = Ret base2 -> normalizeNamespace base2 = namespace_of h base ho co).
  { intros base2. unfold namespace_of, normalizeNamespace. subst base1. destruct (has_overlay base) eqn:Eo.
    - rewrite andb_false_r, Eo, andb_false_r. assert (Hs : HasSuffix base ")" = true) by by apply overlay_suffix.
      destruct (ClusterEnabled h); intros [= <-]; by rewrite Hs.
    - assert (Hs : HasSuffix base ")" = false) by (apply not_true_is_false; intros E; by specialize (Hf E)).
      assert (Hend : forall x, HasSuffix (base +:+ "(" +:+ x +:+ ")") ")" = true).
      { intros x. rewrite <- !str_app_assoc. apply HasSuffix_end. }
      destruct (decide (ho = "yes")) as [E1|E1]; [rewrite (bool_decide_eq_true_2 (ho = "yes")) by done|rewrite (bool_decide_eq_false_2 (ho = "yes")) by done];
        cbn [negb andb].
      + rewrite has_overlay_app by done. rewrite andb_false_r. destruct (ClusterEnabled h); intros [= <-]; by rewrite Hend.
      + rewrite Eo, andb_true_r. destruct (ClusterEnabled h); cbn [andb]; [case_bool_decide; [case_decide; [done|]|]|]; intros [= <-];
          rewrite ?Hend, ?Hs; done. }
  match goal with |- go_bind ?c _ = _ -> _ => destruct c as [base2|] eqn:E2; [|done] end. cbn [go_bind]. rewrite (Hn _ eq_refl).
  unfold key_of. destruct (decide (mth = "hash_element")); intros Hq; by injection Hq as <-.
Qed.

Section History.
Context {V : Type} (zero : V) (h : host).
(** The configuration over time: the content of a namespace for a method and the
    key of an element, and the time of the control file of a namespace. *)
Context (content : Z -> string -> string -> option string -> list Z) (mtime : Z -> string -> option Z).
(** The control file of a namespace is touched when its content changes: if it is
    not newer than a time, the content is still the one of that time. *)
Hypothesis touched : forall b t t' c, t <= t' -> mtime t' b = Some c -> c <= t -> forall mth k, content t' b mth k = content t b mth k.

(** The service gets the payload of a query and sends the content it asks for with
    its length, which fits in four bytes. *)
Context (answer : Z -> jv -> list Z) (DecodeResponse : list Z -> option V) (DecodeElement : list Z -> option (option V)).
Definition payload (mth key : string) : jv := JMap [("encoding", JStr "json"); ("method", JStr mth); ("key", JStr key)].
Hypothesis serves : forall t b mth, mth <> "hash_element" -> answer t (payload mth b) = frame (content t b mth None).
Hypothesis serves_element : forall t b k, no_char ";" b = true -> answer t (payload "hash_element" (b +:+ ";" +:+ k)) = frame (content t b "hash_element" (Some k)).
Hypothesis short : forall t b mth k, Z.of_nat (length (content t b mth k)) < 2 ^ 32.

(** The value of a content, which is the whole reply or the element in it. *)
Definition value_of (whole : bool) (r : list Z) : option V :=
  if whole then DecodeResponse r else match DecodeElement r with Some v => v | None => None end.

End History.

(** A namespace whose content changes at the time 5. *)
Definition demo_content (t : Z) : Z := if decide (t < 5) then 1 else 2.
Definition demo_mtime (t : Z) : option Z := Some (if decide (t < 5) then 0 else 5).
Definition demo_service (t : Z) (q : Query) : list Z := frame [demo_content t].
Definition demo_element (r : list Z) : option (option Z) := match r with [v] => Some (Some v) | _ => None end.
Definition demo_host : host := mkHost "pf1" true "main".
Definition demo_object : object Z := mkObject demo_meta 0 None.

(** The other namespaces hold 9 at all times. *)
Definition main_ns : string := "config::Pf(main)".
Definition all_content (t : Z) (b mth : string) (k : option string) : list Z := if decide (b = main_ns) then [demo_content t] else [9].
Definition all_mtime (t : Z) (b : string) : option Z := if decide (b = main_ns) then demo_mtime t else Some 0.
Definition ns_of_key (key : string) : string := match cut_at ";" key with Some (b, _) => b | None => key end.
Definition demo_answer (t : Z) (p : jv) : list Z :=
  match p with
  | JMap [(_, _); (_, JStr mth); (_, JStr key)] =>
      if decide (mth = "hash_element") then frame (all_content t (ns_of_key key) mth None) else frame (all_content t key mth None)
  | _ => []
  end.

Lemma demo_touched b t t' c : t <= t' -> all_mtime t' b = Some c -> c <= t -> forall mth k, all_content t' b mth k = all_content t b mth k.
Proof.
  unfold all_mtime, all_content, demo_mtime, demo_content. intros Ht H Hc mth k. destruct (decide (b = main_ns)); [|done].
  injection H as <-. repeat case_decide; done || lia.
Qed.

Lemma demo_serves t b mth : mth <> "hash_element" -> demo_answer t (payload mth b) = frame (all_content t b mth None).
Proof. intros Hm. unfold demo_answer, payload. by rewrite decide_False by done. Qed.

Lemma demo_serves_element t b k : no_char ";" b = true ->
  demo_answer t (payload "hash_element" (b +:+ ";" +:+ k)) = frame (all_content t b "hash_element" (Some k)).
Proof.
  intros Hb. unfold demo_answer, payload. rewrite decide_True by done. unfold ns_of_key.
  change (";" +:+ k) with (String ";" k). by rewrite (cut_at_app ";" b k Hb).
Qed.

Lemma demo_short t b mth k : Z.of_nat (length (all_content t b mth k)) < 2 ^ 32.
Proof. unfold all_content. case_decide; reflexivity. Qed.

Lemma demo_describes : describes demo_meta "config::Pf" "no" "yes" "hash_element" "general" false.
Proof. split; try reflexivity; [exists EmptyString, EmptyString; split_and!; reflexivity|discriminate]. Qed.

Definition demo_fetched : object Z :=
  (FetchDecodeSocket 0 demo_host (fun q => demo_answer 6 (GetPayload q)) (fun _ => None) demo_element 7 demo_object).1.


(** A change between the moment the service sends the content and the
    moment that is noted as the time of loading is missed for good: the object
    stays valid with the old content, whatever the time. *)
Theorem update_during_fetch_is_missed now : 6 <= now ->
  let o := (FetchDecodeSocket 0 demo_host (demo_service 4) (fun r => match r with [v] => Some v | _ => None end) demo_element 6 demo_object).1 in
  IsValid demo_host (fun _ => demo_mtime now) o = Ret true /\ o_value o <> demo_content now.
Proof.
  intros Hn o. assert (E : o = mkObject (o_meta o) 1 (Some 6)) by (vm_compute; reflexivity).
  assert (Hm : demo_mtime now = Some 5) by (unfold demo_mtime; by rewrite decide_False by lia). split.
  - rewrite E. unfold IsValid. replace (createQuery demo_host (o_meta (mkObject (o_meta o) 1 (Some 6)))) with
      (Ret (mkQuery "json" "hash_element" "config::Pf(main);general" "config::Pf(main)")) by (vm_compute; reflexivity).
    cbn [go_bind basens]. rewrite Hm. reflexivity.
  - rewrite E. cbn. unfold demo_content. rewrite decide_False by lia. discriminate.
Qed.

Lemma update_during_fetch_is_missed_witness :
  o_value (FetchDecodeSocket 0 demo_host (demo_service 4) (fun r => match r with [v] => Some v | _ => None end) demo_element 6 demo_object).1 <> demo_content 100.
Proof. apply (update_during_fetch_is_missed 100). lia. Defined.

Lemma failed_fetch_empties_object_witness :
  o_value (FetchDecodeSocket 0 demo_host (fun _ => [0; 0; 0; 0]) (fun _ => None) (fun _ => Some None) 6 (mkObject demo_meta 17 (Some 1))).1 = 0.
Proof.
  apply (failed_fetch_empties_object 0 demo_host (fun _ => [0; 0; 0; 0]) (fun _ => None) (fun _ => Some None) 6 (mkObject demo_meta 17 (Some 1)) _
    "Element in response was invalid."). vm_compute. reflexivity.
Defined.

(** *** Cached values and hashes *)

Section CacheFacts.
Context {V : Type} (zero : V) (h : host).
Context (service : Query -> list Z) (DecodeResponse : list Z -> option V) (DecodeElement : list Z -> option (option V)).
Context (control : string -> option Z) (newType : object V).

(** A cached value without an error is one that is valid or has just been
    loaded, and it is stored; with an error the value stored before, if there is
    one, is returned and stays. *)
Theorem cached_value_is_fresh_or_kept now st st' r e :
  Value zero h service DecodeResponse DecodeElement control newType now st = (st', Ret (r, e)) ->
  match e with
  | None => exists o, r = Some o /\ st' = Some o /\ (st = Some o /\ IsValid h control o = Ret true \/ o_LoadedAt o = Some now)
  | Some _ => r = st /\ st' = st
  end.
Proof.
  unfold Value. destruct st as [o|]; [destruct (IsValid h control o) as [[]|] eqn:Ev; [| |done]|].
  - intros [= <- <- <-]. exists o. auto.
  - destruct (FetchDecodeSocket _ _ _ _ _ now newType) as [o' [[err|]|]] eqn:Ef; [| |done]; intros [= <- <- <-]; [done|].
    apply fetch_inv in Ef as (m & q & r & _ & _ & _ & v & _ & ->). eexists. split_and!; [done|done|by right].
  - destruct (FetchDecodeSocket _ _ _ _ _ now newType) as [o' [[err|]|]] eqn:Ef; [| |done]; intros [= <- <- <-]; [done|].
    apply fetch_inv in Ef as (m & q & r & _ & _ & _ & v & _ & ->). eexists. split_and!; [done|done|by right].
Qed.

Context (DecodeKeys : list Z -> option (list string)) (DecodeKeysElement : list Z -> option (option (list string))).
Context (New : string -> object V + string) (hash_ns : string).

Lemma new_objects_spec keys id o : new_objects New keys !! id = Some o <-> id ∈ keys /\ New id = inl o.
Proof.
  unfold new_objects. assert (H : forall m : gmap string (object V),
    fold_left (fun m id => match New id with inl o => <[id := o]> m | inr _ => m end) keys m !! id = Some o <->
    (id ∈ keys /\ New id = inl o) \/ (m !! id = Some o /\ (id ∈ keys -> New id = inl o \/ exists e, New id = inr e))).
  { induction keys as [|k keys IH]; intros m; cbn [fold_left]; [set_solver|]. rewrite IH. clear IH.
    destruct (New k) as [x|e] eqn:En; destruct (decide (k = id)) as [->|Hne];
      rewrite ?lookup_insert_eq, ?lookup_insert_ne by done; rewrite ?elem_of_cons, ?En; naive_solver. }
  rewrite H, lookup_empty. naive_solver.
Qed.

Lemma check_ids_false (s : gmap string (object V)) keys reload : check_ids h control s keys reload = Ret false ->
  reload = false /\ forall id, id ∈ keys -> exists o, s !! id = Some o /\ IsValid h control o = Ret true.
Proof.
  revert reload. induction keys as [|k keys IH]; intros reload; cbn [check_ids].
  - intros [= ->]. split; [done|]. intros id Hid. by apply elem_of_nil in Hid.
  - destruct (s !! k) as [o|] eqn:Ek; [|done]. destruct (IsValid h control o) as [v|] eqn:Ev; [|done]. cbn. intros [Hr Hk]%IH.
    destruct v; [|done]. split; [done|]. intros id [->|Hid]%elem_of_cons; [by exists o|by apply Hk].
Qed.

(** After a refresh the hash has an object for each of its keys that could
    be built, and no other; or nothing had changed, and then it is as before and
    every key has a valid object. *)
Theorem refreshed_hash_follows_keys now c c' :
  Refresh h service control DecodeKeys DecodeKeysElement hash_ns New now c = (c', Ret tt) ->
  exists m, Structs c' = Some m /\
  ((forall id o, m !! id = Some o <-> id ∈ o_value (ids c') /\ New id = inl o) \/
   (Structs c = Some m /\ IsValid h control (with_ns hash_ns (ids c)) = Ret true /\
    forall id, id ∈ o_value (ids c') -> exists o, m !! id = Some o /\ IsValid h control o = Ret true)).
Proof.
  unfold Refresh, gst_bind, gst_get, gst_lift, gst_do, gst_ret, set_ids. set (k := with_ns hash_ns (ids c)).
  destruct (IsValid h control k) as [v|] eqn:Ev; [|done].
  destruct (FetchDecodeSocketCache _ _ _ _ _ _ now k) as [k' [r|]]; [|done]. cbn.
  destruct (Structs c) as [s|] eqn:Es.
  - destruct (check_ids h control s (o_value k') (negb v)) as [[]|] eqn:Ec; [| |done]; intros [= <-]; cbn.
    + eexists. split; [done|]. left. intros. apply new_objects_spec.
    + exists s. split; [done|]. right. apply check_ids_false in Ec as [Hv Hk]. destruct v; [|done]. done.
  - intros [= <-]. cbn. eexists. split; [done|]. left. intros. apply new_objects_spec.
Qed.
End CacheFacts.

(** *** The pool *)

(** The objects in a struct. *)
Fixpoint leaves (t : tree) : list nat :=
  match t with Leaf o => [o] | Fields l => concat (List.map leaves l) end.

Lemma tree_rect' (P : tree -> Prop) : (forall o, P (Leaf o)) -> (forall l, Forall P l -> P (Fields l)) -> forall t, P t.
Proof.
  intros HL HF. fix IH 1. intros [o|l]; [apply HL|]. apply HF. induction l as [|t l IHl]; constructor; [apply IH|apply IHl].
Qed.

Section PoolFacts.
Context {V : Type} (zero : V) (h : host).
Context (service : Query -> list Z) (DecodeResponse : list Z -> option V) (DecodeElement : list Z -> option (option V)).
Context (control : string -> option Z) (now : Z).
(** The control files exist and are not in the future. *)
Hypothesis touched_before : forall ns, exists c, control ns = Some c /\ c <= now.

(** An object that is valid, or whose last fetch failed. *)
Definition up_to_date (x : object V) : Prop := IsValid h control x = Ret true \/ o_LoadedAt x = None.

Lemma cache_up_to_date x x' r : FetchDecodeSocketCache zero h service DecodeResponse DecodeElement control now x = (x', Ret r) -> up_to_date x'.
Proof.
  unfold FetchDecodeSocketCache, gst_bind, gst_get, gst_lift, gst_ret. destruct (IsValid h control x) as [[]|] eqn:Ev; [| |done].
  - intros [= <- _]. by left.
  - destruct (FetchDecodeSocket _ _ _ _ _ now x) as [x1 [err|]] eqn:Ef; [|done]. intros [= <- _].
    apply fetch_inv in Ef as (m & q & resp & Hm & Hq & _ & He). destruct err as [e|]; [destruct He as [_ ->]; by right|].
    destruct He as (v & _ & ->). left. unfold IsValid. cbn. rewrite (transferred_query h _ _ Hm), Hq. cbn.
    destruct (touched_before (basens q)) as (c & -> & Hc). by rewrite bool_decide_eq_false_2 by lia.
Qed.

Definition good (o : nat) (s : gmap nat (object V)) : Prop := forall x, s !! o = Some x -> up_to_date x.

Abbreviation refresh_obj := (refresh_object zero h service DecodeResponse DecodeElement control now).
Abbreviation refresh_tree := (refreshStruct zero h service DecodeResponse DecodeElement control now).

Lemma refresh_object_good o s s' : refresh_obj o s = (s', Ret tt) -> forall o', good o' s \/ o' = o -> good o' s'.
Proof.
  unfold refresh_object. destruct (s !! o) as [x|] eqn:Eo.
  - destruct (FetchDecodeSocketCache _ _ _ _ _ _ now x) as [x' [r|]] eqn:Ef; [|done]. intros [= <-] o' Ho' y.
    destruct (decide (o' = o)) as [->|Hne]; [rewrite lookup_insert_eq; intros [= <-]; by eapply cache_up_to_date|].
    rewrite lookup_insert_ne by done. destruct Ho' as [H|?]; [apply H|done].
  - intros [= <-] o' [H| ->]; [exact H|]. intros y Hy. congruence.
Qed.

Lemma refresh_tree_good t : forall s s', refresh_tree t s = (s', Ret tt) -> forall o, good o s \/ o ∈ leaves t -> good o s'.
Proof.
  induction t as [o|l IH] using tree_rect'; intros s s' Hs o' Ho'.
  - apply (refresh_object_good o s s' Hs). destruct Ho' as [H|H%list_elem_of_singleton]; auto.
  - cbn [refreshStruct] in Hs. cbn [leaves] in Ho'. revert s Hs Ho'. induction IH as [|t l Ht _ IHl]; intros s Hs Ho'.
    + injection Hs as <-. destruct Ho' as [H|H]; [done|by apply elem_of_nil in H].
    + unfold gst_bind in Hs. destruct (refresh_tree t s) as [s1 [[]|]] eqn:E1; [|done]. eapply (IHl s1); [exact Hs|].
      cbn [List.map concat] in Ho'. rewrite elem_of_app in Ho'. destruct Ho' as [H|[H|H]]; [left; by eapply Ht; eauto|left; by eapply Ht; eauto|by right].
Qed.

Lemma refresh_trees_good l : forall s s', refreshStructs zero h service DecodeResponse DecodeElement control now l s = (s', Ret tt) ->
  forall o, good o s \/ (exists a t, (a, t) ∈ l /\ o ∈ leaves t) -> good o s'.
Proof.
  induction l as [|[a t] l IH]; intros s s' Hs o Ho; cbn [refreshStructs] in Hs.
  - injection Hs as <-. destruct Ho as [H|(a & t & H & _)]; [done|by apply elem_of_nil in H].
  - unfold gst_bind in Hs. destruct (refresh_tree t s) as [s1 [[]|]] eqn:E1; [|done]. eapply IH; [exact Hs|].
    destruct Ho as [H|(a' & t' & [[= -> ->]|H]%elem_of_cons & Ho)]; [left; by eapply refresh_tree_good; eauto..|right; by exists a', t'].
Qed.

(** After a refresh of the pool that got its lock, every object of its
    structs is valid or its fetch has failed, as long as what the refreshables do
    does not spoil an object. *)
Theorem refreshed_pool_is_up_to_date refresh p p' :
  (forall r s s', refresh r s = (s', Ret tt) -> forall o, good o s -> good o s') ->
  Pool_Refresh zero h service DecodeResponse DecodeElement control now refresh true p = (p', Ret true) ->
  forall a t o x, (a, t) ∈ structs p -> o ∈ leaves t -> objects p' !! o = Some x -> up_to_date x.
Proof.
  intros Hr. unfold Pool_Refresh, gst_bind, gst_get, gst_ret, on_objects.
  destruct (refreshStructs _ _ _ _ _ _ now (structs p) (objects p)) as [s1 [[]|]] eqn:E1; [|done]. cbn.
  destruct (refreshRefreshables refresh (refreshables p) s1) as [s2 [[]|]] eqn:E2; [|done]. intros [= <-] a t o x Hin Ho. cbn.
  assert (Hg : good o s1) by (eapply refresh_trees_good; [exact E1|right; by exists a, t]). clear E1.
  enough (good o s2) as H by exact (H x). revert s1 E2 Hg. induction (refreshables p) as [|r rs IH]; intros s1 E2 Hg; cbn [refreshRefreshables] in E2.
  - by injection E2 as <-.
  - unfold gst_bind in E2. destruct (refresh r s1) as [s3 [[]|]] eqn:E3; [|done]. eapply IH; [exact E2|]. by eapply Hr.
Qed.
End PoolFacts.

(** What is added while the lock cannot be taken in time is not added. *)
Lemma add_without_lock_is_lost {V} (zero : V) h service DR DE control now refresh p r addr t :
  AddRefreshable (V := V) refresh false r p = (p, Ret tt) /\ AddStruct zero h service DR DE control now false addr t p = (p, Ret tt).
Proof. done. Qed.

Lemma demo_touched_before ns : exists c, (fun _ : string => Some 3) ns = Some c /\ c <= 7.
Proof. exists 3. split; [done|lia]. Qed.

Definition demo_pool : Pool (V := Z) := mkPool {[0%nat := demo_object]} [("0xc000", Fields [Fields []; Leaf 0])] [].

Lemma refreshed_pool_is_up_to_date_witness :
  up_to_date demo_host (fun _ => Some 3) (mkObject (o_meta (FetchDecodeSocket 0 demo_host (demo_service 6) (fun _ => None) demo_element 7 demo_object).1) 2 (Some 7)).
Proof.
  eapply (refreshed_pool_is_up_to_date 0 demo_host (demo_service 6) (fun _ => None) demo_element (fun _ => Some 3) 7 demo_touched_before
    (fun _ s => (s, Ret tt)) demo_pool _ ltac:(by intros r s s' [= <-] o H) eq_refl "0xc000" (Fields [Fields []; Leaf 0]) 0%nat).
  - by apply list_elem_of_In; left.
  - by apply list_elem_of_In; left.
  - vm_compute. reflexivity.
Defined.

Lemma cached_value_is_fresh_or_kept_witness : exists o, Some o = Some (mkObject demo_meta 5 (Some 4)) /\
  (Some (mkObject demo_meta 5 (Some 4)) = Some o /\ IsValid demo_host (fun _ => Some 3) o = Ret true \/ o_LoadedAt o = Some 9).
Proof.
  destruct (cached_value_is_fresh_or_kept 0 demo_host (demo_service 6) (fun _ => None) demo_element (fun _ => Some 3) demo_object 9
    (Some (mkObject demo_meta 5 (Some 4))) (Some (mkObject demo_meta 5 (Some 4))) (Some (mkObject demo_meta 5 (Some 4))) None)
    as (o & Ho & _ & H); [vm_compute; reflexivity|]. exists o. split; [by symmetry|exact H].
Defined.

(** A hash that is read for the first time. *)
Definition demo_keys : object (list string) :=
  mkObject (mkMeta (Present EmptyString "-") (Present EmptyString "keys") Absent (Present EmptyString "no") (Present EmptyString "no") Absent Absent) [] None.

Lemma refreshed_hash_follows_keys_witness : exists m : gmap string (object Z),
  Some {["a" := demo_object]} = Some m /\
  ((forall id o, m !! id = Some o <-> id ∈ ["a"; "b"] /\ (if decide (id = "a") then inl demo_object else inr "no") = inl o) \/
   (None = Some m /\ IsValid demo_host (fun _ => None) (with_ns "config::Domain" demo_keys) = Ret true /\
    forall id, id ∈ ["a"; "b"] -> exists o, m !! id = Some o /\ IsValid demo_host (fun _ => None) o = Ret true)).
Proof.
  destruct (refreshed_hash_follows_keys (V := Z) demo_host (fun _ => [0; 0; 0; 0]) (fun _ => None) (fun _ => Some ["a"; "b"]) (fun _ => None)
    (fun id => if decide (id = "a") then inl demo_object else inr "no") "config::Domain" 9 (mkHash demo_keys None)
    (mkHash (mkObject (mkMeta (Present "config::Domain" "-") (Present "keys" "keys") Absent (Present "no" "no") (Present "no" "no") Absent Absent) ["a"; "b"] (Some 9))
       (Some {["a" := demo_object]}))) as (m & Hm & H); [vm_compute; reflexivity|]. exists m. split; [exact Hm|exact H].
Defined.
