(* ===== verification/WebApi.v ===== *)
(** Services of the web server (src/go/caddy): the search for RADIUS attributes
    (api/query.go, radius_attributes.go), the sessions of the log tailer and what
    it reads off a log line (log-tailer), the status of jobs (job-status), the
    limit of concurrent requests (requestlimit), and the arrays of the database
    (src/go/db/csv_array.go). *)
From S2P Require Import Prelude NetIP Regex.
From Stdlib Require Import ZArith Lia Ascii.
From stdpp Require Import base gmap strings list relations.

Open Scope Z_scope.
Open Scope string_scope.

(** ** The search for RADIUS attributes *)

Module RadiusSearch.

Inductive Query := mkQ (Field Op Value : string) (Values : list Query).

Record RadiusAttribute := mkAttr {
  Name : string; AllowedValues : list (string * Z); PlaceHolder : string; Vendor : string;
  searchName : string; searchVendor : string
}.

Record ApiError := mkApiError { Message : string; ErrField : string; Status : Z }.

Definition NewApiError (status : Z) (message : string) : ApiError := mkApiError message EmptyString status.
Definition NewFieldError (status : Z) (field message : string) : ApiError := mkApiError message field status.

Abbreviation attr_filter := (RadiusAttribute -> bool).

Definition radisAttributesFilterTrue : attr_filter := fun _ => true.

(** strings.Contains *)
Definition contains (s sub : string) : bool := match before_str sub s with Some _ => true | None => false end.

(** A test of the name or of the vendor. *)
Definition by_field (field : string) (test : string -> bool) : attr_filter + ApiError :=
  if decide (field = "name") then inl (fun ra => test (searchName ra))
  else if decide (field = "vendor") then inl (fun ra => test (searchVendor ra))
  else inr (NewFieldError 422 field ("unknown field " +:+ field)).

Section Search.
Context (ToLower : string -> string).

(** The filters of a list of queries, up to the first error. *)
Definition collect (make : Query -> go (attr_filter + ApiError)) : list Query -> go (list attr_filter + ApiError) :=
  fix go_on l :=
    match l with
    | [] => Ret (inl [])
    | sq :: l' =>
        (f <-! make sq ;;
         match f with
         | inr err => Ret (inr err)
         | inl f => (fs <-! go_on l' ;; Ret (match fs with inl fs => inl (f :: fs) | inr err => inr err end))
         end)%go
    end.

Fixpoint make_filter (q : Query) : go (attr_filter + ApiError) :=
  match q with
  | mkQ field op value0 values =>
      let value := ToLower value0 in
      if decide (op = "contains") then Ret (by_field field (fun s => contains s value))
      else if decide (op = "equals") then Ret (by_field field (fun s => bool_decide (s = value)))
      else if decide (op = "not_equals") then Ret (by_field field (fun s => bool_decide (s <> value)))
      else if decide (op = "starts_with") then Ret (by_field field (fun s => HasPrefix s value))
      else if decide (op = "ends_with") then Ret (by_field field (fun s => HasSuffix s value))
      else if decide (op = "not") then
        match values with
        | [] => Panic index_panic
        | v :: _ => (f <-! make_filter v ;; Ret (match f with inl f => inl (fun ra => negb (f ra)) | inr err => inr err end))%go
        end
      else if decide (op = "or") then
        (fs <-! collect make_filter values ;;
         Ret (match fs with inl fs => inl (fun ra => existsb (fun f => f ra) fs) | inr err => inr err end))%go
      else if decide (op = "and") then
        (fs <-! collect make_filter values ;;
         Ret (match fs with inl fs => inl (fun ra => forallb (fun f => f ra) fs) | inr err => inr err end))%go
      else if decide (op = "true") then Ret (inl radisAttributesFilterTrue)
      else Ret (inr (NewApiError 422 ("op " +:+ op +:+ " is invalid")))
  end.

(** makeRadiusAttributeFilter; [None] is a nil query. *)
Definition makeRadiusAttributeFilter (q : option Query) : go (attr_filter + ApiError) :=
  match q with None => Ret (inl radisAttributesFilterTrue) | Some q => make_filter q end.

Definition radisAttributesFilter (items : list RadiusAttribute) (f : attr_filter) : list RadiusAttribute := List.filter f items.

(** searchRadiusAttributes from the decoded query: the attributes and the error of
    an answer; without an error its status is 200. *)
Definition searchRadiusAttributes (radiusAttributes : list RadiusAttribute) (q : option Query) : go (list RadiusAttribute * ApiError) :=
  (f <-! makeRadiusAttributeFilter q ;;
   Ret (match f with
        | inl f => (radisAttributesFilter radiusAttributes f, mkApiError EmptyString EmptyString 200)
        | inr err => ([], err)
        end))%go.

(** The whole handler.  [Unmarshal] is what json.Unmarshal leaves in the pointer to
    the request, [None] for the body null, and its error, which is not looked at. *)
Definition search_handler (Unmarshal : string -> option (option Query) * error) (radiusAttributes : list RadiusAttribute) (body : string) :
    go (list RadiusAttribute * ApiError) :=
  match (Unmarshal body).1 with
  | None => Panic "runtime error: invalid memory address or nil pointer dereference"
  | Some q => searchRadiusAttributes radiusAttributes q
  end.

(** appendRadiusAttributes: the attributes of a dictionary with their values. *)
Definition appendRadiusAttributes (placeHolders : string -> string) (items : list RadiusAttribute)
  (attributes : list string) (values : list (string * (string * Z))) (vendor : string) : list RadiusAttribute :=
  app items ((fun a => mkAttr a (snd <$> List.filter (fun v : string * (string * Z) => bool_decide (v.1 = a)) values) (placeHolders a) vendor
                         (ToLower a) (ToLower vendor)) <$> attributes).

(** *** What a query means *)

Fixpoint wf (q : Query) : bool :=
  match q with
  | mkQ field op _ values =>
      if decide (op ∈ ["contains"; "equals"; "not_equals"; "starts_with"; "ends_with"]) then bool_decide (field = "name" \/ field = "vendor")
      else if decide (op = "not") then match values with [] => false | v :: _ => wf v end
      else if decide (op = "or" \/ op = "and") then forallb wf values
      else bool_decide (op = "true")
  end.

Definition field_of (field : string) (ra : RadiusAttribute) : string :=
  if decide (field = "name") then searchName ra else searchVendor ra.

Fixpoint means (q : Query) (ra : RadiusAttribute) : bool :=
  match q with
  | mkQ field op value values =>
      let s := field_of field ra in let v := ToLower value in
      if decide (op = "contains") then contains s v
      else if decide (op = "equals") then bool_decide (s = v)
      else if decide (op = "not_equals") then negb (bool_decide (s = v))
      else if decide (op = "starts_with") then HasPrefix s v
      else if decide (op = "ends_with") then HasSuffix s v
      else if decide (op = "not") then match values with [] => false | w :: _ => negb (means w ra) end
      else if decide (op = "or") then existsb (fun w => means w ra) values
      else if decide (op = "and") then forallb (fun w => means w ra) values
      else true
  end.

Lemma Query_rect' (P : Query -> Prop) : (forall f o v l, Forall P l -> P (mkQ f o v l)) -> forall q, P q.
Proof.
  intros H. fix IH 1. intros [f o v l]. apply H. induction l as [|q l IHl]; constructor; [apply IH|apply IHl].
Qed.

Abbreviation implements := (fun (f : attr_filter) q => forall ra, f ra = means q ra).

(** A query that is well formed gives a filter with its meaning, any other one
    gives none. *)
Definition exact (q : Query) : Prop :=
  if wf q then exists f, make_filter q = Ret (inl f) /\ implements f q else forall f, make_filter q <> Ret (inl f).

Lemma collect_exact l : Forall exact l ->
  if forallb wf l then exists fs, collect make_filter l = Ret (inl fs) /\ Forall2 implements fs l
  else forall fs, collect make_filter l <> Ret (inl fs).
Proof.
  induction 1 as [|q l Hq _ IH]; cbn [forallb collect]; [by exists []|]. unfold exact in Hq. destruct (wf q); cbn [andb].
  - destruct Hq as (f & -> & Hf). cbn. destruct (forallb wf l).
    + destruct IH as (fs & -> & Hfs). cbn. exists (f :: fs). by split; [|constructor].
    + destruct (collect make_filter l) as [[fs|e]|]; cbn; [by destruct (IH fs)|done|done].
  - intros fs. destruct (make_filter q) as [[f|e]|]; cbn; [by destruct (Hq f)|done|done].
Qed.

Lemma by_field_exact field test (spec : string -> bool) : (forall s, test s = spec s) ->
  if bool_decide (field = "name" \/ field = "vendor") then exists f, Ret (by_field field test) = Ret (inl f) /\ forall ra, f ra = spec (field_of field ra)
  else forall f, Ret (by_field field test) <> Ret (inl f).
Proof.
  intros Hs. unfold by_field, field_of. case_bool_decide as H.
  - destruct (decide (field = "name")) as [->|Hn]; [eexists; split; [done|]; intros; apply Hs|].
    destruct H as [?| ->]; [done|]. rewrite decide_True by done. eexists; split; [done|]; intros; apply Hs.
  - rewrite !decide_False by tauto. done.
Qed.

Lemma existsb_implements fs l ra : Forall2 implements fs l -> existsb (fun f => f ra) fs = existsb (fun q => means q ra) l.
Proof. induction 1 as [|f q fs l Hf _ IH]; [done|]. cbn. by rewrite Hf, IH. Qed.

Lemma forallb_implements fs l ra : Forall2 implements fs l -> forallb (fun f => f ra) fs = forallb (fun q => means q ra) l.
Proof. induction 1 as [|f q fs l Hf _ IH]; [done|]. cbn. by rewrite Hf, IH. Qed.

Lemma make_filter_exact q : exact q.
Proof.
  induction q as [field op value l IH] using Query_rect'. unfold exact. cbn [wf make_filter means]. cbv zeta.
  destruct (decide (op ∈ ["contains"; "equals"; "not_equals"; "starts_with"; "ends_with"])) as [Hin|Hin].
  - repeat (apply elem_of_cons in Hin as [->|Hin]; [|]); [..|by apply elem_of_nil in Hin];
      repeat first [rewrite decide_True by done | rewrite decide_False by done].
    + apply (by_field_exact field _ (fun s => contains s (ToLower value))); done.
    + exact (by_field_exact field _ (fun s : string => bool_decide (s = ToLower value)) (fun _ => eq_refl)).
    + exact (by_field_exact field _ (fun s : string => negb (bool_decide (s = ToLower value))) (fun s => bool_decide_not _)).
    + apply (by_field_exact field _ (fun s => HasPrefix s (ToLower value))); done.
    + apply (by_field_exact field _ (fun s => HasSuffix s (ToLower value))); done.
  - rewrite !not_elem_of_cons in Hin. destruct Hin as (H1 & H2 & H3 & H4 & H5 & _).
    rewrite (decide_False (P := op = "contains")), (decide_False (P := op = "equals")), (decide_False (P := op = "not_equals")),
      (decide_False (P := op = "starts_with")), (decide_False (P := op = "ends_with")) by done.
    clear H1 H2 H3 H4 H5. destruct (decide (op = "not")) as [->|Hn].
    { destruct l as [|w l]; [done|]. inversion_clear IH as [|? ? Hw _]. unfold exact in Hw. destruct (wf w).
      - destruct Hw as (f & -> & Hf). eexists. split; [done|]. intros ra. cbn. by rewrite Hf.
      - intros f. destruct (make_filter w) as [[g|e]|]; cbn; [by destruct (Hw g)|done|done]. }
    pose proof (collect_exact l IH) as Hc. destruct (decide (op = "or")) as [->|Ho]; [|destruct (decide (op = "and")) as [->|Ha]].
    + rewrite decide_True by auto. destruct (forallb wf l).
      * destruct Hc as (fs & -> & Hfs). eexists. split; [done|]. intros ra. by apply existsb_implements.
      * intros f. destruct (collect make_filter l) as [[fs|e]|]; cbn; [by destruct (Hc fs)|done|done].
    + rewrite decide_True by auto. destruct (forallb wf l).
      * destruct Hc as (fs & -> & Hfs). eexists. split; [done|]. intros ra. by apply forallb_implements.
      * intros f. destruct (collect make_filter l) as [[fs|e]|]; cbn; [by destruct (Hc fs)|done|done].
    + rewrite decide_False by tauto. case_bool_decide; [subst op; rewrite decide_True by done; exists radisAttributesFilterTrue; split; [reflexivity|intros ra; reflexivity]|by rewrite decide_False].
Qed.

(** C37.  A search with a well formed query returns exactly the attributes the
    query means; with any other query it returns no attribute, but an error or a
    panic. *)
Theorem search_finds_what_it_means attributes q :
  if wf q then searchRadiusAttributes attributes (Some q) = Ret (List.filter (means q) attributes, mkApiError EmptyString EmptyString 200)
  else forall l e, searchRadiusAttributes attributes (Some q) = Ret (l, e) -> l = [].
Proof.
  unfold searchRadiusAttributes. cbn [makeRadiusAttributeFilter]. pose proof (make_filter_exact q) as H. unfold exact in H. destruct (wf q).
  - destruct H as (f & -> & Hf). cbn. do 2 f_equal. apply List.filter_ext. exact Hf.
  - intros l e. destruct (make_filter q) as [[f|err]|]; cbn; [by destruct (H f)|by intros [= <- <-]|done].
Qed.

(** A body that is not JSON leaves the query nil: all attributes are returned with
    the status 200. *)
Lemma bad_body_returns_everything Unmarshal attributes body e : Unmarshal body = (Some None, Some e) ->
  search_handler Unmarshal attributes body = Ret (attributes, mkApiError EmptyString EmptyString 200).
Proof.
  intros Hu. unfold search_handler. rewrite Hu. cbn. do 2 f_equal. unfold radisAttributesFilter, radisAttributesFilterTrue.
  induction attributes as [|a l IH]; [done|]. cbn. by rewrite IH.
Qed.

(** A negation of nothing panics. *)
Lemma empty_not_panics attributes field value : searchRadiusAttributes attributes (Some (mkQ field "not" value [])) = Panic index_panic.
Proof. reflexivity. Qed.
End Search.
End RadiusSearch.

(** ** The sessions of the log tailer *)

Module Tailer.

(** A session: the number of its files, the goroutines that follow them, the
    values in its channel, whose capacity is the number of files, and the last
    use. *)
Record TailingSession := mkSession { files : nat; running : nat; doneChan : nat; lastUsedAt : Z }.

Definition maxSessionIdleTime : Z := 5 * 60 * 10 ^ 9.

Definition Touch (now : Z) (ts : TailingSession) : TailingSession := mkSession (files ts) (running ts) (doneChan ts) now.

(** Start; [failed]: the file that cannot be followed, after which Stop fills
    the channel, which is empty and has room for it. *)
Definition Start (n : nat) (failed : option nat) (now : Z) : TailingSession :=
  match failed with
  | None => mkSession n n 0 now
  | Some k => mkSession n k n now
  end.

(** The handler: its sessions; what runs in the goroutines of a session outlives
    it, so its record stays when it is taken out of the map; and the holder of
    the write lock while it is in Stop, with the sends that are left. *)
Record state := mkState { records : gmap string TailingSession; sessions : gset string; stopping : option (string * nat) }.

Definition initial : state := mkState ∅ ∅ None.

Definition put (id : string) (ts : TailingSession) (s : state) : state := mkState (<[id := ts]> (records s)) (sessions s) (stopping s).

(** The writers (creation, deletion and the removal of idle sessions) hold the
    lock to their end; readers and goroutines run in between. *)
Inductive step : state -> state -> Prop :=
  | step_create s id n failed now :
      stopping s = None -> records s !! id = None -> (match failed with Some k => k < n | None => True end)%nat ->
      step s (mkState (<[id := Start n failed now]> (records s)) ({[id]} ∪ sessions s) None)
  | step_touch s id ts now :
      stopping s = None -> id ∈ sessions s -> records s !! id = Some ts -> step s (put id (Touch now ts) s)
  | step_delete s id ts :
      (* deleteSession *)
      stopping s = None -> id ∈ sessions s -> records s !! id = Some ts ->
      step s (mkState (records s) (sessions s) (Some (id, files ts)))
  | step_expire s id ts now :
      (* the maintenance, which runs every second *)
      stopping s = None -> id ∈ sessions s -> records s !! id = Some ts -> lastUsedAt ts < now - maxSessionIdleTime ->
      step s (mkState (records s) (sessions s) (Some (id, files ts)))
  | step_send s id ts m :
      (* a send of Stop, which waits while the channel is full *)
      stopping s = Some (id, S m) -> records s !! id = Some ts -> (doneChan ts < files ts)%nat ->
      step s (mkState (<[id := mkSession (files ts) (running ts) (S (doneChan ts)) (lastUsedAt ts)]> (records s)) (sessions s) (Some (id, m)))
  | step_deleted s id :
      stopping s = Some (id, 0%nat) -> step s (mkState (records s) (sessions s ∖ {[id]}) None)
  | step_quit s id ts r d :
      (* a goroutine takes a value and ends *)
      records s !! id = Some ts -> running ts = S r -> doneChan ts = S d ->
      step s (put id (mkSession (files ts) r d (lastUsedAt ts)) s).

(** *** Requests *)

Record params := mkParams { p_Files : list string; p_Filter : string; FilterIsRegexp : bool }.

Inductive reply := Json (code : Z) (message : string).

Section Requests.
(** regexp.Compile and regexp.QuoteMeta *)
Context (Compile : string -> option re) (QuoteMeta : string -> string).

Definition filter_text (p : params) : string :=
  if decide (p_Filter p = EmptyString) then ".*"
  else if FilterIsRegexp p then "(?i)" +:+ p_Filter p
  else "(?i).*" +:+ QuoteMeta (p_Filter p) +:+ ".*".

(** createNewSession: the replies, and the files of the session it stores;
    [start] is the error of Start. *)
Definition createNewSession (body : option params) (start : error) : go (list reply * option (list string)) :=
  match body with
  | None => Ret ([Json 400 "Unable to parse JSON payload"], None)
  | Some p =>
      let first := match p_Files p with [] => [Json 422 "No files were specified"] | _ => [] end in
      match Compile (filter_text p) with
      | None => Panic "regexp: Compile"
      | Some _ =>
          Ret (app first [match start with
                          | Some err => Json 500 ("Unable to start tailing session: " +:+ err)
                          | None => Json 200 "Tailing session started"
                          end], Some (p_Files p))
      end
  end.
End Requests.

Definition touchSession (s : state) (id : string) : reply :=
  if decide (id ∈ sessions s) then Json 200 "Touched session" else Json 404 "Unable to find a session with this identifier".

Definition deleteSession (s : state) (id : string) : reply :=
  if decide (id ∈ sessions s) then Json 200 "Deleted the session" else Json 404 "Unable to find this session".

(** *** Theorems *)

(** The values that are still to be sent to a session. *)
Definition to_send (s : state) (id : string) : nat :=
  match stopping s with Some (i, m) => if decide (i = id) then m else 0%nat | None => 0%nat end.

Definition being_stopped (s : state) (id : string) : bool :=
  match stopping s with Some (i, _) => bool_decide (i = id) | None => false end.

(** A session that started, its goroutines and its channel: each value that was
    sent ends one goroutine. *)
Definition healthy (s : state) (id : string) (ts : TailingSession) : Prop :=
  (running ts <= files ts)%nat /\ (doneChan ts <= running ts)%nat /\
  (running ts = doneChan ts + (if being_stopped s id then to_send s id else if bool_decide (id ∈ sessions s) then files ts else 0))%nat.

(** A session that failed to start: more values than goroutines. *)
Definition clogged (s : state) (id : string) (ts : TailingSession) : Prop :=
  id ∈ sessions s /\ (doneChan ts <= files ts)%nat /\
  (running ts + (if being_stopped s id then files ts - to_send s id else 0) < doneChan ts)%nat /\ (to_send s id <= files ts)%nat.

Definition inv (s : state) : Prop :=
  (forall id ts, records s !! id = Some ts -> healthy s id ts \/ clogged s id ts) /\
  (forall id, id ∈ sessions s -> is_Some (records s !! id)) /\
  (forall id m, stopping s = Some (id, m) -> id ∈ sessions s).

Lemma start_fits n failed now s id : (match failed with Some k => k < n | None => True end)%nat ->
  id ∈ sessions s -> stopping s = None -> healthy s id (Start n failed now) \/ clogged s id (Start n failed now).
Proof.
  intros Hk Hin Hst. unfold healthy, clogged, being_stopped, to_send. rewrite Hst, bool_decide_eq_true_2 by done.
  destruct failed as [k|]; cbn; [right|left]; split_and!; (done || lia).
Qed.

Ltac unfold_session := unfold healthy, clogged, being_stopped, to_send in *; cbn [stopping sessions records put files running doneChan Touch] in *.

Lemma inv_create s id n failed now : inv s -> stopping s = None -> records s !! id = None ->
  (match failed with Some k => k < n | None => True end)%nat ->
  inv (mkState (<[id := Start n failed now]> (records s)) ({[id]} ∪ sessions s) None).
Proof.
  intros (Hr & Hs & Hst) H0 Hnew Hk. split_and!; cbn.
  - intros id' ts'. destruct (decide (id' = id)) as [->|Hne].
    + rewrite lookup_insert_eq. intros [= <-]. apply start_fits; cbn; [done|set_solver|done].
    + rewrite lookup_insert_ne by done. intros H. specialize (Hr _ _ H). unfold_session. rewrite H0 in Hr.
      rewrite (bool_decide_ext (id' ∈ {[id]} ∪ sessions s) (id' ∈ sessions s)) by set_solver.
      destruct Hr as [?|(? & ?)]; [by left|right; split; [set_solver|done]].
  - intros id' [->%elem_of_singleton|H]%elem_of_union; [by rewrite lookup_insert_eq|]. apply lookup_insert_is_Some'. right. by apply Hs.
  - done.
Qed.

(** A change of one session. *)
Lemma inv_put s id ts ts' : inv s -> records s !! id = Some ts -> (healthy s id ts -> healthy s id ts') -> (clogged s id ts -> clogged s id ts') ->
  inv (put id ts' s).
Proof.
  intros (Hr & Hs & Hst) Hts Hh Hc. split_and!; cbn; [|intros id' H; apply lookup_insert_is_Some'; right; by apply Hs|done].
  intros id' x. destruct (decide (id' = id)) as [->|Hne].
  - rewrite lookup_insert_eq. intros [= <-]. destruct (Hr _ _ Hts) as [H|H]; [left; exact (Hh H)|right; exact (Hc H)].
  - rewrite lookup_insert_ne by done. exact (Hr id' x).
Qed.

Lemma inv_begin s id ts : inv s -> stopping s = None -> id ∈ sessions s -> records s !! id = Some ts ->
  inv (mkState (records s) (sessions s) (Some (id, files ts))).
Proof.
  intros (Hr & Hs & Hst) H0 Hin Hts. split_and!; cbn; [|done|by intros id' m [= <- _]].
  intros id' x Hx. specialize (Hr _ _ Hx). unfold_session. rewrite H0 in Hr. destruct (decide (id = id')) as [<-|Hne].
  - rewrite bool_decide_eq_true_2 by done. rewrite Hts in Hx. injection Hx as <-. rewrite (bool_decide_eq_true_2 (id ∈ sessions s)) in Hr by done.
    destruct Hr as [?|?]; [left|right]; split_and!; (tauto || lia).
  - by rewrite bool_decide_eq_false_2.
Qed.

Lemma inv_send s id ts m : inv s -> stopping s = Some (id, S m) -> records s !! id = Some ts -> (doneChan ts < files ts)%nat ->
  inv (mkState (<[id := mkSession (files ts) (running ts) (S (doneChan ts)) (lastUsedAt ts)]> (records s)) (sessions s) (Some (id, m))).
Proof.
  intros (Hr & Hs & Hst) H0 Hts Hd. split_and!; cbn;
    [|intros id' H; apply lookup_insert_is_Some'; right; by apply Hs|intros id' m' [= <- _]; by eapply Hst].
  intros id' x. destruct (decide (id' = id)) as [->|Hne].
  - rewrite lookup_insert_eq. intros [= <-]. specialize (Hr _ _ Hts). unfold_session. rewrite H0, !decide_True, !bool_decide_eq_true_2 in * by done.
    destruct Hr as [?|?]; [left|right]; split_and!; (tauto || lia).
  - rewrite lookup_insert_ne by done. intros Hx. specialize (Hr _ _ Hx). unfold_session. rewrite H0 in Hr.
    rewrite !(decide_False (P := id = id')), !(bool_decide_eq_false_2 (id = id')) in * by done. exact Hr.
Qed.

(** A session that is clogged is never taken out of the map. *)
Lemma clogged_not_done s id ts : stopping s = Some (id, 0%nat) -> ~ clogged s id ts.
Proof. intros H0 (_ & ? & ? & ?). unfold_session. rewrite H0, decide_True, bool_decide_eq_true_2 in * by done. lia. Qed.

Lemma inv_deleted s id : inv s -> stopping s = Some (id, 0%nat) -> inv (mkState (records s) (sessions s ∖ {[id]}) None).
Proof.
  intros (Hr & Hs & Hst) H0. split_and!; cbn; [|intros id' [H _]%elem_of_difference; by apply Hs|done].
  intros id' x Hx. specialize (Hr _ _ Hx). destruct (decide (id = id')) as [<-|Hne].
  - destruct Hr as [Hr|Hr]; [left|by apply clogged_not_done in Hr]. unfold_session. rewrite H0, decide_True, bool_decide_eq_true_2 in Hr by done.
    rewrite bool_decide_eq_false_2 by set_solver. exact Hr.
  - unfold_session. rewrite H0, (decide_False (P := id = id')), (bool_decide_eq_false_2 (id = id')) in Hr by done.
    rewrite (bool_decide_ext (id' ∈ sessions s ∖ {[id]}) (id' ∈ sessions s)) by set_solver.
    destruct Hr as [?|(? & ?)]; [by left|right; split; [set_solver|done]].
Qed.

Lemma inv_step s s' : inv s -> step s s' -> inv s'.
Proof.
  intros Hi Hst. destruct Hst as [s0 id n failed now H0 Hnew Hk|s0 id ts now H0 Hin Hts|s0 id ts H0 Hin Hts|s0 id ts now H0 Hin Hts Hl|
    s0 id ts m H0 Hts Hd|s0 id H0|s0 id ts r d Hts Hrun Hch].
  - by apply inv_create.
  - eapply inv_put; [done|done|intros H; exact H..].
  - by apply inv_begin.
  - by apply inv_begin.
  - by apply inv_send.
  - by apply inv_deleted.
  - eapply inv_put; [done|done| |]; unfold healthy, clogged; cbn; rewrite Hrun, Hch; intros; split_and!; (tauto || lia).
Qed.

Lemma inv_reachable s : rtc step initial s -> inv s.
Proof.
  intros H. assert (Hi : inv initial) by (split_and!; cbn; [intros id ts Hx; by rewrite lookup_empty in Hx|set_solver|done]).
  induction H; [done|]. eauto using inv_step.
Qed.

(** No step ends the Stop of a clogged session. *)
Lemma clogged_step s s' id m ts : step s s' -> stopping s = Some (id, m) -> records s !! id = Some ts -> clogged s id ts ->
  exists m' ts', stopping s' = Some (id, m') /\ records s' !! id = Some ts' /\ (running ts' < doneChan ts')%nat.
Proof.
  intros Hst H0 Hts Hcl. assert (Hlt : (running ts < doneChan ts)%nat) by (destruct Hcl as (_ & _ & ? & _); lia).
  destruct Hst as [s id' n failed now H0' Hnew Hk|s id' ts' now H0' Hin Hts'|s id' ts' H0' Hin Hts'|s id' ts' now H0' Hin Hts' Hl|
    s id' ts' m' H0' Hts' Hd|s id' H0'|s id' ts' r d Hts' Hrun Hch]; try (rewrite H0 in H0'); try discriminate.
  - injection H0' as <- ->. rewrite Hts in Hts'. injection Hts' as <-. eexists m', _. cbn. rewrite lookup_insert_eq. split_and!; [done|done|cbn; lia].
  - injection H0' as <- ->. by apply clogged_not_done in Hcl.
  - cbn. destruct (decide (id' = id)) as [->|Hne].
    + rewrite Hts in Hts'. injection Hts' as <-. eexists m, _. rewrite lookup_insert_eq. split_and!; [done|done|cbn; lia].
    + exists m, ts. rewrite lookup_insert_ne by done. done.
Qed.

(** While the writer that holds the lock stops a session, it never waits
    and the goroutines of the session end, if the session started; but if a file
    of the session could not be followed, it waits for ever, and no session can
    be created or deleted any more. *)
Theorem failed_session_blocks_handler s id m ts :
  rtc step initial s -> stopping s = Some (id, m) -> records s !! id = Some ts ->
  if decide (running ts < doneChan ts)%nat
  then forall s', rtc step s s' -> exists m', stopping s' = Some (id, S m')
  else (running ts = doneChan ts + m)%nat /\ (m = 0%nat \/ doneChan ts < files ts)%nat.
Proof.
  intros Hreach H0 Hts. pose proof (inv_reachable s Hreach) as Hi. case_decide as Hc.
  - assert (Hcl : clogged s id ts).
    { destruct (proj1 Hi id ts Hts) as [(_ & ? & _)|?]; [lia|done]. }
    clear Hc Hreach. intros s' Hs. revert m ts Hi H0 Hts Hcl.
    induction Hs as [s|s s1 s2 Hst _ IH]; intros m ts Hi H0 Hts Hcl.
    + destruct m as [|m]; [by apply clogged_not_done in Hcl|by exists m].
    + destruct (clogged_step s s1 id m ts Hst H0 Hts Hcl) as (m1 & ts1 & Hs1 & Hts1 & Hlt). pose proof (inv_step _ _ Hi Hst) as Hi1. eapply IH; eauto.
      destruct (proj1 Hi1 id ts1 Hts1) as [(_ & ? & _)|?]; [lia|done].
  - destruct (proj1 Hi id ts Hts) as [Hh|(_ & _ & ? & _)]; [|lia]. unfold_session.
    rewrite H0, decide_True, bool_decide_eq_true_2 in Hh by done. destruct Hh as (? & ? & ?). split; [done|]. destruct m; [by left|right; lia].
Qed.

Lemma failed_session_blocks_handler_witness :
  let s := mkState {["s" := mkSession 2 0 2 0]} {["s"]} (Some ("s", 2%nat)) in
  doneChan (mkSession 2 0 2 0) = 2%nat /\ forall s', rtc step s s' -> exists m', stopping s' = Some ("s", S m').
Proof.
  split; [reflexivity|]. apply (failed_session_blocks_handler (mkState {["s" := mkSession 2 0 2 0]} {["s"]} (Some ("s", 2%nat))) "s" 2 (mkSession 2 0 2 0)).
  - eapply rtc_l; [apply (step_create initial "s" 2 (Some 0%nat) 0); [reflexivity|reflexivity|lia]|].
    eapply rtc_l; [eapply (step_delete _ "s"); [reflexivity|cbn; set_solver|reflexivity]|]. cbn. rewrite union_empty_r_L. apply rtc_refl.
  - reflexivity.
  - reflexivity.
Defined.

(** A request without files is answered twice, and a session is stored. *)
Lemma no_files_two_replies Compile QuoteMeta r : Compile ".*" = Some r ->
  createNewSession Compile QuoteMeta (Some (mkParams [] EmptyString false)) None =
  Ret ([Json 422 "No files were specified"; Json 200 "Tailing session started"], Some []).
Proof.
  intros H. unfold createNewSession. change (filter_text QuoteMeta (mkParams [] EmptyString false)) with ".*". by rewrite H.
Qed.

(** A filter that is not an expression panics. *)
Lemma bad_filter_panics Compile QuoteMeta f fs : f <> EmptyString -> Compile ("(?i)" +:+ f) = None ->
  createNewSession Compile QuoteMeta (Some (mkParams fs f true)) None = Panic "regexp: Compile".
Proof. intros Hf H. unfold createNewSession, filter_text. cbn [p_Filter FilterIsRegexp]. by rewrite decide_False, H by done. Qed.
End Tailer.

(** ** What is read off a log line *)

Module LogMeta.

Record LogMeta := mkMeta {
  Timestamp : string;        (* the text that is parsed as a time *)
  Hostname : string; LogLevel : string; Process : string; SyslogName : string; LogWithoutPrefix : string
}.

Definition nothing : LogMeta := mkMeta EmptyString EmptyString EmptyString EmptyString EmptyString EmptyString.

Record LogMetaExtractor := mkExtractor {
  LogLevelExtractor : string -> string -> string;
  LogLevelNormalizer : option (string -> string);
  ProcessNameExtractor : string -> string -> string
}.

(** The group of the first match, and the empty text without one. *)
Definition reExtractor (m : option captures) (capturePosition : nat) : string :=
  match m with Some c => group capturePosition c | None => EmptyString end.

Definition is_upper (c : Ascii.ascii) : bool := in_class "A" "Z" c.
Definition is_lower (c : Ascii.ascii) : bool := in_class "a" "z" c.
Definition not_space (c : Ascii.ascii) : bool := negb (is_space c).

(** (?i) for letters without a third form in Unicode. *)
Fixpoint any_case (s : string) : re :=
  match s with
  | EmptyString => Eps
  | String c s' => Seq (Chr (fun d => bool_decide (ascii_lower d = ascii_lower c))) (any_case s')
  end.

Definition errorRegexp : re := seqs [Star (Chr any_char); any_case "error"; Star (Chr any_char)].

Definition freeradiusMetaExtractor : LogMetaExtractor :=
  mkExtractor (fun _ log => if MatchString errorRegexp log then "error" else "info") None (fun _ _ => "radiusd").

Definition golang_level : re := Seq (lit "lvl=") (Grp 1 (Plus (Chr is_lower))).

(** A missing key of the map gives the empty text. *)
Definition golang_normalizer (level : string) : string :=
  if decide (level = "dbug") then "debug" else if decide (level = "info") then "info"
  else if decide (level = "warn") then "warn" else if decide (level = "eror") then "error" else EmptyString.

Definition golangMetaExtractor : LogMetaExtractor :=
  mkExtractor (fun _ log => reExtractor (re_find golang_level log) 1) (Some golang_normalizer) (fun syslogName _ => syslogName).

(** Words with the space after them. *)
Definition words (n : nat) : re := Rep (Grp 1 (Seq (Plus (Chr not_space)) (Plus (Chr is_space)))) n n.

(** The level consists of upper case letters of ASCII. *)
Definition log4perlMetaExtractor : LogMetaExtractor :=
  mkExtractor (fun _ log => reExtractor (re_find_start (Seq (words 6) (Grp 2 (Plus (Chr is_upper)))) log) 2) (Some ToLower)
    (fun _ log => reExtractor (re_find_start (seqs [words 5; Grp 2 (LazyPlus (Chr any_char)); lit "("]) log) 2).

(** strings.Replace of one character, and the removal of a text. *)
Fixpoint underscores_to_dots (s : string) : string :=
  match s with EmptyString => EmptyString | String c s' => String (if decide (c = "_"%char) then "."%char else c) (underscores_to_dots s') end.

Fixpoint remove_all (fuel : nat) (p s : string) : string :=
  match fuel with
  | O => s
  | S f =>
      match s with
      | EmptyString => EmptyString
      | String c s' => if HasPrefix s p then remove_all f p (drop_str (String.length p) s) else String c (remove_all f p s')
      end
  end.

Definition apacheAccessMetaExtractor : LogMetaExtractor :=
  mkExtractor (fun _ _ => "info") None (fun syslogName _ => underscores_to_dots syslogName).

Definition apacheErrorMetaExtractor : LogMetaExtractor :=
  mkExtractor (fun _ _ => "error") None
    (fun syslogName _ => let s := underscores_to_dots syslogName in remove_all (String.length s) ".err" s).

Definition SyslogMap : list (string * LogMetaExtractor) :=
  let fr := freeradiusMetaExtractor in let golang := golangMetaExtractor in let access := apacheAccessMetaExtractor in
  let err := apacheErrorMetaExtractor in let perl := log4perlMetaExtractor in
  [("acct", fr); ("api-frontend", golang); ("auth", fr); ("fingerbank-collector", golang); ("httpd_aaa", access); ("httpd_aaa_err", err);
   ("httpd_admin_access", access); ("httpd_admin_err", err); ("httpd_collector_access", access); ("httpd_collector_err", err);
   ("httpd_portal_access", access); ("httpd_portal_err", err); ("httpd_proxy_access", access); ("httpd_proxy_err", err);
   ("httpd_webservices_access", access); ("httpd_webservices_err", err); ("load_balancer", fr); ("packetfence", perl);
   ("packetfence_httpd.aaa", perl); ("packetfence_httpd.portal", perl); ("packetfence_httpd.webservices", perl);
   ("packetfence_winbindd-wrapper", perl); ("pfacct", golang); ("pfdhcp", golang); ("pfdhcplistener", perl); ("pfdns", golang);
   ("pffilter", perl); ("pfhttpd", golang); ("pfipset", golang); ("pfcron", golang); ("pfqueue", perl); ("pfsso", golang); ("pfstats", golang)].

(** A letter, ignoring the case: two characters beyond ASCII count as one. *)
Definition letter : re :=
  Alt (Chr (fun c => is_upper c || is_lower c))
    (Alt (lit (String "197" (String "191" EmptyString))) (lit (String "226" (String "132" (String "170" EmptyString))))).

Definition two_digits : re := Rep (Chr is_digit) 1 2.

Definition GlobalExtractionRe : re :=
  seqs [Grp 1 (seqs [Plus letter; spaces; two_digits; spaces; two_digits; lit ":"; two_digits; lit ":"; two_digits]); Chr is_space;
        Grp 2 (LazyPlus (Chr any_char)); Chr is_space; Grp 3 (LazyPlus (Chr any_char));
        Grp 4 (Alt (lit ":") (seqs [lit "["; digits_re; lit "]:"])); Grp 5 (Plus (Chr any_char))].

(** LogMetaExtractor.ExtractMeta: the level and the process. *)
Definition extract (e : LogMetaExtractor) (syslogName log : string) (lm : LogMeta) : LogMeta :=
  let level := LogLevelExtractor e syslogName log in
  mkMeta (Timestamp lm) (Hostname lm) (match LogLevelNormalizer e with Some f => f level | None => level end)
    (ProcessNameExtractor e syslogName log) (SyslogName lm) (LogWithoutPrefix lm).

(** LogMetaEngine.ExtractMeta *)
Definition ExtractMeta (year log : string) : LogMeta :=
  match re_find_start GlobalExtractionRe log with
  | None => nothing
  | Some m =>
      let lm := mkMeta (group 1 m +:+ " " +:+ year) (group 2 m) EmptyString EmptyString (group 3 m) (Trim (group 5 m) " ") in
      match List.find (fun kv => bool_decide (kv.1 = group 3 m)) SyslogMap with
      | Some (_, e) => extract e (group 3 m) log lm
      | None => lm
      end
  end.

(** The lines of the tests of the package. *)
Lemma golang_line :
  ExtractMeta "2020" "Apr 07 17:12:00 pf pfipset[2126]: lvl=info msg=x pid=2126" =
  mkMeta "Apr 07 17:12:00 2020" "pf" "info" "pfipset" "pfipset" "lvl=info msg=x pid=2126".
Proof. vm_compute. reflexivity. Qed.

Lemma freeradius_line :
  ExtractMeta "2020" "Apr 27 05:53:49 pf7-1 auth[11054]: tls: TLS_accept: Error in SSLv3 read client key exchange A" =
  mkMeta "Apr 27 05:53:49 2020" "pf7-1" "error" "radiusd" "auth" "tls: TLS_accept: Error in SSLv3 read client key exchange A".
Proof. vm_compute. reflexivity. Qed.

Lemma log4perl_line :
  ExtractMeta "2020" "Apr 24 15:30:50 vpf1 packetfence_httpd.aaa: httpd.aaa(20139) INFO: [mac:00:11:22:33:44:55] (1.2.3.4) Added VLAN 232" =
  mkMeta "Apr 24 15:30:50 2020" "vpf1" "info" "httpd.aaa" "packetfence_httpd.aaa" "httpd.aaa(20139) INFO: [mac:00:11:22:33:44:55] (1.2.3.4) Added VLAN 232".
Proof. vm_compute. reflexivity. Qed.

Lemma apache_line :
  Process (ExtractMeta "2020" "Apr 27 08:36:13 vpf1 httpd_aaa_err: Use of uninitialized value") = "httpd.aaa".
Proof. vm_compute. reflexivity. Qed.
End LogMeta.

(** ** The status of jobs *)

Module JobStatus.

Definition STATUS_PENDING : Z := 202.
Definition POLL_TIMEOUT : Z := 15.

Definition jobStatusKey (jobId : string) : string := jobId +:+ "-Status".
Definition jobStatusUpdatesKey (jobId : string) : string := jobStatusKey jobId +:+ "-Updates".

(** What is written: a status, a body ([None]: it could not be encoded), and
    the wait of a poll for a message or its timeout. *)
Inductive event := WriteHeader (code : Z) | Body (b : option jv) | Wait (channel : string).

Section Handlers.
(** Redis: the hash of a key and whether a key exists, each after [n] earlier
    calls of the request ([None] is an error), and whether a channel can be
    subscribed to; and the decoder of JSON. *)
Context (HGetAll : nat -> string -> option (list (string * string))) (Exists : nat -> string -> option bool).
Context (Subscribe : string -> bool) (RawMessage : string -> option jv).

Definition result (kv : string * string) : option (string * jv) :=
  let '(k, v) := kv in
  if decide (k = "item" \/ k = "error") then (fun j => (k, j)) <$> RawMessage v
  else if decide (k = "status") then Some (k, JNum (let '(i, err) := Atoi v in if err : bool then 400 else i))
  else Some (k, JStr v).

Definition sendResults (data : list (string * string)) : list event :=
  [WriteHeader 200; Body (JMap <$> mapM result data)].

Definition writeMessage (code : Z) (message : string) : list event :=
  [WriteHeader code; Body (Some (JMap [("message", JStr message); ("status", JNum code)]))].

Definition redis_error : string := "Unable to get job status from redis database".

Definition writeJobStatus (n : nat) (jobId : string) : list event :=
  match HGetAll n (jobStatusKey jobId) with
  | None => writeMessage 500 redis_error
  | Some data => sendResults data
  end.

(** [n]: the calls before. *)
Definition handleStatus (n : nat) (jobId : string) : list event :=
  match Exists n (jobStatusKey jobId) with
  | None => writeMessage 500 "Unable to check if job status exists in redis database"
  | Some true => writeJobStatus n jobId
  | Some false =>
      match Exists (S n) jobId with
      | None => writeMessage 500 "Unable to check if job exists in redis database"
      | Some true => writeMessage STATUS_PENDING "In Progress"
      | Some false => writeMessage 404 "Unable to find pending, running or completed job status"
      end
  end.

Definition status_of (data : list (string * string)) : string :=
  match List.find (fun kv => bool_decide (kv.1 = "status")) data with Some (_, v) => v | None => EmptyString end.

Definition finished (data : list (string * string)) : bool := bool_decide (status_of data = "200" \/ status_of data = "400").

(** After an error of the first query the handler goes on. *)
Definition handleStatusPoll (jobId : string) : list event :=
  let subscribe :=
    if Subscribe (jobStatusUpdatesKey jobId) then Wait (jobStatusUpdatesKey jobId) :: handleStatus 1 jobId
    else writeMessage 500 redis_error in
  match HGetAll 0 (jobStatusKey jobId) with
  | None => app (writeMessage 500 redis_error) subscribe
  | Some data => if finished data then sendResults data else subscribe
  end.

Definition headers (l : list event) : nat := length (List.filter (fun e => match e with WriteHeader _ => true | _ => false end) l).

Lemma headers_app l l' : headers (app l l') = (headers l + headers l')%nat.
Proof. unfold headers. by rewrite List.filter_app, length_app. Qed.

Lemma handleStatus_once n jobId : headers (handleStatus n jobId) = 1%nat.
Proof. unfold handleStatus, writeJobStatus. by destruct (Exists n _) as [[]|]; [destruct (HGetAll n _)|destruct (Exists (S n) _) as [[]|]|]. Qed.

(** A poll is answered once, with the results at once if the job has
    finished, and after the wait otherwise; but when the first query of the
    database fails, two responses are written. *)
Theorem poll_answers_twice_after_error jobId :
  headers (handleStatusPoll jobId) = (match HGetAll 0 (jobStatusKey jobId) with None => 2 | Some _ => 1 end)%nat /\
  (forall data, HGetAll 0 (jobStatusKey jobId) = Some data -> finished data = true -> handleStatusPoll jobId = sendResults data).
Proof.
  unfold handleStatusPoll. destruct (HGetAll 0 (jobStatusKey jobId)) as [data|].
  - split; [|by intros d [= <-] ->]. destruct (finished data); [done|]. destruct (Subscribe _); [|done]. exact (handleStatus_once 1 jobId).
  - split; [|done]. rewrite headers_app. destruct (Subscribe _); [|done]. pose proof (handleStatus_once 1 jobId) as H. cbn. unfold headers in H. cbn in H |- *. lia.
Qed.
End Handlers.

Lemma poll_answers_twice_after_error_witness :
  handleStatusPoll (fun _ _ => Some [("status", "200")]) (fun _ _ => None) (fun _ => true) (fun _ => None) "7" = [WriteHeader 200; Body (Some (JMap [("status", JNum 200)]))].
Proof.
  apply (proj2 (poll_answers_twice_after_error (fun _ _ => Some [("status", "200")]) (fun _ _ => None) (fun _ => true) (fun _ => None) "7") [("status", "200")]);
    vm_compute; reflexivity.
Defined.

(** A result that is not JSON leaves the body empty, with status 200. *)
Lemma bad_result_empties_body : sendResults (fun _ => None) [("item", "x"); ("status", "200")] = [WriteHeader 200; Body None].
Proof. reflexivity. Qed.
End JobStatus.

(** ** The limit of concurrent requests *)

Module RequestLimit.

(** A request waits, is served and ends; it ends also by a panic, since the
    slot is given back in a deferred function. *)
Inductive phase := Waiting | Serving | Ended.

(** The values in the channel and the requests. *)
Record state := mkState { sem : nat; requests : list phase }.

Inductive step (max : nat) : state -> state -> Prop :=
  | step_arrive s : step max s (mkState (sem s) (app (requests s) [Waiting]))
  | step_enter s i : requests s !! i = Some Waiting -> (sem s < max)%nat ->
      step max s (mkState (S (sem s)) (<[i := Serving]> (requests s)))
  | step_leave s i n : requests s !! i = Some Serving -> sem s = S n -> step max s (mkState n (<[i := Ended]> (requests s))).

Definition is_serving (p : phase) : bool := match p with Serving => true | _ => false end.
Definition serving (l : list phase) : nat := length (List.filter is_serving l).

Lemma serving_app l l' : serving (app l l') = (serving l + serving l')%nat.
Proof. unfold serving. by rewrite List.filter_app, length_app. Qed.

Lemma serving_cons p l : serving (p :: l) = ((if is_serving p then 1 else 0) + serving l)%nat.
Proof. unfold serving. cbn. by destruct (is_serving p). Qed.

Lemma serving_insert l i p q : l !! i = Some p -> (serving (<[i := q]> l) + (if is_serving p then 1 else 0) = serving l + (if is_serving q then 1 else 0))%nat.
Proof.
  revert i. induction l as [|x l IH]; intros [|i] H; try done.
  - injection H as ->. change (<[0%nat := q]> (p :: l)) with (q :: l). rewrite !serving_cons. lia.
  - change (<[S i := q]> (x :: l)) with (x :: <[i := q]> l). rewrite !serving_cons. specialize (IH i H). lia.
Qed.

(** At any time at most the configured number of requests is served, the
    channel counts them exactly, and with the limit 0, which an empty argument
    leaves, none is ever served. *)
Theorem at_most_max_are_served max s : rtc (step max) (mkState 0 []) s -> sem s = serving (requests s) /\ (serving (requests s) <= max)%nat.
Proof.
  intros H. enough (sem s = serving (requests s) /\ (sem s <= max)%nat) as [E ?] by (rewrite <- E; done).
  assert (H0 : sem (mkState 0 []) = serving (requests (mkState 0 [])) /\ (sem (mkState 0 []) <= max)%nat) by (split; [done|cbn; lia]).
  induction H as [|s s1 s2 Hs _ IH]; [done|]. apply IH. destruct H0 as [He Hm].
  destruct Hs as [s|s i Hi Hlt|s i n Hi Hn]; cbn [sem requests]; [rewrite serving_app; change (serving [Waiting]) with 0%nat; lia| |];
    pose proof (serving_insert _ _ _ Serving Hi); pose proof (serving_insert _ _ _ Ended Hi); cbn [is_serving] in *; lia.
Qed.

Lemma at_most_max_are_served_witness : (serving [Serving; Waiting] <= 1)%nat.
Proof.
  apply (at_most_max_are_served 1 (mkState 1 [Serving; Waiting])). eapply rtc_l; [apply step_arrive|]. eapply rtc_l; [apply step_arrive|].
  eapply rtc_l; [apply (step_enter _ _ 0); [reflexivity|cbn; lia]|]. apply rtc_refl.
Defined.
End RequestLimit.

(** ** Arrays in the database *)

Module Csv.

(** What the driver hands to Scan. *)
Inductive source := Nil | Text (s : string) | Other.

Definition scanError : string := "Invalid type given".

(** [None] is a nil array. *)
Definition Scan (src : source) : option (list string) + string :=
  match src with
  | Nil => inl None
  | Text tmp => inl (Some (Split tmp ","))
  | Other => inr scanError
  end.

Definition Value (a : list string) : string := StrJoin a ",".

(** An array is read back as it was written if it has an element and no
    element has a comma; an empty array is read back with one empty element. *)
Theorem array_roundtrip a : Forall (fun s => no_char "," s = true) a ->
  Scan (Text (Value a)) = inl (Some (match a with [] => [EmptyString] | _ => a end)).
Proof.
  intros H. unfold Scan, Value. destruct a as [|x a]; [done|]. do 2 f_equal. by apply (Split_StrJoin "," (x :: a)).
Qed.

Lemma array_roundtrip_witness : Scan (Text "a,b") = inl (Some ["a"; "b"]).
Proof. apply (array_roundtrip ["a"; "b"]). repeat constructor. Defined.
End Csv.
